(* ===== verification/_CoqProject ===== *)
-Q . S2P
Prelude.v
Utf8.v
Gs1.v
Km.v
ProductLabel.v
WarehouseReprint.v
Repacking.v
OfflineGrants.v
DocText.v
InventoryScan.v
InventorySync.v
Dates.v
InventoryDocs.v
Attributes.v
Doubles.v
MonoRaster.v
Wrap.v
JsNumber.v
LabelModel.v
Zpl.v
Tspl.v
BoxLabel.v
Effects.v
KioskApi.v
Json.v
KioskCart.v
KioskFlow.v
KioskOutcomes.v
KioskQueue.v
KioskCustody.v
KioskDelivery.v
KioskRetry.v
KioskRegistry.v
KioskRefresh.v
KioskRefreshDone.v
BoxFacts.v
PickupLines.v
PickupOrders.v
PickupSafety.v
PickupTransitions.v
PickupBound.v
PickupRuns.v
BoxCursor.v
BoxFeed.v
BoxVersions.v
BoxBatch.v
BoxFeedLaw.v
BoxMirror.v
BoxServe.v
BoxCatchUp.v
BoxSample.v
Disaggregation.v
DisaggregationFeed.v
DisaggregationEffect.v
DisaggregationApply.v
DisaggregationLife.v
DisaggregationSample.v
ScanOwnership.v
