(* ===== verification/Prelude.v ===== *)
(** * A model of Markiro's rules, its kiosk and its pickup orders, with proofs

    Markiro marks, aggregates, inventories and reprints goods with mandatory
    marking codes (Chestny ZNAK).  Its stations, kiosks, admin pages and server
    share one pure TypeScript package, [packages/domain/src], which holds the
    rules: what a scan is, which event a job accepts, what a device may decide
    offline, what a document lists.  The kiosk, [apps/kiosk/src], is where a
    worker takes goods: it works offline, keeps the orders in a queue of its own
    and knows the boxes from a registry it downloads.  The server,
    [apps/api/src], files the orders the kiosks send: who may take what is
    decided there, in transactions that compete; it also tells the kiosks, page by
    page, which boxes can be handed out.  This library translates the
    rules, the kiosk, the filing of orders and the feed of the boxes, component by
    component, and proves what each component promises.

    ** Files and the code they model

    Of [packages/domain/src]:

    - [Prelude] (this file): JavaScript values.  A string is a list of UTF-16
      code units ([jsstr], with [js] decoding a UTF-8 literal); a number is a
      [jsnum], or a [Z] where the source has already checked that it is an
      integer; an exception is the [Throw] branch of [result], a [DomainError]
      with its code apart from the other errors.  Also the stable insertion
      sort that stands for [Array.prototype.sort] with a consistent comparator
      (the class [Comparator] states what is asked of one), the tactics
      ([bool_hyps], [pass_guard], [js_lits]) and the hint database [jsdb].
    - [Utf8]: the decoder of UTF-8, and what it makes of an encoded string.
    - [Gs1]: gs1/check-digit.ts, gtin.ts, sscc.ts and inn.ts.
    - [Km]: gs1/km.ts (the grammar of a marking code, its canonical form, its
      key and hash) and scan/ (what a scan is, whether a shift accepts it).
    - [ProductLabel]: product-labels/ (events, guard, reducer, control scan).
    - [WarehouseReprint]: warehouse-reprint/scan.ts, the event schema of
      contracts.ts and the reducer of state.ts.
    - [Repacking]: inventory/repacking.ts, the reducer of one open box.
    - [OfflineGrants]: offline-grants/, without its JWS envelope.
    - [DocText]: document-text-encoding.ts.
    - [InventoryScan]: inventory/status.ts, snapshot.ts and scan.ts.
    - [InventorySync]: inventory/station-sync.ts.
    - [Dates]: labels/shelf-life.ts, labels/date.ts, shift-number.ts and
      shift-close.ts.
    - [InventoryDocs]: inventory/documents.ts and document-selection.ts.
    - [Attributes]: product-attributes/.
    - [Doubles]: IEEE doubles, for the files below.
    - [MonoRaster]: labels/mono-raster.ts and mono-compose.ts.
    - [Wrap]: labels/wrap.ts.
    - [JsNumber]: how a double is written ([Number.prototype.toString]) and the
      functions of [Math] the emitters call.
    - [LabelModel]: labels/model.ts, text.ts, raster-types.ts,
      printer-commands.ts, label-logo.ts, the packing of raster.ts,
      barcodes/gs1-data-matrix.ts; and the bytes the station sends.
    - [Zpl]: labels/zpl.ts and a reader of ZPL; [Tspl]: labels/tspl.ts and a
      reader of TSPL.
    - [BoxLabel]: labels/box-label.ts, pallet-label.ts, eligibility.ts,
      code128.ts and [renderLabelBytes] of the station's lib/print-label.ts.

    Of [apps/kiosk/src]:

    - [Effects]: [async] functions as trees of the operations they await
      ([prog]), run against a list of choices of the environment; [wp] for what
      holds whatever is chosen, [reach] for what good choices lead to.
    - [KioskApi]: api/types.ts, the errors of api/client.ts and
      store/installation-binding.ts; also values of type [unknown].
    - [KioskCart]: domain-guard/classify.ts, session/cart.ts, the policy of
      session/day-count.ts, session/box-resolution.ts and screens/money.ts.
    - [KioskFlow]: session/flow.ts, the screens of a session; around it, as a step
      relation, the confirmed sessions that are written down and recovered
      (grants/drafts.ts) and the reloads of the page.
    - [KioskOutcomes]: store/outcomes.ts.
    - [KioskQueue]: store/queue.ts, store/journal.ts, [readConfig] of
      store/config.ts, grants/evidence.ts and one pass of sync/worker.ts
      ([drainOnce]); [KioskCustody] and [KioskDelivery] prove its safety and its
      liveness.
    - [KioskRetry]: the chain of passes and the backoff of sync/worker.ts
      ([flushQueue], [scheduleRetry], [cancelFlushRetry]).
    - [KioskRegistry]: store/box-registry.ts and [writeConfig];
      [KioskRefresh]: [refreshBoxRegistry] of sync/worker.ts, what it keeps and
      what it costs; [KioskRefreshDone]: that it succeeds when undisturbed.

    Of [apps/api/src], with the tables of [packages/db/src/schema]:

    - [BoxFacts]: modules/kiosk/box-registry.service.ts, what is known about the
      members of a box and whether it can be handed out.
    - [Json]: [JSON.parse] and [JSON.stringify] of the language, for [BoxCursor]:
      modules/kiosk/box-registry.dto.ts, the revisions and the cursors.
    - [BoxFeed]: the windows, the pages and the handler of the feed
      (box-registry.dto.ts, box-registry.service.ts), as a program of [Effects]
      over reads of tables that change between them.
    - [BoxVersions]: modules/boxes/box-registry-version.ts and
      modules/products/product-registry-invalidation.ts, how a transaction takes a
      revision, and what histories of the tables come of it ([chronicle]).
    - [BoxBatch]: what a page reads in a batch; [BoxFeedLaw]: a page shows one
      revision and the pages of a refresh are whole; [BoxMirror]: with the kiosk of
      [KioskRefresh], the mirror; [BoxServe]: what is sent passes the checks of
      [KioskRegistry]; [BoxCatchUp]: with [KioskRefreshDone], catching up;
      [BoxSample]: a small history, for the witnesses.
    - [Disaggregation]: modules/disaggregation/ (disaggregation.service.ts,
      line-validation.ts, doc-number.ts, import-parser.ts), documents that take boxes
      and pallets apart; [DisaggregationFeed]: that they announce what they change;
      [DisaggregationEffect]: what the registry is after an application;
      [DisaggregationApply]: what an application may take apart and what it writes;
      [DisaggregationLife]: every history of documents; [DisaggregationSample]: one
      document, for the witnesses.
    - [ScanOwnership]: modules/station-scans/conflict-resolution.ts and the claims and
      releases of station-scans.service.ts: which station's scan owns a code.
    - [PickupLines]: modules/pickup-orders/document-source.ts,
      box-order-resolver.ts, the pure parts of kiosk-admission-proof.ts and
      pickup-orders.service.ts, pickup/order-number.ts and total-price.ts.
    - [PickupOrders]: pickup-orders.service.ts as a kiosk uses it: the tables
      with their unique indexes, [createForDevice] and everything it calls,
      [cancel], [resolve], [applyExternalStatus], [exportCodes], as programs of
      [Effects] over queries, commits and locks.
    - [PickupSafety]: the invariant of the tables, what a transaction may do with
      the locks it holds, and that [createForDevice] keeps to it;
      [PickupTransitions]: so do the transitions of an order; [PickupBound]: that
      it ends; [PickupRuns]: the theorems on whole requests, and the runs that
      show what is not promised.

    ** How the parts interact

    [Km] calls the GTIN and SSCC functions of [Gs1]; [ProductLabel],
    [WarehouseReprint] and [InventoryScan] call the parser of [Km];
    [WarehouseReprint] reuses the duplicate comparison of [ProductLabel];
    [InventoryDocs] sorts with the comparators of [DocText]; [MonoRaster] and
    [Wrap] share [Doubles]; the emitters [Zpl] and [Tspl] print the elements of
    [LabelModel], which draws logos with [MonoRaster] and reads codes with [Km],
    and [Tspl] breaks lines with [Wrap].  The kiosk classifies scans with [Km], resolves a box
    against the registry, collects lines in the cart, and the flow turns a
    confirmed cart into the order the queue keeps; a pass over the queue writes
    the outcomes and the journal.  The server parses
    the codes of an order with [Km], resolves its boxes with [BoxFacts], and
    answers with the types of [KioskApi].  The feed of [BoxFeed] evaluates boxes
    with [BoxFacts]; [KioskRefresh] is proved against what it asks of a server
    ([server_law]), and [BoxMirror] shows that the feed keeps it ([feed_law]), so
    C4 joins both programs.  [Disaggregation] writes the tables the feed reads, with
    the function of [BoxVersions] that takes a revision, and asks of the orders of
    [PickupOrders] which boxes and codes they hold.  [ScanOwnership] writes the rows of
    [code_registry] in which the feed looks for the owner of a member.  A component's own file proves its
    lemmas; its clients use only these.  Two contracts cross a component's
    border and are stated as classes: [Prelude.Comparator] (a comparator that
    sorts) and [InventoryScan.LocaleCompare] (what the claims' order asks of
    the locale's string comparison).

    A reducer is a function from a state and an event to a [result]; the job's
    history is the fold of the reducer over the events.  Mutable objects of
    the source (the page a bitmap is pasted on, the maps of a registry) are
    passed as state, since no caller keeps an alias to what is replaced.  The
    object stores of the kiosk are the fields of a record; one awaited operation
    is one transaction on it, and between two of them other tasks may act, an
    operation may fail, and the process may die.  Fields that only record history
    for the theorems are named as such where they are declared.  The tables of
    the server are a record of lists of rows; a query sees what was committed
    before it, the writes of a transaction are one commit that the unique indexes
    accept or refuse, and what other transactions may do in between is limited by
    the locks that are held (rely and guarantee: the theorem on [createForDevice]
    shows that it does no more than it expects of others).

    ** What is proved

    - C1 to C3 ([KioskCustody], [KioskDelivery]): no accepted order is lost, no request for
      an order overtakes an ordinary one, and an undisturbed pass delivers the queue when
      no order in it carries grant evidence and every outcome can be stored.
    - C4 ([BoxMirror]): what a kiosk reads of the boxes is what the server's tables
      said at a revision they had, whatever commits, runs, fails or overlaps;
      C5 ([BoxCatchUp]): a refresh that nobody disturbs brings the newest, if the
      tables are ones whose pages the kiosk takes.
    - C6, C7 ([ScanOwnership]): after any history a code is owned by the earliest of its
      scans since it was last given back, so without releases and ties however scans are
      cut into batches and whenever these arrive; no scan loses without a record.
    - C8 to C12 (the files of [Disaggregation]): the documents that take boxes apart
      change the tables only as C4 and C5 expect; what kiosks are told of after one
      was applied; it takes apart what it lists, all of it fit; documents, lines and
      what was taken apart stay in order over every history, nothing is taken apart
      twice, and a document that was applied or cancelled is final.
    - C13 to C18 ([PickupRuns], [PickupBound], [PickupTransitions]): filing an order
      keeps the tables in order whatever fails or competes, answers every line
      once, answers a repeated request alike, ends, and keeps what counts against the
      allowance of a day within it (write-offs do not count); cancelling and resolving touch one pending order.
    - C19 ([KioskRetry]): passes over the queue take turns, and none is turned away; C20
      ([Wrap]): the lines of a label's text are within the width and the limit, and
      nothing is lost without the marker.
    - C21 ([BoxCursor]): a cursor has one spelling, and reads back; C22
      ([BoxBatch]): the members of a page's boxes, read in a batch, are those read
      of each box alone.
    - C23 ([Zpl]), C24 ([Tspl]): a reader of the printer's language, which knows
      nothing of templates, finds in the bytes sent exactly the label the
      template describes (in TSPL, for texts that fit their lines).
    - C25 ([KioskCart]), C26 ([KioskFlow]): lines never share a bottle and stay
      within the allowance; what a confirmed session sends, and that a write-off was confirmed by one who could.
    - C27, C28 ([Km]): the parser accepts exactly the grammar and returns its
      parse; what ingest stores of a code.
    - C29 ([ProductLabel]): the reducer is a state machine given as rules, which name
      what comes of every event.
    - C30 ([WarehouseReprint]): every accepted history is well accounted.
    - C31, C32 ([Repacking]): the invariant of every reachable state, and the
      refinement of an abstract box of codes by the reducer.
    - C33 ([OfflineGrants]): budgets are never exceeded over any series of
      completions.
    - C34 ([InventoryScan]): the verdict on a box.
    - C35 ([InventorySync]): an accepted answer accounts for the whole batch.
    - C36 ([Gs1]): building and parsing an SSCC are inverse.
    - C37 ([DocText]): an independent reader of the bytes gets the CSV cells back.
    - C38, C39 ([Attributes]): readiness is the presence of every required
      attribute; a parsed schema is well formed, migration included.
    - C40 ([MonoRaster]): the artifact codec is a bijection between valid pages
      and accepted artifacts.

    Theorems of the library without a number say more of the same kind: what a
    refresh does against any lawful server and when it succeeds ([KioskRefresh],
    [KioskRefreshDone]), the backoff of the retries ([KioskRetry]), what is kept of outcomes ([KioskOutcomes]), a shift accepts a code
    once ([Km]), every accepted history of a label is well accounted
    ([ProductLabel]), trusted time never runs back ([OfflineGrants]), an accepted
    batch is in order and a progress page chains onto the one before ([InventorySync]), the
    calendar of [Dates], the dates of a label and the fields it depends on in
    [BoxLabel], the registry of [InventoryDocs] and the boxes a document may list, the totals of
    [KioskFlow].  [PickupRuns] also runs two requests that show what is not promised:
    one that is told it is refused though its order is filed, and one that a failure of
    the database refuses.

    ** Bounds and fuel

    [parse_ais] takes the length of its input as fuel and drops at least three
    characters a turn; running out would be an error that is not a domain error,
    and [Km.parse_ais_domain] shows that every error is one.  [js_of_nonneg]
    takes the binary logarithm of the number, which bounds its decimal digits.
    The binary search of [clipWithEllipsis] takes the length of the text: the
    interval shrinks at every turn.  [fetch_pages] takes the page limit of the
    code and [refresh_attempts] its number of attempts.  [shortest] tries up to
    seventeen digits, which ECMAScript guarantees to be enough, and the reader of
    TSPL takes the length of its input, one command being never empty.  [Json] parses with the
    length of the text, and [json_value_enough] shows that this is enough.  All other
    recursion is structural.  Integers are compared with 2^53 - 1 where the source calls
    [Number.isSafeInteger]; sums it does not check are of checked operands, and
    kopecks are integers, exact as long as they are safe.

    ** What is a parameter

    SHA-256 (@noble/hashes), the locale's string comparison, the date, time and
    UUID checks of Zod, the SHA-256 digest of a batch's canonical JSON, the
    measure of a text, [Date.parse] of the kiosk, what its server answers, the
    rasterizer of texts, the encoder of bwip-js, the local date of an instant, and
    for the server [Date.parse], the two digests of a reservation and the UUID
    check of a cursor.
    Where a theorem needs something of one (that two keys do not collide, that a
    comparison is a total preorder, that a measure is a number, that a complete
    series of registry pages is the difference of two revisions, that a raster
    has the bytes it announces), it is a named
    hypothesis, and the witness of the theorem gives a function that meets it.

    ** What is not modelled yet, and why

    Of the domain package: the importers of label code, the layout of pallet
    sheets, the symbology inside the data of a linear code (the readers stop at
    the data of a field), the XML and CSV bodies of exports, the commercial terms, the compact
    JWS documents and licences, and the cabinet's capabilities are to follow.
    HTML print forms, default templates and fixtures hold no logic of their own.
    Of the kiosk: accepting an order under a strict offline grant (grants/: an
    accepted order is an event of the environment), the negotiation of
    reservations, scanners, product images and the screens themselves; the
    theorems on the queue are about one numbering of the orders, that is one
    pairing.  Of the server: orders of a handheld, the hooks of grant evidence,
    issuing reservations, the bootstrap of a kiosk, listings and slips, the report on
    a document, and the rest of a station's batch: its boxes, closures, pallets and
    exceptions (of which the feed asks that they stamp what they change, [announces], as
    documents are shown to), validation shifts, and reclaiming the codes that the batch's
    own exceptions released, which withdraws what the same batch put on record.  The rest of the server and the other user interfaces
    (apps/admin, station, standalone) are input, output and persistence around
    this code. *)

From stdpp Require Import base list strings gmap sorting.
From Stdlib Require Import ZArith QArith Lia.

#[global] Open Scope Z_scope.

(** ** Results of code that may throw *)

(** [DomainError] carries the stable machine-readable code of
    [packages/domain/src/errors.ts]; messages are for people and not modelled. *)
Inductive js_error :=
| DomainError (code : string)
| RangeError
| TypeError
| PlainError.

Inductive result (A : Type) :=
| Ok (a : A)
| Throw (e : js_error).
Arguments Ok {A} a.
Arguments Throw {A} e.

Definition throw {A} (code : string) : result A := Throw (DomainError code).

Definition is_ok {A} (r : result A) : bool :=
  match r with Ok _ => true | Throw _ => false end.

(** [try { return f() } catch { return d }]. *)
Definition catch {A} (r : result A) (d : A) : A :=
  match r with Ok a => a | Throw _ => d end.

#[export] Instance js_error_eq_dec : EqDecision js_error.
Proof. solve_decision. Defined.
#[export] Instance result_eq_dec {A} `{EqDecision A} : EqDecision (result A).
Proof. solve_decision. Defined.

#[export] Instance result_ret : MRet result := @Ok.
#[export] Instance result_bind : MBind result := fun A B f r =>
  match r with Ok a => f a | Throw e => Throw e end.
#[export] Instance result_fmap : FMap result := fun A B f r =>
  match r with Ok a => Ok (f a) | Throw e => Throw e end.

(** ** Strings *)

Abbreviation jsstr := (list Z).

Definition byte_of_ascii (c : Ascii.ascii) : Z := Z.of_N (Ascii.N_of_ascii c).

Fixpoint bytes_of_string (s : string) : list Z :=
  match s with
  | EmptyString => []
  | String c s' => byte_of_ascii c :: bytes_of_string s'
  end.

(** The UTF-16 code units of a Unicode scalar value. *)
Definition utf16_of_scalar (cp : Z) : list Z :=
  if cp <? 0x10000 then [cp]
  else [0xd800 + (cp - 0x10000) / 0x400; 0xdc00 + (cp - 0x10000) mod 0x400].

Fixpoint utf16_of_utf8 (bs : list Z) : jsstr :=
  match bs with
  | [] => []
  | b0 :: r0 =>
      if b0 <? 0x80 then b0 :: utf16_of_utf8 r0
      else match r0 with
      | [] => [0xfffd]
      | b1 :: r1 =>
          if b0 <? 0xe0 then ((b0 - 0xc0) * 64 + (b1 - 0x80)) :: utf16_of_utf8 r1
          else match r1 with
          | [] => [0xfffd]
          | b2 :: r2 =>
              if b0 <? 0xf0 then
                ((b0 - 0xe0) * 4096 + (b1 - 0x80) * 64 + (b2 - 0x80)) :: utf16_of_utf8 r2
              else match r2 with
              | [] => [0xfffd]
              | b3 :: r3 =>
                  utf16_of_scalar ((b0 - 0xf0) * 262144 + (b1 - 0x80) * 4096
                                   + (b2 - 0x80) * 64 + (b3 - 0x80))
                  ++ utf16_of_utf8 r3
              end
          end
      end
  end.

(** The JavaScript string a UTF-8 source literal denotes. *)
Definition js (s : string) : jsstr := utf16_of_utf8 (bytes_of_string s).

(** Decidable equality as the boolean [===] of two strings. *)
Definition jseqb (s t : jsstr) : bool := bool_decide (s = t).

Definition is_high_surrogate (c : Z) : bool := (0xd800 <=? c) && (c <=? 0xdbff).
Definition is_low_surrogate (c : Z) : bool := (0xdc00 <=? c) && (c <=? 0xdfff).

(** [s.startsWith(p)]. *)
Fixpoint starts_with (p s : jsstr) : bool :=
  match p, s with
  | [], _ => true
  | _ :: _, [] => false
  | a :: p', b :: s' => (a =? b) && starts_with p' s'
  end.

(** [s.slice(i, j)] for [0 <= i] and [0 <= j]. *)
Definition slice (i j : nat) (s : jsstr) : jsstr := take (j - i) (drop i s).

(** [s.indexOf(c)] for a one-unit string; [None] is [-1]. *)
Fixpoint index_of (c : Z) (s : jsstr) : option nat :=
  match s with
  | [] => None
  | a :: s' => if a =? c then Some O else S <$> index_of c s'
  end.

(** [s.padStart(n, c)] for a one-unit [c]. *)
Definition pad_start (n : nat) (c : Z) (s : jsstr) : jsstr :=
  replicate (n - length s) c ++ s.

(** [s.split(c)] for a one-unit separator. *)
Fixpoint split_on (c : Z) (s : jsstr) : list jsstr :=
  match s with
  | [] => [[]]
  | a :: s' =>
      if a =? c then [] :: split_on c s'
      else match split_on c s' with
           | [] => [[a]]
           | w :: ws => (a :: w) :: ws
           end
  end.

(** [parts.join(sep)]. *)
Fixpoint join (sep : jsstr) (parts : list jsstr) : jsstr :=
  match parts with
  | [] => []
  | [p] => p
  | p :: ps => p ++ sep ++ join sep ps
  end.

(** WhiteSpace and LineTerminator of ECMAScript: what [trim] removes and
    what the class [\s] matches. *)
Definition is_space (c : Z) : bool :=
  ((9 <=? c) && (c <=? 13)) || (c =? 32) || (c =? 0xa0) || (c =? 0x1680)
  || ((0x2000 <=? c) && (c <=? 0x200a)) || (c =? 0x2028) || (c =? 0x2029)
  || (c =? 0x202f) || (c =? 0x205f) || (c =? 0x3000) || (c =? 0xfeff).

Fixpoint drop_while (p : Z -> bool) (s : jsstr) : jsstr :=
  match s with
  | [] => []
  | a :: s' => if p a then drop_while p s' else s
  end.

(** [drop_while] from both ends. *)
Definition trim_by (p : Z -> bool) (s : jsstr) : jsstr :=
  reverse (drop_while p (reverse (drop_while p s))).

(** [s.trim()]. *)
Definition trim (s : jsstr) : jsstr := trim_by is_space s.

(** [s < t] on strings: lexicographic by code unit. *)
Fixpoint js_ltb (s t : jsstr) : bool :=
  match s, t with
  | _, [] => false
  | [], _ :: _ => true
  | a :: s', b :: t' => (a <? b) || ((a =? b) && js_ltb s' t')
  end.

Definition js_leb (s t : jsstr) : bool := negb (js_ltb t s).

(** [new TextEncoder().encode(s)]: UTF-8, a lone surrogate becoming U+FFFD. *)
Definition utf8_of_scalar (cp : Z) : list Z :=
  if cp <? 0x80 then [cp]
  else if cp <? 0x800 then [0xc0 + cp / 64; 0x80 + cp mod 64]
  else if cp <? 0x10000 then
    [0xe0 + cp / 4096; 0x80 + (cp / 64) mod 64; 0x80 + cp mod 64]
  else [0xf0 + cp / 262144; 0x80 + (cp / 4096) mod 64;
        0x80 + (cp / 64) mod 64; 0x80 + cp mod 64].

Fixpoint utf8_encode (s : jsstr) : list Z :=
  match s with
  | [] => []
  | a :: s' =>
      match s' with
      | b :: s'' =>
          if is_high_surrogate a && is_low_surrogate b then
            utf8_of_scalar (0x10000 + (a - 0xd800) * 0x400 + (b - 0xdc00))
            ++ utf8_encode s''
          else if is_high_surrogate a || is_low_surrogate a then
            utf8_of_scalar 0xfffd ++ utf8_encode s'
          else utf8_of_scalar a ++ utf8_encode s'
      | [] =>
          if is_high_surrogate a || is_low_surrogate a then utf8_of_scalar 0xfffd
          else utf8_of_scalar a
      end
  end.

(** ** Decimal digits *)

(** The class [\d] without the [u] flag: ASCII digits. *)
Definition is_digit (c : Z) : bool := (48 <=? c) && (c <=? 57).

(** [/^\d+$/.test(s)]. *)
Definition all_digits1 (s : jsstr) : bool :=
  negb (bool_decide (s = [])) && forallb is_digit s.

(** [/^\d{n}$/.test(s)]. *)
Definition digits_n (n : nat) (s : jsstr) : bool :=
  (length s =? n)%nat && forallb is_digit s.

(** [Number(s)] of a string of digits. *)
Definition digits_value (s : jsstr) : Z :=
  fold_left (fun acc c => acc * 10 + (c - 48)) s 0.

(** [String(n)] of a nonnegative integer: its digits, last one first built.
    The fuel is the binary length of [n], which [n / 10] shortens. *)
Fixpoint dec_digits (fuel : nat) (n : Z) (acc : jsstr) : jsstr :=
  match fuel with
  | O => (48 + n mod 10) :: acc
  | S fuel' =>
      if n <? 10 then (48 + n) :: acc
      else dec_digits fuel' (n / 10) ((48 + n mod 10) :: acc)
  end.

Definition js_of_nonneg (n : Z) : jsstr := dec_digits (Z.to_nat (Z.log2 n)) n [].

(** [String(n)] of an integer below [10^21]. *)
Definition js_of_Z (n : Z) : jsstr :=
  if n <? 0 then 45 :: js_of_nonneg (- n) else js_of_nonneg n.

(** ** Numbers *)

Inductive jsnum :=
| JFinite (q : Q)
| JInfinite (negative : bool)
| JNaN.

Definition num (z : Z) : jsnum := JFinite (z # 1).

(** [Number.isInteger(n)]. *)
Definition is_integer (n : jsnum) : bool :=
  match n with JFinite q => Qnum q mod Zpos (Qden q) =? 0 | _ => false end.

(** The integer a number is, when [is_integer] holds. *)
Definition int_value (n : jsnum) : Z :=
  match n with JFinite q => Qnum q / Zpos (Qden q) | _ => 0 end.

Definition MAX_SAFE_INTEGER : Z := 2 ^ 53 - 1.

(** [Number.isSafeInteger(n)]. *)
Definition is_safe_integer (n : jsnum) : bool :=
  is_integer n && (Z.abs (int_value n) <=? MAX_SAFE_INTEGER).

Definition safe_int (z : Z) : bool := Z.abs z <=? MAX_SAFE_INTEGER.

(** ** Sorting *)

(** [[...l].sort(cmp)] with [le a b] for [cmp(a, b) <= 0]: the stable sort of
    ECMAScript, here by insertion from the right. *)
Fixpoint sort_insert {A} (le : A -> A -> bool) (x : A) (l : list A) : list A :=
  match l with
  | [] => [x]
  | y :: l' => if le x y then x :: l else y :: sort_insert le x l'
  end.

Definition js_sort {A} (le : A -> A -> bool) (l : list A) : list A :=
  foldr (sort_insert le) [] l.

(** [new Set(l).size === l.length]. *)
Definition all_distinct {A} `{EqDecision A} (l : list A) : bool :=
  (length (remove_dups l) =? length l)%nat.

#[global] Arguments is_digit _ : simpl never.
#[global] Arguments is_space _ : simpl never.
#[global] Arguments jseqb _ _ : simpl never.
#[global] Arguments js _ : simpl never.
#[global] Arguments starts_with !p s : simpl nomatch.

(** ** Automation *)

Create HintDb jsdb.
Create Rewrite HintDb jsnum.

(** Opens a boolean guard of the source: splits [&&], [||] and [negb] in the
    hypotheses and turns comparisons into arithmetic. *)
Ltac bool_hyps :=
  repeat match goal with
  | H : _ && _ = true |- _ => apply andb_true_iff in H as [? ?]
  | H : _ || _ = false |- _ => apply orb_false_iff in H as [? ?]
  | H : negb _ = true |- _ => apply negb_true_iff in H
  | H : negb _ = false |- _ => apply negb_false_iff in H
  | H : (_ =? _) = true |- _ => apply Z.eqb_eq in H
  | H : (_ =? _) = false |- _ => apply Z.eqb_neq in H
  | H : (_ <? _) = true |- _ => apply Z.ltb_lt in H
  | H : (_ <? _) = false |- _ => apply Z.ltb_ge in H
  | H : (_ <=? _) = true |- _ => apply Z.leb_le in H
  | H : (_ <=? _) = false |- _ => apply Z.leb_gt in H
  | H : (_ =? _)%nat = true |- _ => apply Nat.eqb_eq in H
  | H : (_ =? _)%nat = false |- _ => apply Nat.eqb_neq in H
  | H : (_ <? _)%nat = true |- _ => apply Nat.ltb_lt in H
  | H : (_ <? _)%nat = false |- _ => apply Nat.ltb_ge in H
  | H : (_ <=? _)%nat = true |- _ => apply Nat.leb_le in H
  | H : (_ <=? _)%nat = false |- _ => apply Nat.leb_gt in H
  | H : bool_decide _ = true |- _ => apply bool_decide_eq_true_1 in H
  | H : bool_decide _ = false |- _ => apply bool_decide_eq_false_1 in H
  | H : jseqb _ _ = true |- _ => apply bool_decide_eq_true_1 in H
  | H : jseqb _ _ = false |- _ => apply bool_decide_eq_false_1 in H
  end.

(** Turns the string literals of the goal into their code units. *)
Ltac js_lits :=
  repeat match goal with
  | |- context [js ?s] => let v := eval vm_compute in (js s) in change (js s) with v
  | H : context [js ?s] |- _ =>
      let v := eval vm_compute in (js s) in change (js s) with v in H
  end.

(** Walks down the branches of a handler in hypothesis [H]. *)
Ltac case_in H :=
  repeat match type of H with
  | context [match ?x with _ => _ end] =>
      lazymatch x with
      | context [match _ with _ => _ end] => fail
      | _ => let E := fresh "E" in destruct x eqn:E; try discriminate H
      end
  end.

(** The next guard of code whose result is known to be [Ok]. *)
Ltac pass_guard E :=
  match goal with |- (if ?g then Throw _ else _) = Ok _ -> _ => destruct g eqn:E; [discriminate|] end.

(** ** Lemmas on results *)

Section Results.
Context {A B : Type}.

Lemma Ok_inj (a b : A) : Ok a = Ok b -> a = b.
Proof. congruence. Qed.

Lemma bind_ok (a : A) (f : A -> result B) : (Ok a ≫= f) = f a.
Proof. reflexivity. Qed.

Lemma bind_ok_inv (r : result A) (f : A -> result B) b :
  (r ≫= f) = Ok b <-> exists a, r = Ok a /\ f a = Ok b.
Proof. destruct r; cbn; naive_solver. Qed.

Lemma bind_throw_inv (r : result A) (f : A -> result B) e :
  (r ≫= f) = Throw e <->
  r = Throw e \/ exists a, r = Ok a /\ f a = Throw e.
Proof. destruct r; cbn; naive_solver. Qed.

(** Every exception of [r] is a [DomainError]. *)
Definition domain_only (r : result A) : Prop :=
  forall e, r = Throw e -> exists code, e = DomainError code.

Lemma domain_only_ok (a : A) : domain_only (Ok a).
Proof. done. Qed.

Lemma domain_only_throw code : domain_only (throw code).
Proof. intros e [= <-]. eauto. Qed.

Lemma domain_only_if (b : bool) (r s : result A) :
  domain_only r -> domain_only s -> domain_only (if b then r else s).
Proof. by destruct b. Qed.

Lemma is_ok_spec (r : result A) : is_ok r = true <-> exists a, r = Ok a.
Proof. destruct r; cbn; naive_solver. Qed.
End Results.

Lemma domain_only_bind {A B} (r : result A) (f : A -> result B) :
  domain_only r -> (forall a, r = Ok a -> domain_only (f a)) -> domain_only (r ≫= f).
Proof. destruct r as [a|e]; cbn; intros Hr Hf; [by apply Hf | intros ? [= <-]; eauto]. Qed.

#[export] Hint Resolve domain_only_ok domain_only_throw domain_only_if domain_only_bind : jsdb.

(** ** Lemmas on strings *)

Lemma jseqb_refl s : jseqb s s = true.
Proof. apply bool_decide_eq_true_2. done. Qed.

Lemma jseqb_eq s t : jseqb s t = true <-> s = t.
Proof. unfold jseqb. apply bool_decide_eq_true. Qed.

Lemma jseqb_neq s t : jseqb s t = false <-> s <> t.
Proof. unfold jseqb. apply bool_decide_eq_false. Qed.

Lemma starts_with_spec p s :
  starts_with p s = true <-> exists t, s = p ++ t.
Proof.
  revert s; induction p as [|a p IH]; intros [|b s]; cbn [starts_with].
  - split; eauto.
  - split; eauto.
  - split; [done | intros [t H]; discriminate H].
  - rewrite andb_true_iff, Z.eqb_eq, IH. split.
    + intros [-> [t ->]]. by exists t.
    + intros [t [= -> ->]]. eauto.
Qed.

Lemma starts_with_app p t : starts_with p (p ++ t) = true.
Proof. apply starts_with_spec. eauto. Qed.

Lemma forallb_concat {A} (p : A -> bool) ll : forallb p (concat ll) = forallb (forallb p) ll.
Proof. induction ll as [|l ll IH]; [done|]. cbn [concat forallb]. by rewrite forallb_app, IH. Qed.

Lemma forallb_map {A B} (p : B -> bool) (f : A -> B) l : forallb p (map f l) = forallb (fun a => p (f a)) l.
Proof. induction l as [|a l IH]; [done|]. cbn [map forallb]. by rewrite IH. Qed.

Lemma index_of_None c s : index_of c s = None <-> c ∉ s.
Proof.
  induction s as [|a s IH]; cbn.
  - split; [set_solver | done].
  - destruct (Z.eqb_spec a c) as [->|Hne]; [set_solver|].
    rewrite fmap_None, IH. set_solver.
Qed.

Lemma index_of_app c l r : c ∉ l -> index_of c (l ++ (c :: r)) = Some (length l).
Proof.
  induction l as [|a l IH]; cbn; intros H.
  - by rewrite Z.eqb_refl.
  - destruct (Z.eqb_spec a c) as [->|Hne]; [set_solver|].
    rewrite IH by set_solver. done.
Qed.

Lemma index_of_Some c s i :
  index_of c s = Some i ->
  s = take i s ++ [c] ++ drop (S i) s /\ (c ∉ take i s) /\ (i < length s)%nat.
Proof.
  revert i; induction s as [|a s IH]; cbn; intros i; [done|].
  destruct (Z.eqb_spec a c) as [->|Hne].
  - intros [= <-]. cbn. split; [done|]. split; [set_solver | lia].
  - destruct (index_of c s) as [j|] eqn:E; cbn; [|done]. intros [= <-].
    destruct (IH _ eq_refl) as (Hs & Hc & Hl). cbn [take drop app].
    split; [by f_equal|]. split; [set_solver | lia].
Qed.

Lemma slice_app (l m r : jsstr) i j :
  i = length l -> j = (length l + length m)%nat -> slice i j (l ++ m ++ r) = m.
Proof.
  intros -> ->. unfold slice. rewrite drop_app_length.
  replace (length l + length m - length l)%nat with (length m) by lia.
  apply take_app_length.
Qed.

Lemma length_pad_start n c s : length (pad_start n c s) = (n `max` length s)%nat.
Proof. unfold pad_start. rewrite length_app, length_replicate. lia. Qed.

Lemma pad_start_id n c s : (n <= length s)%nat -> pad_start n c s = s.
Proof.
  intros H. unfold pad_start. by replace (n - length s)%nat with O by lia.
Qed.

Lemma js_ltb_irrefl s : js_ltb s s = false.
Proof. induction s as [|a s IH]; cbn; [done|]. rewrite Z.ltb_irrefl, IH. by rewrite andb_false_r. Qed.

Lemma js_ltb_trans s t u :
  js_ltb s t = true -> js_ltb t u = true -> js_ltb s u = true.
Proof.
  revert t u; induction s as [|a s IH]; intros [|b t] [|c u]; cbn; try done.
  rewrite !orb_true_iff, !andb_true_iff, !Z.ltb_lt, !Z.eqb_eq.
  intros [?|[-> ?]] [?|[-> ?]]; [left; lia|left; lia|left; lia|right; eauto].
Qed.

Lemma js_ltb_total s t : js_ltb s t = true \/ s = t \/ js_ltb t s = true.
Proof.
  revert t; induction s as [|a s IH]; intros [|b t]; cbn; auto.
  rewrite !orb_true_iff, !andb_true_iff, !Z.ltb_lt, !Z.eqb_eq.
  destruct (Z.lt_trichotomy a b) as [?|[->|?]]; auto.
  destruct (IH t) as [?|[->|?]]; auto.
Qed.

Lemma js_ltb_asym s t : js_ltb s t = true -> js_ltb t s = false.
Proof.
  intros H. destruct (js_ltb t s) eqn:E; [|done].
  pose proof (js_ltb_irrefl s) as Hi. by rewrite (js_ltb_trans _ _ _ H E) in Hi.
Qed.

Lemma js_leb_spec s t : js_leb s t = true <-> js_ltb s t = true \/ s = t.
Proof.
  unfold js_leb. rewrite negb_true_iff. split.
  - intros H. destruct (js_ltb_total s t) as [?|[?|?]]; auto; congruence.
  - intros [H| ->]; [by apply js_ltb_asym | apply js_ltb_irrefl].
Qed.

(** *** Trimming *)

(** The first and the last unit of [s], when there are any, escape [p]. *)
Definition edges_free (p : Z -> bool) (s : jsstr) : Prop :=
  (forall c, head s = Some c -> p c = false) /\ (forall c, last s = Some c -> p c = false).

Lemma drop_while_app p b s :
  forallb p b = true -> drop_while p (b ++ s) = drop_while p s.
Proof.
  induction b as [|a b IH]; cbn; [done|]. intros H. apply andb_true_iff in H as [-> H]. auto.
Qed.

Lemma drop_while_fixed p s :
  (forall c, head s = Some c -> p c = false) -> drop_while p s = s.
Proof. destruct s as [|a s]; cbn; [done|]. intros H. by rewrite (H a). Qed.

Lemma drop_while_head p s c : head (drop_while p s) = Some c -> p c = false.
Proof.
  induction s as [|a s IH]; cbn; [done|].
  destruct (p a) eqn:E; [done|]. by intros [= <-].
Qed.

Lemma drop_while_suffix p s : exists b, forallb p b = true /\ s = b ++ drop_while p s.
Proof.
  induction s as [|a s (b & Hb & Hs)]; cbn; [by exists []|].
  destruct (p a) eqn:E; [|by exists []].
  exists (a :: b). cbn. rewrite E, Hb. split; [done|]. by f_equal.
Qed.

Lemma forallb_reverse p (s : jsstr) : forallb p (reverse s) = forallb p s.
Proof.
  induction s as [|a s IH]; [done|].
  rewrite reverse_cons, forallb_app, IH. cbn. by rewrite andb_true_r, andb_comm.
Qed.

Lemma trim_by_fixed p s : edges_free p s -> trim_by p s = s.
Proof.
  intros [Hh Hl]. unfold trim_by. rewrite (drop_while_fixed p s) by done.
  rewrite drop_while_fixed; [apply reverse_involutive|].
  intros c. rewrite head_reverse. apply Hl.
Qed.

Lemma trim_by_wrap p b s b' :
  forallb p b = true -> forallb p b' = true -> edges_free p s ->
  trim_by p (b ++ s ++ b') = s.
Proof.
  intros Hb Hb' Hs. unfold trim_by. rewrite drop_while_app by done.
  destruct (decide (s = [])) as [->|Hne].
  - cbn [app]. rewrite <- (app_nil_r b'), drop_while_app by exact Hb'. reflexivity.
  - destruct Hs as [Hh Hl]. rewrite (drop_while_fixed p (s ++ b')).
    + rewrite reverse_app, drop_while_app by by rewrite forallb_reverse.
      rewrite drop_while_fixed; [apply reverse_involutive|].
      intros c. rewrite head_reverse. apply Hl.
    + intros c. destruct s; [done|]. apply Hh.
Qed.

Lemma edges_free_trim p s : edges_free p (trim_by p s).
Proof.
  unfold trim_by. set (u := drop_while p s).
  destruct (drop_while_suffix p (reverse u)) as (b & Hb & Hr).
  set (v := drop_while p (reverse u)) in *. split; intros c Hc.
  - assert (Hu : u = reverse v ++ reverse b).
    { rewrite <- (reverse_involutive u), Hr. by rewrite reverse_app. }
    apply (drop_while_head p s). fold u. rewrite Hu.
    destruct (reverse v); [done|]. exact Hc.
  - rewrite last_reverse in Hc. by apply (drop_while_head p (reverse u)).
Qed.

Lemma trim_by_idemp p s : trim_by p (trim_by p s) = trim_by p s.
Proof. apply trim_by_fixed, edges_free_trim. Qed.

(** ** Lemmas on decimal digits *)

Lemma is_digit_spec c : is_digit c = true <-> 48 <= c <= 57.
Proof. unfold is_digit. rewrite andb_true_iff, !Z.leb_le. lia. Qed.

Lemma digits_value_snoc s c : digits_value (s ++ [c]) = digits_value s * 10 + (c - 48).
Proof. unfold digits_value. by rewrite fold_left_app. Qed.

Lemma digits_value_app s t :
  digits_value (s ++ t) = digits_value s * 10 ^ Z.of_nat (length t) + digits_value t.
Proof.
  induction t as [|c t IH] using rev_ind.
  - rewrite app_nil_r. cbn. lia.
  - rewrite app_assoc, !digits_value_snoc, IH, length_app, Nat2Z.inj_add.
    cbn [length]. rewrite Z.pow_add_r by lia. cbn. lia.
Qed.

Lemma digits_value_bound s :
  forallb is_digit s = true ->
  0 <= digits_value s < 10 ^ Z.of_nat (length s).
Proof.
  induction s as [|c s IH] using rev_ind; intros H; [cbn; lia|].
  rewrite forallb_app, andb_true_iff in H. destruct H as [Hs Hc].
  cbn in Hc. rewrite andb_true_r in Hc. apply is_digit_spec in Hc.
  specialize (IH Hs). rewrite digits_value_snoc, length_app, Nat2Z.inj_add.
  cbn [length]. rewrite Z.pow_add_r by lia. cbn. lia.
Qed.

Lemma digits_value_inj s t :
  length s = length t ->
  forallb is_digit s = true -> forallb is_digit t = true ->
  digits_value s = digits_value t -> s = t.
Proof.
  revert t; induction s as [|c s IH] using rev_ind; intros t Hl Hs Ht Hv.
  - destruct t; [done | discriminate Hl].
  - destruct t as [|d t _] using rev_ind.
    { rewrite length_app in Hl. cbn in Hl. lia. }
    rewrite forallb_app, andb_true_iff in Hs, Ht.
    rewrite !length_app in Hl. cbn in Hl, Hs, Ht.
    rewrite !digits_value_snoc in Hv.
    destruct Hs as [Hs Hc], Ht as [Ht Hd].
    rewrite andb_true_r in Hc, Hd. apply is_digit_spec in Hc, Hd.
    assert (digits_value s = digits_value t /\ c = d) as [? ->] by lia.
    f_equal. apply IH; auto; lia.
Qed.

Lemma digits_value_replicate_zero n : digits_value (replicate n 48) = 0.
Proof.
  induction n as [|n IH]; [done|].
  replace (replicate (S n) 48) with ([48] ++ replicate n 48) by done.
  rewrite digits_value_app, IH. cbn. lia.
Qed.

Lemma digits_value_pad n s : digits_value (pad_start n 48 s) = digits_value s.
Proof.
  unfold pad_start. rewrite digits_value_app, digits_value_replicate_zero. lia.
Qed.

Lemma all_digits_replicate n : forallb is_digit (replicate n 48) = true.
Proof. induction n; cbn; auto. Qed.

Lemma all_digits_pad n s :
  forallb is_digit s = true -> forallb is_digit (pad_start n 48 s) = true.
Proof.
  intros H. unfold pad_start. by rewrite forallb_app, all_digits_replicate, H.
Qed.

Lemma dec_digits_spec fuel n acc :
  0 <= n < 10 * 2 ^ Z.of_nat fuel ->
  exists ds, dec_digits fuel n acc = ds ++ acc
    /\ forallb is_digit ds = true /\ digits_value ds = n
    /\ (0 < length ds)%nat /\ ((1 < length ds)%nat -> 10 ^ (Z.of_nat (length ds) - 1) <= n).
Proof.
  revert n acc; induction fuel as [|fuel IH]; intros n acc Hn; cbn [dec_digits].
  - cbn in Hn. exists [48 + n]. rewrite Z.mod_small by lia. cbn.
    rewrite (proj2 (is_digit_spec _)) by lia. repeat split; try lia.
  - destruct (Z.ltb_spec n 10).
    + exists [48 + n]. cbn. rewrite (proj2 (is_digit_spec _)) by lia.
      repeat split; try lia.
    + rewrite Nat2Z.inj_succ, Z.pow_succ_r in Hn by lia.
      pose proof (Z.mod_pos_bound n 10 ltac:(lia)).
      pose proof (Z.div_mod n 10 ltac:(lia)).
      destruct (IH (n / 10) ((48 + n mod 10) :: acc)) as (ds & Hds & Hd & Hv & Hl & Hb).
      { split; [apply Z.div_pos; lia | apply Z.div_lt_upper_bound; lia]. }
      exists (ds ++ [48 + n mod 10]). rewrite Hds, <- app_assoc.
      rewrite forallb_app, Hd, digits_value_snoc, length_app. cbn [length forallb].
      rewrite (proj2 (is_digit_spec _)) by lia. repeat split; try lia.
      intros _. rewrite Nat2Z.inj_add.
      destruct (decide (length ds = 1%nat)) as [->|]; [cbn; lia|].
      specialize (Hb ltac:(lia)).
      replace (Z.of_nat (length ds) + Z.of_nat 1 - 1)
        with (Z.succ (Z.of_nat (length ds) - 1)) by lia.
      rewrite Z.pow_succ_r by lia. lia.
Qed.

Lemma js_of_nonneg_spec n :
  0 <= n ->
  forallb is_digit (js_of_nonneg n) = true /\ digits_value (js_of_nonneg n) = n
  /\ (0 < length (js_of_nonneg n))%nat
  /\ ((1 < length (js_of_nonneg n))%nat ->
      10 ^ (Z.of_nat (length (js_of_nonneg n)) - 1) <= n).
Proof.
  intros Hn. unfold js_of_nonneg.
  destruct (dec_digits_spec (Z.to_nat (Z.log2 n)) n []) as (ds & -> & H).
  - rewrite Z2Nat.id by apply Z.log2_nonneg.
    destruct (Z.eq_dec n 0) as [->|]; [cbn; lia|].
    pose proof (Z.log2_spec n ltac:(lia)) as Hs.
    rewrite Z.pow_succ_r in Hs by apply Z.log2_nonneg. lia.
  - by rewrite app_nil_r.
Qed.

Lemma js_of_nonneg_length n k :
  0 <= n < 10 ^ Z.of_nat k -> (0 < k)%nat -> (length (js_of_nonneg n) <= k)%nat.
Proof.
  intros Hn Hk. destruct (js_of_nonneg_spec n) as (_ & _ & _ & Hb); [lia|].
  destruct (decide (length (js_of_nonneg n) <= k)%nat) as [|Hgt]; [done|].
  specialize (Hb ltac:(lia)).
  pose proof (Z.pow_le_mono_r 10 (Z.of_nat k) (Z.of_nat (length (js_of_nonneg n)) - 1)).
  lia.
Qed.

Lemma js_of_Z_nonneg n : 0 <= n -> js_of_Z n = js_of_nonneg n.
Proof. intros H. unfold js_of_Z. destruct (Z.ltb_spec n 0); [lia | done]. Qed.

Lemma js_of_nonneg_inj n m :
  0 <= n -> 0 <= m -> js_of_nonneg n = js_of_nonneg m -> n = m.
Proof.
  intros Hn Hm E. destruct (js_of_nonneg_spec n) as (_ & <- & _); [done|].
  destruct (js_of_nonneg_spec m) as (_ & <- & _); [done|]. by rewrite E.
Qed.

(** ** Lemmas on numbers *)

Lemma is_integer_num z : is_integer (num z) = true.
Proof. cbn. by rewrite Z.mod_1_r. Qed.

Lemma int_value_num z : int_value (num z) = z.
Proof. cbn. by rewrite Z.div_1_r. Qed.

Lemma is_safe_integer_num z : is_safe_integer (num z) = safe_int z.
Proof. unfold is_safe_integer. by rewrite is_integer_num, int_value_num. Qed.

Lemma all_distinct_spec {A} `{EqDecision A} (l : list A) : all_distinct l = true <-> NoDup l.
Proof.
  unfold all_distinct. rewrite Nat.eqb_eq. split.
  - induction l as [|a l IH]; cbn; [constructor|]. destruct (decide_rel _ a l) as [Hin|Hin]; intros H.
    + pose proof (NoDup_submseteq (remove_dups l) l (NoDup_remove_dups l)
        (fun x => proj1 (elem_of_remove_dups l x))) as Hs%submseteq_length. lia.
    + cbn in H. constructor; [done | apply IH; lia].
  - induction 1 as [|a l Hin Hn IH]; cbn; [done|]. destruct (decide_rel _ a l); [done|]. cbn. lia.
Qed.

(** ** Lemmas on selections *)

Lemma elem_of_filter_bool {A} (p : A -> bool) (l : list A) x : x ∈ List.filter p l <-> x ∈ l /\ p x = true.
Proof. by rewrite list_elem_of_In, List.filter_In, <- list_elem_of_In. Qed.

Lemma filter_nothing {A} (p : A -> bool) (l : list A) : (forall x, x ∈ l -> p x = false) -> List.filter p l = [].
Proof.
  intros H. destruct (List.filter p l) as [|x r] eqn:E; [done|]. exfalso.
  assert (Hx : x ∈ List.filter p l) by (rewrite E; left). apply elem_of_filter_bool in Hx as [Hx Hp].
  by rewrite H in Hp.
Qed.

(** Elements with the same key are the same. *)
Lemma key_unique {A K} (key : A -> K) (l : list A) x y :
  NoDup (key <$> l) -> x ∈ l -> y ∈ l -> key x = key y -> x = y.
Proof.
  induction l as [|z l IH]; cbn; intros Hn Hx Hy E; [by apply elem_of_nil in Hx|].
  apply NoDup_cons in Hn as [Hz Hn]. apply elem_of_cons in Hx as [->|Hx], Hy as [->|Hy]; auto.
  - destruct Hz. rewrite E. by apply list_elem_of_fmap_2.
  - destruct Hz. rewrite <- E. by apply list_elem_of_fmap_2.
Qed.

(** At most one row has the key. *)
Lemma filter_key {A K} (key : A -> K) (p : A -> bool) (l : list A) k :
  NoDup (key <$> l) -> (forall x, p x = true -> key x = k) ->
  List.filter p l = [] \/ exists x, List.filter p l = [x].
Proof.
  intros Hn Hp. induction l as [|x l IH]; [by left|]. rewrite fmap_cons in Hn. apply NoDup_cons in Hn as [Hx Hn].
  cbn. destruct (p x) eqn:E; [|auto]. right. exists x. f_equal. apply filter_nothing.
  intros y Hy. destruct (p y) eqn:E'; [|done]. destruct Hx. rewrite (Hp x E), <- (Hp y E').
  by apply list_elem_of_fmap_2.
Qed.

(** What is selected is not rewritten. *)
Lemma filter_kept {A} (p : A -> bool) (g : A -> A) (l : list A) :
  (forall x, p (g x) = p x) -> (forall x, p x = true -> g x = x) -> List.filter p (g <$> l) = List.filter p l.
Proof.
  intros Hp Hg. induction l as [|x l IH]; [done|]. rewrite fmap_cons. cbn. rewrite Hp, IH.
  destruct (p x) eqn:E; [|done]. by rewrite Hg.
Qed.

Lemma filter_rewritten {A} (p : A -> bool) (g : A -> A) (l : list A) :
  (forall x, p (g x) = p x) -> List.filter p (g <$> l) = g <$> List.filter p l.
Proof.
  intros Hp. induction l as [|x l IH]; [done|]. rewrite fmap_cons. cbn. rewrite Hp, IH. by destruct (p x).
Qed.

Lemma filter_bool_sublist {A} (p : A -> bool) l : List.filter p l `sublist_of` l.
Proof. induction l as [|x l IH]; cbn; [constructor|]. destruct (p x); by constructor. Qed.

Lemma filter_filter {A} (p q : A -> bool) l : List.filter p (List.filter q l) = List.filter (fun x => q x && p x) l.
Proof. induction l as [|x l IH]; [done|]. cbn. destruct (q x); cbn; rewrite ?IH; done. Qed.

Lemma filter_same {A} (p q : A -> bool) l : (forall x, x ∈ l -> p x = q x) -> List.filter p l = List.filter q l.
Proof.
  induction l as [|x l IH]; [done|]. intros H. cbn. rewrite (H x) by left.
  rewrite IH; [done|]. intros y Hy. apply H. by right.
Qed.

Lemma bind_same {A B} (f g : A -> list B) l : (forall x, x ∈ l -> f x = g x) -> (x ← l; f x) = (x ← l; g x).
Proof.
  induction l as [|x l IH]; [done|]. intros H. rewrite !bind_cons, (H x) by left.
  rewrite IH; [done|]. intros y Hy. apply H. by right.
Qed.

(** ** Lemmas on sorting *)

(** A comparator [Array.prototype.sort] can use: total and transitive. *)
Class Comparator {A} (le : A -> A -> bool) : Prop := {
  comparator_total : forall a b, le a b = true \/ le b a = true;
  comparator_trans : forall a b c, le a b = true -> le b c = true -> le a c = true
}.

Lemma comparator_refl {A} (le : A -> A -> bool) `{!Comparator le} a : le a a = true.
Proof. by destruct (comparator_total a a). Qed.

(** Comparing by a key. *)
#[export] Instance comparator_on {A B} (le : B -> B -> bool) (f : A -> B) `{!Comparator le} :
  Comparator (fun a b => le (f a) (f b)).
Proof. split; intros *; [apply comparator_total | apply comparator_trans]. Qed.

#[export] Instance js_leb_comparator : Comparator js_leb.
Proof.
  split.
  - intros a b. rewrite !js_leb_spec. destruct (js_ltb_total a b) as [?|[?|?]]; auto.
  - intros a b c. rewrite !js_leb_spec. intros [?| ->] [?| ->]; eauto using js_ltb_trans.
Qed.

Lemma js_leb_antisym s t : js_leb s t = true -> js_leb t s = true -> s = t.
Proof.
  rewrite !js_leb_spec. intros [H|?] [H'|?]; auto. by rewrite (js_ltb_asym _ _ H) in H'.
Qed.

Section Sorting.
Context {A : Type} (le : A -> A -> bool).

Lemma sort_insert_perm x l : sort_insert le x l ≡ₚ x :: l.
Proof.
  induction l as [|y l IH]; cbn; [done|]. destruct (le x y); [done|].
  rewrite IH. apply perm_swap.
Qed.

Lemma js_sort_perm l : js_sort le l ≡ₚ l.
Proof. induction l as [|x l IH]; cbn; [done|]. by rewrite sort_insert_perm, IH. Qed.

Lemma elem_of_js_sort x l : x ∈ js_sort le l <-> x ∈ l.
Proof. by rewrite js_sort_perm. Qed.

Lemma sort_insert_sorted `{!Comparator le} x l :
  Sorted.StronglySorted (fun a b => le a b = true) l ->
  Sorted.StronglySorted (fun a b => le a b = true) (sort_insert le x l).
Proof.
  intros H. induction H as [|y l Hl IH Hy]; cbn; [by repeat constructor|].
  destruct (le x y) eqn:E.
  - constructor; [by constructor|]. constructor; [done|].
    eapply Forall_impl; [exact Hy|]. intros z Hz. by eapply comparator_trans.
  - constructor; [done|]. rewrite sort_insert_perm. constructor; [|done].
    destruct (comparator_total x y); congruence.
Qed.

Lemma js_sort_sorted `{!Comparator le} l :
  Sorted.StronglySorted (fun a b => le a b = true) (js_sort le l).
Proof. induction l as [|x l IH]; cbn; [constructor | by apply sort_insert_sorted]. Qed.

(** A sorted list is left as it is. *)
Lemma js_sort_fixed l :
  Sorted.StronglySorted (fun a b => le a b = true) l -> js_sort le l = l.
Proof.
  induction 1 as [|x l Hl IH Hx]; [done|].
  change (sort_insert le x (js_sort le l) = x :: l). rewrite IH.
  destruct l as [|y l]; cbn; [done|]. apply Forall_cons in Hx as [-> _]. done.
Qed.
End Sorting.

Lemma js_sort_head {A} (le : A -> A -> bool) `{!Comparator le} l x rest :
  js_sort le l = x :: rest -> (x ∈ l) /\ forall y, y ∈ l -> le x y = true.
Proof.
  intros E. pose proof (js_sort_sorted le l) as Hs. rewrite E in Hs.
  inversion Hs as [|? ? _ Hf]; subst. split.
  - rewrite <- (elem_of_js_sort le), E. left.
  - intros y Hy%(elem_of_js_sort le). rewrite E in Hy. apply elem_of_cons in Hy as [->|Hy].
    + by apply comparator_refl.
    + by apply (proj1 (Forall_forall _ _) Hf).
Qed.

#[export] Hint Rewrite is_integer_num int_value_num is_safe_integer_num jseqb_refl
  js_ltb_irrefl : jsnum.
