(* ===== verification/Utf8.v ===== *)
(** * UTF-8 read back

    The decoder of the language, [bytes.toString('utf8')], and what it makes of the
    bytes of [utf8_encode]: the text, with U+FFFD for every lone surrogate. *)

From stdpp Require Import base list strings gmap.
From Stdlib Require Import ZArith Lia.
From S2P Require Import Prelude.

#[local] Open Scope Z_scope.

(** ** Definitions *)

(** [bytes.toString('utf8')]: what is not UTF-8 becomes U+FFFD, one for each
    maximal beginning of a sequence. *)
Definition continuation (b : Z) : bool := (128 <=? b) && (b <=? 191).

Fixpoint utf8_decode (bytes : list Z) : jsstr :=
  match bytes with
  | [] => []
  | b0 :: r0 =>
      if b0 <? 128 then b0 :: utf8_decode r0
      else if (194 <=? b0) && (b0 <=? 223) then
        match r0 with
        | b1 :: r1 =>
            if continuation b1 then (b0 - 192) * 64 + (b1 - 128) :: utf8_decode r1
            else 0xfffd :: utf8_decode r0
        | [] => [0xfffd]
        end
      else if (224 <=? b0) && (b0 <=? 239) then
        match r0 with
        | b1 :: r1 =>
            if ((if b0 =? 224 then 160 else 128) <=? b1) && (b1 <=? (if b0 =? 237 then 159 else 191)) then
              match r1 with
              | b2 :: r2 =>
                  if continuation b2
                  then (b0 - 224) * 4096 + (b1 - 128) * 64 + (b2 - 128) :: utf8_decode r2
                  else 0xfffd :: utf8_decode r1
              | [] => [0xfffd]
              end
            else 0xfffd :: utf8_decode r0
        | [] => [0xfffd]
        end
      else if (240 <=? b0) && (b0 <=? 244) then
        match r0 with
        | b1 :: r1 =>
            if ((if b0 =? 240 then 144 else 128) <=? b1) && (b1 <=? (if b0 =? 244 then 143 else 191)) then
              match r1 with
              | b2 :: r2 =>
                  if continuation b2 then
                    match r2 with
                    | b3 :: r3 =>
                        if continuation b3 then
                          utf16_of_scalar ((b0 - 240) * 262144 + (b1 - 128) * 4096
                            + (b2 - 128) * 64 + (b3 - 128)) ++ utf8_decode r3
                        else 0xfffd :: utf8_decode r2
                    | [] => [0xfffd]
                    end
                  else 0xfffd :: utf8_decode r1
              | [] => [0xfffd]
              end
            else 0xfffd :: utf8_decode r0
        | [] => [0xfffd]
        end
      else 0xfffd :: utf8_decode r0
  end.

(** A code unit of UTF-16. *)
Definition code_unit (c : Z) : bool := (0 <=? c) && (c <=? 0xffff).

(** [s.toWellFormed()]: every lone surrogate becomes U+FFFD. *)
Fixpoint to_well_formed (s : jsstr) : jsstr :=
  match s with
  | [] => []
  | a :: s' =>
      match s' with
      | b :: s'' =>
          if is_high_surrogate a && is_low_surrogate b then a :: b :: to_well_formed s''
          else if is_high_surrogate a || is_low_surrogate a then 0xfffd :: to_well_formed s'
          else a :: to_well_formed s'
      | [] => if is_high_surrogate a || is_low_surrogate a then [0xfffd] else [a]
      end
  end.

Definition surrogate (c : Z) : bool := is_high_surrogate c || is_low_surrogate c.

Definition scalar (cp : Z) : Prop := (0 <= cp < 0xd800) \/ (0xe000 <= cp < 0x110000).

(** ** Lemmas *)

(** Both functions consume one unit, or a pair. *)
Lemma pair_ind (P : jsstr -> Prop) :
  P [] -> (forall a s, P s -> (forall b r, s = b :: r -> P r) -> P (a :: s)) -> forall s, P s.
Proof.
  intros H0 H1. assert (H : forall s, P s /\ forall b r, s = b :: r -> P r).
  { induction s as [|a s [IH IH']]; [by split|]. split; [by apply H1|]. by intros b r [= -> ->]. }
  apply H.
Qed.

(** A conditional whose condition follows from the context. *)
Ltac decide_if :=
  match goal with
  | |- context [if ?b then _ else _] =>
      lazymatch b with context [if _ then _ else _] => fail | _ => idtac end;
      first [ replace b with true by (symmetry; unfold continuation; rewrite ?andb_true_iff, ?Z.leb_le, ?Z.ltb_lt, ?Z.eqb_eq; lia)
            | replace b with false by (symmetry; apply not_true_iff_false; unfold continuation;
                rewrite ?andb_true_iff, ?Z.leb_le, ?Z.ltb_lt, ?Z.eqb_eq; lia)
            | destruct b eqn:?; rewrite ?Z.eqb_eq, ?Z.eqb_neq in * ]; cbv iota
  end.

(** The bytes of one scalar value are read as that value. *)
Lemma decode_scalar cp rest :
  scalar cp -> utf8_decode (utf8_of_scalar cp ++ rest) = utf16_of_scalar cp ++ utf8_decode rest.
Proof.
  unfold scalar, utf8_of_scalar. intros H.
  pose proof (Z.div_mod cp 64 ltac:(lia)) as E1. pose proof (Z.mod_pos_bound cp 64 ltac:(lia)) as B1.
  pose proof (Z.div_mod (cp / 64) 64 ltac:(lia)) as E2. pose proof (Z.mod_pos_bound (cp / 64) 64 ltac:(lia)) as B2.
  pose proof (Z.div_mod (cp / 64 / 64) 64 ltac:(lia)) as E3. pose proof (Z.mod_pos_bound (cp / 64 / 64) 64 ltac:(lia)) as B3.
  replace (cp / 4096) with (cp / 64 / 64) by (rewrite Z.div_div by lia; done).
  replace (cp / 262144) with (cp / 64 / 64 / 64) by (rewrite !Z.div_div by lia; done).
  generalize dependent (cp / 64 / 64 / 64). generalize dependent (cp / 64 / 64 mod 64). generalize dependent (cp / 64 / 64).
  generalize dependent (cp / 64 mod 64). generalize dependent (cp / 64). generalize dependent (cp mod 64).
  intros r1 B1 q1 E1 r2 B2 q2 E2 r3 B3 q3 E3.
  destruct (Z.ltb_spec cp 0x80); [|destruct (Z.ltb_spec cp 0x800); [|destruct (Z.ltb_spec cp 0x10000)]];
    cbn [app utf8_decode]; unfold utf16_of_scalar.
  - repeat decide_if. done.
  - repeat decide_if. cbn [app]. f_equal. lia.
  - repeat decide_if; cbn [app]; f_equal; lia.
  - replace ((0xf0 + q3 - 240) * 262144 + (0x80 + r3 - 128) * 4096 + (0x80 + r2 - 128) * 64 + (0x80 + r1 - 128)) with cp by lia.
    repeat decide_if; done.
Qed.

Lemma surrogate_scalar c : code_unit c = true -> surrogate c = false -> scalar c.
Proof.
  unfold code_unit, surrogate, scalar, is_high_surrogate, is_low_surrogate.
  rewrite andb_true_iff, orb_false_iff, !andb_false_iff, !Z.leb_le, !Z.leb_gt. lia.
Qed.

Lemma unit_of_scalar c : code_unit c = true -> utf16_of_scalar c = [c].
Proof.
  unfold code_unit, utf16_of_scalar. rewrite andb_true_iff, !Z.leb_le. intros H.
  by rewrite (proj2 (Z.ltb_lt c 0x10000)) by lia.
Qed.

Lemma pair_scalar a b :
  is_high_surrogate a && is_low_surrogate b = true ->
  scalar (0x10000 + (a - 0xd800) * 0x400 + (b - 0xdc00))
  /\ utf16_of_scalar (0x10000 + (a - 0xd800) * 0x400 + (b - 0xdc00)) = [a; b].
Proof.
  unfold is_high_surrogate, is_low_surrogate, scalar, utf16_of_scalar.
  rewrite !andb_true_iff, !Z.leb_le. intros H. split; [lia|].
  rewrite (proj2 (Z.ltb_ge _ 0x10000)) by lia.
  replace (0x10000 + (a - 0xd800) * 0x400 + (b - 0xdc00) - 0x10000) with ((a - 0xd800) * 0x400 + (b - 0xdc00)) by lia.
  rewrite Z.div_add_l, Z.div_small, (Z.add_comm (_ * _)), Z.mod_add, Z.mod_small by lia.
  repeat f_equal; lia.
Qed.

Lemma decode_unit a rest :
  code_unit a = true ->
  utf8_decode ((if is_high_surrogate a || is_low_surrogate a then utf8_of_scalar 0xfffd else utf8_of_scalar a) ++ rest)
  = (if is_high_surrogate a || is_low_surrogate a then 0xfffd else a) :: utf8_decode rest.
Proof.
  intros Ha. destruct (is_high_surrogate a || is_low_surrogate a) eqn:E.
  - by rewrite decode_scalar by (unfold scalar; lia).
  - rewrite decode_scalar by by apply surrogate_scalar. by rewrite unit_of_scalar.
Qed.

(** What was encoded is read back, lone surrogates apart. *)
Lemma utf8_decode_encode s :
  forallb code_unit s = true -> utf8_decode (utf8_encode s) = to_well_formed s.
Proof.
  induction s as [|a s IH IH'] using pair_ind; [done|]. cbn [forallb]. intros [Ha Hs]%andb_true_iff.
  pose proof (decode_unit a []) as Hlast. rewrite app_nil_r in Hlast.
  destruct s as [|b s].
  - cbn [utf8_encode to_well_formed]. rewrite Hlast by done. by destruct (_ || _).
  - specialize (IH Hs). assert (IHr := IH' b s eq_refl ltac:(cbn in Hs; by apply andb_true_iff in Hs as [_ ?])).
    cbn [utf8_encode to_well_formed] in *.
    destruct (is_high_surrogate a && is_low_surrogate b) eqn:E.
    + destruct (pair_scalar a b E) as [Hc Hu]. rewrite decode_scalar, Hu, IHr by done. done.
    + pose proof (decode_unit a (utf8_encode (b :: s)) Ha) as Hd. cbn [utf8_encode] in Hd. rewrite IH in Hd.
      destruct (is_high_surrogate a || is_low_surrogate a); exact Hd.
Qed.

Lemma well_formed_two a b s :
  to_well_formed (a :: b :: s)
  = if is_high_surrogate a && is_low_surrogate b then a :: b :: to_well_formed s
    else (if surrogate a then 0xfffd else a) :: to_well_formed (b :: s).
Proof. cbn [to_well_formed]. unfold surrogate. by repeat case_match. Qed.

Lemma well_formed_one a : to_well_formed [a] = [if surrogate a then 0xfffd else a].
Proof. cbn. unfold surrogate. by case_match. Qed.

Lemma well_formed_cons c t : surrogate c = false -> to_well_formed (c :: t) = c :: to_well_formed t.
Proof.
  intros Hc. destruct t as [|b t]; [by rewrite well_formed_one, Hc|]. rewrite well_formed_two, Hc.
  unfold surrogate in Hc. apply orb_false_iff in Hc as [-> _]. done.
Qed.

(** Texts around a unit that is no surrogate are read apart. *)
Lemma to_well_formed_app s c t :
  surrogate c = false -> to_well_formed (s ++ c :: t) = to_well_formed s ++ c :: to_well_formed t.
Proof.
  intros Hc. assert (Hl : is_low_surrogate c = false) by (unfold surrogate in Hc; by apply orb_false_iff in Hc as [_ ?]).
  induction s as [|a s IH IH'] using pair_ind; [by apply well_formed_cons|]. destruct s as [|b s].
  - change (([a] ++ c :: t)) with (a :: c :: t). by rewrite well_formed_two, well_formed_one, Hl, andb_false_r, well_formed_cons.
  - change ((a :: b :: s) ++ c :: t) with (a :: b :: (s ++ c :: t)). rewrite !well_formed_two.
    rewrite (IH' b s eq_refl). change (b :: s ++ c :: t) with ((b :: s) ++ c :: t). rewrite IH. by case_match.
Qed.

(** A test that tells no surrogates is not changed by replacing them. *)
Lemma existsb_well_formed (f : Z -> bool) s :
  f 0xfffd = false -> (forall c, surrogate c = true -> f c = false) ->
  existsb f (to_well_formed s) = existsb f s.
Proof.
  intros Hf Hs. induction s as [|a s IH IH'] using pair_ind; [done|].
  assert (Ha : f (if surrogate a then 0xfffd else a) = f a)
    by (destruct (surrogate a) eqn:E; [by rewrite Hf, Hs | done]).
  destruct s as [|b s].
  - rewrite well_formed_one. cbn [existsb]. by rewrite Ha.
  - rewrite well_formed_two. destruct (_ && _); cbn [existsb]; [by rewrite (IH' b s)|]. by rewrite Ha, IH.
Qed.
