(* ===== verification/Gs1.v ===== *)
(** * GS1 identifiers and the taxpayer number

    [packages/domain/src/gs1/check-digit.ts], [gtin.ts], [sscc.ts] and
    [packages/domain/src/inn.ts]: the mod-10 check digit, GTIN normalisation,
    SSCC building, parsing and formatting, INN validation.  Numbers a caller
    may pass without a check are [jsnum]; the code tests them itself. *)

From stdpp Require Import base list strings gmap.
From Stdlib Require Import ZArith Lia.
From S2P Require Import Prelude.

(** ** gs1/check-digit.ts *)

(** The loop of [gs1CheckDigit]: [rev_body] runs leftwards from the rightmost
    digit and [i] counts the digits already added. *)
Fixpoint weighted_sum (i : nat) (rev_body : jsstr) : Z :=
  match rev_body with
  | [] => 0
  | c :: r =>
      let digit := c - 48 in
      (if Nat.even i then digit * 3 else digit) + weighted_sum (S i) r
  end.

Definition check_digit_value (body : jsstr) : Z :=
  (10 - weighted_sum 0 (reverse body) mod 10) mod 10.

Definition gs1CheckDigit (body : jsstr) : result Z :=
  if all_digits1 body then Ok (check_digit_value body) else Throw RangeError.

(** [code.slice(0, -1)] and [Number(code.at(-1))]. *)
Definition code_body (code : jsstr) : jsstr := take (length code - 1) code.
Definition code_last (code : jsstr) : Z := List.last code 48 - 48.

Definition hasValidCheckDigit (code : jsstr) : bool :=
  if (length code <? 2)%nat || negb (all_digits1 code) then false
  else check_digit_value (code_body code) =? code_last code.

(** ** gs1/gtin.ts *)

Definition GTIN_LENGTHS : list nat := [8; 12; 13; 14]%nat.

Definition normalizeToGtin14 (input : jsstr) : result jsstr :=
  if negb (all_digits1 input) || negb (bool_decide (length input ∈ GTIN_LENGTHS))
  then throw "GTIN_INVALID"
  else if negb (hasValidCheckDigit input) then throw "GTIN_INVALID"
  else Ok (pad_start 14 48 input).

Definition isValidGtin (input : jsstr) : bool := is_ok (normalizeToGtin14 input).

Definition gtinMatchesPrefix (gtin14 gs1Prefix : jsstr) : bool :=
  if negb (length gtin14 =? 14)%nat || negb (all_digits1 gs1Prefix)
     || (length gs1Prefix =? 0)%nat
  then false
  else starts_with gs1Prefix (drop 1 gtin14).

(** ** gs1/sscc.ts *)

(** [/^\d{4,12}$/.test(s)]. *)
Definition valid_prefix (s : jsstr) : bool :=
  (4 <=? length s)%nat && (length s <=? 12)%nat && forallb is_digit s.

Definition ssccSerialCapacity (gs1Prefix : jsstr) : result Z :=
  if negb (valid_prefix gs1Prefix) then throw "SSCC_PREFIX"
  else Ok (10 ^ Z.of_nat (16 - length gs1Prefix)).

Definition buildSscc (extensionDigit : jsnum) (gs1Prefix : jsstr) (serial : jsnum)
  : result jsstr :=
  if negb (is_integer extensionDigit) || (int_value extensionDigit <? 0)
     || (9 <? int_value extensionDigit)
  then throw "SSCC_PREFIX"
  else
    capacity ← ssccSerialCapacity gs1Prefix;
    if negb (is_integer serial) || (int_value serial <? 0)
       || (capacity <=? int_value serial)
    then throw "SSCC_RANGE"
    else
      let body := js_of_Z (int_value extensionDigit) ++ gs1Prefix
                  ++ pad_start (16 - length gs1Prefix) 48 (js_of_Z (int_value serial)) in
      digit ← gs1CheckDigit body;
      Ok (body ++ js_of_Z digit).

Definition isValidSscc (code : jsstr) : bool := digits_n 18 code && hasValidCheckDigit code.

Definition parseScannedSscc (raw : jsstr) (allowLegacyBangOnePrefix : bool) : option jsstr :=
  if ((if allowLegacyBangOnePrefix then 27 else 25) <? length raw)%nat then None
  else
    let rest := if starts_with (js "]C1") raw then drop 3 raw else raw in
    let rest := if allowLegacyBangOnePrefix && starts_with (js "!1") rest
                then drop 2 rest else rest in
    let rest := if starts_with (js "(00)") rest then drop 4 rest
                else if (length rest =? 20)%nat && starts_with (js "00") rest
                then drop 2 rest else rest in
    if isValidSscc rest then Some rest else None.

Record ParsedSscc := {
  extensionDigit : Z;
  gs1Prefix : jsstr;
  serial : Z
}.

#[export] Instance ParsedSscc_eq_dec : EqDecision ParsedSscc.
Proof. solve_decision. Defined.

Definition parseSscc (sscc : jsstr) (prefixLength : jsnum) : result (option ParsedSscc) :=
  if negb (isValidSscc sscc) then Ok None
  else if negb (is_integer prefixLength) || (int_value prefixLength <? 4)
          || (12 <? int_value prefixLength)
  then throw "SSCC_PREFIX"
  else
    let n := Z.to_nat (int_value prefixLength) in
    Ok (Some {| extensionDigit := digits_value (slice 0 1 sscc);
                gs1Prefix := slice 1 (1 + n) sscc;
                serial := digits_value (slice (1 + n) 17 sscc) |}).

Definition formatSsccWithAi (sscc : jsstr) : result jsstr :=
  if negb (digits_n 18 sscc) then throw "SSCC_FORMAT" else Ok (js "00" ++ sscc).

Definition formatSsccHri (value : jsstr) : result jsstr :=
  let bare := if (length value =? 20)%nat && starts_with (js "00") value
              then drop 2 value else value in
  if negb (digits_n 18 bare) then throw "SSCC_FORMAT" else Ok (js "(00)" ++ bare).

(** ** inn.ts *)

Definition TEN : list Z := [2; 4; 10; 3; 5; 9; 4; 6; 8].
Definition TWELVE_FIRST : list Z := [7; 2; 4; 10; 3; 5; 9; 4; 6; 8].
Definition TWELVE_SECOND : list Z := [3; 7; 2; 4; 10; 3; 5; 9; 4; 6; 8].

(** The [reduce] of [checkDigit]: a digit past the end counts as zero. *)
Fixpoint weigh (digits weights : list Z) : Z :=
  match weights with
  | [] => 0
  | w :: ws => w * default 0 (head digits) + weigh (tail digits) ws
  end.

Definition innCheckDigit (digits weights : list Z) : Z := (weigh digits weights mod 11) mod 10.

Definition isValidInn (value : jsstr) : bool :=
  if negb (digits_n 10 value || digits_n 12 value) then false
  else
    let digits := (fun c => c - 48) <$> value in
    if (length digits =? 10)%nat
    then innCheckDigit digits TEN =? default 0 (digits !! 9%nat)
    else (innCheckDigit digits TWELVE_FIRST =? default 0 (digits !! 10%nat))
         && (innCheckDigit digits TWELVE_SECOND =? default 0 (digits !! 11%nat)).

Definition normalizeInn (value : jsstr) : option jsstr :=
  let trimmed := trim value in
  if isValidInn trimmed then Some trimmed else None.

(** ** The check digit *)

Lemma weighted_sum_SS i l : weighted_sum (S (S i)) l = weighted_sum i l.
Proof.
  revert i; induction l as [|c l IH]; intros i; cbn [weighted_sum]; [done|].
  by rewrite IH.
Qed.

Lemma weighted_sum_app i l r :
  weighted_sum i (l ++ r) = weighted_sum i l + weighted_sum (i + length l) r.
Proof.
  revert i; induction l as [|c l IH]; intros i; cbn [weighted_sum app length].
  - by rewrite Nat.add_0_r.
  - rewrite IH. replace (S i + length l)%nat with (i + S (length l))%nat by lia. lia.
Qed.

Lemma weighted_sum_zeros i n : weighted_sum i (replicate n 48) = 0.
Proof.
  revert i; induction n as [|n IH]; intros i; cbn; [done|].
  rewrite IH. by destruct (Nat.even i).
Qed.

(** The weight a position carries in the whole code, its check digit included. *)
Definition weight (i : nat) : Z := if Nat.even i then 3 else 1.

Lemma weighted_sum_cons i c l :
  weighted_sum i (c :: l) = (c - 48) * weight i + weighted_sum (S i) l.
Proof. cbn. unfold weight. destruct (Nat.even i); lia. Qed.

Lemma code_split code :
  (2 <= length code)%nat ->
  exists body c, code = body ++ [c] /\ code_body code = body
    /\ code_last code = c - 48 /\ body <> [].
Proof.
  destruct code as [|c body _] using rev_ind; cbn; [lia|].
  rewrite length_app. cbn. intros Hl. exists body, c. split; [done|].
  unfold code_body, code_last. rewrite length_app, List.last_last. cbn.
  rewrite Nat.add_sub, take_app_length. repeat split. by intros ->; cbn in Hl; lia.
Qed.

(** The check is the divisibility by ten of the weighted sum of the whole code. *)
Lemma hasValidCheckDigit_spec code :
  hasValidCheckDigit code = true <->
  (2 <= length code)%nat /\ forallb is_digit code = true
  /\ weighted_sum 1 (reverse code) mod 10 = 0.
Proof.
  unfold hasValidCheckDigit, all_digits1.
  destruct (Nat.ltb_spec (length code) 2) as [Hl|Hl]; cbn [orb].
  { split; [done | lia]. }
  assert (Hn : code <> []) by (intros ->; cbn in Hl; lia).
  rewrite bool_decide_eq_false_2 by done. cbn [negb andb].
  destruct (forallb is_digit code) eqn:Hd; cbn [negb]; [|naive_solver].
  destruct (code_split code Hl) as (body & c & -> & -> & -> & _).
  rewrite forallb_app, andb_true_iff in Hd. destruct Hd as [_ Hc].
  cbn in Hc. rewrite andb_true_r in Hc. apply is_digit_spec in Hc.
  rewrite reverse_snoc, weighted_sum_cons, weighted_sum_SS, Z.eqb_eq.
  unfold check_digit_value, weight. cbn [Nat.even].
  pose proof (Z.mod_pos_bound (weighted_sum 0 (reverse body)) 10 ltac:(lia)).
  pose proof (Z.div_mod (weighted_sum 0 (reverse body)) 10 ltac:(lia)).
  set (w := weighted_sum 0 (reverse body)) in *.
  split.
  - intros E. split; [done|]. split; [done|].
    pose proof (Z.div_mod (10 - w mod 10) 10 ltac:(lia)).
    replace ((c - 48) * 1 + w) with (10 * (w / 10 + 1 - (10 - w mod 10) / 10)) by lia.
    by rewrite Z.mul_comm, Z.mod_mul.
  - intros (_ & _ & E). apply Z.mod_divide in E as [k E]; [|lia].
    symmetry. apply (Z.mod_unique_pos _ _ (k * -1 + w / 10 + 1)); lia.
Qed.

Lemma check_digit_value_bound body : 0 <= check_digit_value body <= 9.
Proof. unfold check_digit_value. pose proof (Z.mod_pos_bound (10 - weighted_sum 0 (reverse body) mod 10) 10). lia. Qed.

Lemma js_of_Z_digit d : 0 <= d <= 9 -> js_of_Z d = [48 + d].
Proof.
  intros H. assert (d = 0 \/ d = 1 \/ d = 2 \/ d = 3 \/ d = 4 \/ d = 5 \/ d = 6 \/ d = 7
    \/ d = 8 \/ d = 9) as HH by lia. naive_solver.
Qed.

Lemma all_digits1_spec s : all_digits1 s = true <-> s <> [] /\ forallb is_digit s = true.
Proof.
  unfold all_digits1. by rewrite andb_true_iff, negb_true_iff, bool_decide_eq_false.
Qed.

Lemma digits_n_spec n s : digits_n n s = true <-> length s = n /\ forallb is_digit s = true.
Proof. unfold digits_n. by rewrite andb_true_iff, Nat.eqb_eq. Qed.

Lemma hasValidCheckDigit_snoc body d :
  all_digits1 body = true -> 0 <= d <= 9 ->
  hasValidCheckDigit (body ++ [48 + d]) = (check_digit_value body =? d).
Proof.
  intros Hb Hd. apply all_digits1_spec in Hb as [Hn Hb].
  unfold hasValidCheckDigit, all_digits1, code_body, code_last.
  rewrite List.last_last, length_app, forallb_app, Hb. cbn [length forallb andb].
  rewrite (proj2 (is_digit_spec _)) by lia.
  rewrite bool_decide_eq_false_2 by (by destruct body). cbn [negb andb orb].
  destruct body as [|b body]; [done|]. cbn [length].
  destruct (Nat.ltb_spec (S (length body) + 1) 2); [lia|]. cbn [orb].
  rewrite Nat.add_sub. change (S (length body)) with (length (b :: body)).
  rewrite take_app_length. f_equal. lia.
Qed.

(** [gs1CheckDigit] of any digit string succeeds with a decimal digit, the
    code it completes passes [hasValidCheckDigit], and no other digit does. *)
Theorem gs1CheckDigit_completes (body : jsstr) (Hbody : all_digits1 body = true) :
  exists d, gs1CheckDigit body = Ok d /\ 0 <= d <= 9 /\
    forall d', 0 <= d' <= 9 ->
      (hasValidCheckDigit (body ++ js_of_Z d') = true <-> d' = d).
Proof.
  exists (check_digit_value body). unfold gs1CheckDigit. rewrite Hbody.
  split; [done|]. split; [apply check_digit_value_bound|].
  intros d' Hd'. rewrite js_of_Z_digit, hasValidCheckDigit_snoc, Z.eqb_eq by done.
  split; congruence.
Qed.

Lemma gs1CheckDigit_completes_witness :
  exists d, gs1CheckDigit (js "460704711090") = Ok d /\ 0 <= d <= 9 /\
    forall d', 0 <= d' <= 9 ->
      (hasValidCheckDigit (js "460704711090" ++ js_of_Z d') = true <-> d' = d).
Proof. apply gs1CheckDigit_completes. vm_compute. reflexivity. Defined.

(** The check digit detects every misread of a single digit: changing one
    digit of an accepted code into another one makes it rejected. *)
Theorem check_digit_detects_substitution (l r : jsstr) (c d : Z)
  (Hvalid : hasValidCheckDigit (l ++ [c] ++ r) = true)
  (Hd : is_digit d = true) (Hne : d <> c) :
  hasValidCheckDigit (l ++ [d] ++ r) = false.
Proof.
  apply hasValidCheckDigit_spec in Hvalid as (_ & Hdig & Hsum).
  rewrite !forallb_app in Hdig. cbn in Hdig. bool_hyps.
  apply not_true_iff_false. rewrite hasValidCheckDigit_spec. intros (_ & _ & Hsum').
  assert (Hc : is_digit c = true) by naive_solver.
  apply is_digit_spec in Hd, Hc.
  rewrite !reverse_app, !reverse_singleton, !weighted_sum_app, !length_app
    in Hsum, Hsum'.
  cbn [weighted_sum length] in Hsum, Hsum'.
  apply Z.mod_divide in Hsum as [k Hk]; [|lia].
  apply Z.mod_divide in Hsum' as [k' Hk']; [|lia].
  destruct (Nat.even (1 + length (reverse r))); lia.
Qed.

Lemma check_digit_detects_substitution_witness :
  hasValidCheckDigit (js "4607047" ++ js "2" ++ js "10905") = false.
Proof.
  apply (check_digit_detects_substitution (js "4607047") (js "10905") 49 50);
    [vm_compute; reflexivity | reflexivity | lia].
Defined.

(** ** GTIN *)

Lemma hasValidCheckDigit_pad n code :
  hasValidCheckDigit code = true -> hasValidCheckDigit (pad_start n 48 code) = true.
Proof.
  rewrite !hasValidCheckDigit_spec. intros (Hl & Hd & Hs).
  rewrite length_pad_start. split; [lia|]. split; [by apply all_digits_pad|].
  unfold pad_start. by rewrite reverse_app, reverse_replicate, weighted_sum_app,
    weighted_sum_zeros, Z.add_0_r.
Qed.

Lemma normalizeToGtin14_Ok input g :
  normalizeToGtin14 input = Ok g <->
  length input ∈ GTIN_LENGTHS /\ hasValidCheckDigit input = true
  /\ g = pad_start 14 48 input.
Proof.
  unfold normalizeToGtin14. split.
  - intros H. case_in H. injection H as <-. by bool_hyps.
  - intros (Hl & Hv & ->). pose proof Hv as Hs.
    apply hasValidCheckDigit_spec in Hs as (Hlen & Hd & _).
    rewrite Hv, (bool_decide_eq_true_2 _ Hl), (proj2 (all_digits1_spec _)); [done|].
    split; [by intros ->; cbn in Hlen; lia | done].
Qed.

(** Normalising a GTIN keeps its number, gives fourteen digits with a valid
    check digit, and is idempotent; it succeeds exactly on a GTIN-8, -12, -13
    or -14 with a valid check digit. *)
Theorem normalizeToGtin14_correct (input : jsstr) :
  (isValidGtin input = true <->
    length input ∈ GTIN_LENGTHS /\ hasValidCheckDigit input = true) /\
  (forall g, normalizeToGtin14 input = Ok g ->
    length g = 14%nat /\ forallb is_digit g = true /\ hasValidCheckDigit g = true
    /\ digits_value g = digits_value input /\ normalizeToGtin14 g = Ok g).
Proof.
  split.
  - unfold isValidGtin. rewrite is_ok_spec. setoid_rewrite normalizeToGtin14_Ok.
    naive_solver.
  - intros g Hg. apply normalizeToGtin14_Ok in Hg as (Hl & Hv & ->).
    assert (Hlen : length (pad_start 14 48 input) = 14%nat).
    { rewrite length_pad_start. apply list_elem_of_In in Hl. cbn in Hl. lia. }
    pose proof (hasValidCheckDigit_pad 14 input Hv) as Hp.
    split; [done|]. split; [by apply hasValidCheckDigit_spec in Hp as (_ & ? & _)|].
    split; [done|]. split; [apply digits_value_pad|].
    apply normalizeToGtin14_Ok. rewrite Hlen. split; [apply list_elem_of_In; cbn; lia|].
    split; [done|]. symmetry. apply pad_start_id. lia.
Qed.

(** ** SSCC *)

Lemma valid_prefix_spec p :
  valid_prefix p = true <-> (4 <= length p <= 12)%nat /\ forallb is_digit p = true.
Proof. unfold valid_prefix. rewrite !andb_true_iff, !Nat.leb_le. tauto. Qed.

(** The conditions under which [buildSscc] produces a code. *)
Definition sscc_parts_ok (ext : Z) (prefix : jsstr) (serial : Z) : Prop :=
  0 <= ext <= 9 /\ valid_prefix prefix = true
  /\ 0 <= serial < 10 ^ Z.of_nat (16 - length prefix).

Definition sscc_body (ext : Z) (prefix : jsstr) (serial : Z) : jsstr :=
  [48 + ext] ++ prefix ++ pad_start (16 - length prefix) 48 (js_of_nonneg serial).

Lemma sscc_body_digits ext prefix serial :
  sscc_parts_ok ext prefix serial ->
  length (sscc_body ext prefix serial) = 17%nat
  /\ forallb is_digit (sscc_body ext prefix serial) = true.
Proof.
  intros (He & Hp & Hs). apply valid_prefix_spec in Hp as [Hl Hp].
  pose proof (js_of_nonneg_length serial (16 - length prefix) Hs ltac:(lia)).
  destruct (js_of_nonneg_spec serial) as (Hd & _ & _); [lia|].
  unfold sscc_body. split.
  - rewrite !length_app, length_pad_start. cbn. lia.
  - rewrite !forallb_app, Hp, all_digits_pad by done. cbn.
    by rewrite (proj2 (is_digit_spec _)) by lia.
Qed.

Lemma buildSscc_Ok ext prefix serial :
  sscc_parts_ok ext prefix serial ->
  buildSscc (num ext) prefix (num serial) =
  Ok (sscc_body ext prefix serial
      ++ js_of_Z (check_digit_value (sscc_body ext prefix serial))).
Proof.
  intros Hok. pose proof (sscc_body_digits _ _ _ Hok) as [Hbl Hbd].
  destruct Hok as (He & Hp & Hs).
  unfold buildSscc, ssccSerialCapacity. autorewrite with jsnum. rewrite Hp. cbn [negb orb].
  destruct (Z.ltb_spec ext 0), (Z.ltb_spec 9 ext), (Z.ltb_spec serial 0); try lia.
  cbn [negb orb mbind result_bind].
  destruct (Z.leb_spec (10 ^ Z.of_nat (16 - length prefix)) serial); [lia|].
  rewrite js_of_Z_digit, js_of_Z_nonneg by lia. fold (sscc_body ext prefix serial).
  unfold gs1CheckDigit. rewrite (proj2 (all_digits1_spec _)); cycle 1.
  { split; [|done]. intros E. by rewrite E in Hbl. }
  reflexivity.
Qed.

Lemma buildSscc_valid ext prefix serial s :
  sscc_parts_ok ext prefix serial ->
  buildSscc (num ext) prefix (num serial) = Ok s -> isValidSscc s = true.
Proof.
  intros Hok. rewrite buildSscc_Ok by done. intros <-%Ok_inj.
  destruct (sscc_body_digits _ _ _ Hok) as [Hl Hd].
  pose proof (check_digit_value_bound (sscc_body ext prefix serial)) as Hb.
  unfold isValidSscc. rewrite js_of_Z_digit by done.
  rewrite hasValidCheckDigit_snoc, Z.eqb_refl, andb_true_r; [|apply all_digits1_spec|done].
  - apply digits_n_spec. rewrite length_app, forallb_app, Hl, Hd. cbn [forallb length andb].
    by rewrite (proj2 (is_digit_spec _)) by lia.
  - split; [by intros E; rewrite E in Hl | done].
Qed.

Lemma isValidSscc_spec s :
  isValidSscc s = true <->
  length s = 18%nat /\ forallb is_digit s = true /\ hasValidCheckDigit s = true.
Proof. unfold isValidSscc. rewrite andb_true_iff, digits_n_spec. tauto. Qed.

Lemma parseSscc_parts ext prefix serial digit :
  sscc_parts_ok ext prefix serial -> length digit = 1%nat ->
  isValidSscc (sscc_body ext prefix serial ++ digit) = true ->
  parseSscc (sscc_body ext prefix serial ++ digit) (num (Z.of_nat (length prefix))) =
  Ok (Some {| extensionDigit := ext; gs1Prefix := prefix; serial := serial |}).
Proof.
  intros Hok Hdig Hv. unfold parseSscc. rewrite Hv. autorewrite with jsnum.
  pose proof Hok as (He & Hp & Hs). apply valid_prefix_spec in Hp as [Hl Hp].
  destruct (sscc_body_digits _ _ _ Hok) as [Hbl _]. unfold sscc_body in *.
  destruct (Z.ltb_spec (Z.of_nat (length prefix)) 4); [lia|].
  destruct (Z.ltb_spec 12 (Z.of_nat (length prefix))); [lia|]. cbn [negb orb].
  rewrite Nat2Z.id, !length_app in *. cbn [length] in Hbl.
  do 3 f_equal.
  - change (0 * 10 + (48 + ext - 48) = ext). lia.
  - rewrite <- !app_assoc. by apply slice_app.
  - replace (([48 + ext] ++ prefix ++ pad_start (16 - length prefix) 48 (js_of_nonneg serial))
      ++ digit) with (([48 + ext] ++ prefix)
      ++ pad_start (16 - length prefix) 48 (js_of_nonneg serial) ++ digit)
      by by rewrite <- !app_assoc.
    rewrite slice_app; [|rewrite length_app; cbn; lia..].
    rewrite digits_value_pad. apply js_of_nonneg_spec. lia.
Qed.

(** C36: [buildSscc] on a decimal extension digit, a GS1 prefix of four to twelve
    digits and a serial inside the capacity succeeds with a valid SSCC that
    [parseSscc], told the prefix length, splits back into the same parts. *)
Theorem buildSscc_parse_roundtrip (ext : Z) (prefix : jsstr) (serial : Z)
  (Hok : sscc_parts_ok ext prefix serial) :
  exists s, buildSscc (num ext) prefix (num serial) = Ok s
    /\ isValidSscc s = true
    /\ parseSscc s (num (Z.of_nat (length prefix))) =
       Ok (Some {| extensionDigit := ext; gs1Prefix := prefix; serial := serial |}).
Proof.
  eexists. pose proof (buildSscc_Ok _ _ _ Hok) as Hb. split; [done|].
  pose proof (buildSscc_valid _ _ _ _ Hok Hb) as Hv. split; [done|].
  apply parseSscc_parts; [done| |done].
  by rewrite js_of_Z_digit by apply check_digit_value_bound.
Qed.

Lemma buildSscc_parse_roundtrip_witness :
  exists s, buildSscc (num 0) (js "4607047") (num 42) = Ok s
    /\ isValidSscc s = true
    /\ parseSscc s (num (Z.of_nat (length (js "4607047")))) =
       Ok (Some {| extensionDigit := 0; gs1Prefix := js "4607047"; serial := 42 |}).
Proof.
  apply buildSscc_parse_roundtrip.
  split; [lia|]. split; [vm_compute; reflexivity | split; [lia | vm_compute; reflexivity]].
Defined.

(** A digit string is determined by its value and length. *)
Lemma pad_js_of_digits s :
  forallb is_digit s = true -> (0 < length s)%nat ->
  pad_start (length s) 48 (js_of_nonneg (digits_value s)) = s.
Proof.
  intros Hd Hl. pose proof (digits_value_bound s Hd) as Hb.
  pose proof (js_of_nonneg_length _ (length s) Hb Hl).
  destruct (js_of_nonneg_spec (digits_value s)) as (Hdd & Hv & _); [lia|].
  apply digits_value_inj; [rewrite length_pad_start; lia | by apply all_digits_pad | done |].
  by rewrite digits_value_pad.
Qed.

Lemma slice_all (i n : nat) (s : jsstr) : length s = n -> slice i n s = drop i s.
Proof. intros <-. unfold slice. apply take_ge. rewrite length_drop. lia. Qed.

Lemma forallb_take p n (s : jsstr) : forallb p s = true -> forallb p (take n s) = true.
Proof. rewrite <- (take_drop n s) at 1. rewrite forallb_app, andb_true_iff. tauto. Qed.

Lemma forallb_drop p n (s : jsstr) : forallb p s = true -> forallb p (drop n s) = true.
Proof. rewrite <- (take_drop n s) at 1. rewrite forallb_app, andb_true_iff. tauto. Qed.

Lemma length_slice i j (s : jsstr) : (j <= length s)%nat -> length (slice i j s) = (j - i)%nat.
Proof. intros H. unfold slice. rewrite length_take, length_drop. lia. Qed.

Lemma take_S_slice (n j : nat) (s : jsstr) :
  (n <= j)%nat -> take j s = take n s ++ slice n j s.
Proof.
  intros H. unfold slice. replace j with (n + (j - n))%nat at 1 by lia.
  by rewrite take_take_drop.
Qed.

Lemma slice_app_l i j (l r : jsstr) :
  (j <= length l)%nat -> slice i j (l ++ r) = slice i j l.
Proof.
  intros H. unfold slice. destruct (decide (i <= length l)%nat).
  - rewrite drop_app_le, take_app_le; [done | rewrite length_drop; lia | lia].
  - by replace (j - i)%nat with O by lia.
Qed.

(** A valid SSCC is a body and the check digit of that body. *)
Lemma isValidSscc_split s :
  isValidSscc s = true ->
  length (take 17 s) = 17%nat /\ forallb is_digit (take 17 s) = true
  /\ s = take 17 s ++ [48 + check_digit_value (take 17 s)].
Proof.
  rewrite isValidSscc_spec. intros (Hl & Hd & Hv).
  assert (Ht : length (take 17 s) = 17%nat) by (rewrite length_take; lia).
  pose proof (forallb_take is_digit 17 s Hd) as Hdt. split; [done|]. split; [done|].
  destruct (code_split s ltac:(lia)) as (body & c & -> & _ & _ & Hn).
  rewrite length_app in Hl. cbn in Hl.
  rewrite (take_app_length' body [c] 17) in * by lia. f_equal. f_equal.
  rewrite forallb_app in Hd. cbn in Hd. bool_hyps.
  assert (Hc : is_digit c = true) by done. apply is_digit_spec in Hc.
  replace c with (48 + (c - 48)) in Hv by lia.
  rewrite hasValidCheckDigit_snoc in Hv; [bool_hyps; lia | by apply all_digits1_spec | lia].
Qed.

(** [parseSscc] loses nothing: rebuilding the SSCC from the parts it
    returned gives back the very same code, whatever prefix length it was told. *)
Theorem parseSscc_build_roundtrip (s : jsstr) (n : Z) (p : ParsedSscc)
  (Hparse : parseSscc s (num n) = Ok (Some p)) :
  length (gs1Prefix p) = Z.to_nat n /\
  buildSscc (num (extensionDigit p)) (gs1Prefix p) (num (serial p)) = Ok s.
Proof.
  unfold parseSscc in Hparse. autorewrite with jsnum in Hparse. case_in Hparse.
  bool_hyps. apply Ok_inj, (inj Some) in Hparse. subst p. cbn [gs1Prefix extensionDigit serial].
  destruct (isValidSscc_split s) as (Hl & Hd & Hs); [done|].
  assert (Hl18 : length s = 18%nat) by (rewrite Hs, length_app, Hl; done).
  set (k := Z.to_nat n) in *. assert (Hk : (4 <= k <= 12)%nat) by lia.
  pose proof (length_slice 1 (1 + k) s ltac:(lia)) as Hpl.
  pose proof (length_slice (1 + k) 17 s ltac:(lia)) as Hsl.
  pose proof (length_slice 0 1 s ltac:(lia)) as H1l.
  assert (Hds : forall i j, (j <= 17)%nat -> forallb is_digit (slice i j s) = true).
  { intros i j Hj. rewrite Hs, slice_app_l by lia. by apply forallb_take, forallb_drop. }
  pose proof (digits_value_bound _ (Hds (1 + k)%nat 17%nat ltac:(lia))) as Hsb.
  pose proof (digits_value_bound _ (Hds 0%nat 1%nat ltac:(lia))) as H1b.
  rewrite H1l in H1b. rewrite Hsl in Hsb.
  assert (Hok : sscc_parts_ok (digits_value (slice 0 1 s)) (slice 1 (1 + k) s)
                  (digits_value (slice (1 + k) 17 s))).
  { change (10 ^ Z.of_nat (1 - 0)) with 10 in H1b. split; [lia|]. split; [apply valid_prefix_spec; split; [lia | apply Hds; lia]|].
    rewrite Hpl. replace (16 - (1 + k - 1))%nat with (17 - (1 + k))%nat by lia. done. }
  split; [lia|]. rewrite buildSscc_Ok by done. f_equal.
  assert (Hbody : sscc_body (digits_value (slice 0 1 s)) (slice 1 (1 + k) s)
                    (digits_value (slice (1 + k) 17 s)) = take 17 s).
  { unfold sscc_body. rewrite Hpl.
    replace (16 - (1 + k - 1))%nat with (length (slice (1 + k) 17 s)) by lia.
    rewrite pad_js_of_digits by first [apply Hds; lia | rewrite Hsl; lia].
    rewrite (take_S_slice (1 + k) 17), (take_S_slice 1 (1 + k)), <- app_assoc by lia. f_equal.
    destruct s as [|c s]; [done|]. unfold slice, digits_value. cbn [take drop Nat.sub fold_left].
    rewrite take_0. cbn [fold_left]. f_equal. lia. }
  rewrite Hbody, js_of_Z_digit by apply check_digit_value_bound. done.
Qed.

Lemma parseSscc_build_roundtrip_witness :
  length (js "4607047") = Z.to_nat 7 /\
  buildSscc (num 0) (js "4607047") (num 42) = Ok (js "046070470000000428").
Proof.
  apply (parseSscc_build_roundtrip (js "046070470000000428") 7
    {| extensionDigit := 0; gs1Prefix := js "4607047"; serial := 42 |}).
  vm_compute. reflexivity.
Defined.

(** Both directions of the guards of [buildSscc], on the integers it reads. *)
Definition sscc_error (ext : Z) (prefix : jsstr) (serial : Z) : option string :=
  if negb ((0 <=? ext) && (ext <=? 9) && valid_prefix prefix) then Some "SSCC_PREFIX"%string
  else if negb ((0 <=? serial) && (serial <? 10 ^ Z.of_nat (16 - length prefix)))
  then Some "SSCC_RANGE"%string else None.

(** [buildSscc] never returns a code for parts it cannot encode, and reports
    the extension digit and the prefix before the serial: for integer arguments
    its outcome is decided by exactly the two documented errors. *)
Theorem buildSscc_error (ext serial : Z) (prefix : jsstr) :
  match sscc_error ext prefix serial with
  | Some code => buildSscc (num ext) prefix (num serial) = throw code
  | None => is_ok (buildSscc (num ext) prefix (num serial)) = true
  end.
Proof.
  unfold sscc_error.
  destruct (Z.leb_spec 0 ext), (Z.leb_spec ext 9), (valid_prefix prefix) eqn:Hp;
    cbn [negb andb];
    try (unfold buildSscc, ssccSerialCapacity; autorewrite with jsnum; rewrite ?Hp;
         destruct (Z.ltb_spec ext 0), (Z.ltb_spec 9 ext); (lia || reflexivity)).
  destruct (Z.leb_spec 0 serial), (Z.ltb_spec serial (10 ^ Z.of_nat (16 - length prefix)));
    cbn [negb andb];
    try (unfold buildSscc, ssccSerialCapacity; autorewrite with jsnum; rewrite Hp;
         destruct (Z.ltb_spec ext 0), (Z.ltb_spec 9 ext), (Z.ltb_spec serial 0); try lia;
         cbn [negb orb mbind result_bind];
         destruct (Z.leb_spec (10 ^ Z.of_nat (16 - length prefix)) serial);
         (lia || reflexivity)).
  rewrite buildSscc_Ok; [done | repeat split; (lia || done)].
Qed.

Lemma starts_with_not_digit c p s :
  forallb is_digit s = true -> is_digit c = false -> starts_with (c :: p) s = false.
Proof.
  intros Hs Hc. destruct s as [|d s]; [done|]. cbn in *. bool_hyps.
  destruct (Z.eqb_spec c d) as [->|]; [|done].
  assert (is_digit d = true) by done. congruence.
Qed.

(** The wrappers a scanner may put in front of the eighteen digits. *)
Definition sscc_wrappers : list jsstr :=
  [ []; js "00"; js "(00)"; js "]C1"; js "]C100"; js "]C1(00)" ].

(** Evaluates the prefix tests of [parseScannedSscc] over the digits of [s]. *)
Ltac strip_wrappers s :=
  repeat (progress (cbn -[isValidSscc starts_with drop]; cbn [starts_with Z.eqb Pos.eqb andb];
    rewrite ?(starts_with_not_digit 93 [67; 49] s), ?(starts_with_not_digit 33 [49] s),
      ?(starts_with_not_digit 40 [48; 48; 41] s) by done;
    change (drop 0 s) with s; cbn [drop];
    repeat match goal with H : length s = _ |- _ => progress rewrite !H end)).

(** [parseScannedSscc] recovers a valid SSCC from every wrapper a scanner
    adds, with or without the legacy switch; the misprinted [!1] prefix is read
    only when the caller allows it; and whatever it returns is a valid SSCC
    that ends the scanned text. *)
Theorem parseScannedSscc_correct (s : jsstr) (Hs : isValidSscc s = true) :
  (forall w legacy, w ∈ sscc_wrappers -> parseScannedSscc (w ++ s) legacy = Some s) /\
  (forall w, w ∈ [ []; js "00"; js "(00)" ] ->
     parseScannedSscc (js "!1" ++ w ++ s) true = Some s /\
     parseScannedSscc (js "!1" ++ w ++ s) false = None) /\
  (forall raw legacy t, parseScannedSscc raw legacy = Some t ->
     isValidSscc t = true /\ exists w, raw = w ++ t).
Proof.
  pose proof Hs as Hs'. apply isValidSscc_spec in Hs' as (Hl & Hd & _).
  assert (Hlen : forall w : jsstr, length (w ++ s) = (length w + 18)%nat)
    by (intros w; rewrite length_app; lia).
  split; [|split].
  - intros w legacy Hw. unfold parseScannedSscc. rewrite Hlen.
    apply list_elem_of_In in Hw. cbn in Hw.
    destruct Hw as [<-|[<-|[<-|[<-|[<-|[<-|[]]]]]]], legacy; js_lits;
      strip_wrappers s; by rewrite Hs.
  - intros w Hw. unfold parseScannedSscc. rewrite !length_app, Hl.
    apply list_elem_of_In in Hw. cbn in Hw.
    destruct Hw as [<-|[<-|[<-|[]]]]; js_lits;
      strip_wrappers s; rewrite ?Hs; (split; [done|]);
      unfold isValidSscc, digits_n; cbn; by rewrite ?andb_false_r.
  - intros raw legacy t H. unfold parseScannedSscc in H.
    destruct (_ <? _)%nat; [done|].
    assert (Hdrop : forall (n : nat) (b : bool) (x : jsstr),
      exists w, x = w ++ (if b then drop n x else x)).
    { intros n b x. destruct b; [exists (take n x); by rewrite take_drop | by exists []]. }
    set (r1 := if starts_with (js "]C1") raw then drop 3 raw else raw) in *.
    set (r2 := if legacy && starts_with (js "!1") r1 then drop 2 r1 else r1) in *.
    cbv zeta in H. match type of H with (if ?c then _ else _) = _ =>
      destruct c eqn:Hv; [|done] end. apply (inj Some) in H. subst t. split; [done|].
    destruct (Hdrop 3%nat (starts_with (js "]C1") raw) raw) as [w1 E1]. fold r1 in E1.
    destruct (Hdrop 2%nat (legacy && starts_with (js "!1") r1) r1) as [w2 E2]. fold r2 in E2.
    rewrite E1, E2.
    destruct (starts_with (js "(00)") r2).
    { exists (w1 ++ w2 ++ take 4 r2). by rewrite <- !app_assoc, take_drop. }
    destruct (Hdrop 2%nat ((length r2 =? 20)%nat && starts_with (js "00") r2) r2) as [w3 E3].
    exists (w1 ++ w2 ++ w3). by rewrite <- !app_assoc, <- E3.
Qed.

Lemma parseScannedSscc_correct_witness :
  parseScannedSscc (js "]C1(00)" ++ js "046070470000000428") false
  = Some (js "046070470000000428").
Proof.
  apply (parseScannedSscc_correct (js "046070470000000428")); [vm_compute; reflexivity|].
  unfold sscc_wrappers. set_solver.
Defined.
