(* ===== verification/Km.v ===== *)
(** * Marking codes (KM) and the classification of scanner input

    [packages/domain/src/gs1/km.ts] and [packages/domain/src/scan/*.ts]: the
    parser of the Chestny ZNAK wire format, its canonicalisation, the identity
    and hash of a code, and the three entry points of a scanner event.  SHA-256
    in hexadecimal ([bytesToHex(sha256(..))] of @noble/hashes) is the parameter
    [sha256_hex] of the functions that use it. *)

From stdpp Require Import base list strings gmap.
From Stdlib Require Import ZArith Lia.
From S2P Require Import Prelude Gs1.

(** ** gs1/km.ts *)

Definition GS : Z := 0x1d.
Definition MAX_KM_UTF8_BYTES : Z := 1024.

Record KmAi := { ai : jsstr; value : jsstr }.

Record KmSegments := {
  seg_gtin14 : jsstr;
  seg_serial : jsstr;
  seg_ais : list KmAi
}.

Record ParsedKm := {
  gtin14 : jsstr;
  serial : jsstr;
  raw : jsstr;
  ais : gmap jsstr jsstr
}.

#[export] Instance KmAi_eq_dec : EqDecision KmAi.
Proof. solve_decision. Defined.
#[export] Instance KmSegments_eq_dec : EqDecision KmSegments.
Proof. solve_decision. Defined.
#[export] Instance ParsedKm_eq_dec : EqDecision ParsedKm.
Proof. solve_decision. Defined.

(** The [while] loop of [parseKmSegments]; every pass drops at least three
    units, so the length of [rest] is enough fuel ([parse_ais_render]). *)
Fixpoint parse_ais (fuel : nat) (rest : jsstr) : result (list KmAi) :=
  match rest, fuel with
  | [], _ => Ok []
  | _, O => Throw PlainError
  | _, S fuel' =>
      if starts_with [GS] rest then throw "KM_EMPTY_AI"
      else if (length rest <=? 2)%nat then throw "KM_BAD_AI"
      else
        let ai := slice 0 2 rest in
        if negb (digits_n 2 ai) then throw "KM_BAD_AI"
        else
          let ends := index_of GS rest in
          let value := match ends with None => drop 2 rest | Some e => slice 2 e rest end in
          if (length value =? 0)%nat then throw "KM_EMPTY_AI"
          else if bool_decide (ends = Some (length rest - 1)%nat) then throw "KM_EMPTY_AI"
          else
            more ← parse_ais fuel' (match ends with None => [] | Some e => drop (e + 1) rest end);
            Ok ({| ai := ai; value := value |} :: more)
  end.

Definition parseKmSegments (raw : jsstr) : result KmSegments :=
  if (length raw =? 0)%nat then throw "KM_EMPTY"
  else
    let s := if starts_with (js "]d2") raw then drop 3 raw else raw in
    if negb (starts_with (js "01") s) then throw "KM_NO_GTIN"
    else
      let gtin14 := slice 2 16 s in
      if negb (digits_n 14 gtin14) then throw "KM_BAD_GTIN"
      else
        let s := drop 16 s in
        if negb (starts_with (js "21") s) then throw "KM_NO_SERIAL"
        else
          let gsAt := index_of GS s in
          let serial := match gsAt with None => drop 2 s | Some g => slice 2 g s end in
          if (length serial =? 0)%nat then throw "KM_NO_SERIAL"
          else
            let rest := match gsAt with None => [] | Some g => drop (g + 1) s end in
            if negb (bool_decide (gsAt = None)) && (length rest =? 0)%nat
            then throw "KM_EMPTY_AI"
            else
              ais ← parse_ais (length rest) rest;
              Ok {| seg_gtin14 := gtin14; seg_serial := serial; seg_ais := ais |}.

(** The loop of [parseKm] that folds the ordered AIs into a record. *)
Fixpoint fold_ais (l : list KmAi) (ais : gmap jsstr jsstr) : result (gmap jsstr jsstr) :=
  match l with
  | [] => Ok ais
  | a :: l' =>
      match ais !! ai a with
      | Some _ => throw "KM_DUPLICATE_AI"
      | None => fold_ais l' (<[ai a := value a]> ais)
      end
  end.

Definition parseKm (raw : jsstr) : result ParsedKm :=
  segments ← parseKmSegments raw;
  gtin14 ← normalizeToGtin14 (seg_gtin14 segments);
  ais ← fold_ais (seg_ais segments) ∅;
  Ok {| gtin14 := gtin14; serial := seg_serial segments; raw := raw; ais := ais |}.

Definition kmKey (km : ParsedKm) : jsstr := js "01" ++ gtin14 km ++ js "21" ++ serial km.

Definition kmHash (sha256_hex : list Z -> jsstr) (km : ParsedKm) : jsstr :=
  sha256_hex (utf8_encode (kmKey km)).

(** The edge whitespace [canonicalizeKm] removes. *)
Definition is_blank (c : Z) : bool := (c =? 32) || (c =? 9).

(** The [for] loop of [canonicalizeKm]. *)
Fixpoint check_km_units (s : jsstr) : result unit :=
  match s with
  | [] => Ok tt
  | code :: s' =>
      if is_high_surrogate code then
        match s' with
        | next :: s'' =>
            if is_low_surrogate next then check_km_units s'' else throw "KM_BAD_ENCODING"
        | [] => throw "KM_BAD_ENCODING"
        end
      else if is_low_surrogate code then throw "KM_BAD_ENCODING"
      else if ((code <? 0x20) && negb (code =? GS)) || (code =? 0x7f)
      then throw "KM_BAD_CONTROL"
      else check_km_units s'
  end.

(** The two trims around the AIM prefix. *)
Definition strip_transport (raw : jsstr) : jsstr :=
  let canonicalRaw := trim_by is_blank raw in
  let canonicalRaw := if starts_with (js "]d2") canonicalRaw
                      then drop 3 canonicalRaw else canonicalRaw in
  trim_by is_blank canonicalRaw.

Definition canonicalizeKm (raw : jsstr) : result ParsedKm :=
  let canonicalRaw := strip_transport raw in
  if bool_decide (0xfffd ∈ canonicalRaw) then throw "KM_BAD_ENCODING"
  else
    check_km_units canonicalRaw ≫= fun _ =>
    if MAX_KM_UTF8_BYTES <? Z.of_nat (length (utf8_encode canonicalRaw))
    then throw "KM_TOO_LONG"
    else parseKm canonicalRaw.

(** ** scan/classify.ts *)

Inductive ScanInput :=
| ScanKm (km : ParsedKm)
| ScanGtin (gtin14 : jsstr)
| ScanSscc (sscc : jsstr)
| ScanUnknown (raw : jsstr).

Definition classifyScan (raw : jsstr) : ScanInput :=
  let trimmed := trim raw in
  match parseScannedSscc trimmed false with
  | Some sscc => ScanSscc sscc
  | None =>
      match normalizeToGtin14 trimmed with
      | Ok g => ScanGtin g
      | Throw _ =>
          match canonicalizeKm raw with
          | Ok km => ScanKm km
          | Throw _ => ScanUnknown raw
          end
      end
  end.

(** ** scan/pickup.ts *)

Inductive PickupKmResult :=
| PickupOk (km : ParsedKm) (key : jsstr)
| PickupNotKm (raw : jsstr)
| PickupIncomplete (raw : jsstr).

Definition validatePickupKm (raw : jsstr) (requireCryptoTail : bool) : PickupKmResult :=
  match classifyScan raw with
  | ScanKm km =>
      if requireCryptoTail && bool_decide (ais km = ∅) then PickupIncomplete raw
      else PickupOk km (kmKey km)
  | _ => PickupNotKm raw
  end.

(** ** scan/validate.ts *)

Inductive ScanVerdict :=
| VerdictOk (key : jsstr)
| VerdictDuplicate (key : jsstr)
| VerdictWrongGtin (expectedGtin14 actualGtin14 : jsstr)
| VerdictInvalid (raw : jsstr).

Definition validateShiftScan (sha256_hex : list Z -> jsstr) (raw expectedGtin14 : jsstr)
  (isDuplicate : jsstr -> bool) : ScanVerdict :=
  match classifyScan raw with
  | ScanKm km =>
      if negb (jseqb (gtin14 km) expectedGtin14)
      then VerdictWrongGtin expectedGtin14 (gtin14 km)
      else
        let key := kmHash sha256_hex km in
        if isDuplicate key then VerdictDuplicate key else VerdictOk key
  | _ => VerdictInvalid raw
  end.

(** ** The wire format, as a grammar *)

Definition render_ai (a : KmAi) : jsstr := [GS] ++ ai a ++ value a.
Definition render_ais (l : list KmAi) : jsstr := concat (render_ai <$> l).
Definition render_km (seg : KmSegments) : jsstr :=
  js "01" ++ seg_gtin14 seg ++ js "21" ++ seg_serial seg ++ render_ais (seg_ais seg).

Definition wf_ai (a : KmAi) : Prop :=
  digits_n 2 (ai a) = true /\ value a <> [] /\ GS ∉ value a.
Definition wf_segments (seg : KmSegments) : Prop :=
  digits_n 14 (seg_gtin14 seg) = true /\ seg_serial seg <> [] /\ (GS ∉ seg_serial seg)
  /\ Forall wf_ai (seg_ais seg).

Lemma GS_not_digit s : forallb is_digit s = true -> GS ∉ s.
Proof.
  intros H Hin. rewrite forallb_forall in H.
  apply list_elem_of_In in Hin. by specialize (H _ Hin).
Qed.

Lemma length_zero_eqb {A} (l : list A) : (length l =? 0)%nat = true <-> l = [].
Proof. destruct l; cbn; naive_solver. Qed.

Lemma length_zero_neqb {A} (l : list A) : (length l =? 0)%nat = false <-> l <> [].
Proof. destruct l; cbn; naive_solver. Qed.

(** The field a separator ends, and what follows it. *)
Definition field_end (s : jsstr) : jsstr :=
  match index_of GS s with None => s | Some e => take e s end.
Definition field_rest (s : jsstr) : jsstr :=
  match index_of GS s with None => [] | Some e => drop e s end.

Lemma field_split s : s = field_end s ++ field_rest s /\ (GS ∉ field_end s).
Proof.
  unfold field_end, field_rest. destruct (index_of GS s) as [e|] eqn:E.
  - apply index_of_Some in E as (_ & ? & _). by rewrite take_drop.
  - apply index_of_None in E. by rewrite app_nil_r.
Qed.

(** A two-character head that is no separator only shifts the field. *)
Lemma index_of_head2 h s :
  length h = 2%nat -> GS ∉ h ->
  index_of GS (h ++ s) = (fun e => (2 + e)%nat) <$> index_of GS s.
Proof.
  destruct h as [|a [|b [|]]]; try done. intros _ Hh. cbn.
  destruct (Z.eqb_spec a GS) as [->|]; [set_solver|].
  destruct (Z.eqb_spec b GS) as [->|]; [set_solver|].
  by destruct (index_of GS s).
Qed.

Lemma parse_ais_step fuel h v rest :
  digits_n 2 h = true -> v <> [] -> GS ∉ v ->
  parse_ais (S fuel) (h ++ v ++ rest) =
  match rest with
  | [] => Ok [{| ai := h; value := v |}]
  | c :: rest' =>
      if c =? GS then
        if (length rest' =? 0)%nat then throw "KM_EMPTY_AI"
        else more ← parse_ais fuel rest'; Ok ({| ai := h; value := v |} :: more)
      else parse_ais (S fuel) (h ++ v ++ rest)
  end.
Proof.
  intros Hh Hv HGS. pose proof Hh as Hh'. apply digits_n_spec in Hh' as [Hl Hd].
  assert (Hidx : forall r, (r = [] -> index_of GS (h ++ v ++ r) = None) /\
    (forall r', r = GS :: r' -> index_of GS (h ++ v ++ r) = Some (2 + length v)%nat)).
  { intros r. rewrite index_of_head2; [|done|by apply GS_not_digit]. split.
    - intros ->. rewrite app_nil_r. by apply index_of_None in HGS as ->.
    - intros r' ->. by rewrite index_of_app. }
  assert (Hhead : starts_with [GS] (h ++ v ++ rest) = false).
  { destruct h as [|a h]; [done|]. cbn in Hd. bool_hyps. cbn [app starts_with].
    destruct (Z.eqb_spec GS a) as [<-|]; done. }
  assert (Hs2 : slice 0 2 (h ++ v ++ rest) = h)
    by (unfold slice; cbn; by apply take_app_length').
  destruct rest as [|c rest']; [|destruct (Z.eqb_spec c GS) as [->|]; [|done]];
    cbn [parse_ais]; rewrite Hhead, Hs2, Hh;
    destruct h as [|a [|b [|]]]; try done; cbn [app length].
  - destruct v as [|x v]; [done|]. cbn [app length]. destruct (Nat.leb_spec (S (S (S (length (v ++ []))))) 2); [lia|].
    cbn [negb]. destruct (Hidx []) as [Hi _]. cbn [app] in Hi. rewrite (Hi eq_refl).
    cbn [drop]. rewrite app_nil_r. cbn. by destruct fuel.
  - destruct (Hidx (GS :: rest')) as [_ Hi]. cbn [app] in Hi. rewrite (Hi _ eq_refl).
    destruct v as [|x v]; [done|].
    destruct (Nat.leb_spec (S (S (length ((x :: v) ++ GS :: rest')))) 2);
      [rewrite length_app in *; cbn in *; lia|]. cbn [negb].
    replace (slice 2 (2 + length (x :: v)) (a :: b :: (x :: v) ++ GS :: rest')) with (x :: v).
    2:{ unfold slice. cbn [drop]. by rewrite drop_0, take_app_length' by lia. }
    replace (drop (2 + length (x :: v) + 1) (a :: b :: (x :: v) ++ GS :: rest')) with rest'.
    2:{ replace (2 + length (x :: v) + 1)%nat with (S (S (length (x :: v) + 1)))%nat by lia.
        cbn [drop]. by rewrite drop_app_add. }
    cbn [length Nat.eqb]. rewrite length_app. cbn [length].
    destruct (Nat.eqb_spec (length rest') 0) as [E|E].
    + rewrite bool_decide_eq_true_2; [done|]. f_equal. lia.
    + rewrite bool_decide_eq_false_2; [done|]. intros [=]. lia.
Qed.

Lemma field_rest_cases s : field_rest s = [] \/ exists r, field_rest s = GS :: r.
Proof.
  unfold field_rest. destruct (index_of GS s) as [e|] eqn:E; [|by left].
  apply index_of_Some in E as (Hs & _ & Hl). right. exists (drop (S e) s).
  rewrite Hs at 1. rewrite drop_app_length' by (rewrite length_take; lia). done.
Qed.

(** Whatever the loop accepts starts with a well-formed AI group. *)
Lemma parse_ais_head fuel rest l :
  rest <> [] -> parse_ais (S fuel) rest = Ok l ->
  exists h v r, rest = h ++ v ++ r /\ digits_n 2 h = true /\ v <> [] /\ (GS ∉ v)
    /\ (r = [] \/ exists r', r = GS :: r').
Proof.
  intros Hne H. cbn [parse_ais] in H. destruct rest as [|c rest0]; [done|].
  set (rest := c :: rest0) in *. clearbody rest. clear c rest0 Hne.
  destruct (starts_with [GS] rest); [done|].
  destruct (Nat.leb_spec (length rest) 2); [done|].
  destruct (digits_n 2 (slice 0 2 rest)) eqn:Hd; [|done]. cbn [negb] in H.
  destruct (field_split (drop 2 rest)) as [Hs HGS].
  exists (take 2 rest), (field_end (drop 2 rest)), (field_rest (drop 2 rest)).
  rewrite <- Hs, take_drop. change (slice 0 2 rest) with (take 2 rest) in Hd.
  split; [done|]. split; [done|]. split; [|split; [done | apply field_rest_cases]].
  destruct (_ =? 0)%nat eqn:Hv; [done|]. apply length_zero_neqb in Hv.
  intros E. apply Hv. clear Hv H. revert E. unfold field_end.
  pose proof Hd as Hd'. apply digits_n_spec in Hd' as [Hl2 Hdig].
  assert (Hidx : index_of GS rest = (fun e => (2 + e)%nat) <$> index_of GS (drop 2 rest)).
  { rewrite <- (take_drop 2 rest) at 1. by rewrite index_of_head2 by (done || by apply GS_not_digit). }
  rewrite Hidx. destruct (index_of GS (drop 2 rest)) as [e|]; cbn [fmap option_fmap option_map];
    [|done].
  unfold slice. by replace (2 + e - 2)%nat with e by lia.
Qed.

(** The text of a non-empty list of AI groups, without the leading separator. *)
Definition ais_text (l : list KmAi) : jsstr := drop 1 (render_ais l).

Lemma ais_text_cons a l : ais_text (a :: l) = ai a ++ value a ++ render_ais l.
Proof. unfold ais_text, render_ais. cbn. by rewrite drop_0, <- app_assoc. Qed.

Lemma render_ais_cons a l : render_ais (a :: l) = GS :: ais_text (a :: l).
Proof. unfold ais_text, render_ais. cbn. by rewrite drop_0. Qed.

Lemma parse_ais_complete fuel l :
  Forall wf_ai l -> (length (ais_text l) <= fuel)%nat ->
  parse_ais fuel (ais_text l) = Ok l.
Proof.
  revert fuel; induction l as [|a l IH]; intros fuel Hwf Hf; [by destruct fuel|].
  apply Forall_cons in Hwf as [(Hh & Hv & HGS) Hwf].
  rewrite ais_text_cons in *. rewrite !length_app in Hf.
  pose proof Hh as Hh'. apply digits_n_spec in Hh' as [Hl2 _].
  destruct fuel as [|fuel]; [lia|]. rewrite parse_ais_step by done.
  destruct a as [h v]. cbn [ai value] in *. destruct l as [|b l]; [done|].
  rewrite render_ais_cons in *. rewrite Z.eqb_refl. cbn [length] in Hf.
  destruct (Nat.eqb_spec (length (ais_text (b :: l))) 0) as [E|E].
  - rewrite ais_text_cons, !length_app in E.
    apply Forall_cons in Hwf as [(Hb & _) _]. apply digits_n_spec in Hb as [? _]. lia.
  - rewrite IH by (done || lia). done.
Qed.

Lemma parse_ais_sound fuel rest l :
  (length rest <= fuel)%nat -> parse_ais fuel rest = Ok l ->
  Forall wf_ai l /\ rest = ais_text l.
Proof.
  revert rest l; induction fuel as [|fuel IH]; intros rest l Hf H.
  { destruct rest; [|cbn in Hf; lia]. cbn in H. by apply Ok_inj in H as <-. }
  destruct (decide (rest = [])) as [->|Hne].
  { cbn in H. by apply Ok_inj in H as <-. }
  destruct (parse_ais_head _ _ _ Hne H) as (h & v & r & -> & Hh & Hv & HGS & Hr).
  rewrite parse_ais_step in H by done. rewrite !length_app in Hf.
  assert (Hwf : wf_ai {| ai := h; value := v |}) by done.
  destruct Hr as [->|[r' ->]].
  - apply Ok_inj in H as <-. split; [by constructor|].
    by rewrite ais_text_cons.
  - rewrite Z.eqb_refl in H. destruct (Nat.eqb_spec (length r') 0) as [|Hr']; [done|].
    apply bind_ok_inv in H as (more & Hm & H). apply Ok_inj in H as <-.
    cbn [length] in Hf. destruct (IH r' more ltac:(lia) Hm) as [Hwf' ->].
    split; [by constructor|]. rewrite ais_text_cons. cbn [ai value].
    destruct more as [|b more]; [done|]. by rewrite render_ais_cons.
Qed.

Lemma parse_ais_no_fuel fuel rest :
  (length rest <= fuel)%nat -> parse_ais fuel rest <> Throw PlainError.
Proof.
  revert rest; induction fuel as [|fuel IH]; intros rest Hf.
  { destruct rest; [done | cbn in Hf; lia]. }
  cbn [parse_ais]. destruct rest as [|c rest]; [done|]. cbv zeta.
  repeat (case_match; try done).
  all: intros H'; apply bind_throw_inv in H' as [H'|(? & _ & ?)]; [|done].
  all: eapply IH, H'; try done; rewrite ?length_drop; cbn in *; lia.
Qed.

(** The body of a KM, after the optional AIM prefix. *)
Definition strip_aim (raw : jsstr) : jsstr :=
  if starts_with (js "]d2") raw then drop 3 raw else raw.

Lemma starts_with_js01_digits (g r : jsstr) :
  slice 2 16 (js "01" ++ g ++ r) = take 14 (g ++ r).
Proof. reflexivity. Qed.

Lemma render_ais_head l : render_ais l = [] \/ render_ais l = GS :: ais_text l.
Proof. destruct l; [by left | right; by apply render_ais_cons]. Qed.

Lemma index_of_serial v l :
  GS ∉ v ->
  index_of GS (js "21" ++ v ++ render_ais l) =
  match l with [] => None | _ => Some (2 + length v)%nat end.
Proof.
  intros Hv. rewrite index_of_head2 by (done || by apply GS_not_digit).
  destruct l as [|a l].
  - cbn [render_ais]. rewrite app_nil_r. by apply index_of_None in Hv as ->.
  - by rewrite render_ais_cons, index_of_app.
Qed.

(** The parser on a body cut into its fixed-width head and the rest. *)
Lemma parseKmSegments_body g v l :
  digits_n 14 g = true -> v <> [] -> (GS ∉ v) -> Forall wf_ai l ->
  forall raw, strip_aim raw = js "01" ++ g ++ js "21" ++ v ++ render_ais l ->
  parseKmSegments raw = Ok {| seg_gtin14 := g; seg_serial := v; seg_ais := l |}.
Proof.
  intros Hg Hv HGS Hwf raw Hraw. unfold parseKmSegments.
  destruct (length raw =? 0)%nat eqn:E0.
  { apply length_zero_eqb in E0 as ->. done. }
  fold (strip_aim raw). rewrite Hraw. pose proof Hg as Hg'.
  apply digits_n_spec in Hg' as [Hgl _].
  rewrite starts_with_app, starts_with_js01_digits, (take_app_length' g) by done.
  rewrite Hg. cbn [negb].
  replace (drop 16 (js "01" ++ g ++ js "21" ++ v ++ render_ais l))
    with (js "21" ++ v ++ render_ais l).
  2:{ change 16%nat with (length (js "01") + 14)%nat.
      rewrite drop_app_add, drop_app_length' by done. done. }
  rewrite starts_with_app, index_of_serial by done. cbn [negb].
  destruct l as [|a l].
  - cbn [render_ais fmap list_fmap concat]. rewrite app_nil_r.
    change (drop 2 (js "21" ++ v)) with (drop 0 v). rewrite drop_0.
    by rewrite (proj2 (length_zero_neqb v)) by done.
  - replace (slice 2 (2 + length v) (js "21" ++ v ++ render_ais (a :: l))) with v.
    2:{ symmetry. by apply slice_app. }
    replace (drop (2 + length v + 1) (js "21" ++ v ++ render_ais (a :: l)))
      with (ais_text (a :: l)).
    2:{ rewrite <- Nat.add_assoc. change 2%nat with (length (js "21")) at 1.
        by rewrite !drop_app_add, render_ais_cons. }
    rewrite (proj2 (length_zero_neqb v)) by done.
    rewrite bool_decide_eq_false_2 by done. cbn [negb andb].
    destruct (Nat.eqb_spec (length (ais_text (a :: l))) 0) as [E|E].
    { rewrite ais_text_cons, !length_app in E.
      apply Forall_cons in Hwf as [(Hb & _) _]. apply digits_n_spec in Hb as [? _]. lia. }
    by rewrite parse_ais_complete by (done || lia).
Qed.

Lemma parseKmSegments_sound raw seg :
  parseKmSegments raw = Ok seg -> wf_segments seg /\ strip_aim raw = render_km seg.
Proof.
  unfold parseKmSegments. destruct (length raw =? 0)%nat; [done|].
  fold (strip_aim raw). set (s := strip_aim raw).
  destruct (starts_with (js "01") s) eqn:H01; [|done]. cbn [negb].
  apply starts_with_spec in H01 as [t Ht]. rewrite Ht.
  change (slice 2 16 (js "01" ++ t)) with (take 14 t).
  change (drop 16 (js "01" ++ t)) with (drop 14 t).
  destruct (digits_n 14 (take 14 t)) eqn:Hg; [|done]. cbn [negb].
  destruct (starts_with (js "21") (drop 14 t)) eqn:H21; [|done]. cbn [negb].
  apply starts_with_spec in H21 as [u Hu]. rewrite Hu.
  destruct (field_split u) as [Hs HGS].
  rewrite index_of_head2 by (done || by apply GS_not_digit).
  pose proof (field_rest_cases u) as Hrest. unfold field_end, field_rest in *.
  destruct (index_of GS u) as [e|] eqn:He; cbn [fmap option_fmap option_map].
  - replace (slice 2 (2 + e) (js "21" ++ u)) with (take e u)
      by (change (take e u = take (2 + e - 2) (drop 0 u)); rewrite drop_0; f_equal; lia).
    change (drop (2 + e + 1) (js "21" ++ u)) with (drop (e + 1) u).
    destruct (length (take e u) =? 0)%nat eqn:Hv; [done|].
    rewrite bool_decide_eq_false_2 by done. cbn [negb andb].
    destruct (length (drop (e + 1) u) =? 0)%nat eqn:Hr; [done|].
    intros H. apply bind_ok_inv in H as (l & Hl & H). apply Ok_inj in H as <-.
    apply parse_ais_sound in Hl as [Hwf Hl]; [|done].
    apply length_zero_neqb in Hv, Hr. split; [done|].
    unfold render_km. cbn [seg_gtin14 seg_serial seg_ais]. f_equal.
    rewrite <- (take_drop 14 t) at 1. rewrite Hu. do 2 f_equal. rewrite Hs at 1. f_equal.
    destruct Hrest as [E|[r' E]]; rewrite Nat.add_1_r in *.
    { exfalso. apply Hr. rewrite <- Nat.add_1_r, <- drop_drop, E. done. }
    destruct l as [|a l]; [done|]. rewrite render_ais_cons, <- Hl, E.
    f_equal. rewrite <- Nat.add_1_r, <- drop_drop, E. cbn. by rewrite drop_0.
  - change (drop 2 (js "21" ++ u)) with (drop 0 u). rewrite drop_0.
    destruct (length u =? 0)%nat eqn:Hv; [done|]. cbn.
    intros H. apply Ok_inj in H as <-. apply length_zero_neqb in Hv. split; [done|].
    unfold render_km. cbn [seg_gtin14 seg_serial seg_ais render_ais fmap list_fmap concat].
    rewrite app_nil_r. f_equal. by rewrite <- Hu, take_drop.
Qed.

(** C27: The KM parser implements its wire grammar exactly: it accepts a raw code
    if and only if, after the optional AIM prefix, it is the rendering of
    well-formed segments, and it returns those segments in order; and the
    [while] loop always terminates with an answer or a domain error. *)
Theorem parseKmSegments_grammar (raw : jsstr) (seg : KmSegments) :
  (parseKmSegments raw = Ok seg <-> wf_segments seg /\ strip_aim raw = render_km seg)
  /\ parseKmSegments raw <> Throw PlainError.
Proof.
  split.
  - split; [apply parseKmSegments_sound|]. intros [(Hg & Hv & HGS & Hwf) Hraw].
    destruct seg as [g v l]. by eapply parseKmSegments_body.
  - unfold parseKmSegments. repeat (case_match; try done).
    all: intros H'; apply bind_throw_inv in H' as [H'|(? & _ & ?)]; [|done].
    all: by apply parse_ais_no_fuel in H'.
Qed.

(** ** Identity and canonical form *)

Lemma fold_ais_spec l m0 m :
  fold_ais l m0 = Ok m ->
  NoDup (ai <$> l) /\ (forall a, a ∈ l -> m0 !! ai a = None) /\
  forall k v, m !! k = Some v <-> m0 !! k = Some v \/ {| ai := k; value := v |} ∈ l.
Proof.
  revert m0; induction l as [|a l IH]; intros m0; cbn [fold_ais].
  - intros <-%Ok_inj. split; [constructor|]. split; set_solver.
  - destruct (m0 !! ai a) eqn:E; [done|]. intros H.
    destruct (IH _ H) as (Hnd & Hfresh & Hm). destruct a as [k0 v0]. cbn [ai value] in *.
    split; [|split].
    + cbn. apply NoDup_cons. split; [|done]. intros Hin.
      apply list_elem_of_fmap in Hin as (b & -> & Hb). specialize (Hfresh b Hb). cbn in Hfresh.
      by rewrite lookup_insert_eq in Hfresh.
    + intros b Hb. apply elem_of_cons in Hb as [->|Hb]; [done|].
      specialize (Hfresh b Hb). cbn in *. destruct (decide (k0 = ai b)) as [->|];
        [done | by rewrite lookup_insert_ne in Hfresh].
    + intros k v. rewrite Hm, elem_of_cons. destruct (decide (k0 = k)) as [->|Hne].
      * rewrite lookup_insert_eq. naive_solver.
      * rewrite lookup_insert_ne by done. naive_solver.
Qed.

Lemma normalizeToGtin14_14 g : length g = 14%nat -> forall h, normalizeToGtin14 g = Ok h -> h = g.
Proof.
  intros Hl h H. apply normalizeToGtin14_Ok in H as (_ & _ & ->). apply pad_start_id. lia.
Qed.

Lemma parseKm_spec raw km :
  parseKm raw = Ok km <->
  exists seg m, wf_segments seg /\ strip_aim raw = render_km seg
    /\ hasValidCheckDigit (seg_gtin14 seg) = true /\ fold_ais (seg_ais seg) ∅ = Ok m
    /\ km = {| gtin14 := seg_gtin14 seg; serial := seg_serial seg; raw := raw; ais := m |}.
Proof.
  unfold parseKm. split.
  - intros H. apply bind_ok_inv in H as (seg & Hs & H).
    apply bind_ok_inv in H as (g & Hg & H). apply bind_ok_inv in H as (m & Hm & H).
    apply Ok_inj in H as <-. apply parseKmSegments_sound in Hs as [Hwf Hr].
    pose proof Hwf as ((Hl & _)%digits_n_spec & _).
    pose proof Hg as Hg'. apply normalizeToGtin14_Ok in Hg' as (_ & Hv & _).
    apply (normalizeToGtin14_14 _ Hl) in Hg as ->. eauto 10.
  - intros (seg & m & Hwf & Hr & Hv & Hm & ->).
    pose proof Hwf as (Hd & Hne & HGS & Hais). destruct seg as [g v l].
    cbn [seg_gtin14 seg_serial seg_ais] in *.
    rewrite (parseKmSegments_body g v l) by done. cbn [mbind result_bind seg_gtin14].
    apply digits_n_spec in Hd as [Hl _].
    rewrite (proj2 (normalizeToGtin14_Ok g g)).
    + cbn [mbind result_bind seg_ais]. by rewrite Hm.
    + rewrite Hl. split; [apply list_elem_of_In; cbn; lia|]. split; [done|].
      symmetry. apply pad_start_id. lia.
Qed.

Lemma canonicalizeKm_Ok raw0 km :
  canonicalizeKm raw0 = Ok km ->
  parseKm (strip_transport raw0) = Ok km /\ (0xfffd ∉ strip_transport raw0)
  /\ check_km_units (strip_transport raw0) = Ok tt
  /\ Z.of_nat (length (utf8_encode (strip_transport raw0))) <= MAX_KM_UTF8_BYTES.
Proof.
  unfold canonicalizeKm. intros H. case_bool_decide; [done|].
  apply bind_ok_inv in H as ([] & Hc & H).
  destruct (Z.ltb_spec MAX_KM_UTF8_BYTES (Z.of_nat (length (utf8_encode (strip_transport raw0)))));
    [done|]. done.
Qed.

Lemma parseKm_raw r km : parseKm r = Ok km -> raw km = r.
Proof. intros (seg & m & _ & _ & _ & _ & ->)%parseKm_spec. done. Qed.

(** A control character other than the separator. *)
Definition bad_control (c : Z) : bool := ((c <? 0x20) && negb (c =? GS)) || (c =? 0x7f).

(** Every high surrogate is followed by a low one, every low one preceded by a
    high one. *)
Definition well_paired (s : jsstr) : Prop :=
  forall i c, s !! i = Some c ->
    (is_high_surrogate c = true -> exists d, s !! S i = Some d /\ is_low_surrogate d = true)
    /\ (is_low_surrogate c = true -> exists j d, i = S j /\ s !! j = Some d /\ is_high_surrogate d = true).

Lemma surrogate_facts c :
  (is_high_surrogate c = true -> is_low_surrogate c = false /\ bad_control c = false)
  /\ (is_low_surrogate c = true -> bad_control c = false).
Proof.
  unfold is_high_surrogate, is_low_surrogate, bad_control, GS.
  rewrite !orb_false_iff, !andb_true_iff, !andb_false_iff, !Z.leb_le, !Z.leb_gt, !Z.ltb_ge, !Z.eqb_neq. lia.
Qed.

Lemma well_paired_cons c s :
  is_high_surrogate c = false -> is_low_surrogate c = false -> well_paired s -> well_paired (c :: s).
Proof.
  intros Hh Hl Hp [|i] d Hd; cbn in Hd.
  - injection Hd as <-. by rewrite Hh, Hl.
  - destruct (Hp i d Hd) as [H1 H2]. split; [exact H1|]. intros Hd'.
    destruct (H2 Hd') as (j & e & -> & He & Heh). by exists (S j), e.
Qed.

Lemma well_paired_pair h l s :
  is_high_surrogate h = true -> is_low_surrogate l = true -> well_paired s -> well_paired (h :: l :: s).
Proof.
  intros Hh Hl Hp [|[|i]] d Hd; cbn in Hd.
  - injection Hd as <-. destruct (surrogate_facts h) as [H _]. destruct (H Hh) as [Hn _].
    split; [|by rewrite Hn]. intros _. by exists l.
  - injection Hd as <-. destruct (surrogate_facts l) as [H _].
    split; [intros Hc; destruct (H Hc); congruence|]. intros _. by exists 0%nat, h.
  - destruct (Hp i d Hd) as [H1 H2]. split; [exact H1|]. intros Hd'.
    destruct (H2 Hd') as (j & e & -> & He & Heh). by exists (S (S j)), e.
Qed.

Lemma check_km_units_sound s :
  check_km_units s = Ok tt -> forallb (fun c => negb (bad_control c)) s = true /\ well_paired s.
Proof.
  induction s as [s IH] using (induction_ltof1 _ (@length Z)). unfold ltof in IH.
  destruct s as [|c s]; [by split; [|intros i c Hc]|]. cbn [check_km_units forallb].
  fold (bad_control c). destruct (surrogate_facts c) as [Hfh Hfl].
  destruct (is_high_surrogate c) eqn:Hh.
  - destruct (Hfh eq_refl) as [Hl ->]. destruct s as [|d s]; [done|]. destruct (is_low_surrogate d) eqn:Hd; [|done].
    intros H. destruct (IH s) as [H1 H2]; [cbn; lia | done|]. destruct (surrogate_facts d) as [_ Hfd].
    cbn [forallb]. rewrite (Hfd Hd), H1. split; [done|]. by apply well_paired_pair.
  - destruct (is_low_surrogate c) eqn:Hl; [done|]. destruct (bad_control c); [done|].
    intros H. destruct (IH s) as [H1 H2]; [cbn; lia | done|]. rewrite H1. split; [done|].
    by apply well_paired_cons.
Qed.

(** C28: What is stored of a code that passes ingest: a text free of the
    scanner's edge blanks, of replacement characters, of control characters
    other than the separator and of broken surrogate pairs, that fits the byte limit and
    is the identity key followed by the well-formed trailing AIs, each recorded once
    under its number, after a symbology prefix ]d2 that is left over only when two were
    scanned (one is removed, [canonicalizeKm_double_prefix]); the GTIN's check digit
    holds. *)
Theorem canonicalizeKm_sound (raw0 : jsstr) (km : ParsedKm)
  (Hok : canonicalizeKm raw0 = Ok km) :
  edges_free is_blank (raw km) /\ (0xfffd ∉ raw km)
  /\ forallb (fun c => negb (bad_control c)) (raw km) = true /\ well_paired (raw km)
  /\ Z.of_nat (length (utf8_encode (raw km))) <= MAX_KM_UTF8_BYTES
  /\ hasValidCheckDigit (gtin14 km) = true /\ length (gtin14 km) = 14%nat
  /\ exists l, strip_aim (raw km) = kmKey km ++ render_ais l
       /\ Forall wf_ai l /\ NoDup (ai <$> l)
       /\ (forall k v, ais km !! k = Some v <-> {| ai := k; value := v |} ∈ l)
       /\ (raw km = kmKey km ++ render_ais l
           \/ exists scanned, trim_by is_blank raw0 = js "]d2" ++ scanned
                /\ trim_by is_blank scanned = js "]d2" ++ kmKey km ++ render_ais l).
Proof.
  apply canonicalizeKm_Ok in Hok as (Hp & Hfffd & [Hc Hpair]%check_km_units_sound & Hb).
  pose proof (parseKm_raw _ _ Hp) as Hr. rewrite Hr.
  apply parseKm_spec in Hp as (seg & m & (Hd & _ & _ & Hais) & Hrender & Hv & Hm & ->).
  cbn [gtin14 raw ais serial] in *. apply digits_n_spec in Hd as [Hl _].
  split; [apply edges_free_trim|]. do 6 (split; [done|]).
  exists (seg_ais seg). destruct (fold_ais_spec _ _ _ Hm) as (Hnd & _ & Hlook).
  unfold kmKey. cbn [gtin14 serial].
  match goal with |- strip_aim _ = ?key ++ ?more /\ _ => assert (Hbody : strip_aim (strip_transport raw0) = key ++ more) end.
  { rewrite Hrender. unfold render_km. by rewrite <- !app_assoc. }
  split; [exact Hbody|]. split; [done|]. split; [done|]. split.
  - intros k v. rewrite Hlook, lookup_empty. naive_solver.
  - unfold strip_aim in Hbody. destruct (starts_with (js "]d2") (strip_transport raw0)) eqn:Ea; [right | by left].
    apply starts_with_spec in Ea as [body Eb]. rewrite Eb in Hbody. cbn [drop js] in Hbody.
    unfold strip_transport in Eb. destruct (starts_with (js "]d2") (trim_by is_blank raw0)) eqn:E.
    + apply starts_with_spec in E as [scanned E]. exists scanned. split; [done|].
      rewrite <- Hbody. rewrite E in Eb. exact Eb.
    + rewrite trim_by_idemp in Eb. by rewrite Eb, starts_with_app in E.
Qed.

(** A complete marking code used by the witnesses: GTIN, serial, AIs 91 and 92. *)
Definition sample_km : jsstr :=
  js "010460704711090521SER1234" ++ [GS] ++ js "91KEY" ++ [GS] ++ js "92SIGNATURE".

(** The stored text of [canonicalizeKm raw], when it is accepted. *)
Definition canonical_text (raw0 : jsstr) : option jsstr :=
  match canonicalizeKm raw0 with Ok km => Some (raw km) | Throw _ => None end.

Lemma canonicalizeKm_sound_witness :
  exists km, canonicalizeKm (js " ]d2" ++ sample_km ++ js "  ") = Ok km
    /\ hasValidCheckDigit (gtin14 km) = true.
Proof.
  destruct (canonicalizeKm (js " ]d2" ++ sample_km ++ js "  ")) as [km|e] eqn:E;
    [|vm_compute in E; discriminate E].
  exists km. split; [done|]. apply (canonicalizeKm_sound _ _ E).
Defined.

(** Text a scanner may add around a code: blanks, and the AIM prefix. *)
Definition is_blanks (b : jsstr) : Prop := forallb is_blank b = true.

Definition canonical_body (body : jsstr) : Prop :=
  body <> [] /\ edges_free is_blank body /\ starts_with (js "]d2") body = false.

Lemma strip_transport_wrap b body b' :
  is_blanks b -> is_blanks b' -> canonical_body body ->
  strip_transport (b ++ body ++ b') = body.
Proof.
  intros Hb Hb' (_ & He & Ha). unfold strip_transport.
  rewrite trim_by_wrap by done. rewrite Ha. by apply trim_by_fixed.
Qed.

Lemma strip_transport_aim b b1 body b' :
  is_blanks b -> is_blanks b1 -> is_blanks b' -> canonical_body body ->
  strip_transport (b ++ js "]d2" ++ b1 ++ body ++ b') = body.
Proof.
  intros Hb Hb1 Hb' (Hne & He & Ha). unfold strip_transport.
  replace (b ++ js "]d2" ++ b1 ++ body ++ b')
    with (b ++ (js "]d2" ++ b1 ++ body) ++ b') by by rewrite <- !app_assoc.
  rewrite trim_by_wrap; [|done|done|].
  - rewrite starts_with_app. change (drop 3 (js "]d2" ++ b1 ++ body)) with (b1 ++ body).
    rewrite <- (app_nil_r body) at 1. by apply trim_by_wrap.
  - split.
    + by intros c [= <-].
    + intros c Hc. rewrite !last_app in Hc. destruct (last body) as [d|] eqn:Hd.
      * destruct He as [_ Hlast]. apply Hlast. congruence.
      * by apply last_None in Hd.
Qed.

(** Canonicalisation does not depend on how a code was acquired: edge
    blanks and one AIM prefix, with or without blanks around it, leave the
    result unchanged. *)
Theorem canonicalizeKm_transport (b b1 body b' : jsstr)
  (Hb : is_blanks b) (Hb1 : is_blanks b1) (Hb' : is_blanks b')
  (Hbody : canonical_body body) :
  canonicalizeKm (b ++ body ++ b') = canonicalizeKm body /\
  canonicalizeKm (b ++ js "]d2" ++ b1 ++ body ++ b') = canonicalizeKm body.
Proof.
  assert (Hid : strip_transport body = body).
  { rewrite <- (app_nil_r body) at 1. by apply (strip_transport_wrap []). }
  unfold canonicalizeKm.
  by rewrite strip_transport_wrap, strip_transport_aim, Hid by done.
Qed.

Lemma canonicalizeKm_transport_witness :
  canonicalizeKm (js " " ++ js "]d2" ++ js " " ++ sample_km ++ js "  ") = canonicalizeKm sample_km.
Proof.
  apply canonicalizeKm_transport; try (vm_compute; reflexivity).
  split; [discriminate|]. split; [|reflexivity].
  split; intros c Hc; vm_compute in Hc; injection Hc as <-; reflexivity.
Defined.

(** Canonicalising a canonical text changes nothing, unless a second AIM prefix
    was left at its front. *)
Lemma canonicalizeKm_idempotent raw0 km :
  canonicalizeKm raw0 = Ok km -> starts_with (js "]d2") (raw km) = false ->
  canonicalizeKm (raw km) = Ok km.
Proof.
  intros Hok Ha. destruct (canonicalizeKm_Ok _ _ Hok) as (Hp & _).
  pose proof (parseKm_raw _ _ Hp) as Hr. rewrite Hr in *.
  assert (Hid : strip_transport (strip_transport raw0) = strip_transport raw0).
  { rewrite <- (app_nil_r (strip_transport raw0)) at 1.
    apply (strip_transport_wrap []); [done..|].
    split; [intros E; by rewrite E in Hp|]. split; [apply edges_free_trim | done]. }
  unfold canonicalizeKm in *. by rewrite Hid.
Qed.

(** A doubled AIM prefix survives: the first pass keeps one of the two, because
    [parseKmSegments] tolerates it, and a second pass would change the text. *)
Theorem canonicalizeKm_double_prefix :
  canonical_text (js "]d2]d2" ++ sample_km) = Some (js "]d2" ++ sample_km) /\
  canonical_text (js "]d2" ++ sample_km) = Some sample_km.
Proof. vm_compute. split; reflexivity. Qed.

Lemma kmKey_inj km1 km2 :
  length (gtin14 km1) = 14%nat -> length (gtin14 km2) = 14%nat ->
  kmKey km1 = kmKey km2 -> gtin14 km1 = gtin14 km2 /\ serial km1 = serial km2.
Proof.
  unfold kmKey. intros H1 H2 H. apply (inj (app (js "01"))) in H.
  apply app_inj_1 in H as [Hg H]; [|lia]. split; [done|].
  by apply (inj (app (js "21"))) in H.
Qed.

Lemma classifyScan_km raw0 km : classifyScan raw0 = ScanKm km -> canonicalizeKm raw0 = Ok km.
Proof.
  unfold classifyScan. destruct (parseScannedSscc _ _); [done|].
  destruct (normalizeToGtin14 _); [done|]. by destruct (canonicalizeKm raw0); intros [= ->].
Qed.

Lemma canonicalizeKm_gtin_length raw0 km : canonicalizeKm raw0 = Ok km -> length (gtin14 km) = 14%nat.
Proof.
  intros (Hp & _)%canonicalizeKm_Ok. apply parseKm_spec in Hp as (seg & m & (Hd & _) & _ & _ & _ & ->).
  by apply digits_n_spec in Hd as [? _].
Qed.

(** Every refusal of the KM pipeline is a domain error. *)

Lemma parse_ais_domain fuel rest :
  (length rest <= fuel)%nat -> domain_only (parse_ais fuel rest).
Proof.
  revert rest; induction fuel as [|fuel IH]; intros rest Hf.
  { destruct rest; [apply domain_only_ok | cbn in Hf; lia]. }
  cbn [parse_ais]. destruct rest as [|c rest]; [auto with jsdb|]. cbv zeta.
  repeat apply domain_only_if; auto with jsdb.
  apply domain_only_bind; [|auto with jsdb]. apply IH.
  destruct (index_of GS (c :: rest)); [|cbn; lia]. rewrite length_drop. cbn in *. lia.
Qed.

Lemma fold_ais_domain l m : domain_only (fold_ais l m).
Proof. revert m; induction l as [|a l IH]; intros m; cbn; [|destruct (m !! ai a)]; auto with jsdb. Qed.

Lemma normalizeToGtin14_domain g : domain_only (normalizeToGtin14 g).
Proof. unfold normalizeToGtin14. auto with jsdb. Qed.

Lemma parseKmSegments_domain r : domain_only (parseKmSegments r).
Proof.
  unfold parseKmSegments. cbv zeta. repeat (apply domain_only_if; [auto with jsdb|]).
  apply domain_only_bind; [by apply parse_ais_domain | auto with jsdb].
Qed.

Lemma parseKm_domain r : domain_only (parseKm r).
Proof.
  unfold parseKm. apply domain_only_bind; [apply parseKmSegments_domain|]. intros seg _.
  apply domain_only_bind; [apply normalizeToGtin14_domain|]. intros g _.
  apply domain_only_bind; [apply fold_ais_domain | auto with jsdb].
Qed.

Lemma check_km_units_domain s : domain_only (check_km_units s).
Proof.
  induction s as [s IH] using (induction_ltof1 _ (@length Z)). unfold ltof in IH.
  destruct s as [|a s]; [apply domain_only_ok|]. cbn [check_km_units].
  repeat apply domain_only_if; auto with jsdb.
  destruct s as [|b s]; [apply domain_only_throw|].
  apply domain_only_if; [apply IH; cbn; lia | apply domain_only_throw].
Qed.

Lemma canonicalizeKm_domain r : domain_only (canonicalizeKm r).
Proof.
  unfold canonicalizeKm. cbv zeta. apply domain_only_if; [auto with jsdb|].
  apply domain_only_bind; [apply check_km_units_domain|]. intros _ _.
  apply domain_only_if; [auto with jsdb | apply parseKm_domain].
Qed.

#[export] Hint Resolve canonicalizeKm_domain normalizeToGtin14_domain : jsdb.

Section ShiftScan.
Context (sha256_hex : list Z -> jsstr).

(** SHA-256 is used as an identity: it does not collide on the two keys. *)
Definition no_collision (a b : jsstr) : Prop :=
  sha256_hex (utf8_encode a) = sha256_hex (utf8_encode b) -> a = b.

(** The shift scan accepts a code at most once.  An accepted scan is a
    canonical KM of the shift's GTIN that was not yet known; once its key is
    recorded, every later scan of the same GTIN and serial is a duplicate,
    whatever its crypto tail; and a code with another GTIN or serial is not
    affected, as long as SHA-256 does not collide on the two identities. *)
Theorem validateShiftScan_dedup (raw1 expected key : jsstr) (known : jsstr -> bool)
  (Hok : validateShiftScan sha256_hex raw1 expected known = VerdictOk key) :
  exists km, classifyScan raw1 = ScanKm km /\ gtin14 km = expected
    /\ key = kmHash sha256_hex km /\ known key = false /\
    forall raw2 km2, classifyScan raw2 = ScanKm km2 -> gtin14 km2 = expected ->
      let known' := fun k => jseqb k key || known k in
      (serial km2 = serial km ->
        validateShiftScan sha256_hex raw2 expected known' = VerdictDuplicate key) /\
      (serial km2 <> serial km -> no_collision (kmKey km2) (kmKey km) ->
        validateShiftScan sha256_hex raw2 expected known'
        = validateShiftScan sha256_hex raw2 expected known).
Proof.
  unfold validateShiftScan in Hok.
  destruct (classifyScan raw1) as [km| | |] eqn:Hc; try discriminate Hok.
  destruct (jseqb (gtin14 km) expected) eqn:Hg; [|done]. cbn [negb] in Hok.
  apply jseqb_eq in Hg.
  destruct (known (kmHash sha256_hex km)) eqn:Hk; [done|]. injection Hok as Hkey.
  exists km. split; [done|]. split; [done|]. split; [done|]. split; [congruence|].
  intros raw2 km2 Hc2 Hg2 known'. unfold validateShiftScan. rewrite Hc2, Hg2, jseqb_refl.
  cbn [negb]. assert (Hk2 : kmKey km2 = kmKey km <-> serial km2 = serial km).
  { split; intros E; [|unfold kmKey; congruence].
    apply classifyScan_km, canonicalizeKm_gtin_length in Hc, Hc2.
    by apply (kmKey_inj km2 km) in E as [_ ?]. }
  split.
  - intros Es. apply Hk2 in Es. subst known'. cbv beta.
    assert (E : kmHash sha256_hex km2 = key) by (unfold kmHash in *; congruence).
    by rewrite E, jseqb_refl.
  - intros Es Hnc. subst known'. cbv beta.
    destruct (jseqb (kmHash sha256_hex km2) key) eqn:E; [|done].
    apply jseqb_eq in E. exfalso. apply Es, Hk2, Hnc. unfold kmHash in *. congruence.
Qed.

Lemma validateShiftScan_total raw1 expected known :
  match validateShiftScan sha256_hex raw1 expected known with
  | VerdictOk k | VerdictDuplicate k => exists km, classifyScan raw1 = ScanKm km
      /\ gtin14 km = expected /\ k = kmHash sha256_hex km
  | VerdictWrongGtin e a => e = expected /\ a <> expected
  | VerdictInvalid r => r = raw1 /\ forall km, classifyScan raw1 <> ScanKm km
  end.
Proof.
  unfold validateShiftScan. destruct (classifyScan raw1) as [km| | |]; try done.
  destruct (jseqb (gtin14 km) expected) eqn:Hg; cbn [negb].
  - apply jseqb_eq in Hg. destruct (known _); eauto.
  - by apply jseqb_neq in Hg.
Qed.
End ShiftScan.

Lemma validateShiftScan_dedup_witness :
  exists km, classifyScan sample_km = ScanKm km /\ gtin14 km = js "04607047110905"
    /\ js "0104607047110905" = take 16 (kmHash (fun b => b) km).
Proof.
  destruct (validateShiftScan_dedup (fun b => b) sample_km (js "04607047110905")
    (js "010460704711090521SER1234") (fun _ => false)) as (km & Hc & Hg & Hk & _).
  { vm_compute. reflexivity. }
  exists km. split; [done|]. split; [done|]. rewrite <- Hk. vm_compute. reflexivity.
Defined.
