(* ===== verification/ProductLabel.v ===== *)
(** * Product label jobs: the print and verification state machine

    [packages/domain/src/product-labels/contracts.ts] (the events), [state.ts]
    (the projection every device folds them into) and [km.ts] (which codes may
    be duplicated and how a control scan is compared). *)

From stdpp Require Import base list strings gmap.
From Stdlib Require Import ZArith Lia.
From S2P Require Import Prelude Gs1 Km.

(** ** product-labels/contracts.ts *)

Inductive VerificationPolicy := VNone | VRequired.
Inductive ReprintReason := NotPrinted | Damaged | Lost.
Inductive PrinterLanguage := Zpl | Tspl.
Inductive Dpi := Dpi203 | Dpi300.
Inductive AttemptState := Prepared | Sending | Sent | FailedBeforeSend | DeliveryUnknown.
Inductive JobStatus := JPrepared | JSending | JAwaitingVerification | JCompleted | JAttention.
Inductive VerificationOutcome := NotRequired | Pending | Verified | Skipped.

(** [ProductLabelPrintIdentity]: raw commands in a language, or a raster. *)
Inductive PrintIdentity := RawPrint (language : PrinterLanguage) | MonoRasterV1.

Definition productLabelPrintFormat (v : PrintIdentity) : string :=
  match v with
  | MonoRasterV1 => "mono-raster-v1" | RawPrint Zpl => "zpl" | RawPrint Tspl => "tspl"
  end.

(** The seven [ORIGIN_FIELDS] a job keeps for life. *)
Record Origin := {
  jobId : jsstr; shiftId : jsstr; codeHash : jsstr; acceptedAt : jsstr;
  policyRevision : jsstr; templateDigest : jsstr; payloadDigest : jsstr
}.

Inductive FailureCode := PrinterUnconfigured | PrinterChanged.
Inductive UnknownCode := TransportFailed | PersistenceFailed | Interrupted.
Inductive RejectReason := RejectInvalid | RejectMismatch.

Inductive EventKind :=
| EPrepared (attemptNo : Z) (reason : option ReprintReason) (dpi : Dpi)
    (bytesDigest : jsstr) (printId : PrintIdentity)
| ESending
| ESent
| EFailedBeforeSend (errorCode : FailureCode)
| EDeliveryUnknown (errorCode : UnknownCode)
| EVerificationSkipped
| EVerified (scannedPayloadDigest : jsstr)
| EVerificationRejected (reason : RejectReason).

Record ProductLabelEvent := {
  eventId : jsstr; origin : Origin; attemptId : jsstr; sequence : Z;
  operatorId : jsstr; occurredAt : jsstr; kind : EventKind
}.

#[export] Instance VerificationPolicy_eq_dec : EqDecision VerificationPolicy.
Proof. solve_decision. Defined.
#[export] Instance ReprintReason_eq_dec : EqDecision ReprintReason.
Proof. solve_decision. Defined.
#[export] Instance PrinterLanguage_eq_dec : EqDecision PrinterLanguage.
Proof. solve_decision. Defined.
#[export] Instance Dpi_eq_dec : EqDecision Dpi.
Proof. solve_decision. Defined.
#[export] Instance AttemptState_eq_dec : EqDecision AttemptState.
Proof. solve_decision. Defined.
#[export] Instance JobStatus_eq_dec : EqDecision JobStatus.
Proof. solve_decision. Defined.
#[export] Instance VerificationOutcome_eq_dec : EqDecision VerificationOutcome.
Proof. solve_decision. Defined.
#[export] Instance PrintIdentity_eq_dec : EqDecision PrintIdentity.
Proof. solve_decision. Defined.
#[export] Instance Origin_eq_dec : EqDecision Origin.
Proof. solve_decision. Defined.

(** [positiveIntegerSchema]. *)
Definition positive_integer (n : Z) : bool := (0 <? n) && (n <=? MAX_SAFE_INTEGER).

(** [preparedReason]: only the initial attempt has no reprint reason. *)
Definition preparedReason (attemptNo : Z) (reason : option ReprintReason) : bool :=
  Bool.eqb (attemptNo =? 1) (bool_decide (reason = None)).

(** The integer and refinement checks of [productLabelEventSchema]. *)
Definition event_schema_ok (e : ProductLabelEvent) : bool :=
  positive_integer (sequence e) &&
  match kind e with
  | EPrepared n reason _ _ _ => positive_integer n && preparedReason n reason
  | _ => true
  end.

(** ** product-labels/state.ts *)

Record ProductLabelProjection := {
  p_origin : Origin;
  p_identity : PrintIdentity;
  latestSequence : Z;
  p_attemptId : jsstr;
  p_attemptNo : Z;
  attemptState : AttemptState;
  verification : VerificationPolicy;
  verificationOutcome : VerificationOutcome;
  status : JobStatus;
  p_bytesDigest : jsstr;
  p_dpi : Dpi
}.

Definition invalidTransition {A} : result A := throw "PRODUCT_LABEL_TRANSITION_INVALID".

Definition productLabelStatus (attempt : AttemptState) (verification : VerificationPolicy)
  (verified skipped : bool) : result JobStatus :=
  if skipped then
    if verified || negb (bool_decide (attempt = Sent))
       || negb (bool_decide (verification = VRequired))
    then invalidTransition else Ok JCompleted
  else if verified then
    if negb (bool_decide (attempt = Sent)) && negb (bool_decide (attempt = DeliveryUnknown))
    then invalidTransition else Ok JCompleted
  else
    match attempt with
    | Prepared => Ok JPrepared
    | Sending => Ok JSending
    | Sent => Ok (match verification with VRequired => JAwaitingVerification | VNone => JCompleted end)
    | FailedBeforeSend | DeliveryUnknown => Ok JAttention
    end.

Definition canApplyProductLabelEvent (current : ProductLabelProjection) (event : ProductLabelEvent)
  : bool :=
  if negb (safe_int (sequence event)) || negb (sequence event =? latestSequence current + 1)
     || negb (bool_decide (origin event = p_origin current))
  then false
  else
    match kind event with
    | EPrepared attemptNo reason dpi bytesDigest printId =>
        negb (bool_decide (attemptState current = Sending))
        && negb (bool_decide (attemptState current = Prepared))
        && negb (jseqb (attemptId event) (p_attemptId current))
        && (attemptNo =? p_attemptNo current + 1)
        && negb (bool_decide (reason = None))
        && jseqb bytesDigest (p_bytesDigest current)
        && String.eqb (productLabelPrintFormat printId) (productLabelPrintFormat (p_identity current))
        && bool_decide (dpi = p_dpi current)
    | k =>
        if negb (jseqb (attemptId event) (p_attemptId current))
           || bool_decide (verificationOutcome current = Verified)
           || bool_decide (verificationOutcome current = Skipped)
        then false
        else
          let canVerify :=
            bool_decide (attemptState current = DeliveryUnknown)
            || (bool_decide (attemptState current = Sent)
                && bool_decide (verification current = VRequired)) in
          match k with
          | ESending | EFailedBeforeSend _ => bool_decide (attemptState current = Prepared)
          | ESent | EDeliveryUnknown _ => bool_decide (attemptState current = Sending)
          | EVerificationSkipped =>
              bool_decide (attemptState current = Sent)
              && bool_decide (verification current = VRequired)
          | EVerified scanned => canVerify && jseqb scanned (payloadDigest (p_origin current))
          | EVerificationRejected _ => canVerify
          | EPrepared _ _ _ _ _ => false
          end
    end.

Definition initial_outcome (v : VerificationPolicy) : VerificationOutcome :=
  match v with VRequired => Pending | VNone => NotRequired end.

Definition applyProductLabelEvent (current : option ProductLabelProjection)
  (event : ProductLabelEvent) (policy : VerificationPolicy) : result ProductLabelProjection :=
  match current with
  | None =>
      match kind event with
      | EPrepared attemptNo reason dpi bytesDigest printId =>
          if negb (sequence event =? 1) || negb (attemptNo =? 1) || negb (bool_decide (reason = None))
          then invalidTransition
          else Ok {| p_origin := origin event; p_identity := printId; latestSequence := 1;
                     p_attemptId := attemptId event; p_attemptNo := 1; attemptState := Prepared;
                     verification := policy; verificationOutcome := initial_outcome policy;
                     status := JPrepared; p_bytesDigest := bytesDigest; p_dpi := dpi |}
      | _ => invalidTransition
      end
  | Some c =>
      if negb (bool_decide (verification c = policy)) || negb (canApplyProductLabelEvent c event)
      then invalidTransition
      else
        match kind event with
        | EPrepared attemptNo _ _ _ _ =>
            Ok {| p_origin := p_origin c; p_identity := p_identity c;
                  latestSequence := sequence event; p_attemptId := attemptId event;
                  p_attemptNo := attemptNo; attemptState := Prepared;
                  verification := verification c; verificationOutcome := initial_outcome policy;
                  status := JPrepared; p_bytesDigest := p_bytesDigest c; p_dpi := p_dpi c |}
        | k =>
            let attempt :=
              match k with
              | ESending => Sending | ESent => Sent
              | EFailedBeforeSend _ => FailedBeforeSend | EDeliveryUnknown _ => DeliveryUnknown
              | _ => attemptState c
              end in
            let outcome :=
              match k with
              | EVerified _ => Verified | EVerificationSkipped => Skipped
              | _ => verificationOutcome c
              end in
            st ← productLabelStatus attempt policy (bool_decide (outcome = Verified))
                   (bool_decide (outcome = Skipped));
            Ok {| p_origin := p_origin c; p_identity := p_identity c;
                  latestSequence := sequence event; p_attemptId := p_attemptId c;
                  p_attemptNo := p_attemptNo c; attemptState := attempt;
                  verification := verification c; verificationOutcome := outcome;
                  status := st; p_bytesDigest := p_bytesDigest c; p_dpi := p_dpi c |}
        end
  end.

(** ** product-labels/km.ts *)

(** [km.ais["93"] || (km.ais["91"] && km.ais["92"])]: a recorded AI is never
    empty, so it is truthy exactly when it is present. *)
Definition truthy_ai (km : ParsedKm) (k : jsstr) : bool :=
  match ais km !! k with Some v => negb (length v =? 0)%nat | None => false end.

Definition parseDuplicateKm (raw : jsstr) : result ParsedKm :=
  km ← canonicalizeKm raw;
  if negb (truthy_ai km (js "93") || (truthy_ai km (js "91") && truthy_ai km (js "92")))
  then throw "KM_REPRINT_INCOMPLETE" else Ok km.

Inductive LabelMatch := LMatch | LMismatch | LInvalid.

(** A non-domain error of the scanned side is rethrown, as in the source. *)
Definition compareDuplicateKm (expected scanned : jsstr) : result LabelMatch :=
  canonicalExpected ← parseDuplicateKm expected;
  match parseDuplicateKm scanned with
  | Ok km => Ok (if jseqb (raw km) (raw canonicalExpected) then LMatch else LMismatch)
  | Throw (DomainError _) => Ok LInvalid
  | Throw e => Throw e
  end.

(** ** Histories *)

(** Folding a stored history, as every reader of the journal does. *)
Fixpoint run (policy : VerificationPolicy) (current : option ProductLabelProjection)
  (events : list ProductLabelEvent) : result (option ProductLabelProjection) :=
  match events with
  | [] => Ok current
  | e :: es => p ← applyProductLabelEvent current e policy; run policy (Some p) es
  end.

Definition is_prepared (e : ProductLabelEvent) : bool :=
  match kind e with EPrepared _ _ _ _ _ => true | _ => false end.
Definition is_sending (e : ProductLabelEvent) : bool :=
  match kind e with ESending => true | _ => false end.
Definition has_reason (e : ProductLabelEvent) : bool :=
  match kind e with EPrepared _ r _ _ _ => negb (bool_decide (r = None)) | _ => false end.

Definition countb {A} (f : A -> bool) (l : list A) : Z := Z.of_nat (length (List.filter f l)).

(** The projection is consistent: its status is the one its state calls for,
    and its outcome fits the policy. *)
Definition wf_projection (p : ProductLabelProjection) : Prop :=
  productLabelStatus (attemptState p) (verification p)
    (bool_decide (verificationOutcome p = Verified))
    (bool_decide (verificationOutcome p = Skipped)) = Ok (status p)
  /\ (verificationOutcome p = Pending -> verification p = VRequired)
  /\ (verificationOutcome p = NotRequired -> verification p = VNone).

(** Splits an accepted event into its guards. *)
Ltac apply_cases :=
  repeat (case_bool_decide; simplify_eq/=; try discriminate).

Lemma apply_first e policy p :
  applyProductLabelEvent None e policy = Ok p ->
  exists dpi digest ident, kind e = EPrepared 1 None dpi digest ident
    /\ sequence e = 1 /\ p_origin p = origin e /\ latestSequence p = 1
    /\ p_attemptNo p = 1 /\ verification p = policy /\ wf_projection p
    /\ attemptState p = Prepared /\ status p = JPrepared /\ p_attemptId p = attemptId e.
Proof.
  unfold applyProductLabelEvent. destruct (kind e) as [n r d b i| | | | | | |]; try done.
  destruct (Z.eqb_spec (sequence e) 1); [|done]. destruct (Z.eqb_spec n 1); [|done].
  case_bool_decide; [|done]. intros <-%Ok_inj. subst. exists d, b, i. cbn.
  repeat (split; [done|]). split; [|done].
  destruct policy; repeat split; cbn; (done || intros [=]).
Qed.

(** What an accepted event does to a consistent projection. *)
Lemma apply_next c e policy p :
  wf_projection c -> applyProductLabelEvent (Some c) e policy = Ok p ->
  canApplyProductLabelEvent c e = true /\ verification c = policy
  /\ wf_projection p /\ verification p = policy /\ p_origin p = p_origin c
  /\ origin e = p_origin c /\ sequence e = latestSequence c + 1
  /\ latestSequence p = sequence e.
Proof.
  intros (Hst & Hp & Hn). unfold applyProductLabelEvent.
  destruct (bool_decide (verification c = policy)) eqn:Hv; [|done].
  destruct (canApplyProductLabelEvent c e) eqn:Hcan; [|done]. cbn [negb orb].
  apply bool_decide_eq_true_1 in Hv. pose proof Hcan as Hcan'.
  unfold canApplyProductLabelEvent in Hcan'.
  destruct (negb (safe_int (sequence e)) || negb (sequence e =? latestSequence c + 1)
            || negb (bool_decide (origin e = p_origin c))) eqn:Hg; [done|].
  apply orb_false_iff in Hg as [[_ Hs]%orb_false_iff Ho].
  apply negb_false_iff in Hs, Ho. apply Z.eqb_eq in Hs. apply bool_decide_eq_true_1 in Ho.
  intros H. assert (Hwf : wf_projection p /\ verification p = policy
    /\ p_origin p = p_origin c /\ latestSequence p = sequence e); [|tauto].
  destruct (kind e) eqn:Hk.
  1:{ apply Ok_inj in H as <-. cbn. repeat split; cbn; subst policy;
      destruct (verification c); (done || intros [=]). }
  all: apply bind_ok_inv in H as (st & Hst' & H); apply Ok_inj in H as <-; cbn;
    (split; [|done]); subst policy; (split; [exact Hst'|]); cbn; split; try done.
Qed.

(** The transitions of a job, as rules.  [a] is the attempt an event names; the last
    four are the number of the attempt, its state, the outcome of the verification and
    the status of the job afterwards. *)
Definition current_attempt (c : ProductLabelProjection) (a : jsstr) : Prop :=
  a = p_attemptId c /\ verificationOutcome c <> Verified /\ verificationOutcome c <> Skipped.

Definition verifiable (c : ProductLabelProjection) : Prop :=
  attemptState c = DeliveryUnknown \/ (attemptState c = Sent /\ verification c = VRequired).

Inductive transition (c : ProductLabelProjection) (a : jsstr)
  : EventKind -> Z -> AttemptState -> VerificationOutcome -> JobStatus -> Prop :=
| T_reprint attemptNo r dpi bytes print outcome :
    attemptState c <> Prepared -> attemptState c <> Sending ->
    a <> p_attemptId c -> attemptNo = p_attemptNo c + 1 ->
    bytes = p_bytesDigest c -> dpi = p_dpi c ->
    productLabelPrintFormat print = productLabelPrintFormat (p_identity c) ->
    (verification c = VRequired /\ outcome = Pending \/ verification c = VNone /\ outcome = NotRequired) ->
    transition c a (EPrepared attemptNo (Some r) dpi bytes print) attemptNo Prepared outcome JPrepared
| T_sending :
    current_attempt c a -> attemptState c = Prepared ->
    transition c a ESending (p_attemptNo c) Sending (verificationOutcome c) JSending
| T_failed code :
    current_attempt c a -> attemptState c = Prepared ->
    transition c a (EFailedBeforeSend code) (p_attemptNo c) FailedBeforeSend (verificationOutcome c) JAttention
| T_sent_unverified :
    current_attempt c a -> attemptState c = Sending -> verification c = VRequired ->
    transition c a ESent (p_attemptNo c) Sent (verificationOutcome c) JAwaitingVerification
| T_sent :
    current_attempt c a -> attemptState c = Sending -> verification c = VNone ->
    transition c a ESent (p_attemptNo c) Sent (verificationOutcome c) JCompleted
| T_unknown code :
    current_attempt c a -> attemptState c = Sending ->
    transition c a (EDeliveryUnknown code) (p_attemptNo c) DeliveryUnknown (verificationOutcome c) JAttention
| T_skipped :
    current_attempt c a -> attemptState c = Sent -> verification c = VRequired ->
    transition c a EVerificationSkipped (p_attemptNo c) Sent Skipped JCompleted
| T_verified scanned :
    current_attempt c a -> verifiable c -> scanned = payloadDigest (p_origin c) ->
    transition c a (EVerified scanned) (p_attemptNo c) (attemptState c) Verified JCompleted
| T_rejected r :
    current_attempt c a -> verifiable c ->
    transition c a (EVerificationRejected r) (p_attemptNo c) (attemptState c) (verificationOutcome c) (status c).

Definition allowed (c : ProductLabelProjection) (a : jsstr) (k : EventKind) : Prop :=
  exists attemptNo state outcome st, transition c a k attemptNo state outcome st.

(** The job after a transition: the event's number and attempt, and nothing else new. *)
Definition moved (c : ProductLabelProjection) (e : ProductLabelEvent) (attemptNo : Z)
    (state : AttemptState) (outcome : VerificationOutcome) (st : JobStatus) : ProductLabelProjection :=
  {| p_origin := p_origin c; p_identity := p_identity c; latestSequence := sequence e;
     p_attemptId := attemptId e; p_attemptNo := attemptNo; attemptState := state;
     verification := verification c; verificationOutcome := outcome; status := st;
     p_bytesDigest := p_bytesDigest c; p_dpi := p_dpi c |}.

Lemma canApply_transition c e :
  canApplyProductLabelEvent c e = true <->
  safe_int (sequence e) = true /\ sequence e = latestSequence c + 1 /\ origin e = p_origin c
  /\ allowed c (attemptId e) (kind e).
Proof.
  unfold canApplyProductLabelEvent.
  destruct (safe_int (sequence e)); cbn [negb orb]; [|naive_solver].
  destruct (Z.eqb_spec (sequence e) (latestSequence c + 1)); cbn [negb orb]; [|naive_solver].
  case_bool_decide; cbn [negb]; [|naive_solver].
  split.
  - intros Hk. do 3 (split; [done|]). destruct (kind e) as [no [r|] dpi bytes print| | | | | | |].
    1-2: bool_hyps; try done; cbn in *.
    1: { match goal with H : String.eqb _ _ = true |- _ => apply String.eqb_eq in H end.
         destruct (verification c) eqn:?; do 4 eexists; apply T_reprint; auto. }
    all: destruct (_ || _ || _) eqn:Hc in Hk; [done|]; bool_hyps;
      assert (current_attempt c (attemptId e)) by done; cbv zeta in *; bool_hyps;
      try (do 4 eexists; constructor; done).
    2-3: match goal with H : _ || _ = true |- _ => apply orb_true_iff in H end;
      assert (verifiable c) by (unfold verifiable; naive_solver bool_hyps; done);
      do 4 eexists; by constructor.
    destruct (verification c) eqn:?; do 4 eexists; [by apply T_sent | by apply T_sent_unverified].
  - intros (_ & _ & _ & n & s & o & st & Ht).
    destruct Ht as [no r dpi bytes print o H1 H2 H3 -> -> -> H4 _|[H1 [H2 H3]] Hs|code [H1 [H2 H3]] Hs
      |[H1 [H2 H3]] Hs Hv|[H1 [H2 H3]] Hs Hv|code [H1 [H2 H3]] Hs|[H1 [H2 H3]] Hs Hv|s [H1 [H2 H3]] Hs ->
      |r [H1 [H2 H3]] Hs].
    1: by rewrite !bool_decide_eq_false_2, (proj2 (jseqb_neq _ _) H3), H4, Z.eqb_refl, jseqb_refl,
         String.eqb_refl, bool_decide_eq_true_2 by done.
    all: rewrite H1, jseqb_refl, !(bool_decide_eq_false_2 (verificationOutcome c = _)) by done; cbn [negb orb].
    all: try (rewrite Hs; try rewrite Hv; done).
    all: destruct Hs as [Hs|[Hs Hv]]; rewrite ?Hs, ?Hv, ?jseqb_refl; done.
Qed.

(** A transition is what the reducer does. *)
Lemma transition_applies c e n s o st :
  wf_projection c -> safe_int (sequence e) = true -> sequence e = latestSequence c + 1 -> origin e = p_origin c ->
  transition c (attemptId e) (kind e) n s o st ->
  applyProductLabelEvent (Some c) e (verification c) = Ok (moved c e n s o st).
Proof.
  intros (Hst & _ & _) H1 H2 H3 Ht.
  assert (Hcan : canApplyProductLabelEvent c e = true) by (apply canApply_transition; do 3 (split; [done|]); by exists n, s, o, st).
  unfold applyProductLabelEvent, moved. rewrite Hcan, bool_decide_eq_true_2 by done. cbn [negb orb].
  inversion Ht as [no r dpi bytes print oc G1 G2 G3 G4 G5 G6 G7 Ho|[Ha [Hv Hk]] Hs|code [Ha [Hv Hk]] Hs
      |[Ha [Hv Hk]] Hs Hp|[Ha [Hv Hk]] Hs Hp|code [Ha [Hv Hk]] Hs|[Ha [Hv Hk]] Hs Hp|scan [Ha [Hv Hk]] Hs Hd
      |r [Ha [Hv Hk]] Hs]; subst n s o st; try (rewrite Ha; clear Ha).
  1: by destruct Ho as [[-> ->]|[-> ->]].
  all: rewrite ?(bool_decide_eq_false_2 (verificationOutcome c = _)) in * by done.
  all: rewrite ?bool_decide_eq_true_2 by done.
  all: try (cbn; try rewrite Hp; try rewrite Hs; reflexivity).
  - cbn. rewrite bool_decide_eq_false_2 by done.
    destruct Hs as [->|[-> _]]; reflexivity.
  - by rewrite Hst.
Qed.

(** C29: The job is the state machine of [transition].  A consistent projection accepts
    an event exactly when the policy is the job's own, the event is the next in sequence,
    of the same origin, and a rule of [transition] allows it (a reprint only once nothing
    is in flight, sending once, a result only of what was sent, a verification only while
    one is open); the projection that comes of it has the attempt number, attempt state,
    verification outcome and status of the rule, the number and the attempt of the event,
    and keeps all else.  Every other event throws the error of an invalid transition. A
    job begins with the preparation of attempt 1, without a reason, as event 1, and
    with nothing else. *)
Theorem applyProductLabelEvent_guard (c : ProductLabelProjection) (e : ProductLabelEvent)
  (policy : VerificationPolicy) (Hwf : wf_projection c) :
  (forall p, applyProductLabelEvent (Some c) e policy = Ok p <->
     verification c = policy /\ safe_int (sequence e) = true /\ sequence e = latestSequence c + 1
     /\ origin e = p_origin c
     /\ exists attemptNo state outcome st, transition c (attemptId e) (kind e) attemptNo state outcome st
          /\ p = moved c e attemptNo state outcome st)
  /\ (forall p, applyProductLabelEvent None e policy = Ok p <->
       sequence e = 1 /\ exists dpi bytes print, kind e = EPrepared 1 None dpi bytes print
       /\ p = {| p_origin := origin e; p_identity := print; latestSequence := 1; p_attemptId := attemptId e;
                 p_attemptNo := 1; attemptState := Prepared; verification := policy;
                 verificationOutcome := match policy with VRequired => Pending | VNone => NotRequired end;
                 status := JPrepared; p_bytesDigest := bytes; p_dpi := dpi |})
  /\ forall current error, (current = None \/ current = Some c) ->
       applyProductLabelEvent current e policy = Throw error ->
       error = DomainError "PRODUCT_LABEL_TRANSITION_INVALID".
Proof.
  assert (Hok : forall p, verification c = policy -> canApplyProductLabelEvent c e = true ->
    applyProductLabelEvent (Some c) e policy = Ok p <->
    exists n s o st, transition c (attemptId e) (kind e) n s o st /\ p = moved c e n s o st).
  { intros p <- Hcan. apply canApply_transition in Hcan as (H1 & H2 & H3 & n & s & o & st & Ht). split.
    - rewrite (transition_applies _ _ _ _ _ _ Hwf H1 H2 H3 Ht). intros [= <-]. by exists n, s, o, st.
    - intros (n' & s' & o' & st' & Ht' & ->). by apply transition_applies. }
  assert (Hno : verification c = policy /\ canApplyProductLabelEvent c e = true
    \/ applyProductLabelEvent (Some c) e policy = invalidTransition).
  { unfold applyProductLabelEvent. destruct (decide (verification c = policy)) as [E|E];
      [rewrite bool_decide_eq_true_2 by done | rewrite bool_decide_eq_false_2 by done; by right].
    destruct (canApplyProductLabelEvent c e); [by left | by right]. }
  split; [|split].
  - intros p. destruct Hno as [[Hv Hcan]|Hbad].
    + rewrite (Hok p Hv Hcan). apply canApply_transition in Hcan as (H1 & H2 & H3 & _). naive_solver.
    + rewrite Hbad. split; [done|]. intros (<- & H1 & H2 & H3 & n & s & o & st & Ht & _).
      by rewrite (transition_applies _ _ _ _ _ _ Hwf H1 H2 H3 Ht) in Hbad.
  - intros p. cbn. unfold initial_outcome. destruct (kind e) as [n r d b i| | | | | | |]; try naive_solver.
    destruct (Z.eqb_spec (sequence e) 1); cbn [negb orb]; [|naive_solver].
    destruct (Z.eqb_spec n 1); cbn [negb orb]; [|naive_solver]. case_bool_decide; cbn [negb]; naive_solver.
  - intros current error [->| ->] H.
    + cbn in H. destruct (kind e); try (by injection H as <-). destruct (_ || _) in H; [by injection H as <-|done].
    + destruct Hno as [[Hv Hcan]|Hbad]; [|rewrite Hbad in H; by injection H as <-].
      apply canApply_transition in Hcan as Hall. destruct Hall as (H1 & H2 & H3 & n & s & o & st & Ht). subst policy.
      by rewrite (transition_applies _ _ _ _ _ _ Hwf H1 H2 H3 Ht) in H.
Qed.

Lemma run_app policy cur l1 l2 :
  run policy cur (l1 ++ l2) = (mid ← run policy cur l1; run policy mid l2).
Proof.
  revert cur; induction l1 as [|e l1 IH]; intros cur; cbn; [done|].
  destruct (applyProductLabelEvent cur e policy); cbn; [apply IH | done].
Qed.

Lemma countb_snoc {A} f (l : list A) x :
  countb f (l ++ [x]) = countb f l + (if f x then 1 else 0).
Proof.
  unfold countb. rewrite List.filter_app, length_app. cbn. destruct (f x); cbn; lia.
Qed.

(** How the attempt number and the pending sends move with one event. *)
Lemma apply_next_counts c e policy p :
  wf_projection c -> applyProductLabelEvent (Some c) e policy = Ok p ->
  let slack q := if bool_decide (attemptState q = Prepared) then 1 else 0 in
  p_attemptNo p = p_attemptNo c + (if is_prepared e then 1 else 0)
  /\ has_reason e = is_prepared e
  /\ slack p + (if is_sending e then 1 else 0) <= slack c + (if is_prepared e then 1 else 0).
Proof.
  intros Hwf H. destruct (apply_next _ _ _ _ Hwf H) as (Hcan & Hv & _).
  unfold applyProductLabelEvent in H. rewrite (bool_decide_eq_true_2 _ Hv), Hcan in H.
  cbn [negb orb] in H. unfold canApplyProductLabelEvent in Hcan.
  destruct (_ || _ || _) in Hcan; [done|].
  unfold is_prepared, has_reason, is_sending. destruct (kind e) eqn:Hk.
  1:{ apply Ok_inj in H as <-. cbn. bool_hyps.
      repeat split; repeat case_bool_decide; simplify_eq; (lia || done). }
  all: apply bind_ok_inv in H as (st & _ & H); apply Ok_inj in H as <-; cbn;
    destruct (_ || _ || _) in Hcan; try done; bool_hyps;
    repeat split; cbn; repeat case_bool_decide; simplify_eq; try lia; try congruence.
Qed.

(** The bookkeeping of a history that folded into [p]. *)
Definition history_ok (policy : VerificationPolicy) (events : list ProductLabelEvent)
  (p : ProductLabelProjection) : Prop :=
  wf_projection p /\ verification p = policy
  /\ latestSequence p = Z.of_nat (length events)
  /\ (forall i e, events !! i = Some e -> sequence e = Z.of_nat i + 1 /\ origin e = p_origin p)
  /\ p_attemptNo p = countb is_prepared events
  /\ countb has_reason events = p_attemptNo p - 1
  /\ countb is_sending events + (if bool_decide (attemptState p = Prepared) then 1 else 0)
     <= p_attemptNo p.

Lemma history_snoc policy events c e p :
  history_ok policy events c -> applyProductLabelEvent (Some c) e policy = Ok p ->
  history_ok policy (events ++ [e]) p.
Proof.
  intros (Hwf & Hv & Hl & Hi & Ha & Hr & Hs) H.
  destruct (apply_next _ _ _ _ Hwf H) as (_ & _ & Hwf' & Hv' & Ho & Hoe & Hse & Hlp).
  destruct (apply_next_counts _ _ _ _ Hwf H) as (Ha' & Hr' & Hs').
  split; [done|]. split; [done|]. rewrite length_app. cbn [length]. split; [lia|].
  rewrite !countb_snoc, Hr'. split; [|repeat split; lia].
  intros i e' He. apply lookup_app_Some in He as [He|[Hge He]].
  - rewrite Ho. by apply Hi.
  - apply list_lookup_singleton_Some in He as [He <-]. rewrite Ho. split; [|done].
    replace i with (length events) by lia. lia.
Qed.

Lemma run_snoc_inv policy events e r :
  run policy None (events ++ [e]) = Ok r ->
  exists mid p, run policy None events = Ok mid
    /\ applyProductLabelEvent mid e policy = Ok p /\ r = Some p.
Proof.
  rewrite run_app. intros (mid & Hm & H)%bind_ok_inv. cbn in H.
  apply bind_ok_inv in H as (p & Hp & <-%Ok_inj). eauto.
Qed.

Lemma run_None policy events : run policy None events = Ok None -> events = [].
Proof.
  destruct events as [|e events _] using rev_ind; [done|].
  intros (mid & p & _ & _ & ?)%run_snoc_inv. done.
Qed.

Lemma run_history policy events : forall p,
  run policy None events = Ok (Some p) -> history_ok policy events p.
Proof.
  induction events as [|e events IH] using rev_ind; intros p Hrun; [done|].
  apply run_snoc_inv in Hrun as ([c|] & q & Hmid & Happ & [= ->]).
  - by eapply history_snoc; [apply IH|].
  - apply run_None in Hmid as ->.
    apply apply_first in Happ as (d & b & i & Hk & Hs & Ho & Hl & Hn & Hv & Hwf & Hst & _).
    unfold history_ok, countb, is_prepared, has_reason, is_sending. cbn. rewrite Hk, Hst. cbn.
    split; [done|]. split; [done|]. split; [done|]. split; [|by rewrite Hn].
    intros [|j] e' He; [|done]. by injection He as <-.
Qed.

(** Any history the reducer accepts is complete and well accounted: events
    are numbered 1, 2, 3, ... without gaps and all carry the job's origin, the
    attempt number counts the prepared attempts, every attempt but the first
    states a reprint reason, an attempt is sent at most once, and the resulting
    projection is consistent with its policy. *)
Theorem run_history_ok (policy : VerificationPolicy) (events : list ProductLabelEvent)
  (p : ProductLabelProjection) (Hrun : run policy None events = Ok (Some p)) :
  history_ok policy events p.
Proof. by apply run_history. Qed.

(** Under the [required] policy a job is completed only on evidence: its
    history holds, in the current attempt, either a control scan of exactly the
    payload that was to be printed or an explicit skip. *)
Theorem completed_has_evidence (events : list ProductLabelEvent) (p : ProductLabelProjection)
  (Hrun : run VRequired None events = Ok (Some p)) (Hdone : status p = JCompleted) :
  exists e, e ∈ events /\ attemptId e = p_attemptId p
    /\ (kind e = EVerified (payloadDigest (p_origin p)) \/ kind e = EVerificationSkipped).
Proof.
  assert (Hev : forall q, run VRequired None events = Ok (Some q) ->
    verificationOutcome q = Verified \/ verificationOutcome q = Skipped ->
    exists e, e ∈ events /\ attemptId e = p_attemptId q
      /\ (kind e = EVerified (payloadDigest (p_origin q)) \/ kind e = EVerificationSkipped)).
  { clear p Hrun Hdone. induction events as [|e events IH] using rev_ind; intros q Hrun Ho; [done|].
    apply run_snoc_inv in Hrun as ([c|] & q' & Hmid & Happ & [= ->]).
    2:{ unfold applyProductLabelEvent in Happ. destruct (kind e); try done.
        destruct (_ || _ || _); [done|]. apply Ok_inj in Happ as <-. cbn in Ho. naive_solver. }
    pose proof (run_history _ _ _ Hmid) as (Hwf & _).
    destruct (apply_next _ _ _ _ Hwf Happ) as (Hcan & Hv & _).
    unfold applyProductLabelEvent in Happ. rewrite (bool_decide_eq_true_2 _ Hv), Hcan in Happ.
    cbn [negb orb] in Happ. unfold canApplyProductLabelEvent in Hcan.
    destruct (_ || _ || _) in Hcan; [done|]. destruct (kind e) eqn:Hk.
    1:{ apply Ok_inj in Happ as <-. cbn in Ho. naive_solver. }
    all: apply bind_ok_inv in Happ as (st & _ & <-%Ok_inj); cbn in Ho |- *;
      destruct (_ || _ || _) eqn:Hg in Hcan; try done; bool_hyps;
      try (destruct Ho; congruence);
      (exists e; split; [set_solver|]; split; [done|]; naive_solver). }
  destruct (run_history _ _ _ Hrun) as ((Hst & _) & Hv & _). apply Hev; [done|].
  rewrite Hv, Hdone in Hst. unfold productLabelStatus in Hst.
  destruct (verificationOutcome p); auto; cbn in Hst; by destruct (attemptState p).
Qed.

Definition sample_origin : Origin :=
  {| jobId := js "job"; shiftId := js "shift"; codeHash := js "hash"; acceptedAt := js "t0";
     policyRevision := js "rev"; templateDigest := js "tpl"; payloadDigest := js "payload" |}.

Definition sample_event (n : Z) (k : EventKind) : ProductLabelEvent :=
  {| eventId := js_of_Z n; origin := sample_origin; attemptId := js "a1"; sequence := n;
     operatorId := js "op"; occurredAt := js "t"; kind := k |}.

(** A second attempt. *)
Definition reprint_event (n : Z) : ProductLabelEvent :=
  {| eventId := js_of_Z n; origin := sample_origin; attemptId := js "a2"; sequence := n;
     operatorId := js "op"; occurredAt := js "t";
     kind := EPrepared 2 (Some Damaged) Dpi203 (js "bytes") (RawPrint Zpl) |}.

Definition sample_history : list ProductLabelEvent :=
  [ sample_event 1 (EPrepared 1 None Dpi203 (js "bytes") (RawPrint Zpl));
    sample_event 2 ESending; sample_event 3 ESent;
    sample_event 4 (EVerificationRejected RejectMismatch);
    sample_event 5 (EVerified (js "payload")) ].

Definition sample_projection : ProductLabelProjection :=
  {| p_origin := sample_origin; p_identity := RawPrint Zpl; latestSequence := 5;
     p_attemptId := js "a1"; p_attemptNo := 1; attemptState := Sent;
     verification := VRequired; verificationOutcome := Verified; status := JCompleted;
     p_bytesDigest := js "bytes"; p_dpi := Dpi203 |}.

Lemma sample_run : run VRequired None sample_history = Ok (Some sample_projection).
Proof. vm_compute. reflexivity. Qed.

Lemma applyProductLabelEvent_guard_witness :
  applyProductLabelEvent (Some sample_projection) (reprint_event 6) VRequired
  = Ok (moved sample_projection (reprint_event 6) 2 Prepared Pending JPrepared).
Proof.
  apply (applyProductLabelEvent_guard sample_projection (reprint_event 6) VRequired).
  - repeat split; done.
  - do 4 (split; [reflexivity|]). do 4 eexists. split; [|reflexivity].
    apply T_reprint; try (reflexivity || discriminate). left. split; reflexivity.
Defined.

Lemma run_history_ok_witness : history_ok VRequired sample_history sample_projection.
Proof. apply (run_history_ok VRequired sample_history). vm_compute. reflexivity. Defined.

Lemma completed_has_evidence_witness :
  exists e, e ∈ sample_history /\ attemptId e = js "a1"
    /\ (kind e = EVerified (js "payload") \/ kind e = EVerificationSkipped).
Proof.
  apply (completed_has_evidence sample_history sample_projection);
    [vm_compute; reflexivity | reflexivity].
Defined.

(** ** Control scans *)

Lemma parseDuplicateKm_domain r : domain_only (parseDuplicateKm r).
Proof. unfold parseDuplicateKm. apply domain_only_bind; auto with jsdb. Qed.

Lemma parseDuplicateKm_raw r km : parseDuplicateKm r = Ok km -> raw km = strip_transport r.
Proof.
  unfold parseDuplicateKm. intros (km' & Hc & H)%bind_ok_inv.
  destruct (negb _); [done|]. apply Ok_inj in H as <-.
  apply canonicalizeKm_Ok in Hc as (Hp & _). by apply parseKm_raw in Hp.
Qed.

(** Comparing a control scan with a printable payload always gives a
    verdict: [invalid] exactly when the scan is not a complete KM, and
    otherwise [match] exactly when the two canonical texts, crypto tail
    included, are equal; so a good copy of the payload always matches. *)
Theorem compareDuplicateKm_verdict (expected scanned : jsstr) (km : ParsedKm)
  (Hexp : parseDuplicateKm expected = Ok km) :
  exists v, compareDuplicateKm expected scanned = Ok v
    /\ (v = LInvalid <-> is_ok (parseDuplicateKm scanned) = false)
    /\ (v = LMatch <-> exists km', parseDuplicateKm scanned = Ok km'
          /\ strip_transport scanned = strip_transport expected)
    /\ compareDuplicateKm expected expected = Ok LMatch.
Proof.
  unfold compareDuplicateKm. rewrite Hexp. cbn [mbind result_bind].
  pose proof (parseDuplicateKm_raw _ _ Hexp) as Hr.
  destruct (parseDuplicateKm scanned) as [km'|e] eqn:Hs.
  - pose proof (parseDuplicateKm_raw _ _ Hs) as Hr'. eexists. split; [done|].
    rewrite jseqb_refl. cbn [is_ok].
    destruct (jseqb (raw km') (raw km)) eqn:E.
    + apply jseqb_eq in E. repeat split; try done. intros _. exists km'. split; congruence.
    + apply jseqb_neq in E. repeat split; try done. intros (? & _ & ?). congruence.
  - destruct (parseDuplicateKm_domain _ _ Hs) as [code ->]. exists LInvalid.
    rewrite jseqb_refl. repeat split; try done. by intros (? & ? & _).
Qed.

Lemma compareDuplicateKm_verdict_witness :
  compareDuplicateKm sample_km sample_km = Ok LMatch.
Proof.
  destruct (parseDuplicateKm sample_km) as [km|e] eqn:E; [|vm_compute in E; discriminate E].
  destruct (compareDuplicateKm_verdict sample_km (js "x") km E) as (v & _ & _ & _ & H).
  exact H.
Defined.
