(* ===== verification/WarehouseReprint.v ===== *)
(** * Warehouse reprints: lookup scans and the print state machine

    [packages/domain/src/warehouse-reprint/scan.ts], the event schema of
    [contracts.ts] and the reducer of [state.ts].  What Zod itself decides
    ([z.uuid()], [z.iso.datetime()] and the unit of [.min]/[.max] on strings)
    is the section's parameters. *)

From stdpp Require Import base list strings gmap.
From Stdlib Require Import ZArith Lia.
From S2P Require Import Prelude Gs1 Km ProductLabel.

(** ** warehouse-reprint/scan.ts *)

Inductive WarehouseReprintScan :=
| WBox (sscc : jsstr) (legacy_repair : bool)
| WUnit (codeHash : jsstr)
| WInvalid.

(** The optional AIM identifier [(?:\]C[01])?] in front of the [!1] defect. *)
Definition strip_c01 (s : jsstr) : jsstr :=
  if starts_with (js "]C0") s || starts_with (js "]C1") s then drop 3 s else s.

(** [/^(?:\]C[01])?!100(\d{18})$/]: the group it captures. *)
Definition legacy_capture (trimmed : jsstr) : option jsstr :=
  let s := strip_c01 trimmed in
  if starts_with (js "!100") s && digits_n 18 (drop 4 s) then Some (drop 4 s) else None.

Definition resolveWarehouseReprintScan (sha256_hex : list Z -> jsstr) (raw : jsstr)
  : WarehouseReprintScan :=
  let trimmed := trim raw in
  let fallthrough :=
    if starts_with (js "!1") (strip_c01 trimmed) then WInvalid
    else match classifyScan raw with
         | ScanSscc sscc => WBox sscc false
         | ScanKm km => WUnit (kmHash sha256_hex km)
         | _ => WInvalid
         end in
  match legacy_capture trimmed with
  | Some sscc => if isValidSscc sscc then WBox sscc true else fallthrough
  | None => fallthrough
  end.

Inductive ExpectedLabel :=
| ExpectBox (sscc : jsstr)
| ExpectUnit (canonicalRaw : jsstr).

Definition compareWarehouseReprintLabel (expected : ExpectedLabel) (raw : jsstr)
  : result LabelMatch :=
  match expected with
  | ExpectUnit canonicalRaw => compareDuplicateKm canonicalRaw raw
  | ExpectBox want =>
      match parseScannedSscc (trim raw) false with
      | None => Ok LInvalid
      | Some sscc => Ok (if jseqb sscc want then LMatch else LMismatch)
      end
  end.

(** ** warehouse-reprint/contracts.ts: events *)

Inductive SourceKind := SourceUnit | SourceBox.
Inductive WUnknownCode := WTransportFailed | WInterrupted.
Inductive WFailureCode := WPrinterUnconfigured | WPrinterChanged | WOwnerChanged | WDriverRejected.

(** A replacement artifact: raw commands, a raster, or the legacy raster form
    that names neither a language nor a format. *)
Inductive RerenderFormat := RRaw (language : PrinterLanguage) | RRaster | RLegacy.
Record WarehouseRerender := { r_bytesDigest : jsstr; r_dpi : Dpi; r_format : RerenderFormat }.

Record PreparedFacts := {
  pf_reason : ReprintReason; pf_sourceKind : SourceKind; pf_sourceId : jsstr;
  pf_identity : jsstr; pf_sourceRevision : jsstr; pf_sourceShiftId : option jsstr;
  pf_templateId : jsstr; pf_templateRevision : jsstr; pf_templateDigest : jsstr;
  pf_payloadDigest : jsstr; pf_bytesDigest : jsstr; pf_scanDigest : jsstr;
  pf_repair : bool; pf_dpi : Dpi; pf_print : PrintIdentity
}.

Inductive WEventKind :=
| WPrepared (facts : PreparedFacts)
| WSending
| WSent
| WVerified
| WDeliveryUnknown (errorCode : WUnknownCode)
| WFailedBeforeSend (errorCode : WFailureCode)
| WReprintPrepared (attemptNo : Z) (reason : ReprintReason) (rerender : option WarehouseRerender).

Record WEvent := {
  w_eventId : jsstr; w_jobId : jsstr; w_sessionId : jsstr; w_attemptId : jsstr;
  w_operatorId : jsstr; w_sequence : Z; w_occurredAt : jsstr; w_kind : WEventKind
}.

(** [/^[0-9a-f]{64}$/]. *)
Definition is_hex_lower (c : Z) : bool := is_digit c || ((97 <=? c) && (c <=? 102)).
Definition is_digest (s : jsstr) : bool := (length s =? 64)%nat && forallb is_hex_lower s.

(** [toLowerCase()] of text that [z.uuid()] has accepted, hence ASCII. *)
Definition ascii_lower (s : jsstr) : jsstr :=
  (fun c => if (65 <=? c) && (c <=? 90) then c + 32 else c) <$> s.

Section Zod.
Context (is_uuid is_datetime : jsstr -> bool) (zod_length : jsstr -> Z).

Definition bounded (lo hi : Z) (s : jsstr) : bool := (lo <=? zod_length s) && (zod_length s <=? hi).

Definition rerender_ok (r : WarehouseRerender) : bool := is_digest (r_bytesDigest r).

Definition prepared_ok (f : PreparedFacts) : bool :=
  bounded 1 128 (pf_sourceId f) && bounded 1 64 (pf_identity f)
  && is_digest (pf_sourceRevision f)
  && match pf_sourceShiftId f with None => true | Some s => is_uuid s end
  && is_uuid (pf_templateId f) && is_digest (pf_templateRevision f)
  && is_digest (pf_templateDigest f) && is_digest (pf_payloadDigest f)
  && is_digest (pf_bytesDigest f) && is_digest (pf_scanDigest f).

Definition kind_ok (k : WEventKind) : bool :=
  match k with
  | WPrepared f => prepared_ok f
  | WReprintPrepared n _ r =>
      positive_integer n && match r with None => true | Some r => rerender_ok r end
  | _ => true
  end.

Definition lower_facts (f : PreparedFacts) : PreparedFacts :=
  {| pf_reason := pf_reason f; pf_sourceKind := pf_sourceKind f; pf_sourceId := pf_sourceId f;
     pf_identity := pf_identity f; pf_sourceRevision := pf_sourceRevision f;
     pf_sourceShiftId := ascii_lower <$> pf_sourceShiftId f;
     pf_templateId := ascii_lower (pf_templateId f);
     pf_templateRevision := pf_templateRevision f; pf_templateDigest := pf_templateDigest f;
     pf_payloadDigest := pf_payloadDigest f; pf_bytesDigest := pf_bytesDigest f;
     pf_scanDigest := pf_scanDigest f; pf_repair := pf_repair f; pf_dpi := pf_dpi f;
     pf_print := pf_print f |}.

(** [warehouseEventSchema.parse]: checks every field and lowers the ids. *)
Definition warehouseEventSchema_parse (e : WEvent) : result WEvent :=
  if is_uuid (w_eventId e) && is_uuid (w_jobId e) && is_uuid (w_sessionId e)
     && is_uuid (w_attemptId e) && is_uuid (w_operatorId e)
     && positive_integer (w_sequence e) && is_datetime (w_occurredAt e) && kind_ok (w_kind e)
  then Ok {| w_eventId := ascii_lower (w_eventId e); w_jobId := ascii_lower (w_jobId e);
             w_sessionId := ascii_lower (w_sessionId e);
             w_attemptId := ascii_lower (w_attemptId e);
             w_operatorId := ascii_lower (w_operatorId e); w_sequence := w_sequence e;
             w_occurredAt := w_occurredAt e;
             w_kind := match w_kind e with WPrepared f => WPrepared (lower_facts f) | k => k end |}
  else Throw PlainError.

(** ** warehouse-reprint/state.ts *)

Inductive WState := StPrepared | StSending | StSent | StVerified | StUnknown | StFailed.

#[export] Instance WState_eq_dec : EqDecision WState.
Proof. solve_decision. Defined.

Record WProjection := {
  wp_jobId : jsstr; wp_sessionId : jsstr; wp_latestSequence : Z; wp_attemptId : jsstr;
  wp_attemptNo : Z; wp_attemptIds : list jsstr; wp_state : WState; wp_bytesDigest : jsstr;
  wp_payloadDigest : jsstr; wp_templateDigest : jsstr; wp_raster : option WarehouseRerender
}.

Definition winvalid {A} : result A := throw "WAREHOUSE_REPRINT_TRANSITION".

(** [{ ...current, latestSequence, state }]. *)
Definition advance (c : WProjection) (sequence : Z) (st : WState) : WProjection :=
  {| wp_jobId := wp_jobId c; wp_sessionId := wp_sessionId c; wp_latestSequence := sequence;
     wp_attemptId := wp_attemptId c; wp_attemptNo := wp_attemptNo c;
     wp_attemptIds := wp_attemptIds c; wp_state := st; wp_bytesDigest := wp_bytesDigest c;
     wp_payloadDigest := wp_payloadDigest c; wp_templateDigest := wp_templateDigest c;
     wp_raster := wp_raster c |}.

Definition has_language (r : WarehouseRerender) : bool :=
  match r_format r with RRaw _ => true | _ => false end.

(** The two guards on a replacement artifact. *)
Definition rerender_allowed (c : WProjection) (r : WarehouseRerender) : bool :=
  bool_decide (wp_state c = StFailed)
  && match r_format r with
     | RLegacy => match wp_raster c with None => false | Some old => negb (has_language old) end
     | _ => true
     end.

Definition next_state (st : WState) (k : WEventKind) : option WState :=
  match k, st with
  | WSending, StPrepared => Some StSending
  | WSent, StSending => Some StSent
  | WDeliveryUnknown _, StSending => Some StUnknown
  | WFailedBeforeSend _, StPrepared => Some StFailed
  | WFailedBeforeSend (WOwnerChanged | WDriverRejected), StSending => Some StFailed
  | WVerified, (StSent | StUnknown) => Some StVerified
  | _, _ => None
  end.

Definition applyWarehouseReprintEvent (current : option WProjection) (input : WEvent)
  : result WProjection :=
  event ← warehouseEventSchema_parse input;
  match current with
  | None =>
      match w_kind event with
      | WPrepared f =>
          if negb (w_sequence event =? 1) then winvalid
          else Ok {| wp_jobId := w_jobId event; wp_sessionId := w_sessionId event;
                     wp_latestSequence := 1; wp_attemptId := w_attemptId event; wp_attemptNo := 1;
                     wp_attemptIds := [w_attemptId event]; wp_state := StPrepared;
                     wp_bytesDigest := pf_bytesDigest f; wp_payloadDigest := pf_payloadDigest f;
                     wp_templateDigest := pf_templateDigest f;
                     wp_raster := match pf_print f with
                       | MonoRasterV1 => Some {| r_bytesDigest := pf_bytesDigest f;
                                                 r_dpi := pf_dpi f; r_format := RLegacy |}
                       | RawPrint _ => None end |}
      | _ => winvalid
      end
  | Some c =>
      if negb (jseqb (w_jobId event) (wp_jobId c))
         || negb (jseqb (w_sessionId event) (wp_sessionId c))
         || negb (w_sequence event =? wp_latestSequence c + 1)
      then winvalid
      else
        match w_kind event with
        | WReprintPrepared attemptNo _ rerender =>
            if negb (bool_decide (wp_state c ∈ [StSent; StVerified; StUnknown; StFailed]))
               || negb (attemptNo =? wp_attemptNo c + 1)
               || bool_decide (w_attemptId event ∈ wp_attemptIds c)
            then winvalid
            else if match rerender with None => false | Some r => negb (rerender_allowed c r) end
            then winvalid
            else Ok {| wp_jobId := wp_jobId c; wp_sessionId := wp_sessionId c;
                       wp_latestSequence := w_sequence event; wp_attemptId := w_attemptId event;
                       wp_attemptNo := attemptNo;
                       wp_attemptIds := wp_attemptIds c ++ [w_attemptId event];
                       wp_state := StPrepared;
                       wp_bytesDigest := match rerender with
                         | Some r => r_bytesDigest r | None => wp_bytesDigest c end;
                       wp_payloadDigest := wp_payloadDigest c;
                       wp_templateDigest := wp_templateDigest c;
                       wp_raster := match rerender with
                         | Some r => Some r | None => wp_raster c end |}
        | k =>
            if negb (jseqb (w_attemptId event) (wp_attemptId c)) then winvalid
            else match next_state (wp_state c) k with
                 | Some st => Ok (advance c (w_sequence event) st)
                 | None => winvalid
                 end
        end
  end.

(** Folding a stored history. *)
Fixpoint wrun (current : option WProjection) (events : list WEvent) : result (option WProjection) :=
  match events with
  | [] => Ok current
  | e :: es => p ← applyWarehouseReprintEvent current e; wrun (Some p) es
  end.
End Zod.

Lemma next_state_not_prepared st k : next_state st k <> Some StPrepared.
Proof. destruct k as [| | | |c|[]|], st; done. Qed.

Lemma isValidSscc_head c s : is_digit c = false -> isValidSscc (c :: s) = false.
Proof. intros H. unfold isValidSscc, digits_n. cbn [forallb]. by rewrite H, andb_false_r. Qed.

(** The printed defect, with the AIM identifiers it may carry. *)
Lemma legacy_capture_spec t s :
  legacy_capture t = Some s ->
  length s = 18%nat /\ exists w, (w = [] \/ w = js "]C0" \/ w = js "]C1") /\ t = w ++ js "!100" ++ s.
Proof.
  unfold legacy_capture, strip_c01. intros H.
  destruct (_ && _) eqn:Hg in H; [|done]. apply andb_true_iff in Hg as [Hb Hd].
  apply (inj Some) in H. apply digits_n_spec in Hd as [Hl _]. rewrite H in Hl. split; [done|].
  apply starts_with_spec in Hb as [u Hu]. rewrite Hu in H. cbn [app] in H.
  change (drop 4 (js "!100" ++ u)) with (drop 0 u) in H. rewrite drop_0 in H. subst u.
  destruct (starts_with (js "]C0") t) eqn:E0.
  { apply starts_with_spec in E0 as [v ->]. exists (js "]C0"). split; [auto|].
    cbn [orb] in Hu. change (drop 3 (js "]C0" ++ v)) with (drop 0 v) in Hu.
    rewrite drop_0 in Hu. congruence. }
  destruct (starts_with (js "]C1") t) eqn:E1; cbn [orb] in Hu; [|by exists []; auto].
  apply starts_with_spec in E1 as [v ->]. exists (js "]C1"). split; [auto|].
  change (drop 3 (js "]C1" ++ v)) with (drop 0 v) in Hu. rewrite drop_0 in Hu. congruence.
Qed.

(** A misprinted legacy box label is recovered for lookup but never accepted
    as a control scan: it resolves to the box it was printed for, and comparing
    it with any expected box label answers [invalid]. *)
Theorem legacy_label_lookup_only (sha256_hex : list Z -> jsstr) (raw s : jsstr)
  (Hcap : legacy_capture (trim raw) = Some s) (Hv : isValidSscc s = true) :
  resolveWarehouseReprintScan sha256_hex raw = WBox s true /\
  forall want, compareWarehouseReprintLabel (ExpectBox want) raw = Ok LInvalid.
Proof.
  split.
  - unfold resolveWarehouseReprintScan. cbv zeta. by rewrite Hcap, Hv.
  - intros want. unfold compareWarehouseReprintLabel, parseScannedSscc.
    destruct (legacy_capture_spec _ _ Hcap) as (Hl & w & Hw & ->).
    rewrite !length_app, Hl. clear Hcap.
    destruct Hw as [->|[->| ->]]; js_lits; cbn -[isValidSscc]; rewrite ?Hl;
      cbn -[isValidSscc]; by rewrite isValidSscc_head.
Qed.

Lemma legacy_label_lookup_only_witness :
  resolveWarehouseReprintScan (fun b => b) (js "]C1!100046070470000000428 ")
  = WBox (js "046070470000000428") true.
Proof. apply legacy_label_lookup_only; vm_compute; reflexivity. Defined.

Section Histories.
Context (is_uuid is_datetime : jsstr -> bool) (zod_length : jsstr -> Z).

Abbreviation wapply := (applyWarehouseReprintEvent is_uuid is_datetime zod_length).
Abbreviation wfold := (wrun is_uuid is_datetime zod_length).

Definition is_reprint (k : WEventKind) : bool :=
  match k with WReprintPrepared _ _ _ => true | _ => false end.

(** Transmissions of attempt [a] recorded in a history. *)
Definition sends (a : jsstr) (events : list WEvent) : Z :=
  countb (fun e => match w_kind e with WSending => jseqb (ascii_lower (w_attemptId e)) a | _ => false end)
    events.

Lemma parse_event e e' :
  warehouseEventSchema_parse is_uuid is_datetime zod_length e = Ok e' ->
  w_attemptId e' = ascii_lower (w_attemptId e) /\ w_sequence e' = w_sequence e
  /\ w_jobId e' = ascii_lower (w_jobId e)
  /\ match w_kind e with
     | WPrepared f => w_kind e' = WPrepared (lower_facts f)
     | k => w_kind e' = k
     end.
Proof.
  unfold warehouseEventSchema_parse. destruct (_ && _); [|done].
  intros <-%Ok_inj. cbn. by destruct (w_kind e).
Qed.

(** What one accepted event does to a running job. *)
Lemma wapply_next c e p :
  wapply (Some c) e = Ok p ->
  wp_latestSequence p = w_sequence e /\ w_sequence e = wp_latestSequence c + 1
  /\ wp_jobId p = wp_jobId c /\ ascii_lower (w_jobId e) = wp_jobId c
  /\ wp_payloadDigest p = wp_payloadDigest c /\ wp_templateDigest p = wp_templateDigest c
  /\ ((exists n r rr, w_kind e = WReprintPrepared n r rr /\ wp_state p = StPrepared
        /\ wp_state c <> StPrepared /\ wp_state c <> StSending
        /\ wp_attemptId p = ascii_lower (w_attemptId e)
        /\ (ascii_lower (w_attemptId e) ∉ wp_attemptIds c)
        /\ wp_attemptIds p = wp_attemptIds c ++ [wp_attemptId p]
        /\ wp_attemptNo p = wp_attemptNo c + 1
        /\ match rr with
           | None => wp_bytesDigest p = wp_bytesDigest c
           | Some a => wp_state c = StFailed /\ wp_bytesDigest p = r_bytesDigest a
           end)
      \/ (exists st, next_state (wp_state c) (w_kind e) = Some st
        /\ p = advance c (w_sequence e) st /\ ascii_lower (w_attemptId e) = wp_attemptId c)).
Proof.
  unfold applyWarehouseReprintEvent. intros (e' & He & H)%bind_ok_inv.
  apply parse_event in He as (Ha & Hs & Hj & Hk). rewrite Ha, Hs, Hj in H.
  destruct (_ || _ || _) eqn:Hg in H; [done|].
  apply orb_false_iff in Hg as [[Hg1 _]%orb_false_iff Hg3].
  apply negb_false_iff in Hg1, Hg3. apply jseqb_eq in Hg1. apply Z.eqb_eq in Hg3.
  destruct (w_kind e) as [f| | | |c1|c1|n r rr] eqn:Hke; rewrite Hk in H.
  7:{ destruct (_ || _ || _) eqn:Hg in H; [done|].
      apply orb_false_iff in Hg as [[Hst Hn]%orb_false_iff Hin].
      apply negb_false_iff in Hst, Hn. apply bool_decide_eq_true_1 in Hst.
      apply Z.eqb_eq in Hn. apply bool_decide_eq_false_1 in Hin.
      destruct (match rr with None => false | Some a => _ end) eqn:Hrr; [done|].
      apply Ok_inj in H as <-. cbn. do 6 (split; [done|]). left. exists n, r, rr.
      split; [done|]. split; [done|].
      split; [intros E; rewrite E in Hst; set_solver|].
      split; [intros E; rewrite E in Hst; set_solver|].
      do 4 (split; [done|]). destruct rr as [a|]; [|done].
      unfold rerender_allowed in Hrr. apply negb_false_iff, andb_true_iff in Hrr as [Hrr _].
      by apply bool_decide_eq_true_1 in Hrr. }
  all: destruct (jseqb _ _) eqn:Hid in H; [|done]; apply jseqb_eq in Hid; cbn [negb] in H;
    destruct (next_state _ _) as [st|] eqn:Hn in H; [|done]; apply Ok_inj in H as <-;
    cbn; do 6 (split; [done|]); right; try (by exists st); destruct (wp_state c); done.
Qed.

Lemma wapply_first e p :
  wapply None e = Ok p ->
  exists f, w_kind e = WPrepared f /\ w_sequence e = 1 /\ wp_latestSequence p = 1
    /\ wp_attemptIds p = [wp_attemptId p] /\ wp_attemptNo p = 1 /\ wp_state p = StPrepared
    /\ wp_jobId p = ascii_lower (w_jobId e) /\ wp_payloadDigest p = pf_payloadDigest f.
Proof.
  unfold applyWarehouseReprintEvent. intros (e' & He & H)%bind_ok_inv.
  apply parse_event in He as (_ & Hs & Hj & Hk).
  destruct (w_kind e) as [f| | | | | |]; rewrite Hk in H; try done.
  rewrite Hs, Hj in H. destruct (Z.eqb_spec (w_sequence e) 1); [|done].
  apply Ok_inj in H as <-. by exists f.
Qed.

(** The bookkeeping of a reprint history that folded into [p]. *)
Definition whistory_ok (events : list WEvent) (p : WProjection) : Prop :=
  wp_latestSequence p = Z.of_nat (length events)
  /\ (forall i e, events !! i = Some e ->
        w_sequence e = Z.of_nat i + 1 /\ ascii_lower (w_jobId e) = wp_jobId p)
  /\ NoDup (wp_attemptIds p) /\ last (wp_attemptIds p) = Some (wp_attemptId p)
  /\ wp_attemptNo p = Z.of_nat (length (wp_attemptIds p))
  /\ (forall a, sends a events <= 1 /\ (a ∉ wp_attemptIds p -> sends a events = 0))
  /\ (wp_state p = StPrepared -> sends (wp_attemptId p) events = 0)
  /\ (wp_state p <> StPrepared -> wp_state p <> StFailed -> sends (wp_attemptId p) events = 1).

Lemma sends_snoc a events e :
  sends a (events ++ [e]) = sends a events
    + (match w_kind e with WSending => if jseqb (ascii_lower (w_attemptId e)) a then 1 else 0 | _ => 0 end).
Proof. unfold sends. rewrite countb_snoc. by destruct (w_kind e). Qed.

Lemma sends_nonneg a events : 0 <= sends a events.
Proof. unfold sends, countb. lia. Qed.

Lemma whistory_snoc events c e p :
  whistory_ok events c -> wapply (Some c) e = Ok p -> whistory_ok (events ++ [e]) p.
Proof.
  intros (Hl & Hi & Hnd & Hlast & Hno & Hs & Hp & Hout) H.
  destruct (wapply_next _ _ _ H) as (Hlp & Hseq & Hj & Hje & _ & _ & Hcase).
  split; [rewrite length_app; cbn; lia|]. split.
  { intros i e' He. apply lookup_app_Some in He as [He|[Hge He]]; [rewrite Hj; by apply Hi|].
    apply list_lookup_singleton_Some in He as [He <-]. rewrite Hj. split; [|done].
    replace i with (length events) by lia. lia. }
  destruct Hcase as [(n & r & rr & Hk & Hst & _ & _ & Ha & Hfresh & Hids & Hn & _)
                    |(st & Hn & -> & Ha)].
  - assert (Hz : forall a, sends a (events ++ [e]) = sends a events)
      by (intros a; rewrite sends_snoc, Hk; lia).
    rewrite Hids, Ha, Hn. split; [apply NoDup_app; repeat split; [done|set_solver|apply NoDup_singleton]|].
    split; [by rewrite last_snoc|]. split; [rewrite length_app; cbn; lia|].
    split; [|split; [intros _; rewrite Hz; by apply Hs | by rewrite Hst]].
    intros a. rewrite Hz. split; [apply Hs | intros Hna; apply Hs; set_solver].
  - cbn. split; [done|]. split; [done|]. split; [done|].
    assert (Hin : wp_attemptId c ∈ wp_attemptIds c) by by apply last_Some_elem_of.
    destruct (w_kind e) eqn:Hk.
    2:{ assert (Hst : wp_state c = StPrepared) by (destruct (wp_state c); done).
        rewrite Hst in Hn. injection Hn as <-. specialize (Hp Hst). split; [|split; [done|]].
        2:{ intros _ _. by rewrite sends_snoc, Hk, Ha, Hp, jseqb_refl. }
        intros a. rewrite sends_snoc, Hk, Ha. destruct (jseqb (wp_attemptId c) a) eqn:E.
        - apply jseqb_eq in E as <-. rewrite Hp. by split.
        - rewrite Z.add_0_r. apply Hs. }
    all: (split; [intros a; rewrite sends_snoc, Hk, Z.add_0_r; apply Hs|]);
      (split; [intros ->; by apply next_state_not_prepared in Hn|]);
      intros _ Hf; rewrite sends_snoc, Hk, Z.add_0_r; apply Hout; intros E; rewrite E in Hn; cbn in Hn;
      try match goal with x : WFailureCode |- _ => destruct x end; congruence.
Qed.

Lemma wfold_snoc_inv events e r :
  wfold None (events ++ [e]) = Ok r ->
  exists mid p, wfold None events = Ok mid /\ wapply mid e = Ok p /\ r = Some p.
Proof.
  generalize (@None WProjection) as cur. induction events as [|x events IH]; intros cur; cbn.
  - intros (p & Hp & <-%Ok_inj)%bind_ok_inv. eauto.
  - intros (q & Hq & H)%bind_ok_inv. rewrite Hq. cbn. by apply IH.
Qed.

(** C30: Any reprint history the reducer accepts numbers its events without gaps
    for one job, never reuses an attempt id, and transmits each attempt at most
    once, so that a second physical copy always needs a new prepared attempt;
    and an attempt held as sending, sent, unknown or verified was transmitted. *)
Theorem wrun_history_ok (events : list WEvent) (p : WProjection)
  (Hrun : wfold None events = Ok (Some p)) : whistory_ok events p.
Proof.
  revert p Hrun; induction events as [|e events IH] using rev_ind; intros p Hrun; [done|].
  apply wfold_snoc_inv in Hrun as ([c|] & q & Hmid & Happ & [= ->]).
  - by eapply whistory_snoc; [apply IH|].
  - destruct events as [|e0 events _] using rev_ind; [|apply wfold_snoc_inv in Hmid; naive_solver].
    apply wapply_first in Happ as (f & Hk & Hs & Hl & Hids & Hno & Hst & Hj & _).
    assert (Hz : forall a, sends a ([] ++ [e]) = 0) by (intros a; by rewrite sends_snoc, Hk).
    unfold whistory_ok. rewrite Hids, Hno, Hl.
    split; [done|]. split.
    { intros [|i] e' He; [|done]. injection He as <-. by rewrite Hj. }
    split; [apply NoDup_singleton|]. do 2 (split; [done|]).
    split; [intros a; by rewrite Hz|]. split; [intros _; apply Hz | by rewrite Hst].
Qed.

(** The printed artifact is frozen: no event changes the payload or the
    template of a job, and the bytes to print change only by a reprint that
    carries a replacement artifact after a failure before anything was sent. *)
Theorem reprint_artifact_frozen (c p : WProjection) (e : WEvent) (Happ : wapply (Some c) e = Ok p) :
  wp_payloadDigest p = wp_payloadDigest c /\ wp_templateDigest p = wp_templateDigest c
  /\ (wp_bytesDigest p <> wp_bytesDigest c ->
       wp_state c = StFailed /\
       exists n r a, w_kind e = WReprintPrepared n r (Some a) /\ wp_bytesDigest p = r_bytesDigest a).
Proof.
  destruct (wapply_next _ _ _ Happ) as (_ & _ & _ & _ & Hp & Ht & Hcase).
  split; [done|]. split; [done|].
  destruct Hcase as [(n & r & [a|] & Hk & _ & _ & _ & _ & _ & _ & _ & Hb)|(st & _ & -> & _)]; [|done..].
  destruct Hb. eauto 10.
Qed.
End Histories.

Section Witness.
Definition wsample_event (n : Z) (a : string) (k : WEventKind) : WEvent :=
  {| w_eventId := js_of_Z n; w_jobId := js "job"; w_sessionId := js "s"; w_attemptId := js a;
     w_operatorId := js "op"; w_sequence := n; w_occurredAt := js "t"; w_kind := k |}.

Definition wsample_digest : jsstr := replicate 64 48.

Definition wsample_facts : PreparedFacts :=
  {| pf_reason := Damaged; pf_sourceKind := SourceBox; pf_sourceId := js "id";
     pf_identity := js "046070470000000428"; pf_sourceRevision := wsample_digest;
     pf_sourceShiftId := None; pf_templateId := js "tpl"; pf_templateRevision := wsample_digest;
     pf_templateDigest := wsample_digest; pf_payloadDigest := wsample_digest;
     pf_bytesDigest := wsample_digest; pf_scanDigest := wsample_digest; pf_repair := false;
     pf_dpi := Dpi203; pf_print := MonoRasterV1 |}.

Definition wsample_rerender : WarehouseRerender :=
  {| r_bytesDigest := replicate 64 49; r_dpi := Dpi300; r_format := RRaw Zpl |}.

Definition wsample_history : list WEvent :=
  [ wsample_event 1 "A" (WPrepared wsample_facts); wsample_event 2 "A" WSending;
    wsample_event 3 "A" (WFailedBeforeSend WDriverRejected);
    wsample_event 4 "B" (WReprintPrepared 2 Lost (Some wsample_rerender)) ].

Definition any : jsstr -> bool := fun _ => true.
Definition len : jsstr -> Z := fun s => Z.of_nat (length s).

Definition wsample_state (events : list WEvent) : option WProjection :=
  match wrun any any len None events with Ok p => p | Throw _ => None end.

Lemma wrun_history_ok_witness :
  exists p, wsample_state wsample_history = Some p
    /\ whistory_ok wsample_history p /\ wp_attemptIds p = [js "a"; js "b"].
Proof.
  destruct (wsample_state wsample_history) as [p|] eqn:E; [|vm_compute in E; discriminate E].
  exists p. split; [done|]. split.
  - apply (wrun_history_ok any any len). unfold wsample_state in E.
    destruct (wrun any any len None wsample_history) as [q|] eqn:E'; [|discriminate E]. congruence.
  - vm_compute in E. injection E as <-. vm_compute. reflexivity.
Defined.

Lemma reprint_artifact_frozen_witness :
  exists c p, wp_state c = StFailed /\
    applyWarehouseReprintEvent any any len (Some c)
      (wsample_event 4 "B" (WReprintPrepared 2 Lost (Some wsample_rerender))) = Ok p /\
    wp_payloadDigest p = wp_payloadDigest c.
Proof.
  destruct (wsample_state (take 3 wsample_history)) as [c|] eqn:E; [|vm_compute in E; discriminate E].
  exists c. vm_compute in E. injection E as <-. eexists. split; [reflexivity|].
  split; [vm_compute; reflexivity|].
  eapply (proj1 (reprint_artifact_frozen any any len _ _
    (wsample_event 4 "B" (WReprintPrepared 2 Lost (Some wsample_rerender))) _)).
  Unshelve. vm_compute. reflexivity.
Defined.
End Witness.
