(* ===== verification/Repacking.v ===== *)
(** * Inventory repacking: the reducer of one station's open box

    [packages/domain/src/inventory/repacking.ts]: the state, the actions, their
    effects and [reduceInventoryRepacking] with all its branches. *)

From stdpp Require Import base list strings gmap.
From Stdlib Require Import ZArith Lia.
From S2P Require Import Prelude.

(** ** Data *)

Inductive Phase := AwaitingOldBox | Scanning | ClosedPendingPrint | Invalidated.

Inductive ObservationClass :=
  Eligible | Protected | KnownIneligible | UnknownCode | InvalidCode | DuplicateCode.

Record Membership := {
  m_eventId : jsstr; m_codeHash : jsstr; m_position : Z; m_observedAt : jsstr;
  m_productionDate : jsstr; m_sourceParentSscc : option jsstr; m_sourceParentMismatch : bool
}.

Record BoxState := {
  b_boxId : jsstr; b_oldSsccContext : jsstr; b_newSscc : jsstr; b_productionDate : jsstr;
  b_openedAt : jsstr; b_closedAt : option jsstr; b_invalidatedAt : option jsstr;
  b_items : list Membership
}.

Record RepackingState := {
  phase : Phase; ownerDeviceId : jsstr; capacity : Z; activeProductionDate : jsstr;
  oldSsccContext : option jsstr; box : option BoxState
}.

Record ObservedItem := {
  o_eventId : jsstr; o_codeHash : jsstr; o_classification : ObservationClass;
  o_observedProductionDate : jsstr; o_sourceParentSscc : option jsstr
}.

Inductive Action :=
| SelectOldBox (deviceId oldSscc boxId newSscc openedAt : jsstr)
| ObserveItem (deviceId observedAt : jsstr) (item : ObservedItem)
| ChangeActiveDate (deviceId productionDate : jsstr)
| RemoveLast (deviceId removedAt : jsstr)
| ClearOpenBox (deviceId clearedAt : jsstr)
| CloseIncomplete (deviceId : jsstr) (confirmed : bool) (closedAt : jsstr)
| AuthoritativeConflict (affectedBoxIds : list jsstr) (invalidatedAt : jsstr).

Inductive Effect :=
| OldBoxSelected
| ObservationOnly (classification : ObservationClass) (dateMismatch : bool)
| ItemAdded (position : Z) (sourceParentMismatch : bool)
| CapacityClosed (position : Z) (sourceParentMismatch : bool)
| MembershipReplay (position : Z)
| DateChanged
| LastItemRemoved (eventId : jsstr)
| BoxCleared (removedCount : Z)
| IncompleteClosed
| BoxInvalidated
| ConflictUnrelated.

Inductive FailureReason :=
  OLD_BOX_REQUIRED | OLD_BOX_ALREADY_SELECTED | FOREIGN_BOX_OWNER | PRINT_PENDING
| BOX_INVALIDATED | NON_EMPTY_BOX_DATE_FROZEN | CONFIRM_INCOMPLETE_CLOSE | BOX_EMPTY.

Inductive RepackingResult :=
| Accepted (state : RepackingState) (effect : Effect)
| Refused (state : RepackingState) (reason : FailureReason).

#[export] Instance Phase_eq_dec : EqDecision Phase.
Proof. solve_decision. Defined.
#[export] Instance ObservationClass_eq_dec : EqDecision ObservationClass.
Proof. solve_decision. Defined.

Definition result_state (r : RepackingResult) : RepackingState :=
  match r with Accepted s _ | Refused s _ => s end.

(** ** Operations *)

Definition createInventoryRepackingState (owner : jsstr) (cap : jsnum) (date : jsstr)
  : result RepackingState :=
  if negb (is_safe_integer cap) || (int_value cap <=? 0) then Throw PlainError
  else Ok {| phase := AwaitingOldBox; ownerDeviceId := owner; capacity := int_value cap;
             activeProductionDate := date; oldSsccContext := None; box := None |}.

Definition requireOwnedOpenBox (state : RepackingState) (deviceId : jsstr) : option FailureReason :=
  if negb (jseqb deviceId (ownerDeviceId state)) then Some FOREIGN_BOX_OWNER
  else if bool_decide (phase state = ClosedPendingPrint) then Some PRINT_PENDING
  else if bool_decide (phase state = Invalidated) then Some BOX_INVALIDATED
  else if negb (bool_decide (phase state = Scanning)) || negb (bool_decide (is_Some (box state)))
  then Some OLD_BOX_REQUIRED
  else None.

(** [{ ...state, phase, box }]. *)
Definition with_box (state : RepackingState) (ph : Phase) (b : BoxState) : RepackingState :=
  {| phase := ph; ownerDeviceId := ownerDeviceId state; capacity := capacity state;
     activeProductionDate := activeProductionDate state;
     oldSsccContext := oldSsccContext state; box := Some b |}.

(** [{ ...box, items, closedAt }]. *)
Definition with_items (b : BoxState) (items : list Membership) (closed : option jsstr) : BoxState :=
  {| b_boxId := b_boxId b; b_oldSsccContext := b_oldSsccContext b; b_newSscc := b_newSscc b;
     b_productionDate := b_productionDate b; b_openedAt := b_openedAt b; b_closedAt := closed;
     b_invalidatedAt := b_invalidatedAt b; b_items := items |}.

Definition with_date (b : BoxState) (date : jsstr) : BoxState :=
  {| b_boxId := b_boxId b; b_oldSsccContext := b_oldSsccContext b; b_newSscc := b_newSscc b;
     b_productionDate := date; b_openedAt := b_openedAt b; b_closedAt := b_closedAt b;
     b_invalidatedAt := b_invalidatedAt b; b_items := b_items b |}.

Definition with_invalidated (b : BoxState) (at_ : jsstr) : BoxState :=
  {| b_boxId := b_boxId b; b_oldSsccContext := b_oldSsccContext b; b_newSscc := b_newSscc b;
     b_productionDate := b_productionDate b; b_openedAt := b_openedAt b;
     b_closedAt := b_closedAt b; b_invalidatedAt := Some at_; b_items := b_items b |}.

(** The [authoritative-conflict] branch. *)
Definition reduce_conflict (state : RepackingState) (affected : list jsstr) (at_ : jsstr)
  : RepackingResult :=
  match box state with
  | None => Accepted state ConflictUnrelated
  | Some b =>
      if negb (bool_decide (b_boxId b ∈ affected)) then Accepted state ConflictUnrelated
      else if bool_decide (phase state = Invalidated) then Accepted state BoxInvalidated
      else Accepted (with_box state Invalidated (with_invalidated b at_)) BoxInvalidated
  end.

(** The [select-old-box] branch. *)
Definition reduce_select (state : RepackingState) (deviceId oldSscc boxId newSscc openedAt : jsstr)
  : RepackingResult :=
  if negb (jseqb deviceId (ownerDeviceId state)) then Refused state FOREIGN_BOX_OWNER
  else if bool_decide (phase state = ClosedPendingPrint) then Refused state PRINT_PENDING
  else if bool_decide (phase state = Invalidated) then Refused state BOX_INVALIDATED
  else if negb (bool_decide (phase state = AwaitingOldBox)) then Refused state OLD_BOX_ALREADY_SELECTED
  else
    Accepted
      {| phase := Scanning; ownerDeviceId := ownerDeviceId state; capacity := capacity state;
         activeProductionDate := activeProductionDate state; oldSsccContext := Some oldSscc;
         box := Some {| b_boxId := boxId; b_oldSsccContext := oldSscc; b_newSscc := newSscc;
                        b_productionDate := activeProductionDate state; b_openedAt := openedAt;
                        b_closedAt := None; b_invalidatedAt := None; b_items := [] |} |}
      OldBoxSelected.

(** The [observe-item] branch, on an owned open box. *)
Definition reduce_observe (state : RepackingState) (b : BoxState) (observedAt : jsstr)
  (item : ObservedItem) : RepackingResult :=
  if negb (bool_decide (o_classification item = Eligible))
  then Accepted state (ObservationOnly (o_classification item) false)
  else if negb (jseqb (o_observedProductionDate item) (b_productionDate b))
  then Accepted state (ObservationOnly Eligible true)
  else
    match List.find (fun m => jseqb (m_codeHash m) (o_codeHash item)) (b_items b) with
    | Some existing => Accepted state (MembershipReplay (m_position existing))
    | None =>
        let mismatch := negb (bool_decide (o_sourceParentSscc item = Some (b_oldSsccContext b))) in
        let position := Z.of_nat (length (b_items b)) + 1 in
        let member := {| m_eventId := o_eventId item; m_codeHash := o_codeHash item;
                         m_position := position; m_observedAt := observedAt;
                         m_productionDate := o_observedProductionDate item;
                         m_sourceParentSscc := o_sourceParentSscc item;
                         m_sourceParentMismatch := mismatch |} in
        let full := position =? capacity state in
        let nextBox := with_items b (b_items b ++ [member])
                         (if full then Some observedAt else None) in
        Accepted (with_box state (if full then ClosedPendingPrint else Scanning) nextBox)
          (if full then CapacityClosed position mismatch else ItemAdded position mismatch)
    end.

(** The branches below [requireOwnedOpenBox]. *)
Definition reduce_open (state : RepackingState) (b : BoxState) (action : Action) : RepackingResult :=
  match action with
  | ChangeActiveDate _ date =>
      if (0 <? length (b_items b))%nat then Refused state NON_EMPTY_BOX_DATE_FROZEN
      else
        Accepted {| phase := phase state; ownerDeviceId := ownerDeviceId state;
                    capacity := capacity state; activeProductionDate := date;
                    oldSsccContext := oldSsccContext state; box := Some (with_date b date) |}
          DateChanged
  | ObserveItem _ observedAt item => reduce_observe state b observedAt item
  | RemoveLast _ _ =>
      match last (b_items b) with
      | None => Refused state BOX_EMPTY
      | Some l =>
          Accepted (with_box state (phase state)
                      (with_items b (take (length (b_items b) - 1) (b_items b)) (b_closedAt b)))
            (LastItemRemoved (m_eventId l))
      end
  | ClearOpenBox _ _ =>
      Accepted (with_box state (phase state) (with_items b [] (b_closedAt b)))
        (BoxCleared (Z.of_nat (length (b_items b))))
  | CloseIncomplete _ confirmed closedAt =>
      if negb confirmed then Refused state CONFIRM_INCOMPLETE_CLOSE
      else if (length (b_items b) =? 0)%nat then Refused state BOX_EMPTY
      else Accepted (with_box state ClosedPendingPrint (with_items b (b_items b) (Some closedAt)))
             IncompleteClosed
  | SelectOldBox _ _ _ _ _ | AuthoritativeConflict _ _ => Refused state OLD_BOX_REQUIRED
  end.

Definition action_device (action : Action) : option jsstr :=
  match action with
  | SelectOldBox d _ _ _ _ | ObserveItem d _ _ | ChangeActiveDate d _ | RemoveLast d _
  | ClearOpenBox d _ | CloseIncomplete d _ _ => Some d
  | AuthoritativeConflict _ _ => None
  end.

Definition reduceInventoryRepacking (state : RepackingState) (action : Action) : RepackingResult :=
  match action with
  | AuthoritativeConflict affected at_ => reduce_conflict state affected at_
  | SelectOldBox d oldSscc boxId newSscc openedAt =>
      reduce_select state d oldSscc boxId newSscc openedAt
  | _ =>
      match requireOwnedOpenBox state (default [] (action_device action)) with
      | Some reason => Refused state reason
      | None =>
          match box state with
          | None => Refused state OLD_BOX_REQUIRED
          | Some b => reduce_open state b action
          end
      end
  end.

(** ** Invariant *)

Definition member_ok (b : BoxState) (m : Membership) : Prop :=
  m_productionDate m = b_productionDate b
  /\ m_sourceParentMismatch m = negb (bool_decide (m_sourceParentSscc m = Some (b_oldSsccContext b))).

(** The box of a session: members numbered 1, 2, ... in order, no code twice,
    all of one production date, never more than the capacity. *)
Record box_ok (s : RepackingState) (b : BoxState) : Prop := {
  bo_context : oldSsccContext s = Some (b_oldSsccContext b);
  bo_date : b_productionDate b = activeProductionDate s;
  bo_positions : map m_position (b_items b) = seqZ 1 (Z.of_nat (length (b_items b)));
  bo_hashes : NoDup (map m_codeHash (b_items b));
  bo_members : Forall (member_ok b) (b_items b);
  bo_capacity : Z.of_nat (length (b_items b)) <= capacity s
}.

(** What each phase says of the box. *)
Definition phase_ok (s : RepackingState) : Prop :=
  match phase s, box s with
  | AwaitingOldBox, None => oldSsccContext s = None
  | Scanning, Some b =>
      box_ok s b /\ b_closedAt b = None /\ b_invalidatedAt b = None
      /\ Z.of_nat (length (b_items b)) < capacity s
  | ClosedPendingPrint, Some b =>
      box_ok s b /\ is_Some (b_closedAt b) /\ b_invalidatedAt b = None /\ b_items b <> []
  | Invalidated, Some b => box_ok s b /\ is_Some (b_invalidatedAt b)
  | _, _ => False
  end.

Definition repacking_ok (s : RepackingState) : Prop := 0 < capacity s /\ phase_ok s.

Inductive reachable : RepackingState -> Prop :=
| reachable_create owner cap date s :
    createInventoryRepackingState owner cap date = Ok s -> reachable s
| reachable_reduce s action :
    reachable s -> reachable (result_state (reduceInventoryRepacking s action)).

(** ** Specification: a bounded set of codes *)

(** What a session promises, with the members as a set of code hashes. *)
Inductive Abs :=
| AbsIdle
| AbsOpen (boxId date : jsstr) (codes : gset jsstr)
| AbsClosed (boxId date : jsstr) (codes : gset jsstr)
| AbsVoid (boxId : jsstr) (codes : gset jsstr).

Inductive abs_step (owner : jsstr) (cap : Z) : Abs -> Abs -> Prop :=
| abs_select boxId date :
    abs_step owner cap AbsIdle (AbsOpen boxId date ∅)
| abs_add boxId date codes h :
    h ∉ codes -> Z.of_nat (size codes) + 1 < cap ->
    abs_step owner cap (AbsOpen boxId date codes) (AbsOpen boxId date ({[h]} ∪ codes))
| abs_fill boxId date codes h :
    h ∉ codes -> Z.of_nat (size codes) + 1 = cap ->
    abs_step owner cap (AbsOpen boxId date codes) (AbsClosed boxId date ({[h]} ∪ codes))
| abs_remove boxId date codes h :
    h ∈ codes -> abs_step owner cap (AbsOpen boxId date codes) (AbsOpen boxId date (codes ∖ {[h]}))
| abs_clear boxId date codes :
    abs_step owner cap (AbsOpen boxId date codes) (AbsOpen boxId date ∅)
| abs_redate boxId date date' :
    abs_step owner cap (AbsOpen boxId date ∅) (AbsOpen boxId date' ∅)
| abs_close boxId date codes :
    codes <> ∅ -> abs_step owner cap (AbsOpen boxId date codes) (AbsClosed boxId date codes)
| abs_void_open boxId date codes :
    abs_step owner cap (AbsOpen boxId date codes) (AbsVoid boxId codes)
| abs_void_closed boxId date codes :
    abs_step owner cap (AbsClosed boxId date codes) (AbsVoid boxId codes).

Definition box_codes (b : BoxState) : gset jsstr := list_to_set (map m_codeHash (b_items b)).

#[local] Arguments box_codes : simpl never.

Definition abs_of (s : RepackingState) : Abs :=
  match phase s, box s with
  | AwaitingOldBox, _ | _, None => AbsIdle
  | Scanning, Some b => AbsOpen (b_boxId b) (b_productionDate b) (box_codes b)
  | ClosedPendingPrint, Some b => AbsClosed (b_boxId b) (b_productionDate b) (box_codes b)
  | Invalidated, Some b => AbsVoid (b_boxId b) (box_codes b)
  end.

(** The device that may cause a change, when the action changes anything. *)
Definition authorised (s : RepackingState) (action : Action) : Prop :=
  match action_device action with
  | Some d => d = ownerDeviceId s
  | None =>
      match action, box s with
      | AuthoritativeConflict affected _, Some b => b_boxId b ∈ affected
      | _, _ => False
      end
  end.

#[export] Instance authorised_dec s action : Decision (authorised s action).
Proof. unfold authorised. destruct (action_device action), action, (box s); apply _. Defined.

(** ** Lemmas *)

Lemma repacking_create_ok owner cap date s :
  createInventoryRepackingState owner cap date = Ok s -> repacking_ok s.
Proof.
  unfold createInventoryRepackingState. destruct (_ || _) eqn:E; [done|].
  bool_hyps. intros <-%Ok_inj. split; cbn; [lia | done].
Qed.

Lemma box_ok_env s s' b :
  oldSsccContext s' = oldSsccContext s -> activeProductionDate s' = activeProductionDate s ->
  capacity s' = capacity s -> box_ok s b -> box_ok s' b.
Proof. intros H1 H2 H3 [? ? ? ? ? ?]. split; congruence. Qed.

Lemma box_ok_meta s b b' :
  b_oldSsccContext b' = b_oldSsccContext b -> b_productionDate b' = b_productionDate b ->
  b_items b' = b_items b -> box_ok s b -> box_ok s b'.
Proof.
  intros H1 H2 H3 [? ? ? ? Hm ?]. split; rewrite ?H1, ?H2, ?H3; try done.
  eapply Forall_impl; [exact Hm|]. intros m. unfold member_ok. by rewrite H1, H2.
Qed.

(** An empty box is well formed with any date. *)
Lemma box_ok_empty s b :
  0 < capacity s -> oldSsccContext s = Some (b_oldSsccContext b) ->
  b_productionDate b = activeProductionDate s -> b_items b = [] -> box_ok s b.
Proof. intros Hc Ho Hd Hi. split; rewrite ?Hi; cbn; auto; try constructor; lia. Qed.

Lemma take_seqZ_min a n k :
  take n (seqZ a (Z.of_nat k)) = seqZ a (Z.of_nat (n `min` k)).
Proof.
  unfold seqZ. rewrite firstn_map, take_seq, !Nat2Z.id. reflexivity.
Qed.

Lemma box_ok_prefix s b n :
  box_ok s b -> box_ok s (with_items b (take n (b_items b)) (b_closedAt b)).
Proof.
  intros [? ? Hp Hn Hm ?]. split; cbn; try done.
  - rewrite <- firstn_map, Hp, length_take. apply take_seqZ_min.
  - rewrite <- firstn_map. rewrite <- (take_drop n (map _ _)), NoDup_app in Hn. apply Hn.
  - by apply Forall_take.
  - rewrite length_take. lia.
Qed.

Lemma box_ok_snoc s b m closed :
  box_ok s b -> m_position m = Z.of_nat (length (b_items b)) + 1 ->
  m_codeHash m ∉ map m_codeHash (b_items b) -> member_ok b m ->
  Z.of_nat (length (b_items b)) < capacity s ->
  box_ok s (with_items b (b_items b ++ [m]) closed).
Proof.
  intros [? ? Hp Hn Hm ?] Hpos Hnew Hmem Hlt. split; cbn; try done.
  - rewrite map_app, length_app, Hp. cbn [map length].
    rewrite Nat2Z.inj_add, seqZ_app, Hpos by lia. f_equal.
    unfold seqZ. rewrite Nat2Z.id. cbn. f_equal. lia.
  - rewrite map_app. apply NoDup_app. split; [done|]. split; [set_solver|]. apply NoDup_singleton.
  - apply Forall_app. split; [done|]. by constructor.
  - rewrite length_app. cbn. lia.
Qed.

Lemma find_hash_None (items : list Membership) h :
  List.find (fun m => jseqb (m_codeHash m) h) items = None -> h ∉ map m_codeHash items.
Proof.
  intros Hf Hin. apply list_elem_of_fmap in Hin as (m & -> & Hm%list_elem_of_In).
  pose proof (find_none _ _ Hf m Hm) as H. cbn in H. by rewrite jseqb_refl in H.
Qed.

Lemma box_codes_size s b : box_ok s b -> size (box_codes b) = length (b_items b).
Proof.
  intros H. unfold box_codes. rewrite size_list_to_set by apply (bo_hashes s b H).
  by rewrite length_map.
Qed.

Lemma phase_ok_box s b :
  phase_ok s -> box s = Some b -> box_ok s b.
Proof. unfold phase_ok. intros H E. rewrite E in H. destruct (phase s); naive_solver. Qed.

(** An owned open box is a [Scanning] state with its box. *)
Lemma requireOwnedOpenBox_None s d :
  requireOwnedOpenBox s d = None <-> d = ownerDeviceId s /\ phase s = Scanning /\ is_Some (box s).
Proof.
  unfold requireOwnedOpenBox. split.
  - intros H. case_in H. bool_hyps. auto.
  - intros (-> & -> & HS). rewrite jseqb_refl, (bool_decide_eq_true_2 (is_Some _)) by done. done.
Qed.

(** The two ways an action is answered: by a branch on the open box, or by a
    guard that leaves the state alone. *)
Lemma reduce_cases s action d :
  action_device action = Some d -> (forall d' o b n t, action <> SelectOldBox d' o b n t) ->
  (exists b, d = ownerDeviceId s /\ phase s = Scanning /\ box s = Some b
     /\ reduceInventoryRepacking s action = reduce_open s b action)
  \/ (exists r, requireOwnedOpenBox s d = Some r /\ reduceInventoryRepacking s action = Refused s r).
Proof.
  intros Hd Hsel. destruct (requireOwnedOpenBox s d) as [r|] eqn:E.
  - right. exists r. split; [done|].
    destruct action; cbn in Hd |- *; simplify_eq; rewrite ?E; try done. by destruct (Hsel d oldSscc boxId newSscc openedAt).
  - left. pose proof E as (-> & Hp & b & Hb)%requireOwnedOpenBox_None. exists b.
    repeat (split; [done|]).
    destruct action; cbn in Hd |- *; simplify_eq; rewrite ?E, ?Hb; try done.
    by edestruct Hsel.
Qed.

Lemma phase_ok_scanning s b :
  phase_ok s -> phase s = Scanning -> box s = Some b ->
  box_ok s b /\ b_closedAt b = None /\ b_invalidatedAt b = None
  /\ Z.of_nat (length (b_items b)) < capacity s.
Proof. unfold phase_ok. intros H Hp Hb. by rewrite Hp, Hb in H. Qed.

Lemma with_box_ok s ph b :
  box_ok s b -> box_ok (with_box s ph b) b.
Proof. by apply box_ok_env. Qed.

(** Every action is a step of the specification, or leaves the state alone,
    and keeps the invariant. *)
Definition simulated (s s' : RepackingState) : Prop :=
  phase_ok s' /\ capacity s' = capacity s /\ ownerDeviceId s' = ownerDeviceId s
  /\ (s' = s \/ abs_step (ownerDeviceId s) (capacity s) (abs_of s) (abs_of s')).

Lemma simulated_refl s : phase_ok s -> simulated s s.
Proof. by repeat split; auto. Qed.

Lemma simulated_conflict s affected t :
  repacking_ok s -> simulated s (result_state (reduce_conflict s affected t)).
Proof.
  intros [Hc Hok]. unfold reduce_conflict.
  destruct (box s) as [b|] eqn:Eb; [|by apply simulated_refl].
  destruct (negb _); [by apply simulated_refl|].
  case_bool_decide as Hi; [by apply simulated_refl|].
  pose proof (phase_ok_box _ _ Hok Eb) as Hb. split; [|split; [done|split; [done|right]]].
  - cbn. split; [|by eauto]. by apply with_box_ok, (box_ok_meta s b).
  - unfold phase_ok in Hok. unfold abs_of. rewrite Eb in *. cbn.
    destruct (phase s); try done; constructor.
Qed.

Lemma simulated_select s d oldSscc boxId newSscc t :
  repacking_ok s -> simulated s (result_state (reduce_select s d oldSscc boxId newSscc t)).
Proof.
  intros [Hc Hok]. unfold reduce_select.
  destruct (negb (jseqb _ _)); [by apply simulated_refl|].
  do 2 (case_bool_decide; [by apply simulated_refl|]).
  case_bool_decide as Hp; cbn [negb]; [|by apply simulated_refl].
  split; [|split; [done|split; [done|right]]].
  - cbn. split; [by apply box_ok_empty|]. auto.
  - unfold abs_of. rewrite Hp. cbn. constructor.
Qed.

Lemma box_codes_snoc b m closed :
  box_codes (with_items b (b_items b ++ [m]) closed) = {[m_codeHash m]} ∪ box_codes b.
Proof.
  unfold box_codes. cbn. rewrite map_app, list_to_set_app_L. cbn. set_solver.
Qed.

Lemma simulated_observe s b t item :
  repacking_ok s -> phase s = Scanning -> box s = Some b ->
  simulated s (result_state (reduce_observe s b t item)).
Proof.
  intros [Hc Hok] Hp Eb. unfold reduce_observe.
  destruct (negb (bool_decide _)); [by apply simulated_refl|].
  destruct (jseqb _ _) eqn:Ed; cbn [negb]; [|by apply simulated_refl].
  destruct (List.find _ _) eqn:Ef; [by apply simulated_refl|].
  bool_hyps. apply find_hash_None in Ef.
  destruct (phase_ok_scanning _ _ Hok Hp Eb) as (Hb & Hcl & Hin & Hlt).
  assert (Hnew : o_codeHash item ∉ box_codes b) by (unfold box_codes; rewrite elem_of_list_to_set; done).
  pose proof (box_codes_size _ _ Hb) as Hsz.
  unfold simulated, abs_of. rewrite Hp, Eb.
  destruct (Z.eqb_spec (Z.of_nat (length (b_items b)) + 1) (capacity s)) as [E|E]; cbn;
    rewrite ?box_codes_snoc; (split; [|split; [done|split; [done|right]]]).
  1: split; [apply with_box_ok, box_ok_snoc; cbn; auto; by split|]; cbn; split; [by eauto|];
     split; [done|]; by destruct (b_items b).
  2: split; [apply with_box_ok, box_ok_snoc; cbn; auto; by split|]; cbn;
     rewrite length_app; cbn; split; [done|]; split; [done|]; lia.
  all: constructor; [done | rewrite Hsz; lia].
Qed.

Lemma simulated_remove_last s b d t :
  repacking_ok s -> phase s = Scanning -> box s = Some b ->
  simulated s (result_state (reduce_open s b (RemoveLast d t))).
Proof.
  intros [Hc Hok] Hp Eb. cbn.
  destruct (last (b_items b)) as [m|] eqn:El; [|by apply simulated_refl].
  destruct (phase_ok_scanning _ _ Hok Hp Eb) as (Hb & Hcl & Hin & Hlt).
  apply last_Some in El as [l El].
  assert (Ht : take (length (b_items b) - 1) (b_items b) = l).
  { rewrite El, length_app. cbn. apply take_app_length'. lia. }
  unfold simulated, abs_of. rewrite Hp, Eb. cbn. (split; [|split; [done|split; [done|right]]]).
  - split; [apply with_box_ok, box_ok_prefix, Hb|]. cbn. rewrite length_take.
    split; [done|]. split; [done|]. lia.
  - unfold box_codes. cbn. rewrite Ht, El, map_app, list_to_set_app_L. cbn.
    pose proof (bo_hashes _ _ Hb) as Hn. rewrite El, map_app in Hn.
    apply NoDup_app in Hn as (_ & Hn & _).
    replace (list_to_set (map m_codeHash l) : gset jsstr)
      with ((list_to_set (map m_codeHash l) ∪ ({[m_codeHash m]} ∪ ∅)) ∖ {[m_codeHash m]} : gset jsstr) at 2.
    + constructor. set_solver.
    + apply set_eq. intros x. rewrite elem_of_difference, !elem_of_union, elem_of_list_to_set.
      specialize (Hn x). cbn in Hn. set_solver.
Qed.

Lemma simulated_open s b action :
  repacking_ok s -> phase s = Scanning -> box s = Some b ->
  simulated s (result_state (reduce_open s b action)).
Proof.
  intros Hok Hp Eb. destruct action as [| |d date|d t|d t|d confirmed t|].
  - by apply simulated_refl, Hok.
  - by apply simulated_observe.
  - destruct Hok as [Hc Hok]. cbn [reduce_open].
    destruct (Nat.ltb_spec 0 (length (b_items b))); [by apply simulated_refl|].
    destruct (phase_ok_scanning _ _ Hok Hp Eb) as (Hb & Hcl & Hin & Hlt).
    assert (Hi : b_items b = []) by (destruct (b_items b); cbn in *; [done | lia]).
    unfold simulated, abs_of, phase_ok. cbn. rewrite Hp, Eb. cbn.
    split; [|split; [done|split; [done|right]]].
    + split; [|by rewrite Hi]. apply box_ok_empty; cbn; auto. apply (bo_context _ _ Hb).
    + unfold box_codes. cbn. rewrite Hi. constructor.
  - by apply simulated_remove_last.
  - destruct Hok as [Hc Hok]. destruct (phase_ok_scanning _ _ Hok Hp Eb) as (Hb & Hcl & Hin & Hlt).
    unfold simulated, abs_of, phase_ok. cbn. rewrite Hp, Eb. cbn.
    split; [|split; [done|split; [done|right; constructor]]].
    split; [|auto]. apply with_box_ok, box_ok_empty; cbn; auto; apply Hb.
  - destruct Hok as [Hc Hok]. destruct (phase_ok_scanning _ _ Hok Hp Eb) as (Hb & Hcl & Hin & Hlt).
    cbn [reduce_open]. destruct confirmed; cbn [negb]; [|by apply simulated_refl].
    destruct (Nat.eqb_spec (length (b_items b)) 0); [by apply simulated_refl|]. cbn.
    assert (Hi : b_items b <> []) by by destruct (b_items b).
    unfold simulated, abs_of, phase_ok. cbn. rewrite Hp, Eb. cbn.
    split; [|split; [done|split; [done|right]]].
    + split; [|by eauto]. by apply with_box_ok, (box_ok_meta s b).
    + change (box_codes (with_items b (b_items b) _)) with (box_codes b). constructor.
      intros E. pose proof (box_codes_size _ _ Hb) as Hs. rewrite E, size_empty in Hs. lia.
  - by apply simulated_refl, Hok.
Qed.

Lemma reduce_simulated s action :
  repacking_ok s -> simulated s (result_state (reduceInventoryRepacking s action)).
Proof.
  intros Hok. destruct (action_device action) as [d|] eqn:Ed.
  - destruct action eqn:Ea; try (by apply simulated_select); try done;
      (edestruct (reduce_cases s action d) as [(b & _ & Hp & Hb & Hr) | (r & _ & Hr)];
       [by rewrite Ea | by rewrite Ea | rewrite Ea in Hr; rewrite Hr; by apply simulated_open
       | rewrite Ea in Hr; rewrite Hr; by apply simulated_refl, Hok]).
  - destruct action; try done. by apply simulated_conflict.
Qed.

Lemma reachable_ok s : reachable s -> repacking_ok s.
Proof.
  induction 1 as [owner cap date s H|s action _ IH]; [by eapply repacking_create_ok|].
  destruct (reduce_simulated s action IH) as (Hp & Hc & _). split; [rewrite Hc; apply IH | done].
Qed.

(** The foreign devices and the guards: an unauthorised action changes nothing. *)
Lemma reduce_unauthorised s action :
  ~ authorised s action -> result_state (reduceInventoryRepacking s action) = s.
Proof.
  unfold authorised. intros H. destruct (action_device action) as [d|] eqn:Ed.
  - destruct action; cbn in Ed |- *; simplify_eq;
      try (unfold requireOwnedOpenBox; by rewrite (proj2 (jseqb_neq d (ownerDeviceId s)))).
    unfold reduce_select. by rewrite (proj2 (jseqb_neq d (ownerDeviceId s))).
  - destruct action; try done. cbn. unfold reduce_conflict. destruct (box s) as [b|]; [|done].
    by rewrite bool_decide_eq_false_2.
Qed.

(** ** Theorems *)

(** C31: in every state a session can reach from its creation by any actions
    of any devices, the phase and the box agree, the members are numbered
    1, 2, ... without a gap and hold no code twice, all carry the box's
    production date and the right parent-mismatch flag, and the box never
    exceeds its capacity; a box still scanning has room left. *)
Theorem reachable_repacking_ok s : reachable s -> repacking_ok s.
Proof. apply reachable_ok. Qed.

(** C32: the reducer implements the specification: every reachable state
    stands for a run of the bounded set of codes from the empty session, and
    every action either leaves the state as it was or is a step of that
    specification taken by the owning device (or by an authoritative conflict
    that names this box). *)
Theorem repacking_refines s :
  reachable s ->
  rtc (abs_step (ownerDeviceId s) (capacity s)) AbsIdle (abs_of s)
  /\ forall action s', s' = result_state (reduceInventoryRepacking s action) ->
     s' = s \/ (authorised s action
                /\ abs_step (ownerDeviceId s) (capacity s) (abs_of s) (abs_of s')).
Proof.
  intros Hr. split.
  - induction Hr as [owner cap date s H|s action Hr IH].
    + unfold createInventoryRepackingState in H. destruct (_ || _); [done|].
      apply Ok_inj in H as <-. constructor.
    + destruct (reduce_simulated s action (reachable_ok _ Hr)) as (_ & -> & -> & [->|Hs]); [done|].
      by eapply rtc_r.
  - intros action s' ->.
    destruct (decide (authorised s action)); [|left; by apply reduce_unauthorised].
    destruct (reduce_simulated s action (reachable_ok _ Hr)) as (_ & _ & _ & [?|?]); auto.
Qed.

(** what is settled stays settled: once the box waits for its label or is
    invalidated, no action of any device changes its members or its closing
    time, and only an authoritative conflict changes anything at all; and
    while the box is open, observing a code again that is already a member is
    answered with the position it has and changes nothing. *)
Theorem repacking_settled s b action :
  reachable s -> box s = Some b ->
  (phase s <> Scanning ->
   exists b', box (result_state (reduceInventoryRepacking s action)) = Some b'
   /\ b_items b' = b_items b /\ b_closedAt b' = b_closedAt b /\ b_newSscc b' = b_newSscc b
   /\ (action_device action <> None ->
       exists r, reduceInventoryRepacking s action = Refused s r))
  /\ (phase s = Scanning -> forall t item m,
      m ∈ b_items b -> m_codeHash m = o_codeHash item ->
      o_classification item = Eligible -> o_observedProductionDate item = b_productionDate b ->
      reduceInventoryRepacking s (ObserveItem (ownerDeviceId s) t item)
      = Accepted s (MembershipReplay (m_position m))).
Proof.
  intros Hr Eb. apply reachable_ok in Hr as [_ Hok]. split.
  - intros Hp. destruct (action_device action) as [d|] eqn:Ed.
    + assert (exists r, reduceInventoryRepacking s action = Refused s r) as [r Er].
      { unfold phase_ok in Hok. rewrite Eb in Hok.
        destruct action; try done; cbn; unfold requireOwnedOpenBox, reduce_select;
          destruct (jseqb _ _), (phase s); cbn; try done; eauto. }
      rewrite Er. cbn. exists b. repeat split; eauto.
    + destruct action; try done. cbn. unfold reduce_conflict. rewrite Eb.
      destruct (negb (bool_decide (b_boxId b ∈ _))), (bool_decide (phase s = Invalidated));
        cbn; eexists; repeat split; eauto; done.
  - intros Hp t item m Hm Hh Hc Hd. cbn. unfold requireOwnedOpenBox, reduce_observe.
    rewrite jseqb_refl, Hp, Eb, Hc, Hd, jseqb_refl. cbn.
    pose proof (bo_hashes _ _ (phase_ok_box _ _ Hok Eb)) as Hn.
    enough (List.find (fun m => jseqb (m_codeHash m) (o_codeHash item)) (b_items b) = Some m)
      as -> by done.
    clear -Hm Hh Hn. induction (b_items b) as [|x l IH]; cbn; [set_solver|].
    apply NoDup_cons in Hn as [Hx Hn]. destruct (jseqb _ _) eqn:E; bool_hyps.
    + apply elem_of_cons in Hm as [->|Hm]; [done|]. destruct Hx.
      rewrite E, <- Hh. by apply list_elem_of_fmap_2.
    + apply elem_of_cons in Hm as [->|Hm]; [congruence | by apply IH].
Qed.

(** ** Witnesses *)

Definition sample_item (h : string) : ObservedItem :=
  {| o_eventId := js "e1"; o_codeHash := js h; o_classification := Eligible;
     o_observedProductionDate := js "2026-01-02"; o_sourceParentSscc := None |}.

Definition sample_state (actions : list Action) : RepackingState :=
  fold_left (fun s a => result_state (reduceInventoryRepacking s a)) actions
    {| phase := AwaitingOldBox; ownerDeviceId := js "dev"; capacity := 2;
       activeProductionDate := js "2026-01-02"; oldSsccContext := None; box := None |}.

Definition sample_open : RepackingState :=
  sample_state [SelectOldBox (js "dev") (js "old") (js "box") (js "new") (js "t0");
                ObserveItem (js "dev") (js "t1") (sample_item "h1")].

Definition sample_member : Membership :=
  {| m_eventId := js "e1"; m_codeHash := js "h1"; m_position := 1; m_observedAt := js "t1";
     m_productionDate := js "2026-01-02"; m_sourceParentSscc := None;
     m_sourceParentMismatch := true |}.

Lemma sample_reachable actions : reachable (sample_state actions).
Proof.
  unfold sample_state. assert (H : forall s, reachable s ->
    reachable (fold_left (fun s a => result_state (reduceInventoryRepacking s a)) actions s)).
  { induction actions as [|a l IH]; cbn; [done|]. intros s Hs. by apply IH, reachable_reduce. }
  apply H, (reachable_create (js "dev") (num 2) (js "2026-01-02")). reflexivity.
Defined.

Lemma reachable_repacking_ok_witness : capacity sample_open = 2 /\ repacking_ok sample_open.
Proof. split; [reflexivity|]. apply reachable_repacking_ok, sample_reachable. Defined.

Lemma repacking_refines_witness :
  rtc (abs_step (js "dev") 2) AbsIdle
    (AbsOpen (js "box") (js "2026-01-02") {[js "h1"]}).
Proof.
  pose proof (proj1 (repacking_refines sample_open (sample_reachable _))) as H.
  replace (AbsOpen (js "box") (js "2026-01-02") {[js "h1"]}) with (abs_of sample_open)
    by (vm_compute; reflexivity).
  exact H.
Defined.

Lemma repacking_settled_witness :
  reduceInventoryRepacking sample_open (ObserveItem (js "dev") (js "t2") (sample_item "h1"))
  = Accepted sample_open (MembershipReplay 1).
Proof.
  refine (proj2 (repacking_settled sample_open _ (CloseIncomplete (js "dev") true (js "t"))
    (sample_reachable _) eq_refl) eq_refl (js "t2") (sample_item "h1") sample_member _ eq_refl eq_refl eq_refl).
  vm_compute. left.
Defined.
