(* ===== verification/OfflineGrants.v ===== *)
(** * Offline grants: trusted clock, budgets and local decisions

    [packages/domain/src/offline-grants/]: the grant contracts
    ([contracts.ts], [types.ts]), the trusted clock ([clock.ts]), the budget
    dimensions of an event ([budgets.ts]) and the decisions a device takes
    without the server ([decision.ts]).  Fields of a parsed grant are integers
    ([Z]); values the code checks at run time are [jsnum]. *)

From stdpp Require Import base list strings gmap.
From Stdlib Require Import ZArith Lia.
From S2P Require Import Prelude.

(** ** Data *)

Inductive DeviceKind := station | handheld | kiosk.
Inductive GrantCapability := shift_start | inventory_start | pickup_start.
Inductive GrantEventType :=
  shift_scan | shift_box_close | shift_pallet_close | shift_label_prepare | shift_close
| inventory_scan | inventory_repack | inventory_box_close | inventory_close | pickup_complete.
Inductive TaskKind := shift_task | inventory_task | pickup_task.
Inductive BudgetUnit := event_unit | unit_unit | container_unit.

#[export] Instance DeviceKind_eq_dec : EqDecision DeviceKind.
Proof. solve_decision. Defined.
#[export] Instance GrantCapability_eq_dec : EqDecision GrantCapability.
Proof. solve_decision. Defined.
#[export] Instance GrantEventType_eq_dec : EqDecision GrantEventType.
Proof. solve_decision. Defined.
#[export] Instance TaskKind_eq_dec : EqDecision TaskKind.
Proof. solve_decision. Defined.
#[export] Instance BudgetUnit_eq_dec : EqDecision BudgetUnit.
Proof. solve_decision. Defined.

(** The wire names. *)
Definition capability_name (c : GrantCapability) : jsstr :=
  match c with
  | shift_start => js "shift.start.v1"
  | inventory_start => js "inventory.start.v1"
  | pickup_start => js "pickup.start.v1"
  end.

Definition event_name (e : GrantEventType) : jsstr :=
  match e with
  | shift_scan => js "shift.scan.v1"
  | shift_box_close => js "shift.box.close.v1"
  | shift_pallet_close => js "shift.pallet.close.v1"
  | shift_label_prepare => js "shift.label.prepare.v1"
  | shift_close => js "shift.close.v1"
  | inventory_scan => js "inventory.scan.v1"
  | inventory_repack => js "inventory.repack.v1"
  | inventory_box_close => js "inventory.box.close.v1"
  | inventory_close => js "inventory.close.v1"
  | pickup_complete => js "pickup.complete.v1"
  end.

Definition task_name (t : TaskKind) : jsstr :=
  match t with
  | shift_task => js "shift"
  | inventory_task => js "inventory"
  | pickup_task => js "pickup"
  end.

Record GrantOwner := {
  tenantId : jsstr; deviceId : jsstr; kind : DeviceKind; credentialEpoch : Z
}.

Record GrantBase := {
  owner : GrantOwner; version : Z; issuer : jsstr; grantId : jsstr; entitlementRevision : jsstr;
  policyRevision : jsstr; issuedAt : Z; notBefore : Z
}.

Record DeviceGrant := {
  dg_base : GrantBase; startNotAfter : Z; capabilities : list GrantCapability
}.

Record BudgetLine := { bl_id : jsstr; bl_unit : BudgetUnit; bl_maximum : Z }.

Record TaskGrant := {
  tg_base : GrantBase; taskKind : TaskKind; taskId : jsstr; snapshotDigest : jsstr;
  completeNotAfter : Z; eventTypes : list GrantEventType; budget : list BudgetLine
}.

(** ** Contracts: what the Zod schemas accept *)

Definition identifier (s : jsstr) : bool := (1 <=? length s)%nat.
Definition milliseconds (z : Z) : bool := (0 <=? z) && (z <=? MAX_SAFE_INTEGER).
Definition grantOwnerSchema (o : GrantOwner) : bool :=
  identifier (tenantId o) && identifier (deviceId o)
  && ((0 <? credentialEpoch o) && (credentialEpoch o <=? MAX_SAFE_INTEGER)).

Definition base_ok (b : GrantBase) : bool :=
  grantOwnerSchema (owner b) && (version b =? 1) && identifier (issuer b) && identifier (grantId b)
  && identifier (entitlementRevision b) && identifier (policyRevision b)
  && milliseconds (issuedAt b) && milliseconds (notBefore b).

Definition budgetLineSchema (l : BudgetLine) : bool :=
  identifier (bl_id l) && milliseconds (bl_maximum l).

Definition deviceGrantSchema (g : DeviceGrant) : bool :=
  base_ok (dg_base g) && milliseconds (startNotAfter g) && (1 <=? length (capabilities g))%nat
  && ((issuedAt (dg_base g) <=? notBefore (dg_base g)) && (notBefore (dg_base g) <? startNotAfter g))
  && all_distinct (capabilities g)
  && forallb (fun c =>
       if bool_decide (kind (owner (dg_base g)) = kiosk) then bool_decide (c = pickup_start)
       else negb (bool_decide (c = pickup_start))) (capabilities g).

Definition taskGrantSchema (g : TaskGrant) : bool :=
  base_ok (tg_base g) && identifier (taskId g) && identifier (snapshotDigest g)
  && milliseconds (completeNotAfter g) && (1 <=? length (eventTypes g))%nat
  && ((1 <=? length (budget g))%nat && forallb budgetLineSchema (budget g))
  && ((issuedAt (tg_base g) <=? notBefore (tg_base g))
      && (notBefore (tg_base g) <? completeNotAfter g))
  && all_distinct (map bl_id (budget g))
  && all_distinct (eventTypes g)
  && (if bool_decide (kind (owner (tg_base g)) = kiosk) then bool_decide (taskKind g = pickup_task)
      else negb (bool_decide (taskKind g = pickup_task)))
  && forallb (fun e => starts_with (task_name (taskKind g) ++ js ".") (event_name e)) (eventTypes g).

(** ** The trusted clock *)

Record TrustedClock := {
  serverMs : jsnum; monotonicMs : jsnum; bootId : jsstr; highWaterMs : jsnum; wallHighWaterMs : jsnum
}.

Record ClockSample := { s_monotonicMs : jsnum; s_bootId : jsstr; s_wallMs : jsnum }.

(** [Number.isSafeInteger(value) && value >= 0]. *)
Definition safe (v : jsnum) : bool := is_safe_integer v && (0 <=? int_value v).

(** [None] is [{ trusted: false }].  The comparisons stand after the check
    that every operand is a nonnegative safe integer. *)
Definition assessClock (anchor : TrustedClock) (sample : ClockSample) : option Z :=
  if negb (forallb safe [serverMs anchor; monotonicMs anchor; highWaterMs anchor;
                         wallHighWaterMs anchor; s_monotonicMs sample; s_wallMs sample])
     || bool_decide (bootId anchor = [])
     || negb (jseqb (s_bootId sample) (bootId anchor))
     || (int_value (highWaterMs anchor) <? int_value (serverMs anchor))
     || (int_value (s_monotonicMs sample) <? int_value (monotonicMs anchor))
     || (int_value (s_wallMs sample) <? int_value (wallHighWaterMs anchor))
  then None
  else
    let elapsed := int_value (s_monotonicMs sample) - int_value (monotonicMs anchor) in
    if MAX_SAFE_INTEGER - int_value (serverMs anchor) <? elapsed then None
    else
      let now := int_value (serverMs anchor) + elapsed in
      if now <? int_value (highWaterMs anchor) then None else Some now.

(** ** Budgets *)

Inductive Dimension := events | units | containers.
#[export] Instance Dimension_eq_dec : EqDecision Dimension.
Proof. solve_decision. Defined.

Definition dimension_name (d : Dimension) : jsstr :=
  match d with events => js "events" | units => js "units" | containers => js "containers" end.

Definition GRANT_EVENT_DIMENSIONS (e : GrantEventType) : list Dimension :=
  match e with
  | shift_scan => [events; units]
  | shift_box_close => [events; containers]
  | shift_pallet_close => [events; containers]
  | shift_label_prepare => [events; units]
  | shift_close => [events]
  | inventory_scan => [events; units]
  | inventory_repack => [events; units]
  | inventory_box_close => [events; containers]
  | inventory_close => [events]
  | pickup_complete => [events; units; containers]
  end.

Record GrantEventBounds := {
  maxEvents : jsnum; maxUnits : option jsnum; maxContainers : option jsnum
}.

Record GrantEventFacts := { f_units : option jsnum; f_containers : option jsnum }.

(** The number a value is, when [valid] holds of it. *)
Definition valid (v : option jsnum) : option jsnum :=
  match v with Some n => if safe n then Some n else None | None => None end.

Definition line_id (e : GrantEventType) (d : Dimension) : jsstr :=
  event_name e ++ js ":" ++ dimension_name d.

Definition dimension_unit (d : Dimension) : BudgetUnit :=
  match d with events => event_unit | units => unit_unit | containers => container_unit end.

Definition bound_of (b : GrantEventBounds) (d : Dimension) : option jsnum :=
  match d with events => Some (maxEvents b) | units => maxUnits b | containers => maxContainers b end.

Definition fact_of (f : GrantEventFacts) (d : Dimension) : option jsnum :=
  match d with events => Some (num 1) | units => f_units f | containers => f_containers f end.

Definition grantEventBudget (e : GrantEventType) (bounds : GrantEventBounds)
  : option (list BudgetLine) :=
  fold_left (fun acc d =>
    result ← acc;
    maximum ← valid (bound_of bounds d);
    Some (result ++ [{| bl_id := line_id e d; bl_unit := dimension_unit d;
                        bl_maximum := int_value maximum |}]))
    (GRANT_EVENT_DIMENSIONS e) (Some []).

Definition grantEventCost (e : GrantEventType) (facts : GrantEventFacts)
  : option (gmap jsstr jsnum) :=
  fold_left (fun acc d =>
    result ← acc;
    cost ← valid (fact_of facts d);
    Some (<[line_id e d := cost]> result))
    (GRANT_EVENT_DIMENSIONS e) (Some ∅).

(** ** Decisions *)

Record GrantIntent := {
  i_owner : GrantOwner; i_capability : GrantCapability; i_taskId : jsstr; i_snapshotDigest : jsstr;
  i_eventId : jsstr; i_eventType : GrantEventType; i_cost : gmap jsstr jsnum
}.

Inductive Reason :=
  missing_grant | wrong_owner | not_yet_valid | expired | wrong_task | event_forbidden
| budget_exhausted | clock_untrusted.

Inductive LocalDecision := Allow | Deny (reason : Reason).

(** The grant fields [assessBase] reads, with the deadline of its kind. *)
Definition assessBase (grant : option (GrantBase * Z)) (intent : GrantIntent) (now : option jsnum)
  : LocalDecision :=
  match grant with
  | None => Deny missing_grant
  | Some (g, deadline) =>
      if negb (jseqb (tenantId (owner g)) (tenantId (i_owner intent)))
         || negb (jseqb (deviceId (owner g)) (deviceId (i_owner intent)))
         || negb (bool_decide (kind (owner g) = kind (i_owner intent)))
         || negb (credentialEpoch (owner g) =? credentialEpoch (i_owner intent))
      then Deny wrong_owner
      else match now with
      | None => Deny clock_untrusted
      | Some n =>
          if negb (safe n) then Deny clock_untrusted
          else if int_value n <? notBefore g then Deny not_yet_valid
          else if deadline <=? int_value n then Deny expired
          else Allow
      end
  end.

Definition assessNewWork (grant : option DeviceGrant) (intent : GrantIntent) (now : option jsnum)
  : LocalDecision :=
  match assessBase ((fun g => (dg_base g, startNotAfter g)) <$> grant) intent now, grant with
  | Allow, Some g =>
      if bool_decide (i_capability intent ∈ capabilities g) then Allow else Deny event_forbidden
  | base, _ => base
  end.

(** [new Map(grant.budget.map((line) => [line.id, line.maximum]))]: the last
    line of an id wins. *)
Definition maximums (lines : list BudgetLine) : gmap jsstr Z :=
  fold_left (fun m l => <[bl_id l := bl_maximum l]> m) lines ∅.

Definition consumed_ok (maxs : gmap jsstr Z) (entry : jsstr * jsnum) : bool :=
  let (id, used) := entry in
  match maxs !! id with
  | None => false
  | Some maximum => safe (num maximum) && safe used && (int_value used <=? maximum)
  end.

Definition cost_ok (maxs : gmap jsstr Z) (consumed : gmap jsstr jsnum) (entry : jsstr * jsnum) : bool :=
  let (id, cost) := entry in
  let used := default (num 0) (consumed !! id) in
  match maxs !! id with
  | None => false
  | Some maximum =>
      safe (num maximum) && safe cost && safe used && (int_value used <=? maximum)
      && (int_value cost <=? maximum - int_value used)
  end.

Definition assessCompletion (grant : option TaskGrant) (intent : GrantIntent) (now : option jsnum)
  (consumed : gmap jsstr jsnum) : LocalDecision :=
  match assessBase ((fun g => (tg_base g, completeNotAfter g)) <$> grant) intent now, grant with
  | Allow, Some g =>
      if negb (jseqb (taskId g) (i_taskId intent))
         || negb (jseqb (snapshotDigest g) (i_snapshotDigest intent))
         || negb (jseqb (capability_name (i_capability intent))
                        (task_name (taskKind g) ++ js ".start.v1"))
      then Deny wrong_task
      else if negb (bool_decide (i_eventType intent ∈ eventTypes g)) then Deny event_forbidden
      else if negb (forallb (consumed_ok (maximums (budget g))) (map_to_list consumed))
      then Deny budget_exhausted
      else if negb (forallb (cost_ok (maximums (budget g)) consumed) (map_to_list (i_cost intent)))
      then Deny budget_exhausted
      else Allow
  | base, _ => base
  end.

(** ** The durable commits around a decision *)

(** What [clock.ts] asks to be persisted with an accepted sample. *)
Definition commit_clock (anchor : TrustedClock) (sample : ClockSample) (now : Z) : TrustedClock :=
  {| serverMs := serverMs anchor; monotonicMs := monotonicMs anchor; bootId := bootId anchor;
     highWaterMs := num now; wallHighWaterMs := s_wallMs sample |}.

(** The times a device works at, one sample after the other. *)
Fixpoint clock_run (anchor : TrustedClock) (samples : list ClockSample) : list Z :=
  match samples with
  | [] => []
  | sample :: rest =>
      match assessClock anchor sample with
      | None => clock_run anchor rest
      | Some now => now :: clock_run (commit_clock anchor sample now) rest
      end
  end.

(** The consumption after a charge. *)
Definition charge (consumed cost : gmap jsstr jsnum) : gmap jsstr jsnum :=
  union_with (fun used c => Some (num (int_value used + int_value c))) consumed cost.

(** Completions one after the other against one grant: each allowed one is
    charged. *)
Fixpoint completion_run (g : TaskGrant) (steps : list (GrantIntent * option jsnum))
  (consumed : gmap jsstr jsnum) : gmap jsstr jsnum :=
  match steps with
  | [] => consumed
  | (intent, now) :: rest =>
      match assessCompletion (Some g) intent now consumed with
      | Allow => completion_run g rest (charge consumed (i_cost intent))
      | Deny _ => completion_run g rest consumed
      end
  end.

(** ** Lemmas on numbers and maps *)

Lemma safe_spec n : safe n = true <-> is_safe_integer n = true /\ 0 <= int_value n.
Proof. unfold safe. by rewrite andb_true_iff, Z.leb_le. Qed.

Lemma safe_num z : safe (num z) = milliseconds z.
Proof.
  unfold safe, milliseconds. autorewrite with jsnum. unfold safe_int.
  apply eq_bool_prop_intro. rewrite !andb_True, !Is_true_true, !Z.leb_le. lia.
Qed.

Lemma milliseconds_spec z : milliseconds z = true <-> 0 <= z <= MAX_SAFE_INTEGER.
Proof. unfold milliseconds. rewrite andb_true_iff, !Z.leb_le. done. Qed.

Lemma safe_bounds n : safe n = true -> 0 <= int_value n <= MAX_SAFE_INTEGER.
Proof. unfold safe, is_safe_integer. intros H. bool_hyps. lia. Qed.

Lemma maximums_fold (lines : list BudgetLine) (m : gmap jsstr Z) id :
  NoDup (map bl_id lines) ->
  forall v, fold_left (fun m l => <[bl_id l := bl_maximum l]> m) lines m !! id = Some v <->
  (exists l, l ∈ lines /\ bl_id l = id /\ bl_maximum l = v)
  \/ ((id ∉ map bl_id lines) /\ m !! id = Some v).
Proof.
  revert m. induction lines as [|l lines IH]; cbn; intros m Hn v; [set_solver|].
  apply NoDup_cons in Hn as [Hl Hn]. rewrite (IH _ Hn). setoid_rewrite elem_of_cons.
  destruct (decide (bl_id l = id)) as [<-|Hne].
  - rewrite lookup_insert_eq. set_unfold. split.
    + intros [(x & ? & ? & ?)|[? [= <-]]]; eauto 10.
    + intros [(x & [->|?] & ? & ?)|[[] ?]]; eauto 10. right. split; [done | by f_equal]. all: auto.
  - rewrite lookup_insert_ne by done. set_unfold. naive_solver.
Qed.

Lemma maximums_spec lines id v :
  NoDup (map bl_id lines) ->
  maximums lines !! id = Some v <-> exists l, l ∈ lines /\ bl_id l = id /\ bl_maximum l = v.
Proof. intros Hn. unfold maximums. rewrite maximums_fold by done. rewrite lookup_empty. naive_solver. Qed.

Lemma forallb_entries (f : jsstr * jsnum -> bool) (m : gmap jsstr jsnum) :
  forallb f (map_to_list m) = true <-> forall id v, m !! id = Some v -> f (id, v) = true.
Proof.
  rewrite forallb_forall. split; intros H.
  - intros id v Hv. by apply H, list_elem_of_In, elem_of_map_to_list.
  - intros [id v] Hin. by apply H, elem_of_map_to_list, list_elem_of_In.
Qed.

(** ** The clock *)

Lemma assessClock_Some a s now :
  assessClock a s = Some now <->
  Forall (fun v => safe v = true) [serverMs a; monotonicMs a; highWaterMs a; wallHighWaterMs a;
                                   s_monotonicMs s; s_wallMs s]
  /\ bootId a <> [] /\ s_bootId s = bootId a
  /\ int_value (serverMs a) <= int_value (highWaterMs a)
  /\ int_value (monotonicMs a) <= int_value (s_monotonicMs s)
  /\ int_value (wallHighWaterMs a) <= int_value (s_wallMs s)
  /\ now = int_value (serverMs a) + (int_value (s_monotonicMs s) - int_value (monotonicMs a))
  /\ int_value (highWaterMs a) <= now <= MAX_SAFE_INTEGER.
Proof.
  unfold assessClock. cbv zeta.
  destruct (forallb safe _) eqn:Es.
  2: { cbn [negb orb]. split; [done|]. intros [Hf _]. exfalso. revert Es. cbn.
       rewrite !Forall_cons in Hf. destruct Hf as (-> & -> & -> & -> & -> & -> & _). done. }
  assert (Forall (fun v => safe v = true) [serverMs a; monotonicMs a; highWaterMs a;
    wallHighWaterMs a; s_monotonicMs s; s_wallMs s]) as Hf by (apply Forall_forall; intros x Hx;
    apply (proj1 (forallb_forall _ _) Es), list_elem_of_In, Hx).
  cbn [negb orb]. case_match eqn:Eg.
  - split; [done|]. intros (_ & Hb & Hs & ? & ? & ? & _). exfalso.
    rewrite Hs, jseqb_refl, bool_decide_eq_false_2 in Eg by done. cbn in Eg.
    rewrite !orb_true_iff, !Z.ltb_lt in Eg. lia.
  - bool_hyps. destruct (Z.ltb_spec (MAX_SAFE_INTEGER - int_value (serverMs a))
      (int_value (s_monotonicMs s) - int_value (monotonicMs a))).
    { split; [done|]. intros (_ & _ & _ & _ & _ & _ & -> & ?). lia. }
    case_match eqn:Eh; bool_hyps.
    + split; [done|]. intros (_ & _ & _ & _ & _ & _ & -> & ?). lia.
    + split.
      * intros H'. apply (inj Some) in H' as <-. repeat (split; [done|]). lia.
      * intros (_ & _ & _ & _ & _ & _ & -> & _). done.
Qed.

(** After a commit the high-water marks only move forward. *)
Lemma clock_run_above a samples now :
  now ∈ clock_run a samples -> int_value (highWaterMs a) <= now.
Proof.
  revert a; induction samples as [|s rest IH]; cbn; intros a Hin; [set_solver|].
  destruct (assessClock a s) as [now0|] eqn:E; [|by apply IH].
  apply assessClock_Some in E. apply elem_of_cons in Hin as [->|Hin]; [tauto|].
  specialize (IH _ Hin). cbn in IH. rewrite Z.div_1_r in IH. lia.
Qed.

Lemma clock_run_sorted a samples : Sorted.StronglySorted Z.le (clock_run a samples).
Proof.
  revert a; induction samples as [|s rest IH]; cbn; intros a; [constructor|].
  destruct (assessClock a s) as [now0|] eqn:E; [|done].
  constructor; [done|]. apply Forall_forall. intros x Hx%clock_run_above.
  cbn in Hx. by rewrite Z.div_1_r in Hx.
Qed.

(** ** Base decision and completion *)

Definition owner_matches (g : GrantBase) (intent : GrantIntent) : Prop :=
  owner g = i_owner intent.

Definition in_window (g : GrantBase) (deadline : Z) (now : option jsnum) : Prop :=
  exists n, now = Some n /\ safe n = true /\ notBefore g <= int_value n < deadline.

Lemma owner_guard (o o' : GrantOwner) :
  negb (jseqb (tenantId o) (tenantId o')) || negb (jseqb (deviceId o) (deviceId o'))
  || negb (bool_decide (kind o = kind o')) || negb (credentialEpoch o =? credentialEpoch o') = false
  <-> o = o'.
Proof.
  split.
  - intros H. bool_hyps. destruct o, o'; cbn in *; by simplify_eq.
  - intros ->. by rewrite !jseqb_refl, bool_decide_eq_true_2, Z.eqb_refl.
Qed.

Lemma assessBase_Allow g deadline intent now :
  assessBase (Some (g, deadline)) intent now = Allow <->
  owner_matches g intent /\ in_window g deadline now.
Proof.
  cbn. unfold owner_matches, in_window. case_match eqn:Eg.
  - split; [done|]. intros [H%owner_guard _]. congruence.
  - apply owner_guard in Eg. destruct now as [n|]; [|naive_solver].
    destruct (safe n) eqn:Es; cbn; [|naive_solver congruence].
    destruct (Z.ltb_spec (int_value n) (notBefore g)).
    { split; [done|]. intros [_ (? & [= <-] & _ & ?)]. lia. }
    destruct (Z.leb_spec deadline (int_value n)).
    { split; [done|]. intros [_ (? & [= <-] & _ & ?)]. lia. }
    split; [|done]. intros _. split; [done|]. eexists. eauto with lia.
Qed.

(** New work is allowed exactly on a grant for this owner, in its window, that
    lists the capability. *)
Lemma assessNewWork_Allow g intent now :
  assessNewWork (Some g) intent now = Allow <->
  owner_matches (dg_base g) intent /\ in_window (dg_base g) (startNotAfter g) now
  /\ i_capability intent ∈ capabilities g.
Proof.
  unfold assessNewWork. change (_ <$> Some g) with (Some (dg_base g, startNotAfter g)).
  pose proof (assessBase_Allow (dg_base g) (startNotAfter g) intent now) as Hb.
  destruct (assessBase _ _ _) eqn:Eb; [case_bool_decide|]; naive_solver.
Qed.

(** The budget of a verified grant, as a function of the line id. *)
Definition budget_max (g : TaskGrant) (id : jsstr) (v : Z) : Prop :=
  exists l, l ∈ budget g /\ bl_id l = id /\ bl_maximum l = v.

Lemma taskGrant_budget g :
  taskGrantSchema g = true ->
  NoDup (map bl_id (budget g)) /\ Forall (fun l => milliseconds (bl_maximum l) = true) (budget g).
Proof.
  unfold taskGrantSchema. intros H. bool_hyps. split.
  - by apply all_distinct_spec.
  - apply Forall_forall. intros l Hl.
    match goal with H : forallb budgetLineSchema _ = true |- _ =>
      rewrite forallb_forall in H; specialize (H l (proj1 (list_elem_of_In _ _) Hl)) end.
    unfold budgetLineSchema in *. bool_hyps. done.
Qed.

Lemma consumed_ok_spec g id used :
  taskGrantSchema g = true ->
  consumed_ok (maximums (budget g)) (id, used) = true <->
  exists v, budget_max g id v /\ safe used = true /\ int_value used <= v.
Proof.
  intros [Hn Hm]%taskGrant_budget. cbn. destruct (maximums _ !! id) as [v|] eqn:E.
  - apply maximums_spec in E; [|done]. rewrite safe_num.
    assert (milliseconds v = true) as ->.
    { destruct E as (l & Hl & _ & <-). by apply (proj1 (Forall_forall _ _) Hm). }
    cbn. rewrite andb_true_iff, Z.leb_le. split; [intros []; exists v; auto|].
    intros (v' & Hv & ?). assert (v' = v) as ->; [|tauto].
    apply maximums_spec in Hv, E; [|done..]. congruence.
  - split; [done|]. intros (v & Hv & _). apply maximums_spec in Hv; [congruence | done].
Qed.

Lemma cost_ok_spec g consumed id cost :
  taskGrantSchema g = true ->
  cost_ok (maximums (budget g)) consumed (id, cost) = true <->
  exists v, budget_max g id v /\ safe cost = true
  /\ safe (default (num 0) (consumed !! id)) = true
  /\ int_value (default (num 0) (consumed !! id)) + int_value cost <= v.
Proof.
  intros [Hn Hm]%taskGrant_budget. unfold cost_ok.
  set (u := default (num 0) (consumed !! id)). destruct (maximums _ !! id) as [v|] eqn:E.
  - apply maximums_spec in E; [|done]. rewrite safe_num.
    assert (milliseconds v = true) as ->.
    { destruct E as (l & Hl & _ & <-). by apply (proj1 (Forall_forall _ _) Hm). }
    cbn [andb]. rewrite !andb_true_iff, !Z.leb_le. split.
    + intros [[[]]]. exists v. repeat split; auto; lia.
    + intros (v' & Hv & Hc & ?). assert (v' = v) as ->.
      { apply maximums_spec in Hv, E; [|done..]. congruence. }
      pose proof (safe_bounds _ Hc). repeat split; try tauto; lia.
  - split; [done|]. intros (v & Hv & _). apply maximums_spec in Hv; [congruence | done].
Qed.

Definition within_budget (g : TaskGrant) (consumed : gmap jsstr jsnum) : Prop :=
  forall id used, consumed !! id = Some used ->
  exists v, budget_max g id v /\ safe used = true /\ int_value used <= v.

Definition task_matches (g : TaskGrant) (intent : GrantIntent) : Prop :=
  taskId g = i_taskId intent /\ snapshotDigest g = i_snapshotDigest intent
  /\ capability_name (i_capability intent) = task_name (taskKind g) ++ js ".start.v1"
  /\ i_eventType intent ∈ eventTypes g.

Definition covers (g : TaskGrant) (consumed cost : gmap jsstr jsnum) : Prop :=
  forall id c, cost !! id = Some c ->
  exists v, budget_max g id v /\ safe c = true
  /\ safe (default (num 0) (consumed !! id)) = true
  /\ int_value (default (num 0) (consumed !! id)) + int_value c <= v.

Lemma assessCompletion_Allow g intent now consumed :
  taskGrantSchema g = true ->
  assessCompletion (Some g) intent now consumed = Allow <->
  owner_matches (tg_base g) intent /\ in_window (tg_base g) (completeNotAfter g) now
  /\ task_matches g intent /\ within_budget g consumed /\ covers g consumed (i_cost intent).
Proof.
  intros Hg. unfold assessCompletion.
  change (_ <$> Some g) with (Some (tg_base g, completeNotAfter g)).
  pose proof (assessBase_Allow (tg_base g) (completeNotAfter g) intent now) as Hb.
  destruct (assessBase _ _ _) eqn:Eb.
  2: { split; [done|]. intros (? & ? & _). by apply Hb. }
  destruct (proj1 Hb eq_refl) as [Ho Hw]. clear Hb Eb.
  assert (Hc : forallb (consumed_ok (maximums (budget g))) (map_to_list consumed) = true <->
    within_budget g consumed).
  { rewrite forallb_entries. unfold within_budget. by setoid_rewrite (consumed_ok_spec g _ _ Hg). }
  assert (Hk : forallb (cost_ok (maximums (budget g)) consumed) (map_to_list (i_cost intent)) = true
    <-> covers g consumed (i_cost intent)).
  { rewrite forallb_entries. unfold covers. by setoid_rewrite (cost_ok_spec g _ _ _ Hg). }
  unfold task_matches. split.
  - intros H. case_in H. bool_hyps. tauto.
  - intros (_ & _ & (<- & <- & -> & He) & Hwi & Hco). rewrite !jseqb_refl.
    rewrite bool_decide_eq_true_2, (proj2 Hc Hwi), (proj2 Hk Hco) by done. done.
Qed.

Lemma charge_within g consumed cost :
  taskGrantSchema g = true ->
  within_budget g consumed -> covers g consumed cost -> within_budget g (charge consumed cost).
Proof.
  intros [_ Hm]%taskGrant_budget Hw Hc id used. unfold charge. rewrite lookup_union_with.
  destruct (cost !! id) as [c|] eqn:Ec.
  - destruct (Hc _ _ Ec) as (v & Hv & Hsc & Hsu & Hle). pose proof Hv as (l & Hl & _ & Hlv).
    assert (v <= MAX_SAFE_INTEGER).
    { subst v. apply milliseconds_spec, (proj1 (Forall_forall _ _) Hm), Hl. }
    apply safe_bounds in Hsc as ?, Hsu as ?.
    destruct (consumed !! id) as [u|] eqn:Eu; cbn [default] in *; intros H'; apply (inj Some) in H' as <-.
    + exists v. split; [done|]. rewrite safe_num, milliseconds_spec, int_value_num.
      cbn in *. lia.
    + exists v. split; [done|]. split; [done|]. cbn in *. rewrite Z.div_1_r in *. lia.
  - destruct (consumed !! id) as [u|] eqn:Eu; cbn; [|done].
    intros H'. apply (inj Some) in H' as <-. by apply Hw.
Qed.

Lemma completion_run_within g steps consumed :
  taskGrantSchema g = true -> within_budget g consumed ->
  within_budget g (completion_run g steps consumed).
Proof.
  intros Hg. revert consumed. induction steps as [|[intent now] rest IH]; cbn; intros consumed Hw; [done|].
  destruct (assessCompletion _ _ _ _) eqn:E; [|by apply IH].
  apply assessCompletion_Allow in E; [|done]. apply IH, charge_within; tauto.
Qed.

(** ** Budgets and costs of an event *)

Definition budget_line (e : GrantEventType) (b : GrantEventBounds) (d : Dimension)
  : option BudgetLine :=
  maximum ← valid (bound_of b d);
  Some {| bl_id := line_id e d; bl_unit := dimension_unit d; bl_maximum := int_value maximum |}.

Lemma grantEventBudget_mapM e b :
  grantEventBudget e b = mapM (budget_line e b) (GRANT_EVENT_DIMENSIONS e).
Proof.
  unfold grantEventBudget, budget_line.
  destruct e; cbn -[valid]; destruct (valid (Some (maxEvents b))) as [n1|]; cbn -[valid]; try done;
    destruct (valid (maxUnits b)) as [n2|], (valid (maxContainers b)) as [n3|]; reflexivity.
Qed.

Lemma line_id_inj e d d' : line_id e d = line_id e d' -> d = d'.
Proof.
  unfold line_id. intros H%(inj (app _))%(inj (app _)). by destruct d, d'; vm_compute in H.
Qed.

Lemma cost_fold (e : GrantEventType) (facts : GrantEventFacts) (ds : list Dimension) (acc res : gmap jsstr jsnum) :
  NoDup ds ->
  fold_left (fun acc d =>
    result ← acc; cost ← valid (fact_of facts d); Some (<[line_id e d := cost]> result))
    ds (Some acc) = Some res ->
  forall id c, res !! id = Some c <->
  (exists d, d ∈ ds /\ id = line_id e d /\ valid (fact_of facts d) = Some c)
  \/ ((forall d, d ∈ ds -> id <> line_id e d) /\ acc !! id = Some c).
Proof.
  revert acc. induction ds as [|d ds IH]; cbn [fold_left]; intros acc Hn H id c.
  { apply (inj Some) in H as <-. set_solver. }
  apply NoDup_cons in Hn as [Hd Hn]. cbn in H.
  destruct (valid (fact_of facts d)) as [k|] eqn:Ek; cbn in H.
  2: { exfalso. clear -H. induction ds; cbn in H; auto. discriminate. }
  rewrite (IH _ Hn H id c). setoid_rewrite elem_of_cons.
  destruct (decide (id = line_id e d)) as [->|Hne].
  - rewrite lookup_insert_eq. split.
    + intros [(x & ? & ? & ?)|[? Hk]]; [left; eauto|]. left. exists d. split; [auto|]. split; [done|]. congruence.
    + intros [(x & [->|?] & Hx & ?)|[Hx _]].
      * right. split; [|congruence]. intros d' Hd' ->%line_id_inj. done.
      * apply line_id_inj in Hx as <-. done.
      * by destruct (Hx d); [left|].
  - rewrite lookup_insert_ne by done. split.
    + intros [(x & ? & ? & ?)|[? ?]]; [left; eauto|]. right. split; [|done].
      intros d' [->|?]; auto.
    + intros [(x & [->|?] & ? & ?)|[? ?]]; [done|left; eauto|right]. split; auto.
Qed.

Lemma dimensions_nodup e : NoDup (GRANT_EVENT_DIMENSIONS e).
Proof. apply all_distinct_spec. by destruct e. Qed.

Lemma grantEventCost_spec e facts cost :
  grantEventCost e facts = Some cost ->
  forall id c, cost !! id = Some c <->
  exists d, d ∈ GRANT_EVENT_DIMENSIONS e /\ id = line_id e d /\ valid (fact_of facts d) = Some c.
Proof.
  intros H id c. rewrite (cost_fold _ _ _ _ _ (dimensions_nodup e) H).
  rewrite lookup_empty. naive_solver.
Qed.

Lemma valid_Some v n : valid v = Some n <-> v = Some n /\ safe n = true.
Proof. unfold valid. destruct v; [case_match|]; naive_solver congruence. Qed.

Lemma grantEventBudget_defined e b lines :
  grantEventBudget e b = Some lines ->
  forall d, d ∈ GRANT_EVENT_DIMENSIONS e -> exists n, valid (bound_of b d) = Some n.
Proof.
  rewrite grantEventBudget_mapM. intros H%mapM_Some d [i Hd]%list_elem_of_lookup.
  destruct (Forall2_lookup_l _ _ _ _ _ H Hd) as (l & _ & Hb).
  unfold budget_line in Hb. destruct (valid _); [eauto | done].
Qed.

Lemma grantEventCost_defined e facts cost :
  grantEventCost e facts = Some cost ->
  forall d, d ∈ GRANT_EVENT_DIMENSIONS e -> exists n, valid (fact_of facts d) = Some n.
Proof.
  unfold grantEventCost. generalize (∅ : gmap jsstr jsnum).
  induction (GRANT_EVENT_DIMENSIONS e) as [|d ds IH]; intros m H d' Hd; [set_solver|].
  cbn -[valid] in H. destruct (valid (fact_of facts d)) eqn:E; cbn -[valid] in H.
  - apply elem_of_cons in Hd as [->|Hd]; eauto.
  - exfalso. clear -H. induction ds; cbn in H; [discriminate | auto].
Qed.

Lemma grantEventBudget_spec e b lines :
  grantEventBudget e b = Some lines ->
  forall id v, (exists l, l ∈ lines /\ bl_id l = id /\ bl_maximum l = v) <->
  exists d n, d ∈ GRANT_EVENT_DIMENSIONS e /\ id = line_id e d
    /\ valid (bound_of b d) = Some n /\ v = int_value n.
Proof.
  rewrite grantEventBudget_mapM. intros H%mapM_Some id v.
  split.
  - intros (l & Hl & <- & <-). apply list_elem_of_lookup in Hl as [i Hl].
    destruct (Forall2_lookup_r _ _ _ _ _ H Hl) as (d & Hd & Hb).
    unfold budget_line in Hb. destruct (valid _) eqn:E; [|done]. cbn in Hb.
    apply (inj Some) in Hb as <-. exists d, j. apply list_elem_of_lookup_2 in Hd. auto.
  - intros (d & n & Hd & -> & Hv & ->). apply list_elem_of_lookup in Hd as [i Hd].
    destruct (Forall2_lookup_l _ _ _ _ _ H Hd) as (l & Hl & Hb).
    unfold budget_line in Hb. rewrite Hv in Hb. cbn in Hb. apply (inj Some) in Hb as <-.
    eexists. split; [by eapply list_elem_of_lookup_2|]. done.
Qed.

(** ** Theorems *)

(** the trusted clock is sound: a sample is accepted exactly when it
    comes from the boot of the anchor, neither its monotonic nor its wall
    reading has gone back, and the elapsed time stays a safe integer at or
    above the high-water mark, and then the time is the server's time plus the
    monotonic time elapsed; over any series of samples, each accepted one
    committed, the times a device works at never decrease. *)
Theorem assessClock_trusted a s now samples :
  Sorted.StronglySorted Z.le (clock_run a samples)
  /\ (assessClock a s = Some now <->
      Forall (fun v => safe v = true) [serverMs a; monotonicMs a; highWaterMs a; wallHighWaterMs a;
                                       s_monotonicMs s; s_wallMs s]
      /\ bootId a <> [] /\ s_bootId s = bootId a
      /\ int_value (serverMs a) <= int_value (highWaterMs a)
      /\ int_value (monotonicMs a) <= int_value (s_monotonicMs s)
      /\ int_value (wallHighWaterMs a) <= int_value (s_wallMs s)
      /\ now = int_value (serverMs a) + (int_value (s_monotonicMs s) - int_value (monotonicMs a))
      /\ int_value (highWaterMs a) <= now <= MAX_SAFE_INTEGER).
Proof. split; [apply clock_run_sorted | apply assessClock_Some]. Qed.

(** C33: an offline completion is allowed exactly when the grant is for this
    owner, the time is inside its window, the task, snapshot and event are the
    granted ones, everything consumed so far is within the budget and the cost
    fits in what is left of each line; and over any series of completions,
    each allowed one charged, no line of the budget is ever exceeded. *)
Theorem assessCompletion_budget g intent now consumed steps :
  taskGrantSchema g = true ->
  (assessCompletion (Some g) intent now consumed = Allow <->
   owner_matches (tg_base g) intent /\ in_window (tg_base g) (completeNotAfter g) now
   /\ task_matches g intent /\ within_budget g consumed /\ covers g consumed (i_cost intent))
  /\ within_budget g (completion_run g steps ∅).
Proof.
  intros Hg. split; [by apply assessCompletion_Allow|].
  apply completion_run_within; [done|]. intros id used. by rewrite lookup_empty.
Qed.

(** budgets and costs agree on their dimensions: a grant whose budget was
    built from an event's bounds allows the first completion of that event,
    with the cost derived from the event's facts, exactly when every
    dimension's fact is within its bound (an event itself counting one). *)
Theorem grantEventBudget_admits g e bounds facts cost intent now :
  taskGrantSchema g = true ->
  grantEventBudget e bounds = Some (budget g) -> grantEventCost e facts = Some cost ->
  i_cost intent = cost -> i_eventType intent = e ->
  owner_matches (tg_base g) intent -> in_window (tg_base g) (completeNotAfter g) now ->
  task_matches g intent ->
  assessCompletion (Some g) intent now ∅ = Allow <->
  forall d, d ∈ GRANT_EVENT_DIMENSIONS e -> exists f b,
    fact_of facts d = Some f /\ bound_of bounds d = Some b /\ int_value f <= int_value b.
Proof.
  intros Hg Hb Hc Hi He Ho Hw Ht. rewrite assessCompletion_Allow by done. rewrite Hi.
  assert (Hcov : covers g ∅ cost <-> forall d, d ∈ GRANT_EVENT_DIMENSIONS e -> exists f b,
    fact_of facts d = Some f /\ bound_of bounds d = Some b /\ int_value f <= int_value b).
  2: { rewrite Hcov. split; [by intros (_ & _ & _ & _ & H)|]. intros H.
       split; [done|]. split; [done|]. split; [done|]. split; [|exact H].
       intros id used. by rewrite lookup_empty. }
  pose proof (grantEventBudget_spec _ _ _ Hb) as Hbs. pose proof (grantEventCost_spec _ _ _ Hc) as Hcs.
  unfold covers, budget_max. split.
  - intros Hcov d Hd.
    destruct (grantEventCost_defined _ _ _ Hc d Hd) as [f Hf].
    destruct (Hcov (line_id e d) f) as (v & Hv & _ & _ & Hle); [apply Hcs; eauto|].
    apply Hbs in Hv as (d' & n & _ & <-%line_id_inj & [Hn _]%valid_Some & ->).
    apply valid_Some in Hf as [Hf _]. rewrite lookup_empty in Hle. cbn in Hle. eauto.
  - intros Hall id c (d & Hd & -> & [Hf Hs]%valid_Some)%Hcs.
    destruct (Hall d Hd) as (f & b & Hf' & Hb' & Hle).
    destruct (grantEventBudget_defined _ _ _ Hb d Hd) as [n Hn].
    pose proof Hn as [Hn' _]%valid_Some. exists (int_value n).
    rewrite lookup_empty. simplify_eq. split; [apply Hbs; eauto 10|]. done.
Qed.

(** ** Witnesses *)

Definition sample_owner : GrantOwner :=
  {| tenantId := js "t"; deviceId := js "d"; kind := station; credentialEpoch := 1 |}.

Definition sample_bounds : GrantEventBounds :=
  {| maxEvents := num 10; maxUnits := Some (num 100); maxContainers := None |}.

Definition sample_grant : TaskGrant :=
  {| tg_base := {| owner := sample_owner; version := 1; issuer := js "i"; grantId := js "g";
                   entitlementRevision := js "r"; policyRevision := js "p"; issuedAt := 5;
                   notBefore := 10 |};
     taskKind := shift_task; taskId := js "task"; snapshotDigest := js "digest";
     completeNotAfter := 1000; eventTypes := [shift_scan];
     budget := default [] (grantEventBudget shift_scan sample_bounds) |}.

Definition sample_intent (n : Z) : GrantIntent :=
  {| i_owner := sample_owner; i_capability := shift_start; i_taskId := js "task";
     i_snapshotDigest := js "digest"; i_eventId := js "ev"; i_eventType := shift_scan;
     i_cost := default ∅ (grantEventCost shift_scan
                            {| f_units := Some (num n); f_containers := None |}) |}.

Lemma assessCompletion_budget_witness :
  taskGrantSchema sample_grant = true
  /\ within_budget sample_grant
       (completion_run sample_grant [(sample_intent 60, Some (num 20)); (sample_intent 60, Some (num 21))] ∅).
Proof.
  split; [vm_compute; reflexivity|].
  apply (assessCompletion_budget sample_grant (sample_intent 60) None ∅). vm_compute. reflexivity.
Defined.

Lemma grantEventBudget_admits_witness :
  assessCompletion (Some sample_grant) (sample_intent 100) (Some (num 999)) ∅ = Allow.
Proof.
  refine (proj2 (grantEventBudget_admits sample_grant shift_scan sample_bounds
    {| f_units := Some (num 100); f_containers := None |} _ (sample_intent 100) (Some (num 999))
    eq_refl eq_refl eq_refl eq_refl eq_refl eq_refl _ _) _).
  - exists (num 999). repeat split; vm_compute; congruence.
  - repeat split; vm_compute; left.
  - intros d Hd. apply list_elem_of_In in Hd. cbn in Hd.
    destruct Hd as [<-|[<-|[]]]; eexists _, _; repeat split; vm_compute; congruence.
Defined.
