(* ===== verification/DocText.v ===== *)
(** * Document text encoding

    [packages/domain/src/document-text-encoding.ts]: the comparators documents
    are sorted with and the text and CSV encoders; with a reader of the CSV
    format as their specification. *)

From stdpp Require Import base list strings gmap.
From Stdlib Require Import ZArith Lia.
From S2P Require Import Prelude Utf8.

(** ** Definitions *)

Definition compareText (left right : jsstr) : Z :=
  if js_ltb left right then -1 else if js_ltb right left then 1 else 0.

Fixpoint compareBytes (left right : list Z) : Z :=
  match left, right with
  | l :: left', r :: right' =>
      if negb (l =? r) then (if l <? r then -1 else 1) else compareBytes left' right'
  | [], [] => 0
  | [], _ :: _ => -1
  | _ :: _, [] => 1
  end.

(** The comparator of [createUtf8ByteComparator]; its cache only saves
    encoding a text twice. *)
Definition utf8ByteComparator {T} (textOf : T -> jsstr) (left right : T) : Z :=
  compareBytes (utf8_encode (textOf left)) (utf8_encode (textOf right)).

Definition encodeLfText (lines : list jsstr) : list Z :=
  if (length lines =? 0)%nat then [] else utf8_encode (join [10] lines ++ [10]).

Definition UTF8_BOM : list Z := [0xef; 0xbb; 0xbf].

(** The units that need quoting: semicolon, double quote, CR, LF. *)
Definition csv_special (c : Z) : bool := (c =? 59) || (c =? 34) || (c =? 13) || (c =? 10).

(** [value.replaceAll] of a double quote by two. *)
Fixpoint double_quotes (s : jsstr) : jsstr :=
  match s with
  | [] => []
  | c :: s' => if c =? 34 then 34 :: 34 :: double_quotes s' else c :: double_quotes s'
  end.

Definition csvField (value : jsstr) : jsstr :=
  if existsb csv_special value then 34 :: double_quotes value ++ [34] else value.

Definition csv_content (rows : list (list jsstr)) : jsstr :=
  join [13; 10] (map (fun row => join [59] (map csvField row)) rows).

Definition csv_terminated (rows : list (list jsstr)) : jsstr :=
  let content := csv_content rows in
  if (length content =? 0)%nat then [] else content ++ [13; 10].

Definition encodeSemicolonCsvRows (rows : list (list jsstr)) : list Z :=
  UTF8_BOM ++ utf8_encode (csv_terminated rows).

Definition encodeSemicolonCsv (header : list jsstr) (rows : list (list jsstr)) : list Z :=
  encodeSemicolonCsvRows (header :: rows).

(** ** The CSV format, as its reader *)

Inductive CsvMode := FieldStart | Plain | Quoted | QuoteClosed | LineEnd.

(** Reads records of [;]-separated fields, each ended by CR LF; a field with a
    special unit is quoted, a quote in it doubled. *)
Fixpoint csv_read (mode : CsvMode) (field : jsstr) (row : list jsstr) (rows : list (list jsstr))
  (s : jsstr) : option (list (list jsstr)) :=
  match s with
  | [] =>
      match mode, row with FieldStart, [] => Some rows | _, _ => None end
  | c :: s' =>
      match mode with
      | FieldStart | Plain =>
          if c =? 34 then
            match mode with FieldStart => csv_read Quoted [] row rows s' | _ => None end
          else if c =? 59 then csv_read FieldStart [] (row ++ [field]) rows s'
          else if c =? 13 then csv_read LineEnd field row rows s'
          else if c =? 10 then None
          else csv_read Plain (field ++ [c]) row rows s'
      | Quoted =>
          if c =? 34 then csv_read QuoteClosed field row rows s'
          else csv_read Quoted (field ++ [c]) row rows s'
      | QuoteClosed =>
          if c =? 34 then csv_read Quoted (field ++ [34]) row rows s'
          else if c =? 59 then csv_read FieldStart [] (row ++ [field]) rows s'
          else if c =? 13 then csv_read LineEnd field row rows s'
          else None
      | LineEnd =>
          if c =? 10 then csv_read FieldStart [] [] (rows ++ [row ++ [field]]) s' else None
      end
  end.

Definition csv_parse (s : jsstr) : option (list (list jsstr)) := csv_read FieldStart [] [] [] s.

(** Reads a file: the byte-order mark, then records in UTF-8. *)
Definition read_csv_file (bytes : list Z) : option (list (list jsstr)) :=
  match bytes with
  | b0 :: b1 :: b2 :: rest => if bool_decide ([b0; b1; b2] = UTF8_BOM) then csv_parse (utf8_decode rest) else None
  | _ => None
  end.

(** What a file can tell of some rows: a row of no fields is a line like that of one
    empty field, a table whose only line is empty is written as no line at all, and UTF-8 has no
    lone surrogates. *)
Definition row_told (row : list jsstr) : list jsstr :=
  match row with [] => [[]] | _ => map to_well_formed row end.

Definition told (rows : list (list jsstr)) : list (list jsstr) :=
  match rows with [[]] | [[[]]] => [] | _ => map row_told rows end.

(** ** Lemmas on the comparators *)

Lemma compareBytes_lex l r :
  compareBytes l r = if js_ltb l r then -1 else if js_ltb r l then 1 else 0.
Proof.
  revert r. induction l as [|a l IH]; intros [|b r]; cbn; try done.
  destruct (Z.eqb_spec a b) as [->|Hne]; cbn.
  - rewrite Z.ltb_irrefl, Z.eqb_refl. cbn. apply IH.
  - destruct (Z.ltb_spec a b) as [Hl|Hl]; cbn; [done|].
    rewrite (proj2 (Z.ltb_lt b a)) by lia. done.
Qed.

Lemma compareText_leb s t : (compareText s t <=? 0) = js_leb s t.
Proof.
  unfold compareText, js_leb. destruct (js_ltb s t) eqn:E; [by rewrite (js_ltb_asym _ _ E)|].
  by destruct (js_ltb t s).
Qed.

Lemma compareBytes_leb s t : (compareBytes s t <=? 0) = js_leb s t.
Proof. rewrite compareBytes_lex. apply compareText_leb. Qed.

#[export] Instance compareText_comparator {T} (f : T -> jsstr) :
  Comparator (fun a b => compareText (f a) (f b) <=? 0).
Proof.
  destruct (comparator_on js_leb f) as [Ht Htr].
  split; intros *; rewrite !compareText_leb; [apply Ht | apply Htr].
Qed.

#[export] Instance utf8ByteComparator_comparator {T} (f : T -> jsstr) :
  Comparator (fun a b => utf8ByteComparator f a b <=? 0).
Proof.
  destruct (comparator_on js_leb (fun x => utf8_encode (f x))) as [Ht Htr].
  split; intros *; unfold utf8ByteComparator; rewrite !compareBytes_leb; [apply Ht | apply Htr].
Qed.

(** ** Lemmas on the CSV reader *)

Definition csv_after (sep : Z) (field : jsstr) (row : list jsstr) (rows : list (list jsstr))
  (s : jsstr) : option (list (list jsstr)) :=
  if sep =? 59 then csv_read FieldStart [] (row ++ [field]) rows s
  else csv_read LineEnd field row rows s.

Lemma csv_read_plain mode v field row rows sep s :
  mode = FieldStart \/ mode = Plain -> existsb csv_special v = false -> (sep = 59 \/ sep = 13) ->
  csv_read mode field row rows (v ++ sep :: s) = csv_after sep (field ++ v) row rows s.
Proof.
  intros Hm Hv Hs. revert mode field Hm. induction v as [|c v IH]; intros mode field Hm.
  - rewrite app_nil_r. by destruct Hm as [->| ->], Hs as [->| ->].
  - cbn in Hv. apply orb_false_iff in Hv as [Hc Hv]. unfold csv_special in Hc.
    rewrite !orb_false_iff in Hc. destruct Hc as [[[H1 H2] H3] H4].
    replace (field ++ c :: v) with ((field ++ [c]) ++ v) by by rewrite <- app_assoc.
    rewrite <- (IH Hv Plain) by auto.
    destruct Hm as [->| ->]; cbn; by rewrite H1, H2, H3, H4.
Qed.

Lemma csv_read_quoted v field row rows s :
  csv_read Quoted field row rows (double_quotes v ++ 34 :: s)
  = csv_read QuoteClosed (field ++ v) row rows s.
Proof.
  revert field. induction v as [|c v IH]; intros field; cbn; [by rewrite app_nil_r|].
  replace (field ++ c :: v) with ((field ++ [c]) ++ v) by by rewrite <- app_assoc.
  destruct (Z.eqb_spec c 34) as [->|Hne]; cbn; [apply IH|].
  rewrite (proj2 (Z.eqb_neq c 34)) by done. apply IH.
Qed.

Lemma csv_read_field v row rows sep s :
  sep = 59 \/ sep = 13 ->
  csv_read FieldStart [] row rows (csvField v ++ sep :: s) = csv_after sep v row rows s.
Proof.
  intros Hs. unfold csvField. destruct (existsb csv_special v) eqn:E.
  - rewrite <- app_comm_cons, <- app_assoc. cbn. rewrite csv_read_quoted.
    by destruct Hs as [->| ->].
  - by apply csv_read_plain; auto.
Qed.

(** A row of no fields reads as one of an empty field. *)
Definition fields_of (row : list jsstr) : list jsstr := match row with [] => [[]] | _ => row end.

Lemma csv_read_row row rows s :
  csv_read FieldStart [] [] rows (join [59] (map csvField row) ++ 13 :: 10 :: s)
  = csv_read FieldStart [] [] (rows ++ [fields_of row]) s.
Proof.
  assert (H : forall row0, row <> [] ->
    csv_read FieldStart [] row0 rows (join [59] (map csvField row) ++ 13 :: 10 :: s)
    = csv_read FieldStart [] [] (rows ++ [row0 ++ row]) s).
  { induction row as [|v [|w row] IH]; intros row0 Hne; [done| |].
    - cbn [map join]. rewrite csv_read_field by auto. reflexivity.
    - change (join [59] (map csvField (v :: w :: row)))
        with (csvField v ++ 59 :: join [59] (map csvField (w :: row))).
      rewrite <- app_assoc, <- app_comm_cons, csv_read_field by auto.
      unfold csv_after. cbn [Z.eqb Pos.eqb]. rewrite IH by done. by rewrite <- app_assoc. }
  destruct row as [|v row]; [reflexivity | by apply H].
Qed.

Lemma csv_read_rows rows0 rows :
  csv_read FieldStart [] [] rows0
    (concat (map (fun row => join [59] (map csvField row) ++ [13; 10]) rows)) = Some (rows0 ++ map fields_of rows).
Proof.
  revert rows0. induction rows as [|row rows IH]; intros rows0; cbn [map concat].
  - by rewrite app_nil_r.
  - rewrite <- app_assoc. cbn [app]. rewrite csv_read_row, IH. by rewrite <- app_assoc.
Qed.

Lemma join_terminated (sep : jsstr) (parts : list jsstr) :
  parts <> [] -> join sep parts ++ sep = concat (map (fun p => p ++ sep) parts).
Proof.
  induction parts as [|p [|q parts] IH]; intros H; [done| |].
  - cbn. by rewrite app_nil_r.
  - change (join sep (p :: q :: parts)) with (p ++ sep ++ join sep (q :: parts)).
    cbn [map concat]. rewrite <- !app_assoc. do 2 f_equal. rewrite IH by done. cbn. by rewrite <- app_assoc.
Qed.

(** ** Lemmas on the bytes of a file *)

Lemma double_quotes_well_formed s : to_well_formed (double_quotes s) = double_quotes (to_well_formed s).
Proof.
  induction s as [|a s IH IH'] using pair_ind; [done|].
  destruct (surrogate a) eqn:Ea.
  - assert (Hq : forall c, surrogate c = true -> (c =? 34) = false).
    { intros c. unfold surrogate, is_high_surrogate, is_low_surrogate.
      rewrite orb_true_iff, !andb_true_iff, !Z.leb_le, Z.eqb_neq. lia. }
    cbn [double_quotes]. rewrite (Hq a Ea). destruct s as [|b s].
    + cbn [double_quotes]. rewrite well_formed_one, Ea. reflexivity.
    + specialize (IH' b s eq_refl). rewrite well_formed_two, Ea.
      destruct (is_high_surrogate a && is_low_surrogate b) eqn:E.
      * assert (Eb : surrogate b = true) by (apply andb_true_iff in E as [_ E]; unfold surrogate; by rewrite E, orb_true_r).
        cbn [double_quotes]. rewrite (Hq a Ea), (Hq b Eb), well_formed_two, E. by rewrite IH'.
      * cbn [double_quotes] in IH |- *. change (0xfffd =? 34) with false. cbv iota. rewrite <- IH.
        destruct (Z.eqb_spec b 34) as [->|Hb].
        -- rewrite well_formed_two, Ea. by rewrite andb_false_r.
        -- by rewrite well_formed_two, Ea, E.
  - rewrite well_formed_cons by done. cbn [double_quotes]. destruct (Z.eqb_spec a 34) as [->|Ha].
    + by rewrite !well_formed_cons, IH.
    + by rewrite well_formed_cons, IH.
Qed.

Lemma csvField_well_formed v : to_well_formed (csvField v) = csvField (to_well_formed v).
Proof.
  unfold csvField. rewrite existsb_well_formed; [|done|].
  - destruct (existsb csv_special v); [|done].
    rewrite well_formed_cons by done. rewrite to_well_formed_app by done. by rewrite double_quotes_well_formed.
  - intros c. unfold surrogate, csv_special, is_high_surrogate, is_low_surrogate.
    rewrite orb_true_iff, !andb_true_iff, !orb_false_iff, !Z.leb_le, !Z.eqb_neq. lia.
Qed.

Lemma join_well_formed c parts :
  surrogate c = false -> to_well_formed (join [c] parts) = join [c] (map to_well_formed parts).
Proof.
  intros Hc. induction parts as [|p [|q parts] IH]; [done|done|].
  change (join [c] (p :: q :: parts)) with (p ++ c :: join [c] (q :: parts)).
  rewrite to_well_formed_app, IH by done. reflexivity.
Qed.

Lemma lines_well_formed lines :
  to_well_formed (concat (map (fun l => l ++ [13; 10]) lines))
  = concat (map (fun l => l ++ [13; 10]) (map to_well_formed lines)).
Proof.
  induction lines as [|l lines IH]; [done|]. cbn [map concat]. rewrite <- !app_assoc. cbn [app].
  by rewrite to_well_formed_app, well_formed_cons, IH.
Qed.

Lemma units_join sep parts :
  forallb code_unit sep = true -> forallb (forallb code_unit) parts = true -> forallb code_unit (join sep parts) = true.
Proof.
  intros Hsep. induction parts as [|p [|q parts] IH]; [done| |].
  - cbn. by rewrite andb_true_r.
  - change (join sep (p :: q :: parts)) with (p ++ sep ++ join sep (q :: parts)).
    rewrite !forallb_app, Hsep. intros [Hp Hq]%andb_true_iff. by rewrite Hp, IH.
Qed.

Lemma units_field v : forallb code_unit v = true -> forallb code_unit (csvField v) = true.
Proof.
  intros H. unfold csvField. destruct (existsb _ _); [|done]. cbn [forallb]. rewrite forallb_app. cbn.
  rewrite andb_true_r. induction v as [|c v IH]; [done|]. cbn in H |- *. apply andb_true_iff in H as [Hc Hv].
  destruct (c =? 34); cbn; [by apply IH | by rewrite Hc, IH].
Qed.

(** The lines of a table, each ended by CR LF. *)
Definition csv_lines (rows : list (list jsstr)) : jsstr :=
  concat (map (fun l => l ++ [13; 10]) (map (fun row => join [59] (map csvField row)) rows)).

Lemma read_lines rows :
  forallb (forallb (forallb code_unit)) rows = true ->
  csv_parse (utf8_decode (utf8_encode (csv_lines rows))) = Some (map row_told rows).
Proof.
  intros Hu. rewrite utf8_decode_encode.
  - unfold csv_lines. rewrite lines_well_formed, !map_map.
    rewrite (map_ext _ (fun row => join [59] (map csvField (map to_well_formed row)) ++ [13; 10])).
    + pose proof (csv_read_rows [] (map (map to_well_formed) rows)) as H. rewrite !map_map in H.
      unfold csv_parse. rewrite H. cbn [app]. f_equal. apply map_ext. by intros [].
    + intros row. rewrite join_well_formed, !map_map by done. do 2 f_equal. apply map_ext, csvField_well_formed.
  - unfold csv_lines. rewrite forallb_concat, !forallb_map. rewrite forallb_forall in Hu |- *.
    intros row Hin. rewrite forallb_app, andb_true_iff. split; [|done]. apply units_join; [done|].
    rewrite forallb_map. specialize (Hu row Hin). rewrite forallb_forall in Hu |- *. intros v Hv.
    by apply units_field, Hu.
Qed.

Lemma join_nil sep (parts : list jsstr) : join [sep] parts = [] -> parts = [] \/ parts = [[]].
Proof. destruct parts as [|p [|q parts]]; [by left | cbn; intros ->; by right | by destruct p]. Qed.

Lemma csvField_nil v : csvField v = [] -> v = [].
Proof. unfold csvField. by destruct (existsb _ _). Qed.

Lemma csv_content_nil rows : csv_content rows = [] -> rows = [] \/ rows = [[]] \/ rows = [[[]]].
Proof.
  unfold csv_content. intros H. assert (Hr : map (fun row => join [59] (map csvField row)) rows = []
    \/ map (fun row => join [59] (map csvField row)) rows = [[]]).
  { destruct (map _ rows) as [|p [|q parts]]; [by left | cbn in H; subst; by right | by destruct p]. }
  destruct Hr as [Hr|Hr]; destruct rows as [|row [|r rows]]; try done; [by left|]. right.
  injection Hr as Hr. apply join_nil in Hr as [Hr|Hr].
  - left. by destruct row.
  - right. destruct row as [|v [|w row]]; try done. injection Hr as Hr. by apply csvField_nil in Hr as ->.
Qed.

(** ** Theorems *)

(** C37: reading the bytes of an exported CSV file, its byte-order mark, its UTF-8 and
    its records, by a reader that knows nothing of the encoder, gives back the rows it
    was made of, whatever the fields hold (separators, quotes, line breaks, any text of
    UTF-16 units), up to what a file cannot tell ([told]): a row of no
    fields comes back with one empty field, a table whose only line is empty comes back without rows, and a
    lone surrogate comes back as U+FFFD; so rows with at least one field each and well-formed texts, not one
    empty field alone, come back as they are. *)
Theorem encodeSemicolonCsvRows_roundtrip rows :
  forallb (forallb (forallb code_unit)) rows = true ->
  read_csv_file (encodeSemicolonCsvRows rows) = Some (told rows)
  /\ ((forall row v, row ∈ rows -> row <> [] /\ (v ∈ row -> to_well_formed v = v)) -> rows <> [[[]]] -> told rows = rows).
Proof.
  intros Hu. split.
  - unfold encodeSemicolonCsvRows, read_csv_file, UTF8_BOM. cbn [app].
    rewrite bool_decide_eq_true_2 by done. unfold csv_terminated.
    destruct (Nat.eqb_spec (length (csv_content rows)) 0) as [E|E].
    + apply nil_length_inv, csv_content_nil in E. by destruct E as [->|[->| ->]].
    + assert (El : csv_content rows ++ [13; 10] = csv_lines rows).
      { unfold csv_content, csv_lines. rewrite join_terminated; [done|]. intros H. apply E. unfold csv_content. by rewrite H. }
      rewrite El, read_lines by done. f_equal. unfold told. by repeat case_match; subst.
  - intros H Hne. assert (E : map row_told rows = rows).
    { rewrite <- (map_id rows) at 2. apply map_ext_in. intros row Hin%list_elem_of_In.
      destruct (H row [] Hin) as [Hrow _]. unfold row_told. destruct row as [|v row]; [done|].
      rewrite <- (map_id (v :: row)) at 2. apply map_ext_in. intros w Hw%list_elem_of_In. by apply (H _ w Hin). }
    unfold told. repeat case_match; subst; done.
Qed.

(** ** Witnesses *)

Definition sample_rows : list (list jsstr) := [[js "a;b"; [34; 120; 10]; [0x41f; 0xd83c; 0xdf7a]]; [js "c"; []]].

Lemma encodeSemicolonCsvRows_roundtrip_witness :
  read_csv_file (encodeSemicolonCsvRows sample_rows) = Some sample_rows.
Proof. exact (proj1 (encodeSemicolonCsvRows_roundtrip sample_rows eq_refl)). Defined.
