(* ===== verification/InventoryScan.v ===== *)
(** * Inventory scans: snapshot rows, claims and classification

    [packages/domain/src/inventory/status.ts], [snapshot.ts] and [scan.ts]:
    which codes may be disposed of, how a snapshot row is classified, and what
    a scan of an item or of a box is answered with.  SHA-256 and the locale's
    string comparison are parameters. *)

From stdpp Require Import base list strings gmap.
From Stdlib Require Import ZArith Lia.
From S2P Require Import Prelude Km.

(** ** Statuses *)

Inductive InventoryChzStatus :=
  EMITTED | INTRODUCED | APPLIED | RETIRED | WRITTEN_OFF | DISAGGREGATION.
#[export] Instance InventoryChzStatus_eq_dec : EqDecision InventoryChzStatus.
Proof. solve_decision. Defined.

Definition INVENTORY_CHZ_STATUSES : list InventoryChzStatus :=
  [EMITTED; INTRODUCED; APPLIED; RETIRED; WRITTEN_OFF; DISAGGREGATION].

Definition FILTERED_CIS_REPORT_UNAVAILABLE_PRODUCT_GROUPS : list Z := [25; 42; 44].
Definition TOBACCO_PRODUCT_GROUPS : list Z := [3; 12; 16].

Inductive ChzFilteredCisReportPolicy :=
| Supported (statuses : list InventoryChzStatus)
| ReportUnavailable
| StatusProfileUnsupported.

Definition chzFilteredCisReportPolicy (productGroupCode : Z) : ChzFilteredCisReportPolicy :=
  if bool_decide (productGroupCode ∈ FILTERED_CIS_REPORT_UNAVAILABLE_PRODUCT_GROUPS)
  then ReportUnavailable
  else if bool_decide (productGroupCode ∈ TOBACCO_PRODUCT_GROUPS) then StatusProfileUnsupported
  else Supported INVENTORY_CHZ_STATUSES.

Definition MOVING_BY_UD : jsstr := js "MOVING_BY_UD".

Definition canDisposeChzCode (status : InventoryChzStatus) (state : option jsstr) : bool :=
  bool_decide (status = INTRODUCED) && negb (bool_decide (state = Some MOVING_BY_UD)).

(** ** Snapshot rows *)

Record InventorySnapshotSourceRow := {
  ss_gtin14 : jsstr; ss_status : InventoryChzStatus; ss_state : option jsstr;
  ss_sourceProductionDate : option jsstr
}.

Record InventoryProductionDateRange := { productionDateFrom : jsstr; productionDateTo : jsstr }.

Inductive SnapshotKind :=
  SnapExpected | SnapProtected | SnapKnownIneligible | SnapInvalidMissingProductionDate.

Record InventorySnapshotClassification := {
  sc_kind : SnapshotKind; sc_expected : bool; sc_protected : bool
}.

Definition snapshot_result (k : SnapshotKind) (e p : bool) : InventorySnapshotClassification :=
  {| sc_kind := k; sc_expected := e; sc_protected := p |}.

Definition classifyInventorySnapshotRow (row : InventorySnapshotSourceRow)
  (range : InventoryProductionDateRange) : InventorySnapshotClassification :=
  if bool_decide (ss_state row = Some MOVING_BY_UD) then snapshot_result SnapProtected false true
  else if negb (canDisposeChzCode (ss_status row) (ss_state row))
  then snapshot_result SnapKnownIneligible false false
  else match ss_sourceProductionDate row with
  | None => snapshot_result SnapInvalidMissingProductionDate false false
  | Some date =>
      if js_ltb date (productionDateFrom range) || js_ltb (productionDateTo range) date
      then snapshot_result SnapKnownIneligible false false
      else snapshot_result SnapExpected true false
  end.

(** ** Scan classification *)

Inductive Origin := Expected | Protected | KnownIneligible.
#[export] Instance Origin_eq_dec : EqDecision Origin.
Proof. solve_decision. Defined.

Record InventoryScanSnapshotRow := {
  r_codeHash : jsstr; r_canonicalRaw : jsstr; r_gtin14 : jsstr; r_serial : jsstr;
  r_sourceStatus : InventoryChzStatus; r_sourceState : option jsstr;
  r_sourceProductionDate : option jsstr; r_expected : bool; r_protected : bool;
  r_parentSscc : option jsstr
}.

Record InventoryLocalClaim := {
  c_codeHash : jsstr; c_eventId : jsstr; c_deviceId : jsstr; c_scannedAt : jsstr
}.

Record InventoryScanClassifierContext := {
  taskGtin14 : jsstr;
  findSnapshotCode : jsstr -> option InventoryScanSnapshotRow;
  findSnapshotChildren : jsstr -> list InventoryScanSnapshotRow;
  findLocalClaim : jsstr -> option InventoryLocalClaim
}.

Record InventoryBoxChildClassification := {
  ch_codeHash : jsstr; ch_originClassification : Origin; ch_firstWinning : option InventoryLocalClaim
}.

Record InventoryItemIdentity := {
  it_codeHash : jsstr; it_canonicalRaw : jsstr; it_gtin14 : jsstr; it_serial : jsstr
}.

Inductive Identity :=
| ItemIdentity (item : InventoryItemIdentity)
| KnownBoxIdentity (sscc : jsstr) (children : list InventoryBoxChildClassification).

Inductive InvalidReason := Malformed | WrongGtin | Unsupported.

Inductive InventoryScanClassification :=
| IExpected (identity : Identity)
| IProtected (identity : Identity) (sourceStatus : option InventoryChzStatus)
| IKnownIneligible (identity : Identity) (sourceStatus : option InventoryChzStatus)
| IUnknownItem (item : InventoryItemIdentity)
| IUnknownBox (sscc : jsstr)
| IDuplicate (identity : Identity) (firstWinning : InventoryLocalClaim)
| IInvalid (reason : InvalidReason).

Definition origin (row : InventoryScanSnapshotRow) : Origin :=
  if bool_decide (r_sourceState row = Some MOVING_BY_UD) || r_protected row then Protected
  else if r_expected row then Expected
  else KnownIneligible.

Inductive InventoryScanSourceDate :=
| DateNone
| DateSingleItem (productionDate : jsstr)
| DateSingleBox (productionDate : jsstr)
| DateMixedBox.

Section Scan.
Context (sha256_hex : list Z -> jsstr) (localeCompare : jsstr -> jsstr -> Z).

(** [a.x.localeCompare(b.x) || ... ] on the three keys of a claim. *)
Definition claim_compare (left right : InventoryLocalClaim) : Z :=
  let c1 := localeCompare (c_scannedAt left) (c_scannedAt right) in
  if negb (c1 =? 0) then c1
  else let c2 := localeCompare (c_deviceId left) (c_deviceId right) in
  if negb (c2 =? 0) then c2
  else localeCompare (c_eventId left) (c_eventId right).

Definition firstClaim (claims : list InventoryLocalClaim) : result InventoryLocalClaim :=
  match js_sort (fun a b => claim_compare a b <=? 0) claims with
  | [] => Throw PlainError
  | first :: _ => Ok first
  end.

Definition classifyItem (raw0 : jsstr) (context : InventoryScanClassifierContext)
  : InventoryScanClassification :=
  match canonicalizeKm raw0 with
  | Throw _ => IInvalid Malformed
  | Ok km =>
      if negb (jseqb (gtin14 km) (taskGtin14 context)) then IInvalid WrongGtin
      else
        let codeHash := kmHash sha256_hex km in
        let identity := {| it_codeHash := codeHash; it_canonicalRaw := raw km;
                           it_gtin14 := gtin14 km; it_serial := serial km |} in
        match findLocalClaim context codeHash with
        | Some existing => IDuplicate (ItemIdentity identity) existing
        | None =>
            match findSnapshotCode context codeHash with
            | None => IUnknownItem identity
            | Some snapshot =>
                match origin snapshot with
                | Protected => IProtected (ItemIdentity identity) (Some (r_sourceStatus snapshot))
                | KnownIneligible =>
                    IKnownIneligible (ItemIdentity identity) (Some (r_sourceStatus snapshot))
                | Expected => IExpected (ItemIdentity identity)
                end
            end
        end
  end.

Definition box_child (context : InventoryScanClassifierContext) (row : InventoryScanSnapshotRow)
  : InventoryBoxChildClassification :=
  {| ch_codeHash := r_codeHash row; ch_originClassification := origin row;
     ch_firstWinning := findLocalClaim context (r_codeHash row) |}.

Definition unclaimed_child (child : InventoryBoxChildClassification) : bool :=
  negb (bool_decide (is_Some (ch_firstWinning child))).

Definition has_origin (o : Origin) (child : InventoryBoxChildClassification) : bool :=
  bool_decide (ch_originClassification child = o).

Definition classifyInventoryScan (raw0 : jsstr) (context : InventoryScanClassifierContext)
  : result InventoryScanClassification :=
  match classifyScan raw0 with
  | ScanKm _ => Ok (classifyItem raw0 context)
  | ScanSscc sscc =>
      let snapshotChildren := findSnapshotChildren context sscc in
      if (length snapshotChildren =? 0)%nat then Ok (IUnknownBox sscc)
      else
        let children := map (box_child context) snapshotChildren in
        let unclaimed := List.filter unclaimed_child children in
        let identity := KnownBoxIdentity sscc children in
        if (length unclaimed =? 0)%nat then
          first ← firstClaim (omap ch_firstWinning children);
          Ok (IDuplicate identity first)
        else if existsb (has_origin Expected) unclaimed then Ok (IExpected identity)
        else if existsb (has_origin Protected) unclaimed then Ok (IProtected identity None)
        else Ok (IKnownIneligible identity None)
  | ScanGtin _ => Ok (IInvalid Unsupported)
  | ScanUnknown _ => Ok (IInvalid Malformed)
  end.

(** The loop over the children: the one date met so far. *)
Fixpoint children_date (unclaimed : gset jsstr) (rows : list InventoryScanSnapshotRow)
  (productionDate : option jsstr) : InventoryScanSourceDate :=
  match rows with
  | [] => match productionDate with None => DateNone | Some d => DateSingleBox d end
  | row :: rows' =>
      match r_sourceProductionDate row with
      | None => children_date unclaimed rows' productionDate
      | Some d =>
          if negb (bool_decide (r_codeHash row ∈ unclaimed))
          then children_date unclaimed rows' productionDate
          else match productionDate with
               | Some p => if negb (jseqb p d) then DateMixedBox
                           else children_date unclaimed rows' (Some d)
               | None => children_date unclaimed rows' (Some d)
               end
      end
  end.

Definition resolveInventoryScanSourceDate (classification : InventoryScanClassification)
  (context : InventoryScanClassifierContext) : InventoryScanSourceDate :=
  match classification with
  | IExpected (ItemIdentity item) =>
      match findSnapshotCode context (it_codeHash item) ≫= r_sourceProductionDate with
      | None => DateNone
      | Some d => DateSingleItem d
      end
  | IExpected (KnownBoxIdentity sscc children) =>
      let unclaimed := list_to_set (map ch_codeHash
        (List.filter (fun c => unclaimed_child c && has_origin Expected c) children)) in
      children_date unclaimed (findSnapshotChildren context sscc) None
  | _ => DateNone
  end.
End Scan.

(** ** The locale's comparison *)

(** What ECMAScript documents of [localeCompare]: a consistent comparison
    whose sign turns around with its arguments. *)
Class LocaleCompare (cmp : jsstr -> jsstr -> Z) : Prop := {
  locale_antisym : forall a b, Z.sgn (cmp b a) = - Z.sgn (cmp a b);
  locale_trans : forall a b c, cmp a b <= 0 -> cmp b c <= 0 -> cmp a c <= 0
}.

Section Locale.
Context (cmp : jsstr -> jsstr -> Z) `{!LocaleCompare cmp}.

Lemma locale_lt_trans a b c : cmp a b < 0 -> cmp b c <= 0 -> cmp a c < 0.
Proof.
  intros H1 H2. assert (H3 : cmp a c <= 0) by (apply (locale_trans a b c); lia).
  destruct (Z.eq_dec (cmp a c) 0) as [E|]; [|lia].
  pose proof (locale_antisym a c). pose proof (locale_antisym a b).
  assert (cmp b a <= 0) by (apply (locale_trans b c a); lia). lia.
Qed.

Lemma locale_le_lt_trans a b c : cmp a b <= 0 -> cmp b c < 0 -> cmp a c < 0.
Proof.
  intros H1 H2. assert (H3 : cmp a c <= 0) by (apply (locale_trans a b c); lia).
  destruct (Z.eq_dec (cmp a c) 0) as [E|]; [|lia].
  pose proof (locale_antisym a c). pose proof (locale_antisym b c).
  assert (cmp c b <= 0) by (apply (locale_trans c a b); lia). lia.
Qed.

(** Comparing by a first key and, on a tie, by [next]. *)
Lemma claim_compare_key {A} (key : A -> jsstr) (next : A -> A -> Z) :
  Comparator (fun a b => next a b <=? 0) ->
  Comparator (fun a b => (if negb (cmp (key a) (key b) =? 0) then cmp (key a) (key b)
                          else next a b) <=? 0).
Proof.
  intros [Ht Htr]. split.
  - intros a b. pose proof (locale_antisym (key a) (key b)).
    destruct (Z.eqb_spec (cmp (key a) (key b)) 0), (Z.eqb_spec (cmp (key b) (key a)) 0);
      cbn; rewrite !Z.leb_le; try lia. specialize (Ht a b). rewrite !Z.leb_le in Ht. done.
  - intros a b c. specialize (Htr a b c). revert Htr.
    destruct (Z.eqb_spec (cmp (key a) (key b)) 0), (Z.eqb_spec (cmp (key b) (key c)) 0),
      (Z.eqb_spec (cmp (key a) (key c)) 0); cbn; rewrite !Z.leb_le; intros Htr H1 H2; auto.
    all: try (apply (locale_trans _ (key b)); lia).
    + pose proof (locale_le_lt_trans (key a) (key b) (key c)). lia.
    + pose proof (locale_lt_trans (key a) (key b) (key c)). lia.
    + pose proof (locale_lt_trans (key a) (key b) (key c)). lia.
Qed.

#[export] Instance claim_compare_comparator :
  Comparator (fun a b => claim_compare cmp a b <=? 0).
Proof.
  unfold claim_compare. apply (claim_compare_key c_scannedAt). apply (claim_compare_key c_deviceId).
  split; intros *; rewrite !Z.leb_le; [|apply locale_trans].
  pose proof (locale_antisym (c_eventId a) (c_eventId b)). lia.
Qed.

Lemma firstClaim_spec claims :
  claims <> [] -> exists w, firstClaim cmp claims = Ok w
  /\ (w ∈ claims) /\ forall c, c ∈ claims -> claim_compare cmp w c <= 0.
Proof.
  intros Hne. unfold firstClaim. destruct (js_sort _ claims) as [|w rest] eqn:E.
  - destruct Hne. apply Permutation_nil. rewrite <- E. apply js_sort_perm.
  - exists w. split; [done|]. apply js_sort_head in E as [Hw Hmin].
    + split; [done|]. intros c Hc. by apply Z.leb_le, Hmin.
    + apply claim_compare_comparator.
Qed.
End Locale.

(** ** Lemmas *)

Lemma unclaimed_child_spec c : unclaimed_child c = true <-> ch_firstWinning c = None.
Proof.
  unfold unclaimed_child. rewrite negb_true_iff, bool_decide_eq_false.
  destruct (ch_firstWinning c); naive_solver.
Qed.

Lemma existsb_origin o (l : list InventoryBoxChildClassification) :
  existsb (has_origin o) (List.filter unclaimed_child l) = true <->
  exists c, c ∈ l /\ ch_firstWinning c = None /\ ch_originClassification c = o.
Proof.
  rewrite existsb_exists. setoid_rewrite filter_In. setoid_rewrite <- list_elem_of_In.
  setoid_rewrite unclaimed_child_spec. unfold has_origin. setoid_rewrite bool_decide_eq_true.
  naive_solver.
Qed.

Lemma no_unclaimed (l : list InventoryBoxChildClassification) :
  (length (List.filter unclaimed_child l) =? 0)%nat = true <->
  forall c, c ∈ l -> is_Some (ch_firstWinning c).
Proof.
  rewrite Nat.eqb_eq, length_zero_iff_nil. split.
  - intros E c Hc%list_elem_of_In. destruct (ch_firstWinning c) eqn:Ec; [eauto|].
    apply unclaimed_child_spec in Ec.
    assert (In c (List.filter unclaimed_child l)) as Hin by by apply filter_In.
    by rewrite E in Hin.
  - intros H. induction l as [|c l IH]; [done|]. cbn.
    destruct (H c) as [w Hw]; [left|]. unfold unclaimed_child at 1. rewrite Hw. cbn.
    apply IH. intros d Hd. apply H. by right.
Qed.

Definition child_dates (hashes : gset jsstr) (rows : list InventoryScanSnapshotRow) : list jsstr :=
  omap (fun r => if bool_decide (r_codeHash r ∈ hashes) then r_sourceProductionDate r else None) rows.

Lemma children_date_Some hashes rows p :
  (Forall (eq p) (child_dates hashes rows) /\ children_date hashes rows (Some p) = DateSingleBox p)
  \/ (Exists (fun d => d <> p) (child_dates hashes rows)
      /\ children_date hashes rows (Some p) = DateMixedBox).
Proof.
  induction rows as [|r rows IH]; cbn; [left; auto|].
  destruct (r_sourceProductionDate r) as [d|] eqn:Ed; [|case_bool_decide; exact IH].
  case_bool_decide as Hin; cbn [negb]; [|exact IH].
  destruct (jseqb p d) eqn:Ep; bool_hyps; cbn [negb].
  - subst d. destruct IH as [[? ?]|[? ?]]; [left; auto | right; auto].
  - right. split; [|done]. by left.
Qed.

(** What the loop over the children answers: no date, the one date they agree
    on, or that they disagree. *)
Lemma children_date_spec hashes rows :
  match children_date hashes rows None with
  | DateNone => child_dates hashes rows = []
  | DateSingleBox d => child_dates hashes rows <> [] /\ Forall (eq d) (child_dates hashes rows)
  | DateMixedBox => exists a b, (a ∈ child_dates hashes rows) /\ (b ∈ child_dates hashes rows) /\ a <> b
  | DateSingleItem _ => False
  end.
Proof.
  induction rows as [|r rows IH]; cbn; [done|].
  destruct (r_sourceProductionDate r) as [d|]; [|case_bool_decide; exact IH].
  case_bool_decide as Hin; cbn [negb]; [|exact IH].
  destruct (children_date_Some hashes rows d) as [[Hf ->]|[He ->]]; cbn.
  - split; [done|]. by constructor.
  - apply Exists_exists in He as (x & Hx & Hne). exists d, x. unfold child_dates in Hx. set_solver.
Qed.

(** A snapshot row as it is stored: with the verdict of its source. *)
Definition stored_row (src : InventorySnapshotSourceRow) (range : InventoryProductionDateRange)
  (codeHash canonicalRaw serial : jsstr) (parent : option jsstr) : InventoryScanSnapshotRow :=
  let verdict := classifyInventorySnapshotRow src range in
  {| r_codeHash := codeHash; r_canonicalRaw := canonicalRaw; r_gtin14 := ss_gtin14 src;
     r_serial := serial; r_sourceStatus := ss_status src; r_sourceState := ss_state src;
     r_sourceProductionDate := ss_sourceProductionDate src; r_expected := sc_expected verdict;
     r_protected := sc_protected verdict; r_parentSscc := parent |}.

Lemma origin_stored src range h cr s p :
  origin (stored_row src range h cr s p) =
  match sc_kind (classifyInventorySnapshotRow src range) with
  | SnapExpected => Expected
  | SnapProtected => Protected
  | SnapKnownIneligible | SnapInvalidMissingProductionDate => KnownIneligible
  end.
Proof.
  unfold origin, stored_row, classifyInventorySnapshotRow. cbn.
  case_bool_decide; cbn; [done|].
  destruct (canDisposeChzCode _ _); cbn; [|done].
  destruct (ss_sourceProductionDate src); [|done]. by destruct (_ || _).
Qed.

Lemma snapshot_expected src range :
  sc_kind (classifyInventorySnapshotRow src range) = SnapExpected ->
  canDisposeChzCode (ss_status src) (ss_state src) = true
  /\ exists d, ss_sourceProductionDate src = Some d
     /\ js_leb (productionDateFrom range) d = true /\ js_leb d (productionDateTo range) = true.
Proof.
  unfold classifyInventorySnapshotRow, js_leb. intros H. case_in H. bool_hyps.
  split; [done|]. eexists. rewrite !negb_true_iff. eauto.
Qed.

(** ** Theorems *)

Section ScanTheorems.
Context (sha256_hex : list Z -> jsstr) (localeCompare : jsstr -> jsstr -> Z).

Definition live_child (children : list InventoryBoxChildClassification) (o : Origin) : Prop :=
  exists c, c ∈ children /\ ch_firstWinning c = None /\ ch_originClassification c = o.

(** What a box scan promises of its verdict. *)
Definition box_verdict_ok (context : InventoryScanClassifierContext) (sscc : jsstr)
  (verdict : InventoryScanClassification) : Prop :=
  let children := map (box_child context) (findSnapshotChildren context sscc) in
  match verdict with
  | IUnknownBox s => s = sscc /\ children = []
  | IDuplicate identity first =>
      identity = KnownBoxIdentity sscc children /\ children <> []
      /\ (forall c, c ∈ children -> is_Some (ch_firstWinning c))
      /\ (exists c, c ∈ children /\ ch_firstWinning c = Some first)
      /\ (forall c w, c ∈ children -> ch_firstWinning c = Some w ->
          claim_compare localeCompare first w <= 0)
  | IExpected identity =>
      identity = KnownBoxIdentity sscc children /\ live_child children Expected
  | IProtected identity status =>
      identity = KnownBoxIdentity sscc children /\ status = None
      /\ live_child children Protected /\ ~ live_child children Expected
  | IKnownIneligible identity status =>
      identity = KnownBoxIdentity sscc children /\ status = None
      /\ live_child children KnownIneligible
      /\ ~ live_child children Expected /\ ~ live_child children Protected
  | _ => False
  end.

(** C34: the scan of a box (an SSCC) always gets a verdict, and the right one:
    a box the snapshot does not know is unknown; a box whose every code is
    already claimed is a duplicate of the earliest claim; otherwise the best
    unclaimed child decides, expected before protected before ineligible. *)
Theorem classifyInventoryScan_box raw0 context sscc :
  LocaleCompare localeCompare -> classifyScan raw0 = ScanSscc sscc ->
  exists verdict, classifyInventoryScan sha256_hex localeCompare raw0 context = Ok verdict
  /\ box_verdict_ok context sscc verdict.
Proof.
  intros Hl Hs. unfold classifyInventoryScan. rewrite Hs.
  set (children := map (box_child context) (findSnapshotChildren context sscc)).
  destruct (Nat.eqb_spec (length (findSnapshotChildren context sscc)) 0) as [E|E].
  { eexists. split; [done|]. apply nil_length_inv in E. cbn. by rewrite E. }
  assert (Hne : children <> []).
  { unfold children. by destruct (findSnapshotChildren context sscc). }
  destruct (length (List.filter unclaimed_child children) =? 0)%nat eqn:Eu.
  - pose proof (proj1 (no_unclaimed children) Eu) as Hall.
    destruct (firstClaim_spec localeCompare (omap ch_firstWinning children)) as (w & -> & Hw & Hmin).
    { destruct children as [|c l]; [done|]. destruct (Hall c) as [x Hx]; [left|]. cbn. by rewrite Hx. }
    eexists. split; [reflexivity|]. cbn. repeat (split; [done|]). split.
    + by apply list_elem_of_omap in Hw.
    + intros c v Hc Hv. apply Hmin, list_elem_of_omap. eauto.
  - assert (exists c, c ∈ children /\ ch_firstWinning c = None) as (c & Hc & Hn).
    { apply not_true_iff_false in Eu. rewrite no_unclaimed, <- Forall_forall in Eu.
      apply not_Forall_Exists, Exists_exists in Eu as (c & ? & ?); [|apply _].
      exists c. split; [done|]. by apply eq_None_not_Some. }
    destruct (existsb (has_origin Expected) _) eqn:Ee; [apply existsb_origin in Ee; by eexists|].
    apply not_true_iff_false in Ee. rewrite existsb_origin in Ee.
    destruct (existsb (has_origin Protected) _) eqn:Ep; [apply existsb_origin in Ep; by eexists|].
    apply not_true_iff_false in Ep. rewrite existsb_origin in Ep.
    eexists. split; [done|]. repeat (split; [done|]). split; [|done].
    exists c. repeat (split; [done|]).
    destruct (ch_originClassification c) eqn:Eo; [destruct Ee | destruct Ep | done]; exists c; done.
Qed.

(** a snapshot row and the first scan of its code agree: the code is
    expected exactly when its source row was disposable (introduced and not in
    a document move) with a production date inside the task's range, and then
    the scan's source date is that date; it is protected exactly when it is in
    a document move; anything else is known but ineligible. *)
Theorem classifyInventoryScan_item raw0 context km src range cr s p :
  classifyScan raw0 = ScanKm km -> gtin14 km = taskGtin14 context ->
  findLocalClaim context (kmHash sha256_hex km) = None ->
  findSnapshotCode context (kmHash sha256_hex km)
    = Some (stored_row src range (kmHash sha256_hex km) cr s p) ->
  exists verdict, classifyInventoryScan sha256_hex localeCompare raw0 context = Ok verdict
  /\ match verdict with
     | IExpected _ =>
         canDisposeChzCode (ss_status src) (ss_state src) = true
         /\ exists d, ss_sourceProductionDate src = Some d
            /\ js_leb (productionDateFrom range) d = true
            /\ js_leb d (productionDateTo range) = true
            /\ resolveInventoryScanSourceDate verdict context = DateSingleItem d
     | IProtected _ status =>
         ss_state src = Some MOVING_BY_UD /\ status = Some (ss_status src)
         /\ resolveInventoryScanSourceDate verdict context = DateNone
     | IKnownIneligible _ status =>
         ss_state src <> Some MOVING_BY_UD /\ status = Some (ss_status src)
         /\ (ss_status src <> INTRODUCED \/ ss_sourceProductionDate src = None
             \/ exists d, ss_sourceProductionDate src = Some d
                /\ (js_ltb d (productionDateFrom range) = true
                    \/ js_ltb (productionDateTo range) d = true))
         /\ resolveInventoryScanSourceDate verdict context = DateNone
     | _ => False
     end.
Proof.
  intros Hs Hg Hcl Hsn. unfold classifyInventoryScan. rewrite Hs. eexists. split; [reflexivity|].
  unfold classifyItem. rewrite (classifyScan_km _ _ Hs), Hg, jseqb_refl. cbn [negb].
  rewrite Hcl, Hsn, origin_stored.
  destruct (sc_kind (classifyInventorySnapshotRow src range)) eqn:E.
  - apply snapshot_expected in E as (Hd & d & Hp & Hf & Ht). split; [done|]. exists d.
    repeat (split; [done|]). cbn [resolveInventoryScanSourceDate it_codeHash]. rewrite Hsn. cbn.
    by rewrite Hp.
  - revert E. unfold classifyInventorySnapshotRow. case_bool_decide; [done|].
    destruct (negb _); [done|]. destruct (ss_sourceProductionDate src); [|done]. by destruct (_ || _).
  - revert E. unfold classifyInventorySnapshotRow. case_bool_decide as Hm; [done|].
    unfold canDisposeChzCode. rewrite (bool_decide_eq_false_2 (ss_state src = _)) by done.
    intros E. split; [done|]. split; [done|]. split; [|done].
    case_bool_decide as Hi; [|by left]. cbn in E. right.
    destruct (ss_sourceProductionDate src) as [d|]; [|done]. right. exists d. split; [done|].
    apply orb_true_iff. by destruct (_ || _).
  - revert E. unfold classifyInventorySnapshotRow. case_bool_decide as Hm; [done|]. intros E.
    split; [done|]. split; [done|]. split; [|done].
    destruct (negb _) in E; [done|]. right. left.
    destruct (ss_sourceProductionDate src); [|done]. by destruct (_ || _) in E.
Qed.
End ScanTheorems.

(** ** Witnesses *)

Definition unit_compare (a b : jsstr) : Z :=
  if js_ltb a b then -1 else if js_ltb b a then 1 else 0.

Lemma unit_compare_locale : LocaleCompare unit_compare.
Proof.
  unfold unit_compare. split.
  - intros a b. destruct (js_ltb a b) eqn:E; [by rewrite (js_ltb_asym _ _ E)|].
    by destruct (js_ltb b a).
  - assert (H : forall a b, unit_compare a b <= 0 <-> js_leb a b = true).
    { intros a b. unfold unit_compare, js_leb.
      destruct (js_ltb a b) eqn:E; [rewrite (js_ltb_asym _ _ E); done|].
      by destruct (js_ltb b a). }
    intros a b c. fold (unit_compare a b) (unit_compare b c) (unit_compare a c).
    rewrite !H. apply comparator_trans.
Defined.

Definition sample_source : InventorySnapshotSourceRow :=
  {| ss_gtin14 := js "04607047110905"; ss_status := INTRODUCED; ss_state := None;
     ss_sourceProductionDate := Some (js "2026-01-05") |}.
Definition sample_range : InventoryProductionDateRange :=
  {| productionDateFrom := js "2026-01-01"; productionDateTo := js "2026-01-31" |}.
Definition sample_hash : list Z -> jsstr := fun bytes => bytes.
Definition sample_code_hash : jsstr := js "0104607047110905" ++ js "21SER1234".

Definition sample_context (claimed : bool) : InventoryScanClassifierContext :=
  {| taskGtin14 := js "04607047110905";
     findSnapshotCode := fun h =>
       Some (stored_row sample_source sample_range h [] (js "SER1234") None);
     findSnapshotChildren := fun _ =>
       [stored_row sample_source sample_range sample_code_hash [] (js "SER1234") None];
     findLocalClaim := fun h =>
       if claimed then Some {| c_codeHash := h; c_eventId := js "e"; c_deviceId := js "d";
                               c_scannedAt := js "t" |} else None |}.

Lemma classifyInventoryScan_box_witness :
  exists verdict,
    classifyInventoryScan sample_hash unit_compare (js "004607047000000017") (sample_context true)
    = Ok verdict /\ box_verdict_ok unit_compare (sample_context true) (js "004607047000000017") verdict.
Proof.
  apply classifyInventoryScan_box; [apply unit_compare_locale|].
  vm_compute. reflexivity.
Defined.

Lemma classifyInventoryScan_item_witness :
  exists verdict, classifyInventoryScan sample_hash unit_compare sample_km (sample_context false)
    = Ok verdict
  /\ resolveInventoryScanSourceDate verdict (sample_context false)
     = DateSingleItem (js "2026-01-05").
Proof.
  destruct (classifyScan sample_km) as [km| | |] eqn:E; try discriminate E.
  assert (Hkm : kmHash sample_hash km = sample_code_hash /\ gtin14 km = js "04607047110905").
  { vm_compute in E. injection E as <-. vm_compute. auto. }
  destruct Hkm as [Hh Hg].
  destruct (classifyInventoryScan_item sample_hash unit_compare sample_km (sample_context false) km
    sample_source sample_range [] (js "SER1234") None E) as (verdict & Hv & H).
  - rewrite Hg. reflexivity.
  - reflexivity.
  - reflexivity.
  - exists verdict. split; [exact Hv|]. destruct verdict.
    1: { destruct H as (_ & d & Hd & _ & _ & Hr). rewrite Hr. vm_compute in Hd. injection Hd as <-.
         vm_compute. reflexivity. }
    all: exfalso; vm_compute in Hv; discriminate Hv.
Defined.
