(* ===== verification/InventorySync.v ===== *)
(** * Inventory station sync: event batches, outcomes and progress pages

    [packages/domain/src/inventory/station-sync.ts]: the wire contracts of the
    events a station uploads, the parser of the server's answer to a batch and
    the parser of a progress page.  The date checkers of Zod and the SHA-256
    digest of a payload are parameters. *)

From stdpp Require Import base list strings gmap.
From Stdlib Require Import ZArith Lia.
From S2P Require Import Prelude.

(** ** Leaf schemas *)

Definition INVENTORY_EVENT_BATCH_SIZE : Z := 100.
Definition INVENTORY_PROGRESS_PAGE_SIZE : Z := 200.
Definition INVENTORY_EVENT_CLAIM_OUTCOME_SIZE : Z := 10000.
Definition INVENTORY_EVENT_BATCH_CLAIM_OUTCOME_SIZE : Z := 10000.

(** [/^C1C2...Cn$/] for classes [Ci]. *)
Fixpoint match_classes (cs : list (Z -> bool)) (s : jsstr) : bool :=
  match cs, s with
  | [], [] => true
  | p :: cs', c :: s' => p c && match_classes cs' s'
  | _, _ => false
  end.

(** [[0-9a-f]]. *)
Definition is_hex (c : Z) : bool := is_digit c || ((97 <=? c) && (c <=? 102)).
Definition is_dash (c : Z) : bool := c =? 45.

Definition uuid_classes : list (Z -> bool) :=
  replicate 8 is_hex ++ [is_dash] ++ replicate 4 is_hex ++ [is_dash]
  ++ [fun c => (49 <=? c) && (c <=? 56)] ++ replicate 3 is_hex ++ [is_dash]
  ++ [fun c => (c =? 56) || (c =? 57) || (c =? 97) || (c =? 98)] ++ replicate 3 is_hex ++ [is_dash]
  ++ replicate 12 is_hex.

Definition uuidSchema (s : jsstr) : bool := match_classes uuid_classes s.
Definition hashSchema (s : jsstr) : bool := (length s =? 64)%nat && forallb is_hex s.

(** [.int().positive().safe()] and [.int().nonnegative().safe()]. *)
Definition positive_safe (z : Z) : bool := (0 <? z) && (z <=? MAX_SAFE_INTEGER).
Definition nonnegative_safe (z : Z) : bool := (0 <=? z) && (z <=? MAX_SAFE_INTEGER).
(** [.min(a).max(b)] of a string or an array. *)
Definition length_within {A} (a b : Z) (s : list A) : bool :=
  (a <=? Z.of_nat (length s)) && (Z.of_nat (length s) <=? b).
(** [.nullable()]. *)
Definition nullable {A} (p : A -> bool) (v : option A) : bool :=
  match v with None => true | Some x => p x end.

(** [INVENTORY_PROGRESS_CURSOR_PATTERN]. *)
Definition inventoryProgressCursorSchema (s : jsstr) : bool :=
  match index_of 58 s with
  | None => false
  | Some i =>
      match take i s with
      | [] => false
      | c :: ds => (49 <=? c) && (c <=? 57) && forallb is_digit ds && uuidSchema (drop (S i) s)
      end
  end.

(** ** Events *)

Inductive PrintError :=
  template_missing | printer_unconfigured | render_failed | transport_failed | persistence_failed.

Record PrintOutcomeShape := {
  po_boxId : jsstr; po_sscc : jsstr; po_attemptId : jsstr; po_attemptNumber : Z;
  po_printed : bool; po_errorCode : option PrintError; po_attemptedAt : jsstr; po_completedAt : jsstr
}.

Inductive InventoryRepackMutation :=
| MOpenBox (boxId oldSscc newSscc : jsstr) (capacity : Z) (productionDate : jsstr)
| MAddItem (boxId itemId : jsstr) (position : Z) (closeBox : bool)
| MRemoveLast (boxId itemId changedAt : jsstr)
| MClearBox (boxId changedAt : jsstr)
| MCloseIncomplete (boxId changedAt : jsstr)
| MChangeDate (boxId productionDate changedAt : jsstr)
| MResolveConflict (boxId changedAt : jsstr)
| MPrintOutcome (p : PrintOutcomeShape)
| MReprintOutcome (p : PrintOutcomeShape).

Inductive EventKind := item | known_box | old_box | repack_action.
Inductive LocalVerdict :=
  v_expected | v_protected | v_known_ineligible | v_unknown | v_duplicate | v_repack_action.
#[export] Instance EventKind_eq_dec : EqDecision EventKind.
Proof. solve_decision. Defined.
#[export] Instance LocalVerdict_eq_dec : EqDecision LocalVerdict.
Proof. solve_decision. Defined.

Record InventoryEvent := {
  eventId : jsstr; deviceSequence : Z; operatorId : jsstr; scannedAt : jsstr; kind : EventKind;
  normalizedIdentity : jsstr; codeHash : option jsstr; canonicalRaw : option jsstr;
  activeProductionDate : option jsstr; localVerdict : LocalVerdict;
  repack : option InventoryRepackMutation
}.

Record InventoryEventBatchPayload := {
  snapshotId : jsstr; snapshotRevision : Z; sequenceCeiling : Z; pendingEventCount : Z;
  openBoxCount : Z; events : list InventoryEvent
}.

Record InventoryEventBatch := {
  batch_payload : InventoryEventBatchPayload; batchId : jsstr; payloadDigest : jsstr
}.

(** ** Outcomes *)

Record InventoryClaimWinner := {
  w_codeHash : jsstr; w_eventId : jsstr; w_deviceId : jsstr; w_scannedAt : jsstr
}.

Inductive ClaimStatus := claimed | claim_duplicate.
Inductive OutcomeStatus := applied | replay | duplicate | rejected | quarantined.
Inductive ReasonCode :=
  CLAIM_APPLIED | CLAIM_LOST | BATCH_REPLAY | INVENTORY_EVENT_REJECTED | INVENTORY_CLOSED
| INVENTORY_COMPLETED.
#[export] Instance ClaimStatus_eq_dec : EqDecision ClaimStatus.
Proof. solve_decision. Defined.
#[export] Instance OutcomeStatus_eq_dec : EqDecision OutcomeStatus.
Proof. solve_decision. Defined.
#[export] Instance ReasonCode_eq_dec : EqDecision ReasonCode.
Proof. solve_decision. Defined.

Record InventoryEventClaimOutcome := {
  cl_codeHash : jsstr; cl_status : ClaimStatus; cl_winner : InventoryClaimWinner
}.

Record InventoryEventOutcome := {
  oc_eventId : jsstr; oc_status : OutcomeStatus; oc_reasonCode : ReasonCode;
  oc_claimedCount : Z; oc_conflictCount : Z; oc_claims : list InventoryEventClaimOutcome
}.

Record InventoryEventBatchResponse := {
  rs_inventoryId : jsstr; rs_snapshotId : jsstr; rs_snapshotRevision : Z; rs_batchId : jsstr;
  rs_payloadDigest : jsstr; rs_sequenceCeiling : Z; rs_resultRevision : Z;
  rs_outcomes : list InventoryEventOutcome
}.

(** ** Progress *)

Inductive ProgressClass := p_expected | p_protected | p_ineligible | p_unknown | p_voided.

Inductive ProgressDetail :=
| ClaimChange (correction : bool) (hash : jsstr) (classification : ProgressClass)
    (observedProductionDate : option jsstr) (winner : option InventoryClaimWinner)
| RemoveItem (boxId resultId hash ownerDeviceId removedAt : jsstr)
| InvalidateBox (boxId ownerDeviceId : jsstr)
| Reprint (boxId ownerDeviceId : jsstr).

Record InventoryProgressChange := {
  ch_id : jsstr; ch_revision : Z; ch_correctedAt : jsstr; ch_detail : ProgressDetail
}.

Record InventoryProgressPage := {
  pg_inventoryId : jsstr; pg_snapshotId : jsstr; pg_snapshotRevision : Z; pg_cursor : option jsstr;
  pg_resultRevision : Z; pg_items : list InventoryProgressChange; pg_nextCursor : option jsstr
}.

Record ExpectedInventoryProgressPage := {
  ex_inventoryId : jsstr; ex_snapshotId : jsstr; ex_cursor : option jsstr;
  ex_minimumResultRevision : Z
}.

Section Schemas.
Context (civilDateSchema instantSchema : jsstr -> bool).

Definition inventoryPrintOutcomeShape (p : PrintOutcomeShape) : bool :=
  uuidSchema (po_boxId p) && digits_n 18 (po_sscc p) && uuidSchema (po_attemptId p)
  && positive_safe (po_attemptNumber p) && instantSchema (po_attemptedAt p)
  && instantSchema (po_completedAt p).

Definition inventoryRepackMutationSchema (m : InventoryRepackMutation) : bool :=
  match m with
  | MOpenBox boxId oldSscc newSscc capacity productionDate =>
      uuidSchema boxId && digits_n 18 oldSscc && digits_n 18 newSscc && positive_safe capacity
      && civilDateSchema productionDate
  | MAddItem boxId itemId position closeBox =>
      uuidSchema boxId && uuidSchema itemId && positive_safe position
  | MRemoveLast boxId itemId changedAt =>
      uuidSchema boxId && uuidSchema itemId && instantSchema changedAt
  | MClearBox boxId changedAt | MCloseIncomplete boxId changedAt | MResolveConflict boxId changedAt =>
      uuidSchema boxId && instantSchema changedAt
  | MChangeDate boxId productionDate changedAt =>
      uuidSchema boxId && civilDateSchema productionDate && instantSchema changedAt
  | MPrintOutcome p | MReprintOutcome p => inventoryPrintOutcomeShape p
  end.

(** [`repack_action:${action}:${...}`]. *)
Definition repack_identity (action : string) (boxId : jsstr) : jsstr :=
  js "repack_action:" ++ js action ++ js ":" ++ boxId.

(** A [repack_action] event carries no code. *)
Definition codeless (event : InventoryEvent) : bool :=
  bool_decide (kind event = repack_action) && bool_decide (codeHash event = None)
  && bool_decide (canonicalRaw event = None)
  && bool_decide (localVerdict event = v_repack_action).

Definition print_ok (event : InventoryEvent) (action : string) (p : PrintOutcomeShape) : bool :=
  codeless event
  && jseqb (normalizedIdentity event)
       (repack_identity action (po_boxId p) ++ js ":" ++ js_of_Z (po_attemptNumber p))
  && (if po_printed p then bool_decide (po_errorCode p = None)
      else bool_decide (is_Some (po_errorCode p))).

(** The [superRefine] of [inventoryEventSchema]. *)
Definition repack_matches (event : InventoryEvent) : bool :=
  match repack event with
  | None => negb (bool_decide (kind event = repack_action))
  | Some (MOpenBox _ oldSscc _ _ _) =>
      bool_decide (kind event = old_box) && bool_decide (codeHash event = None)
      && bool_decide (canonicalRaw event = Some oldSscc)
      && jseqb (normalizedIdentity event) (js "old_box:" ++ oldSscc)
  | Some (MAddItem _ _ _ _) => bool_decide (kind event = item)
  | Some (MRemoveLast boxId _ _) =>
      codeless event && jseqb (normalizedIdentity event) (repack_identity "remove-last" boxId)
  | Some (MClearBox boxId _) =>
      codeless event && jseqb (normalizedIdentity event) (repack_identity "clear-box" boxId)
  | Some (MCloseIncomplete boxId _) =>
      codeless event && jseqb (normalizedIdentity event) (repack_identity "close-incomplete" boxId)
  | Some (MChangeDate boxId _ _) =>
      codeless event && jseqb (normalizedIdentity event) (repack_identity "change-date" boxId)
  | Some (MResolveConflict boxId _) =>
      codeless event && jseqb (normalizedIdentity event) (repack_identity "resolve-conflict" boxId)
  | Some (MPrintOutcome p) => print_ok event "print-outcome" p
  | Some (MReprintOutcome p) => print_ok event "reprint-outcome" p
  end.

Definition inventoryEventSchema (event : InventoryEvent) : bool :=
  uuidSchema (eventId event) && positive_safe (deviceSequence event) && uuidSchema (operatorId event)
  && instantSchema (scannedAt event) && length_within 1 1024 (normalizedIdentity event)
  && nullable hashSchema (codeHash event)
  && nullable (length_within 1 2048) (canonicalRaw event)
  && nullable civilDateSchema (activeProductionDate event)
  && nullable inventoryRepackMutationSchema (repack event)
  && repack_matches event.

(** The loop of the payload's [superRefine]: no issue is added. *)
Fixpoint events_ordered (l : list InventoryEvent) (eventIds : gset jsstr) (sequences : gset Z)
  (prior : Z) : bool :=
  match l with
  | [] => true
  | event :: l' =>
      negb (bool_decide (eventId event ∈ eventIds))
      && negb (bool_decide (deviceSequence event ∈ sequences))
      && negb (deviceSequence event <=? prior)
      && events_ordered l' ({[eventId event]} ∪ eventIds) ({[deviceSequence event]} ∪ sequences)
           (deviceSequence event)
  end.

Definition inventoryEventBatchPayloadSchema (p : InventoryEventBatchPayload) : bool :=
  uuidSchema (snapshotId p) && (snapshotRevision p =? 1) && positive_safe (sequenceCeiling p)
  && nonnegative_safe (pendingEventCount p) && nonnegative_safe (openBoxCount p)
  && length_within 1 INVENTORY_EVENT_BATCH_SIZE (events p) && forallb inventoryEventSchema (events p)
  && events_ordered (events p) ∅ ∅ 0
  && bool_decide (deviceSequence <$> last (events p) = Some (sequenceCeiling p)).

(** The SHA-256 of the payload's canonical JSON. *)
Context (inventoryEventBatchDigest : InventoryEventBatchPayload -> jsstr).

Definition inventoryEventBatchSchema (b : InventoryEventBatch) : bool :=
  inventoryEventBatchPayloadSchema (batch_payload b) && length_within 1 128 (batchId b)
  && hashSchema (payloadDigest b)
  && jseqb (inventoryEventBatchDigest (batch_payload b)) (payloadDigest b).

Definition parseInventoryEventBatch (value : InventoryEventBatch) : result InventoryEventBatch :=
  if inventoryEventBatchSchema value then Ok value else Throw PlainError.

Definition inventoryClaimWinnerSchema (w : InventoryClaimWinner) : bool :=
  hashSchema (w_codeHash w) && uuidSchema (w_eventId w) && uuidSchema (w_deviceId w)
  && instantSchema (w_scannedAt w).

Definition inventoryEventClaimOutcomeSchema (c : InventoryEventClaimOutcome) : bool :=
  hashSchema (cl_codeHash c) && inventoryClaimWinnerSchema (cl_winner c)
  && jseqb (w_codeHash (cl_winner c)) (cl_codeHash c).

(** The loop over the claims of an outcome. *)
Fixpoint claims_consistent (event : jsstr) (claims : list InventoryEventClaimOutcome)
  (hashes : gset jsstr) : bool :=
  match claims with
  | [] => true
  | claim :: claims' =>
      negb (bool_decide (cl_codeHash claim ∈ hashes))
      && negb (bool_decide (cl_status claim = claimed)
               && negb (jseqb (w_eventId (cl_winner claim)) event))
      && negb (bool_decide (cl_status claim = claim_duplicate)
               && jseqb (w_eventId (cl_winner claim)) event)
      && claims_consistent event claims' ({[cl_codeHash claim]} ∪ hashes)
  end.

Definition count_status (s : ClaimStatus) (claims : list InventoryEventClaimOutcome) : Z :=
  Z.of_nat (length (List.filter (fun c => bool_decide (cl_status c = s)) claims)).

(** No contradiction between the status, the reason and the claims. *)
Definition outcome_status_ok (v : InventoryEventOutcome) : bool :=
  let carriesClaims := (0 <? length (oc_claims v))%nat in
  negb ((bool_decide (oc_status v = duplicate)
         && (negb (oc_claimedCount v =? 0) || (oc_conflictCount v =? 0)
             || negb (bool_decide (oc_reasonCode v = CLAIM_LOST))))
        || (bool_decide (oc_status v = applied)
            && ((carriesClaims && (oc_claimedCount v =? 0))
                || negb (bool_decide (oc_reasonCode v = CLAIM_APPLIED))))
        || (bool_decide (oc_status v = replay) && negb (bool_decide (oc_reasonCode v = BATCH_REPLAY)))
        || (bool_decide (oc_status v = rejected)
            && (negb (oc_claimedCount v =? 0) || negb (oc_conflictCount v =? 0) || carriesClaims
                || negb (bool_decide (oc_reasonCode v = INVENTORY_EVENT_REJECTED))))
        || (bool_decide (oc_status v = quarantined)
            && (negb (oc_claimedCount v =? 0) || negb (oc_conflictCount v =? 0) || carriesClaims
                || (negb (bool_decide (oc_reasonCode v = INVENTORY_CLOSED))
                    && negb (bool_decide (oc_reasonCode v = INVENTORY_COMPLETED)))))).

Definition inventoryEventOutcomeSchema (v : InventoryEventOutcome) : bool :=
  uuidSchema (oc_eventId v) && nonnegative_safe (oc_claimedCount v)
  && nonnegative_safe (oc_conflictCount v)
  && length_within 0 INVENTORY_EVENT_CLAIM_OUTCOME_SIZE (oc_claims v)
  && forallb inventoryEventClaimOutcomeSchema (oc_claims v)
  && claims_consistent (oc_eventId v) (oc_claims v) ∅
  && negb (negb (oc_claimedCount v =? count_status claimed (oc_claims v))
           || negb (oc_conflictCount v =? count_status claim_duplicate (oc_claims v)))
  && outcome_status_ok v.

Definition total_claims (outcomes : list InventoryEventOutcome) : Z :=
  fold_left (fun total o => total + Z.of_nat (length (oc_claims o))) outcomes 0.

Definition inventoryEventBatchResponseSchema (r : InventoryEventBatchResponse) : bool :=
  uuidSchema (rs_inventoryId r) && uuidSchema (rs_snapshotId r) && (rs_snapshotRevision r =? 1)
  && length_within 1 128 (rs_batchId r) && hashSchema (rs_payloadDigest r)
  && positive_safe (rs_sequenceCeiling r) && nonnegative_safe (rs_resultRevision r)
  && length_within 1 INVENTORY_EVENT_BATCH_SIZE (rs_outcomes r)
  && forallb inventoryEventOutcomeSchema (rs_outcomes r)
  && negb (INVENTORY_EVENT_BATCH_CLAIM_OUTCOME_SIZE <? total_claims (rs_outcomes r)).

(** ** The answer to a batch *)

Definition claim_bearing (s : OutcomeStatus) : bool :=
  bool_decide (s = applied) || bool_decide (s = replay) || bool_decide (s = duplicate).

Definition winner_ok (requestEvent : InventoryEvent) (expectedDeviceId : option jsstr)
  (claim : InventoryEventClaimOutcome) : bool :=
  negb (bool_decide (cl_status claim = claimed)
        && (negb (jseqb (w_scannedAt (cl_winner claim)) (scannedAt requestEvent))
            || match expectedDeviceId with
               | None => false
               | Some d => negb (jseqb (w_deviceId (cl_winner claim)) d)
               end)).

(** The checks of one outcome against its event. *)
Definition outcome_matches (requestEvent : InventoryEvent) (expectedDeviceId : option jsstr)
  (outcome : InventoryEventOutcome) : bool :=
  let claimBearing := claim_bearing (oc_status outcome) in
  negb (claimBearing && bool_decide (kind requestEvent = item)
        && (negb (length (oc_claims outcome) =? 1)%nat
            || negb (bool_decide (cl_codeHash <$> head (oc_claims outcome) = codeHash requestEvent))))
  && negb (claimBearing && bool_decide (kind requestEvent = old_box)
           && negb (length (oc_claims outcome) =? 0)%nat)
  && negb (bool_decide (oc_status outcome = applied) && (oc_claimedCount outcome =? 0)
           && negb (bool_decide (kind requestEvent = old_box))
           && negb (bool_decide (kind requestEvent = repack_action)))
  && forallb (winner_ok requestEvent expectedDeviceId) (oc_claims outcome).

(** The loop over the outcomes; [None] is a thrown error. *)
Fixpoint account (requestEvents : list InventoryEvent) (requested : gset jsstr)
  (expectedDeviceId : option jsstr) (outcomes : list InventoryEventOutcome) (accounted : gset jsstr)
  : option (gset jsstr) :=
  match outcomes with
  | [] => Some accounted
  | outcome :: outcomes' =>
      if negb (bool_decide (oc_eventId outcome ∈ requested))
         || bool_decide (oc_eventId outcome ∈ accounted)
      then None
      else match List.find (fun e => jseqb (eventId e) (oc_eventId outcome)) requestEvents with
      | None => None
      | Some requestEvent =>
          if outcome_matches requestEvent expectedDeviceId outcome
          then account requestEvents requested expectedDeviceId outcomes'
                 ({[oc_eventId outcome]} ∪ accounted)
          else None
      end
  end.

Definition parseInventoryEventBatchResponse (response : InventoryEventBatchResponse)
  (request : InventoryEventBatch) (expectedInventoryId : jsstr) (expectedDeviceId : option jsstr)
  : result InventoryEventBatchResponse :=
  if negb (inventoryEventBatchResponseSchema response) then Throw PlainError
  else
    let payload := batch_payload request in
    if negb (jseqb (rs_inventoryId response) expectedInventoryId)
       || negb (jseqb (rs_snapshotId response) (snapshotId payload))
       || negb (rs_snapshotRevision response =? snapshotRevision payload)
       || negb (jseqb (rs_batchId response) (batchId request))
       || negb (jseqb (rs_payloadDigest response) (payloadDigest request))
       || negb (rs_sequenceCeiling response =? sequenceCeiling payload)
       || negb (length (rs_outcomes response) =? length (events payload))%nat
    then Throw PlainError
    else
      let requested := list_to_set (map eventId (events payload)) in
      match account (events payload) requested expectedDeviceId (rs_outcomes response) ∅ with
      | None => Throw PlainError
      | Some accounted =>
          if negb (size accounted =? size requested)%nat then Throw PlainError else Ok response
      end.

(** ** The progress page *)

Definition inventoryProgressChangeSchema (c : InventoryProgressChange) : bool :=
  uuidSchema (ch_id c) && positive_safe (ch_revision c) && instantSchema (ch_correctedAt c)
  && match ch_detail c with
     | ClaimChange _ hash _ date winner =>
         hashSchema hash && nullable civilDateSchema date && nullable inventoryClaimWinnerSchema winner
     | RemoveItem boxId resultId hash ownerDeviceId removedAt =>
         uuidSchema boxId && uuidSchema resultId && hashSchema hash && uuidSchema ownerDeviceId
         && instantSchema removedAt
     | InvalidateBox boxId ownerDeviceId | Reprint boxId ownerDeviceId =>
         uuidSchema boxId && uuidSchema ownerDeviceId
     end.

Definition inventoryProgressPageSchema (p : InventoryProgressPage) : bool :=
  uuidSchema (pg_inventoryId p) && uuidSchema (pg_snapshotId p) && (pg_snapshotRevision p =? 1)
  && nullable inventoryProgressCursorSchema (pg_cursor p) && nonnegative_safe (pg_resultRevision p)
  && length_within 0 INVENTORY_PROGRESS_PAGE_SIZE (pg_items p)
  && forallb inventoryProgressChangeSchema (pg_items p)
  && nullable inventoryProgressCursorSchema (pg_nextCursor p).

(** [Number(digits)]: the nearest double, ties to even (values from 2^1024 on
    stay finite here; the code only compares them with safe integers). *)
Definition round_double (z : Z) : Z :=
  if z <? 2 ^ 53 then z
  else
    let unit_ := 2 ^ (Z.log2 z - 52) in
    let q := z / unit_ in
    let r := z mod unit_ in
    let up := (unit_ <? 2 * r) || ((2 * r =? unit_) && Z.odd q) in
    (if up then q + 1 else q) * unit_.

(** The position a cursor names. *)
Definition cursor_position (cursor : jsstr) : Z * jsstr :=
  let i := default (length cursor) (index_of 58 cursor) in
  (round_double (digits_value (take i cursor)), drop (S i) cursor).

Definition winner_of_own_code (c : InventoryProgressChange) : bool :=
  match ch_detail c with
  | ClaimChange _ hash _ _ (Some w) => jseqb (w_codeHash w) hash
  | _ => true
  end.

Fixpoint page_items (resultRevision : Z) (l : list InventoryProgressChange)
  (previous : option (Z * jsstr)) : option (option (Z * jsstr)) :=
  match l with
  | [] => Some previous
  | c :: l' =>
      if (resultRevision <? ch_revision c) || negb (winner_of_own_code c)
         || match previous with
            | None => false
            | Some (revision, id) =>
                (ch_revision c <? revision)
                || ((ch_revision c =? revision) && js_leb (ch_id c) id)
            end
      then None
      else page_items resultRevision l' (Some (ch_revision c, ch_id c))
  end.

Definition render_cursor (position : Z * jsstr) : jsstr :=
  js_of_Z (fst position) ++ js ":" ++ snd position.

Definition parseInventoryProgressPage (value : InventoryProgressPage)
  (expected : ExpectedInventoryProgressPage) : result InventoryProgressPage :=
  if negb (inventoryProgressPageSchema value) then Throw PlainError
  else if negb (jseqb (pg_inventoryId value) (ex_inventoryId expected))
     || negb (jseqb (pg_snapshotId value) (ex_snapshotId expected))
     || negb (bool_decide (pg_cursor value = ex_cursor expected))
     || (pg_resultRevision value <? ex_minimumResultRevision expected)
  then Throw PlainError
  else
    match page_items (pg_resultRevision value) (pg_items value)
            (cursor_position <$> pg_cursor value) with
    | None => Throw PlainError
    | Some previous =>
        let expectedNext :=
          if (length (pg_items value) =? 0)%nat then None else render_cursor <$> previous in
        if negb (bool_decide (pg_nextCursor value = expectedNext)) then Throw PlainError
        else Ok value
    end.
End Schemas.

(** ** Lemmas: ordered batches *)

Definition seq_lt (a b : InventoryEvent) : Prop := deviceSequence a < deviceSequence b.

Lemma events_ordered_sound l ids seqs prior :
  events_ordered l ids seqs prior = true ->
  Sorted.StronglySorted seq_lt l /\ NoDup (map eventId l)
  /\ Forall (fun e => prior < deviceSequence e /\ eventId e ∉ ids) l.
Proof.
  revert ids seqs prior. induction l as [|e l IH]; cbn; intros ids seqs prior H.
  { repeat constructor. }
  bool_hyps. destruct (IH _ _ _ ltac:(eassumption)) as (Hs & Hn & Hf).
  rewrite Forall_forall in Hf. split; [|split].
  - constructor; [done|]. apply Forall_forall. intros x Hx. by apply Hf in Hx as [? _].
  - constructor; [|done]. intros (x & Hx & Hin)%list_elem_of_fmap.
    apply Hf in Hin as [_ Hin]. set_solver.
  - constructor; [done|]. apply Forall_forall. intros x Hx. apply Hf in Hx as [? ?].
    split; [lia | set_solver].
Qed.

(** The sequence check already implies that no sequence repeats: the set of
    sequences never decides. *)
Lemma events_ordered_complete l ids seqs prior :
  (forall s, s ∈ seqs -> s <= prior) ->
  Sorted.StronglySorted seq_lt l -> NoDup (map eventId l) ->
  Forall (fun e => prior < deviceSequence e /\ eventId e ∉ ids) l ->
  events_ordered l ids seqs prior = true.
Proof.
  revert ids seqs prior. induction l as [|e l IH]; cbn; intros ids seqs prior Hq Hs Hn Hf; [done|].
  apply Sorted.StronglySorted_inv in Hs as [Hs He]. apply NoDup_cons in Hn as [Hx Hn].
  apply Forall_cons in Hf as [[Hp Hi] Hf].
  rewrite !bool_decide_eq_false_2, (proj2 (Z.leb_gt _ _) Hp) by (auto; intros ?%Hq; lia). cbn.
  apply IH; [|done|done|].
  { intros s [->%elem_of_singleton|Hin%Hq]%elem_of_union; lia. }
  rewrite !Forall_forall in *. intros x Hxl. split; [by apply He|].
  apply not_elem_of_union. split; [|by apply Hf].
  intros ?%elem_of_singleton. apply Hx. apply list_elem_of_fmap. by exists x.
Qed.

Lemma sorted_last_max l e :
  Sorted.StronglySorted seq_lt l -> last l = Some e ->
  forall x, x ∈ l -> deviceSequence x <= deviceSequence e.
Proof.
  induction 1 as [|a l Hs IH Ha]; [done|]. intros El x Hx. destruct l as [|b l].
  { cbn in El. apply (inj Some) in El as ->. apply list_elem_of_singleton in Hx as ->. lia. }
  change (last (b :: l) = Some e) in El. apply elem_of_cons in Hx as [->|Hx]; [|by apply IH].
  rewrite Forall_forall in Ha. assert (He : e ∈ b :: l) by by apply last_Some_elem_of.
  specialize (Ha _ He). unfold seq_lt in Ha. lia.
Qed.

(** ** Lemmas: outcomes *)

Lemma claims_consistent_sound event claims hashes :
  claims_consistent event claims hashes = true ->
  NoDup (map cl_codeHash claims)
  /\ Forall (fun c => (cl_codeHash c ∉ hashes)
       /\ (cl_status c = claimed <-> w_eventId (cl_winner c) = event)) claims.
Proof.
  revert hashes. induction claims as [|c claims IH]; cbn; intros hashes H; [repeat constructor|].
  bool_hyps. destruct (IH _ ltac:(eassumption)) as [Hn Hf]. rewrite Forall_forall in Hf.
  split; constructor.
  - intros (x & Hx & Hin)%list_elem_of_fmap. apply Hf in Hin as [Hin _]. set_solver.
  - done.
  - split; [done|].
    repeat match goal with H : _ && _ = false |- _ => revert H end.
    destruct (jseqb (w_eventId (cl_winner c)) event) eqn:E; bool_hyps;
      destruct (cl_status c); cbn; naive_solver.
  - apply Forall_forall. intros x [Hx ?]%Hf. split; [set_solver | done].
Qed.

Lemma account_sound reqs requested device outcomes acc out :
  account reqs requested device outcomes acc = Some out ->
  out = list_to_set (map oc_eventId outcomes) ∪ acc
  /\ NoDup (map oc_eventId outcomes)
  /\ Forall (fun o => (oc_eventId o ∉ acc) /\ oc_eventId o ∈ requested
       /\ exists e, e ∈ reqs /\ eventId e = oc_eventId o /\ outcome_matches e device o = true) outcomes.
Proof.
  revert acc. induction outcomes as [|o outcomes IH]; cbn; intros acc H.
  { apply (inj Some) in H as ->. split; [set_solver|]. repeat constructor. }
  destruct (negb _ || _) eqn:Eg; [done|]. bool_hyps.
  destruct (List.find _ reqs) as [e|] eqn:Ef; [|done].
  destruct (outcome_matches e device o) eqn:Em; [|done].
  apply find_some in Ef as [He Hid%jseqb_eq]. apply list_elem_of_In in He.
  destruct (IH _ H) as (-> & Hn & Hf). rewrite Forall_forall in Hf. split; [set_solver|].
  split; constructor.
  - intros (x & Hx & Hin)%list_elem_of_fmap. apply Hf in Hin as [Hin _]. set_solver.
  - done.
  - split; [done|]. split; [done|]. by exists e.
  - apply Forall_forall. intros x [Hx ?]%Hf. split; [set_solver | done].
Qed.

Lemma outcome_status_settled v :
  outcome_status_ok v = true ->
  oc_status v = rejected \/ oc_status v = quarantined -> oc_claims v = [].
Proof.
  unfold outcome_status_ok. intros H Hs. bool_hyps.
  destruct (oc_claims v) as [|c l]; [done|]. exfalso.
  destruct Hs as [E|E]; rewrite E in *; cbn in *; rewrite ?orb_true_r in *; cbn in *;
    rewrite ?orb_true_r in *; done.
Qed.

(** ** Lemmas: cursors and pages *)

Definition position_lt (a b : Z * jsstr) : Prop :=
  fst a < fst b \/ (fst a = fst b /\ js_ltb (snd a) (snd b) = true).

Definition position (c : InventoryProgressChange) : Z * jsstr := (ch_revision c, ch_id c).

#[export] Instance position_lt_trans : Transitive position_lt.
Proof.
  intros [a s] [b t] [c u]. unfold position_lt; cbn.
  intros [?|[-> ?]] [?|[-> ?]]; [left; lia|left; lia|left; lia|right].
  split; [done|]. by eapply js_ltb_trans.
Qed.

Lemma round_double_safe z : z <= MAX_SAFE_INTEGER -> round_double z = z.
Proof.
  unfold round_double, MAX_SAFE_INTEGER. intros H. destruct (Z.ltb_spec z (2 ^ 53)); [done | lia].
Qed.

Lemma digits_no_colon s : forallb is_digit s = true -> 58 ∉ s.
Proof.
  intros H Hin. apply list_elem_of_In in Hin. rewrite forallb_forall in H.
  specialize (H _ Hin). by vm_compute in H.
Qed.

Lemma cursor_position_render p :
  0 <= fst p <= MAX_SAFE_INTEGER -> cursor_position (render_cursor p) = p.
Proof.
  destruct p as [r id]; cbn. intros Hr. unfold cursor_position, render_cursor. cbv zeta. cbn [fst snd].
  rewrite js_of_Z_nonneg by lia. destruct (js_of_nonneg_spec r) as (Hd & Hv & _); [lia|].
  change (js ":" ++ id) with (58 :: id). rewrite index_of_app by by apply digits_no_colon.
  change (default ?x (Some ?y)) with y. rewrite take_app_length, Hv, round_double_safe by lia. f_equal.
  replace (S (length (js_of_nonneg r))) with (length (js_of_nonneg r) + 1)%nat by lia.
  by rewrite drop_app_add.
Qed.

Lemma page_items_sound rr l prev out :
  page_items rr l prev = Some out ->
  Sorted.StronglySorted (fun a b => position_lt (position a) (position b)) l
  /\ (forall p, prev = Some p -> Forall (fun c => position_lt p (position c)) l)
  /\ Forall (fun c => ch_revision c <= rr /\ winner_of_own_code c = true) l
  /\ out = match last l with Some c => Some (position c) | None => prev end.
Proof.
  revert prev. induction l as [|c l IH]; cbn [page_items]; intros prev H.
  { apply (inj Some) in H as ->. repeat split; constructor. }
  destruct (_ || _) eqn:Eg; [done|]. bool_hyps. destruct (IH _ H) as (Hs & Hp & Hf & ->).
  specialize (Hp _ eq_refl). split; [by constructor|]. split; [|split].
  - intros p ->. destruct p as [rev id]. bool_hyps.
    assert (Hc : position_lt (rev, id) (position c)).
    { unfold position_lt; cbn. destruct (Z.eq_dec (ch_revision c) rev) as [E|]; [|left; lia].
      right. split; [done|].
      match goal with H : (_ && js_leb _ _)%bool = false |- _ => rewrite E, Z.eqb_refl in H; cbn in H;
        unfold js_leb in H; by apply negb_false_iff in H end. }
    constructor; [done|]. eapply Forall_impl; [exact Hp|]. intros x Hx. by etrans.
  - constructor; [|done]. split; [lia | done].
  - destruct l; [done|]. cbn [last]. by destruct (last (_ :: _)) eqn:E; [|by apply last_None in E].
Qed.

Lemma strongly_sorted_app {A} (R : A -> A -> Prop) l k :
  Sorted.StronglySorted R l -> Sorted.StronglySorted R k ->
  (forall a b, a ∈ l -> b ∈ k -> R a b) -> Sorted.StronglySorted R (l ++ k).
Proof.
  intros Hl Hk Hx. induction Hl as [|a l Hl IH Ha]; cbn; [done|]. constructor.
  - apply IH. intros x y Hin. apply Hx. by right.
  - apply Forall_app. split; [done|]. apply Forall_forall. intros y Hy. apply Hx; [by left | done].
Qed.

Lemma strongly_sorted_app_lt {A} (R : A -> A -> Prop) l k :
  Sorted.StronglySorted R (l ++ k) -> forall a b, a ∈ l -> b ∈ k -> R a b.
Proof.
  induction l as [|x l IH]; cbn; intros Hs a b Ha Hb; [set_solver|].
  apply Sorted.StronglySorted_inv in Hs as [Hs Hf]. apply elem_of_cons in Ha as [->|Ha]; [|by apply IH].
  rewrite Forall_forall in Hf. apply Hf, elem_of_app. by right.
Qed.

(** ** Theorems *)

Section Theorems.
Context (civilDateSchema instantSchema : jsstr -> bool)
  (inventoryEventBatchDigest : InventoryEventBatchPayload -> jsstr).

Abbreviation parse_batch := (parseInventoryEventBatch civilDateSchema instantSchema
  inventoryEventBatchDigest).
Abbreviation parse_response := (parseInventoryEventBatchResponse instantSchema).
Abbreviation parse_page := (parseInventoryProgressPage civilDateSchema instantSchema).

(** an accepted batch is in order: its events have strictly increasing
    positive device sequences and distinct ids, the ceiling is the last and
    largest sequence, the digest is that of the payload, and an event without
    a code is either an old box being opened or a repacking action. *)
Theorem parseInventoryEventBatch_ordered value b :
  parse_batch value = Ok b ->
  b = value
  /\ payloadDigest b = inventoryEventBatchDigest (batch_payload b)
  /\ Sorted.StronglySorted seq_lt (events (batch_payload b))
  /\ NoDup (map eventId (events (batch_payload b)))
  /\ (exists e, last (events (batch_payload b)) = Some e
      /\ deviceSequence e = sequenceCeiling (batch_payload b))
  /\ (forall e, e ∈ events (batch_payload b) ->
      0 < deviceSequence e <= sequenceCeiling (batch_payload b)
      /\ (kind e = repack_action ->
          codeHash e = None /\ canonicalRaw e = None /\ is_Some (repack e)
          /\ localVerdict e = v_repack_action)).
Proof.
  unfold parseInventoryEventBatch. destruct (inventoryEventBatchSchema _ _ _ _) eqn:E; [|done].
  intros <-%Ok_inj. unfold inventoryEventBatchSchema, inventoryEventBatchPayloadSchema in E. bool_hyps.
  match goal with H : events_ordered _ _ _ _ = true |- _ =>
    apply events_ordered_sound in H as (Hs & Hn & Hf) end.
  match goal with H : _ <$> last _ = Some _ |- _ =>
    apply fmap_Some in H as (e & El & Ee) end.
  match goal with H : forallb (inventoryEventSchema _ _) _ = true |- _ => rename H into Hall end.
  split; [done|]. split; [done|]. split; [done|]. split; [done|]. split; [by eauto|].
  intros x Hx. split.
  - rewrite Ee. split; [|by eapply sorted_last_max]. rewrite Forall_forall in Hf. by apply Hf.
  - intros Hk. rewrite forallb_forall in Hall. specialize (Hall x (proj1 (list_elem_of_In _ _) Hx)).
    unfold inventoryEventSchema in Hall. bool_hyps.
    match goal with H : repack_matches x = true |- _ => rename H into Hm end.
    unfold repack_matches in Hm. rewrite Hk in Hm. destruct (repack x) as [m|]; [|done].
    unfold print_ok, codeless in Hm. destruct m; bool_hyps; try done; auto.
Qed.

(** What an accepted answer says of one event. *)
Definition answered (device : option jsstr) (e : InventoryEvent) (o : InventoryEventOutcome) : Prop :=
  oc_eventId o = eventId e
  /\ NoDup (map cl_codeHash (oc_claims o))
  /\ oc_claimedCount o = count_status claimed (oc_claims o)
  /\ oc_conflictCount o = count_status claim_duplicate (oc_claims o)
  /\ (oc_status o = rejected \/ oc_status o = quarantined -> oc_claims o = [])
  /\ (claim_bearing (oc_status o) = true -> kind e = item ->
      exists c, oc_claims o = [c] /\ codeHash e = Some (cl_codeHash c))
  /\ (claim_bearing (oc_status o) = true -> kind e = old_box -> oc_claims o = [])
  /\ (oc_status o = applied -> 0 < oc_claimedCount o \/ kind e = old_box \/ kind e = repack_action)
  /\ Forall (fun c => w_codeHash (cl_winner c) = cl_codeHash c
       /\ (cl_status c = claimed <-> w_eventId (cl_winner c) = eventId e)
       /\ (cl_status c = claimed -> w_scannedAt (cl_winner c) = scannedAt e
           /\ forall d, device = Some d -> w_deviceId (cl_winner c) = d)) (oc_claims o).

Lemma outcome_answered device e o :
  inventoryEventOutcomeSchema instantSchema o = true -> eventId e = oc_eventId o ->
  outcome_matches e device o = true -> answered device e o.
Proof.
  unfold inventoryEventOutcomeSchema, outcome_matches. intros H Hid Hm. bool_hyps.
  match goal with H : claims_consistent _ _ _ = true |- _ =>
    apply claims_consistent_sound in H as [Hn Hf] end.
  match goal with H : forallb (inventoryEventClaimOutcomeSchema _) _ = true |- _ => rename H into Hc end.
  match goal with H : forallb (winner_ok _ _) _ = true |- _ => rename H into Hw end.
  unfold answered. rewrite Hid. do 4 (split; [done|]). split; [by apply outcome_status_settled|].
  split; [|split; [|split]].
  - intros Hb Hk.
    match goal with H : (_ && bool_decide (kind e = item) && _)%bool = false |- _ =>
      rewrite Hb, (bool_decide_eq_true_2 _ Hk) in H; cbn [andb] in H end.
    bool_hyps. destruct (oc_claims o) as [|c [|]]; try done. exists c. cbn in *. auto.
  - intros Hb Hk.
    match goal with H : (_ && bool_decide (kind e = old_box) && _)%bool = false |- _ =>
      rewrite Hb, (bool_decide_eq_true_2 _ Hk) in H; cbn [andb] in H end.
    bool_hyps. by destruct (oc_claims o).
  - intros Ha.
    match goal with H : (bool_decide (oc_status o = applied) && _ && _ && _)%bool = false |- _ =>
      rewrite (bool_decide_eq_true_2 _ Ha) in H; cbn [andb] in H; rename H into Hq end.
    destruct (decide (kind e = old_box)); [by auto|]. destruct (decide (kind e = repack_action)); [by auto|].
    rewrite !bool_decide_eq_false_2 in Hq by done. rewrite !andb_true_r in Hq. apply Z.eqb_neq in Hq.
    match goal with H : oc_claimedCount o = _ |- _ => rewrite H in *; unfold count_status in * end.
    left. lia.
  - rewrite Forall_forall in Hf |- *. rewrite forallb_forall in Hc, Hw. intros c Hcin.
    destruct (Hf _ Hcin) as [_ Hs]. apply list_elem_of_In in Hcin. specialize (Hc _ Hcin).
    specialize (Hw _ Hcin). unfold inventoryEventClaimOutcomeSchema, winner_ok in *. bool_hyps.
    split; [done|]. split; [done|]. intros Hst. rewrite (bool_decide_eq_true_2 _ Hst) in Hw.
    cbn [andb] in Hw. bool_hyps. split; [done|]. intros d ->. by bool_hyps.
Qed.

(** C35: an accepted answer accounts for the uploaded batch exactly: its
    outcomes are those of the batch's events, each event once; the outcome of
    an event that bears claims decides that event's own code, or none for the
    opening of an old box; a scan is applied only with a claim; a claim it wins
    names the event, its scan time and the station itself, one it loses names
    another event, and a rejected or quarantined event claims nothing. *)
Theorem parseInventoryEventBatchResponse_accounts value request inventoryId device response :
  parse_batch request = Ok request ->
  parse_response value request inventoryId device = Ok response ->
  response = value /\ rs_payloadDigest response = payloadDigest request
  /\ map oc_eventId (rs_outcomes response) ≡ₚ map eventId (events (batch_payload request))
  /\ forall o, o ∈ rs_outcomes response ->
     exists e, e ∈ events (batch_payload request) /\ answered device e o.
Proof.
  intros Hreq. assert (Hn : NoDup (map eventId (events (batch_payload request)))).
  { unfold parseInventoryEventBatch in Hreq. destruct (inventoryEventBatchSchema _ _ _ _) eqn:E; [|done].
    unfold inventoryEventBatchSchema, inventoryEventBatchPayloadSchema in E. bool_hyps.
    match goal with H : events_ordered _ _ _ _ = true |- _ => by apply events_ordered_sound in H as (_ & ? & _) end. }
  unfold parseInventoryEventBatchResponse. cbv zeta. pass_guard Es. pass_guard Eg.
  destruct (account _ _ _ _ _) as [acc|] eqn:Ea; [|done]. pass_guard Esz. intros <-%Ok_inj. bool_hyps.
  apply account_sound in Ea as (_ & Hn' & Hf). rewrite Forall_forall in Hf.
  split; [done|]. split; [done|]. split.
  - apply submseteq_length_Permutation; [|rewrite !length_map; lia].
    apply NoDup_submseteq; [done|]. intros x (o & -> & Ho)%list_elem_of_fmap.
    apply Hf in Ho as (_ & Ho & _). by apply elem_of_list_to_set in Ho.
  - intros o Ho. destruct (Hf _ Ho) as (_ & _ & e & He & Hid & Hm). exists e. split; [done|].
    apply outcome_answered; [|done|done].
    unfold inventoryEventBatchResponseSchema in Es. bool_hyps.
    match goal with H : forallb (inventoryEventOutcomeSchema _) _ = true |- _ =>
      rewrite forallb_forall in H; apply H, list_elem_of_In, Ho end.
Qed.

(** Pages read one after the other, each from the cursor the one before gave. *)
Fixpoint follows (inventory snapshot : jsstr) (cursor : option jsstr) (minimum : Z)
  (pages : list InventoryProgressPage) : Prop :=
  match pages with
  | [] => True
  | p :: rest =>
      parse_page p {| ex_inventoryId := inventory; ex_snapshotId := snapshot; ex_cursor := cursor;
                      ex_minimumResultRevision := minimum |} = Ok p
      /\ (rest = [] \/ (is_Some (pg_nextCursor p)
          /\ follows inventory snapshot (pg_nextCursor p) (pg_resultRevision p) rest))
  end.

Definition change_lt (a b : InventoryProgressChange) : Prop := position_lt (position a) (position b).

Lemma parse_page_sound p expected q :
  parse_page p expected = Ok q ->
  q = p /\ Sorted.StronglySorted change_lt (pg_items p)
  /\ (forall cursor, ex_cursor expected = Some cursor ->
      Forall (fun c => position_lt (cursor_position cursor) (position c)) (pg_items p))
  /\ Forall (fun c => 0 < ch_revision c <= MAX_SAFE_INTEGER) (pg_items p)
  /\ ex_minimumResultRevision expected <= pg_resultRevision p
  /\ Forall (fun c => ch_revision c <= pg_resultRevision p) (pg_items p)
  /\ pg_nextCursor p = (fun c => render_cursor (position c)) <$> last (pg_items p).
Proof.
  unfold parseInventoryProgressPage. cbv zeta. pass_guard Es. pass_guard Eg.
  destruct (page_items _ _ _) as [out|] eqn:Ep; [|done]. pass_guard En. intros <-%Ok_inj. bool_hyps.
  apply page_items_sound in Ep as (Hs & Hp & Hf & ->).
  split; [done|]. split; [done|]. split; [|split; [|split; [done|split]]].
  - intros cursor Hc. apply Hp.
    match goal with H : pg_cursor p = _ |- _ => by rewrite H, Hc end.
  - unfold inventoryProgressPageSchema in Es. bool_hyps. apply Forall_forall. intros c Hc.
    match goal with H : forallb (inventoryProgressChangeSchema _ _) _ = true |- _ =>
      rewrite forallb_forall in H; specialize (H c (proj1 (list_elem_of_In _ _) Hc));
      rename H into Hc' end.
    unfold inventoryProgressChangeSchema, positive_safe in Hc'. bool_hyps. lia.
  - eapply Forall_impl; [exact Hf|]. by intros c [? _].
  - match goal with H : pg_nextCursor p = _ |- _ => rewrite H end.
    destruct (pg_items p) as [|c l]; [done|]. cbn [length Nat.eqb].
    by destruct (last (c :: l)) eqn:E; [|by apply last_None in E].
Qed.

Lemma follows_sorted inventory snapshot cursor minimum pages :
  follows inventory snapshot cursor minimum pages ->
  Sorted.StronglySorted change_lt (concat (map pg_items pages))
  /\ (forall k, cursor = Some k ->
      Forall (fun c => position_lt (cursor_position k) (position c)) (concat (map pg_items pages))).
Proof.
  revert cursor minimum. induction pages as [|p rest IH]; cbn [follows map concat]; intros cursor minimum H.
  { split; [constructor|]. constructor. }
  destruct H as [(_ & Hs & Hc & Hr & _ & _ & Hn)%parse_page_sound Hrest]. cbn in Hc.
  destruct Hrest as [->|[Hsome Hrest]].
  { cbn. rewrite app_nil_r. auto. }
  apply IH in Hrest as [Hs' Hc']. destruct Hsome as [next Hnext]. rewrite Hnext in Hn.
  symmetry in Hn. apply fmap_Some in Hn as (l & El & ->). specialize (Hc' _ Hnext).
  rewrite Forall_forall in Hr. pose proof (Hr l (last_Some_elem_of _ _ El)) as Hl.
  rewrite cursor_position_render in Hc' by (cbn; lia).
  assert (Hcross : forall a b, a ∈ pg_items p -> b ∈ concat (map pg_items rest) -> change_lt a b).
  { intros a b Ha Hb. rewrite Forall_forall in Hc'. specialize (Hc' _ Hb).
    apply last_Some in El as [l' El]. rewrite El in Ha, Hs.
    apply elem_of_app in Ha as [Ha|Ha%list_elem_of_singleton]; [|by subst].
    unfold change_lt. etrans; [|exact Hc'].
    apply (strongly_sorted_app_lt _ _ _ Hs); [done | by left]. }
  split.
  - by apply strongly_sorted_app.
  - intros k Hk. apply Forall_app. split; [by apply Hc|].
    apply Forall_forall. intros c Hcin. specialize (Hc _ Hk). rewrite Forall_forall in Hc.
    etrans; [apply (Hc l), last_Some_elem_of, El|]. rewrite Forall_forall in Hc'. by apply Hc'.
Qed.

(** pages read one after the other, each from the cursor of the one
    before, deliver every change at most once and in order: the changes of all
    pages together are strictly increasing by revision and id. *)
Theorem parseInventoryProgressPage_chain inventory snapshot minimum pages :
  follows inventory snapshot None minimum pages ->
  Sorted.StronglySorted change_lt (concat (map pg_items pages)).
Proof. intros H. by eapply follows_sorted. Qed.
End Theorems.

(** ** Witnesses *)

Definition any_date : jsstr -> bool := fun s => negb (bool_decide (s = [])).
Definition sample_digest : InventoryEventBatchPayload -> jsstr := fun _ => replicate 64 48.
Definition uuid (c : string) : jsstr := js c ++ js "0000000-0000-4000-8000-000000000000".

Definition sample_event : InventoryEvent :=
  {| eventId := uuid "1"; deviceSequence := 7; operatorId := uuid "2"; scannedAt := js "t";
     kind := item; normalizedIdentity := js "item:x"; codeHash := Some (replicate 64 97);
     canonicalRaw := None; activeProductionDate := Some (js "2026-01-01"); localVerdict := v_expected;
     repack := None |}.

Definition sample_batch : InventoryEventBatch :=
  {| batch_payload := {| snapshotId := uuid "3"; snapshotRevision := 1; sequenceCeiling := 7;
                         pendingEventCount := 1; openBoxCount := 0; events := [sample_event] |};
     batchId := js "b"; payloadDigest := replicate 64 48 |}.

Definition sample_response : InventoryEventBatchResponse :=
  {| rs_inventoryId := uuid "4"; rs_snapshotId := uuid "3"; rs_snapshotRevision := 1;
     rs_batchId := js "b"; rs_payloadDigest := replicate 64 48; rs_sequenceCeiling := 7;
     rs_resultRevision := 9;
     rs_outcomes := [{| oc_eventId := uuid "1"; oc_status := applied; oc_reasonCode := CLAIM_APPLIED;
       oc_claimedCount := 1; oc_conflictCount := 0;
       oc_claims := [{| cl_codeHash := replicate 64 97; cl_status := claimed;
         cl_winner := {| w_codeHash := replicate 64 97; w_eventId := uuid "1";
                         w_deviceId := uuid "5"; w_scannedAt := js "t" |} |}] |}] |}.

Definition sample_change (revision : Z) : InventoryProgressChange :=
  {| ch_id := uuid "6"; ch_revision := revision; ch_correctedAt := js "t";
     ch_detail := Reprint (uuid "7") (uuid "5") |}.

Definition sample_page (cursor : option jsstr) (revision : Z) : InventoryProgressPage :=
  {| pg_inventoryId := uuid "4"; pg_snapshotId := uuid "3"; pg_snapshotRevision := 1;
     pg_cursor := cursor; pg_resultRevision := 20; pg_items := [sample_change revision];
     pg_nextCursor := Some (js_of_Z revision ++ js ":" ++ uuid "6") |}.

Lemma parseInventoryEventBatch_ordered_witness :
  0 < deviceSequence sample_event <= 7.
Proof.
  destruct (parseInventoryEventBatch_ordered any_date any_date sample_digest sample_batch sample_batch)
    as (_ & _ & _ & _ & _ & H); [vm_compute; reflexivity|].
  apply (H sample_event). left.
Defined.

Lemma parseInventoryEventBatchResponse_accounts_witness :
  map oc_eventId (rs_outcomes sample_response) ≡ₚ map eventId (events (batch_payload sample_batch)).
Proof.
  apply (parseInventoryEventBatchResponse_accounts any_date any_date sample_digest
    sample_response sample_batch (uuid "4") (Some (uuid "5"))); vm_compute; reflexivity.
Defined.

Lemma parseInventoryProgressPage_chain_witness :
  Sorted.StronglySorted change_lt (concat (map pg_items
    [sample_page None 9; sample_page (Some (js "9:" ++ uuid "6")) 10])).
Proof.
  apply (parseInventoryProgressPage_chain any_date any_date (uuid "4") (uuid "3") 0).
  split; [vm_compute; reflexivity|]. right. split; [by eexists|].
  split; [vm_compute; reflexivity|]. by left.
Defined.
