(* ===== verification/Dates.v ===== *)
(** * Calendar dates: shelf life, shift numbers, printed dates

    [packages/domain/src/labels/shelf-life.ts], [labels/date.ts],
    [shift-number.ts] and [shift-close.ts], on the day arithmetic of
    ECMAScript's [Date] in UTC; with the calendar itself (one day after the
    other) as the specification. *)

From stdpp Require Import base list strings gmap.
From Stdlib Require Import ZArith Lia.
From S2P Require Import Prelude.

(** ** UTC day arithmetic of [Date] *)

(** [DayFromYear(y)]. *)
Definition day_from_year (y : Z) : Z :=
  365 * (y - 1970) + (y - 1969) / 4 - (y - 1901) / 100 + (y - 1601) / 400.

Definition leap (y : Z) : bool := (y mod 4 =? 0) && (negb (y mod 100 =? 0) || (y mod 400 =? 0)).

(** The day of the year on which a month (0 to 11) starts. *)
Definition month_start (y m : Z) : Z :=
  match m with
  | 0 => 0 | 1 => 31 | 2 => 59 | 3 => 90 | 4 => 120 | 5 => 151
  | 6 => 181 | 7 => 212 | 8 => 243 | 9 => 273 | 10 => 304 | 11 => 334 | _ => 365
  end + (if (1 <? m) && leap y then 1 else 0).

(** [MakeDay(year, month, date)]: months and dates out of range roll over. *)
Definition make_day (year month date : Z) : Z :=
  let ym := year + month / 12 in
  let mn := month mod 12 in
  day_from_year ym + month_start ym mn + date - 1.

(** [YearFromTime]: the year whose days include day [d]. *)
Definition year_from_day (d : Z) : Z :=
  let y := 1970 + (d * 400) / 146097 in
  if d <? day_from_year y then y - 1
  else if day_from_year (y + 1) <=? d then y + 1 else y.

(** [MonthFromTime]: the last month (0 to 11) that has started. *)
Definition month_from_day (d : Z) : Z :=
  let y := year_from_day d in
  let doy := d - day_from_year y in
  Z.of_nat (length (List.filter (fun m => month_start y m <=? doy)
                      [1; 2; 3; 4; 5; 6; 7; 8; 9; 10; 11])).

(** [DateFromTime]. *)
Definition date_from_day (d : Z) : Z :=
  let y := year_from_day d in
  d - day_from_year y - month_start y (month_from_day d) + 1.

(** [TimeClip]: a time is NaN past a hundred million days. *)
Definition time_nan (d : Z) : bool := 10 ^ 8 <? Z.abs d.

(** ** labels/date.ts and labels/shelf-life.ts *)

(** [ISO_DATE.exec(s)]: four digits, two digits, two digits between dashes. *)
Definition ISO_DATE (s : jsstr) : option (jsstr * jsstr * jsstr) :=
  let year := slice 0 4 s in
  let month := slice 5 7 s in
  let day := slice 8 10 s in
  if (length s =? 10)%nat && digits_n 4 year && jseqb (slice 4 5 s) (js "-")
     && digits_n 2 month && jseqb (slice 7 8 s) (js "-") && digits_n 2 day
  then Some (year, month, day) else None.

Definition formatLabelDate (isoDate : jsstr) : jsstr :=
  match ISO_DATE isoDate with
  | None => isoDate
  | Some (year, month, day) => day ++ js "." ++ month ++ js "." ++ year
  end.

Definition pad (value : Z) (width : nat) : jsstr := pad_start width 48 (js_of_Z value).

Definition addCalendarDays (isoDate : jsstr) (days : Z) : jsstr :=
  match ISO_DATE isoDate with
  | None => []
  | Some (year, month, day) =>
      let yearNumber := digits_value year in
      if (yearNumber <? 1) || (9999 <? yearNumber) then []
      else
        let base := make_day yearNumber (digits_value month - 1) (digits_value day) in
        if time_nan base then []
        else if negb (month_from_day base =? digits_value month - 1)
             || negb (date_from_day base =? digits_value day)
        then []
        else
          let base := make_day (year_from_day base) (month_from_day base)
                        (date_from_day base + days) in
          if time_nan base then []
          else if (year_from_day base <? 1) || (9999 <? year_from_day base) then []
          else pad (year_from_day base) 4 ++ js "-" ++ pad (month_from_day base + 1) 2
               ++ js "-" ++ pad (date_from_day base) 2
  end.

Definition shelfLifeExpiryDate (productionDate : jsstr) (shelfLifeDays : option jsnum) : jsstr :=
  match shelfLifeDays with
  | None => []
  | Some n =>
      if negb (is_integer n) || (int_value n <=? 0) then []
      else addCalendarDays productionDate (int_value n - 1)
  end.

(** ** shift-number.ts and shift-close.ts *)

Definition MONTH_KEYS : list jsstr :=
  [js "JAN"; js "FEB"; js "MAR"; js "APR"; js "MAY"; js "JUN"; js "JUL"; js "AUG"; js "SEP";
   js "OCT"; js "NOV"; js "DEC"].

(** [new Date(Date.UTC(year, month, 0)).getUTCDate()]; [Date.UTC] reads the
    years 0 to 99 as 1900 to 1999. *)
Definition days_in_month_utc (year month : Z) : Z :=
  let y := if (0 <=? year) && (year <=? 99) then 1900 + year else year in
  date_from_day (make_day y month 0).

Definition shiftMonthKey (isoDate : jsstr) : result jsstr :=
  match ISO_DATE isoDate with
  | None => throw "SHIFT_DATE_FORMAT"
  | Some (yearPart, monthPart, dayPart) =>
      let year := digits_value yearPart in
      let month := digits_value monthPart in
      let day := digits_value dayPart in
      if (month <? 1) || (12 <? month) then throw "SHIFT_DATE_FORMAT"
      else if (day <? 1) || (days_in_month_utc year month <? day) then throw "SHIFT_DATE_FORMAT"
      else Ok (nth (Z.to_nat (month - 1)) MONTH_KEYS [] ++ drop 2 yearPart)
  end.

Definition formatShiftNumber (monthKey : jsstr) (seq : Z) (station : bool) : jsstr :=
  monthKey ++ js "-" ++ pad_start 3 48 (js_of_Z seq) ++ (if station then js "/S" else []).

Definition SHIFT_CLOSE_REASON_CODES : list jsstr :=
  [js "production_defect"; js "material_shortage"; js "equipment_stop";
   js "production_order_changed"; js "planned_quantity_error"; js "other_production_deviation"].

Definition shiftCloseReasonRequired (plannedQty : option Z) (actualQty : Z) : bool :=
  match plannedQty with None => false | Some p => negb (p =? actualQty) end.

Definition isShiftCloseReasonCode (value : jsstr) : bool :=
  bool_decide (value ∈ SHIFT_CLOSE_REASON_CODES).

(** ** The calendar *)

Record Civil := { cy : Z; cm : Z; cd : Z }.

Definition month_length (y m : Z) : Z :=
  if m =? 2 then (if leap y then 29 else 28)
  else if (m =? 4) || (m =? 6) || (m =? 9) || (m =? 11) then 30 else 31.

Definition civil_ok (c : Civil) : Prop :=
  1 <= cm c <= 12 /\ 1 <= cd c <= month_length (cy c) (cm c).

(** The next day. *)
Definition tomorrow (c : Civil) : Civil :=
  if cd c <? month_length (cy c) (cm c) then {| cy := cy c; cm := cm c; cd := cd c + 1 |}
  else if cm c <? 12 then {| cy := cy c; cm := cm c + 1; cd := 1 |}
  else {| cy := cy c + 1; cm := 1; cd := 1 |}.

(** [YYYY-MM-DD]. *)
Definition iso (c : Civil) : jsstr :=
  pad (cy c) 4 ++ js "-" ++ pad (cm c) 2 ++ js "-" ++ pad (cd c) 2.

Definition day_of (c : Civil) : Z := make_day (cy c) (cm c - 1) (cd c).

(** ** Lemmas: days and years *)

Lemma day_from_year_succ y :
  day_from_year (y + 1) = day_from_year y + (if leap y then 366 else 365).
Proof.
  unfold day_from_year, leap.
  destruct (Z.eqb_spec (y mod 4) 0), (Z.eqb_spec (y mod 100) 0), (Z.eqb_spec (y mod 400) 0);
    cbn [andb orb negb]; Z.to_euclidean_division_equations; lia.
Qed.

Lemma day_from_year_lt y z : y < z -> day_from_year y < day_from_year z.
Proof. unfold day_from_year. intros H. Z.to_euclidean_division_equations. lia. Qed.

Lemma year_from_day_spec d :
  day_from_year (year_from_day d) <= d < day_from_year (year_from_day d + 1).
Proof.
  unfold year_from_day. set (y := 1970 + d * 400 / 146097).
  assert (Hb : day_from_year (y - 1) <= d < day_from_year (y + 2)).
  { unfold day_from_year, y. Z.to_euclidean_division_equations. lia. }
  destruct (Z.ltb_spec d (day_from_year y)).
  - replace (y - 1 + 1) with y by lia. lia.
  - destruct (Z.leb_spec (day_from_year (y + 1)) d); [|lia].
    replace (y + 1 + 1) with (y + 2) by lia. lia.
Qed.

Lemma year_from_day_unique d y :
  day_from_year y <= d < day_from_year (y + 1) -> year_from_day d = y.
Proof.
  intros H. pose proof (year_from_day_spec d) as Hs. set (z := year_from_day d) in *.
  destruct (Z.lt_trichotomy y z) as [Hl|[?|Hl]]; [|done|].
  - assert (y + 1 = z \/ y + 1 < z) as [E|Hl'] by lia; [rewrite E in H; lia|].
    apply day_from_year_lt in Hl'. lia.
  - assert (z + 1 = y \/ z + 1 < y) as [E|Hl'] by lia; [rewrite E in Hs; lia|].
    apply day_from_year_lt in Hl'. lia.
Qed.

(** ** Lemmas: months *)

Lemma make_day_month y m d :
  0 <= m <= 11 -> make_day y m d = day_from_year y + month_start y m + d - 1.
Proof.
  intros H. unfold make_day. cbv zeta.
  rewrite Z.div_small, Z.mod_small by lia. by rewrite Z.add_0_r.
Qed.

(** Splits on the twelve months. *)
Ltac months m H :=
  assert (m = 1 \/ m = 2 \/ m = 3 \/ m = 4 \/ m = 5 \/ m = 6 \/ m = 7 \/ m = 8 \/ m = 9 \/ m = 10
          \/ m = 11 \/ m = 12) as H by lia;
  repeat destruct H as [->|H]; [..|subst m].

Lemma month_start_succ y m :
  1 <= m <= 11 -> month_start y m = month_start y (m - 1) + month_length y m.
Proof.
  intros Hm. unfold month_start, month_length. destruct (leap y);
    (assert (m = 1 \/ m = 2 \/ m = 3 \/ m = 4 \/ m = 5 \/ m = 6 \/ m = 7 \/ m = 8 \/ m = 9 \/ m = 10
       \/ m = 11) as H by lia; repeat destruct H as [->|H]; [..|subst m]; reflexivity).
Qed.

Lemma month_start_first y : month_start y 0 = 0.
Proof. reflexivity. Qed.

Lemma month_start_last y : month_start y 11 + month_length y 12 = if leap y then 366 else 365.
Proof. unfold month_start, month_length. by destruct (leap y). Qed.

Lemma month_length_bounds y m : 28 <= month_length y m <= 31.
Proof. unfold month_length. repeat case_match; lia. Qed.

Lemma month_start_range y m :
  0 <= m <= 11 -> 0 <= month_start y m /\ month_start y m + month_length y (m + 1)
                                          <= (if leap y then 366 else 365).
Proof.
  intros Hm. unfold month_start, month_length. destruct (leap y);
    (assert (m = 0 \/ m = 1 \/ m = 2 \/ m = 3 \/ m = 4 \/ m = 5 \/ m = 6 \/ m = 7 \/ m = 8 \/ m = 9
       \/ m = 10 \/ m = 11) as H by lia; repeat destruct H as [->|H]; [..|subst m]; split; vm_compute; discriminate).
Qed.

Lemma count_started y m doy :
  0 <= m <= 11 -> month_start y m <= doy < month_start y m + month_length y (m + 1) ->
  Z.of_nat (length (List.filter (fun k => month_start y k <=? doy)
                      [1; 2; 3; 4; 5; 6; 7; 8; 9; 10; 11])) = m.
Proof.
  intros Hm. unfold month_start, month_length. destruct (leap y);
    (assert (m = 0 \/ m = 1 \/ m = 2 \/ m = 3 \/ m = 4 \/ m = 5 \/ m = 6 \/ m = 7 \/ m = 8 \/ m = 9
       \/ m = 10 \/ m = 11) as H by lia; repeat destruct H as [->|H]; [..|subst m]; cbn -[Z.leb];
     intros Hd; cbv [Z.eqb Z.add Pos.add Pos.eqb orb Pos.succ Pos.add_carry] in Hd |- *;
     repeat match goal with
     | |- context [?k <=? doy] => destruct (Z.leb_spec k doy); try (exfalso; lia)
     end; reflexivity).
Qed.

(** The day number of a civil date, and the date of a day number. *)
Lemma day_of_eq c :
  civil_ok c -> day_of c = day_from_year (cy c) + month_start (cy c) (cm c - 1) + cd c - 1.
Proof. intros [? ?]. apply make_day_month. lia. Qed.

Lemma day_of_year c : civil_ok c -> year_from_day (day_of c) = cy c.
Proof.
  intros Hc. pose proof Hc as [Hm Hd]. apply year_from_day_unique.
  rewrite day_of_eq, day_from_year_succ by done.
  pose proof (month_start_range (cy c) (cm c - 1) ltac:(lia)) as [? Hr].
  replace (cm c - 1 + 1) with (cm c) in Hr by lia. lia.
Qed.

Lemma day_of_month c : civil_ok c -> month_from_day (day_of c) = cm c - 1.
Proof.
  intros Hc. pose proof Hc as [Hm Hd]. unfold month_from_day. cbv zeta. rewrite day_of_year by done.
  apply count_started; [lia|]. rewrite day_of_eq by done.
  replace (cm c - 1 + 1) with (cm c) by lia. lia.
Qed.

Lemma day_of_date c : civil_ok c -> date_from_day (day_of c) = cd c.
Proof.
  intros Hc. unfold date_from_day. cbv zeta. rewrite day_of_year, day_of_month, day_of_eq by done. lia.
Qed.

Lemma tomorrow_ok c : civil_ok c -> civil_ok (tomorrow c).
Proof.
  intros [Hm Hd]. unfold tomorrow, civil_ok.
  pose proof (month_length_bounds (cy c) (cm c + 1)).
  pose proof (month_length_bounds (cy c + 1) 1). repeat case_match; cbn; bool_hyps; lia.
Qed.

Lemma day_of_tomorrow c : civil_ok c -> day_of (tomorrow c) = day_of c + 1.
Proof.
  intros Hc. pose proof Hc as [Hm Hd]. rewrite !day_of_eq by auto using tomorrow_ok.
  unfold tomorrow. destruct (Z.ltb_spec (cd c) (month_length (cy c) (cm c))); [cbn; lia|].
  assert (cd c = month_length (cy c) (cm c)) as -> by lia.
  destruct (Z.ltb_spec (cm c) 12); cbn [cy cm cd].
  - replace (cm c + 1 - 1) with (cm c) by lia. rewrite (month_start_succ _ (cm c)) by lia. lia.
  - assert (cm c = 12) as -> by lia. rewrite day_from_year_succ.
    pose proof (month_start_last (cy c)). change (12 - 1) with 11. change (1 - 1) with 0.
    rewrite month_start_first. lia.
Qed.

(** [n] days later. *)
Definition later (n : nat) (c : Civil) : Civil := Nat.iter n tomorrow c.

Lemma later_ok n c : civil_ok c -> civil_ok (later n c).
Proof. intros H. induction n; cbn; auto using tomorrow_ok. Qed.

Lemma day_of_later n c : civil_ok c -> day_of (later n c) = day_of c + Z.of_nat n.
Proof.
  intros H. induction n as [|n IH]; [cbn; lia|].
  change (later (S n) c) with (tomorrow (later n c)).
  rewrite day_of_tomorrow, IH by by apply later_ok. lia.
Qed.

Lemma day_of_inj c d : civil_ok c -> civil_ok d -> day_of c = day_of d -> c = d.
Proof.
  intros Hc Hd E. destruct c as [y m k] eqn:Ec, d as [y' m' k'] eqn:Ed; subst.
  pose proof (day_of_year _ Hc) as H1. pose proof (day_of_month _ Hc) as H2.
  pose proof (day_of_date _ Hc) as H3.
  rewrite E, ?day_of_year, ?day_of_month, ?day_of_date in * by done. cbn in *.
  f_equal; lia.
Qed.

Lemma month_exists y doy :
  0 <= doy < (if leap y then 366 else 365) ->
  exists m, 0 <= m <= 11 /\ month_start y m <= doy < month_start y m + month_length y (m + 1).
Proof.
  intros Hd. pose proof (month_start_last y) as Hl.
  assert (H : forall k : nat, (k <= 11)%nat -> doy < month_start y (Z.of_nat k) ->
    exists m, 0 <= m <= 11 /\ month_start y m <= doy < month_start y m + month_length y (m + 1)).
  { induction k as [|k IH]; intros Hk Hlt; [rewrite month_start_first in Hlt; lia|].
    destruct (Z.lt_ge_cases doy (month_start y (Z.of_nat k))) as [|Hge]; [apply IH; lia|].
    exists (Z.of_nat k). pose proof (month_start_succ y (Z.of_nat k + 1) ltac:(lia)) as E.
    replace (Z.of_nat k + 1 - 1) with (Z.of_nat k) in E by lia.
    replace (Z.of_nat (S k)) with (Z.of_nat k + 1) in Hlt by lia. lia. }
  destruct (Z.lt_ge_cases doy (month_start y 11)) as [Hlt|Hge]; [apply (H 11%nat); [lia | exact Hlt]|].
  exists 11. change (11 + 1) with 12. lia.
Qed.

(** Every day number is the day of a civil date. *)
Lemma civil_of_day d : exists c, civil_ok c /\ day_of c = d.
Proof.
  pose proof (year_from_day_spec d) as Hy. set (y := year_from_day d) in *.
  rewrite day_from_year_succ in Hy.
  destruct (month_exists y (d - day_from_year y)) as (m & Hm & Hr); [lia|].
  exists {| cy := y; cm := m + 1; cd := d - day_from_year y - month_start y m + 1 |}.
  assert (civil_ok {| cy := y; cm := m + 1; cd := d - day_from_year y - month_start y m + 1 |})
    by (split; cbn [cy cm cd]; lia).
  split; [done|]. rewrite day_of_eq by done. cbn [cy cm cd].
  replace (m + 1 - 1) with m by lia. lia.
Qed.

Lemma month_start_leap y z m : Z.abs (month_start y m - month_start z m) <= 1.
Proof. unfold month_start. destruct (_ && leap y), (_ && leap z); lia. Qed.

(** The guard of [addCalendarDays]: a year, month and date survive the round
    trip through a day number exactly when they are a civil date. *)
Lemma exists_guard y m d :
  0 <= m <= 99 -> 0 <= d <= 99 ->
  month_from_day (make_day y (m - 1) d) = m - 1 /\ date_from_day (make_day y (m - 1) d) = d <->
  civil_ok {| cy := y; cm := m; cd := d |}.
Proof.
  intros Hm Hd. split.
  - intros [E1 E2]. destruct (civil_of_day (make_day y (m - 1) d)) as (c & Hc & Ec).
    rewrite <- Ec, day_of_month in E1 by done. rewrite <- Ec, day_of_date in E2 by done.
    pose proof Hc as [Hcm Hcd]. rewrite make_day_month, day_of_eq in Ec by (done || lia).
    rewrite E1, E2 in Ec. pose proof (month_start_leap (cy c) y (m - 1)).
    assert (cy c = y) as Hy.
    { destruct (Z.lt_trichotomy (cy c) y) as [Hl|[?|Hl]]; [exfalso|done|exfalso];
        unfold day_from_year in Ec; Z.to_euclidean_division_equations; lia. }
    destruct c as [y' m' d']. cbn in *. subst. by replace m with m' by lia.
  - intros Hc. change (make_day y (m - 1) d) with (day_of {| cy := y; cm := m; cd := d |}).
    by rewrite (day_of_month _ Hc), (day_of_date _ Hc).
Qed.

(** ** Lemmas: dates as texts *)

Lemma pad_spec v w :
  0 <= v < 10 ^ Z.of_nat w -> (0 < w)%nat ->
  digits_n w (pad v w) = true /\ length (pad v w) = w /\ digits_value (pad v w) = v.
Proof.
  intros Hv Hw. unfold pad. rewrite js_of_Z_nonneg by lia.
  destruct (js_of_nonneg_spec v) as (Hd & Hval & _); [lia|].
  pose proof (js_of_nonneg_length v w Hv Hw) as Hl.
  assert (Hlen : length (pad_start w 48 (js_of_nonneg v)) = w) by (rewrite length_pad_start; lia).
  rewrite digits_value_pad. split; [|done].
  unfold digits_n. rewrite Hlen, Nat.eqb_refl. by apply all_digits_pad.
Qed.

Lemma digits_pad w s : digits_n w s = true -> (0 < w)%nat -> pad (digits_value s) w = s.
Proof.
  intros Hs Hw. unfold digits_n in Hs. apply andb_true_iff in Hs as [Hl%Nat.eqb_eq Hd].
  pose proof (digits_value_bound s Hd) as Hb. rewrite Hl in Hb.
  destruct (pad_spec _ w Hb Hw) as (Hp & Hpl & Hpv). unfold digits_n in Hp.
  apply andb_true_iff in Hp as [_ Hp]. apply digits_value_inj; auto. lia.
Qed.

(** What is written after the last dash of a number of a document. *)
Lemma digits_after_dash a b x y :
  forallb is_digit x = true -> forallb is_digit y = true ->
  a ++ [45] ++ x = b ++ [45] ++ y -> x = y.
Proof.
  intros Hx Hy H. apply (f_equal reverse) in H. rewrite !reverse_app in H.
  assert (Hr : forall l k r s : jsstr, forallb is_digit l = true -> forallb is_digit k = true ->
    l ++ 45 :: r = k ++ 45 :: s -> l = k).
  { clear. induction l as [|c l IH]; intros [|d k] r s Hl Hk E; cbn in *; simplify_eq; try done.
    f_equal. apply andb_true_iff in Hl as [_ Hl], Hk as [_ Hk]. by eapply IH. }
  rewrite <- (reverse_involutive x), <- (reverse_involutive y). f_equal.
  assert (Hd : forall l, forallb is_digit l = true -> forallb is_digit (reverse l) = true).
  { clear. intros l. rewrite !forallb_forall. intros Hl c Hc. apply Hl.
    by apply list_elem_of_In, elem_of_reverse, list_elem_of_In. }
  eapply Hr; [by apply Hd.. |]. rewrite <- !app_assoc in H. exact H.
Qed.

Lemma dash_pad_inj a b n m w :
  0 <= n -> 0 <= m -> a ++ [45] ++ pad n w = b ++ [45] ++ pad m w -> n = m.
Proof.
  intros Hn Hm H. unfold pad in H. rewrite !js_of_Z_nonneg in H by done.
  destruct (js_of_nonneg_spec n Hn) as (Hdn & Hvn & _), (js_of_nonneg_spec m Hm) as (Hdm & Hvm & _).
  apply digits_after_dash in H; [|by apply all_digits_pad..].
  apply (f_equal digits_value) in H. rewrite !digits_value_pad in H. congruence.
Qed.

Lemma ISO_DATE_join y m d :
  digits_n 4 y = true -> digits_n 2 m = true -> digits_n 2 d = true ->
  ISO_DATE (y ++ js "-" ++ m ++ js "-" ++ d) = Some (y, m, d).
Proof.
  intros Hy Hm Hd. unfold ISO_DATE.
  assert (length y = 4%nat /\ length m = 2%nat /\ length d = 2%nat) as (Ly & Lm & Ld).
  { unfold digits_n in *. bool_hyps. auto. }
  destruct y as [|? [|? [|? [|? []]]]], m as [|? [|? []]], d as [|? [|? []]]; try done.
  js_lits. unfold slice. cbn -[digits_n jseqb]. by rewrite Hy, Hm, Hd, !jseqb_refl.
Qed.

Lemma ISO_DATE_Some s y m d :
  ISO_DATE s = Some (y, m, d) ->
  digits_n 4 y = true /\ digits_n 2 m = true /\ digits_n 2 d = true
  /\ s = y ++ js "-" ++ m ++ js "-" ++ d.
Proof.
  unfold ISO_DATE. cbv zeta. case_match eqn:E; [|done]. bool_hyps.
  intros H'. apply (inj Some) in H'. injection H' as <- <- <-. repeat (split; [done|]).
  trans (slice 0 4 s ++ slice 4 5 s ++ slice 5 7 s ++ slice 7 8 s ++ slice 8 10 s);
    [|congruence].
  match goal with H : length s = _ |- _ => rename H into Hl end.
  clear -Hl. do 11 (destruct s as [|? s]; try discriminate Hl). reflexivity.
Qed.

Definition year_ok (c : Civil) : Prop := 0 <= cy c <= 9999.

Lemma ISO_DATE_iso c :
  civil_ok c -> year_ok c -> ISO_DATE (iso c) = Some (pad (cy c) 4, pad (cm c) 2, pad (cd c) 2).
Proof.
  intros [Hm Hd] Hy. unfold year_ok in Hy. pose proof (month_length_bounds (cy c) (cm c)).
  apply ISO_DATE_join; apply pad_spec; cbn; lia.
Qed.

Lemma iso_values c :
  civil_ok c -> year_ok c ->
  digits_value (pad (cy c) 4) = cy c /\ digits_value (pad (cm c) 2) = cm c
  /\ digits_value (pad (cd c) 2) = cd c.
Proof.
  intros [Hm Hd] Hy. unfold year_ok in Hy. pose proof (month_length_bounds (cy c) (cm c)).
  repeat split; apply pad_spec; cbn; lia.
Qed.

Lemma year_from_day_bound c k : civil_ok c -> cy c <= 9999 -> 1 <= cy c -> k = day_of c ->
  time_nan k = false.
Proof.
  intros Hc H1 H2 ->. unfold time_nan. apply Z.ltb_ge. rewrite day_of_eq by done.
  pose proof Hc as [Hm Hd]. pose proof (month_start_range (cy c) (cm c - 1) ltac:(lia)) as [? Hr].
  pose proof (month_length_bounds (cy c) (cm c)).
  assert ((if leap (cy c) then 366 else 365) <= 366) by (destruct (leap _); lia).
  pose proof (month_length_bounds (cy c) (cm c - 1 + 1)).
  unfold day_from_year. change (10 ^ 8) with 100000000. Z.to_euclidean_division_equations. lia.
Qed.

(** [addCalendarDays] on a date, for any number of days that leads to a date
    [c'] of the calendar. *)
Lemma addCalendarDays_day c c' n :
  civil_ok c -> civil_ok c' -> 1 <= cy c <= 9999 -> 1 <= cy c' -> day_of c' = day_of c + n ->
  addCalendarDays (iso c) n = if cy c' <=? 9999 then iso c' else [].
Proof.
  intros Hc Hc' Hy Hy' Hd. assert (year_ok c) as Hyo by (unfold year_ok; lia).
  unfold addCalendarDays. rewrite ISO_DATE_iso by done. cbv zeta.
  destruct (iso_values c Hc Hyo) as (-> & -> & ->).
  fold (day_of c). rewrite (year_from_day_bound c) by (done || lia).
  rewrite day_of_year, day_of_month, day_of_date, !Z.eqb_refl by done. cbn [negb orb].
  assert (Hb : make_day (cy c) (cm c - 1) (cd c + n) = day_of c').
  { pose proof Hc as [Hm _]. rewrite Hd, day_of_eq, make_day_month by (done || lia). lia. }
  rewrite Hb, day_of_year, day_of_month, day_of_date by done.
  rewrite (proj2 (Z.ltb_ge (cy c) 1)), (proj2 (Z.ltb_ge 9999 (cy c))) by lia. cbn [orb].
  rewrite (proj2 (Z.ltb_ge (cy c') 1)) by lia. cbn [orb].
  destruct (Z.leb_spec (cy c') 9999).
  - rewrite (year_from_day_bound c') by (done || lia).
    rewrite (proj2 (Z.ltb_ge 9999 (cy c'))) by lia.
    replace (cm c' - 1 + 1) with (cm c') by lia. reflexivity.
  - rewrite (proj2 (Z.ltb_lt 9999 (cy c'))) by lia. by destruct (time_nan _).
Qed.

Lemma later_year n c : cy c <= cy (later n c).
Proof.
  induction n as [|n IH]; [done|]. change (later (S n) c) with (tomorrow (later n c)).
  unfold tomorrow at 1. repeat case_match; cbn; lia.
Qed.

Lemma addCalendarDays_domain s n :
  addCalendarDays s n <> [] -> exists c, civil_ok c /\ 1 <= cy c <= 9999 /\ s = iso c.
Proof.
  unfold addCalendarDays. destruct (ISO_DATE s) as [[[y m] d]|] eqn:E; [|done]. cbv zeta.
  apply ISO_DATE_Some in E as (Hy & Hm & Hd & ->).
  destruct (_ || _) eqn:Ey; [done|]. destruct (time_nan (make_day _ _ _)) eqn:En; [done|].
  destruct (negb _ || _) eqn:Eg; [done|]. intros _. bool_hyps.
  assert (Hr : forall w s, digits_n w s = true -> 0 <= digits_value s < 10 ^ Z.of_nat w).
  { intros w s' Hs. unfold digits_n in Hs. bool_hyps. subst w. by apply digits_value_bound. }
  pose proof (Hr _ _ Hm). pose proof (Hr _ _ Hd). cbn in *.
  exists {| cy := digits_value y; cm := digits_value m; cd := digits_value d |}.
  split; [apply exists_guard; [lia | lia | auto]|]. split; [cbn; lia|].
  unfold iso. cbn [cy cm cd]. by rewrite !digits_pad by (done || lia).
Qed.

Lemma days_in_month_utc_spec y m :
  0 <= y -> 1 <= m <= 12 -> (y = 0 -> m <> 2) -> days_in_month_utc y m = month_length y m.
Proof.
  intros Hy Hm H0. unfold days_in_month_utc. set (z := if (0 <=? y) && (y <=? 99) then 1900 + y else y).
  assert (Hz : month_length z m = month_length y m).
  { unfold z. destruct (_ && _) eqn:E; [|done]. bool_hyps. unfold month_length.
    destruct (Z.eqb_spec m 2); [|done].
    assert (leap (1900 + y) = leap y) as ->; [|done]. unfold leap. apply eq_bool_prop_intro.
    rewrite !Is_true_true, !andb_true_iff, !orb_true_iff, !negb_true_iff, !Z.eqb_eq, !Z.eqb_neq.
    Z.to_euclidean_division_equations. lia. }
  rewrite <- Hz. pose proof (month_length_bounds z m).
  assert (make_day z m 0 = day_of {| cy := z; cm := m; cd := month_length z m |}) as ->.
  { assert (civil_ok {| cy := z; cm := m; cd := month_length z m |}) by (split; cbn [cy cm cd]; lia).
    rewrite day_of_eq by done. cbn [cy cm cd].
    destruct (Z.eq_dec m 12) as [->|Hne].
    - unfold make_day. cbv zeta. change (12 / 12) with 1. change (12 mod 12) with 0.
      rewrite day_from_year_succ, month_start_first. pose proof (month_start_last z).
      change (12 - 1) with 11. lia.
    - rewrite make_day_month, (month_start_succ z m) by lia. lia. }
  apply (day_of_date {| cy := z; cm := m; cd := month_length z m |}). split; cbn [cy cm cd]; lia.
Qed.

(** ** Theorems *)

(** the calendar arithmetic is right against the calendar itself: adding
    [n] days to a date gives the date [n] tomorrows later (an empty text past
    year 9999), a shelf life of [n + 1] days counts the production day as day
    one, taking the days off again gives the date back, and a text that is not
    an existing date of the years 1 to 9999 gives an empty text. *)
Theorem addCalendarDays_calendar c n :
  civil_ok c -> 1 <= cy c <= 9999 ->
  addCalendarDays (iso c) (Z.of_nat n) = (if cy (later n c) <=? 9999 then iso (later n c) else [])
  /\ shelfLifeExpiryDate (iso c) (Some (num (Z.of_nat n + 1))) = addCalendarDays (iso c) (Z.of_nat n)
  /\ (cy (later n c) <= 9999 -> addCalendarDays (iso (later n c)) (- Z.of_nat n) = iso c)
  /\ forall s k, addCalendarDays s k <> [] ->
     exists c', civil_ok c' /\ 1 <= cy c' <= 9999 /\ s = iso c'.
Proof.
  intros Hc Hy. pose proof (later_ok n c Hc) as Hl. pose proof (later_year n c).
  pose proof (day_of_later n c Hc) as Hd. split; [|split; [|split]].
  - apply addCalendarDays_day; auto; lia.
  - unfold shelfLifeExpiryDate. autorewrite with jsnum.
    rewrite (proj2 (Z.leb_gt _ 0)) by lia. cbn [negb orb]. 
    by replace (Z.of_nat n + 1 - 1) with (Z.of_nat n) by lia.
  - intros Hb. rewrite (addCalendarDays_day (later n c) c) by (done || lia).
    by rewrite (proj2 (Z.leb_le (cy c) 9999)) by lia.
  - intros s k. apply addCalendarDays_domain.
Qed.

(** a shift number's month bucket is drawn from real dates only: every
    date from year 1 on has one, which names its month and the last two digits
    of its year; any other text is refused with [SHIFT_DATE_FORMAT]. *)
Theorem shiftMonthKey_dates s :
  (forall c, civil_ok c -> 1 <= cy c <= 9999 -> s = iso c ->
   exists name, MONTH_KEYS !! Z.to_nat (cm c - 1) = Some name
   /\ shiftMonthKey s = Ok (name ++ pad (cy c mod 100) 2))
  /\ ((forall c, civil_ok c -> year_ok c -> s <> iso c) ->
      shiftMonthKey s = throw "SHIFT_DATE_FORMAT").
Proof.
  split.
  - intros c Hc Hy ->. pose proof Hc as [Hm Hd].
    assert (year_ok c) as Hyo by (unfold year_ok; lia). unfold shiftMonthKey.
    rewrite ISO_DATE_iso by done. cbv zeta. destruct (iso_values c Hc Hyo) as (Ey & -> & ->).
    rewrite Ey. clear Ey. destruct (MONTH_KEYS !! Z.to_nat (cm c - 1)) as [name|] eqn:En.
    2: { apply lookup_ge_None in En. change (length MONTH_KEYS) with 12%nat in En. lia. }
    exists name. split; [done|]. rewrite days_in_month_utc_spec by lia.
    rewrite !(proj2 (Z.ltb_ge _ _)) by lia. cbn [orb]. f_equal.
    rewrite nth_lookup, En. cbn [default]. f_equal.
    destruct (pad_spec (cy c) 4) as (Hp & Hpl & Hpv); [cbn; lia..|].
    unfold digits_n in Hp. bool_hyps.
    assert (Hdig : digits_n 2 (drop 2 (pad (cy c) 4)) = true).
    { unfold digits_n. rewrite length_drop, Hpl. cbn.
      assert (Hs : forallb is_digit (take 2 (pad (cy c) 4) ++ drop 2 (pad (cy c) 4)) = true)
        by by rewrite take_drop.
      rewrite forallb_app in Hs. by bool_hyps. }
    rewrite <- (digits_pad 2 (drop 2 (pad (cy c) 4))) by (done || lia). f_equal.
    pose proof (digits_value_app (take 2 (pad (cy c) 4)) (drop 2 (pad (cy c) 4))) as E.
    rewrite take_drop, Hpv, length_drop, Hpl in E. cbn in E.
    unfold digits_n in Hdig. bool_hyps. pose proof (digits_value_bound _ ltac:(eassumption)) as Hb.
    rewrite length_drop, Hpl in Hb. cbn in Hb. Z.to_euclidean_division_equations. lia.
  - intros Hno. unfold shiftMonthKey. destruct (ISO_DATE s) as [[[y m] d]|] eqn:E; [|done]. cbv zeta.
    apply ISO_DATE_Some in E as (Hy & Hm & Hd & ->).
    destruct (_ || _) eqn:E1; [done|]. destruct ((_ <? 1) || (days_in_month_utc _ _ <? _)) eqn:E2; [done|].
    exfalso. bool_hyps.
    assert (Hb : 0 <= digits_value y < 10 ^ Z.of_nat 4).
    { unfold digits_n in Hy. bool_hyps.
      pose proof (digits_value_bound y ltac:(eassumption)) as Hb.
      match goal with H : length y = _ |- _ => by rewrite H in Hb end. }
    cbn in Hb.
    apply (Hno {| cy := digits_value y; cm := digits_value m; cd := digits_value d |}).
    + split; cbn [cy cm cd]; [lia|].
      destruct (Z.eq_dec (digits_value y) 0) as [E0|];
        [|rewrite <- days_in_month_utc_spec by lia; lia].
      destruct (Z.eq_dec (digits_value m) 2) as [E2|];
        [|rewrite <- days_in_month_utc_spec by lia; lia].
      rewrite E0, E2 in *.
      assert (days_in_month_utc 0 2 = 28) by (vm_compute; reflexivity).
      pose proof (month_length_bounds 0 2). lia.
    + unfold year_ok; cbn; lia.
    + unfold iso. cbn [cy cm cd]. by rewrite !digits_pad by (done || lia).
Qed.

(** ** Witnesses *)

Lemma addCalendarDays_calendar_witness :
  addCalendarDays (js "2024-02-28") 2 = js "2024-03-01".
Proof.
  pose proof (proj1 (addCalendarDays_calendar {| cy := 2024; cm := 2; cd := 28 |} 2
    ltac:(repeat split; vm_compute; discriminate) ltac:(split; vm_compute; discriminate))) as H.
  vm_compute in H. exact H.
Defined.

Lemma shiftMonthKey_dates_witness :
  shiftMonthKey (js "2026-08-31") = Ok (js "AUG26")
  /\ shiftMonthKey (js "nonsense") = throw "SHIFT_DATE_FORMAT".
Proof.
  split.
  - destruct (proj1 (shiftMonthKey_dates (js "2026-08-31")) {| cy := 2026; cm := 8; cd := 31 |})
      as (name & Hn & E).
    + repeat split; vm_compute; discriminate.
    + split; vm_compute; discriminate.
    + vm_compute. reflexivity.
    + rewrite E. vm_compute in Hn. injection Hn as <-. vm_compute. reflexivity.
  - vm_compute. reflexivity.
Defined.
