(* ===== verification/InventoryDocs.v ===== *)
(** * Inventory documents: the format registry and the boxes they list

    [packages/domain/src/inventory/documents.ts]: the document formats and the
    registry that resolves them; [inventory/document-selection.ts]: the boxes
    a document may list.  Zod's civil date check is a parameter. *)

From stdpp Require Import base list strings gmap.
From Stdlib Require Import ZArith Lia.
From S2P Require Import Prelude DocText.

(** ** Format descriptors *)

Inductive SourceCategory :=
  cat_expected | cat_verified | cat_writeOffCandidates | cat_protected | cat_ineligible | cat_unknown
| cat_oldBoxes | cat_newBoxes | cat_observedDateGroups.
#[export] Instance SourceCategory_eq_dec : EqDecision SourceCategory.
Proof. solve_decision. Defined.

Definition INVENTORY_DOCUMENT_SOURCE_CATEGORIES : list SourceCategory :=
  [cat_expected; cat_verified; cat_writeOffCandidates; cat_protected; cat_ineligible; cat_unknown;
   cat_oldBoxes; cat_newBoxes; cat_observedDateGroups].

Record InventoryDocumentFormatDescriptor := {
  id : jsstr; version : Z; label : jsstr; extension : jsstr; mimeType : jsstr;
  requiredSourceCategories : list SourceCategory; supportsParts : bool; available : bool;
  requiresOrganizationInn : bool
}.

(** [[a-z]], [[a-z0-9_]], [[a-z0-9]], [[a-z0-9-]]. *)
Definition is_lower (c : Z) : bool := (97 <=? c) && (c <=? 122).
Definition is_lower_digit (c : Z) : bool := is_lower c || is_digit c.

(** [[^\s/;]+]. *)
Definition mime_token (s : jsstr) : bool :=
  (1 <=? length s)%nat && forallb (fun c => negb (is_space c || (c =? 47) || (c =? 59))) s.

(** [INVENTORY_DOCUMENT_MIME_TYPE_PATTERN]. *)
Definition mime_matches (s : jsstr) : bool :=
  match index_of 47 s with
  | None => false
  | Some i =>
      let rest := drop (S i) s in
      mime_token (take i s)
      && match index_of 59 rest with
         | None => mime_token rest
         | Some j =>
             let charset := drop 10 (drop j rest) in
             mime_token (take j rest) && starts_with (js "; charset=") (drop j rest)
             && (1 <=? length charset)%nat
             && forallb (fun c => is_lower_digit c || (c =? 45)) charset
         end
  end.

Definition id_matches (s : jsstr) : bool :=
  match s with
  | [] => false
  | c :: s' => is_lower c && (length s' <=? 63)%nat
               && forallb (fun c => is_lower_digit c || (c =? 95)) s'
  end.

Definition length_in (a b : nat) {A} (s : list A) : bool :=
  (a <=? length s)%nat && (length s <=? b)%nat.

(** What the schema makes of a descriptor: its texts trimmed. *)
Definition inventoryDocumentFormatDescriptorSchema (d : InventoryDocumentFormatDescriptor)
  : option InventoryDocumentFormatDescriptor :=
  let label' := trim (label d) in
  let mime := trim (mimeType d) in
  if id_matches (id d) && ((1 <=? version d) && (version d <=? 2147483647))
     && length_in 1 200 label'
     && (length_in 1 16 (extension d) && forallb is_lower_digit (extension d))
     && (length_in 1 128 mime && mime_matches mime)
     && length_in 1 (length INVENTORY_DOCUMENT_SOURCE_CATEGORIES) (requiredSourceCategories d)
     && all_distinct (requiredSourceCategories d)
  then Some {| id := id d; version := version d; label := label'; extension := extension d;
               mimeType := mime; requiredSourceCategories := requiredSourceCategories d;
               supportsParts := supportsParts d; available := available d;
               requiresOrganizationInn := requiresOrganizationInn d |}
  else None.

Inductive RegistryError :=
  INVALID_DESCRIPTOR | DUPLICATE_FORMAT_ID | DUPLICATE_FORMAT_VERSION | FORMAT_UNKNOWN
| FORMAT_SUPERSEDED | FORMAT_UNAVAILABLE.

(** ** The registry *)

(** [currentById] keeps the order of insertion, as a JavaScript [Map] does. *)
Record InventoryDocumentRegistry := {
  byRegisteredVersion : gmap jsstr InventoryDocumentFormatDescriptor;
  registeredIds : gset jsstr;
  currentById : list (jsstr * InventoryDocumentFormatDescriptor)
}.

Definition formatKey (i : jsstr) (v : Z) : jsstr := i ++ js "@" ++ js_of_Z v.

Definition map_get {A} (m : list (jsstr * A)) (key : jsstr) : option A :=
  snd <$> List.find (fun entry => jseqb (fst entry) key) m.

(** One turn of the loop of [createInventoryDocumentRegistry]. *)
Definition register (r : InventoryDocumentRegistry) (value : InventoryDocumentFormatDescriptor)
  : InventoryDocumentRegistry + RegistryError :=
  match inventoryDocumentFormatDescriptorSchema value with
  | None => inr INVALID_DESCRIPTOR
  | Some descriptor =>
      let key := formatKey (id descriptor) (version descriptor) in
      if bool_decide (is_Some (byRegisteredVersion r !! key)) then inr DUPLICATE_FORMAT_VERSION
      else if available descriptor && bool_decide (is_Some (map_get (currentById r) (id descriptor)))
      then inr DUPLICATE_FORMAT_ID
      else inl {| byRegisteredVersion := <[key := descriptor]> (byRegisteredVersion r);
                  registeredIds := {[id descriptor]} ∪ registeredIds r;
                  currentById := if available descriptor
                                 then currentById r ++ [(id descriptor, descriptor)]
                                 else currentById r |}
  end.

Definition empty_registry : InventoryDocumentRegistry :=
  {| byRegisteredVersion := ∅; registeredIds := ∅; currentById := [] |}.

Definition createInventoryDocumentRegistry (input : list InventoryDocumentFormatDescriptor)
  : InventoryDocumentRegistry + RegistryError :=
  fold_left (fun acc value => match acc with inl r => register r value | inr e => inr e end)
    input (inl empty_registry).

Definition listAvailable (r : InventoryDocumentRegistry) : list InventoryDocumentFormatDescriptor :=
  map snd (currentById r).

Definition resolve (r : InventoryDocumentRegistry) (i : jsstr) (v : Z)
  : InventoryDocumentFormatDescriptor + RegistryError :=
  match map_get (currentById r) i with
  | Some current => if negb (version current =? v) then inr FORMAT_SUPERSEDED else inl current
  | None => if bool_decide (i ∈ registeredIds r) then inr FORMAT_UNAVAILABLE else inr FORMAT_UNKNOWN
  end.

Definition resolveRegistered (r : InventoryDocumentRegistry) (i : jsstr) (v : Z)
  : InventoryDocumentFormatDescriptor + RegistryError :=
  match byRegisteredVersion r !! formatKey i v with
  | Some descriptor => inl descriptor
  | None => inr FORMAT_UNKNOWN
  end.

(** ** The shipped formats *)

Definition XML : jsstr := js "application/xml; charset=utf-8".
Definition CSV : jsstr := js "text/csv; charset=utf-8".
Definition TXT : jsstr := js "text/plain; charset=utf-8".
Definition with_boxes : list SourceCategory := [cat_verified; cat_protected; cat_newBoxes].

Definition descriptor (i : string) (v : Z) (l ext : string) (mime : jsstr)
  (cats : list SourceCategory) (avail inn : bool) : InventoryDocumentFormatDescriptor :=
  {| id := js i; version := v; label := js l; extension := js ext; mimeType := mime;
     requiredSourceCategories := cats; supportsParts := false; available := avail;
     requiresOrganizationInn := inn |}.

Definition legacyAggregationV1 : InventoryDocumentFormatDescriptor :=
  descriptor "inventory_xml_gismt_aggregation" 1 "[XML][ГИСМТ] Формирование упаковки" "xml" XML
    with_boxes false true.

Definition legacyCurrentStockCsvV1 : InventoryDocumentFormatDescriptor :=
  descriptor "inventory_csv_current_stock" 1 "[CSV] Коды на учёт" "csv" CSV
    [cat_verified; cat_protected] false false.

Definition INVENTORY_DOCUMENT_FORMATS : list InventoryDocumentFormatDescriptor :=
  [ descriptor "inventory_pdf_act" 1 "[PDF] Акт об инвентаризации" "pdf" (js "application/pdf")
      INVENTORY_DOCUMENT_SOURCE_CATEGORIES true true;
    descriptor "inventory_xml_gismt_aggregation" 2 "[XML][ГИСМТ] Формирование упаковки" "xml" XML
      with_boxes true true;
    descriptor "inventory_xml_gismt_disaggregation" 1 "[XML][ГИСМТ] Расформирование упаковки" "xml" XML
      with_boxes true true;
    descriptor "inventory_txt_write_off" 1 "[TXT] Коды к списанию" "txt" TXT
      [cat_writeOffCandidates; cat_protected] true false;
    descriptor "inventory_csv_write_off" 1 "[CSV] Коды к списанию" "csv" CSV
      [cat_writeOffCandidates; cat_protected] true false;
    descriptor "inventory_csv_current_stock" 2 "[CSV] Коды на учёт" "csv" CSV
      [cat_verified; cat_protected] true false;
    descriptor "inventory_txt_current_stock" 1 "[TXT] Коды на учёт" "txt" TXT
      [cat_verified; cat_protected] true false;
    descriptor "inventory_csv_final_box_contents" 1 "[CSV] Состав итоговых коробов" "csv" CSV
      with_boxes true false;
    descriptor "inventory_txt_final_boxes" 1 "[TXT] Номера итоговых коробов" "txt" TXT
      with_boxes true false;
    descriptor "inventory_csv_balances_by_production_date" 1 "[CSV] Остатки по датам производства"
      "csv" CSV with_boxes true false ].

Definition inventoryDocumentRegistry : InventoryDocumentRegistry + RegistryError :=
  createInventoryDocumentRegistry
    (legacyAggregationV1 :: legacyCurrentStockCsvV1 :: INVENTORY_DOCUMENT_FORMATS).

(** ** The boxes of a document *)

Inductive BoxLifecycle := box_open | box_closed | box_invalidated.
Inductive PrintState := not_ready | pending | printing | printed | failed.
#[export] Instance BoxLifecycle_eq_dec : EqDecision BoxLifecycle.
Proof. solve_decision. Defined.
#[export] Instance PrintState_eq_dec : EqDecision PrintState.
Proof. solve_decision. Defined.

Record VerifiedCode := {
  v_codeHash : jsstr; v_canonicalRaw : jsstr; v_observedProductionDate : option jsstr
}.

Record NewBox := {
  nb_sscc : jsstr; nb_oldSsccContext : option jsstr; nb_state : BoxLifecycle;
  nb_printState : PrintState; nb_productionDate : jsstr; nb_codeHashes : list jsstr
}.

(** The part of the generation source the selection reads. *)
Record InventoryDocumentGenerationSource := {
  verified : list VerifiedCode; protected : list jsstr; newBoxes : list NewBox
}.

Record FinalCode := { f_codeHash : jsstr; f_canonicalRaw : jsstr; f_observedProductionDate : jsstr }.

Record EligibleInventoryFinalBox := {
  fb_sscc : jsstr; fb_oldSsccContext : option jsstr; fb_productionDate : jsstr;
  fb_codes : list FinalCode
}.

Section Selection.
Context (civilDateSchema : jsstr -> bool).

(** [new Map(source.verified.map((code) => [code.codeHash, code]))]. *)
Definition verifiedByHash (source : InventoryDocumentGenerationSource) : gmap jsstr VerifiedCode :=
  fold_left (fun m code => <[v_codeHash code := code]> m) (verified source) ∅.

(** The loop over the hashes of a box; [None] is [return []]. *)
Fixpoint box_codes_of (protectedHashes : gset jsstr) (byHash : gmap jsstr VerifiedCode)
  (date : jsstr) (hashes : list jsstr) : option (list FinalCode) :=
  match hashes with
  | [] => Some []
  | h :: hashes' =>
      match byHash !! h with
      | None => None
      | Some code =>
          if bool_decide (h ∈ protectedHashes)
             || negb (bool_decide (v_observedProductionDate code = Some date))
          then None
          else codes ← box_codes_of protectedHashes byHash date hashes';
               Some ({| f_codeHash := v_codeHash code; f_canonicalRaw := v_canonicalRaw code;
                        f_observedProductionDate := date |} :: codes)
      end
  end.

Definition final_box (source : InventoryDocumentGenerationSource) (box : NewBox)
  : list EligibleInventoryFinalBox :=
  if negb (bool_decide (nb_state box = box_closed))
     || negb (bool_decide (nb_printState box = printed))
     || (length (nb_codeHashes box) =? 0)%nat
     || negb (all_distinct (nb_codeHashes box))
     || negb (civilDateSchema (nb_productionDate box))
  then []
  else match box_codes_of (list_to_set (protected source)) (verifiedByHash source)
               (nb_productionDate box) (nb_codeHashes box) with
  | None => []
  | Some codes =>
      [{| fb_sscc := nb_sscc box; fb_oldSsccContext := nb_oldSsccContext box;
          fb_productionDate := nb_productionDate box;
          fb_codes := js_sort (fun a b => utf8ByteComparator f_canonicalRaw a b <=? 0) codes |}]
  end.

Definition selectEligibleInventoryFinalBoxes (source : InventoryDocumentGenerationSource)
  : list EligibleInventoryFinalBox :=
  concat (map (final_box source)
    (js_sort (fun a b => compareText (nb_sscc a) (nb_sscc b) <=? 0) (newBoxes source))).
End Selection.

(** ** Lemmas: keys *)

Lemma js_of_Z_units v : 64 ∉ js_of_Z v.
Proof.
  assert (H : forall n, 0 <= n -> 64 ∉ js_of_nonneg n).
  { intros n Hn Hin. destruct (js_of_nonneg_spec n Hn) as (Hd & _).
    rewrite forallb_forall in Hd. specialize (Hd 64 (proj1 (list_elem_of_In _ _) Hin)).
    by vm_compute in Hd. }
  unfold js_of_Z. destruct (Z.ltb_spec v 0); [|by apply H].
  apply not_elem_of_cons. split; [done | apply H; lia].
Qed.

Lemma js_of_Z_inj v w : js_of_Z v = js_of_Z w -> v = w.
Proof.
  assert (Hneg : forall n s, 0 <= n -> js_of_nonneg n <> 45 :: s).
  { intros n s Hn E. destruct (js_of_nonneg_spec n Hn) as (Hd & _). rewrite E in Hd. by cbn in Hd. }
  unfold js_of_Z. destruct (Z.ltb_spec v 0), (Z.ltb_spec w 0); intros E.
  - apply (inj (cons 45)) in E. apply js_of_nonneg_inj in E; lia.
  - symmetry in E. by apply Hneg in E; [|lia].
  - by apply Hneg in E; [|lia].
  - by apply js_of_nonneg_inj.
Qed.

Lemma last_sep_unique (c : Z) a a' b b' :
  (c ∉ b) -> (c ∉ b') -> a ++ c :: b = a' ++ c :: b' -> a = a' /\ b = b'.
Proof.
  intros Hb Hb' E. apply (f_equal reverse) in E. rewrite !reverse_app, !reverse_cons in E.
  rewrite <- !app_assoc in E. cbn [app] in E.
  assert (Hr : reverse b = reverse b').
  { pose proof (index_of_app c (reverse b) (reverse a)) as H1.
    pose proof (index_of_app c (reverse b') (reverse a')) as H2.
    rewrite elem_of_reverse in H1, H2. rewrite <- E, H1 in H2 by done.
    specialize (H2 Hb'). apply (inj Some) in H2.
    apply (f_equal (take (length (reverse b)))) in E.
    rewrite take_app_length in E. rewrite H2, take_app_length in E. done. }
  rewrite Hr in E. apply (inj (app _)) in E. apply (inj (cons c)) in E.
  apply (inj reverse) in E. apply (inj reverse) in Hr. done.
Qed.

Lemma formatKey_inj i v i' v' : formatKey i v = formatKey i' v' -> i = i' /\ v = v'.
Proof.
  unfold formatKey. change (js "@" ++ ?x) with (64 :: x). intros E.
  apply last_sep_unique in E as [? ?%js_of_Z_inj]; auto using js_of_Z_units.
Qed.

(** ** The registry's invariant *)

Definition entry (d : InventoryDocumentFormatDescriptor) : jsstr * InventoryDocumentFormatDescriptor :=
  (id d, d).

Record registry_ok (r : InventoryDocumentRegistry) (ds : list InventoryDocumentFormatDescriptor)
  : Prop := {
  ro_versions : forall k d, byRegisteredVersion r !! k = Some d <->
    d ∈ ds /\ formatKey (id d) (version d) = k;
  ro_ids : forall i, i ∈ registeredIds r <-> exists d, d ∈ ds /\ id d = i;
  ro_current : currentById r = map entry (List.filter available ds);
  ro_unique : NoDup (map id (List.filter available ds))
}.

Lemma empty_registry_ok : registry_ok empty_registry [].
Proof. split; cbn; [|set_solver|done|constructor]. intros k d. rewrite lookup_empty. set_solver. Qed.

Lemma map_get_Some (l : list InventoryDocumentFormatDescriptor) i d :
  map_get (map entry l) i = Some d -> d ∈ l /\ id d = i.
Proof.
  unfold map_get. intros H. apply fmap_Some in H as ([i' d'] & Hf & ->).
  apply find_some in Hf as [Hin Hi%jseqb_eq]. apply in_map_iff in Hin as (x & Hx & Hin).
  unfold entry in Hx. simplify_eq. split; [by apply list_elem_of_In | done].
Qed.

Lemma map_get_None (l : list InventoryDocumentFormatDescriptor) i :
  map_get (map entry l) i = None -> i ∉ map id l.
Proof.
  unfold map_get. intros H%fmap_None (d & -> & Hd)%list_elem_of_fmap.
  pose proof (find_none _ _ H (entry d)) as Hn. cbn in Hn.
  rewrite jseqb_refl in Hn. discriminate Hn. by apply in_map, list_elem_of_In.
Qed.

Lemma register_ok r ds value r' :
  registry_ok r ds -> register r value = inl r' ->
  exists d, inventoryDocumentFormatDescriptorSchema value = Some d /\ registry_ok r' (ds ++ [d]).
Proof.
  intros [Hv Hi Hc Hu] H. unfold register in H.
  destruct (inventoryDocumentFormatDescriptorSchema value) as [d|]; [|done].
  exists d. split; [done|]. cbv zeta in H.
  case_bool_decide as Hk; [done|]. apply eq_None_not_Some in Hk.
  destruct (available d && _) eqn:Ea; [done|].
  assert (Hnew : available d = true -> id d ∉ map id (List.filter available ds)).
  { intros Hav. rewrite Hav, Hc in Ea. cbn in Ea. apply bool_decide_eq_false_1, eq_None_not_Some in Ea.
    by apply map_get_None. }
  injection H as <-. split; cbn.
  - intros k x. destruct (decide (k = formatKey (id d) (version d))) as [->|Hne].
    + rewrite lookup_insert_eq. split.
      * intros H'. apply (inj Some) in H' as <-. split; [set_solver | done].
      * intros [[Hx|Hx%list_elem_of_singleton]%elem_of_app Ek]; [|by subst].
        assert (byRegisteredVersion r !! formatKey (id d) (version d) = Some x) by by apply Hv.
        congruence.
    + rewrite lookup_insert_ne by done. rewrite Hv. set_solver.
  - intros i. rewrite elem_of_union, elem_of_singleton, Hi. set_solver.
  - rewrite List.filter_app, map_app. cbn. rewrite Hc. destruct (available d); [done|].
    cbn. by rewrite app_nil_r.
  - rewrite List.filter_app, map_app. cbn. destruct (available d).
    + apply NoDup_app. split; [done|]. split; [|apply NoDup_singleton]. set_solver.
    + cbn. by rewrite app_nil_r.
Qed.

Lemma create_ok input r :
  createInventoryDocumentRegistry input = inl r ->
  exists ds, Forall2 (fun v d => inventoryDocumentFormatDescriptorSchema v = Some d) input ds
  /\ registry_ok r ds.
Proof.
  unfold createInventoryDocumentRegistry. revert r.
  induction input as [|v input IH] using rev_ind; intros r H.
  { cbn in H. injection H as <-. exists []. split; [constructor | apply empty_registry_ok]. }
  rewrite fold_left_app in H. cbn in H.
  destruct (fold_left _ input _) as [r0|] eqn:E; [|done].
  destruct (IH r0 eq_refl) as (ds & Hf & Hok).
  destruct (register_ok _ _ _ _ Hok H) as (d & Hd & Hok'). exists (ds ++ [d]).
  split; [|done]. apply Forall2_app; [done|]. by repeat constructor.
Qed.

(** ** The selection *)

Definition lookup_code (source : InventoryDocumentGenerationSource) (h : jsstr) (code : VerifiedCode)
  : Prop := verifiedByHash source !! h = Some code.

(** A box a document may list. *)
Definition eligible (civilDateSchema : jsstr -> bool) (source : InventoryDocumentGenerationSource)
  (box : NewBox) : Prop :=
  nb_state box = box_closed /\ nb_printState box = printed /\ nb_codeHashes box <> []
  /\ NoDup (nb_codeHashes box) /\ civilDateSchema (nb_productionDate box) = true
  /\ Forall (fun h => (h ∉ protected source) /\ exists code, lookup_code source h code
       /\ v_observedProductionDate code = Some (nb_productionDate box)) (nb_codeHashes box).

Definition listed (source : InventoryDocumentGenerationSource) (box : NewBox)
  (out : EligibleInventoryFinalBox) : Prop :=
  fb_sscc out = nb_sscc box /\ fb_oldSsccContext out = nb_oldSsccContext box
  /\ fb_productionDate out = nb_productionDate box
  /\ map f_codeHash (fb_codes out) ≡ₚ nb_codeHashes box
  /\ Forall (fun c => f_observedProductionDate c = nb_productionDate box
       /\ exists code, lookup_code source (f_codeHash c) code
          /\ v_canonicalRaw code = f_canonicalRaw c) (fb_codes out)
  /\ Sorted.StronglySorted (fun a b => (utf8ByteComparator f_canonicalRaw a b <=? 0) = true)
       (fb_codes out).

Lemma verifiedByHash_hash source h code :
  lookup_code source h code -> v_codeHash code = h.
Proof.
  unfold lookup_code, verifiedByHash.
  assert (H : forall l (m : gmap jsstr VerifiedCode),
    (forall k c, m !! k = Some c -> v_codeHash c = k) ->
    forall k c, fold_left (fun m code => <[v_codeHash code := code]> m) l m !! k = Some c ->
    v_codeHash c = k).
  { induction l as [|x l IH]; cbn; intros m Hm; [done|]. apply IH. intros k c.
    destruct (decide (v_codeHash x = k)) as [<-|Hne].
    - rewrite lookup_insert_eq. by intros [= <-].
    - rewrite lookup_insert_ne by done. apply Hm. }
  apply H. intros k c. by rewrite lookup_empty.
Qed.

Lemma box_codes_of_spec source date hashes codes :
  box_codes_of (list_to_set (protected source)) (verifiedByHash source) date hashes = Some codes ->
  map f_codeHash codes = hashes
  /\ Forall (fun h => (h ∉ protected source) /\ exists code, lookup_code source h code
       /\ v_observedProductionDate code = Some date) hashes
  /\ Forall (fun c => f_observedProductionDate c = date
       /\ exists code, lookup_code source (f_codeHash c) code
          /\ v_canonicalRaw code = f_canonicalRaw c) codes.
Proof.
  revert codes. induction hashes as [|h hashes IH]; cbn; intros codes H.
  { apply (inj Some) in H as <-. done. }
  destruct (verifiedByHash source !! h) as [code|] eqn:E; [|done].
  destruct (_ || _) eqn:Eg; [done|]. bool_hyps. rewrite elem_of_list_to_set in *.
  apply bind_Some in H as (codes' & Hc & H'). apply (inj Some) in H' as <-.
  destruct (IH _ Hc) as (Hm & Hf & Hf'). pose proof (verifiedByHash_hash _ _ _ E) as Eh.
  split; [cbn; by rewrite Eh, Hm|]. split; constructor; eauto.
  cbn. split; [done|]. exists code. by rewrite Eh.
Qed.

Lemma box_codes_of_complete source date hashes :
  Forall (fun h => (h ∉ protected source) /\ exists code, lookup_code source h code
       /\ v_observedProductionDate code = Some date) hashes ->
  exists codes, box_codes_of (list_to_set (protected source)) (verifiedByHash source) date hashes
    = Some codes.
Proof.
  induction 1 as [|h hashes (Hp & code & Hl & Hd) Hf (codes & IH)]; cbn; [eauto|].
  unfold lookup_code in Hl. rewrite Hl, IH.
  rewrite bool_decide_eq_false_2 by (by rewrite elem_of_list_to_set).
  rewrite bool_decide_eq_true_2 by done. cbn. eauto.
Qed.

Lemma final_box_spec civil source box out :
  out ∈ final_box civil source box -> eligible civil source box /\ listed source box out.
Proof.
  unfold final_box. destruct (_ || _) eqn:Eg; [set_solver|]. bool_hyps.
  destruct (box_codes_of _ _ _ _) as [codes|] eqn:E; [|set_solver].
  intros ->%list_elem_of_singleton. apply box_codes_of_spec in E as (Hm & Hf & Hf').
  split.
  - repeat (split; [done|]). split; [by destruct (nb_codeHashes box)|].
    split; [by apply all_distinct_spec|]. done.
  - unfold listed. cbn. repeat (split; [done|]).
    split; [by rewrite js_sort_perm, Hm|]. split; [by rewrite js_sort_perm|].
    apply js_sort_sorted, _.
Qed.

Lemma final_box_complete civil source box :
  eligible civil source box -> exists out, out ∈ final_box civil source box.
Proof.
  intros (H1 & H2 & H3 & H4 & H5 & H6). unfold final_box.
  rewrite H1, H2, H5, (proj2 (all_distinct_spec _) H4). cbn.
  destruct (Nat.eqb_spec (length (nb_codeHashes box)) 0) as [E%nil_length_inv|_]; [done|].
  destruct (box_codes_of_complete _ _ _ H6) as [codes ->]. eexists. by left.
Qed.

Definition by_sscc (a b : EligibleInventoryFinalBox) : Prop :=
  js_leb (fb_sscc a) (fb_sscc b) = true.

Lemma final_boxes_sorted civil source boxes :
  Sorted.StronglySorted (fun a b => (compareText (nb_sscc a) (nb_sscc b) <=? 0) = true) boxes ->
  Sorted.StronglySorted by_sscc (concat (map (final_box civil source) boxes)).
Proof.
  induction 1 as [|box boxes Hs IH Hb]; cbn; [constructor|].
  assert (Hlt : forall out, out ∈ final_box civil source box ->
    Forall (by_sscc out) (concat (map (final_box civil source) boxes))).
  { intros out [_ (Eo & _)]%final_box_spec. apply Forall_forall. intros o' Ho'.
    apply list_elem_of_In, in_concat in Ho' as (l & Hl & Ho').
    apply in_map_iff in Hl as (box' & <- & Hbox'). apply list_elem_of_In, final_box_spec in Ho' as [_ (Eo' & _)].
    unfold by_sscc. rewrite Eo, Eo', <- compareText_leb.
    rewrite Forall_forall in Hb. by apply Hb, list_elem_of_In. }
  unfold final_box in *. destruct (_ || _); [done|]. destruct (box_codes_of _ _ _ _); [|done].
  cbn in *. constructor; [done|]. apply Hlt. by left.
Qed.

(** ** Theorems *)

(** a registry that is built resolves exactly what was registered: it
    lists the available formats in order, one per id; it resolves an id to its
    available format at that format's version, and tells a superseded version
    from a retired format and from one that was never registered; and a
    registered version, retired or not, is found again under its own key. *)
Theorem createInventoryDocumentRegistry_resolves input r :
  createInventoryDocumentRegistry input = inl r ->
  exists ds, Forall2 (fun v d => inventoryDocumentFormatDescriptorSchema v = Some d) input ds
  /\ listAvailable r = List.filter available ds
  /\ NoDup (map id (listAvailable r))
  /\ (forall i v, match resolve r i v with
      | inl d => d ∈ ds /\ available d = true /\ id d = i /\ version d = v
      | inr FORMAT_SUPERSEDED =>
          exists d, d ∈ ds /\ available d = true /\ id d = i /\ version d <> v
      | inr FORMAT_UNAVAILABLE =>
          (exists d, d ∈ ds /\ id d = i) /\ forall d, d ∈ ds -> id d = i -> available d = false
      | inr FORMAT_UNKNOWN => forall d, d ∈ ds -> id d <> i
      | inr _ => False
      end)
  /\ (forall i v d, resolveRegistered r i v = inl d <-> d ∈ ds /\ id d = i /\ version d = v).
Proof.
  intros H. destruct (create_ok _ _ H) as (ds & Hf & [Hv Hi Hc Hu]). exists ds.
  assert (Hl : listAvailable r = List.filter available ds).
  { unfold listAvailable. rewrite Hc, map_map. apply map_id. }
  split; [done|]. split; [done|]. split; [by rewrite Hl|]. split.
  - intros i v. unfold resolve. rewrite Hc. destruct (map_get _ i) as [d|] eqn:E.
    + apply map_get_Some in E as [Hd Ei]. apply list_elem_of_In, filter_In in Hd as [Hd Ha].
      apply list_elem_of_In in Hd. destruct (Z.eqb_spec (version d) v); cbn; eauto 10.
    + apply map_get_None in E. case_bool_decide as Hr; rewrite Hi in Hr.
      * split; [done|]. intros d Hd <-. destruct (available d) eqn:Ea; [|done]. destruct E.
        apply list_elem_of_fmap. exists d. split; [done|].
        apply list_elem_of_In, filter_In. split; [by apply list_elem_of_In | done].
      * intros d Hd Ei. apply Hr. eauto.
  - intros i v d. unfold resolveRegistered. split.
    + destruct (_ !! _) as [d'|] eqn:E; [|done]. intros [= <-].
      apply Hv in E as [? [-> ->]%formatKey_inj]. done.
    + intros (Hd & <- & <-).
      by rewrite (proj2 (Hv (formatKey (id d) (version d)) d) (conj Hd eq_refl)).
Qed.

(** a document lists exactly the boxes it may: every listed box is closed,
    printed and of a real date, with at least one code and none twice, all of
    them verified on that date and none protected; every such box is listed,
    with all its codes in UTF-8 order; and the boxes come in SSCC order. *)
Theorem selectEligibleInventoryFinalBoxes_exact civil source :
  (forall out, out ∈ selectEligibleInventoryFinalBoxes civil source ->
     exists box, box ∈ newBoxes source /\ eligible civil source box /\ listed source box out)
  /\ (forall box, box ∈ newBoxes source -> eligible civil source box ->
     exists out, out ∈ selectEligibleInventoryFinalBoxes civil source /\ listed source box out)
  /\ Sorted.StronglySorted by_sscc (selectEligibleInventoryFinalBoxes civil source).
Proof.
  unfold selectEligibleInventoryFinalBoxes. split; [|split].
  - intros out Hout%list_elem_of_In. apply in_concat in Hout as (l & Hl & Hout).
    apply in_map_iff in Hl as (box & <- & Hbox). apply list_elem_of_In, final_box_spec in Hout.
    exists box. split; [|done]. by apply list_elem_of_In, elem_of_js_sort in Hbox.
  - intros box Hbox He. destruct (final_box_complete _ _ _ He) as [out Hout]. exists out.
    split; [|by apply final_box_spec in Hout as [_ ?]].
    apply list_elem_of_In, in_concat. exists (final_box civil source box).
    split; [|by apply list_elem_of_In]. apply in_map, list_elem_of_In. by apply elem_of_js_sort.
  - apply final_boxes_sorted, js_sort_sorted, _.
Qed.

(** ** Witnesses *)

Definition shipped : InventoryDocumentRegistry :=
  match inventoryDocumentRegistry with inl r => r | inr _ => empty_registry end.

Lemma createInventoryDocumentRegistry_resolves_witness :
  inventoryDocumentRegistry = inl shipped /\ NoDup (map id (listAvailable shipped)).
Proof.
  assert (E : inventoryDocumentRegistry = inl shipped) by (vm_compute; reflexivity).
  split; [exact E|].
  destruct (createInventoryDocumentRegistry_resolves _ _ E) as (ds & _ & _ & H & _). exact H.
Defined.

(** The shipped registry resolves the current version of a format and tells
    its legacy version. *)
Example shipped_resolves :
  resolve shipped (js "inventory_csv_current_stock") 1 = inr FORMAT_SUPERSEDED
  /\ (version <$> match resolveRegistered shipped (js "inventory_csv_current_stock") 1 with
                  | inl d => Some d | inr _ => None end) = Some 1
  /\ length (listAvailable shipped) = 10%nat.
Proof. vm_compute. auto. Qed.
