(* ===== verification/Attributes.v ===== *)
(** * Product attributes: category schemas, conditions and readiness

    [packages/domain/src/product-attributes/]: the attribute values and the
    category schemas with their validation and the migration of the first
    format ([model.ts]), the conditional requirements ([conditions.ts]), the
    readiness of a product ([readiness.ts], [egais.ts]).  A [Record] of values
    is a finite map of its own keys. *)

From stdpp Require Import base list strings gmap.
From Stdlib Require Import ZArith Lia.
From S2P Require Import Prelude.

(** ** Values *)

Inductive RegulatoryLayer := code_ordering | circulation.
Inductive RequirementLevel := mandatory | recommended | optional.
Inductive ValueType := t_string | t_string_list | t_decimal | t_boolean | t_date | t_enum | t_enum_list.
Inductive Multiplicity := one | many.
Inductive PresetMode := preset_none | suggested | restricted.
Inductive Operator := equals | includes.
#[export] Instance RegulatoryLayer_eq_dec : EqDecision RegulatoryLayer.
Proof. solve_decision. Defined.
#[export] Instance RequirementLevel_eq_dec : EqDecision RequirementLevel.
Proof. solve_decision. Defined.
#[export] Instance ValueType_eq_dec : EqDecision ValueType.
Proof. solve_decision. Defined.
#[export] Instance PresetMode_eq_dec : EqDecision PresetMode.
Proof. solve_decision. Defined.
#[export] Instance Operator_eq_dec : EqDecision Operator.
Proof. solve_decision. Defined.

Inductive ProductAttributeValue :=
| VString (value : jsstr)
| VStringList (value : list jsstr)
| VDecimal (value : jsstr) (unit_ : option jsstr)
| VBoolean (value : bool)
| VDate (value : jsstr)
| VEnum (value : jsstr)
| VEnumList (value : list jsstr).

Abbreviation ProductAttributeValues := (gmap jsstr ProductAttributeValue).

Inductive ConditionValue := CString (s : jsstr) | CBool (b : bool).
#[export] Instance ConditionValue_eq_dec : EqDecision ConditionValue.
Proof. solve_decision. Defined.

Record AttributeCondition := {
  attributeId : jsstr; operator : Operator; condition_value : ConditionValue
}.
#[export] Instance AttributeCondition_eq_dec : EqDecision AttributeCondition.
Proof. solve_decision. Defined.

Record AttributeRequirementRule := {
  layer : RegulatoryLayer; level : RequirementLevel; when : option AttributeCondition
}.
#[export] Instance AttributeRequirementRule_eq_dec : EqDecision AttributeRequirementRule.
Proof. solve_decision. Defined.

Record AttributeUnitDefinition := { canonical : jsstr; allowed : list jsstr }.
Record Preset := { preset_value : jsstr; preset_label : jsstr }.

Record CategoryAttributeDefinition := {
  id : jsstr; label : jsstr; valueType : ValueType; multiplicity : Multiplicity;
  unit_definition : option AttributeUnitDefinition;
  requirementRules : list AttributeRequirementRule; presetMode : PresetMode; presets : list Preset
}.

Record CategorySchemaDefinition := {
  formatVersion : Z; categoryId : jsstr; scopeKey : jsstr;
  attributes : list CategoryAttributeDefinition
}.

Record LegacyAttributeDefinition := {
  l_id : jsstr; l_label : jsstr; l_valueType : ValueType; l_multiplicity : Multiplicity;
  l_requiredLayers : list RegulatoryLayer; l_requiredWhen : list AttributeCondition;
  l_presets : list Preset
}.

Record LegacySchemaDefinition := {
  l_categoryId : jsstr; l_scopeKey : jsstr; l_attributes : list LegacyAttributeDefinition
}.

(** ** Field schemas: what is accepted, with its texts trimmed *)

Definition nonEmptyStringSchema (s : jsstr) : option jsstr :=
  let t := trim s in if (1 <=? length t)%nat then Some t else None.

(** [/^-?\d+(\.\d+)?$/]. *)
Definition decimal_matches (s : jsstr) : bool :=
  let u := match s with 45 :: s' => s' | _ => s end in
  match index_of 46 u with
  | None => all_digits1 u
  | Some i => all_digits1 (take i u) && all_digits1 (drop (S i) u)
  end.

(** [/^\d{4}-\d{2}-\d{2}$/]. *)
Definition date_matches (s : jsstr) : bool :=
  (length s =? 10)%nat && digits_n 4 (slice 0 4 s) && jseqb (slice 4 5 s) (js "-")
  && digits_n 2 (slice 5 7 s) && jseqb (slice 7 8 s) (js "-") && digits_n 2 (slice 8 10 s).

Definition nonempty_ok (s : jsstr) : bool := bool_decide (is_Some (nonEmptyStringSchema s)).

(** [productAttributeValueSchema.safeParse(value).success]. *)
Definition productAttributeValueSchema (v : ProductAttributeValue) : bool :=
  match v with
  | VString s | VEnum s => nonempty_ok s
  | VStringList l | VEnumList l => (1 <=? length l)%nat && forallb nonempty_ok l
  | VDecimal s u => decimal_matches s && match u with None => true | Some u => nonempty_ok u end
  | VBoolean _ => true
  | VDate s => date_matches s
  end.

Definition attributeConditionSchema (c : AttributeCondition) : option AttributeCondition :=
  a ← nonEmptyStringSchema (attributeId c);
  v ← match condition_value c with
      | CString s => CString <$> nonEmptyStringSchema s
      | CBool b => Some (CBool b)
      end;
  Some {| attributeId := a; operator := operator c; condition_value := v |}.

(** [.nullable()] of a schema. *)
Definition nullable_schema {A} (schema : A -> option A) (v : option A) : option (option A) :=
  match v with None => Some None | Some x => Some <$> schema x end.

Definition attributeRequirementRuleSchema (r : AttributeRequirementRule)
  : option AttributeRequirementRule :=
  w ← nullable_schema attributeConditionSchema (when r);
  Some {| layer := layer r; level := level r; when := w |}.

Definition attributeUnitDefinitionSchema (u : AttributeUnitDefinition)
  : option AttributeUnitDefinition :=
  c ← nonEmptyStringSchema (canonical u);
  l ← (if (1 <=? length (allowed u))%nat then mapM nonEmptyStringSchema (allowed u) else None);
  Some {| canonical := c; allowed := l |}.

Definition attributePresetSchema (p : Preset) : option Preset :=
  v ← nonEmptyStringSchema (preset_value p);
  l ← nonEmptyStringSchema (preset_label p);
  Some {| preset_value := v; preset_label := l |}.

Definition categoryAttributeDefinitionSchema (d : CategoryAttributeDefinition)
  : option CategoryAttributeDefinition :=
  i ← nonEmptyStringSchema (id d);
  l ← nonEmptyStringSchema (label d);
  u ← nullable_schema attributeUnitDefinitionSchema (unit_definition d);
  rules ← mapM attributeRequirementRuleSchema (requirementRules d);
  ps ← mapM attributePresetSchema (presets d);
  Some {| id := i; label := l; valueType := valueType d; multiplicity := multiplicity d;
          unit_definition := u; requirementRules := rules; presetMode := presetMode d; presets := ps |}.

(** ** Validation of a schema *)

Definition conditionIsCompatible (trigger : CategoryAttributeDefinition)
  (condition : AttributeCondition) : bool :=
  match operator condition, condition_value condition with
  | includes, CString _ =>
      bool_decide (valueType trigger = t_string_list) || bool_decide (valueType trigger = t_enum_list)
  | includes, CBool _ => false
  | equals, CBool _ => bool_decide (valueType trigger = t_boolean)
  | equals, CString _ => bool_decide (valueType trigger ∈ [t_string; t_date; t_enum])
  end.

(** The checks of one attribute, its id apart.  [JSON.stringify] of two rules
    is the same text exactly when the rules are equal. *)
Definition attribute_valid (attribute : CategoryAttributeDefinition) : bool :=
  negb (negb (bool_decide (valueType attribute = t_decimal))
        && bool_decide (is_Some (unit_definition attribute)))
  && match unit_definition attribute with
     | None => true
     | Some u => all_distinct (allowed u) && bool_decide (canonical u ∈ allowed u)
     end
  && negb (bool_decide (presetMode attribute = preset_none) && (0 <? length (presets attribute))%nat)
  && negb (negb (bool_decide (presetMode attribute = preset_none))
           && (length (presets attribute) =? 0)%nat)
  && all_distinct (map preset_value (presets attribute))
  && all_distinct (requirementRules attribute).

(** The first loop: the map of attributes, and whether any issue was added. *)
Fixpoint collect_attributes (l : list CategoryAttributeDefinition)
  (m : gmap jsstr CategoryAttributeDefinition) (ok : bool)
  : gmap jsstr CategoryAttributeDefinition * bool :=
  match l with
  | [] => (m, ok)
  | a :: l' =>
      collect_attributes l' (<[id a := a]> m)
        (ok && negb (bool_decide (is_Some (m !! id a))) && attribute_valid a)
  end.

Definition rule_valid (m : gmap jsstr CategoryAttributeDefinition) (rule : AttributeRequirementRule)
  : bool :=
  match when rule with
  | None => true
  | Some condition =>
      match m !! attributeId condition with
      | None => false
      | Some trigger => conditionIsCompatible trigger condition
      end
  end.

(** [validateDefinition] adds no issue. *)
Definition validateDefinition (d : CategorySchemaDefinition) : bool :=
  let (m, ok) := collect_attributes (attributes d) ∅ true in
  ok && forallb (fun a => forallb (rule_valid m) (requirementRules a)) (attributes d).

Definition categorySchemaDefinitionSchema (d : CategorySchemaDefinition)
  : option CategorySchemaDefinition :=
  if negb (formatVersion d =? 2) then None
  else
    c ← nonEmptyStringSchema (categoryId d);
    s ← nonEmptyStringSchema (scopeKey d);
    attrs ← mapM categoryAttributeDefinitionSchema (attributes d);
    let parsed := {| formatVersion := 2; categoryId := c; scopeKey := s; attributes := attrs |} in
    if validateDefinition parsed then Some parsed else None.

Definition legacyCategoryAttributeDefinitionSchema (d : LegacyAttributeDefinition)
  : option LegacyAttributeDefinition :=
  i ← nonEmptyStringSchema (l_id d);
  l ← nonEmptyStringSchema (l_label d);
  w ← mapM attributeConditionSchema (l_requiredWhen d);
  ps ← mapM attributePresetSchema (l_presets d);
  Some {| l_id := i; l_label := l; l_valueType := l_valueType d; l_multiplicity := l_multiplicity d;
          l_requiredLayers := l_requiredLayers d; l_requiredWhen := w; l_presets := ps |}.

Definition legacyCategorySchemaDefinitionSchema (d : LegacySchemaDefinition)
  : option LegacySchemaDefinition :=
  c ← nonEmptyStringSchema (l_categoryId d);
  s ← nonEmptyStringSchema (l_scopeKey d);
  attrs ← mapM legacyCategoryAttributeDefinitionSchema (l_attributes d);
  Some {| l_categoryId := c; l_scopeKey := s; l_attributes := attrs |}.

Definition migrate_attribute (a : LegacyAttributeDefinition) : CategoryAttributeDefinition :=
  {| id := l_id a; label := l_label a; valueType := l_valueType a; multiplicity := l_multiplicity a;
     unit_definition := None;
     requirementRules :=
       map (fun l => {| layer := l; level := mandatory; when := None |}) (l_requiredLayers a)
       ++ map (fun w => {| layer := circulation; level := mandatory; when := Some w |})
            (l_requiredWhen a);
     presetMode := if (length (l_presets a) =? 0)%nat then preset_none else suggested;
     presets := l_presets a |}.

Definition migrate (legacy : LegacySchemaDefinition) : CategorySchemaDefinition :=
  {| formatVersion := 2; categoryId := l_categoryId legacy; scopeKey := l_scopeKey legacy;
     attributes := map migrate_attribute (l_attributes legacy) |}.

(** A stored schema: of the current format (it names its version) or of the
    first one (it does not). *)
Inductive StoredSchema := Current (d : CategorySchemaDefinition) | Legacy (d : LegacySchemaDefinition).

Definition parseCategorySchemaDefinition (value : StoredSchema) : result CategorySchemaDefinition :=
  match value with
  | Current d =>
      match categorySchemaDefinitionSchema d with Some p => Ok p | None => Throw PlainError end
  | Legacy d =>
      match legacyCategorySchemaDefinitionSchema d with
      | None => Throw PlainError
      | Some legacy =>
          match categorySchemaDefinitionSchema (migrate legacy) with
          | Some p => Ok p | None => Throw PlainError
          end
      end
  end.

(** ** Values of an attribute *)

Definition value_type (v : ProductAttributeValue) : ValueType :=
  match v with
  | VString _ => t_string | VStringList _ => t_string_list | VDecimal _ _ => t_decimal
  | VBoolean _ => t_boolean | VDate _ => t_date | VEnum _ => t_enum | VEnumList _ => t_enum_list
  end.

(** [Array.isArray(value.value) ? value.value : [String(value.value)]]. *)
Definition value_items (v : ProductAttributeValue) : list jsstr :=
  match v with
  | VString s | VDecimal s _ | VDate s | VEnum s => [s]
  | VStringList l | VEnumList l => l
  | VBoolean b => [js (if b then "true" else "false")]
  end.

Definition presets_ok (definition : CategoryAttributeDefinition) (value : ProductAttributeValue)
  : bool :=
  if negb (bool_decide (presetMode definition = restricted)) then true
  else forallb (fun x => bool_decide (x ∈ map preset_value (presets definition))) (value_items value).

Definition validateProductAttributeValue (definition : CategoryAttributeDefinition)
  (value : ProductAttributeValue) : bool :=
  if negb (productAttributeValueSchema value)
     || negb (bool_decide (value_type value = valueType definition))
  then false
  else
    match value, unit_definition definition with
    | VDecimal _ u, None => bool_decide (u = None)
    | VDecimal _ None, Some _ => false
    | VDecimal _ (Some u), Some ud =>
        if negb (bool_decide (u ∈ allowed ud)) then false else presets_ok definition value
    | _, _ => presets_ok definition value
    end.

(** ** Conditions *)

Definition conditionMatches (condition : AttributeCondition) (actual : option ProductAttributeValue)
  : bool :=
  match actual with
  | None => false
  | Some v =>
      match operator condition with
      | includes =>
          match condition_value condition, v with
          | CString s, (VStringList l | VEnumList l) => bool_decide (s ∈ l)
          | _, _ => false
          end
      | equals =>
          match v, condition_value condition with
          | (VString t | VDecimal t _ | VDate t | VEnum t), CString s => jseqb t s
          | VBoolean b, CBool c => Bool.eqb b c
          | _, _ => false
          end
      end
  end.

Definition rule_active (values : ProductAttributeValues) (l : RegulatoryLayer) (k : RequirementLevel)
  (rule : AttributeRequirementRule) : bool :=
  bool_decide (layer rule = l) && bool_decide (level rule = k)
  && match when rule with
     | None => true
     | Some w => conditionMatches w (values !! attributeId w)
     end.

Definition activeRequirementRules (definition : CategoryAttributeDefinition)
  (values : ProductAttributeValues) (l : RegulatoryLayer) (k : RequirementLevel)
  : list AttributeRequirementRule :=
  List.filter (rule_active values l k) (requirementRules definition).

Definition isAttributeRequired (definition : CategoryAttributeDefinition)
  (values : ProductAttributeValues) (l : RegulatoryLayer) : bool :=
  (0 <? length (activeRequirementRules definition values l mandatory))%nat.

(** ** Readiness *)

Inductive ReadinessDimension := dim_production | dim_code_ordering | dim_circulation | dim_egais.
Inductive ReadinessState := ready | not_ready | not_applicable | stale.

Record ProductReadinessReason := {
  reason_code : jsstr; reason_attributeId : option jsstr; reason_triggerAttributeId : option jsstr;
  reason_schemaVersionId : option jsstr
}.

Record ProductReadinessDimensionResult := {
  dimension : ReadinessDimension; state : ReadinessState;
  reasons : list ProductReadinessReason; recommendations : list ProductReadinessReason
}.

Record ProductReadinessInput := {
  schemaVersionId : jsstr; schema : CategorySchemaDefinition; values : ProductAttributeValues;
  chzProductGroupCode : option Z; boxCapacity : option Z; palletCapacity : option Z;
  egais_applicable : bool; egais_codes : list jsstr; egais_primaryCode : option jsstr;
  schemaStale : bool
}.

Definition simple_reason (code : string) : ProductReadinessReason :=
  {| reason_code := js code; reason_attributeId := None; reason_triggerAttributeId := None;
     reason_schemaVersionId := None |}.

Definition required_when {A} (v : option A) (code : string) : list ProductReadinessReason :=
  match v with None => [simple_reason code] | Some _ => [] end.

Definition dimension_result (d : ReadinessDimension) (rs recs : list ProductReadinessReason)
  : ProductReadinessDimensionResult :=
  {| dimension := d; state := if (length rs =? 0)%nat then ready else not_ready;
     reasons := rs; recommendations := recs |}.

Definition evaluateProduction (input : ProductReadinessInput) : ProductReadinessDimensionResult :=
  dimension_result dim_production
    (required_when (chzProductGroupCode input) "PRODUCTION_GROUP_REQUIRED"
     ++ required_when (boxCapacity input) "PRODUCTION_BOX_CAPACITY_REQUIRED"
     ++ required_when (palletCapacity input) "PRODUCTION_PALLET_CAPACITY_REQUIRED") [].

(** [rules.find((rule) => rule.when !== null)?.when]. *)
Definition trigger_of (rules : list AttributeRequirementRule) : option AttributeCondition :=
  List.find (fun r => bool_decide (is_Some (when r))) rules ≫= when.

Definition attribute_reason (code : string) (input : ProductReadinessInput)
  (definition : CategoryAttributeDefinition) (rules : list AttributeRequirementRule)
  : ProductReadinessReason :=
  {| reason_code := js code; reason_attributeId := Some (id definition);
     reason_triggerAttributeId := attributeId <$> trigger_of rules;
     reason_schemaVersionId := Some (schemaVersionId input) |}.

(** The loop over the attributes: reasons and recommendations. *)
Fixpoint attribute_gaps (input : ProductReadinessInput) (l : RegulatoryLayer)
  (defs : list CategoryAttributeDefinition) (rs recs : list ProductReadinessReason)
  : list ProductReadinessReason * list ProductReadinessReason :=
  match defs with
  | [] => (rs, recs)
  | definition :: defs' =>
      if bool_decide (is_Some (values input !! id definition)) then attribute_gaps input l defs' rs recs
      else if isAttributeRequired definition (values input) l then
        attribute_gaps input l defs'
          (rs ++ [attribute_reason "ATTRIBUTE_REQUIRED" input definition
                    (activeRequirementRules definition (values input) l mandatory)]) recs
      else
        let recommended := activeRequirementRules definition (values input) l recommended in
        if (0 <? length recommended)%nat then
          attribute_gaps input l defs' rs
            (recs ++ [attribute_reason "ATTRIBUTE_RECOMMENDED" input definition recommended])
        else attribute_gaps input l defs' rs recs
  end.

Definition evaluateRegulatoryDimension (input : ProductReadinessInput) (l : RegulatoryLayer)
  : ProductReadinessDimensionResult :=
  let d := match l with code_ordering => dim_code_ordering | circulation => dim_circulation end in
  if schemaStale input then
    {| dimension := d; state := stale;
       reasons := [{| reason_code := js "SCHEMA_VERSION_STALE"; reason_attributeId := None;
                      reason_triggerAttributeId := None;
                      reason_schemaVersionId := Some (schemaVersionId input) |}];
       recommendations := [] |}
  else
    let (rs, recs) := attribute_gaps input l (attributes (schema input)) [] [] in
    dimension_result d rs recs.

Definition egais_code_ok (code : jsstr) : bool := digits_n 19 code.

Definition egais_reasons (codes : list jsstr) (primaryCode : option jsstr)
  : list ProductReadinessReason :=
  (if (length codes =? 0)%nat then [simple_reason "EGAIS_CODE_REQUIRED"] else [])
  ++ (if existsb (fun code => negb (egais_code_ok code)) codes then
        [{| reason_code := js "EGAIS_CODE_INVALID"; reason_attributeId := Some (js "egaisCodes");
            reason_triggerAttributeId := None; reason_schemaVersionId := None |}] else [])
  ++ (if (1 <? length codes)%nat && bool_decide (primaryCode = None)
      then [simple_reason "EGAIS_PRIMARY_REQUIRED"] else [])
  ++ (match primaryCode with
      | Some p => if negb (egais_code_ok p) || negb (bool_decide (p ∈ codes))
                  then [simple_reason "EGAIS_PRIMARY_INVALID"] else []
      | None => []
      end).

Definition evaluateEgais (input : ProductReadinessInput) : ProductReadinessDimensionResult :=
  if negb (egais_applicable input) then
    {| dimension := dim_egais; state := not_applicable; reasons := []; recommendations := [] |}
  else dimension_result dim_egais (egais_reasons (egais_codes input) (egais_primaryCode input)) [].

Definition evaluateProductReadiness (input : ProductReadinessInput)
  : list ProductReadinessDimensionResult :=
  [evaluateProduction input; evaluateRegulatoryDimension input code_ordering;
   evaluateRegulatoryDimension input circulation; evaluateEgais input].

Definition EGAIS_PRODUCT_GROUP_CODE : Z := 15.
Definition isEgaisApplicable (chz : option Z) : bool := bool_decide (chz = Some EGAIS_PRODUCT_GROUP_CODE).

(** ** Lemmas: schemas *)

Lemma nonEmptyString_idem s t : nonEmptyStringSchema s = Some t -> nonEmptyStringSchema t = Some t.
Proof.
  unfold nonEmptyStringSchema, trim. case_match eqn:E; [|done].
  intros H. apply (inj Some) in H as <-. by rewrite trim_by_idemp, E.
Qed.

Lemma mapM_idem {A} (f : A -> option A) l k :
  (forall x y, f x = Some y -> f y = Some y) -> mapM f l = Some k -> mapM f k = Some k.
Proof.
  intros Hf H%mapM_Some. apply mapM_Some. induction H; constructor; eauto.
Qed.

(** Takes a parse apart, field by field. *)
Ltac parse_inv H :=
  repeat match type of H with
  | mbind _ _ = Some _ => let x := fresh "x" in let E := fresh "E" in
      apply bind_Some in H as (x & E & H)
  end; apply (inj Some) in H; subst.

Lemma attributeCondition_idem c d :
  attributeConditionSchema c = Some d -> attributeConditionSchema d = Some d.
Proof.
  unfold attributeConditionSchema. intros H. parse_inv H. cbn.
  rewrite (nonEmptyString_idem _ _ E). cbn.
  destruct (condition_value c); [|by simplify_eq].
  apply fmap_Some in E0 as (t & Ht & ->). by rewrite (nonEmptyString_idem _ _ Ht).
Qed.

Lemma attributePreset_idem p q : attributePresetSchema p = Some q -> attributePresetSchema q = Some q.
Proof.
  unfold attributePresetSchema. intros H. parse_inv H. cbn.
  by rewrite (nonEmptyString_idem _ _ E), (nonEmptyString_idem _ _ E0).
Qed.

Lemma migrated_rules_fixed a b :
  legacyCategoryAttributeDefinitionSchema a = Some b ->
  categoryAttributeDefinitionSchema (migrate_attribute b) = Some (migrate_attribute b).
Proof.
  unfold legacyCategoryAttributeDefinitionSchema. intros H. parse_inv H.
  unfold categoryAttributeDefinitionSchema. cbn.
  rewrite (nonEmptyString_idem _ _ E), (nonEmptyString_idem _ _ E0). cbn.
  rewrite (mapM_idem _ _ _ attributePreset_idem E2).
  enough (Hr : forall l w, mapM attributeConditionSchema w = Some w ->
    mapM attributeRequirementRuleSchema
      (map (fun l => {| layer := l; level := mandatory; when := None |}) l
       ++ map (fun w => {| layer := circulation; level := mandatory; when := Some w |}) w)
    = Some (map (fun l => {| layer := l; level := mandatory; when := None |}) l
       ++ map (fun w => {| layer := circulation; level := mandatory; when := Some w |}) w)).
  { rewrite Hr by (by eapply mapM_idem; [apply attributeCondition_idem|]). done. }
  clear. intros l w Hw%mapM_Some. apply mapM_Some, Forall2_app.
  - induction l; cbn; by constructor.
  - induction w as [|c w IH]; cbn; [constructor|]. inversion Hw; subst.
    constructor; [|by apply IH]. unfold attributeRequirementRuleSchema. cbn.
    match goal with H : attributeConditionSchema c = _ |- _ => by rewrite H end.
Qed.

Lemma migrate_fixed l p d :
  legacyCategorySchemaDefinitionSchema l = Some p ->
  categorySchemaDefinitionSchema (migrate p) = Some d -> d = migrate p.
Proof.
  unfold legacyCategorySchemaDefinitionSchema. intros H. parse_inv H.
  unfold categorySchemaDefinitionSchema. cbn.
  rewrite (nonEmptyString_idem _ _ E), (nonEmptyString_idem _ _ E0). cbn.
  assert (mapM categoryAttributeDefinitionSchema (map migrate_attribute x1)
    = Some (map migrate_attribute x1)) as ->.
  { apply mapM_Some in E1. apply mapM_Some. clear -E1.
    induction E1; cbn; constructor; eauto using migrated_rules_fixed. }
  cbn. destruct (validateDefinition _); [|done]. by intros [= <-].
Qed.

Lemma collect_attributes_spec l m ok m' :
  collect_attributes l m ok = (m', true) ->
  ok = true /\ NoDup (map id l) /\ Forall (fun a => m !! id a = None /\ attribute_valid a = true) l
  /\ forall i, m' !! i = match List.find (fun a => jseqb (id a) i) l with
                         | Some a => Some a | None => m !! i end.
Proof.
  revert m ok. induction l as [|a l IH]; cbn; intros m ok H.
  { simplify_eq. repeat split; constructor. }
  destruct (IH _ _ H) as (Hok & Hn & Hf & Hm). bool_hyps.
  match goal with H : ~ is_Some _ |- _ => apply eq_None_not_Some in H; rename H into Ha end.
  rewrite Forall_forall in Hf. split; [done|]. split; [|split].
  - constructor; [|done]. intros (x & Ex & Hx)%list_elem_of_fmap. destruct (Hf _ Hx) as [Hx' _].
    rewrite <- Ex, lookup_insert_eq in Hx'. done.
  - constructor; [done|]. apply Forall_forall. intros x Hx. destruct (Hf _ Hx) as [Hx' ?].
    split; [|done]. rewrite lookup_insert_None in Hx'. tauto.
  - intros i. rewrite Hm. destruct (jseqb (id a) i) eqn:E; bool_hyps.
    + subst i. assert (List.find (fun x => jseqb (id x) (id a)) l = None) as ->.
      { destruct (List.find _ l) as [x|] eqn:Ef; [|done]. apply find_some in Ef as [Hx Ex%jseqb_eq].
        destruct (Hf x) as [Hx' _]; [by apply list_elem_of_In|].
        rewrite Ex, lookup_insert_eq in Hx'. done. }
      apply lookup_insert_eq.
    + destruct (List.find _ l); [done|]. by rewrite lookup_insert_ne.
Qed.

(** A value of a type that can meet a condition on that type. *)
Definition matching_value (t : ValueType) (c : ConditionValue) : ProductAttributeValue :=
  match t, c with
  | t_string_list, CString s => VStringList [s]
  | t_enum_list, CString s => VEnumList [s]
  | t_date, CString s => VDate s
  | t_enum, CString s => VEnum s
  | _, CString s => VString s
  | _, CBool b => VBoolean b
  end.

Lemma conditionIsCompatible_satisfiable trigger c :
  conditionIsCompatible trigger c = true ->
  exists v, value_type v = valueType trigger /\ conditionMatches c (Some v) = true.
Proof.
  unfold conditionIsCompatible. intros H.
  exists (matching_value (valueType trigger) (condition_value c)).
  destruct c as [i op cv]. cbn in *. destruct op, cv; cbn in *; try done;
    destruct (valueType trigger); cbn in *; try done; rewrite ?jseqb_refl; try (split; [done|]);
    try done; try (by rewrite bool_decide_eq_true_2 by left); by destruct b.
Qed.

Lemma validateDefinition_spec d :
  validateDefinition d = true ->
  NoDup (map id (attributes d)) /\ Forall (fun a => attribute_valid a = true) (attributes d)
  /\ forall a rule c, a ∈ attributes d -> rule ∈ requirementRules a -> when rule = Some c ->
     exists trigger, trigger ∈ attributes d /\ id trigger = attributeId c
     /\ conditionIsCompatible trigger c = true.
Proof.
  unfold validateDefinition. destruct (collect_attributes _ _ _) as [m ok] eqn:E. intros H.
  bool_hyps. subst ok. apply collect_attributes_spec in E as (_ & Hn & Hf & Hm).
  split; [done|]. split; [eapply Forall_impl; [exact Hf|]; by intros a [_ ?]|].
  intros a rule c Ha Hr Hw.
  match goal with H : forallb _ (attributes d) = true |- _ =>
    rewrite forallb_forall in H; specialize (H a (proj1 (list_elem_of_In _ _) Ha));
    rewrite forallb_forall in H; specialize (H rule (proj1 (list_elem_of_In _ _) Hr));
    unfold rule_valid in H; rewrite Hw, Hm in H end.
  destruct (List.find _ _) as [t|] eqn:Ef; [|by rewrite lookup_empty in *].
  apply find_some in Ef as [Ht Hi%jseqb_eq]. exists t. split; [by apply list_elem_of_In | done].
Qed.

Lemma migrated_required a vs l :
  isAttributeRequired (migrate_attribute a) vs l = true <->
  l ∈ l_requiredLayers a
  \/ (l = circulation /\ exists w, w ∈ l_requiredWhen a
      /\ conditionMatches w (vs !! attributeId w) = true).
Proof.
  unfold isAttributeRequired, activeRequirementRules. rewrite Nat.ltb_lt.
  cbn [migrate_attribute requirementRules]. rewrite List.filter_app, length_app.
  assert (H1 : (0 < length (List.filter (rule_active vs l mandatory)
     (map (fun l => {| layer := l; level := mandatory; when := None |}) (l_requiredLayers a))))%nat
     <-> l ∈ l_requiredLayers a).
  { induction (l_requiredLayers a) as [|k ls IH]; cbn; [split; [lia | set_solver]|].
    unfold rule_active at 1. cbn. rewrite !andb_true_r. case_bool_decide as E; cbn.
    - split; [|lia]. intros _. rewrite E. left.
    - rewrite IH. set_solver. }
  assert (H2 : (0 < length (List.filter (rule_active vs l mandatory)
     (map (fun w => {| layer := circulation; level := mandatory; when := Some w |}) (l_requiredWhen a))))%nat
     <-> l = circulation /\ exists w, w ∈ l_requiredWhen a
         /\ conditionMatches w (vs !! attributeId w) = true).
  { induction (l_requiredWhen a) as [|w ws IH]; cbn; [split; [lia | set_solver]|].
    unfold rule_active at 1. cbn. rewrite andb_true_r. case_bool_decide as E; cbn.
    - subst l. destruct (conditionMatches w _) eqn:Ew; cbn.
      + split; [|lia]. intros _. split; [done|]. exists w. split; [left | done].
      + rewrite IH. setoid_rewrite elem_of_cons. naive_solver congruence.
    - rewrite IH. naive_solver. }
  rewrite <- H1, <- H2. lia.
Qed.

(** ** Lemmas: readiness *)

(** An attribute without a value that a rule of the level asks for. *)
Definition required_gap (vs : ProductAttributeValues) (l : RegulatoryLayer)
  (a : CategoryAttributeDefinition) : bool :=
  negb (bool_decide (is_Some (vs !! id a))) && isAttributeRequired a vs l.

Definition recommended_gap (vs : ProductAttributeValues) (l : RegulatoryLayer)
  (a : CategoryAttributeDefinition) : bool :=
  negb (bool_decide (is_Some (vs !! id a))) && negb (isAttributeRequired a vs l)
  && (0 <? length (activeRequirementRules a vs l recommended))%nat.

Lemma attribute_gaps_spec input l defs rs recs :
  map reason_attributeId (fst (attribute_gaps input l defs rs recs))
  = map reason_attributeId rs ++ map (fun a => Some (id a)) (List.filter (required_gap (values input) l) defs)
  /\ map reason_attributeId (snd (attribute_gaps input l defs rs recs))
  = map reason_attributeId recs
    ++ map (fun a => Some (id a)) (List.filter (recommended_gap (values input) l) defs).
Proof.
  revert rs recs. induction defs as [|a defs IH]; cbn [attribute_gaps List.filter map fst snd]; intros rs recs.
  { by rewrite !app_nil_r. }
  unfold required_gap at 1, recommended_gap at 1.
  destruct (bool_decide (is_Some (values input !! id a))); cbn [negb andb]; [apply IH|].
  destruct (isAttributeRequired a (values input) l); cbn [negb andb].
  - destruct (IH (rs ++ [attribute_reason "ATTRIBUTE_REQUIRED" input a
      (activeRequirementRules a (values input) l mandatory)]) recs) as [-> ->].
    rewrite map_app, <- app_assoc. done.
  - destruct (0 <? _)%nat; [|apply IH].
    destruct (IH rs (recs ++ [attribute_reason "ATTRIBUTE_RECOMMENDED" input a
      (activeRequirementRules a (values input) l recommended)])) as [-> ->].
    rewrite map_app, <- app_assoc. done.
Qed.

Lemma isAttributeRequired_spec a vs l :
  isAttributeRequired a vs l = true <->
  exists r, r ∈ requirementRules a /\ layer r = l /\ level r = mandatory
  /\ match when r with None => True | Some w => conditionMatches w (vs !! attributeId w) = true end.
Proof.
  unfold isAttributeRequired, activeRequirementRules. rewrite Nat.ltb_lt.
  assert (H : forall r, rule_active vs l mandatory r = true <->
    layer r = l /\ level r = mandatory
    /\ match when r with None => True | Some w => conditionMatches w (vs !! attributeId w) = true end).
  { intros r. unfold rule_active. rewrite !andb_true_iff, !bool_decide_eq_true.
    destruct (when r); naive_solver. }
  setoid_rewrite <- H. split.
  - destruct (List.filter _ _) as [|r rs] eqn:E; cbn; [lia|]. intros _. exists r.
    assert (Hin : In r (List.filter (rule_active vs l mandatory) (requirementRules a))) by (rewrite E; by left).
    apply filter_In in Hin as [Hin ?]. split; [by apply list_elem_of_In | done].
  - intros (r & Hr%list_elem_of_In & Ha). assert (Hin : In r (List.filter (rule_active vs l mandatory)
      (requirementRules a))) by by apply filter_In.
    destruct (List.filter _ _); cbn; [done | lia].
Qed.

Lemma existsb_negb_forallb {A} (p : A -> bool) (l : list A) :
  existsb (fun x => negb (p x)) l = negb (forallb p l).
Proof. induction l as [|x l IH]; cbn; [done|]. by rewrite IH, negb_andb. Qed.

Definition egais_ok (codes : list jsstr) (primary : option jsstr) : Prop :=
  codes <> [] /\ Forall (fun c => digits_n 19 c = true) codes
  /\ match primary with
     | None => length codes = 1%nat
     | Some p => p ∈ codes
     end.

Lemma egais_reasons_spec codes primary : egais_reasons codes primary = [] <-> egais_ok codes primary.
Proof.
  unfold egais_reasons, egais_ok, egais_code_ok. rewrite existsb_negb_forallb. split.
  - intros H. repeat (apply app_eq_nil in H as [?H H]).
    destruct (Nat.eqb_spec (length codes) 0) as [|Hl]; [done|].
    destruct (forallb _ codes) eqn:Ef; [|done].
    split; [by destruct codes|]. split.
    { apply Forall_forall. intros c Hc. rewrite forallb_forall in Ef. by apply Ef, list_elem_of_In. }
    destruct primary as [p|].
    + destruct (negb _ || _) eqn:Eg; [done|]. by bool_hyps.
    + destruct (Nat.ltb_spec 1 (length codes)); [done | lia].
  - intros (Hne & Hf & Hp). destruct (Nat.eqb_spec (length codes) 0) as [E%nil_length_inv|]; [done|].
    assert (forallb (digits_n 19) codes = true) as ->.
    { apply forallb_forall. intros c Hc%list_elem_of_In. rewrite Forall_forall in Hf. by apply Hf. }
    rewrite Forall_forall in Hf. destruct primary as [p|]; cbn.
    + rewrite andb_false_r, (Hf _ Hp), (bool_decide_eq_true_2 _ Hp). done.
    + rewrite Hp. done.
Qed.

Lemma dimension_result_ready d rs recs : state (dimension_result d rs recs) = ready <-> rs = [].
Proof. by destruct rs. Qed.

(** ** Theorems *)

(** C38: a product is ready for a regulatory layer exactly when every attribute
    of an up-to-date schema that a mandatory rule of that layer asks for (always,
    or because its condition holds) has a value; the reasons name exactly the
    attributes that lack one, in the schema's order, and recommended ones never
    block.  EGAIS is ready exactly when there are codes, all of nineteen digits,
    with a primary one among them where there is a choice. *)
Theorem evaluateProductReadiness_exact input l :
  schemaStale input = false ->
  (state (evaluateRegulatoryDimension input l) = ready <->
   forall a r, a ∈ attributes (schema input) -> r ∈ requirementRules a ->
     layer r = l -> level r = mandatory ->
     match when r with
     | None => True
     | Some w => conditionMatches w (values input !! attributeId w) = true
     end -> is_Some (values input !! id a))
  /\ map reason_attributeId (reasons (evaluateRegulatoryDimension input l))
     = map (fun a => Some (id a)) (List.filter (required_gap (values input) l) (attributes (schema input)))
  /\ (egais_applicable input = true ->
      (state (evaluateEgais input) = ready <->
       egais_ok (egais_codes input) (egais_primaryCode input))).
Proof.
  intros Hs. unfold evaluateRegulatoryDimension. rewrite Hs.
  pose proof (attribute_gaps_spec input l (attributes (schema input)) [] []) as [Hg _].
  destruct (attribute_gaps _ _ _ _ _) as [rs recs]. cbn [fst map app] in Hg. split; [|split].
  - rewrite dimension_result_ready. split.
    + intros -> a r Ha Hr Hl Hk Hw. destruct (decide (is_Some (values input !! id a))); [done|].
      symmetry in Hg. apply map_eq_nil in Hg.
      assert (Hin : In a (List.filter (required_gap (values input) l) (attributes (schema input)))).
      { apply filter_In. split; [by apply list_elem_of_In|]. unfold required_gap.
        rewrite bool_decide_eq_false_2 by done. cbn. apply isAttributeRequired_spec. eauto. }
      by rewrite Hg in Hin.
    + intros H. destruct (List.filter _ _) as [|a as_] eqn:E; [by apply map_eq_nil in Hg|]. exfalso.
      assert (Hin : In a (List.filter (required_gap (values input) l) (attributes (schema input))))
        by (rewrite E; by left).
      apply filter_In in Hin as [Hin Hgap]. apply list_elem_of_In in Hin. unfold required_gap in Hgap.
      bool_hyps. match goal with H : isAttributeRequired _ _ _ = true |- _ =>
        apply isAttributeRequired_spec in H as (r & Hr & Hl & Hk & Hw) end. naive_solver.
  - exact Hg.
  - intros Ha. unfold evaluateEgais. rewrite Ha. cbn [negb].
    by rewrite dimension_result_ready, egais_reasons_spec.
Qed.

(** C39: a schema that parses is well formed: its attribute ids are distinct, and every
    condition of a rule names an attribute of the schema and is met by some value of that
    attribute's type (of the type only: the presets, units and range of the attribute may still refuse
    such a value, so a rule can be one that no valid product meets); and a schema of the
    first format parses to its migration, which requires exactly what it required: its
    layers always, its conditions for circulation. *)
Theorem parseCategorySchemaDefinition_sound value d :
  parseCategorySchemaDefinition value = Ok d ->
  NoDup (map id (attributes d))
  /\ (forall a r w, a ∈ attributes d -> r ∈ requirementRules a -> when r = Some w ->
      exists trigger v, trigger ∈ attributes d /\ id trigger = attributeId w
      /\ value_type v = valueType trigger /\ conditionMatches w (Some v) = true)
  /\ (forall legacy, value = Legacy legacy ->
      exists p, legacyCategorySchemaDefinitionSchema legacy = Some p /\ d = migrate p
      /\ forall a vs l, a ∈ l_attributes p ->
         isAttributeRequired (migrate_attribute a) vs l = true <->
         l ∈ l_requiredLayers a
         \/ (l = circulation /\ exists w, w ∈ l_requiredWhen a
             /\ conditionMatches w (vs !! attributeId w) = true)).
Proof.
  intros H. assert (Hv : validateDefinition d = true).
  { assert (Hc : forall e, categorySchemaDefinitionSchema e = Some d -> validateDefinition d = true).
    { intros e He. unfold categorySchemaDefinitionSchema in He. destruct (negb _); [done|].
      repeat (apply bind_Some in He as (? & ? & He)).
      destruct (validateDefinition _) eqn:E; [|done]. by apply (inj Some) in He as <-. }
    unfold parseCategorySchemaDefinition in H. destruct value as [e|e].
    - destruct (categorySchemaDefinitionSchema e) eqn:E; [|done]. apply Ok_inj in H as ->. eauto.
    - destruct (legacyCategorySchemaDefinitionSchema e); [|done].
      destruct (categorySchemaDefinitionSchema _) eqn:E; [|done]. apply Ok_inj in H as ->. eauto. }
  apply validateDefinition_spec in Hv as (Hn & _ & Hr). split; [done|]. split.
  - intros a r w Ha Hrule Hw. destruct (Hr _ _ _ Ha Hrule Hw) as (t & Ht & Hi & Hc).
    apply conditionIsCompatible_satisfiable in Hc as (v & ? & ?). exists t, v. auto.
  - intros legacy ->. unfold parseCategorySchemaDefinition in H.
    destruct (legacyCategorySchemaDefinitionSchema legacy) as [p|] eqn:El; [|done].
    destruct (categorySchemaDefinitionSchema _) as [d'|] eqn:E; [|done]. apply Ok_inj in H as ->.
    exists p. split; [done|]. split; [by eapply migrate_fixed|]. intros a vs l _. apply migrated_required.
Qed.

(** ** Witnesses *)

Definition sample_condition : AttributeCondition :=
  {| attributeId := js "kind"; operator := equals; condition_value := CString (js "imported") |}.

Definition sample_legacy : LegacySchemaDefinition :=
  {| l_categoryId := js "beer"; l_scopeKey := js "ru";
     l_attributes :=
       [{| l_id := js "kind"; l_label := js "Kind"; l_valueType := t_enum; l_multiplicity := one;
           l_requiredLayers := [code_ordering]; l_requiredWhen := []; l_presets := [] |};
        {| l_id := js " country "; l_label := js "Country"; l_valueType := t_string;
           l_multiplicity := one; l_requiredLayers := []; l_requiredWhen := [sample_condition];
           l_presets := [] |}] |}.

Definition sample_schema : CategorySchemaDefinition :=
  match parseCategorySchemaDefinition (Legacy sample_legacy) with
  | Ok d => d
  | Throw _ => {| formatVersion := 0; categoryId := []; scopeKey := []; attributes := [] |}
  end.

Definition sample_input : ProductReadinessInput :=
  {| schemaVersionId := js "v1"; schema := sample_schema;
     values := {[js "kind" := VEnum (js "imported")]}; chzProductGroupCode := Some 15;
     boxCapacity := Some 12; palletCapacity := None; egais_applicable := true;
     egais_codes := [replicate 19 48]; egais_primaryCode := None; schemaStale := false |}.

Lemma parseCategorySchemaDefinition_sound_witness :
  parseCategorySchemaDefinition (Legacy sample_legacy) = Ok sample_schema
  /\ NoDup (map id (attributes sample_schema)).
Proof.
  assert (E : parseCategorySchemaDefinition (Legacy sample_legacy) = Ok sample_schema)
    by (vm_compute; reflexivity).
  split; [exact E|]. apply (parseCategorySchemaDefinition_sound _ _ E).
Defined.

Lemma evaluateProductReadiness_exact_witness :
  map reason_attributeId (reasons (evaluateRegulatoryDimension sample_input circulation))
  = [Some (js "country")]
  /\ state (evaluateEgais sample_input) = ready.
Proof.
  destruct (evaluateProductReadiness_exact sample_input circulation eq_refl) as (_ & H & He).
  split.
  - rewrite H. vm_compute. reflexivity.
  - apply He; [reflexivity|]. vm_compute. split; [discriminate|]. split; [|reflexivity].
    repeat constructor.
Defined.

(** A decimal attribute without units is not held to its restricted presets:
    [validateProductAttributeValue] returns before it looks at them. *)
Theorem decimal_skips_restricted_presets :
  validateProductAttributeValue
    {| id := js "volume"; label := js "Volume"; valueType := t_decimal; multiplicity := one;
       unit_definition := None; requirementRules := []; presetMode := restricted;
       presets := [{| preset_value := js "0.5"; preset_label := js "0.5" |}] |}
    (VDecimal (js "7") None) = true.
Proof. vm_compute. reflexivity. Qed.
