(* ===== verification/Doubles.v ===== *)
(** * Doubles

    The numbers of JavaScript where they are not integers: IEEE doubles as
    [spec_float] of the Standard Library, their arithmetic, [Math.round] and
    their 64 bits. *)

From stdpp Require Import base list strings gmap.
From Stdlib Require Import ZArith Lia.
From Stdlib Require Import SpecFloat.
From S2P Require Import Prelude.

(** ** Arithmetic *)

Definition fmul : spec_float -> spec_float -> spec_float := SFmul 53 1024.
Definition fdiv : spec_float -> spec_float -> spec_float := SFdiv 53 1024.
Definition float_of_Z (z : Z) : spec_float := binary_normalize 53 1024 z 0 false.

(** The double 25.4. *)
Definition MM_PER_INCH : spec_float := S754_finite false 7149464408450662 (-48).

(** [Math.round(x)] of a finite number: the nearest integer, halves up. *)
Definition math_round (x : spec_float) : option Z :=
  match x with
  | S754_zero _ => Some 0
  | S754_finite s m e =>
      let v := if s then Z.neg m else Z.pos m in
      Some (if 0 <=? e then v * 2 ^ e else (2 * v + 2 ^ (- e)) / (2 * 2 ^ (- e)))
  | _ => None
  end.

(** ** Bits *)

(** A double of the 64-bit format. *)
Definition double_ok (x : spec_float) : bool :=
  match x with
  | S754_finite _ m e =>
      ((2 ^ 52 <=? Z.pos m) && (Z.pos m <? 2 ^ 53) && (-1074 <=? e) && (e <=? 971))
      || ((Z.pos m <? 2 ^ 52) && (e =? -1074))
  | _ => true
  end.

(** The 64 bits of a double; any NaN is the quiet one. *)
Definition bits_of_double (x : spec_float) : Z :=
  let sign (s : bool) := if s then 2 ^ 63 else 0 in
  match x with
  | S754_zero s => sign s
  | S754_infinity s => sign s + 2047 * 2 ^ 52
  | S754_nan => 2047 * 2 ^ 52 + 2 ^ 51
  | S754_finite s m e =>
      sign s + (if Z.pos m <? 2 ^ 52 then Z.pos m else (e + 1075) * 2 ^ 52 + (Z.pos m - 2 ^ 52))
  end.

Definition double_of_bits (b : Z) : spec_float :=
  let s := 2 ^ 63 <=? b in
  let ex := (b / 2 ^ 52) mod 2 ^ 11 in
  let m := b mod 2 ^ 52 in
  if ex =? 0 then
    match m with Z.pos p => S754_finite s p (-1074) | _ => S754_zero s end
  else if ex =? 2047 then (if m =? 0 then S754_infinity s else S754_nan)
  else match 2 ^ 52 + m with
       | Z.pos p => S754_finite s p (ex - 1075)
       | _ => S754_nan
       end.

(** ** Lemmas *)

Definition sign_bit (s : bool) : Z := if s then 2 ^ 63 else 0.

Lemma sign_fields (s : bool) body :
  0 <= body < 2 ^ 63 ->
  (2 ^ 63 <=? sign_bit s + body) = s
  /\ ((sign_bit s + body) / 2 ^ 52) mod 2 ^ 11 = body / 2 ^ 52
  /\ (sign_bit s + body) mod 2 ^ 52 = body mod 2 ^ 52
  /\ 0 <= sign_bit s + body < 256 ^ 8.
Proof.
  intros Hb. change (256 ^ 8) with (2 ^ 64).
  assert (Hq : 0 <= body / 2 ^ 52 < 2 ^ 11).
  { split; [apply Z.div_pos; lia|]. apply Z.div_lt_upper_bound; [lia|].
    change (2 ^ 52 * 2 ^ 11) with (2 ^ 63). lia. }
  destruct s; cbn [sign_bit].
  - split; [apply Z.leb_le; lia|].
    replace (2 ^ 63 + body) with (body + 2 ^ 11 * 2 ^ 52) by (change (2 ^ 63) with (2 ^ 11 * 2 ^ 52); lia).
    rewrite Z.div_add by lia. rewrite Z.mod_add by lia. split; [|split; [done|]].
    + replace (body / 2 ^ 52 + 2 ^ 11) with (body / 2 ^ 52 + 1 * 2 ^ 11) by lia.
      rewrite Z.mod_add by lia. by apply Z.mod_small.
    + change (2 ^ 64) with (2 ^ 63 + 2 ^ 11 * 2 ^ 52). lia.
  - rewrite Z.add_0_l. split; [apply Z.leb_gt; lia|]. split; [by apply Z.mod_small|].
    split; [done|]. change (2 ^ 64) with (2 ^ 63 + 2 ^ 63). lia.
Qed.

(** The body of a normal number's bits: its exponent, then its mantissa. *)
Lemma normal_fields ex m :
  0 <= ex -> 2 ^ 52 <= m < 2 ^ 53 ->
  (ex * 2 ^ 52 + (m - 2 ^ 52)) / 2 ^ 52 = ex /\ (ex * 2 ^ 52 + (m - 2 ^ 52)) mod 2 ^ 52 = m - 2 ^ 52.
Proof.
  intros He Hm. assert (0 <= m - 2 ^ 52 < 2 ^ 52) by (change (2 ^ 53) with (2 ^ 52 + 2 ^ 52) in Hm; lia).
  rewrite (Z.add_comm (ex * 2 ^ 52)), Z.div_add, Z.mod_add by lia.
  by rewrite Z.div_small, Z.mod_small by done.
Qed.

Definition finite (x : spec_float) : bool :=
  match x with S754_zero _ | S754_finite _ _ _ => true | _ => false end.

Lemma double_of_bits_of x :
  double_ok x = true -> finite x = true ->
  double_of_bits (bits_of_double x) = x /\ 0 <= bits_of_double x < 256 ^ 8.
Proof.
  destruct x as [s|s| |s m e]; cbn [double_ok finite]; try done; intros Hok _.
  - cbn [bits_of_double]. destruct (sign_fields s 0) as (H1 & H2 & H3 & H4); [lia|].
    unfold sign_bit in *. rewrite Z.add_0_r in *. split; [|done].
    unfold double_of_bits. by rewrite H1, H2, H3.
  - cbn [bits_of_double]. fold (sign_bit s).
    destruct (Z.ltb_spec (Z.pos m) (2 ^ 52)) as [Hm|Hm].
    + destruct (sign_fields s (Z.pos m)) as (H1 & H2 & H3 & H4).
      { split; [lia|]. etrans; [exact Hm|]. reflexivity. }
      split; [|done]. unfold double_of_bits. rewrite H1, H2, H3, Z.div_small, Z.mod_small by lia.
      cbn [Z.eqb]. rewrite orb_true_iff, !andb_true_iff, !Z.leb_le, !Z.ltb_lt, Z.eqb_eq in Hok.
      destruct Hok as [?|[_ ->]]; [lia | done].
    + assert (2 ^ 52 <= Z.pos m < 2 ^ 53 /\ -1074 <= e <= 971) as [Hm' He].
      { rewrite orb_true_iff, !andb_true_iff, !Z.leb_le, !Z.ltb_lt, Z.eqb_eq in Hok. lia. }
      destruct (normal_fields (e + 1075) (Z.pos m)) as [Hd Hr]; [lia | done|].
      set (body := (e + 1075) * 2 ^ 52 + (Z.pos m - 2 ^ 52)) in *.
      destruct (sign_fields s body) as (H1 & H2 & H3 & H4).
      { unfold body. change (2 ^ 53) with (2 ^ 52 + 2 ^ 52) in Hm'.
        change (2 ^ 63) with (2048 * 2 ^ 52). split; nia. }
      split; [|done]. unfold double_of_bits. rewrite H1, H2, H3, Hd, Hr.
      rewrite (proj2 (Z.eqb_neq _ 0)), (proj2 (Z.eqb_neq _ 2047)) by lia.
      replace (2 ^ 52 + (Z.pos m - 2 ^ 52)) with (Z.pos m) by lia. f_equal. lia.
Qed.

Lemma bits_of_double_of b :
  0 <= b < 256 ^ 8 -> finite (double_of_bits b) = true -> bits_of_double (double_of_bits b) = b.
Proof.
  change (256 ^ 8) with (2 ^ 64). intros Hb. unfold double_of_bits.
  pose proof (Z.mod_pos_bound b (2 ^ 52) ltac:(lia)) as Hm.
  pose proof (Z.mod_pos_bound (b / 2 ^ 52) (2 ^ 11) ltac:(lia)) as He.
  assert (Hdec : b = sign_bit (2 ^ 63 <=? b) + ((b / 2 ^ 52) mod 2 ^ 11 * 2 ^ 52 + b mod 2 ^ 52)).
  { pose proof (Z.div_mod b (2 ^ 52) ltac:(lia)) as H1.
    pose proof (Z.div_mod (b / 2 ^ 52) (2 ^ 11) ltac:(lia)) as H2.
    assert (Hq : b / 2 ^ 52 / 2 ^ 11 = if 2 ^ 63 <=? b then 1 else 0).
    { rewrite Z.div_div by lia. change (2 ^ 52 * 2 ^ 11) with (2 ^ 63).
      change (2 ^ 64) with (2 ^ 63 + 2 ^ 63) in Hb.
      destruct (Z.leb_spec (2 ^ 63) b).
      - symmetry. apply (Z.div_unique _ _ _ (b - 2 ^ 63)); lia.
      - apply Z.div_small. lia. }
    rewrite Hq in H2. unfold sign_bit. change (2 ^ 63) with (2 ^ 11 * 2 ^ 52) at 2.
    destruct (2 ^ 63 <=? b); lia. }
  set (s := 2 ^ 63 <=? b) in *. set (ex := (b / 2 ^ 52) mod 2 ^ 11) in *. set (m := b mod 2 ^ 52) in *.
  destruct (Z.eqb_spec ex 0) as [E|E].
  - intros _. rewrite Hdec, E. destruct m as [|p|p] eqn:Em; [|..]; try lia.
    + cbn [bits_of_double]. unfold sign_bit. lia.
    + cbn [bits_of_double]. fold (sign_bit s). rewrite (proj2 (Z.ltb_lt (Z.pos p) _)) by lia. lia.
  - destruct (Z.eqb_spec ex 2047); [by destruct (m =? 0)|]. intros _.
    destruct (2 ^ 52 + m) as [|p|p] eqn:Ep; try lia. cbn [bits_of_double]. fold (sign_bit s).
    rewrite (proj2 (Z.ltb_ge (Z.pos p) _)) by lia. rewrite <- Ep, Hdec. f_equal.
    replace (ex - 1075 + 1075) with ex by lia. lia.
Qed.

(** Numbers that are not NaN are comparable. *)
Lemma SFltb_SFleb x y :
  x <> S754_nan -> y <> S754_nan -> SFltb x y = negb (SFleb y x).
Proof.
  intros Hx Hy. unfold SFltb, SFleb.
  destruct x as [[]|[]| |[] m e], y as [[]|[]| |[] m' e']; try done; cbn [SFcompare];
    rewrite ?(Z.compare_antisym e e'); destruct (e ?= e'); cbn [CompOpp]; try done;
    rewrite ?(Pos.compare_antisym m m'); change (Pos.compare_cont Eq m m') with (m ?= m')%positive;
    change (Pos.compare_cont Eq m' m) with (m' ?= m)%positive;
    rewrite ?(Pos.compare_antisym m m'); by destruct (m ?= m')%positive.
Qed.
