(* ===== verification/MonoRaster.v ===== *)
(** * Monochrome sheets: the raster codec and the composer

    [packages/domain/src/labels/mono-raster.ts]: the artifact codec of a sheet
    and its validation; [labels/mono-compose.ts]: bitmaps and how they are
    pasted on a sheet.  A [Uint8Array] is a list of bytes (0 to 255); lengths
    in millimetres are doubles; sizes in dots are integers. *)

From stdpp Require Import base list strings gmap.
From Stdlib Require Import ZArith Lia.
From Stdlib Require Import SpecFloat.
From S2P Require Import Prelude Doubles.

(** ** mmToDots of labels/model.ts *)

Definition mmToDots (mm : spec_float) (dpi : Z) : option Z :=
  math_round (fdiv (fmul mm (float_of_Z dpi)) MM_PER_INCH).

(** ** Bytes *)

(** The [n] little-endian bytes of an integer, and the integer back. *)
Fixpoint le_bytes (n : nat) (z : Z) : list Z :=
  match n with O => [] | S n' => z mod 256 :: le_bytes n' (z / 256) end.

Fixpoint le_value (bs : list Z) : Z :=
  match bs with [] => 0 | b :: bs' => b + 256 * le_value bs' end.

(** [bytes.set(bs, offset)]. *)
Definition put (offset : nat) (bs arr : list Z) : list Z :=
  take offset arr ++ bs ++ drop (offset + length bs) arr.

Definition setUint32 (offset : nat) (z : Z) (arr : list Z) : list Z := put offset (le_bytes 4 z) arr.
Definition setFloat64 (offset : nat) (x : spec_float) (arr : list Z) : list Z :=
  put offset (le_bytes 8 (bits_of_double x)) arr.
Definition getUint32 (offset : nat) (arr : list Z) : Z := le_value (slice offset (offset + 4) arr).
Definition getFloat64 (offset : nat) (arr : list Z) : spec_float :=
  double_of_bits (le_value (slice offset (offset + 8) arr)).

(** ** mono-raster.ts *)

Definition MONO_RASTER_MAX_BYTES : Z := 2 * 1024 * 1024.
Definition MONO_RASTER_HEADER_BYTES : Z := 64.
Definition MAGIC : list Z := [77; 75; 82; 77; 78; 79; 49; 0].

Record MonoRasterBounds := { left : Z; top : Z; right : Z; bottom : Z }.

Record MonoRaster := {
  widthMm : spec_float; heightMm : spec_float; dpi : Z; widthDots : Z; heightDots : Z; stride : Z;
  requiredBounds : MonoRasterBounds; pixels : list Z
}.

(** [Number.isFinite(n) && n >= 10 && n <= 300]. *)
Definition length_mm_ok (n : spec_float) : bool :=
  match n with
  | S754_zero _ | S754_finite _ _ _ => SFleb (float_of_Z 10) n && SFleb n (float_of_Z 300)
  | _ => false
  end.

Definition nonneg_safe (z : Z) : bool := (0 <=? z) && (z <=? MAX_SAFE_INTEGER).

(** [Math.ceil(n / 8)]. *)
Definition ceil8 (n : Z) : Z := (n + 7) / 8.

Definition geometry (p : MonoRaster) : result Z :=
  let b := requiredBounds p in
  if negb ((dpi p =? 203) || (dpi p =? 300))
     || negb (length_mm_ok (widthMm p) && length_mm_ok (heightMm p))
     || negb (bool_decide (mmToDots (widthMm p) (dpi p) = Some (widthDots p)))
     || negb (bool_decide (mmToDots (heightMm p) (dpi p) = Some (heightDots p)))
     || negb (stride p =? ceil8 (widthDots p))
     || negb (nonneg_safe (left b) && nonneg_safe (top b) && nonneg_safe (right b)
              && nonneg_safe (bottom b))
     || (right b <? left b) || (bottom b <? top b)
     || (widthDots p <? right b) || (heightDots p <? bottom b)
  then Throw RangeError
  else
    let length := stride p * heightDots p in
    if negb (safe_int length) || (MONO_RASTER_MAX_BYTES <? length + MONO_RASTER_HEADER_BYTES)
    then Throw RangeError else Ok length.

(** [pixels[i] ?? 0]. *)
Definition pixel_byte (pixels : list Z) (i : Z) : Z := nth (Z.to_nat i) pixels 0.

(** [Boolean(value & (0x80 >> bit))]. *)
Definition bit_set (value bit : Z) : bool := negb (Z.land value (Z.shiftr 0x80 bit) =? 0).

Definition upto (n : Z) : list Z := seqZ 0 n.

(** The body of the innermost loop of [validatePixels]: no [invalid()]. *)
Definition bit_ok (p : MonoRaster) (y byteX bit : Z) : bool :=
  let b := requiredBounds p in
  let value := pixel_byte (pixels p) (y * stride p + byteX) in
  let x := byteX * 8 + bit in
  negb (bit_set value bit)
  || negb ((widthDots p <=? x) || (x <? left b) || (right b <=? x) || (y <? top b) || (bottom b <=? y)).

Definition validatePixels (p : MonoRaster) : result unit :=
  size ← geometry p;
  if negb (Z.of_nat (length (pixels p)) =? size) then Throw RangeError
  else if forallb (fun y => forallb (fun byteX => forallb (bit_ok p y byteX) (upto 8))
                              (upto (stride p))) (upto (heightDots p))
  then Ok tt else Throw RangeError.

Definition encodeMonoRaster (p : MonoRaster) : result (list Z) :=
  _ ← validatePixels p;
  let b := requiredBounds p in
  let bytes := replicate (64 + length (pixels p)) 0 in
  let bytes := put 0 MAGIC bytes in
  let bytes := setUint32 8 (dpi p) bytes in
  let bytes := setUint32 12 (widthDots p) bytes in
  let bytes := setUint32 16 (heightDots p) bytes in
  let bytes := setUint32 20 (stride p) bytes in
  let bytes := setFloat64 24 (widthMm p) bytes in
  let bytes := setFloat64 32 (heightMm p) bytes in
  let bytes := setUint32 40 (Z.of_nat (length (pixels p))) bytes in
  let bytes := setUint32 48 (left b) bytes in
  let bytes := setUint32 52 (top b) bytes in
  let bytes := setUint32 56 (right b) bytes in
  let bytes := setUint32 60 (bottom b) bytes in
  Ok (put 64 (pixels p) bytes).

Definition decodeMonoRaster (bytes : list Z) : result MonoRaster :=
  let size := Z.of_nat (length bytes) in
  if (size <? MONO_RASTER_HEADER_BYTES) || (MONO_RASTER_MAX_BYTES <? size)
     || negb (bool_decide (take 8 bytes = MAGIC))
  then Throw RangeError
  else
    let dpi_ := getUint32 8 bytes in
    if negb ((dpi_ =? 203) || (dpi_ =? 300)) || negb (getUint32 44 bytes =? 0) then Throw RangeError
    else
      let page := {| widthMm := getFloat64 24 bytes; heightMm := getFloat64 32 bytes; dpi := dpi_;
                     widthDots := getUint32 12 bytes; heightDots := getUint32 16 bytes;
                     stride := getUint32 20 bytes;
                     requiredBounds := {| left := getUint32 48 bytes; top := getUint32 52 bytes;
                                          right := getUint32 56 bytes; bottom := getUint32 60 bytes |};
                     pixels := drop 64 bytes |} in
      length_ ← geometry page;
      if negb (getUint32 40 bytes =? length_) || negb (size =? MONO_RASTER_HEADER_BYTES + length_)
      then Throw RangeError
      else _ ← validatePixels page; Ok page.

(** ** mono-compose.ts *)

Record MonoBitmap := { bm_width : Z; bm_height : Z; bm_stride : Z; bm_pixels : list Z }.

Definition validateMonoBitmap (b : MonoBitmap) : result unit :=
  if (bm_width b <? 1) || (bm_height b <? 1) || (3508 <? bm_width b) || (3508 <? bm_height b)
     || negb (bm_stride b =? ceil8 (bm_width b))
     || negb (Z.of_nat (length (bm_pixels b)) =? bm_stride b * bm_height b)
     || (MONO_RASTER_MAX_BYTES <? Z.of_nat (length (bm_pixels b)))
  then throw "LABEL_SHEET_RASTER"
  else
    let unused := (8 - bm_width b mod 8) mod 8 in
    if negb (unused =? 0)
       && existsb (fun y => negb (Z.land (pixel_byte (bm_pixels b) ((y + 1) * bm_stride b - 1))
                                    (Z.shiftl 1 unused - 1) =? 0)) (upto (bm_height b))
    then throw "LABEL_SHEET_RASTER" else Ok tt.

(** raster-types.ts: what the text rasterizer of the host returns. *)
Record RasterResult := { hex : jsstr; totalBytes : Z; bytesPerRow : Z; r_width : Z; r_height : Z }.

(** [/^[0-9a-f]+$/i] on a character, and the value of such a digit. *)
Definition is_hex_digit (c : Z) : bool :=
  is_digit c || ((97 <=? c) && (c <=? 102)) || ((65 <=? c) && (c <=? 70)).
Definition hex_value (c : Z) : Z :=
  if is_digit c then c - 48 else if 97 <=? c then c - 87 else c - 55.

(** [Number.parseInt(hex.slice(i * 2, i * 2 + 2), 16)], for each [i]. *)
Fixpoint parse_hex_bytes (s : jsstr) : list Z :=
  match s with
  | a :: b :: s' => 16 * hex_value a + hex_value b :: parse_hex_bytes s'
  | _ => []
  end.

Definition bitmapFromText (raster : RasterResult) : result MonoBitmap :=
  let st := bytesPerRow raster in
  let size := st * r_height raster in
  if negb (safe_int size) || (MONO_RASTER_MAX_BYTES <? size)
     || negb (Z.of_nat (length (hex raster)) =? size * 2) || negb (totalBytes raster =? size)
     || negb (negb (bool_decide (hex raster = [])) && forallb is_hex_digit (hex raster))
  then throw "LABEL_SHEET_RASTER"
  else
    let result := {| bm_width := r_width raster; bm_height := r_height raster; bm_stride := st;
                     bm_pixels := parse_hex_bytes (hex raster) |} in
    _ ← validateMonoBitmap result; Ok result.

Definition createSheetPage (w h : spec_float) : result MonoRaster :=
  match mmToDots w 300, mmToDots h 300 with
  | Some wd, Some hd =>
      let st := ceil8 wd in
      if negb ((0 <? wd) && (wd <=? 3508) && (0 <? hd) && (hd <=? 3508))
         || (MONO_RASTER_MAX_BYTES <? st * hd + MONO_RASTER_HEADER_BYTES)
      then throw "LABEL_SHEET_BOUNDS"
      else Ok {| widthMm := w; heightMm := h; dpi := 300; widthDots := wd; heightDots := hd;
                 stride := st; requiredBounds := {| left := 0; top := 0; right := 0; bottom := 0 |};
                 pixels := replicate (Z.to_nat (st * hd)) 0 |}
  | _, _ => throw "LABEL_SHEET_BOUNDS"
  end.

Definition bitmapPixel (b : MonoBitmap) (x y : Z) : bool :=
  bit_set (pixel_byte (bm_pixels b) (y * bm_stride b + Z.shiftr x 3)) (x mod 8).

(** [pixels[index] = (pixels[index] ?? 0) | (0x80 >> (x % 8))]. *)
Definition set_pixel (st : Z) (ps : list Z) (x y : Z) : list Z :=
  let index := y * st + Z.shiftr x 3 in
  <[Z.to_nat index := Z.lor (pixel_byte ps index) (Z.shiftr 0x80 (x mod 8))]> ps.

(** Two nested [for] loops: rows, then columns. *)
Definition coordinates (w h : Z) : list (Z * Z) :=
  concat (map (fun y => map (fun x => (x, y)) (upto w)) (upto h)).

Definition paste_pixels (st : Z) (b : MonoBitmap) (x y : Z) (ps : list Z) : list Z :=
  fold_left (fun ps '(bx, by_) =>
    if bitmapPixel b bx by_ then set_pixel st ps (x + bx) (y + by_) else ps)
    (coordinates (bm_width b) (bm_height b)) ps.

Definition grow_bounds (b : MonoRasterBounds) (x y x' y' : Z) : MonoRasterBounds :=
  if right b =? 0 then {| left := x; top := y; right := x'; bottom := y' |}
  else {| left := left b `min` x; top := top b `min` y; right := right b `max` x';
          bottom := bottom b `max` y' |}.

Definition pasteMonoBitmap (page : MonoRaster) (bitmap : MonoBitmap) (x y : Z) : result MonoRaster :=
  _ ← validateMonoBitmap bitmap;
  if negb (safe_int x && safe_int y) || (x <? 0) || (y <? 0)
     || (widthDots page <? x + bm_width bitmap) || (heightDots page <? y + bm_height bitmap)
  then throw "LABEL_SHEET_BOUNDS"
  else Ok {| widthMm := widthMm page; heightMm := heightMm page; dpi := dpi page;
             widthDots := widthDots page; heightDots := heightDots page; stride := stride page;
             requiredBounds := grow_bounds (requiredBounds page) x y (x + bm_width bitmap)
                                 (y + bm_height bitmap);
             pixels := paste_pixels (stride page) bitmap x y (pixels page) |}.

(** The loop that draws the pixels a predicate selects, from a white bitmap. *)
Definition draw (w h : Z) (black : Z -> Z -> bool) : MonoBitmap :=
  let st := ceil8 w in
  {| bm_width := w; bm_height := h; bm_stride := st;
     bm_pixels := fold_left (fun ps '(x, y) => if black x y then set_pixel st ps x y else ps)
                    (coordinates w h) (replicate (Z.to_nat (st * h)) 0) |}.

Definition scaleMonoBitmap (bitmap : MonoBitmap) (w h : Z) : result MonoBitmap :=
  _ ← validateMonoBitmap bitmap;
  if negb ((0 <? w) && (w <=? 3508) && (0 <? h) && (h <=? 3508)) then throw "LABEL_SHEET_BOUNDS"
  else Ok (draw w h (fun x y =>
         bitmapPixel bitmap (x * bm_width bitmap / w) (y * bm_height bitmap / h))).

Definition rectangleBitmap (w h thickness : Z) (filled : bool) : result MonoBitmap :=
  let st := ceil8 w in
  if negb (nonneg_safe (st * h)) then Throw RangeError
  else
  _ ← validateMonoBitmap {| bm_width := w; bm_height := h; bm_stride := st;
                            bm_pixels := replicate (Z.to_nat (st * h)) 0 |};
  Ok (draw w h (fun x y => filled || (x <? thickness) || (y <? thickness)
                           || (w - thickness <=? x) || (h - thickness <=? y))).

(** ** Lemmas: bytes *)

Lemma le_value_bytes n z : le_value (le_bytes n z) = z mod 256 ^ Z.of_nat n.
Proof.
  revert z. induction n as [|n IH]; intros z; cbn [le_bytes le_value]; [by rewrite Z.mod_1_r|].
  rewrite IH, Nat2Z.inj_succ, Z.pow_succ_r by lia.
  rewrite (Z.mul_comm 256 (256 ^ _)), (Z.mul_comm (256 ^ _) 256), Z.rem_mul_r by lia. lia.
Qed.

Lemma length_le_bytes n z : length (le_bytes n z) = n.
Proof. revert z. induction n as [|n IH]; intros z; cbn; auto. Qed.

Definition is_byte (b : Z) : bool := (0 <=? b) && (b <=? 255).

Lemma le_bytes_value bs n :
  forallb is_byte bs = true -> length bs = n -> le_bytes n (le_value bs) = bs.
Proof.
  revert n. induction bs as [|b bs IH]; intros n Hb <-; cbn [length le_bytes le_value]; [done|].
  cbn in Hb. bool_hyps. unfold is_byte in *. bool_hyps.
  replace (b + 256 * le_value bs) with (b + le_value bs * 256) by lia.
  rewrite Z.mod_add, Z.div_add, Z.mod_small, Z.div_small by lia.
  cbn. f_equal. by apply IH.
Qed.

Lemma le_value_bound bs : forallb is_byte bs = true -> 0 <= le_value bs < 256 ^ Z.of_nat (length bs).
Proof.
  induction bs as [|b bs IH]; cbn [length le_value forallb]; intros H; [cbn; lia|].
  bool_hyps. unfold is_byte in *. bool_hyps. rewrite Nat2Z.inj_succ, Z.pow_succ_r by lia.
  specialize (IH ltac:(assumption)). lia.
Qed.

(** ** Lemmas: the artifact *)

(** The 64 bytes of the header. *)
Definition header (p : MonoRaster) (size : Z) : list Z :=
  MAGIC ++ le_bytes 4 (dpi p) ++ le_bytes 4 (widthDots p) ++ le_bytes 4 (heightDots p)
  ++ le_bytes 4 (stride p) ++ le_bytes 8 (bits_of_double (widthMm p))
  ++ le_bytes 8 (bits_of_double (heightMm p)) ++ le_bytes 4 size ++ [0; 0; 0; 0]
  ++ le_bytes 4 (left (requiredBounds p)) ++ le_bytes 4 (top (requiredBounds p))
  ++ le_bytes 4 (right (requiredBounds p)) ++ le_bytes 4 (bottom (requiredBounds p)).

Lemma put_at (a b b' c : list Z) offset :
  offset = length a -> length b' = length b -> put offset b' (a ++ b ++ c) = a ++ b' ++ c.
Proof.
  intros -> Hl. unfold put. rewrite take_app_length, Hl, drop_app_add, drop_app_length. done.
Qed.

Lemma encode_bytes p :
  validatePixels p = Ok tt ->
  encodeMonoRaster p = Ok (header p (Z.of_nat (length (pixels p))) ++ pixels p).
Proof.
  intros Hv. unfold encodeMonoRaster. rewrite Hv. cbn [mbind result_bind]. f_equal. cbv zeta.
  rewrite replicate_add. set (tail := replicate (length (pixels p)) 0).
  assert (Ht : length (pixels p) = length tail) by (unfold tail; by rewrite length_replicate).
  set (size := Z.of_nat (length (pixels p))).
  trans (put 64 (pixels p) (header p size ++ tail)); [reflexivity|].
  rewrite <- (app_nil_r tail), put_at by done. by rewrite app_nil_r.
Qed.

Definition u32 (z : Z) : Prop := 0 <= z < 256 ^ 4.

Lemma u32_value z : u32 z -> le_value (le_bytes 4 z) = z.
Proof. intros H. rewrite le_value_bytes. by apply Z.mod_small. Qed.

Lemma double_value x :
  double_ok x = true -> finite x = true -> double_of_bits (le_value (le_bytes 8 (bits_of_double x))) = x.
Proof.
  intros Ho Hf. destruct (double_of_bits_of x Ho Hf) as [E Hb].
  rewrite le_value_bytes, Z.mod_small by done. exact E.
Qed.

(** What [decodeMonoRaster] reads off an artifact. *)
Definition read_page (bytes : list Z) : MonoRaster :=
  {| widthMm := getFloat64 24 bytes; heightMm := getFloat64 32 bytes; dpi := getUint32 8 bytes;
     widthDots := getUint32 12 bytes; heightDots := getUint32 16 bytes;
     stride := getUint32 20 bytes;
     requiredBounds := {| left := getUint32 48 bytes; top := getUint32 52 bytes;
                          right := getUint32 56 bytes; bottom := getUint32 60 bytes |};
     pixels := drop 64 bytes |}.

Lemma decode_Ok bytes page :
  decodeMonoRaster bytes = Ok page <->
  page = read_page bytes /\ take 8 bytes = MAGIC /\ getUint32 44 bytes = 0
  /\ 64 <= Z.of_nat (length bytes) <= MONO_RASTER_MAX_BYTES
  /\ geometry page = Ok (getUint32 40 bytes)
  /\ Z.of_nat (length bytes) = 64 + getUint32 40 bytes
  /\ validatePixels page = Ok tt.
Proof.
  unfold decodeMonoRaster. cbv zeta. fold (read_page bytes). unfold MONO_RASTER_HEADER_BYTES.
  split.
  - pass_guard E1. pass_guard E2. intros (n & Hg & H)%bind_ok_inv. revert H. pass_guard E3.
    intros ([] & Hv & <-%Ok_inj)%bind_ok_inv. bool_hyps. subst n.
    repeat (split; [done || lia|]). done.
  - intros (-> & Hm & Hz & Hl & Hg & Hs & Hv).
    assert (Hd : (dpi (read_page bytes) =? 203) || (dpi (read_page bytes) =? 300) = true).
    { unfold geometry in Hg. destruct (_ =? 203); [done|]. by destruct (_ =? 300). }
    rewrite (proj2 (Z.ltb_ge _ 64)), (proj2 (Z.ltb_ge MONO_RASTER_MAX_BYTES _)) by lia.
    rewrite (bool_decide_eq_true_2 _ Hm). cbn [orb negb].
    change (getUint32 8 bytes) with (dpi (read_page bytes)). rewrite Hd, Hz, Hg. cbn.
    rewrite Z.eqb_refl, Hs, Z.eqb_refl. cbn. by rewrite Hv.
Qed.

Lemma geometry_Ok p n :
  geometry p = Ok n ->
  (dpi p = 203 \/ dpi p = 300) /\ finite (widthMm p) = true /\ finite (heightMm p) = true
  /\ stride p = ceil8 (widthDots p)
  /\ 0 <= left (requiredBounds p) <= right (requiredBounds p)
  /\ 0 <= top (requiredBounds p) <= bottom (requiredBounds p)
  /\ right (requiredBounds p) <= widthDots p /\ bottom (requiredBounds p) <= heightDots p
  /\ n = stride p * heightDots p /\ n + 64 <= MONO_RASTER_MAX_BYTES.
Proof.
  unfold geometry. cbv zeta. pass_guard E1. pass_guard E2. intros <-%Ok_inj. bool_hyps.
  assert (Hf : forall x, length_mm_ok x = true -> finite x = true) by by intros [].
  unfold nonneg_safe, MONO_RASTER_HEADER_BYTES in *. bool_hyps.
  rewrite !Hf by done. repeat (split; [done || lia|]). done.
Qed.

Lemma validatePixels_geometry p :
  validatePixels p = Ok tt -> geometry p = Ok (Z.of_nat (length (pixels p))).
Proof.
  unfold validatePixels. intros H. apply bind_ok_inv in H as (n & Hg & H).
  destruct (Z.eqb_spec (Z.of_nat (length (pixels p))) n) as [->|]; [done | discriminate H].
Qed.

Lemma read_page_header p ps :
  double_ok (widthMm p) = true -> double_ok (heightMm p) = true ->
  validatePixels p = Ok tt -> u32 (widthDots p) -> u32 (heightDots p) ->
  read_page (header p (Z.of_nat (length (pixels p))) ++ ps)
  = {| widthMm := widthMm p; heightMm := heightMm p; dpi := dpi p; widthDots := widthDots p;
       heightDots := heightDots p; stride := stride p; requiredBounds := requiredBounds p;
       pixels := ps |}
  /\ getUint32 40 (header p (Z.of_nat (length (pixels p))) ++ ps) = Z.of_nat (length (pixels p)).
Proof.
  intros Hw Hh Hv Huw Huh. pose proof (validatePixels_geometry _ Hv) as Hg.
  apply geometry_Ok in Hg as (Hd & Hfw & Hfh & Hst & Hl & Ht & Hr & Hb & Hn & Hmax).
  set (size := Z.of_nat (length (pixels p))) in *.
  assert (Hsize : u32 size) by (unfold u32, MONO_RASTER_MAX_BYTES in *; lia).
  assert (Hstr : u32 (stride p)).
  { unfold u32 in *. rewrite Hst. unfold ceil8. change (256 ^ 4) with 4294967296 in *.
    Z.to_euclidean_division_equations. lia. }
  assert (Hdpi : u32 (dpi p)) by (unfold u32; change (256 ^ 4) with 4294967296; lia).
  split; [|exact (u32_value _ Hsize)].
  trans {| widthMm := double_of_bits (le_value (le_bytes 8 (bits_of_double (widthMm p))));
           heightMm := double_of_bits (le_value (le_bytes 8 (bits_of_double (heightMm p))));
           dpi := le_value (le_bytes 4 (dpi p)); widthDots := le_value (le_bytes 4 (widthDots p));
           heightDots := le_value (le_bytes 4 (heightDots p)); stride := le_value (le_bytes 4 (stride p));
           requiredBounds := {| left := le_value (le_bytes 4 (left (requiredBounds p)));
                                top := le_value (le_bytes 4 (top (requiredBounds p)));
                                right := le_value (le_bytes 4 (right (requiredBounds p)));
                                bottom := le_value (le_bytes 4 (bottom (requiredBounds p))) |};
           pixels := ps |}; [reflexivity|].
  rewrite !double_value, !u32_value by (done || (unfold u32 in *; lia)).
  by destruct (requiredBounds p).
Qed.

Lemma slice_join (i j k : nat) (l : list Z) :
  (i <= j)%nat -> (j <= k)%nat -> slice i j l ++ slice j k l = slice i k l.
Proof.
  intros H1 H2. unfold slice.
  replace (drop j l) with (drop (j - i) (drop i l)) by (rewrite drop_drop; f_equal; lia).
  rewrite take_take_drop. f_equal. lia.
Qed.

Lemma slice_bytes i j (l : list Z) :
  forallb is_byte l = true -> forallb is_byte (slice i j l) = true.
Proof.
  intros H. apply forallb_forall. intros x Hx%list_elem_of_In. rewrite forallb_forall in H.
  apply H, list_elem_of_In. unfold slice in Hx.
  by eapply elem_of_subseteq in Hx; [|apply subseteq_take]; eapply subseteq_drop in Hx.
Qed.

Lemma slice_length (l : list Z) i j :
  (i <= j)%nat -> (j <= length l)%nat -> length (slice i j l) = (j - i)%nat.
Proof. intros. unfold slice. rewrite length_take, length_drop. lia. Qed.

Lemma le_bytes_slice n i (l : list Z) :
  forallb is_byte l = true -> (i + n <= length l)%nat ->
  le_bytes n (le_value (slice i (i + n) l)) = slice i (i + n) l.
Proof.
  intros Hb Hl. apply le_bytes_value; [by apply slice_bytes|]. rewrite slice_length by lia. lia.
Qed.

(** The header of the page read off an artifact is the artifact's header. *)
Lemma header_read_page bytes :
  forallb is_byte bytes = true -> (64 <= length bytes)%nat -> take 8 bytes = MAGIC ->
  getUint32 44 bytes = 0 ->
  finite (getFloat64 24 bytes) = true -> finite (getFloat64 32 bytes) = true ->
  header (read_page bytes) (getUint32 40 bytes) = take 64 bytes.
Proof.
  intros Hb Hl Hm Hz Hf1 Hf2. unfold header, read_page. cbn [widthMm heightMm dpi widthDots heightDots
    stride requiredBounds left top right bottom].
  assert (H8 : forall i, (i + 8 <= length bytes)%nat -> finite (getFloat64 i bytes) = true ->
    bits_of_double (getFloat64 i bytes) = le_value (slice i (i + 8) bytes)).
  { intros i Hi Hf. apply bits_of_double_of; [|exact Hf].
    pose proof (le_value_bound (slice i (i + 8) bytes) (slice_bytes _ _ _ Hb)) as Hv.
    rewrite slice_length in Hv by lia. by replace (i + 8 - i)%nat with 8%nat in Hv by lia. }
  rewrite !H8 by (done || lia). unfold getUint32.
  rewrite !le_bytes_slice by (done || lia).
  assert (Hzero : [0; 0; 0; 0] = slice 44 48 bytes).
  { pose proof (le_bytes_slice 4 44 bytes Hb ltac:(lia)) as E. unfold getUint32 in Hz.
    rewrite Hz in E. exact E. }
  rewrite Hzero, <- Hm. change (take 8 bytes) with (slice 0 8 bytes).
  cbn [Nat.add]. rewrite !slice_join by lia. reflexivity.
Qed.

(** ** Lemmas: pixels *)

Definition pixel_at (st : Z) (ps : list Z) (x y : Z) : bool :=
  bit_set (pixel_byte ps (y * st + Z.shiftr x 3)) (x mod 8).

Lemma mask_bit k : 0 <= k < 8 -> Z.shiftr 0x80 k = 2 ^ (7 - k).
Proof.
  intros H. assert (k = 0 \/ k = 1 \/ k = 2 \/ k = 3 \/ k = 4 \/ k = 5 \/ k = 6 \/ k = 7) as Hk by lia.
  repeat destruct Hk as [->|Hk]; [..|subst k]; reflexivity.
Qed.

Lemma bit_set_testbit v k : 0 <= k < 8 -> bit_set v k = Z.testbit v (7 - k).
Proof.
  intros H. unfold bit_set. rewrite mask_bit by done.
  assert (E : Z.land v (2 ^ (7 - k)) = if Z.testbit v (7 - k) then 2 ^ (7 - k) else 0).
  { apply Z.bits_inj'. intros n Hn. rewrite Z.land_spec, Z.pow2_bits_eqb by lia.
    destruct (Z.eqb_spec (7 - k) n) as [<-|Hne].
    - rewrite andb_true_r. destruct (Z.testbit v (7 - k)) eqn:Et; [|by rewrite Z.bits_0].
      by rewrite Z.pow2_bits_eqb, Z.eqb_refl by lia.
    - rewrite andb_false_r. destruct (Z.testbit v (7 - k)); [|by rewrite Z.bits_0].
      rewrite Z.pow2_bits_eqb by lia. by rewrite (proj2 (Z.eqb_neq _ _)). }
  rewrite E. destruct (Z.testbit v (7 - k)); [|done].
  pose proof (Z.pow_pos_nonneg 2 (7 - k) ltac:(lia) ltac:(lia)).
  by rewrite (proj2 (Z.eqb_neq (2 ^ (7 - k)) 0)) by lia.
Qed.

Lemma bit_set_lor v k k' :
  0 <= k < 8 -> 0 <= k' < 8 -> bit_set (Z.lor v (Z.shiftr 0x80 k)) k' = (k =? k') || bit_set v k'.
Proof.
  intros H H'. rewrite !bit_set_testbit, mask_bit, Z.lor_spec, Z.pow2_bits_eqb by lia.
  rewrite orb_comm. f_equal. destruct (Z.eqb_spec k k'), (Z.eqb_spec (7 - k) (7 - k')); lia || done.
Qed.

(** A coordinate on a raster of [st] bytes per row and [h] rows. *)
Definition on_raster (st h x y : Z) : Prop := 0 <= x < 8 * st /\ 0 <= y < h.

Lemma index_range st h x y :
  on_raster st h x y -> 0 <= y * st + Z.shiftr x 3 < st * h.
Proof.
  intros [Hx Hy]. rewrite Z.shiftr_div_pow2 by lia. change (2 ^ 3) with 8.
  assert (0 <= x / 8 < st) by (Z.to_euclidean_division_equations; lia). nia.
Qed.

Lemma index_unique st h x y x' y' :
  on_raster st h x y -> on_raster st h x' y' ->
  y * st + Z.shiftr x 3 = y' * st + Z.shiftr x' 3 -> x mod 8 = x' mod 8 -> x = x' /\ y = y'.
Proof.
  intros [Hx Hy] [Hx' Hy']. rewrite !Z.shiftr_div_pow2 by lia. change (2 ^ 3) with 8. intros E Em.
  assert (0 <= x / 8 < st) by (Z.to_euclidean_division_equations; lia).
  assert (0 <= x' / 8 < st) by (Z.to_euclidean_division_equations; lia).
  assert (y = y') as -> by nia. assert (x / 8 = x' / 8) by lia.
  pose proof (Z.div_mod x 8). pose proof (Z.div_mod x' 8). lia.
Qed.

Lemma set_pixel_spec st h ps x y x' y' :
  Z.of_nat (length ps) = st * h -> on_raster st h x y -> on_raster st h x' y' ->
  pixel_at st (set_pixel st ps x y) x' y' = ((x =? x') && (y =? y')) || pixel_at st ps x' y'.
Proof.
  intros Hl Hr Hr'. pose proof (index_range _ _ _ _ Hr) as Hi. pose proof (index_range _ _ _ _ Hr') as Hi'.
  pose proof (Z.mod_pos_bound x 8 ltac:(lia)). pose proof (Z.mod_pos_bound x' 8 ltac:(lia)).
  unfold pixel_at, set_pixel. set (i := y * st + Z.shiftr x 3) in *. set (i' := y' * st + Z.shiftr x' 3) in *.
  unfold pixel_byte at 1. rewrite !nth_lookup.
  destruct (Z.eq_dec i i') as [E|Hne].
  - rewrite <- E, list_lookup_insert_eq by lia. unfold default, from_option, id.
    rewrite bit_set_lor by done. f_equal.
    destruct (Z.eqb_spec (x mod 8) (x' mod 8)) as [Em|Hm].
    + destruct (index_unique _ _ _ _ _ _ Hr Hr' E Em) as [-> ->]. by rewrite !Z.eqb_refl.
    + destruct (Z.eqb_spec x x') as [->|]; [done|]. done.
  - rewrite list_lookup_insert_ne by lia.
    assert ((x =? x') && (y =? y') = false) as ->.
    { apply andb_false_iff. rewrite !Z.eqb_neq. destruct (Z.eq_dec x x') as [->|]; [|by left].
      right. intros ->. by apply Hne. }
    unfold pixel_byte. by rewrite nth_lookup.
Qed.

Lemma length_set_pixel st ps x y : length (set_pixel st ps x y) = length ps.
Proof. apply length_insert. Qed.

(** Drawing a list of coordinates, each moved by [place], where [black] holds. *)
Lemma draw_spec st h (black : Z * Z -> bool) (place : Z * Z -> Z * Z) cs ps x' y' :
  Z.of_nat (length ps) = st * h ->
  (forall c, c ∈ cs -> on_raster st h (fst (place c)) (snd (place c))) ->
  on_raster st h x' y' ->
  let ps' := fold_left (fun ps c => if black c then set_pixel st ps (fst (place c)) (snd (place c)) else ps)
               cs ps in
  length ps' = length ps
  /\ pixel_at st ps' x' y'
     = existsb (fun c => black c && ((fst (place c) =? x') && (snd (place c) =? y'))) cs
       || pixel_at st ps x' y'.
Proof.
  cbv zeta. revert ps. induction cs as [|c cs IH]; cbn; intros ps Hl Hin Hr; [done|].
  destruct (black c); cbn [andb orb].
  - destruct (IH (set_pixel st ps (fst (place c)) (snd (place c)))) as [-> ->].
    + by rewrite length_set_pixel.
    + intros d Hd. apply Hin. by right.
    + done.
    + rewrite length_set_pixel. split; [done|].
      rewrite (set_pixel_spec st h) by (done || (apply Hin; left)).
      rewrite !orb_assoc. f_equal. apply orb_comm.
  - apply IH; [done| |done]. intros d Hd. apply Hin. by right.
Qed.

Lemma elem_of_coordinates w h x y : (x, y) ∈ coordinates w h <-> 0 <= x < w /\ 0 <= y < h.
Proof.
  unfold coordinates, upto. rewrite list_elem_of_In, in_concat. split.
  - intros (l & Hl & Hin). apply in_map_iff in Hl as (y' & <- & Hy').
    apply in_map_iff in Hin as (x' & [= -> ->] & Hx').
    apply list_elem_of_In, elem_of_seqZ in Hx', Hy'. lia.
  - intros [Hx Hy]. exists (map (fun x => (x, y)) (seqZ 0 w)). split.
    + apply in_map_iff. exists y. split; [done|]. apply list_elem_of_In, elem_of_seqZ. lia.
    + apply in_map_iff. exists x. split; [done|]. apply list_elem_of_In, elem_of_seqZ. lia.
Qed.

Lemma existsb_coordinates w h (black : Z -> Z -> bool) dx dy x y :
  existsb (fun c => black (fst c) (snd c) && ((dx + fst c =? x) && (dy + snd c =? y))) (coordinates w h)
  = (dx <=? x) && (x <? dx + w) && (dy <=? y) && (y <? dy + h) && black (x - dx) (y - dy).
Proof.
  apply eq_true_iff_eq. rewrite existsb_exists, !andb_true_iff, !Z.leb_le, !Z.ltb_lt. split.
  - intros ([a b] & Hin & Hb). apply list_elem_of_In, elem_of_coordinates in Hin. cbn in Hb. bool_hyps.
    replace (x - dx) with a by lia. replace (y - dy) with b by lia. split; [lia | done].
  - intros [Hr Hb]. exists (x - dx, y - dy). split; [apply list_elem_of_In, elem_of_coordinates; lia|].
    cbn. rewrite Hb. cbn. apply andb_true_iff. rewrite !Z.eqb_eq. lia.
Qed.

(** The loops that draw the [black] pixels of a [w] by [h] rectangle moved by
    [(dx, dy)]: what is black afterwards. *)
Lemma draw_at st h (black : Z -> Z -> bool) w' h' dx dy ps :
  Z.of_nat (length ps) = st * h -> 0 <= dx -> 0 <= dy -> dx + w' <= 8 * st -> dy + h' <= h ->
  let ps' := fold_left (fun ps '(x, y) => if black x y then set_pixel st ps (dx + x) (dy + y) else ps)
               (coordinates w' h') ps in
  length ps' = length ps
  /\ forall x y, on_raster st h x y ->
     pixel_at st ps' x y
     = ((dx <=? x) && (x <? dx + w') && (dy <=? y) && (y <? dy + h') && black (x - dx) (y - dy))
       || pixel_at st ps x y.
Proof.
  intros Hl Hx Hy Hw Hh ps'.
  assert (E : ps' = fold_left (fun ps c => if black (fst c) (snd c)
                                  then set_pixel st ps (dx + fst c) (dy + snd c) else ps)
                      (coordinates w' h') ps).
  { unfold ps'. clear ps' Hl. revert ps. induction (coordinates w' h') as [|[a b] cs IH]; [done|].
    intros l. cbn. apply IH. }
  rewrite E. clear E ps'. split.
  - clear Hl. revert ps. induction (coordinates w' h') as [|c cs IH]; intros ps; [done|].
    cbn. rewrite IH. destruct (black _ _); [apply length_set_pixel | done].
  - intros x y Hr.
    destruct (draw_spec st h (fun c => black (fst c) (snd c)) (fun c => (dx + fst c, dy + snd c))
                (coordinates w' h') ps x y Hl) as [_ E]; [|done|].
    + intros [a b] Hc%elem_of_coordinates. unfold on_raster. cbn. lia.
    + cbn [fst snd] in E. rewrite E. f_equal. apply existsb_coordinates.
Qed.

(** ** Lemmas: valid pages *)

Lemma ceil8_bounds n : n <= 8 * ceil8 n < n + 8.
Proof. unfold ceil8. Z.to_euclidean_division_equations. lia. Qed.

Lemma validatePixels_iff p :
  validatePixels p = Ok tt <->
  geometry p = Ok (Z.of_nat (length (pixels p)))
  /\ forall x y, on_raster (stride p) (heightDots p) x y ->
     pixel_at (stride p) (pixels p) x y = true ->
     x < widthDots p /\ left (requiredBounds p) <= x < right (requiredBounds p)
     /\ top (requiredBounds p) <= y < bottom (requiredBounds p).
Proof.
  assert (Hbits : forall x, 0 <= x -> Z.shiftr x 3 * 8 + x mod 8 = x /\ 0 <= Z.shiftr x 3).
  { intros x H. rewrite Z.shiftr_div_pow2 by lia. change (2 ^ 3) with 8.
    Z.to_euclidean_division_equations. lia. }
  split.
  - intros H. pose proof (validatePixels_geometry _ H) as Hg. split; [done|].
    unfold validatePixels in H. rewrite Hg in H. cbn [mbind result_bind] in H. rewrite Z.eqb_refl in H.
    cbn [negb] in H. destruct (forallb _ (upto (heightDots p))) eqn:E; [|done].
    intros x y [Hx Hy] Hp. rewrite forallb_forall in E.
    destruct (Hbits x ltac:(lia)) as [Hx8 Hx0]. pose proof (Z.mod_pos_bound x 8 ltac:(lia)).
    assert (Hin : forall a n, 0 <= a < n -> In a (upto n))
      by (intros; apply list_elem_of_In; unfold upto; apply elem_of_seqZ; lia).
    specialize (E y (Hin _ _ Hy)). rewrite forallb_forall in E.
    specialize (E (Z.shiftr x 3) (Hin (Z.shiftr x 3) (stride p) ltac:(lia))). rewrite forallb_forall in E.
    specialize (E (x mod 8) (Hin (x mod 8) 8 ltac:(lia))). unfold bit_ok in E. cbv zeta in E.
    unfold pixel_at in Hp. rewrite Hp, Hx8 in E. cbn [negb orb] in E. bool_hyps. lia.
  - intros [Hg Hin]. unfold validatePixels. rewrite Hg. cbn [mbind result_bind].
    rewrite Z.eqb_refl. cbn [negb].
    assert (forallb (fun y => forallb (fun byteX => forallb (bit_ok p y byteX) (upto 8))
                                (upto (stride p))) (upto (heightDots p)) = true) as ->; [|done].
    assert (Hr : forall a n, In a (upto n) -> 0 <= a < n).
    { intros a n Ha%list_elem_of_In. unfold upto in Ha. apply elem_of_seqZ in Ha. lia. }
    apply forallb_forall. intros y Hy%Hr. apply forallb_forall. intros bx Hbx%Hr.
    apply forallb_forall. intros k Hk%Hr. unfold bit_ok. cbv zeta.
    destruct (bit_set _ k) eqn:E; [|done]. cbn [negb orb].
    destruct (Hin (bx * 8 + k) y) as (? & ? & ?).
    + unfold on_raster. lia.
    + unfold pixel_at. rewrite Z.shiftr_div_pow2 by lia. change (2 ^ 3) with 8.
      replace ((bx * 8 + k) / 8) with bx by (Z.to_euclidean_division_equations; lia).
      replace ((bx * 8 + k) mod 8) with k by (Z.to_euclidean_division_equations; lia). exact E.
    + apply negb_true_iff. rewrite !orb_false_iff, !Z.leb_gt, !Z.ltb_ge. lia.
Qed.

(** A page with other bounds and pixels. *)
Definition with_contents (p : MonoRaster) (b : MonoRasterBounds) (ps : list Z) : MonoRaster :=
  {| widthMm := widthMm p; heightMm := heightMm p; dpi := dpi p; widthDots := widthDots p;
     heightDots := heightDots p; stride := stride p; requiredBounds := b; pixels := ps |}.

Lemma geometry_with_contents p b ps n :
  geometry p = Ok n ->
  0 <= left b <= right b -> right b <= widthDots p -> 0 <= top b <= bottom b ->
  bottom b <= heightDots p -> widthDots p <= MAX_SAFE_INTEGER -> heightDots p <= MAX_SAFE_INTEGER ->
  geometry (with_contents p b ps) = Ok n.
Proof.
  unfold geometry. cbv zeta. pass_guard E. intros H Hl Hr Ht Hb Hw Hh.
  rewrite !orb_false_iff in E. destruct E as [[[[[[[[[E1 E2] E3] E4] E5] _] _] _] _] _].
  cbn [with_contents widthMm heightMm dpi widthDots heightDots stride requiredBounds].
  rewrite E1, E2, E3, E4, E5. unfold nonneg_safe. cbn [orb].
  rewrite !(proj2 (Z.leb_le _ _)), !(proj2 (Z.ltb_ge _ _)) by lia. exact H.
Qed.

(** ** Lemmas: bitmaps *)

Lemma validateMonoBitmap_Ok b :
  validateMonoBitmap b = Ok tt ->
  1 <= bm_width b <= 3508 /\ 1 <= bm_height b <= 3508 /\ bm_stride b = ceil8 (bm_width b)
  /\ Z.of_nat (length (bm_pixels b)) = bm_stride b * bm_height b.
Proof. unfold validateMonoBitmap, throw. cbv zeta. pass_guard E1. pass_guard E2. intros _. bool_hyps. lia. Qed.

Lemma pasteMonoBitmap_Ok page b x y page' :
  pasteMonoBitmap page b x y = Ok page' ->
  validateMonoBitmap b = Ok tt /\ 0 <= x /\ 0 <= y
  /\ x + bm_width b <= widthDots page /\ y + bm_height b <= heightDots page
  /\ page' = with_contents page (grow_bounds (requiredBounds page) x y (x + bm_width b) (y + bm_height b))
               (paste_pixels (stride page) b x y (pixels page)).
Proof.
  unfold pasteMonoBitmap, throw. intros ([] & Hv & H)%bind_ok_inv. revert H. pass_guard E. intros <-%Ok_inj.
  bool_hyps. repeat (split; [done || lia|]). done.
Qed.

(** The pixel a page shows at [(x, y)]. *)
Definition page_pixel (p : MonoRaster) (x y : Z) : bool := pixel_at (stride p) (pixels p) x y.

(** A bitmap placed at [(x0, y0)] is black at [(x, y)]. *)
Definition item_black (x y : Z) (item : MonoBitmap * Z * Z) : bool :=
  let '(b, x0, y0) := item in
  (x0 <=? x) && (x <? x0 + bm_width b) && (y0 <=? y) && (y <? y0 + bm_height b)
  && bitmapPixel b (x - x0) (y - y0).

Lemma paste_valid page b x0 y0 page' :
  validatePixels page = Ok tt -> pasteMonoBitmap page b x0 y0 = Ok page' ->
  validatePixels page' = Ok tt
  /\ widthDots page' = widthDots page /\ heightDots page' = heightDots page
  /\ forall x y, 0 <= x < widthDots page -> 0 <= y < heightDots page ->
     page_pixel page' x y = item_black x y (b, x0, y0) || page_pixel page x y.
Proof.
  intros Hv (Hb & Hx & Hy & Hw & Hh & ->)%pasteMonoBitmap_Ok.
  apply validateMonoBitmap_Ok in Hb as (Hbw & Hbh & _ & _).
  apply validatePixels_iff in Hv as [Hg Hin].
  destruct (geometry_Ok _ _ Hg) as (_ & _ & _ & Hst & Hl & Ht & Hr & Hbt & Hn & Hmax).
  pose proof (ceil8_bounds (widthDots page)) as Hc. rewrite <- Hst in Hc.
  destruct (draw_at (stride page) (heightDots page) (bitmapPixel b) (bm_width b) (bm_height b) x0 y0
              (pixels page)) as [Hlen Hpix]; [lia..|]. fold (paste_pixels (stride page) b x0 y0 (pixels page)) in *.
  split; [|split; [done|]; split; [done|]].
  - unfold MONO_RASTER_MAX_BYTES in Hmax.
    assert (stride page <= 2097152 /\ heightDots page <= 2097152) as [Hs Hd] by nia.
    apply validatePixels_iff. cbn [with_contents stride heightDots widthDots pixels requiredBounds].
    rewrite Hlen. split.
    + unfold grow_bounds.
      destruct (right (requiredBounds page) =? 0); apply geometry_with_contents; try exact Hg;
        cbn [left top right bottom]; unfold MAX_SAFE_INTEGER; lia.
    + intros x y Hxy Hp. rewrite Hpix in Hp by done. unfold grow_bounds.
      apply orb_true_iff in Hp as [Hp|Hp].
      * bool_hyps. destruct (right (requiredBounds page) =? 0); cbn; lia.
      * specialize (Hin x y Hxy Hp). destruct (Z.eqb_spec (right (requiredBounds page)) 0); cbn; lia.
  - intros x y Hx' Hy'. unfold page_pixel. cbn [with_contents stride pixels]. apply Hpix.
    unfold on_raster. lia.
Qed.

Lemma pixel_blank st n x y : pixel_at st (replicate n 0) x y = false.
Proof.
  unfold pixel_at, pixel_byte. rewrite nth_lookup.
  destruct (replicate n 0 !! _) as [v|] eqn:E; [apply lookup_replicate in E as [-> _]|]; done.
Qed.

Lemma createSheetPage_valid w h page :
  createSheetPage w h = Ok page -> length_mm_ok w = true -> length_mm_ok h = true ->
  validatePixels page = Ok tt
  /\ forall x y, page_pixel page x y = false.
Proof.
  unfold createSheetPage, throw. destruct (mmToDots w 300) as [wd|] eqn:Ew; [|done].
  destruct (mmToDots h 300) as [hd|] eqn:Eh; [|done]. cbv zeta. pass_guard E.
  intros <-%Ok_inj Hw Hh. bool_hyps. pose proof (ceil8_bounds wd).
  assert (Hlen : Z.of_nat (length (replicate (Z.to_nat (ceil8 wd * hd)) 0)) = ceil8 wd * hd)
    by (rewrite length_replicate; nia).
  split; [|intros x y; apply pixel_blank].
  apply validatePixels_iff. cbn [stride heightDots widthDots pixels requiredBounds]. rewrite Hlen. split.
  - unfold geometry. cbn [dpi widthMm heightMm widthDots heightDots stride requiredBounds left top right bottom].
    rewrite Ew, Eh, Hw, Hh, !bool_decide_eq_true_2, Z.eqb_refl by done.
    rewrite !(proj2 (Z.ltb_ge _ _)) by lia.
    assert (Hs : safe_int (ceil8 wd * hd) = true) by (unfold safe_int, MAX_SAFE_INTEGER,
      MONO_RASTER_MAX_BYTES, MONO_RASTER_HEADER_BYTES in *; apply Z.leb_le; nia).
    by rewrite Hs, Z.eqb_refl.
  - intros x y _. by rewrite pixel_blank.
Qed.

(** A list of bitmaps pasted on a page, in order. *)
Fixpoint pasteAll (page : MonoRaster) (items : list (MonoBitmap * Z * Z)) : result MonoRaster :=
  match items with
  | [] => Ok page
  | (b, x, y) :: rest => page' ← pasteMonoBitmap page b x y; pasteAll page' rest
  end.

Lemma pasteAll_valid items : forall page page',
  validatePixels page = Ok tt -> pasteAll page items = Ok page' ->
  validatePixels page' = Ok tt
  /\ widthDots page' = widthDots page /\ heightDots page' = heightDots page
  /\ forall x y, 0 <= x < widthDots page -> 0 <= y < heightDots page ->
     page_pixel page' x y = existsb (item_black x y) items || page_pixel page x y.
Proof.
  induction items as [|[[b x0] y0] items IH]; cbn [pasteAll existsb]; intros page page' Hv H.
  - apply Ok_inj in H as <-. done.
  - apply bind_ok_inv in H as (page1 & Hp & H).
    destruct (paste_valid _ _ _ _ _ Hv Hp) as (Hv1 & Hw1 & Hh1 & Hpix1).
    destruct (IH _ _ Hv1 H) as (Hv2 & Hw2 & Hh2 & Hpix2). split; [done|].
    split; [congruence|]. split; [congruence|]. intros x y Hx Hy.
    rewrite Hpix2, Hpix1 by (rewrite ?Hw1, ?Hh1; done).
    rewrite orb_assoc. f_equal. apply orb_comm.
Qed.

Lemma draw_pixels w h black :
  1 <= w <= 3508 -> 1 <= h <= 3508 ->
  validateMonoBitmap (draw w h black) = Ok tt
  /\ forall x y, 0 <= x < w -> 0 <= y < h -> bitmapPixel (draw w h black) x y = black x y.
Proof.
  intros Hw Hh. pose proof (ceil8_bounds w) as Hc. set (n := replicate (Z.to_nat (ceil8 w * h)) 0).
  assert (Hn : Z.of_nat (length n) = ceil8 w * h) by (unfold n; rewrite length_replicate; nia).
  destruct (draw_at (ceil8 w) h black w h 0 0 n Hn) as [Hlen Hpix]; [lia..|].
  assert (E : bm_pixels (draw w h black)
              = fold_left (fun ps '(x, y) => if black x y then set_pixel (ceil8 w) ps (0 + x) (0 + y) else ps)
                  (coordinates w h) n) by done.
  rewrite <- E in Hlen, Hpix.
  assert (Hrow : forall x y, 0 <= x < 8 * ceil8 w -> 0 <= y < h ->
    pixel_at (ceil8 w) (bm_pixels (draw w h black)) x y = (x <? w) && black x y).
  { intros x y Hx Hy. rewrite Hpix by done. unfold n. rewrite pixel_blank, orb_false_r, !Z.sub_0_r.
    rewrite (proj2 (Z.leb_le 0 x)), (proj2 (Z.leb_le 0 y)), (proj2 (Z.ltb_lt y _)) by lia.
    rewrite Z.add_0_l. destruct (x <? w); done. }
  split.
  - unfold validateMonoBitmap. cbn [draw bm_width bm_height bm_stride].
    rewrite Hlen, Hn, Z.eqb_refl, (Z.eqb_refl (_ * _)), !(proj2 (Z.ltb_ge _ _))
      by (unfold MONO_RASTER_MAX_BYTES; nia). cbn [orb negb]. cbv zeta.
    destruct (existsb _ _) eqn:Ex; [|by rewrite andb_false_r]. exfalso.
    apply existsb_exists in Ex as (y & Hy%list_elem_of_In & Hne). unfold upto in Hy. apply elem_of_seqZ in Hy.
    apply negb_true_iff, Z.eqb_neq in Hne. apply Hne. clear Hne.
    set (u := (8 - w mod 8) mod 8).
    assert (Hu : 0 <= u < 8 /\ w + u = 8 * ceil8 w)
      by (unfold u, ceil8; Z.to_euclidean_division_equations; lia).
    rewrite Z.shiftl_mul_pow2, Z.mul_1_l by lia.
    replace (2 ^ u - 1) with (Z.ones u) by (rewrite Z.ones_equiv; lia).
    apply Z.bits_inj'. intros k Hk. rewrite Z.land_spec, Z.bits_0.
    destruct (Z.ltb_spec k u).
    + assert (Hbit := Hrow (8 * ceil8 w - 1 - k) y ltac:(lia) ltac:(lia)).
      rewrite (proj2 (Z.ltb_ge _ _)) in Hbit by lia. unfold pixel_at in Hbit.
      rewrite Z.shiftr_div_pow2 in Hbit by lia. change (2 ^ 3) with 8 in Hbit.
      replace ((8 * ceil8 w - 1 - k) / 8) with (ceil8 w - 1) in Hbit
        by (Z.to_euclidean_division_equations; lia).
      replace ((8 * ceil8 w - 1 - k) mod 8) with (7 - k) in Hbit
        by (Z.to_euclidean_division_equations; lia).
      rewrite bit_set_testbit in Hbit by lia. replace (7 - (7 - k)) with k in Hbit by lia.
      replace ((y + 1) * ceil8 w - 1) with (y * ceil8 w + (ceil8 w - 1)) by lia. by rewrite Hbit.
    + rewrite Z.ones_spec_high by lia. apply andb_false_r.
  - intros x y Hx Hy. change (bitmapPixel (draw w h black) x y)
      with (pixel_at (ceil8 w) (bm_pixels (draw w h black)) x y).
    rewrite Hrow by lia. by rewrite (proj2 (Z.ltb_lt x w)) by lia.
Qed.

Lemma hex_value_range c : is_hex_digit c = true -> 0 <= hex_value c < 16.
Proof.
  unfold is_hex_digit, hex_value. destruct (is_digit c) eqn:E.
  - intros _. unfold is_digit in E. bool_hyps. lia.
  - cbn [orb]. rewrite orb_true_iff, !andb_true_iff, !Z.leb_le.
    destruct (Z.leb_spec 97 c); lia.
Qed.

Lemma parse_hex_nth n : forall s,
  length s = (2 * n)%nat ->
  length (parse_hex_bytes s) = n
  /\ forall i, (i < n)%nat ->
     nth i (parse_hex_bytes s) 0 = 16 * hex_value (nth (2 * i) s 0) + hex_value (nth (2 * i + 1) s 0).
Proof.
  induction n as [|n IH]; intros [|a [|b s]] Hl; cbn [length] in Hl; try lia; [split; [done | lia]|].
  destruct (IH s ltac:(lia)) as [IHl IHn]. split; [cbn; by rewrite IHl|].
  intros [|i] Hi; [done|]. replace (2 * S i)%nat with (S (S (2 * i))) by lia.
  apply (IHn i). lia.
Qed.

(** The bits of a byte written as two hexadecimal digits. *)
Lemma hex_pair_bits hi lo k :
  0 <= hi < 16 -> 0 <= lo < 16 -> 0 <= k < 8 ->
  bit_set (16 * hi + lo) k = Z.testbit (if k <? 4 then hi else lo) (3 - k mod 4).
Proof.
  intros Hh Hl Hk.
  assert (H : forallb (fun hi => forallb (fun lo => forallb (fun k =>
      Bool.eqb (bit_set (16 * hi + lo) k) (Z.testbit (if k <? 4 then hi else lo) (3 - k mod 4)))
      (upto 8)) (upto 16)) (upto 16) = true) by (vm_compute; reflexivity).
  assert (Hin : forall a n, 0 <= a < n -> In a (upto n))
    by (intros; apply list_elem_of_In; unfold upto; apply elem_of_seqZ; lia).
  rewrite forallb_forall in H. specialize (H hi (Hin _ _ Hh)). rewrite forallb_forall in H.
  specialize (H lo (Hin _ _ Hl)). rewrite forallb_forall in H. specialize (H k (Hin _ _ Hk)).
  by apply Bool.eqb_prop in H.
Qed.

Lemma bitmapFromText_pixels raster out :
  bitmapFromText raster = Ok out ->
  validateMonoBitmap out = Ok tt
  /\ bm_width out = r_width raster /\ bm_height out = r_height raster
  /\ forall x y, 0 <= x < r_width raster -> 0 <= y < r_height raster ->
     bitmapPixel out x y
     = Z.testbit (hex_value (nth (Z.to_nat (y * (2 * bytesPerRow raster) + x / 4)) (hex raster) 0))
         (3 - x mod 4).
Proof.
  unfold bitmapFromText, throw. cbv zeta. pass_guard E. intros ([] & Hv & <-%Ok_inj)%bind_ok_inv.
  split; [exact Hv|]. split; [done|]. split; [done|]. intros x y Hx Hy. bool_hyps.
  match goal with H : forallb _ _ = true |- _ => rename H into Hhex end.
  match goal with H : Z.of_nat (length (hex raster)) = _ |- _ => rename H into Hlen end.
  apply validateMonoBitmap_Ok in Hv as (_ & _ & Hst & Hn). cbn [bm_stride bm_width bm_height bm_pixels] in *.
  pose proof (ceil8_bounds (r_width raster)) as Hc. rewrite <- Hst in Hc.
  set (st := bytesPerRow raster) in *.
  assert (Hi : 0 <= y * st + x / 8 < st * r_height raster)
    by (assert (0 <= x / 8 < st) by (Z.to_euclidean_division_equations; lia); nia).
  destruct (parse_hex_nth (Z.to_nat (st * r_height raster)) (hex raster) ltac:(lia)) as [_ Hnth].
  unfold bitmapPixel, pixel_byte. cbn [bm_pixels bm_stride]. rewrite Z.shiftr_div_pow2 by lia.
  change (2 ^ 3) with 8. rewrite Hnth by lia.
  assert (Hdig : forall j, (j < length (hex raster))%nat -> 0 <= hex_value (nth j (hex raster) 0) < 16).
  { intros j Hj. apply hex_value_range. rewrite forallb_forall in Hhex. apply Hhex, nth_In, Hj. }
  rewrite hex_pair_bits by (apply Hdig || apply Z.mod_pos_bound; lia).
  assert (Ex : x mod 8 < 4 /\ x / 4 = 2 * (x / 8) \/ 4 <= x mod 8 /\ x / 4 = 2 * (x / 8) + 1)
    by (Z.to_euclidean_division_equations; lia).
  replace ((x mod 8) mod 4) with (x mod 4) by (Z.to_euclidean_division_equations; lia).
  f_equal. destruct Ex as [[Hk ->]|[Hk ->]].
  - rewrite (proj2 (Z.ltb_lt _ _)) by lia. do 2 f_equal. lia.
  - rewrite (proj2 (Z.ltb_ge _ _)) by lia. do 2 f_equal. lia.
Qed.

(** ** Theorems *)

Lemma decode_encode bytes p :
  forallb is_byte bytes = true -> decodeMonoRaster bytes = Ok p -> encodeMonoRaster p = Ok bytes.
Proof.
  intros Hb (-> & Hm & Hz & Hl & Hg & Hs & Hv)%decode_Ok.
  rewrite encode_bytes by done. f_equal.
  pose proof (geometry_Ok _ _ Hg) as (_ & Hf1 & Hf2 & _).
  assert (E : Z.of_nat (length (pixels (read_page bytes))) = getUint32 40 bytes).
  { cbn [read_page pixels]. rewrite length_drop. lia. }
  rewrite E, header_read_page by (done || lia). apply take_drop.
Qed.

Lemma encode_decode bytes p :
  double_ok (widthMm p) = true -> double_ok (heightMm p) = true ->
  0 < widthDots p -> 0 < heightDots p ->
  encodeMonoRaster p = Ok bytes -> decodeMonoRaster bytes = Ok p.
Proof.
  intros Hw Hh Hwd Hhd He.
  assert (Hv : validatePixels p = Ok tt).
  { unfold encodeMonoRaster in He. by apply bind_ok_inv in He as ([] & ? & _). }
  rewrite encode_bytes in He by done. apply Ok_inj in He as <-.
  pose proof (validatePixels_geometry _ Hv) as Hg.
  destruct (geometry_Ok _ _ Hg) as (_ & _ & _ & Hst & _ & _ & _ & _ & Hn & Hmax).
  pose proof (ceil8_bounds (widthDots p)) as Hc. rewrite <- Hst in Hc.
  unfold MONO_RASTER_MAX_BYTES in Hmax.
  destruct (read_page_header p (pixels p) Hw Hh Hv) as [E E40]; [unfold u32; nia..|].
  assert (Ep : p = read_page (header p (Z.of_nat (length (pixels p))) ++ pixels p))
    by (rewrite E; by destruct p).
  apply decode_Ok. split; [exact Ep|]. split; [reflexivity|]. split; [reflexivity|].
  rewrite E40, length_app. change (length (header p _)) with 64%nat.
  unfold MONO_RASTER_MAX_BYTES. repeat (split; [lia || done|]). exact Hv.
Qed.

(** C40: the artifact codec of sheets ([encodeMonoRaster], [decodeMonoRaster]).
    A page is encoded exactly when [validatePixels] accepts it, and, for a page
    with a width and a height, encoding it to some bytes and decoding these
    bytes to it are the same thing: what is written is read back identically
    (header, bounds, doubles and pixels), every artifact that is accepted is
    the one and only encoding of its page, and so two different pages never
    share an artifact. *)
Theorem encodeMonoRaster_roundtrip (p : MonoRaster)
    (Hw : double_ok (widthMm p) = true) (Hh : double_ok (heightMm p) = true)
    (Hwd : 0 < widthDots p) (Hhd : 0 < heightDots p) :
  ((exists bytes, encodeMonoRaster p = Ok bytes) <-> validatePixels p = Ok tt)
  /\ forall bytes, forallb is_byte bytes = true ->
     encodeMonoRaster p = Ok bytes <-> decodeMonoRaster bytes = Ok p.
Proof.
  split.
  - split.
    + intros [bytes He]. unfold encodeMonoRaster in He. by apply bind_ok_inv in He as ([] & ? & _).
    + intros Hv. eexists. by apply encode_bytes.
  - intros bytes Hb. split; [by apply encode_decode | by apply decode_encode].
Qed.

(** [pasteMonoBitmap] on a new sheet.  Whatever bitmaps are pasted on a
    sheet of 10 to 300 mm, and in whatever order, the sheet that results is one
    that [encodeMonoRaster] accepts (the required bounds cover every black
    pixel and stay on the sheet, the padding bits of the rows stay white), its
    size is the new sheet's, and a pixel is black exactly when some of the
    bitmaps has a black pixel there: nothing is erased, moved or wrapped around
    to another row. *)
Theorem pasteMonoBitmap_composes w h (page page' : MonoRaster) (items : list (MonoBitmap * Z * Z))
    (Hw : length_mm_ok w = true) (Hh : length_mm_ok h = true)
    (Hpage : createSheetPage w h = Ok page) (Hpaste : pasteAll page items = Ok page') :
  (exists bytes, encodeMonoRaster page' = Ok bytes)
  /\ widthDots page' = widthDots page /\ heightDots page' = heightDots page
  /\ forall x y, 0 <= x < widthDots page -> 0 <= y < heightDots page ->
     page_pixel page' x y = existsb (item_black x y) items.
Proof.
  destruct (createSheetPage_valid _ _ _ Hpage Hw Hh) as [Hv Hblank].
  destruct (pasteAll_valid _ _ _ Hv Hpaste) as (Hv' & Hwd & Hhd & Hpix).
  split; [eexists; by apply encode_bytes|]. split; [done|]. split; [done|].
  intros x y Hx Hy. by rewrite Hpix, Hblank, orb_false_r.
Qed.

(** the bitmaps that are pasted ([bitmapFromText], [scaleMonoBitmap],
    [rectangleBitmap]).  Each returns a valid bitmap of the size asked for.  A
    text's pixel is the bit of the hexadecimal digit that stands for it in the
    rasterizer's answer, in upper or lower case; a scaled bitmap's pixel is the
    source's at the scaled coordinates rounded down, which lie in the source;
    and a rectangle's is black when it is filled or within the thickness of one
    of the four edges. *)
Theorem drawn_bitmaps (w h : Z) (out : MonoBitmap) :
  (forall raster, bitmapFromText raster = Ok out ->
     validateMonoBitmap out = Ok tt
     /\ bm_width out = r_width raster /\ bm_height out = r_height raster
     /\ forall x y, 0 <= x < r_width raster -> 0 <= y < r_height raster ->
        bitmapPixel out x y
        = Z.testbit (hex_value (nth (Z.to_nat (y * (2 * bytesPerRow raster) + x / 4)) (hex raster) 0))
            (3 - x mod 4))
  /\ (forall source, scaleMonoBitmap source w h = Ok out ->
     validateMonoBitmap out = Ok tt /\ bm_width out = w /\ bm_height out = h
     /\ forall x y, 0 <= x < w -> 0 <= y < h ->
        bitmapPixel out x y = bitmapPixel source (x * bm_width source / w) (y * bm_height source / h)
        /\ 0 <= x * bm_width source / w < bm_width source
        /\ 0 <= y * bm_height source / h < bm_height source)
  /\ (forall thickness filled, rectangleBitmap w h thickness filled = Ok out ->
     validateMonoBitmap out = Ok tt /\ bm_width out = w /\ bm_height out = h
     /\ forall x y, 0 <= x < w -> 0 <= y < h ->
        bitmapPixel out x y
        = filled || (Z.min x (w - 1 - x) <? thickness) || (Z.min y (h - 1 - y) <? thickness)).
Proof.
  split; [intros raster; apply bitmapFromText_pixels|]. split.
  - intros source. unfold scaleMonoBitmap, throw. intros ([] & Hv & H)%bind_ok_inv. revert H.
    pass_guard E. intros <-%Ok_inj. apply validateMonoBitmap_Ok in Hv as (Hsw & Hsh & _). bool_hyps.
    destruct (draw_pixels w h (fun x y => bitmapPixel source (x * bm_width source / w)
                                            (y * bm_height source / h))) as [Hd Hp]; [lia..|].
    split; [done|]. split; [done|]. split; [done|]. intros x y Hx Hy. split; [by apply Hp|].
    split; (split; [apply Z.div_pos; nia | apply Z.div_lt_upper_bound; nia]).
  - intros thickness filled. unfold rectangleBitmap. cbv zeta. pass_guard E.
    intros ([] & Hv & <-%Ok_inj)%bind_ok_inv. apply validateMonoBitmap_Ok in Hv as (Hsw & Hsh & _).
    cbn [bm_width bm_height] in Hsw, Hsh.
    edestruct (draw_pixels w h) as [Hd Hp]; [lia..|].
    split; [exact Hd|]. split; [done|]. split; [done|]. intros x y Hx Hy. rewrite Hp by done.
    destruct filled; [done|]. apply eq_true_iff_eq. cbn [orb].
    rewrite !orb_true_iff, !Z.leb_le, !Z.ltb_lt. lia.
Qed.

(** The value of a result, or a default. *)
Definition ok_or {A} (d : A) (r : result A) : A := match r with Ok a => a | Throw _ => d end.

Definition no_page : MonoRaster :=
  {| widthMm := float_of_Z 0; heightMm := float_of_Z 0; dpi := 0; widthDots := 0; heightDots := 0;
     stride := 0; requiredBounds := {| left := 0; top := 0; right := 0; bottom := 0 |}; pixels := [] |}.
Definition no_bitmap : MonoBitmap := {| bm_width := 0; bm_height := 0; bm_stride := 0; bm_pixels := [] |}.

(** A sheet of 10 by 12 mm, a frame of 20 by 10 dots, and the text raster of
    two rows of three dots. *)
Definition sample_sheet : MonoRaster := ok_or no_page (createSheetPage (float_of_Z 10) (float_of_Z 12)).
Definition sample_frame : MonoBitmap := ok_or no_bitmap (rectangleBitmap 20 10 2 false).
Definition sample_text : MonoBitmap :=
  ok_or no_bitmap (bitmapFromText {| hex := js "A040"; totalBytes := 2; bytesPerRow := 1;
                                     r_width := 3; r_height := 2 |}).
Definition sample_items : list (MonoBitmap * Z * Z) := [(sample_frame, 5, 7); (sample_text, 9, 10)].
Definition sample_page : MonoRaster := ok_or no_page (pasteAll sample_sheet sample_items).

Example sample_pixels :
  map (fun y => map (fun x => page_pixel sample_page x y) (seqZ 5 8)) (seqZ 7 5)
  = [ [true; true; true; true; true; true; true; true];
      [true; true; true; true; true; true; true; true];
      [true; true; false; false; false; false; false; false];
      [true; true; false; false; true; false; true; false];
      [true; true; false; false; false; true; false; false] ].
Proof. vm_compute. reflexivity. Qed.

Definition sample_bytes : list Z := ok_or [] (encodeMonoRaster sample_page).

Lemma encodeMonoRaster_roundtrip_witness :
  length sample_bytes = 2194%nat /\ decodeMonoRaster sample_bytes = Ok sample_page.
Proof.
  assert (H1 : double_ok (widthMm sample_page) = true) by (vm_compute; reflexivity).
  assert (H2 : double_ok (heightMm sample_page) = true) by (vm_compute; reflexivity).
  assert (H3 : 0 < widthDots sample_page) by (vm_compute; reflexivity).
  assert (H4 : 0 < heightDots sample_page) by (vm_compute; reflexivity).
  assert (Hb : forallb is_byte sample_bytes = true) by (vm_compute; reflexivity).
  assert (He : encodeMonoRaster sample_page = Ok sample_bytes) by (vm_compute; reflexivity).
  split; [vm_compute; reflexivity|].
  exact (proj1 (proj2 (encodeMonoRaster_roundtrip sample_page H1 H2 H3 H4) sample_bytes Hb) He).
Defined.

Lemma pasteMonoBitmap_composes_witness :
  (exists bytes, encodeMonoRaster sample_page = Ok bytes)
  /\ widthDots sample_page = 118 /\ heightDots sample_page = 142.
Proof.
  assert (Hw : length_mm_ok (float_of_Z 10) = true) by (vm_compute; reflexivity).
  assert (Hh : length_mm_ok (float_of_Z 12) = true) by (vm_compute; reflexivity).
  assert (Hs : createSheetPage (float_of_Z 10) (float_of_Z 12) = Ok sample_sheet) by (vm_compute; reflexivity).
  assert (Hp : pasteAll sample_sheet sample_items = Ok sample_page) by (vm_compute; reflexivity).
  destruct (pasteMonoBitmap_composes _ _ _ _ _ Hw Hh Hs Hp) as (He & Hwd & Hhd & _).
  split; [exact He|]. split; vm_compute; reflexivity.
Defined.

Lemma drawn_bitmaps_witness :
  validateMonoBitmap sample_frame = Ok tt
  /\ bitmapPixel sample_frame 1 1 = true /\ bitmapPixel sample_frame 2 2 = false.
Proof.
  assert (Hr : rectangleBitmap 20 10 2 false = Ok sample_frame) by (vm_compute; reflexivity).
  destruct (drawn_bitmaps 20 10 sample_frame) as (_ & _ & H).
  destruct (H 2 false Hr) as (Hv & _ & _ & Hp).
  split; [exact Hv|]. split; rewrite Hp by lia; reflexivity.
Defined.
