(* ===== verification/Wrap.v ===== *)
(** * Line breaking of label text

    [packages/domain/src/labels/wrap.ts]: the greedy word wrap of label texts,
    the truncation with an ellipsis, the strict variant of sheets and the
    estimate of a text's width.  Texts are lists of UTF-16 code units.  The
    measure of a text is a parameter, as in the source: a canvas in the
    rasterizers, [estimatedTextWidthMm] elsewhere; widths are doubles, and
    [maxLines] is an integer (the element schema of labels/model.ts). *)

From stdpp Require Import base list strings gmap.
From Stdlib Require Import ZArith Lia.
From Stdlib Require Import SpecFloat.
From S2P Require Import Prelude Doubles.

(** ** Operations *)

Definition WRAP_ELLIPSIS : jsstr := [0x2026].

(** The doubles 0.55 and 1.5. *)
Definition AVG_CHAR_WIDTH_EM : spec_float := S754_finite false 4953959590107546 (-53).
Definition LINE_HEIGHT_EM : spec_float := S754_finite false 6755399441055744 (-52).
Definition POINTS_PER_INCH : Z := 72.

Definition ptToMm (pt : spec_float) : spec_float := fmul (fdiv pt (float_of_Z POINTS_PER_INCH)) MM_PER_INCH.

Definition estimatedTextWidthMm (text : jsstr) (fontSizePt : spec_float) : spec_float :=
  fmul (fmul (float_of_Z (Z.max (Z.of_nat (length text)) 1)) (ptToMm fontSizePt)) AVG_CHAR_WIDTH_EM.

(** [s.split(p)] on the single characters that satisfy [p]. *)
Fixpoint split_by (p : Z -> bool) (s : jsstr) : list jsstr :=
  match s with
  | [] => [[]]
  | a :: s' =>
      if p a then [] :: split_by p s'
      else match split_by p s' with [] => [[a]] | w :: ws => (a :: w) :: ws end
  end.

(** [text.split(/\s+/).filter((w) => w.length > 0)]: the empty pieces between
    the characters of one run are filtered out with the others. *)
Definition words (text : jsstr) : list jsstr :=
  List.filter (fun w => negb (bool_decide (w = []))) (split_by is_space text).

(** [for (const ch of word)]: the code points, a lone surrogate by itself. *)
Fixpoint code_points (s : jsstr) : list jsstr :=
  match s with
  | [] => []
  | a :: s' =>
      match s' with
      | b :: s'' =>
          if is_high_surrogate a && is_low_surrogate b then [a; b] :: code_points s''
          else [a] :: code_points s'
      | [] => [[a]]
      end
  end.

(** [text.split(/\r?\n/)]. *)
Fixpoint split_lines (s : jsstr) : list jsstr :=
  match s with
  | [] => [[]]
  | a :: s' =>
      match s' with
      | b :: s'' =>
          if (a =? 13) && (b =? 10) then [] :: split_lines s''
          else if a =? 10 then [] :: split_lines s'
          else match split_lines s' with [] => [[a]] | l :: ls => (a :: l) :: ls end
      | [] => if a =? 10 then [[]; []] else [[a]]
      end
  end.

Section Wrap.
Context (measure : jsstr -> spec_float) (maxWidth : spec_float).

(** [measure(s) <= maxWidth] and [measure(s) > maxWidth]. *)
Definition fits (s : jsstr) : bool := SFleb (measure s) maxWidth.
Definition too_wide (s : jsstr) : bool := SFltb maxWidth (measure s).

(** The loop of [clipWithEllipsis]; [hi - lo] falls at every turn. *)
Fixpoint clip_search (fuel : nat) (text : jsstr) (lo hi : nat) : nat :=
  match fuel with
  | O => lo
  | S fuel' =>
      if (lo <? hi)%nat then
        let mid := ((lo + hi + 1) / 2)%nat in
        if fits (take mid text ++ WRAP_ELLIPSIS) then clip_search fuel' text mid hi
        else clip_search fuel' text lo (mid - 1)
      else lo
  end.

Definition clipWithEllipsis (text : jsstr) : jsstr :=
  if too_wide WRAP_ELLIPSIS then []
  else take (clip_search (length text) text 0 (length text)) text ++ WRAP_ELLIPSIS.

Definition break_step (st : list jsstr * jsstr) (ch : jsstr) : list jsstr * jsstr :=
  let '(chunks, current) := st in
  let next := current ++ ch in
  if negb (bool_decide (current = [])) && too_wide next then (chunks ++ [current], ch)
  else (chunks, next).

Definition breakLongWord (word : jsstr) : list jsstr :=
  let '(chunks, current) := fold_left break_step (code_points word) ([], []) in
  let chunks := if bool_decide (current = []) then chunks else chunks ++ [current] in
  if (0 <? length chunks)%nat then chunks else [word].

(** One turn of the loop over the words: the lines and the line in progress. *)
Definition wrap_step (st : list jsstr * jsstr) (word : jsstr) : list jsstr * jsstr :=
  let '(lines, current) := st in
  let candidate := if bool_decide (current = []) then word else current ++ [32] ++ word in
  if fits candidate then (lines, candidate)
  else
    let lines := if bool_decide (current = []) then lines else lines ++ [current] in
    if fits word then (lines, word)
    else
      let chunks := breakLongWord word in
      (lines ++ take (length chunks - 1) chunks, default [] (last chunks)).

(** [!Number.isFinite(maxWidth) || maxWidth <= 0]. *)
Definition width_invalid : bool := negb (finite maxWidth) || SFleb maxWidth (float_of_Z 0).

Definition wrapTextToWidth (text : jsstr) (maxLines : Z) : list jsstr :=
  if width_invalid then [text]
  else
    let limit := Z.to_nat (Z.max 1 maxLines) in
    if bool_decide (words text = []) then [text]
    else
      let '(lines, current) := fold_left wrap_step (words text) ([], []) in
      let lines := if bool_decide (current = []) then lines else lines ++ [current] in
      if (length lines =? 0)%nat then [[]]
      else if (length lines <=? limit)%nat then lines
      else
        let kept := take limit lines in
        <[(limit - 1)%nat := clipWithEllipsis (default [] (kept !! (limit - 1)%nat))]> kept.

Definition wrapTextToWidthStrict (text : jsstr) (maxLines : Z) : result (list jsstr) :=
  if width_invalid || negb (safe_int maxLines) || (maxLines <? 1) then throw "LABEL_TEXT_OVERFLOW"
  else
    let lines := concat (map (fun line => wrapTextToWidth line MAX_SAFE_INTEGER) (split_lines text)) in
    if (maxLines <? Z.of_nat (length lines)) || existsb too_wide lines
    then throw "LABEL_TEXT_OVERFLOW" else Ok lines.
End Wrap.

Definition estimatedLineCount (text : jsstr) (fontSizePt : spec_float) (maxWidthMm : option spec_float)
    (maxLines : option Z) : nat :=
  let limit := Z.max 1 (default 1 maxLines) in
  match maxWidthMm with
  | None => 1%nat
  | Some w =>
      if negb (SFltb (float_of_Z 0) w) then 1%nat
      else length (wrapTextToWidth (fun s => estimatedTextWidthMm s fontSizePt) w text limit)
  end.

(** ** Lemmas: code points and words *)

(** The text without its white space. *)
Definition ink (s : jsstr) : jsstr := List.filter (fun c => negb (is_space c)) s.

Lemma ink_app s t : ink (s ++ t) = ink s ++ ink t.
Proof. apply List.filter_app. Qed.

(** One code point. *)
Definition single (s : jsstr) : Prop :=
  (exists a, s = [a]) \/ exists a b, s = [a; b] /\ is_high_surrogate a = true /\ is_low_surrogate b = true.

Lemma single_nonempty s : single s -> s <> [].
Proof. by intros [[a ->]|(a & b & -> & _)]. Qed.

(** Induction on a text by its code points. *)
Lemma code_points_ind (P : jsstr -> Prop) :
  P [] -> (forall a, P [a]) ->
  (forall a b s, is_high_surrogate a && is_low_surrogate b = true -> P s -> P (a :: b :: s)) ->
  (forall a b s, is_high_surrogate a && is_low_surrogate b = false -> P (b :: s) -> P (a :: b :: s)) ->
  forall s, P s.
Proof.
  intros H0 H1 Hp Hs s. enough (P s /\ forall a, P (a :: s)) by tauto.
  induction s as [|b s [IH IHc]]; [done|]. split; [apply IHc|]. intros a.
  destruct (is_high_surrogate a && is_low_surrogate b) eqn:E; [by apply Hp | by apply Hs].
Qed.

Lemma code_points_spec s :
  concat (code_points s) = s /\ Forall single (code_points s).
Proof.
  induction s as [|a|a b s E [IHc IHf]|a b s E [IHc IHf]] using code_points_ind; [done| | |].
  - split; [done|]. constructor; [left; by eexists | done].
  - cbn [code_points]. rewrite E. cbn [concat]. rewrite IHc. split; [done|].
    constructor; [|done]. right. apply andb_true_iff in E as [? ?]. by exists a, b.
  - cbn [code_points] in *. rewrite E. cbn [concat]. rewrite IHc. split; [done|].
    constructor; [left; by eexists | done].
Qed.

Lemma split_by_spec p s :
  concat (split_by p s) = List.filter (fun c => negb (p c)) s
  /\ Forall (fun w : jsstr => forallb (fun c => negb (p c)) w = true) (split_by p s).
Proof.
  induction s as [|a s [IHc IHf]]; cbn [split_by List.filter]; [by repeat constructor|].
  destruct (p a) eqn:E; cbn [negb]; [split; [done|]; by constructor|].
  destruct (split_by p s) as [|w ws]; cbn [concat app] in *.
  - split; [by rewrite <- IHc|]. by repeat constructor; cbn; rewrite E.
  - split; [by rewrite <- IHc|]. apply Forall_cons_1 in IHf as [Hw Hws].
    constructor; [|done]. cbn. by rewrite E.
Qed.

Lemma words_spec text :
  concat (words text) = ink text /\ Forall (fun w => w <> [] /\ ink w = w) (words text).
Proof.
  unfold words, ink. destruct (split_by_spec is_space text) as [<- Hf].
  induction (split_by is_space text) as [|w ws IH]; cbn [List.filter concat]; [done|].
  apply Forall_cons_1 in Hf as [Hw Hf]. destruct (IH Hf) as [IHc IHf].
  destruct (bool_decide_reflect (w = [])) as [->|Hne]; cbn [negb concat]; [done|].
  rewrite IHc. split; [done|]. constructor; [|done]. split; [done|].
  clear -Hw. induction w as [|a w IH]; [done|]. cbn in *. apply andb_true_iff in Hw as [Ha Hw].
  rewrite Ha. f_equal. by apply IH.
Qed.

Lemma split_lines_cons a b s :
  split_lines (a :: b :: s)
  = if (a =? 13) && (b =? 10) then [] :: split_lines s
    else if a =? 10 then [] :: split_lines (b :: s)
    else match split_lines (b :: s) with [] => [[a]] | l :: ls => (a :: l) :: ls end.
Proof. reflexivity. Qed.

Lemma split_lines_spec s : ink (concat (split_lines s)) = ink s.
Proof.
  assert (H10 : forall t, ink (10 :: t) = ink t) by done.
  assert (H13 : forall t, ink (13 :: t) = ink t) by done.
  assert (Hcons : forall a t l ls, ink (concat (l :: ls)) = ink t -> ink (concat ((a :: l) :: ls)) = ink (a :: t)).
  { intros a t l ls E. cbn [concat app] in *. unfold ink in *. cbn [List.filter].
    destruct (negb (is_space a)); by rewrite E. }
  enough (ink (concat (split_lines s)) = ink s
          /\ forall a, ink (concat (split_lines (a :: s))) = ink (a :: s)) by tauto.
  induction s as [|b s [IH IHc]].
  - split; [done|]. intros a. cbn [split_lines]. destruct (Z.eqb_spec a 10) as [->|]; [done|].
    cbn [concat app]. done.
  - split; [apply IHc|]. intros a. specialize (IHc b). rewrite split_lines_cons.
    destruct ((a =? 13) && (b =? 10)) eqn:E1; [|destruct (Z.eqb_spec a 10) as [->|Hne]].
    + bool_hyps. subst. cbn [concat app]. by rewrite H13, H10.
    + cbn [concat app]. by rewrite H10.
    + destruct (split_lines (b :: s)) as [|l ls] eqn:El; [|by apply Hcons].
      apply (Hcons a (b :: s) [] []). exact IHc.
Qed.

Lemma split_lines_length s : Forall (fun l => (length l <= length s)%nat) (split_lines s).
Proof.
  assert (Hm : forall (a : Z) s ls, Forall (fun l : jsstr => (length l <= length s)%nat) ls ->
    Forall (fun l : jsstr => (length l <= length (a :: s))%nat) ls)
    by (intros a t ls Hf; eapply Forall_impl; [exact Hf|]; cbn; lia).
  enough (Forall (fun l => (length l <= length s)%nat) (split_lines s)
          /\ forall a, Forall (fun l => (length l <= length (a :: s))%nat) (split_lines (a :: s))) by tauto.
  induction s as [|b s [IH IHc]].
  - split; [by repeat constructor|]. intros a. cbn [split_lines].
    destruct (a =? 10); repeat constructor; cbn; lia.
  - split; [apply IHc|]. intros a. specialize (IHc b). rewrite split_lines_cons.
    destruct ((a =? 13) && (b =? 10)); [|destruct (a =? 10)].
    + constructor; [cbn; lia|]. by do 2 apply Hm.
    + constructor; [cbn; lia|]. by apply Hm.
    + destruct (split_lines (b :: s)) as [|l ls]; [constructor; [cbn; lia | done]|].
      apply Forall_cons_1 in IHc as [Hl Hls]. constructor; [cbn in *; lia|]. by apply Hm.
Qed.

Lemma ink_id s : ink s = s <-> Forall (fun c => is_space c = false) s.
Proof.
  split.
  - intros E. apply Forall_forall. intros c Hc. rewrite <- E in Hc. unfold ink in Hc.
    apply list_elem_of_In, filter_In in Hc as [_ Hc]. by apply negb_true_iff.
  - induction 1 as [|c s Hc _ IH]; [done|]. unfold ink in *. cbn. rewrite Hc. cbn. by rewrite IH.
Qed.

Lemma ink_join s w : ink (s ++ [32] ++ w) = ink s ++ ink w.
Proof. by rewrite !ink_app. Qed.

(** ** Lemmas: the wrap *)

Section Lemmas.
Context (measure : jsstr -> spec_float) (maxWidth : spec_float).
(** The measure and the width are comparable: neither is a NaN. *)
Hypothesis comparable : forall s, too_wide measure maxWidth s = negb (fits measure maxWidth s).

#[local] Abbreviation fits := (fits measure maxWidth).
#[local] Abbreviation too_wide := (too_wide measure maxWidth).

(** A line as it is built: it shows something, and it fits or is one code
    point that does not fit by itself. *)
Definition line_ok (l : jsstr) : Prop := ink l <> [] /\ (fits l = true \/ single l).

Lemma line_ok_nonempty l : line_ok l -> l <> [].
Proof. by intros [Hi _] ->. Qed.

(** The line in progress. *)
Definition progress_ok (l : jsstr) : Prop := l = [] \/ line_ok l.

Lemma progress_case l (lines : list jsstr) :
  progress_ok l -> Forall line_ok lines ->
  let lines' := if bool_decide (l = []) then lines else lines ++ [l] in
  Forall line_ok lines' /\ concat lines' = concat lines ++ l.
Proof.
  intros Hl Hf. destruct (bool_decide_reflect (l = [])) as [->|Hne]; cbn zeta.
  - by rewrite app_nil_r.
  - destruct Hl as [|Hl]; [done|]. rewrite concat_app. cbn. rewrite app_nil_r.
    split; [apply Forall_app; split; [done | by apply Forall_singleton] | done].
Qed.

Lemma break_spec cps : forall chunks current,
  Forall single cps -> Forall (fun c => is_space c = false) (concat cps) ->
  Forall line_ok chunks -> progress_ok current -> ink current = current ->
  let '(chunks', current') := fold_left (break_step measure maxWidth) cps (chunks, current) in
  Forall line_ok chunks' /\ progress_ok current'
  /\ concat chunks' ++ current' = concat chunks ++ current ++ concat cps
  /\ (length cps > 0 -> current' <> [])%nat.
Proof.
  induction cps as [|ch cps IH]; cbn [fold_left]; intros chunks current Hs Hb Hc Hp Hi.
  - rewrite app_nil_r. repeat (split; [done|]). cbn. lia.
  - apply Forall_cons_1 in Hs as [Hch Hs]. cbn [concat] in Hb. apply Forall_app in Hb as [Hbch Hb].
    apply ink_id in Hbch. pose proof (single_nonempty _ Hch) as Hne.
    assert (Hnext : ink (current ++ ch) = current ++ ch) by (by rewrite ink_app, Hi, Hbch).
    cbn [break_step]. rewrite comparable.
    destruct (bool_decide_reflect (current = [])) as [->|Hcur]; cbn [negb andb].
    + specialize (IH chunks ch Hs Hb Hc). cbn [app].
      destruct (fold_left _ cps _) as [chunks' current'] eqn:E.
      destruct IH as (H1 & H2 & H3 & H4); [right; split; [by rewrite Hbch | by right] | done|].
      split; [done|]. split; [done|]. split; [by rewrite H3|]. intros _.
      destruct cps as [|c cps]; [|apply H4; cbn; lia]. cbn in E. by injection E as _ <-.
    + destruct (fits (current ++ ch)) eqn:Ef; cbn [negb].
      * specialize (IH chunks (current ++ ch) Hs Hb Hc).
        destruct (fold_left _ cps _) as [chunks' current'] eqn:E.
        destruct IH as (H1 & H2 & H3 & H4).
        { right. split; [rewrite Hnext; by destruct current | by left]. }
        { done. }
        split; [done|]. split; [done|]. split; [rewrite H3; by rewrite <- app_assoc|]. intros _.
        destruct cps as [|c cps]; [|apply H4; cbn; lia]. cbn in E. injection E as _ <-.
        by destruct current.
      * specialize (IH (chunks ++ [current]) ch Hs Hb).
        destruct (fold_left _ cps _) as [chunks' current'] eqn:E.
        destruct IH as (H1 & H2 & H3 & H4).
        { apply Forall_app. split; [done|]. apply Forall_singleton. by destruct Hp. }
        { right. split; [by rewrite Hbch | by right]. }
        { done. }
        split; [done|]. split; [done|]. split.
        { rewrite H3, concat_app. cbn. by rewrite app_nil_r, <- !app_assoc. }
        intros _. destruct cps as [|c cps]; [|apply H4; cbn; lia]. cbn in E. by injection E as _ <-.
Qed.

Lemma breakLongWord_spec word :
  word <> [] -> ink word = word ->
  Forall line_ok (breakLongWord measure maxWidth word)
  /\ concat (breakLongWord measure maxWidth word) = word
  /\ breakLongWord measure maxWidth word <> [].
Proof.
  intros Hne Hi. destruct (code_points_spec word) as [Hc Hs]. unfold breakLongWord.
  pose proof (break_spec (code_points word) [] []) as H.
  destruct (fold_left _ (code_points word) _) as [chunks current].
  destruct H as (H1 & H2 & H3 & H4); [done | by apply ink_id; rewrite Hc | done | by left | done|].
  destruct (progress_case current chunks H2 H1) as [H5 H6]. rewrite Hc in H3. cbn [concat app] in H3.
  rewrite H3 in H6. set (cs := if bool_decide _ then _ else _) in *.
  destruct cs as [|c cs]; [by cbn in H6; subst|]. by cbn [length Nat.ltb Nat.leb].
Qed.

Lemma take_last (l : list jsstr) :
  l <> [] -> take (length l - 1) l ++ [default [] (last l)] = l.
Proof.
  intros Hne. destruct l as [|x l _] using rev_ind; [done|].
  rewrite last_snoc, length_app. cbn [length default from_option id].
  replace (length l + 1 - 1)%nat with (length l) by lia. by rewrite take_app_length.
Qed.

Lemma wrap_step_spec lines current word :
  word <> [] -> ink word = word -> Forall line_ok lines -> progress_ok current ->
  let '(lines', current') := wrap_step measure maxWidth (lines, current) word in
  Forall line_ok lines' /\ line_ok current'
  /\ ink (concat lines' ++ current') = ink (concat lines ++ current) ++ word.
Proof.
  intros Hne Hi Hl Hc. destruct (progress_case current lines Hc Hl) as [Hl' Hcc].
  cbn [wrap_step]. set (candidate := if bool_decide (current = []) then word else _).
  assert (Hcand : ink candidate = ink current ++ word).
  { unfold candidate. destruct (bool_decide_reflect (current = [])) as [->|]; [done|].
    by rewrite ink_join, Hi. }
  destruct (fits candidate) eqn:E1; [|destruct (fits word) eqn:E2].
  - split; [done|]. split; [|by rewrite !ink_app, Hcand, <- app_assoc].
    split; [rewrite Hcand; by destruct (ink current) | by left].
  - split; [done|]. split; [split; [by rewrite Hi | by left]|]. by rewrite Hcc, ink_app, Hi.
  - destruct (breakLongWord_spec word Hne Hi) as (Hb & Hbc & Hbn).
    set (chunks := breakLongWord _ _ word) in *.
    pose proof (take_last chunks Hbn) as Ht.
    assert (Hboth : Forall line_ok (take (length chunks - 1) chunks) /\ line_ok (default [] (last chunks))).
    { rewrite <- Ht in Hb. apply Forall_app in Hb as [? Hb]. by apply Forall_cons_1 in Hb as [? _]. }
    destruct Hboth as [Hb1 Hb2]. split; [by apply Forall_app|]. split; [done|].
    rewrite concat_app, <- app_assoc, ink_app, Hcc.
    replace (concat (take (length chunks - 1) chunks) ++ default [] (last chunks)) with word; [by rewrite Hi|].
    rewrite <- Hbc at 1. rewrite <- Ht at 1. rewrite concat_app. cbn [concat]. by rewrite app_nil_r.
Qed.

Lemma wrap_spec ws : forall lines current,
  Forall (fun w => w <> [] /\ ink w = w) ws -> Forall line_ok lines -> progress_ok current ->
  let '(lines', current') := fold_left (wrap_step measure maxWidth) ws (lines, current) in
  Forall line_ok lines' /\ progress_ok current'
  /\ ink (concat lines' ++ current') = ink (concat lines ++ current) ++ concat ws.
Proof.
  induction ws as [|w ws IH]; cbn [fold_left]; intros lines current Hw Hl Hc.
  - by rewrite app_nil_r.
  - apply Forall_cons_1 in Hw as [[Hne Hi] Hw].
    pose proof (wrap_step_spec lines current w Hne Hi Hl Hc) as H.
    destruct (wrap_step measure maxWidth (lines, current) w) as [l1 c1]. destruct H as (H1 & H2 & H3).
    specialize (IH l1 c1 Hw H1 (or_intror H2)). destruct (fold_left _ ws _) as [l2 c2].
    destruct IH as (H4 & H5 & H6). split; [done|]. split; [done|]. cbn [concat].
    by rewrite H6, H3, <- app_assoc.
Qed.

(** The lines of a text, before the limit is applied. *)
Lemma wrap_lines text maxLines :
  width_invalid maxWidth = false -> words text <> [] ->
  let limit := Z.to_nat (Z.max 1 maxLines) in
  exists lines, lines <> [] /\ Forall line_ok lines /\ ink (concat lines) = ink text
  /\ wrapTextToWidth measure maxWidth text maxLines
     = if (length lines <=? limit)%nat then lines
       else let kept := take limit lines in
            <[(limit - 1)%nat := clipWithEllipsis measure maxWidth
                                   (default [] (kept !! (limit - 1)%nat))]> kept.
Proof.
  intros Hw Hne limit. unfold wrapTextToWidth. rewrite Hw, bool_decide_eq_false_2 by done.
  destruct (words_spec text) as [Hc Hf].
  pose proof (wrap_spec (words text) [] [] Hf (Forall_nil_2 _) (or_introl eq_refl)) as H.
  destruct (fold_left _ (words text) _) as [lines current]. destruct H as (H1 & H2 & H3).
  destruct (progress_case current lines H2 H1) as [H4 H5]. rewrite <- H5, Hc in H3.
  set (all := if bool_decide _ then _ else _) in *. exists all.
  assert (Hall : all <> []).
  { intros E. rewrite E in H3. cbn in H3. rewrite <- Hc in H3. apply Hne.
    destruct (words text) as [|w ws]; [done|]. apply Forall_cons_1 in Hf as [[? _] _]. by destruct w. }
  repeat (split; [done|]). by destruct all.
Qed.

(** ** Lemmas: the ellipsis *)

Definition clipped (text : jsstr) (k : nat) : jsstr := take k text ++ WRAP_ELLIPSIS.

Lemma clip_search_spec fuel text : forall lo hi,
  (lo <= hi <= length text)%nat -> (hi - lo <= fuel)%nat -> fits (clipped text lo) = true ->
  let k := clip_search measure maxWidth fuel text lo hi in
  (lo <= k <= hi)%nat /\ fits (clipped text k) = true
  /\ ((forall i j, (i <= j <= length text)%nat -> fits (clipped text j) = true -> fits (clipped text i) = true) ->
      forall i, (k < i <= hi)%nat -> fits (clipped text i) = false).
Proof.
  induction fuel as [|fuel IH]; cbn [clip_search]; intros lo hi Hr Hf Hlo; cbv zeta.
  - split; [lia|]. split; [done|]. intros _ i. lia.
  - destruct (Nat.ltb_spec lo hi) as [Hlt|]; [|split; [lia|]; split; [done|]; intros _ i; lia].
    set (mid := ((lo + hi + 1) / 2)%nat).
    assert (Hmid : (lo < mid <= hi)%nat).
    { unfold mid. pose proof (Nat.div_mod (lo + hi + 1) 2 ltac:(lia)).
      pose proof (Nat.mod_upper_bound (lo + hi + 1) 2 ltac:(lia)). lia. }
    fold (clipped text mid). destruct (fits (clipped text mid)) eqn:E.
    + destruct (IH mid hi ltac:(lia) ltac:(lia) E) as (H1 & H2 & H3).
      split; [lia|]. split; [done|]. exact H3.
    + destruct (IH lo (mid - 1)%nat ltac:(lia) ltac:(lia) Hlo) as (H1 & H2 & H3).
      split; [lia|]. split; [done|]. intros Hanti i Hi.
      destruct (decide (i <= mid - 1)%nat); [apply H3; [done | lia]|].
      destruct (fits (clipped text i)) eqn:Ei; [|done].
      by rewrite (Hanti mid i ltac:(lia) Ei) in E.
Qed.

(** The truncation keeps the longest prefix that leaves room for the marker. *)
Lemma clipWithEllipsis_spec text :
  if fits WRAP_ELLIPSIS then
    exists k, (k <= length text)%nat /\ clipWithEllipsis measure maxWidth text = clipped text k
    /\ fits (clipped text k) = true
    /\ ((forall i j, (i <= j <= length text)%nat -> fits (clipped text j) = true -> fits (clipped text i) = true) ->
        forall i, (k < i <= length text)%nat -> fits (clipped text i) = false)
  else clipWithEllipsis measure maxWidth text = [].
Proof.
  unfold clipWithEllipsis. rewrite comparable. destruct (fits WRAP_ELLIPSIS) eqn:E; cbn [negb]; [|done].
  destruct (clip_search_spec (length text) text 0 (length text)) as (H1 & H2 & H3); [lia | lia | done|].
  eexists. split; [exact (proj2 H1)|]. split; [done|]. by split.
Qed.

Lemma length_lines lines : Forall line_ok lines -> (length lines <= length (ink (concat lines)))%nat.
Proof.
  induction 1 as [|l lines [Hl _] _ IH]; [done|]. cbn. rewrite ink_app, length_app.
  destruct (ink l); [done|]. cbn. lia.
Qed.

Lemma length_ink s : (length (ink s) <= length s)%nat.
Proof. apply List.filter_length_le. Qed.

Lemma concat_ink_nonempty lines : lines <> [] -> Forall line_ok lines -> ink (concat lines) <> [].
Proof.
  intros Hne Hf. pose proof (length_lines _ Hf). destruct lines; [done|]. intros E. rewrite E in *.
  cbn in *. lia.
Qed.

(** A text that is cut: the lines kept, the last one clipped. *)
Lemma cut_lines lines limit :
  (1 <= limit < length lines)%nat -> Forall line_ok lines ->
  let kept := take limit lines in
  let out := <[(limit - 1)%nat := clipWithEllipsis measure maxWidth
                                    (default [] (kept !! (limit - 1)%nat))]> kept in
  length out = limit
  /\ (forall l, l ∈ out -> fits l = true \/ single l \/ (l = [] /\ fits WRAP_ELLIPSIS = false))
  /\ exists shown rest, ink (concat lines) = shown ++ rest /\ rest <> []
     /\ ink (concat out) = shown ++ (if fits WRAP_ELLIPSIS then WRAP_ELLIPSIS else []).
Proof.
  intros Hlim Hf kept out.
  destruct (lookup_lt_is_Some_2 lines (limit - 1)%nat ltac:(lia)) as [l Hl].
  assert (Hk : kept = take (limit - 1) lines ++ [l]).
  { unfold kept. replace limit with (S (limit - 1)) at 1 by lia. by apply take_S_r. }
  assert (Hlen : length (take (limit - 1) lines) = (limit - 1)%nat) by (rewrite length_take; lia).
  assert (Hkl : kept !! (limit - 1)%nat = Some l).
  { rewrite Hk, lookup_app_r by lia. by rewrite Hlen, Nat.sub_diag. }
  assert (Ho : out = take (limit - 1) lines ++ [clipWithEllipsis measure maxWidth l]).
  { unfold out. rewrite Hkl, Hk. cbn [default from_option id].
    rewrite insert_app_r_alt by lia. by rewrite Hlen, Nat.sub_diag. }
  assert (Hrest : lines = take (limit - 1) lines ++ [l] ++ drop limit lines).
  { rewrite app_assoc, <- Hk. symmetry. apply take_drop. }
  pose proof (clipWithEllipsis_spec l) as Hclip. rewrite Ho.
  assert (Hpre : Forall line_ok (take (limit - 1) lines)) by by apply Forall_take.
  assert (Hend : ink (concat (drop limit lines)) <> []).
  { apply concat_ink_nonempty; [|by apply Forall_drop]. intros E%(f_equal length).
    rewrite length_drop in E. cbn in E. lia. }
  rewrite length_app, Hlen. split; [cbn; lia|]. split.
  - intros x [Hx|Hx%list_elem_of_singleton]%elem_of_app.
    + rewrite Forall_forall in Hpre. destruct (Hpre x Hx) as [_ [|]]; auto.
    + subst x. destruct (fits WRAP_ELLIPSIS); [|by right; right].
      destruct Hclip as (k & _ & -> & Hfit & _). by left.
  - assert (Hink : ink (concat lines) = ink (concat (take (limit - 1) lines)) ++ ink l
                                         ++ ink (concat (drop limit lines))).
    { rewrite Hrest at 1. rewrite !concat_app. cbn [concat]. by rewrite app_nil_r, !ink_app. }
    assert (Hout : forall c, ink (concat (take (limit - 1) lines ++ [c]))
                             = ink (concat (take (limit - 1) lines)) ++ ink c).
    { intros c. rewrite concat_app. cbn [concat]. by rewrite app_nil_r, ink_app. }
    setoid_rewrite Hink. setoid_rewrite Hout.
    destruct (fits WRAP_ELLIPSIS).
    + destruct Hclip as (k & _ & -> & _ & _).
      exists (ink (concat (take (limit - 1) lines)) ++ ink (take k l)),
        (ink (drop k l) ++ ink (concat (drop limit lines))).
      split; [rewrite <- (take_drop k l) at 1; by rewrite ink_app, <- !app_assoc|].
      split; [by destruct (ink (drop k l))|]. unfold clipped. rewrite ink_app, <- app_assoc. done.
    + rewrite Hclip. exists (ink (concat (take (limit - 1) lines))), (ink l ++ ink (concat (drop limit lines))).
      split; [done|]. split; [by destruct (ink l)|]. done.
Qed.
End Lemmas.

(** ** Theorems *)

(** A measure that returns numbers is comparable with a finite width. *)
Lemma numeric_comparable measure maxWidth :
  (forall s, measure s <> S754_nan) -> width_invalid maxWidth = false ->
  forall s, too_wide measure maxWidth s = negb (fits measure maxWidth s).
Proof.
  intros Hm Hw s. apply SFltb_SFleb; [|apply Hm]. intros ->. discriminate Hw.
Qed.

Lemma wrap_blank measure maxWidth text maxLines :
  width_invalid maxWidth = false -> words text = [] ->
  wrapTextToWidth measure maxWidth text maxLines = [text].
Proof. intros Hw E. unfold wrapTextToWidth. by rewrite Hw, bool_decide_eq_true_2. Qed.

(** A text is never cut at a limit of as many lines as it has characters. *)
Lemma wrap_whole measure maxWidth text maxLines :
  (forall s, measure s <> S754_nan) -> width_invalid maxWidth = false ->
  Z.of_nat (length text) <= maxLines ->
  ink (concat (wrapTextToWidth measure maxWidth text maxLines)) = ink text.
Proof.
  intros Hm Hw Hl. destruct (decide (words text = [])) as [E|Hne].
  - rewrite wrap_blank by done. cbn. by rewrite app_nil_r.
  - destruct (wrap_lines measure maxWidth (numeric_comparable _ _ Hm Hw) text maxLines Hw Hne)
      as (lines & _ & Hf & Hi & ->).
    pose proof (length_lines _ _ _ Hf). rewrite Hi in *. pose proof (length_ink text).
    by rewrite (proj2 (Nat.leb_le _ _)) by lia.
Qed.

(** C20: The lines of a label's text, [wrapTextToWidth] and [wrapTextToWidthStrict], for
    any measure that returns numbers and a positive finite width.  A text with words is printed
    on at least one line and on no more than the limit; each line is within
    the width, unless it is one code point that does not fit by itself, or the
    empty line that stands for a marker that does not fit.  Either every
    character of the text but its white space is printed, once and in order,
    or the limit is reached and what is printed is a proper prefix of them,
    followed by the ellipsis that says so, unless the ellipsis itself is too wide.  And
    the strict variant, for a text of less than 2^53 units, either throws or prints the
    whole of it, on no more lines than are declared and none of them too wide. *)
Theorem wrapTextToWidth_lines (measure : jsstr -> spec_float) (maxWidth : spec_float) (text : jsstr)
    (maxLines : Z)
    (Hmeasure : forall s, measure s <> S754_nan) (Hwidth : width_invalid maxWidth = false) :
  (words text <> [] ->
     let out := wrapTextToWidth measure maxWidth text maxLines in
     1 <= Z.of_nat (length out) <= Z.max 1 maxLines
     /\ (forall l, l ∈ out -> fits measure maxWidth l = true \/ single l
                              \/ (l = [] /\ fits measure maxWidth WRAP_ELLIPSIS = false))
     /\ (ink (concat out) = ink text
         \/ Z.of_nat (length out) = Z.max 1 maxLines
            /\ exists shown rest, ink text = shown ++ rest /\ rest <> []
               /\ ink (concat out)
                  = shown ++ (if fits measure maxWidth WRAP_ELLIPSIS then WRAP_ELLIPSIS else [])))
  /\ (forall lines, Z.of_nat (length text) <= MAX_SAFE_INTEGER ->
        wrapTextToWidthStrict measure maxWidth text maxLines = Ok lines ->
        Z.of_nat (length lines) <= maxLines
        /\ (forall l, l ∈ lines -> fits measure maxWidth l = true)
        /\ ink (concat lines) = ink text).
Proof.
  pose proof (numeric_comparable _ _ Hmeasure Hwidth) as Hcmp. split.
  - intros Hne out. subst out. set (limit := Z.to_nat (Z.max 1 maxLines)).
    destruct (wrap_lines measure maxWidth Hcmp text maxLines Hwidth Hne) as (lines & Hl & Hf & Hi & ->).
    fold limit. destruct (Nat.leb_spec (length lines) limit) as [Hle|Hgt].
    + split; [destruct lines; [done|]; cbn [length] in *; lia|].
      split; [|by left]. intros l Hin. rewrite Forall_forall in Hf. destruct (Hf l Hin) as [_ [|]]; auto.
    + destruct (cut_lines measure maxWidth Hcmp lines limit ltac:(lia) Hf) as (H1 & H2 & H3).
      cbv zeta in *. rewrite H1. split; [lia|]. split; [exact H2|]. right. split; [lia|].
      by rewrite <- Hi.
  - intros lines Hlen. unfold wrapTextToWidthStrict, throw. rewrite Hwidth. cbn [orb].
    pass_guard E1. cbv zeta. pass_guard E2. intros <-%Ok_inj.
    apply orb_false_iff in E2 as [E2 E3]. apply Z.ltb_ge in E2. split; [exact E2|].
    set (out := concat _) in *. split.
    + intros l Hin. rewrite <- negb_false_iff, <- Hcmp. apply not_true_iff_false. intros Ht.
      apply not_true_iff_false in E3. apply E3, existsb_exists. exists l.
      split; [by apply list_elem_of_In | exact Ht].
    + unfold out. clear out E2 E3. rewrite <- (split_lines_spec text).
      pose proof (split_lines_length text) as Hsub. revert Hsub. set (n := length text) in *.
      generalize (split_lines text) as ls. clearbody n. induction ls as [|l ls IH]; [done|].
      intros [Hl Hls]%Forall_cons_1. cbn [map concat]. rewrite concat_app, !ink_app, IH by exact Hls.
      f_equal. apply wrap_whole; [exact Hmeasure | exact Hwidth | lia].
Qed.

(** A measure by which the texts of at most six characters fit 2. *)
Definition sample_measure (s : jsstr) : spec_float :=
  if (length s <=? 6)%nat then float_of_Z 1 else float_of_Z 3.

Example sample_wrap :
  wrapTextToWidth sample_measure (float_of_Z 2) (js "ab  cd efghijklm no") 9
  = [js "ab cd"; js "efghij"; js "klm no"].
Proof. vm_compute. reflexivity. Qed.

Example sample_cut :
  wrapTextToWidth sample_measure (float_of_Z 2) (js "ab  cd efghijklm no") 2
  = [js "ab cd"; js "efghi" ++ WRAP_ELLIPSIS].
Proof. vm_compute. reflexivity. Qed.

Example sample_estimate :
  estimatedLineCount (js "a product name of some length") (float_of_Z 8) (Some (float_of_Z 40)) (Some 3)
  = 2%nat.
Proof. vm_compute. reflexivity. Qed.

Lemma wrapTextToWidth_lines_witness :
  let out := wrapTextToWidth sample_measure (float_of_Z 2) (js "ab  cd efghijklm no") 2 in
  length out = 2%nat
  /\ (forall l, l ∈ out -> fits sample_measure (float_of_Z 2) l = true \/ single l
                           \/ (l = [] /\ fits sample_measure (float_of_Z 2) WRAP_ELLIPSIS = false)).
Proof.
  assert (Hm : forall s, sample_measure s <> S754_nan)
    by (intros s; unfold sample_measure; destruct (length s <=? 6)%nat; vm_compute; discriminate).
  assert (Hw : width_invalid (float_of_Z 2) = false) by (vm_compute; reflexivity).
  destruct (wrapTextToWidth_lines sample_measure (float_of_Z 2) (js "ab  cd efghijklm no") 2 Hm Hw) as [H _].
  assert (Hne : words (js "ab  cd efghijklm no") <> []) by (vm_compute; discriminate).
  destruct (H Hne) as (_ & Hl & _).
  split; [vm_compute; reflexivity | exact Hl].
Defined.
