(* ===== verification/JsNumber.v ===== *)
(** * Numbers as the printer text writes them

    [Number.prototype.toString] of a double with the shortest digits that read
    back as the same double, and the functions of [Math] the label emitters
    call.  Coordinates stay doubles all the way to the text of a command. *)

From stdpp Require Import base list strings gmap.
From Stdlib Require Import ZArith Lia.
From Stdlib Require Import SpecFloat.
From S2P Require Import Prelude Doubles.

(** ** Arithmetic and Math *)

Definition fadd : spec_float -> spec_float -> spec_float := SFadd 53 1024.
Definition fsub : spec_float -> spec_float -> spec_float := SFsub 53 1024.

Definition is_nan (x : spec_float) : bool := match x with S754_nan => true | _ => false end.
Definition sign_of (x : spec_float) : bool :=
  match x with
  | S754_zero s | S754_infinity s | S754_finite s _ _ => s
  | S754_nan => false
  end.

(** An integer as a double; a zero keeps the sign [s]. *)
Definition signed_int (s : bool) (z : Z) : spec_float :=
  if z =? 0 then S754_zero s else float_of_Z z.

(** [Math.round] as a double: an infinity or NaN is itself. *)
Definition js_round (x : spec_float) : spec_float :=
  match math_round x with Some z => signed_int (sign_of x) z | None => x end.

(** [Math.floor] as a double. *)
Definition js_floor (x : spec_float) : spec_float :=
  match x with
  | S754_finite s m e =>
      let v := if s then Z.neg m else Z.pos m in
      signed_int s (if 0 <=? e then v * 2 ^ e else v / 2 ^ (- e))
  | _ => x
  end.

(** [Math.max] and [Math.min] of two numbers: NaN wins, and zeros are ordered by sign. *)
Definition js_max (a b : spec_float) : spec_float :=
  if is_nan a || is_nan b then S754_nan
  else if SFltb a b then b else if SFltb b a then a
  else if sign_of a then b else a.

Definition js_min (a b : spec_float) : spec_float :=
  if is_nan a || is_nan b then S754_nan
  else if SFltb a b then a else if SFltb b a then b
  else if sign_of a then a else b.

(** ** Number.prototype.toString *)

(** The double nearest to [s * 10 ^ t], [s > 0]. *)
Definition double_of_decimal (s t : Z) : spec_float :=
  if 0 <=? t then float_of_Z (s * 10 ^ t)
  else match s, 10 ^ (- t) with
       | Z.pos p, Z.pos q => fdiv (S754_finite false p 0) (S754_finite false q 0)
       | _, _ => S754_zero false
       end.

(** [num / den] of a positive finite double. *)
Definition numerator (m : positive) (e : Z) : Z := Z.pos m * 2 ^ Z.max e 0.
Definition denominator (e : Z) : Z := 2 ^ Z.max (- e) 0.

(** The number of zeros between the point and the first digit of [num / den < 1]. *)
Fixpoint leading_zeros (fuel : nat) (num den : Z) : Z :=
  match fuel with
  | O => 0
  | S fuel' => if den <=? num * 10 then 0 else 1 + leading_zeros fuel' (num * 10) den
  end.

(** The [n] with [10 ^ (n - 1) <= num / den < 10 ^ n]; the smallest double is
    above [10 ^ -324]. *)
Definition decimal_exponent (num den : Z) : Z :=
  if den <=? num then Z.of_nat (length (js_of_nonneg (num / den)))
  else - leading_zeros 330 num den.

(** The [k]-digit [s] with [s * 10 ^ (n - k)] equal to [x] as a double, the
    closest one when there are two, an even one when both are as close. *)
Definition digits_of_length (x : spec_float) (num den n k : Z) : option Z :=
  let t := n - k in
  let den' := den * 10 ^ Z.max t 0 in
  let num' := num * 10 ^ Z.max (- t) 0 in
  let lo := num' / den' in
  let reads s := SFeqb (double_of_decimal s t) x in
  let low_closer :=
    match Z.compare (2 * num') ((2 * lo + 1) * den') with
    | Lt => true | Gt => false | Eq => Z.even lo
    end in
  match reads lo, reads (lo + 1) with
  | true, true => Some (if low_closer then lo else lo + 1)
  | true, false => Some lo
  | false, true => Some (lo + 1)
  | false, false => None
  end.

(** [k] as small as possible; seventeen digits are enough for any double. *)
Fixpoint shortest (fuel : nat) (x : spec_float) (num den n k : Z) : Z * Z :=
  match fuel with
  | O => (num * 10 ^ Z.max (k - n) 0 / (den * 10 ^ Z.max (n - k) 0), k)
  | S fuel' =>
      match digits_of_length x num den n k with
      | Some s => (s, k)
      | None => shortest fuel' x num den n (k + 1)
      end
  end.

(** The digits and the exponent in the layout ECMAScript gives them. *)
Definition layout (digits : jsstr) (n : Z) : jsstr :=
  let k := Z.of_nat (length digits) in
  let zeros c := replicate (Z.to_nat c) 48 in
  if (k <=? n) && (n <=? 21) then digits ++ zeros (n - k)
  else if (0 <? n) && (n <=? 21)
  then take (Z.to_nat n) digits ++ [46] ++ drop (Z.to_nat n) digits
  else if (-6 <? n) && (n <=? 0) then [48; 46] ++ zeros (- n) ++ digits
  else
    let e := n - 1 in
    let exponent := [101] ++ (if 0 <=? e then [43] else [45]) ++ js_of_nonneg (Z.abs e) in
    if k =? 1 then digits ++ exponent
    else take 1 digits ++ [46] ++ drop 1 digits ++ exponent.

(** [String(x)] of a number. *)
Definition js_of_number (x : spec_float) : jsstr :=
  match x with
  | S754_nan => js "NaN"
  | S754_zero _ => [48]
  | S754_infinity s => (if s then [45] else []) ++ js "Infinity"
  | S754_finite s m e =>
      let num := numerator m e in
      let den := denominator e in
      let n := decimal_exponent num den in
      let '(d, k) := shortest 17 (S754_finite false m e) num den n 1 in
      (** a carry into one more digit, [9.99 -> 10], is the shorter number *)
      let digits := js_of_nonneg d in
      let n := n + (Z.of_nat (length digits) - k) in
      (if s then [45] else []) ++ layout (if k =? 1 then take 1 digits else digits) n
  end.

(** ** Lemmas *)

(** The characters of a number: digits, letters, the point and the signs. *)
Definition number_char (c : Z) : bool :=
  is_digit c || ((97 <=? c) && (c <=? 122)) || ((65 <=? c) && (c <=? 90))
  || (c =? 43) || (c =? 45) || (c =? 46).

Definition number_text (s : jsstr) : bool := forallb number_char s.

Lemma number_text_app s t : number_text (s ++ t) = number_text s && number_text t.
Proof. apply forallb_app. Qed.

Lemma number_text_digits s : forallb is_digit s = true -> number_text s = true.
Proof.
  unfold number_text. rewrite !forallb_forall. intros H c Hc. unfold number_char. by rewrite (H c Hc).
Qed.

Lemma number_text_nonneg n : 0 <= n -> number_text (js_of_nonneg n) = true.
Proof. intros H. apply number_text_digits. by apply js_of_nonneg_spec. Qed.

Lemma number_text_of_Z n : number_text (js_of_Z n) = true.
Proof.
  unfold js_of_Z. case_match eqn:E; [|apply number_text_nonneg; lia].
  cbn [number_text forallb]. cbn. apply number_text_nonneg. lia.
Qed.

Lemma digits_take_drop n s :
  forallb is_digit s = true -> number_text (take n s) = true /\ number_text (drop n s) = true.
Proof.
  intros H. rewrite <- (take_drop n s), forallb_app in H. apply andb_true_iff in H as [Ht Hd].
  split; by apply number_text_digits.
Qed.

Lemma number_text_zeros n : number_text (replicate n 48) = true.
Proof. apply number_text_digits, all_digits_replicate. Qed.

Lemma number_text_layout digits n :
  forallb is_digit digits = true -> number_text (layout digits n) = true.
Proof.
  intros H. pose proof (number_text_digits _ H) as Hn.
  destruct (digits_take_drop (Z.to_nat n) digits H) as [Ht Hd].
  destruct (digits_take_drop 1 digits H) as [Ht1 Hd1].
  unfold layout. cbv zeta.
  set (ex := [101] ++ _).
  assert (He : number_text ex = true).
  { unfold ex. rewrite !number_text_app, number_text_nonneg by lia. by destruct (0 <=? n - 1). }
  repeat case_match; rewrite ?number_text_app, ?number_text_zeros, ?He, ?Ht, ?Hd, ?Ht1, ?Hd1, ?Hn;
    reflexivity.
Qed.

Lemma digits_of_length_nonneg x num den n k s :
  0 <= num -> 0 < den -> digits_of_length x num den n k = Some s -> 0 <= s.
Proof.
  intros Hn Hd. unfold digits_of_length. cbv zeta.
  set (lo := _ / _).
  assert (0 <= lo).
  { apply Z.div_pos; [apply Z.mul_nonneg_nonneg; [done|apply Z.pow_nonneg; lia]|].
    apply Z.mul_pos_pos; [done|apply Z.pow_pos_nonneg; lia]. }
  repeat case_match; intros E; try discriminate; injection E as <-; lia.
Qed.

Lemma shortest_nonneg fuel x num den n : forall k,
  0 <= num -> 0 < den -> 0 <= (shortest fuel x num den n k).1.
Proof.
  induction fuel as [|fuel IH]; intros k Hn Hd; cbn [shortest].
  - cbn [fst]. apply Z.div_pos; [apply Z.mul_nonneg_nonneg; [done|apply Z.pow_nonneg; lia]|].
    apply Z.mul_pos_pos; [done|apply Z.pow_pos_nonneg; lia].
  - destruct (digits_of_length x num den n k) eqn:E; [|by apply IH].
    by eapply digits_of_length_nonneg.
Qed.

(** A printed number is made of number characters only: it cannot contain a
    separator, a quote or the prefix of a command. *)
Lemma number_text_of_number x : number_text (js_of_number x) = true.
Proof.
  destruct x as [s|s| |s m e]; [reflexivity|by destruct s|reflexivity|].
  unfold js_of_number. cbv zeta.
  destruct (shortest 17 _ _ _ _ 1) as [d k] eqn:E.
  assert (Hd : 0 <= d).
  { replace d with (d, k).1 by done. rewrite <- E. apply shortest_nonneg.
    - unfold numerator. apply Z.mul_nonneg_nonneg; [lia|apply Z.pow_nonneg; lia].
    - unfold denominator. apply Z.pow_pos_nonneg; lia. }
  destruct (js_of_nonneg_spec d Hd) as (Hds & _).
  rewrite number_text_app. apply andb_true_iff. split; [by destruct s|].
  apply number_text_layout. case_match; [|done].
  rewrite <- (take_drop 1 (js_of_nonneg d)), forallb_app in Hds. by apply andb_true_iff in Hds as [? _].
Qed.
