(* ===== verification/LabelModel.v ===== *)
(** * Label templates and what the emitters share

    [packages/domain/src/labels/model.ts] (the template, the conversion to dots
    and the displayed text of a field), [labels/text.ts], the command builders
    of [labels/raster-types.ts] and [labels/printer-commands.ts],
    [labels/label-logo.ts], [labels/raster.ts], [barcodes/gs1-data-matrix.ts]
    (the encoder of bwip-js is a parameter), and the bytes that
    [apps/station/src/lib/print-label.ts] sends.  Lengths in millimetres, points
    and dots are doubles; [Record<LabelField, string>] is a function. *)

From stdpp Require Import base list strings gmap.
From Stdlib Require Import ZArith Lia.
From Stdlib Require Import SpecFloat.
From S2P Require Import Prelude Doubles JsNumber.
From S2P Require Gs1 Km ProductLabel MonoRaster Wrap.

(** ** model.ts: the template *)

Inductive LabelField :=
| product_name | product_printName | product_gtin | product_egais | km_code | sscc
| shift_no | date | expiry | qty | qty_boxes | operator | counterparty_name.

#[export] Instance LabelField_eq_dec : EqDecision LabelField.
Proof. solve_decision. Defined.

Abbreviation LabelData := (LabelField -> jsstr).

Inductive Align := align_left | align_center | align_right.
Inductive FontFamily := sans_serif | monospace.
Inductive TextFormat := km_without_crypto | quantity_number | sscc_with_title | sscc_spaced.
Inductive BarcodeFormat := datamatrix | code128 | ean13 | qr.
Inductive BarcodeSource := SourceField (f : LabelField) | SourceLiteral (literal : jsstr).

#[export] Instance TextFormat_eq_dec : EqDecision TextFormat.
Proof. solve_decision. Defined.
#[export] Instance BarcodeFormat_eq_dec : EqDecision BarcodeFormat.
Proof. solve_decision. Defined.
#[export] Instance BarcodeSource_eq_dec : EqDecision BarcodeSource.
Proof. solve_decision. Defined.

(** [elementBaseShape] and [wrappableTextShape]. *)
Record Base := { id : jsstr; xMm : spec_float; yMm : spec_float }.

Record TextShape := {
  fontSizePt : spec_float; minFontSizePt : option spec_float; bold : option bool;
  fontFamily : option FontFamily; lineHeight : option spec_float; align : option Align;
  maxWidthMm : option spec_float; maxLines : option Z
}.

Record LabelBarcodeElement := {
  b_base : Base; format : BarcodeFormat; b_data : BarcodeSource; sizeMm : spec_float;
  moduleWidthMm : option spec_float
}.
Record LabelLineElement := {
  l_base : Base; x2Mm : spec_float; y2Mm : spec_float; l_thicknessMm : spec_float
}.
Record LabelBoxElement := {
  x_base : Base; x_widthMm : spec_float; x_heightMm : spec_float; x_thicknessMm : spec_float
}.
Record LabelOrganizationLogoElement := {
  o_base : Base; o_widthMm : spec_float; o_heightMm : spec_float
}.

Inductive LabelElement :=
| TextElement (base : Base) (text : jsstr) (shape : TextShape)
| FieldElement (base : Base) (field : LabelField) (textFormat : option TextFormat) (shape : TextShape)
| BarcodeElement (element : LabelBarcodeElement)
| LineElement (element : LabelLineElement)
| BoxElement (element : LabelBoxElement)
| OrganizationLogo (element : LabelOrganizationLogoElement).

(** A template as an emitter reads it: its language is overridden by the printer's. *)
Record LabelTemplateSpec := {
  widthMm : spec_float; heightMm : spec_float; dpi : Z; elements : list LabelElement
}.

Definition withPrinterDpi (spec : LabelTemplateSpec) (printerDpi : option Z) : LabelTemplateSpec :=
  match printerDpi with
  | None => spec
  | Some d => if d =? dpi spec then spec
              else {| widthMm := widthMm spec; heightMm := heightMm spec; dpi := d;
                      elements := elements spec |}
  end.

(** The same function as [MonoRaster.mmToDots], with the double it returns. *)
Definition mmToDots (mm : spec_float) (dpi : Z) : spec_float :=
  js_round (fdiv (fmul mm (float_of_Z dpi)) MM_PER_INCH).

Definition ptToDots (pt : spec_float) (dpi : Z) : spec_float :=
  js_round (fmul (fdiv pt (float_of_Z 72)) (float_of_Z dpi)).

Definition QTY_UNIT_SUFFIX : jsstr := js "шт.".
Definition BOX_QTY_UNIT_SUFFIX : jsstr := js "кор.".

(** [digits] with its unit when it is a decimal number, the value as it is otherwise. *)
Definition with_unit (value suffix : jsstr) : jsstr :=
  let digits := trim value in
  if all_digits1 digits then digits ++ [32] ++ suffix else value.

Definition labelFieldDisplayValue (field : LabelField) (data : LabelData)
    (textFormat : option TextFormat) : result jsstr :=
  let value := data field in
  if bool_decide (field = km_code) && bool_decide (textFormat = Some km_without_crypto) then
    match Km.canonicalizeKm value with
    | Ok km => Ok (js "01" ++ Km.gtin14 km ++ js "21" ++ Km.serial km)
    | Throw (DomainError _) => Ok []
    | Throw e => Throw e
    end
  else if (bool_decide (field = qty) || bool_decide (field = qty_boxes))
          && bool_decide (textFormat = Some quantity_number)
  then Ok (trim value)
  else if bool_decide (field = sscc) && digits_n 18 value then
    if bool_decide (textFormat = Some sscc_with_title) then Ok (js "SSCC  (00) " ++ value)
    else if bool_decide (textFormat = Some sscc_spaced) then Ok (js "(00) " ++ value)
    else Gs1.formatSsccHri value
  else if bool_decide (field = qty) then Ok (with_unit value QTY_UNIT_SUFFIX)
  else if bool_decide (field = qty_boxes) then Ok (with_unit value BOX_QTY_UNIT_SUFFIX)
  else Ok value.

(** ** text.ts *)

(** [ch.codePointAt(0)] of one piece of [for (const ch of text)]. *)
Definition codePointAt (ch : jsstr) : Z :=
  match ch with
  | [] => 0
  | [a] => a
  | a :: b :: _ => 0x10000 + (a - 0xd800) * 0x400 + (b - 0xdc00)
  end.

Definition isPrintableAscii (code : Z) : bool := (0x20 <=? code) && (code <=? 0x7e).

Definition needsImageRendering (text : jsstr) : bool :=
  existsb (fun ch => negb (isPrintableAscii (codePointAt ch))) (Wrap.code_points text).

(** ** raster-types.ts *)

Abbreviation RasterResult := MonoRaster.RasterResult.

Record RasterizeTextOptions := {
  ro_fontFamily : FontFamily; ro_minFontSizePx : option spec_float;
  ro_lineHeight : option spec_float; ro_fontSizePx : spec_float; ro_bold : bool;
  ro_maxWidthPx : option spec_float; ro_maxLines : Z
}.

(** The rasterizer of the host: it may throw. *)
Abbreviation RasterizeTextFn := (jsstr -> RasterizeTextOptions -> result RasterResult).

Definition buildGfaCommand (r : RasterResult) : jsstr :=
  js "^GFA," ++ js_of_Z (MonoRaster.totalBytes r) ++ js "," ++ js_of_Z (MonoRaster.totalBytes r)
  ++ js "," ++ js_of_Z (MonoRaster.bytesPerRow r) ++ js "," ++ MonoRaster.hex r.

(** [String.fromCharCode(byte ^ 0xff)] for each byte of the hexadecimal text. *)
Definition invertHexToTsplBytes (hex : jsstr) : jsstr :=
  map (fun byte => Z.lxor byte 0xff) (MonoRaster.parse_hex_bytes hex).

Definition buildBitmapCommand (x y : spec_float) (r : RasterResult) : jsstr :=
  js "BITMAP " ++ js_of_number x ++ js "," ++ js_of_number y ++ js ","
  ++ js_of_Z (MonoRaster.bytesPerRow r) ++ js "," ++ js_of_Z (MonoRaster.r_height r) ++ js ",0,"
  ++ invertHexToTsplBytes (MonoRaster.hex r).

Definition rasterAlignOffsetDots (align : option Align) (maxWidthDots : option spec_float)
    (rasterWidthDots : spec_float) : spec_float :=
  match maxWidthDots with
  | None => S754_zero false
  | Some w =>
      let leftover := fsub w rasterWidthDots in
      match align with
      | Some align_center => js_max (S754_zero false) (js_round (fdiv leftover (float_of_Z 2)))
      | Some align_right => js_max (S754_zero false) leftover
      | _ => S754_zero false
      end
  end.

(** ** printer-commands.ts *)

Definition LF : Z := 10.
Definition QUOTE : Z := 34.

Definition buildZplDocument (widthDots heightDots : spec_float) (commands : list jsstr) : jsstr :=
  join [LF] ([js "^XA"; js "^PW" ++ js_of_number widthDots; js "^LL" ++ js_of_number heightDots]
             ++ commands ++ [js "^XZ"]) ++ [LF].

Definition buildTsplDocument (widthMm heightMm : spec_float) (commands : list jsstr) : jsstr :=
  join [LF] ([js "SIZE " ++ js_of_number widthMm ++ js " mm, " ++ js_of_number heightMm ++ js " mm";
              js "GAP 2 mm, 0 mm"; js "DIRECTION 1"; js "CLS"]
             ++ commands ++ [js "PRINT 1"]) ++ [LF].

Definition comma (parts : list spec_float) : jsstr := join [44] (map js_of_number parts).

Definition buildZplBox (x y width height thickness : spec_float) : jsstr :=
  js "^FO" ++ comma [x; y] ++ js "^GB" ++ comma [width; height; thickness] ++ js "^FS".

Definition buildTsplBar (x y width height : spec_float) : jsstr :=
  js "BAR " ++ comma [x; y; width; height].

Definition buildTsplBox (x y width height thickness : spec_float) : jsstr :=
  js "BOX " ++ comma [x; y; fadd x width; fadd y height; thickness].

(** ** raster.ts: packing *)

(** [byte.toString(16).toUpperCase().padStart(2, "0")] of a byte. *)
Definition hex_digit (n : Z) : Z := if n <? 10 then 48 + n else 55 + n.
Definition hex_byte (b : Z) : jsstr := [hex_digit (b / 16); hex_digit (b mod 16)].

(** [bitmap[pixelIndex] === 1] inside the row. *)
Definition black_at (bitmap : list Z) (width pixelX y : Z) : bool :=
  (pixelX <? width) && bool_decide (bitmap !! Z.to_nat (y * width + pixelX) = Some 1).

(** One byte of a row: [byte |= 1 << (7 - bit)]. *)
Definition packed_byte (bitmap : list Z) (width x y : Z) : Z :=
  fold_left (fun byte bit => if black_at bitmap width (x * 8 + bit) y
                             then Z.lor byte (Z.shiftl 1 (7 - bit)) else byte)
    (MonoRaster.upto 8) 0.

(** The raster [bitmapToZplHex] packs, with the size its callers merge in. *)
Definition bitmapToZplHex (bitmap : list Z) (width height : Z) : RasterResult :=
  let bytesPerRow := MonoRaster.ceil8 width in
  {| MonoRaster.hex := concat (map (fun y => concat (map (fun x => hex_byte (packed_byte bitmap width x y))
                                                       (MonoRaster.upto bytesPerRow)))
                                 (MonoRaster.upto height));
     MonoRaster.totalBytes := bytesPerRow * height; MonoRaster.bytesPerRow := bytesPerRow;
     MonoRaster.r_width := width; MonoRaster.r_height := height |}.

(** ** label-logo.ts *)

(** The raster of a bitmap: its bytes in uppercase hexadecimal. *)
Definition raster_of_bitmap (b : MonoRaster.MonoBitmap) : RasterResult :=
  {| MonoRaster.hex := concat (map hex_byte (MonoRaster.bm_pixels b));
     MonoRaster.totalBytes := Z.of_nat (length (MonoRaster.bm_pixels b));
     MonoRaster.bytesPerRow := MonoRaster.bm_stride b;
     MonoRaster.r_width := MonoRaster.bm_width b; MonoRaster.r_height := MonoRaster.bm_height b |}.

(** [scaleMonoBitmap] of numbers: what is not an integer is refused like an
    integer out of range. *)
Definition scale_to (logo : MonoRaster.MonoBitmap) (w h : spec_float) : result MonoRaster.MonoBitmap :=
  match math_round w, math_round h with
  | Some w', Some h' => MonoRaster.scaleMonoBitmap logo w' h'
  | _, _ => _ ← MonoRaster.validateMonoBitmap logo; throw "LABEL_SHEET_BOUNDS"
  end.

Definition renderLabelLogo (element : LabelOrganizationLogoElement) (dpi : Z)
    (logo : MonoRaster.MonoBitmap) : result (spec_float * spec_float * RasterResult) :=
  _ ← MonoRaster.validateMonoBitmap logo;
  let maxW := mmToDots (o_widthMm element) dpi in
  let maxH := mmToDots (o_heightMm element) dpi in
  let w := float_of_Z (MonoRaster.bm_width logo) in
  let h := float_of_Z (MonoRaster.bm_height logo) in
  let scale := js_min (fdiv maxW w) (fdiv maxH h) in
  let one := float_of_Z 1 in
  bitmap ← scale_to logo (js_max one (js_round (fmul w scale))) (js_max one (js_round (fmul h scale)));
  let yDots := fadd (mmToDots (yMm (o_base element)) dpi)
                 (js_floor (fdiv (fsub maxH (float_of_Z (MonoRaster.bm_height bitmap))) (float_of_Z 2))) in
  Ok (mmToDots (xMm (o_base element)) dpi, yDots, raster_of_bitmap bitmap).

(** ** barcodes/gs1-data-matrix.ts *)

(** [value.replace(/\^/g, "^^")]. *)
Definition escapeValue (value : jsstr) : jsstr :=
  flat_map (fun c => if c =? 94 then [94; 94] else [c]) value.

Definition toGs1Data (raw : jsstr) : result jsstr :=
  seg ← Km.parseKmSegments raw;
  let trailing := flat_map (fun a => js "^FNC1" ++ Km.ai a ++ escapeValue (Km.value a)) (Km.seg_ais seg) in
  Ok (js "01" ++ Km.seg_gtin14 seg ++ js "21" ++ escapeValue (Km.seg_serial seg) ++ trailing).

(** What the encoder of bwip-js returns for one symbol. *)
Record ModuleGrid := { pixs : list Z; pixx : Z; pixy : Z }.

Definition isModuleGrid (g : ModuleGrid) : bool :=
  (0 <? pixx g) && (0 <? pixy g) && (pixx g <=? 144) && (pixy g <=? 144)
  && (Z.of_nat (length (pixs g)) =? pixx g * pixy g)
  && forallb (fun pixel => (pixel =? 0) || (pixel =? 1)) (pixs g).

(** [Number.isSafeInteger(x)], and that integer. *)
Definition safe_integer_of (x : spec_float) : option Z :=
  match math_round x with
  | Some z => if SFeqb (float_of_Z z) x && safe_int z then Some z else None
  | None => None
  end.

(** [pixels.fill(1, start, end)]. *)
Definition fill (start stop : Z) (pixels : list Z) : list Z :=
  imap (fun i p => if (start <=? Z.of_nat i) && (Z.of_nat i <? stop) then 1 else p) pixels.

(** The three nested loops. *)
Definition draw_modules (symbol : ModuleGrid) (sideDots scale left top : Z) : list Z :=
  fold_left (fun pixels '(column, row) =>
      if bool_decide (pixs symbol !! Z.to_nat (row * pixx symbol + column) = Some 1)
      then fold_left (fun pixels dy =>
             let start := (top + row * scale + dy) * sideDots + left + column * scale in
             fill start (start + scale) pixels) (MonoRaster.upto scale) pixels
      else pixels)
    (MonoRaster.coordinates (pixx symbol) (pixy symbol)) (replicate (Z.to_nat (sideDots * sideDots)) 0).

Section DataMatrix.
(** [bwipjs.raw] of third-party code: the symbols, or an exception. *)
Variable bwip_raw : jsstr -> option (list ModuleGrid).

Definition rasterizeGs1DataMatrix (raw : jsstr) (side : spec_float) : result RasterResult :=
  canonical ← ProductLabel.parseDuplicateKm raw;
  match safe_integer_of side with
  | None => throw "DUPLICATE_LABEL_TOO_SMALL"
  | Some sideDots =>
      if (sideDots <? 1) || SFltb (mmToDots (float_of_Z 300) 300) side
      then throw "DUPLICATE_LABEL_TOO_SMALL"
      else
        match toGs1Data (Km.raw canonical) with
        | Throw _ => throw "DUPLICATE_LABEL_ENCODING_FAILED"
        | Ok data =>
            match bwip_raw (js "^FNC1" ++ data) with
            | Some [symbol] =>
                if negb (isModuleGrid symbol) then throw "DUPLICATE_LABEL_ENCODING_FAILED"
                else
                  let scale := sideDots / (Z.max (pixx symbol) (pixy symbol) + 2) in
                  if scale <? 1 then throw "DUPLICATE_LABEL_TOO_SMALL"
                  else
                    let left := (sideDots - pixx symbol * scale) / 2 in
                    let top := (sideDots - pixy symbol * scale) / 2 in
                    Ok (bitmapToZplHex (draw_modules symbol sideDots scale left top) sideDots sideDots)
            | _ => throw "DUPLICATE_LABEL_ENCODING_FAILED"
            end
        end
  end.
End DataMatrix.

(** ** What both emitters do with a text *)

(** The drawn branch: text the printer's own font cannot be trusted with, or a
    style only the bundled fonts have. *)
Definition drawn (shape : TextShape) (text : jsstr) : bool :=
  needsImageRendering text || bool_decide (is_Some (lineHeight shape))
  || bool_decide (is_Some (fontFamily shape)).

Definition maxWidthDots (shape : TextShape) (dpi : Z) : option spec_float :=
  (fun w => mmToDots w dpi) <$> maxWidthMm shape.

Definition raster_options (shape : TextShape) (dpi : Z) : RasterizeTextOptions :=
  {| ro_fontFamily := default sans_serif (fontFamily shape);
     ro_minFontSizePx := (fun pt => ptToDots pt dpi) <$> minFontSizePt shape;
     ro_lineHeight := lineHeight shape; ro_fontSizePx := ptToDots (fontSizePt shape) dpi;
     ro_bold := default false (bold shape); ro_maxWidthPx := maxWidthDots shape dpi;
     ro_maxLines := default 1 (maxLines shape) |}.

(** [GenerateZplDeps] and [GenerateTsplDeps]. *)
Record LabelDeps := {
  rasterizeText : option RasterizeTextFn; logo : option MonoRaster.MonoBitmap; kmRaster : bool
}.

(** A marking code is drawn by the host instead of the printer. *)
Definition drawn_code (deps : LabelDeps) (e : LabelBarcodeElement) : bool :=
  bool_decide (format e = datamatrix) && bool_decide (b_data e = SourceField km_code) && kmRaster deps.

(** The drawn text and the dot its left edge is at. *)
Definition drawText (deps : LabelDeps) (base : Base) (shape : TextShape) (text : jsstr) (dpi : Z)
  : result (spec_float * RasterResult) :=
  match rasterizeText deps with
  | None => throw "RASTER_REQUIRED"
  | Some draw =>
      raster ← draw text (raster_options shape dpi);
      let offsetXDots := rasterAlignOffsetDots (align shape) (maxWidthDots shape dpi)
                           (float_of_Z (MonoRaster.r_width raster)) in
      Ok (fadd (mmToDots (xMm base) dpi) offsetXDots, raster)
  end.

Definition resolveBarcodeSource (source : BarcodeSource) (data : LabelData)
  : jsstr * option LabelField :=
  match source with
  | SourceField f => (data f, Some f)
  | SourceLiteral l => (l, None)
  end.

(** ** print-label.ts of the station *)

(** [text.charCodeAt(i) & 0xff] of every unit. *)
Definition latin1ToBytes (text : jsstr) : list Z := map (fun c => Z.land c 0xff) text.

(** ** Lemmas *)

(** Two ways of concatenating the same pieces. *)
Ltac flatten :=
  js_lits; repeat (progress (cbn [app]; rewrite ?app_nil_r, <- ?app_assoc)); reflexivity.

(** The characters printer commands give a meaning to are none of those. *)
Lemma number_text_free c s :
  number_text s = true -> number_char c = false -> c ∉ s.
Proof.
  unfold number_text. rewrite forallb_forall. intros H Hc Hin.
  apply list_elem_of_In, H in Hin. congruence.
Qed.

Definition ascii_text (s : jsstr) : Prop := Forall (fun c => 0x20 <= c <= 0x7e) s.

(** A text the emitters hand to the printer's own font is printable ASCII. *)
Lemma needsImageRendering_ascii s : needsImageRendering s = false <-> ascii_text s.
Proof.
  unfold needsImageRendering, ascii_text.
  destruct (Wrap.code_points_spec s) as [Hc Hs]. rewrite <- Hc at 2. clear Hc.
  induction Hs as [|ch l Hch Hl IH]; cbn [existsb concat]; [done|].
  rewrite orb_false_iff, Forall_app, IH, negb_false_iff. apply and_iff_compat_r.
  unfold isPrintableAscii.
  destruct Hch as [[c ->]|(a & b & -> & Ha & Hb)]; cbn [codePointAt].
  - rewrite Forall_singleton. rewrite andb_true_iff, !Z.leb_le. done.
  - unfold is_high_surrogate, is_low_surrogate in *. bool_hyps.
    rewrite andb_true_iff, !Z.leb_le, !Forall_cons. lia.
Qed.

(** A raster whose text has two hexadecimal digits for every byte it announces. *)
Definition raster_ok (r : RasterResult) : Prop :=
  forallb MonoRaster.is_hex_digit (MonoRaster.hex r) = true
  /\ Z.of_nat (length (MonoRaster.hex r)) = 2 * MonoRaster.totalBytes r
  /\ MonoRaster.totalBytes r = MonoRaster.bytesPerRow r * MonoRaster.r_height r
  /\ 0 <= MonoRaster.bytesPerRow r /\ 0 <= MonoRaster.r_height r.

Lemma hex_byte_digits b : 0 <= b <= 255 -> forallb MonoRaster.is_hex_digit (hex_byte b) = true.
Proof.
  intros Hb. assert (0 <= b / 16 < 16) by (split; [apply Z.div_pos|apply Z.div_lt_upper_bound]; lia).
  pose proof (Z.mod_pos_bound b 16 ltac:(lia)).
  assert (Hd : forall n, 0 <= n < 16 -> MonoRaster.is_hex_digit (hex_digit n) = true).
  { intros n Hn. unfold hex_digit, MonoRaster.is_hex_digit, is_digit. destruct (Z.ltb_spec n 10).
    - rewrite (proj2 (Z.leb_le 48 _)), (proj2 (Z.leb_le (48 + n) 57)) by lia. done.
    - rewrite (proj2 (Z.leb_le 65 _)), (proj2 (Z.leb_le (55 + n) 70)) by lia. apply orb_true_r. }
  cbn [hex_byte forallb]. by rewrite !Hd.
Qed.

Lemma hex_bytes_digits bs :
  forallb MonoRaster.is_byte bs = true -> forallb MonoRaster.is_hex_digit (concat (map hex_byte bs)) = true.
Proof.
  induction bs as [|b bs IH]; [done|]. cbn [forallb map concat]. intros H. bool_hyps.
  rewrite forallb_app, IH, hex_byte_digits; [done| |done].
  unfold MonoRaster.is_byte in *. bool_hyps. lia.
Qed.

Lemma length_hex_bytes bs : length (concat (map hex_byte bs)) = (2 * length bs)%nat.
Proof. induction bs as [|b bs IH]; [done|]. cbn [map concat]. rewrite length_app, IH. cbn. lia. Qed.

(** Reading the digits back gives the bytes. *)
Lemma parse_hex_byte b s :
  0 <= b <= 255 -> MonoRaster.parse_hex_bytes (hex_byte b ++ s) = b :: MonoRaster.parse_hex_bytes s.
Proof.
  intros Hb. assert (0 <= b / 16 < 16) by (split; [apply Z.div_pos|apply Z.div_lt_upper_bound]; lia).
  pose proof (Z.mod_pos_bound b 16 ltac:(lia)). pose proof (Z.div_mod b 16 ltac:(lia)).
  assert (Hv : forall n, 0 <= n < 16 -> MonoRaster.hex_value (hex_digit n) = n).
  { intros n Hn. unfold hex_digit, MonoRaster.hex_value, is_digit. destruct (Z.ltb_spec n 10).
    - rewrite (proj2 (Z.leb_le 48 _)), (proj2 (Z.leb_le (48 + n) 57)) by lia. cbn. lia.
    - rewrite (proj2 (Z.leb_gt (55 + n) 57)), andb_false_r, (proj2 (Z.leb_gt 97 _)) by lia. lia. }
  cbn [hex_byte app MonoRaster.parse_hex_bytes]. rewrite !Hv by done. f_equal. lia.
Qed.

Lemma parse_hex_bytes_concat bs :
  forallb MonoRaster.is_byte bs = true -> MonoRaster.parse_hex_bytes (concat (map hex_byte bs)) = bs.
Proof.
  induction bs as [|b bs IH]; [done|]. cbn [forallb map concat]. intros H. bool_hyps.
  unfold MonoRaster.is_byte in *. bool_hyps. rewrite parse_hex_byte by lia. by rewrite IH.
Qed.

Lemma byte_land b : MonoRaster.is_byte b = true <-> Z.land b 0xff = b.
Proof.
  unfold MonoRaster.is_byte. change (Z.land b 0xff) with (Z.land b (Z.ones 8)).
  rewrite Z.land_ones by lia.
  rewrite andb_true_iff, !Z.leb_le. split; intros H.
  - apply Z.mod_small. lia.
  - pose proof (Z.mod_pos_bound b (2 ^ 8) ltac:(lia)). lia.
Qed.

Lemma byte_lor a b :
  MonoRaster.is_byte a = true -> MonoRaster.is_byte b = true -> MonoRaster.is_byte (Z.lor a b) = true.
Proof. rewrite !byte_land, Z.land_lor_distr_l. congruence. Qed.

Lemma byte_bit k : 0 <= k < 8 -> MonoRaster.is_byte (Z.shiftl 1 k) = true.
Proof.
  intros Hk. assert (k ∈ seqZ 0 8) as Hin by (apply elem_of_seqZ; lia).
  revert Hin. clear Hk. revert k. apply Forall_forall. repeat constructor.
Qed.

Lemma fold_byte {A} (f : Z -> A -> Z) l : forall b,
  MonoRaster.is_byte b = true ->
  (forall b a, a ∈ l -> MonoRaster.is_byte b = true -> MonoRaster.is_byte (f b a) = true) ->
  MonoRaster.is_byte (fold_left f l b) = true.
Proof.
  induction l as [|a l IH]; intros b Hb Hf; cbn [fold_left]; [done|].
  apply IH; [apply Hf; [left|done]|]. intros b' a' Hin. apply Hf. by right.
Qed.

Lemma packed_byte_byte bitmap width x y : MonoRaster.is_byte (packed_byte bitmap width x y) = true.
Proof.
  apply fold_byte; [done|]. intros b bit Hin Hb. apply elem_of_seqZ in Hin.
  case_match; [|done]. apply byte_lor; [done|]. apply byte_bit. lia.
Qed.

Lemma forallb_all {A} (p : A -> bool) l : (forall a, p a = true) -> forallb p l = true.
Proof. intros H. by apply forallb_forall. Qed.

(** The bytes [bitmapToZplHex] packs, row by row. *)
Definition packed_bytes (bitmap : list Z) (width height : Z) : list Z :=
  concat (map (fun y => map (fun x => packed_byte bitmap width x y) (MonoRaster.upto (MonoRaster.ceil8 width)))
            (MonoRaster.upto height)).

Lemma bitmapToZplHex_hex bitmap width height :
  MonoRaster.hex (bitmapToZplHex bitmap width height)
  = concat (map hex_byte (packed_bytes bitmap width height)).
Proof.
  unfold packed_bytes. cbn [bitmapToZplHex MonoRaster.hex].
  rewrite concat_map, map_map. induction (MonoRaster.upto height) as [|y ys IH]; [done|].
  cbn [map concat]. rewrite IH, concat_app, map_map. done.
Qed.

Lemma length_concat_rows {A B} (f : A -> list B) (n : nat) l :
  (forall a, length (f a) = n) -> length (concat (map f l)) = (n * length l)%nat.
Proof.
  intros H. induction l as [|a l IH]; cbn [map concat length]; [lia|].
  rewrite length_app, H, IH. lia.
Qed.

Lemma length_packed_bytes bitmap width height :
  length (packed_bytes bitmap width height)
  = (Z.to_nat (MonoRaster.ceil8 width) * Z.to_nat height)%nat.
Proof.
  unfold packed_bytes. rewrite (length_concat_rows _ (Z.to_nat (MonoRaster.ceil8 width))).
  - unfold MonoRaster.upto. by rewrite length_seqZ.
  - intros y. unfold MonoRaster.upto. by rewrite length_map, length_seqZ.
Qed.

Lemma packed_bytes_byte bitmap width height :
  forallb MonoRaster.is_byte (packed_bytes bitmap width height) = true.
Proof.
  unfold packed_bytes. rewrite forallb_concat, forallb_map. apply forallb_all. intros y.
  rewrite forallb_map. apply forallb_all. intros x. apply packed_byte_byte.
Qed.

Lemma bitmapToZplHex_ok bitmap width height :
  0 <= width -> 0 <= height -> raster_ok (bitmapToZplHex bitmap width height).
Proof.
  intros Hw Hh. pose proof (MonoRaster.ceil8_bounds width).
  repeat split; cbn [bitmapToZplHex MonoRaster.bytesPerRow MonoRaster.r_height]; try lia.
  - rewrite bitmapToZplHex_hex. apply hex_bytes_digits, packed_bytes_byte.
  - rewrite bitmapToZplHex_hex, length_hex_bytes, length_packed_bytes.
    change (MonoRaster.totalBytes _) with (MonoRaster.ceil8 width * height).
    rewrite !Nat2Z.inj_mul, !Z2Nat.id by lia. lia.
Qed.

Lemma rasterizeGs1DataMatrix_ok bwip raw side r :
  rasterizeGs1DataMatrix bwip raw side = Ok r -> raster_ok r.
Proof.
  unfold rasterizeGs1DataMatrix. intros (km & _ & H)%bind_ok_inv. case_in H. cbv zeta in H.
  case_in H. injection H as <-. apply orb_false_iff in E0 as [E0 _].
  bool_hyps. apply bitmapToZplHex_ok; lia.
Qed.

Lemma draw_bytes w h black : forallb MonoRaster.is_byte (MonoRaster.bm_pixels (MonoRaster.draw w h black)) = true.
Proof.
  unfold MonoRaster.draw. cbn [MonoRaster.bm_pixels].
  set (st := MonoRaster.ceil8 w). generalize (MonoRaster.coordinates w h). intros cs.
  assert (Hps : forallb MonoRaster.is_byte (replicate (Z.to_nat (st * h)) 0) = true).
  { apply forallb_forall. intros b Hb%list_elem_of_In. by apply elem_of_replicate in Hb as [-> _]. }
  revert Hps. generalize (replicate (Z.to_nat (st * h)) 0). clearbody st.
  induction cs as [|[x y] cs IH]; intros ps Hps; cbn [fold_left]; [done|].
  apply IH. case_match; [|done]. unfold MonoRaster.set_pixel.
  apply Is_true_true, forallb_True, Forall_insert.
  - apply forallb_True. by apply Is_true_true.
  - apply Is_true_true, byte_lor.
    + unfold MonoRaster.pixel_byte. destruct (nth_in_or_default (Z.to_nat (y * st + Z.shiftr x 3)) ps 0) as [Hin| ->]; [|done].
      rewrite forallb_forall in Hps. by apply Hps.
    + rewrite MonoRaster.mask_bit by (apply Z.mod_pos_bound; lia).
      pose proof (Z.mod_pos_bound x 8 ltac:(lia)).
      rewrite <- (Z.mul_1_l (2 ^ _)), <- Z.shiftl_mul_pow2 by lia. apply byte_bit. lia.
Qed.

Lemma scaleMonoBitmap_ok b w h out :
  MonoRaster.scaleMonoBitmap b w h = Ok out -> raster_ok (raster_of_bitmap out).
Proof.
  unfold MonoRaster.scaleMonoBitmap. intros (u & _ & H)%bind_ok_inv. case_in H.
  injection H as <-. bool_hyps. pose proof (MonoRaster.ceil8_bounds w).
  assert (Hl : forall black, Z.of_nat (length (MonoRaster.bm_pixels (MonoRaster.draw w h black)))
                             = MonoRaster.ceil8 w * h).
  { intros black. unfold MonoRaster.draw. cbn [MonoRaster.bm_pixels].
    assert (Hf : forall cs ps, length (fold_left (fun ps '(x, y) =>
        if black x y then MonoRaster.set_pixel (MonoRaster.ceil8 w) ps x y else ps) cs ps) = length ps).
    { induction cs as [|[x y] cs IH]; intros ps; cbn [fold_left]; [done|].
      rewrite IH. case_match; [apply MonoRaster.length_set_pixel | done]. }
    rewrite Hf, length_replicate. lia. }
  repeat split.
  - apply hex_bytes_digits, draw_bytes.
  - cbn [raster_of_bitmap MonoRaster.hex MonoRaster.totalBytes]. rewrite length_hex_bytes. lia.
  - cbn [raster_of_bitmap MonoRaster.totalBytes]. apply Hl.
  - cbn. lia.
  - cbn. lia.
Qed.

Lemma renderLabelLogo_ok element dpi logo x y r :
  renderLabelLogo element dpi logo = Ok (x, y, r) -> raster_ok r.
Proof.
  unfold renderLabelLogo. intros (u & _ & H)%bind_ok_inv. cbv zeta in H.
  apply bind_ok_inv in H as (b & Hb & H). injection H as _ _ <-.
  unfold scale_to in Hb. case_in Hb.
  - by eapply scaleMonoBitmap_ok.
  - apply bind_ok_inv in Hb as (? & _ & ?). done.
  - apply bind_ok_inv in Hb as (? & _ & ?). done.
Qed.

(** ** Two computations that fail together *)

Definition result_rel {A B} (R : A -> B -> Prop) (r : result A) (s : result B) : Prop :=
  match r, s with
  | Ok a, Ok b => R a b
  | Throw e, Throw e' => e = e'
  | _, _ => False
  end.

(** The same value is read, or the same exception thrown, before they go on. *)
Lemma result_rel_bind {A B C} (R : B -> C -> Prop) (r : result A) (f : A -> result B) (g : A -> result C) :
  (forall a, r = Ok a -> result_rel R (f a) (g a)) -> result_rel R (r ≫= f) (r ≫= g).
Proof. destruct r as [a|e]; cbn; auto. Qed.

Lemma result_rel_seq {A B C D} (R : A -> B -> Prop) (S : C -> D -> Prop) r s (f : A -> result C) (g : B -> result D) :
  result_rel R r s -> (forall a b, R a b -> result_rel S (f a) (g b)) -> result_rel S (r ≫= f) (s ≫= g).
Proof. destruct r, s; cbn; auto; done. Qed.

(** The rasterizer of the host packs what it announces. *)
Definition rasterizer_ok (deps : LabelDeps) : Prop :=
  forall draw, rasterizeText deps = Some draw -> forall text opts r, draw text opts = Ok r -> raster_ok r.

Lemma drawText_ok deps base shape text dpi x r :
  rasterizer_ok deps -> drawText deps base shape text dpi = Ok (x, r) -> raster_ok r.
Proof.
  intros Hr. unfold drawText. destruct (rasterizeText deps) as [draw|] eqn:E; [|done].
  intros (r' & Hr' & H)%bind_ok_inv. injection H as _ <-. by eapply Hr.
Qed.

(** ** Bytes of a document *)

Definition byte_text (s : jsstr) : Prop := Forall (fun c => 0 <= c <= 255) s.

Lemma byte_text_spec s : byte_text s <-> forallb MonoRaster.is_byte s = true.
Proof.
  unfold byte_text. rewrite Forall_forall, forallb_forall. unfold MonoRaster.is_byte.
  split; intros H c Hc.
  - apply list_elem_of_In in Hc. apply andb_true_iff. rewrite !Z.leb_le. by apply H.
  - apply list_elem_of_In in Hc. apply H, andb_true_iff in Hc as [? ?]. by rewrite <- !Z.leb_le.
Qed.

Lemma byte_text_app s t : byte_text (s ++ t) <-> byte_text s /\ byte_text t.
Proof. apply Forall_app. Qed.

Lemma latin1_bytes s : byte_text s -> latin1ToBytes s = s.
Proof.
  induction 1 as [|c s Hc Hs IH]; [done|]. unfold latin1ToBytes in *. cbn [map]. rewrite IH.
  f_equal. apply byte_land. unfold MonoRaster.is_byte. apply andb_true_iff. rewrite !Z.leb_le. lia.
Qed.

Lemma latin1_app s t : latin1ToBytes (s ++ t) = latin1ToBytes s ++ latin1ToBytes t.
Proof. apply map_app. Qed.

(** [lines.join] and the final line feed: every line is closed by one. *)
Lemma join_lines l rest :
  join [LF] (l ++ [rest]) ++ [LF] = concat (map (fun l => l ++ [LF]) (l ++ [rest])).
Proof.
  induction l as [|a l IH]; cbn [app map concat]; [by rewrite app_nil_r|].
  rewrite <- IH. destruct l; cbn [join app]; by rewrite <- ?app_assoc.
Qed.

Lemma Forall2_imap {A B C} (R : B -> C -> Prop) (f : nat -> A -> B) (g : nat -> A -> C) l :
  (forall i a, a ∈ l -> R (f i a) (g i a)) -> Forall2 R (imap f l) (imap g l).
Proof.
  revert f g. induction l as [|a l IH]; intros f g H; cbn [imap]; constructor.
  - apply H. left.
  - apply IH. intros i b Hb. apply (H (S i)). by right.
Qed.

(** The codes left to the printer are made of bytes. *)
Definition codes_latin1 (data : LabelData) (deps : LabelDeps) (els : list LabelElement) : Prop :=
  forall e, BarcodeElement e ∈ els -> drawn_code deps e = false ->
    byte_text (resolveBarcodeSource (b_data e) data).1.
