(* ===== verification/Zpl.v ===== *)
(** * The ZPL emitter

    [packages/domain/src/labels/zpl.ts]: the document [generateZpl] writes for a
    template, and a reader of the format that knows nothing of templates.  The
    reader follows Zebra's grammar as the source documents it: a command starts
    at a caret or a tilde, field data runs to the next one, and [^FH_] makes the
    underscore an escape of two hexadecimal digits.  The main theorem says that
    whatever the texts and codes are, the reader finds one field per printed
    element, with the text and the code that were meant. *)

From stdpp Require Import base list strings gmap.
From Stdlib Require Import ZArith Lia.
From Stdlib Require Import SpecFloat.
From S2P Require Import Prelude Doubles JsNumber LabelModel.
From S2P Require Gs1 Km MonoRaster.

(** ** The emitter *)

Definition CARET : Z := 94.
Definition TILDE : Z := 126.
Definition HEX_INDICATOR : Z := 95.

(** [ch.charCodeAt(0).toString(16).toUpperCase().padStart(2, "0")] of a unit
    below 256. *)
Definition hexEscapeByte (ch : Z) : jsstr := HEX_INDICATOR :: hex_byte ch.

(** [/[\^~_]/]. *)
Definition fd_special (c : Z) : bool := (c =? CARET) || (c =? TILDE) || (c =? HEX_INDICATOR).

Definition escape_specials (text : jsstr) : jsstr :=
  flat_map (fun c => if fd_special c then hexEscapeByte c else [c]) text.

Definition escapeFdData (text : jsstr) : jsstr * jsstr :=
  if negb (existsb fd_special text) then ([], text)
  else (js "^FH_", escape_specials text).

Definition renderGs1DataMatrixTail (raw : jsstr) : jsstr :=
  let escaped := flat_map (fun c => if c =? Km.GS then js "_1D" else [c]) (escape_specials raw) in
  js "^FH_^FD_1" ++ escaped ++ js "^FS".

Definition alignToJustification (align : option Align) : jsstr :=
  match align with Some align_center => js "C" | Some align_right => js "R" | _ => js "L" end.

(** [^FO<x>,<y>], [^FD<data>^FS] with the prefix the data need. *)
Definition field_origin (x y : spec_float) : jsstr := js "^FO" ++ comma [x; y].
Definition field_data (prefix text : jsstr) : jsstr :=
  let '(fh, data) := escapeFdData text in fh ++ js "^FD" ++ prefix ++ data ++ js "^FS".

Definition renderTextLikeElement (base : Base) (shape : TextShape) (text : jsstr) (dpi : Z)
    (deps : LabelDeps) : result jsstr :=
  let x := mmToDots (xMm base) dpi in
  let y := mmToDots (yMm base) dpi in
  if drawn shape text then
    '(leftDots, raster) ← drawText deps base shape text dpi;
    Ok (field_origin leftDots y ++ buildGfaCommand raster ++ js "^FS")
  else
    let heightDots := js_of_number (ptToDots (fontSizePt shape) dpi) in
    let font := js "^A0N," ++ heightDots ++ js "," ++ heightDots in
    match maxWidthMm shape with
    | Some w =>
        let block := js "^FB" ++ js_of_number (mmToDots w dpi) ++ js "," ++ js_of_Z (default 1 (maxLines shape))
                     ++ js ",0," ++ alignToJustification (align shape) ++ js ",0" in
        Ok (field_origin x y ++ font ++ block ++ field_data [] text)
    | None => Ok (field_origin x y ++ font ++ field_data [] text)
    end.

(** [Math.max(1, Math.min(10, dots))]. *)
Definition clamp10 (dots : spec_float) : spec_float :=
  js_max (float_of_Z 1) (js_min (float_of_Z 10) dots).

Definition barWidthCommand (element : LabelBarcodeElement) (dpi : Z) : jsstr :=
  match moduleWidthMm element with
  | None => []
  | Some w => js "^BY" ++ js_of_number (clamp10 (mmToDots w dpi))
  end.

Definition renderZplBarcodeElement (element : LabelBarcodeElement) (data : LabelData) (dpi : Z)
    (ean13IncludeText : bool) : jsstr :=
  let x := mmToDots (xMm (b_base element)) dpi in
  let y := mmToDots (yMm (b_base element)) dpi in
  let size := js_of_number (mmToDots (sizeMm element) dpi) in
  let '(value, field) := resolveBarcodeSource (b_data element) data in
  field_origin x y ++
  match format element with
  | code128 =>
      let payload := if bool_decide (field = Some sscc) then js ">;>800" ++ value else value in
      barWidthCommand element dpi ++ js "^BCN," ++ size ++ js ",N,N,N" ++ field_data [] payload
  | ean13 =>
      barWidthCommand element dpi ++ js "^BEN," ++ size
      ++ (if ean13IncludeText then [] else js ",N") ++ field_data [] value
  | datamatrix =>
      js "^BXN," ++ size ++ js ",200,,,,_"
      ++ (if bool_decide (field = Some km_code) then renderGs1DataMatrixTail value
          else field_data [] value)
  | qr =>
      js "^BQN,2," ++ js_of_number (clamp10 (mmToDots (sizeMm element) dpi))
      ++ field_data (js "QA,") value
  end.

Definition renderLineElement (e : LabelLineElement) (dpi : Z) : jsstr :=
  let thicknessDots := mmToDots (l_thicknessMm e) dpi in
  let spanXDots := mmToDots (SFabs (fsub (x2Mm e) (xMm (l_base e)))) dpi in
  let spanYDots := mmToDots (SFabs (fsub (y2Mm e) (yMm (l_base e)))) dpi in
  buildZplBox (mmToDots (js_min (xMm (l_base e)) (x2Mm e)) dpi)
    (mmToDots (js_min (yMm (l_base e)) (y2Mm e)) dpi)
    (js_max spanXDots thicknessDots) (js_max spanYDots thicknessDots) thicknessDots.

Definition renderBoxElement (e : LabelBoxElement) (dpi : Z) : jsstr :=
  buildZplBox (mmToDots (xMm (x_base e)) dpi) (mmToDots (yMm (x_base e)) dpi)
    (mmToDots (x_widthMm e) dpi) (mmToDots (x_heightMm e) dpi) (mmToDots (x_thicknessMm e) dpi).

(** [^FO<x>,<y>] and the image. *)
Definition image_field (x y : spec_float) (raster : RasterResult) : jsstr :=
  field_origin x y ++ buildGfaCommand raster ++ js "^FS".

Section Generate.
Variable bwip_raw : jsstr -> option (list ModuleGrid).

(** The body of the loop: the lines an element adds. *)
Definition zpl_element (spec : LabelTemplateSpec) (data : LabelData) (deps : LabelDeps)
    (element : LabelElement) : result (list jsstr) :=
  match element with
  | OrganizationLogo e =>
      match logo deps with
      | None => Ok []
      | Some l =>
          '(xDots, yDots, raster) ← renderLabelLogo e (dpi spec) l;
          Ok [image_field xDots yDots raster]
      end
  | TextElement base text shape =>
      line ← renderTextLikeElement base shape text (dpi spec) deps; Ok [line]
  | FieldElement base field textFormat shape =>
      text ← labelFieldDisplayValue field data textFormat;
      line ← renderTextLikeElement base shape text (dpi spec) deps; Ok [line]
  | BarcodeElement e =>
      if drawn_code deps e then
        raster ← rasterizeGs1DataMatrix bwip_raw (data km_code) (mmToDots (sizeMm e) (dpi spec));
        Ok [image_field (mmToDots (xMm (b_base e)) (dpi spec)) (mmToDots (yMm (b_base e)) (dpi spec)) raster]
      else Ok [renderZplBarcodeElement e data (dpi spec) true]
  | LineElement e => Ok [renderLineElement e (dpi spec)]
  | BoxElement e => Ok [renderBoxElement e (dpi spec)]
  end.

(** The loop: an element that throws ends it. *)
Fixpoint zpl_elements (spec : LabelTemplateSpec) (data : LabelData) (deps : LabelDeps)
    (els : list LabelElement) : result (list jsstr) :=
  match els with
  | [] => Ok []
  | e :: es =>
      lines ← zpl_element spec data deps e;
      rest ← zpl_elements spec data deps es;
      Ok (lines ++ rest)
  end.

Definition generateZpl (spec : LabelTemplateSpec) (data : LabelData) (deps : LabelDeps) : result jsstr :=
  lines ← zpl_elements spec data deps (elements spec);
  Ok (buildZplDocument (mmToDots (widthMm spec) (dpi spec)) (mmToDots (heightMm spec) (dpi spec)) lines).
End Generate.

(** ** A reader of ZPL *)

(** What a field prints: characters, and the function character of GS1 symbols. *)
Inductive data_char := Chr (c : Z) | FNC1.

#[export] Instance data_char_eq_dec : EqDecision data_char.
Proof. solve_decision. Defined.

(** A field: where it starts, its commands with their parameters, its data. *)
Record zfield := {
  zf_origin : list jsstr; zf_commands : list (jsstr * list jsstr); zf_data : option (list data_char)
}.

Record zlabel := { zl_width : jsstr; zl_length : jsstr; zl_fields : list zfield }.

#[export] Instance zfield_eq_dec : EqDecision zfield.
Proof. solve_decision. Defined.
#[export] Instance zlabel_eq_dec : EqDecision zlabel.
Proof. solve_decision. Defined.

Definition is_prefix (c : Z) : bool := (c =? CARET) || (c =? TILDE).

(** The text before the first prefix, and each prefix with what follows it. *)
Fixpoint commands (s : jsstr) : jsstr * list (Z * jsstr) :=
  match s with
  | [] => ([], [])
  | c :: s' =>
      let '(t, cs) := commands s' in
      if is_prefix c then ([], (c, t) :: cs) else (c :: t, cs)
  end.

(** Field data under a hexadecimal indicator. *)
Fixpoint unescape (indicator : Z) (s : jsstr) : jsstr :=
  match s with
  | c :: ((a :: b :: s') as rest) =>
      if (c =? indicator) && MonoRaster.is_hex_digit a && MonoRaster.is_hex_digit b
      then 16 * MonoRaster.hex_value a + MonoRaster.hex_value b :: unescape indicator s'
      else c :: unescape indicator rest
  | c :: rest => c :: unescape indicator rest
  | [] => []
  end.

(** A DataMatrix whose seventh parameter makes the underscore its own escape
    reads [_1] at the start of its data as FNC1. *)
Definition datamatrix_escape (cmds : list (jsstr * list jsstr)) : bool :=
  existsb (fun '(code, params) => bool_decide (code = js "BX") && bool_decide (params !! 6%nat = Some [HEX_INDICATOR]))
    cmds.

Definition decode_data (f : zfield) (indicator : option Z) (s : jsstr) : list data_char :=
  match indicator with
  | None => map Chr s
  | Some i =>
      if datamatrix_escape (zf_commands f) && starts_with (js "_1") s
      then FNC1 :: map Chr (unescape i (drop 2 s))
      else map Chr (unescape i s)
  end.

(** Parameters: line feeds are ignored, commas separate. *)
Definition params_of (body : jsstr) : list jsstr :=
  split_on 44 (List.filter (fun c => negb (c =? LF)) body).

Inductive zstate :=
| ZStart
| ZInside (width length : jsstr) (fields : list zfield)
| ZField (width length : jsstr) (fields : list zfield) (f : zfield) (indicator : option Z)
| ZEnd (label : zlabel).

(** One command; [None] is a format the reader refuses.  A label ends once. *)
Definition zpl_step (st : zstate) (command : Z * jsstr) : option zstate :=
  let '(prefix, body) := command in
  let code := take 2 body in
  let args := drop 2 body in
  let named c := bool_decide (code = js c) in
  if negb (prefix =? CARET) then None
  else match st with
  | ZStart => if named "XA" then Some (ZInside [] [] []) else None
  | ZInside w l fields =>
      if named "PW" then Some (ZInside (concat (params_of args)) l fields)
      else if named "LL" then Some (ZInside w (concat (params_of args)) fields)
      else if named "FO"
      then Some (ZField w l fields {| zf_origin := params_of args; zf_commands := []; zf_data := None |} None)
      else if named "XZ"
      then Some (ZEnd {| zl_width := w; zl_length := l; zl_fields := fields |})
      else None
  | ZField w l fields f ind =>
      if named "FS" then Some (ZInside w l (fields ++ [f]))
      else if named "FH"
      then Some (ZField w l fields f (Some (default HEX_INDICATOR (head (concat (params_of args))))))
      else if named "FD"
      then Some (ZField w l fields {| zf_origin := zf_origin f; zf_commands := zf_commands f;
                                      zf_data := Some (decode_data f ind args) |} ind)
      else if named "XA" || named "XZ" || named "PW" || named "LL" || named "FO" then None
      else Some (ZField w l fields {| zf_origin := zf_origin f;
                                      zf_commands := zf_commands f ++ [(code, params_of args)];
                                      zf_data := zf_data f |} ind)
  | ZEnd _ => None
  end.

Fixpoint zpl_run (st : zstate) (cs : list (Z * jsstr)) : option zstate :=
  match cs with
  | [] => Some st
  | c :: cs' => st' ← zpl_step st c; zpl_run st' cs'
  end.

Definition read_zpl (bytes : list Z) : option zlabel :=
  match commands bytes with
  | ([], cs) => match zpl_run ZStart cs with Some (ZEnd label) => Some label | _ => None end
  | _ => None
  end.

(** ** What should be printed *)

Definition chars (s : jsstr) : option (list data_char) := Some (map Chr s).
Definition xy_tokens (x y : spec_float) : list jsstr := [js_of_number x; js_of_number y].

(** An image: its byte count twice, the bytes of a row, the digits. *)
Definition image (x y : spec_float) (r : RasterResult) : zfield :=
  {| zf_origin := xy_tokens x y;
     zf_commands := [(js "GF", [js "A"; js_of_Z (MonoRaster.totalBytes r); js_of_Z (MonoRaster.totalBytes r);
                                js_of_Z (MonoRaster.bytesPerRow r); MonoRaster.hex r])];
     zf_data := None |}.

Definition frame (x y width height thickness : spec_float) : zfield :=
  {| zf_origin := xy_tokens x y; zf_commands := [(js "GB", map js_of_number [width; height; thickness])];
     zf_data := None |}.

Definition text_field (base : Base) (shape : TextShape) (text : jsstr) (dpi : Z) (deps : LabelDeps)
  : result zfield :=
  if drawn shape text then
    '(leftDots, raster) ← drawText deps base shape text dpi;
    Ok (image leftDots (mmToDots (yMm base) dpi) raster)
  else
    let h := js_of_number (ptToDots (fontSizePt shape) dpi) in
    Ok {| zf_origin := xy_tokens (mmToDots (xMm base) dpi) (mmToDots (yMm base) dpi);
          zf_commands := (js "A0", [js "N"; h; h]) ::
            match maxWidthMm shape with
            | None => []
            | Some w => [(js "FB", [js_of_number (mmToDots w dpi); js_of_Z (default 1 (maxLines shape));
                                    js "0"; alignToJustification (align shape); js "0"])]
            end;
          zf_data := chars text |}.

(** The module width of a linear code is pinned right before it. *)
Definition module_width (e : LabelBarcodeElement) (dpi : Z) : list (jsstr * list jsstr) :=
  match moduleWidthMm e with
  | None => []
  | Some w => [(js "BY", [js_of_number (clamp10 (mmToDots w dpi))])]
  end.

Definition barcode_field (e : LabelBarcodeElement) (data : LabelData) (dpi : Z) : zfield :=
  let size := js_of_number (mmToDots (sizeMm e) dpi) in
  let '(value, field) := resolveBarcodeSource (b_data e) data in
  let at_origin cmds d := {| zf_origin := xy_tokens (mmToDots (xMm (b_base e)) dpi) (mmToDots (yMm (b_base e)) dpi);
                             zf_commands := cmds; zf_data := d |} in
  match format e with
  | code128 =>
      at_origin (module_width e dpi ++ [(js "BC", [js "N"; size; js "N"; js "N"; js "N"])])
        (chars (if bool_decide (field = Some sscc) then js ">;>800" ++ value else value))
  | ean13 => at_origin (module_width e dpi ++ [(js "BE", [js "N"; size])]) (chars value)
  | datamatrix =>
      at_origin [(js "BX", [js "N"; size; js "200"; []; []; []; js "_"])]
        (if bool_decide (field = Some km_code) then Some (FNC1 :: map Chr value) else chars value)
  | qr =>
      at_origin [(js "BQ", [js "N"; js "2"; js_of_number (clamp10 (mmToDots (sizeMm e) dpi))])]
        (chars (js "QA," ++ value))
  end.

Definition line_field (e : LabelLineElement) (dpi : Z) : zfield :=
  let t := mmToDots (l_thicknessMm e) dpi in
  frame (mmToDots (js_min (xMm (l_base e)) (x2Mm e)) dpi) (mmToDots (js_min (yMm (l_base e)) (y2Mm e)) dpi)
    (js_max (mmToDots (SFabs (fsub (x2Mm e) (xMm (l_base e)))) dpi) t)
    (js_max (mmToDots (SFabs (fsub (y2Mm e) (yMm (l_base e)))) dpi) t) t.

Definition box_field (e : LabelBoxElement) (dpi : Z) : zfield :=
  frame (mmToDots (xMm (x_base e)) dpi) (mmToDots (yMm (x_base e)) dpi)
    (mmToDots (x_widthMm e) dpi) (mmToDots (x_heightMm e) dpi) (mmToDots (x_thicknessMm e) dpi).

Section Fields.
Variable bwip_raw : jsstr -> option (list ModuleGrid).

(** The fields of an element: none for a logo that is not there. *)
Definition element_fields (spec : LabelTemplateSpec) (data : LabelData) (deps : LabelDeps)
    (element : LabelElement) : result (list zfield) :=
  match element with
  | OrganizationLogo e =>
      match logo deps with
      | None => Ok []
      | Some l =>
          '(xDots, yDots, raster) ← renderLabelLogo e (dpi spec) l; Ok [image xDots yDots raster]
      end
  | TextElement base text shape => f ← text_field base shape text (dpi spec) deps; Ok [f]
  | FieldElement base field textFormat shape =>
      text ← labelFieldDisplayValue field data textFormat;
      f ← text_field base shape text (dpi spec) deps; Ok [f]
  | BarcodeElement e =>
      if drawn_code deps e then
        raster ← rasterizeGs1DataMatrix bwip_raw (data km_code) (mmToDots (sizeMm e) (dpi spec));
        Ok [image (mmToDots (xMm (b_base e)) (dpi spec)) (mmToDots (yMm (b_base e)) (dpi spec)) raster]
      else Ok [barcode_field e data (dpi spec)]
  | LineElement e => Ok [line_field e (dpi spec)]
  | BoxElement e => Ok [box_field e (dpi spec)]
  end.

Fixpoint label_fields (spec : LabelTemplateSpec) (data : LabelData) (deps : LabelDeps)
    (els : list LabelElement) : result (list zfield) :=
  match els with
  | [] => Ok []
  | e :: es =>
      fields ← element_fields spec data deps e;
      rest ← label_fields spec data deps es;
      Ok (fields ++ rest)
  end.

Definition label_of (spec : LabelTemplateSpec) (data : LabelData) (deps : LabelDeps) : result zlabel :=
  fields ← label_fields spec data deps (elements spec);
  Ok {| zl_width := js_of_number (mmToDots (widthMm spec) (dpi spec));
        zl_length := js_of_number (mmToDots (heightMm spec) (dpi spec)); zl_fields := fields |}.
End Fields.

(** ** Lemmas: the reader's tokens *)

Definition plain (s : jsstr) : Prop := Forall (fun c => is_prefix c = false) s.

Lemma commands_plain s t :
  plain s -> commands (s ++ CARET :: t) = (s, (CARET, (commands t).1) :: (commands t).2).
Proof.
  induction 1 as [|c s Hc Hs IH]; cbn [app commands].
  - destruct (commands t) as [u cs]. reflexivity.
  - rewrite IH, Hc. done.
Qed.

Lemma commands_plain_end s : plain s -> commands s = (s, []).
Proof. induction 1 as [|c s Hc Hs IH]; cbn [commands]; [done|]. by rewrite IH, Hc. Qed.

(** The commands of a text are cut where the next one starts. *)
Lemma commands_app s t :
  commands (s ++ CARET :: t) = ((commands s).1, (commands s).2 ++ (commands (CARET :: t)).2).
Proof.
  induction s as [|c s IH].
  - cbn [app commands fst snd]. destruct (commands t) as [u cs]. reflexivity.
  - cbn [app]. cbn [commands] in IH |- *. rewrite IH. clear IH. destruct (commands s) as [u cs].
    destruct (commands t) as [v ds]. cbn [fst snd]. by destruct (is_prefix c).
Qed.

(** A text made of whole commands. *)
Definition emit (bodies : list jsstr) : jsstr := concat (map (cons CARET) bodies).

Lemma emit_cons b bs : emit (b :: bs) = (CARET :: b) ++ emit bs.
Proof. reflexivity. Qed.

Lemma emit_app a b : emit (a ++ b) = emit a ++ emit b.
Proof. unfold emit. by rewrite map_app, concat_app. Qed.

Lemma commands_emit bodies :
  Forall plain bodies -> commands (emit bodies) = ([], map (pair CARET) bodies).
Proof.
  induction 1 as [|b bs Hb Hbs IH]; [done|].
  unfold emit in *. cbn [map concat app commands].
  assert (E : commands (b ++ concat (map (cons CARET) bs)) = (b, map (pair CARET) bs)).
  { destruct bs as [|b' bs]; cbn [map concat app] in *.
    - rewrite app_nil_r. by apply commands_plain_end.
    - cbn [commands] in IH. rewrite commands_plain by done.
      destruct (commands (b' ++ _)) as [u cs]. injection IH as -> ->. reflexivity. }
  by rewrite E.
Qed.

Lemma zpl_run_app cs ds : forall st, zpl_run st (cs ++ ds) = (st' ← zpl_run st cs; zpl_run st' ds).
Proof.
  induction cs as [|c cs IH]; intros st; [done|]. cbn [app zpl_run].
  destruct (zpl_step st c) as [st'|]; [apply IH|done].
Qed.

(** Characters of a parameter: no prefix, no separator, no line feed. *)
Definition param_char (c : Z) : bool :=
  MonoRaster.is_byte c && negb (is_prefix c || (c =? 44) || (c =? LF)).
Definition param_ok (s : jsstr) : bool := forallb param_char s.

Lemma param_ok_number s : number_text s = true -> param_ok s = true.
Proof.
  unfold number_text, param_ok. rewrite !forallb_forall. intros H c Hc. specialize (H c Hc).
  destruct (param_char c) eqn:E; [done|]. unfold param_char, is_prefix, LF, CARET, TILDE in E.
  apply andb_false_iff in E as [E|E].
  - exfalso. unfold number_char, is_digit, MonoRaster.is_byte in *.
    rewrite !orb_true_iff, !andb_true_iff, !Z.leb_le, !Z.eqb_eq in H.
    rewrite andb_false_iff, !Z.leb_gt in E. lia.
  - apply negb_false_iff in E. rewrite !orb_true_iff, !Z.eqb_eq in E.
    destruct E as [[[-> | ->]| ->]| ->]; discriminate.
Qed.

Lemma split_on_free c s : c ∉ s -> split_on c s = [s].
Proof.
  induction s as [|a s IH]; intros H; [done|]. cbn [split_on].
  apply not_elem_of_cons in H as [Ha Hs]. rewrite IH by done.
  by rewrite (proj2 (Z.eqb_neq a c)) by congruence.
Qed.

Lemma split_on_cons c s t : c ∉ s -> split_on c (s ++ c :: t) = s :: split_on c t.
Proof.
  induction s as [|a s IH]; intros H; cbn [app split_on]; [by rewrite Z.eqb_refl|].
  apply not_elem_of_cons in H as [Ha Hs]. rewrite IH by done.
  by rewrite (proj2 (Z.eqb_neq a c)) by congruence.
Qed.

(** [split] undoes [join] when the separator is in none of the parts. *)
Lemma split_on_join c parts :
  parts <> [] -> Forall (fun p => c ∉ p) parts -> split_on c (join [c] parts) = parts.
Proof.
  intros Hne H. induction H as [|p ps Hp Hps IH]; [done|].
  destruct ps as [|q ps]; cbn [join app]; [by apply split_on_free|].
  rewrite split_on_cons by done. f_equal. by apply IH.
Qed.

Lemma param_ok_free s c : param_ok s = true -> param_char c = false -> c ∉ s.
Proof.
  unfold param_ok. rewrite forallb_forall. intros H Hc Hin.
  apply list_elem_of_In, H in Hin. congruence.
Qed.

Lemma params_ok_join ps :
  Forall (fun p => param_ok p = true) ps -> forallb (fun c => negb (is_prefix c || (c =? LF))) (join [44] ps) = true.
Proof.
  intros H. induction H as [|p ps Hp Hps IH]; [done|].
  assert (Hp' : forallb (fun c => negb (is_prefix c || (c =? LF))) p = true).
  { unfold param_ok in Hp. rewrite forallb_forall in Hp |- *. intros c Hc. specialize (Hp c Hc).
    unfold param_char in Hp. bool_hyps. 
    apply negb_true_iff, orb_false_iff. split; [done|]. by apply Z.eqb_neq. }
  destruct ps as [|q ps]; [done|].
  change (join [44] (p :: q :: ps)) with (p ++ [44] ++ join [44] (q :: ps)).
  rewrite !forallb_app, Hp', IH. done.
Qed.

Lemma filter_all {A} (p : A -> bool) l : forallb p l = true -> List.filter p l = l.
Proof. induction l as [|a l IH]; [done|]. cbn. intros H. bool_hyps. by rewrite H, IH. Qed.

Lemma params_of_join ps :
  ps <> [] -> Forall (fun p => param_ok p = true) ps -> params_of (join [44] ps) = ps.
Proof.
  intros Hne H. unfold params_of. rewrite filter_all.
  - apply split_on_join; [done|]. eapply Forall_impl; [exact H|]. intros p Hp.
    by eapply param_ok_free.
  - pose proof (params_ok_join ps H) as J. rewrite forallb_forall in J |- *. intros c Hc.
    specialize (J c Hc). apply negb_true_iff in J. bool_hyps. apply negb_true_iff. by apply Z.eqb_neq.
Qed.

Lemma plain_join ps : Forall (fun p => param_ok p = true) ps -> plain (join [44] ps).
Proof.
  intros H. pose proof (params_ok_join ps H) as J. unfold plain. apply Forall_forall. intros c Hc.
  rewrite forallb_forall in J. apply list_elem_of_In, J in Hc. apply negb_true_iff in Hc. by bool_hyps.
Qed.

(** ** Lemmas: escapes *)

(** One escape: the characters of [p] become the indicator and two digits. *)
Definition escape_with (p : Z -> bool) (s : jsstr) : jsstr :=
  flat_map (fun c => if p c then hexEscapeByte c else [c]) s.

Lemma unescape_literal i c s : c <> i -> unescape i (c :: s) = c :: unescape i s.
Proof.
  intros H. destruct s as [|a [|b s]]; [done|done|]. cbn [unescape].
  by rewrite (proj2 (Z.eqb_neq c i)) by done.
Qed.

Lemma unescape_byte c s :
  0 <= c <= 255 -> unescape HEX_INDICATOR (hexEscapeByte c ++ s) = c :: unescape HEX_INDICATOR s.
Proof.
  intros Hc. pose proof (hex_byte_digits c Hc) as Hd. pose proof (parse_hex_byte c [] Hc) as Hv.
  unfold hexEscapeByte. change (hex_byte c) with [hex_digit (c / 16); hex_digit (c mod 16)] in *.
  cbn [app forallb MonoRaster.parse_hex_bytes] in *. bool_hyps. injection Hv as Hv.
  cbn [unescape]. rewrite Z.eqb_refl, H, H0, Hv. done.
Qed.

Lemma unescape_escape p s :
  p HEX_INDICATOR = true -> Forall (fun c => p c = true -> 0 <= c <= 255) s ->
  unescape HEX_INDICATOR (escape_with p s) = s.
Proof.
  intros Hp H. induction H as [|c s Hc Hs IH]; [done|].
  unfold escape_with in *. cbn [flat_map]. destruct (p c) eqn:E.
  - by rewrite unescape_byte, IH by auto.
  - cbn [app]. rewrite unescape_literal, IH; [done|]. intros ->. congruence.
Qed.

Lemma fd_special_byte c : fd_special c = true -> 0 <= c <= 255.
Proof. unfold fd_special, CARET, TILDE, HEX_INDICATOR. rewrite !orb_true_iff, !Z.eqb_eq. lia. Qed.

(** The two passes of a marking code are one escape. *)
Definition gs1_special (c : Z) : bool := fd_special c || (c =? Km.GS).

Lemma gs1_escape raw :
  flat_map (fun c => if c =? Km.GS then js "_1D" else [c]) (escape_specials raw)
  = escape_with gs1_special raw.
Proof.
  unfold escape_specials, escape_with, gs1_special.
  induction raw as [|c raw IH]; [done|]. cbn [flat_map]. rewrite flat_map_app, IH. f_equal.
  destruct (fd_special c) eqn:E; cbn [orb].
  - unfold fd_special, CARET, TILDE, HEX_INDICATOR in E. rewrite !orb_true_iff, !Z.eqb_eq in E.
    by destruct E as [[-> | ->]| ->].
  - cbn [flat_map]. rewrite app_nil_r. destruct (Z.eqb_spec c Km.GS) as [->|]; done.
Qed.

Lemma plain_escape p s :
  (forall c, is_prefix c = true -> p c = true) -> (forall c, p c = true -> 0 <= c <= 255) ->
  plain (escape_with p s).
Proof.
  intros Hp Hb. unfold plain, escape_with. induction s as [|c s IH]; [done|]. cbn [flat_map].
  apply Forall_app. split; [|done]. destruct (p c) eqn:E.
  - constructor; [done|]. pose proof (hex_byte_digits c (Hb c E)) as Hd.
    apply Forall_forall. intros d Hin%list_elem_of_In. rewrite forallb_forall in Hd. apply Hd in Hin.
    destruct (is_prefix d) eqn:Ed; [|done].
    unfold is_prefix, CARET, TILDE in Ed. rewrite orb_true_iff, !Z.eqb_eq in Ed. by destruct Ed as [-> | ->].
  - apply Forall_singleton. destruct (is_prefix c) eqn:Ec; [|done]. rewrite Hp in E; done.
Qed.

Lemma prefix_special c : is_prefix c = true -> fd_special c = true.
Proof. unfold is_prefix, fd_special. intros ->. done. Qed.

(** A text without a special character is its own escape. *)
Lemma escape_none s : existsb fd_special s = false -> escape_specials s = s.
Proof.
  induction s as [|c s IH]; [done|]. cbn [existsb]. intros [Hc Hs]%orb_false_iff.
  unfold escape_specials in *. cbn [flat_map]. by rewrite Hc, IH.
Qed.

(** An escaped text never starts with the escape of FNC1. *)
Lemma escape_not_fnc1 s : starts_with (js "_1") (escape_specials s) = false.
Proof.
  js_lits. destruct s as [|c s]; [done|]. unfold escape_specials. cbn [flat_map].
  destruct (fd_special c) eqn:E.
  - unfold fd_special, CARET, TILDE, HEX_INDICATOR in E. rewrite !orb_true_iff, !Z.eqb_eq in E.
    by destruct E as [[-> | ->]| ->].
  - cbn [app starts_with]. destruct (Z.eqb_spec 95 c) as [<-|]; [discriminate|]. done.
Qed.

(** ** Lemmas: one field *)

Definition command_body (command : jsstr * list jsstr) : jsstr := command.1 ++ join [44] command.2.

Definition reserved : list jsstr := [js "FS"; js "FH"; js "FD"; js "XA"; js "XZ"; js "PW"; js "LL"; js "FO"].

Definition command_ok (command : jsstr * list jsstr) : bool :=
  (length command.1 =? 2)%nat && negb (existsb (fun r => bool_decide (command.1 = r)) reserved)
  && forallb param_char command.1
  && negb (bool_decide (command.2 = [])) && forallb param_ok command.2.

(** A field in print: its origin, its commands and the end that holds the data. *)
Definition print_field (o : list jsstr) (cmds : list (jsstr * list jsstr)) (tail : list jsstr) : list jsstr :=
  (js "FO" ++ join [44] o) :: map command_body cmds ++ tail.

Lemma forallb_Forall {A} (p : A -> bool) l : forallb p l = true -> Forall (fun a => p a = true) l.
Proof. rewrite forallb_forall, Forall_forall. intros H a Ha%list_elem_of_In. auto. Qed.

Lemma run_command w l fs f ind c :
  command_ok c = true ->
  zpl_step (ZField w l fs f ind) (CARET, command_body c)
  = Some (ZField w l fs {| zf_origin := zf_origin f; zf_commands := zf_commands f ++ [c];
                           zf_data := zf_data f |} ind).
Proof.
  destruct c as [code ps]. unfold command_ok, command_body. cbn [fst snd]. intros H. bool_hyps.
  assert (Ht : take 2 (code ++ join [44] ps) = code).
  { rewrite <- H. apply take_app_length. }
  assert (Hd : drop 2 (code ++ join [44] ps) = join [44] ps).
  { rewrite <- H. apply drop_app_length. }
  unfold zpl_step. cbv zeta. rewrite Ht, Hd, Z.eqb_refl. cbn [negb].
  unfold reserved in *. cbn [existsb] in *. bool_hyps. 
  rewrite !bool_decide_eq_false_2 by done. cbn [orb].
  rewrite params_of_join; [done|done|by apply forallb_Forall].
Qed.

Lemma run_commands w l fs cmds ind : forall f,
  forallb command_ok cmds = true ->
  zpl_run (ZField w l fs f ind) (map (pair CARET) (map command_body cmds))
  = Some (ZField w l fs {| zf_origin := zf_origin f; zf_commands := zf_commands f ++ cmds;
                           zf_data := zf_data f |} ind).
Proof.
  induction cmds as [|c cmds IH]; intros f H.
  - rewrite app_nil_r. by destruct f.
  - cbn [forallb] in H. bool_hyps. cbn [map zpl_run]. rewrite run_command by done.
    cbn [mbind option_bind]. rewrite IH by done. cbn [zf_origin zf_commands zf_data]. by rewrite <- app_assoc.
Qed.

(** A field read up to its tail. *)
Lemma run_field w l fs o cmds tail :
  o <> [] -> forallb param_ok o = true -> forallb command_ok cmds = true ->
  zpl_run (ZInside w l fs) (map (pair CARET) (print_field o cmds tail))
  = zpl_run (ZField w l fs {| zf_origin := o; zf_commands := cmds; zf_data := None |} None)
      (map (pair CARET) tail).
Proof.
  intros Ho Hp Hc. unfold print_field. cbn [map zpl_run].
  assert (E : zpl_step (ZInside w l fs) (CARET, js "FO" ++ join [44] o)
              = Some (ZField w l fs {| zf_origin := o; zf_commands := []; zf_data := None |} None)).
  { unfold zpl_step. cbv zeta. js_lits. cbn [app take drop]. rewrite Z.eqb_refl, take_0, drop_0. cbn [negb].
    rewrite params_of_join by (done || by apply forallb_Forall). reflexivity. }
  rewrite E. cbn [mbind option_bind]. rewrite map_app, zpl_run_app, run_commands by done. done.
Qed.

(** The tails: nothing more, data, escaped data.  A line ends with a line feed. *)
Definition end_tail : list jsstr := [js "FS" ++ [LF]].
Definition data_tail (escaped : bool) (data : jsstr) : list jsstr :=
  (if escaped then [js "FH_"] else []) ++ [js "FD" ++ data; js "FS" ++ [LF]].

Lemma run_end w l fs f ind : zpl_run (ZField w l fs f ind) (map (pair CARET) end_tail) = Some (ZInside w l (fs ++ [f])).
Proof. reflexivity. Qed.

Lemma run_data w l fs f escaped data :
  zpl_run (ZField w l fs f None) (map (pair CARET) (data_tail escaped data))
  = Some (ZInside w l (fs ++ [{| zf_origin := zf_origin f; zf_commands := zf_commands f;
      zf_data := Some (decode_data f (if escaped then Some HEX_INDICATOR else None) data) |}])).
Proof.
  assert (E : forall ind, zpl_step (ZField w l fs f ind) (CARET, js "FD" ++ data)
    = Some (ZField w l fs {| zf_origin := zf_origin f; zf_commands := zf_commands f;
                             zf_data := Some (decode_data f ind data) |} ind)).
  { intros ind. unfold zpl_step. cbv zeta. js_lits. cbn [app take drop].
    rewrite Z.eqb_refl, take_0, drop_0. reflexivity. }
  destruct escaped; unfold data_tail; cbn [app map zpl_run].
  - change (zpl_step (ZField w l fs f None) (CARET, js "FH_"))
      with (Some (ZField w l fs f (Some HEX_INDICATOR))). cbn [mbind option_bind].
    rewrite E. reflexivity.
  - rewrite E. reflexivity.
Qed.

(** A line of the document and the field a reader finds in it. *)
Definition reads_as (line : jsstr) (f : zfield) : Prop :=
  exists bodies, line ++ [LF] = emit bodies /\ bodies <> [] /\ Forall plain bodies
    /\ Forall (fun c => 0 <= c <= 255) line
    /\ forall w l fs, zpl_run (ZInside w l fs) (map (pair CARET) bodies) = Some (ZInside w l (fs ++ [f])).

Lemma param_ok_bytes s : param_ok s = true -> byte_text s /\ plain s.
Proof.
  unfold param_ok. rewrite byte_text_spec. unfold plain. rewrite Forall_forall, !forallb_forall.
  intros H. split; intros c Hc; [|apply list_elem_of_In in Hc]; specialize (H c Hc);
    unfold param_char in H; by bool_hyps.
Qed.

Lemma join_bytes ps : forallb param_ok ps = true -> byte_text (join [44] ps).
Proof.
  intros H%forallb_Forall. induction H as [|p ps Hp Hps IH]; [constructor|].
  apply param_ok_bytes in Hp as [Hb _]. destruct ps as [|q ps]; [done|].
  change (join [44] (p :: q :: ps)) with (p ++ [44] ++ join [44] (q :: ps)).
  rewrite !byte_text_app. repeat split; try done. by repeat constructor.
Qed.

Lemma emit_bytes bodies : Forall byte_text bodies -> byte_text (emit bodies).
Proof.
  induction 1 as [|b bs Hb Hbs IH]; [constructor|]. unfold emit in *. cbn [map concat].
  apply byte_text_app. split; [|done]. constructor; [done|exact Hb].
Qed.

(** What a field prints is made of bytes, and only the field's own commands start. *)
Lemma print_field_bodies o cmds tail :
  forallb param_ok o = true -> forallb command_ok cmds = true ->
  Forall (fun b => byte_text b /\ plain b) tail ->
  Forall (fun b => byte_text b /\ plain b) (print_field o cmds tail).
Proof.
  intros Ho Hc Ht. unfold print_field. constructor; [|apply Forall_app; split; [|done]].
  - split.
    + apply byte_text_app. split; [by repeat constructor | by apply join_bytes].
    + apply Forall_app. split; [by repeat constructor | by apply plain_join, forallb_Forall].
  - apply Forall_map. apply forallb_Forall in Hc. eapply Forall_impl; [exact Hc|].
    intros [code ps] H. unfold command_ok, command_body in *. cbn [fst snd] in *. bool_hyps.
    assert (Hcode : param_ok code = true) by done. apply param_ok_bytes in Hcode as [? ?].
    rewrite byte_text_app. unfold plain. rewrite Forall_app.
    split; split; try done; [by apply join_bytes | by apply plain_join, forallb_Forall].
Qed.

Lemma reads_field line o cmds tail f :
  line ++ [LF] = emit (print_field o cmds tail) ->
  o <> [] -> forallb param_ok o = true -> forallb command_ok cmds = true ->
  Forall (fun b => byte_text b /\ plain b) tail ->
  (forall w l fs, zpl_run (ZField w l fs {| zf_origin := o; zf_commands := cmds; zf_data := None |} None)
                    (map (pair CARET) tail) = Some (ZInside w l (fs ++ [f]))) ->
  reads_as line f.
Proof.
  intros El Ho Hp Hc Ht Hrun. pose proof (print_field_bodies o cmds tail Hp Hc Ht) as Hb.
  exists (print_field o cmds tail). split; [done|]. split; [done|].
  split; [eapply Forall_impl; [exact Hb|]; by intros ? [? ?]|]. split.
  - assert (H : byte_text (line ++ [LF])).
    { rewrite El. apply emit_bytes. eapply Forall_impl; [exact Hb|]. by intros ? [? ?]. }
    by apply byte_text_app in H as [? _].
  - intros w l fs. rewrite run_field by done. apply Hrun.
Qed.

Lemma emit_print_field x y cmds tail :
  emit (print_field (xy_tokens x y) cmds tail)
  = field_origin x y ++ emit (map command_body cmds) ++ emit tail.
Proof.
  unfold print_field. rewrite emit_cons, emit_app. reflexivity.
Qed.

Lemma origin_ok x y : forallb param_ok (xy_tokens x y) = true.
Proof. unfold xy_tokens. cbn [forallb]. by rewrite !param_ok_number by apply number_text_of_number. Qed.

(** A field without data. *)
Lemma reads_end_field x y cmds :
  forallb command_ok cmds = true ->
  reads_as (field_origin x y ++ emit (map command_body cmds) ++ js "^FS")
    {| zf_origin := xy_tokens x y; zf_commands := cmds; zf_data := None |}.
Proof.
  intros Hc. eapply (reads_field _ (xy_tokens x y) cmds end_tail); [|done|apply origin_ok|done| |].
  - rewrite emit_print_field, <- !app_assoc. reflexivity.
  - by repeat constructor.
  - intros w l fs. apply run_end.
Qed.

Lemma existsb_app {A} (p : A -> bool) s t : existsb p (s ++ t) = existsb p s || existsb p t.
Proof. apply List.existsb_app. Qed.

Lemma field_data_tail prefix text :
  existsb fd_special prefix = false ->
  field_data prefix text ++ [LF]
  = emit (data_tail (existsb fd_special text) (escape_specials (prefix ++ text))).
Proof.
  intros Hp. unfold field_data, escapeFdData, data_tail.
  assert (Ea : escape_specials (prefix ++ text) = prefix ++ escape_specials text).
  { unfold escape_specials at 1. rewrite flat_map_app. f_equal. by apply escape_none. }
  rewrite Ea. destruct (existsb fd_special text) eqn:E; cbn [negb].
  - rewrite emit_app. unfold emit. cbn [map concat]. flatten.
  - rewrite (escape_none text) by done. unfold emit. cbn [map concat app]. flatten.
Qed.

Lemma byte_escape p s : byte_text s -> byte_text (escape_with p s).
Proof.
  intros H. induction H as [|c s Hc Hs IH]; [constructor|]. unfold escape_with in *. cbn [flat_map].
  apply byte_text_app. split; [|done]. destruct (p c); [|by constructor].
  constructor; [done|]. pose proof (hex_byte_digits c Hc) as Hd. unfold byte_text.
  apply forallb_Forall in Hd. eapply Forall_impl; [exact Hd|]. intros d H.
  unfold MonoRaster.is_hex_digit, is_digit in H.
  rewrite !orb_true_iff, !andb_true_iff, !Z.leb_le in H. lia.
Qed.

Lemma data_tail_ok b data :
  byte_text data -> plain data -> Forall (fun b => byte_text b /\ plain b) (data_tail b data).
Proof.
  intros Hb Hp. unfold data_tail. apply Forall_app. split; [by destruct b; repeat constructor|].
  constructor; [|by repeat constructor]. split.
  - apply byte_text_app. split; [by repeat constructor | done].
  - apply Forall_app. split; [by repeat constructor | done].
Qed.

(** A field with data: whatever the text, the reader gets it back. *)
Lemma reads_data_field x y cmds prefix text :
  forallb command_ok cmds = true -> existsb fd_special prefix = false ->
  byte_text prefix -> byte_text text ->
  reads_as (field_origin x y ++ emit (map command_body cmds) ++ field_data prefix text)
    {| zf_origin := xy_tokens x y; zf_commands := cmds; zf_data := chars (prefix ++ text) |}.
Proof.
  intros Hc Hp Hbp Hbt.
  eapply (reads_field _ (xy_tokens x y) cmds
            (data_tail (existsb fd_special text) (escape_specials (prefix ++ text))));
    [|done|apply origin_ok|done| |].
  - by rewrite emit_print_field, <- field_data_tail, <- !app_assoc.
  - apply data_tail_ok; [apply byte_escape; by apply byte_text_app|].
    apply plain_escape; [apply prefix_special | apply fd_special_byte].
  - intros w l fs. rewrite run_data. cbn [zf_origin zf_commands]. do 5 f_equal.
    unfold decode_data, chars. f_equal. cbn [zf_commands].
    destruct (existsb fd_special text) eqn:E.
    + rewrite escape_not_fnc1, andb_false_r. f_equal. apply unescape_escape; [done|].
      apply Forall_forall. intros c _. apply fd_special_byte.
    + by rewrite escape_none by (by rewrite existsb_app, Hp, E).
Qed.

(** A GS1 DataMatrix: FNC1, then the code with its separators. *)
Lemma reads_gs1_field x y cmds raw :
  forallb command_ok cmds = true -> datamatrix_escape cmds = true -> byte_text raw ->
  reads_as (field_origin x y ++ emit (map command_body cmds) ++ renderGs1DataMatrixTail raw)
    {| zf_origin := xy_tokens x y; zf_commands := cmds; zf_data := Some (FNC1 :: map Chr raw) |}.
Proof.
  intros Hc Hd Hb.
  assert (Hs : forall c, gs1_special c = true -> 0 <= c <= 255).
  { intros c. unfold gs1_special. rewrite orb_true_iff. intros [H|H]; [by apply fd_special_byte|].
    apply Z.eqb_eq in H. subst. unfold Km.GS. lia. }
  eapply (reads_field _ (xy_tokens x y) cmds (data_tail true (js "_1" ++ escape_with gs1_special raw)));
    [|done|apply origin_ok|done| |].
  - rewrite emit_print_field. unfold renderGs1DataMatrixTail. cbv zeta. rewrite gs1_escape.
    unfold data_tail. rewrite emit_app. unfold emit. cbn [map concat]. flatten.
  - apply data_tail_ok.
    + apply byte_text_app. split; [by repeat constructor | by apply byte_escape].
    + apply Forall_app. split; [by repeat constructor|]. apply plain_escape; [|done].
      intros c Hc'. unfold gs1_special. by rewrite prefix_special.
  - intros w l fs. rewrite run_data. cbn [zf_origin zf_commands]. do 5 f_equal.
    unfold decode_data. cbn [zf_commands]. rewrite Hd, starts_with_app. cbn [andb]. f_equal. f_equal.
    change (drop 2 _) with (escape_with gs1_special raw). f_equal. apply unescape_escape; [done|].
    apply Forall_forall. intros c _. apply Hs.
Qed.

(** ** Lemmas: the elements *)

Lemma param_number x : param_ok (js_of_number x) = true.
Proof. apply param_ok_number, number_text_of_number. Qed.
Lemma param_int z : param_ok (js_of_Z z) = true.
Proof. apply param_ok_number, number_text_of_Z. Qed.

(** A command is its code and what [command_body] joins. *)
Ltac commands_ok :=
  cbn [forallb map]; unfold command_ok; cbn [fst snd forallb];
  rewrite ?param_number, ?param_int; reflexivity.

Lemma hex_param r : raster_ok r -> param_ok (MonoRaster.hex r) = true.
Proof.
  intros (Hh & _). unfold param_ok. rewrite forallb_forall in Hh |- *. intros c Hc. specialize (Hh c Hc).
  unfold MonoRaster.is_hex_digit, is_digit in Hh. rewrite !orb_true_iff, !andb_true_iff, !Z.leb_le in Hh.
  unfold param_char, MonoRaster.is_byte, is_prefix, CARET, TILDE, LF.
  rewrite andb_true_iff, andb_true_iff, negb_true_iff, !orb_false_iff, !Z.leb_le, !Z.eqb_neq. lia.
Qed.

Lemma reads_image x y r : raster_ok r -> reads_as (image_field x y r) (image x y r).
Proof.
  intros Hr. unfold image_field, image.
  set (c := (js "GF", _)).
  replace (buildGfaCommand r) with (emit (map command_body [c])).
  - apply reads_end_field. cbn [forallb]. unfold c, command_ok. cbn [fst snd forallb].
    rewrite !param_int, hex_param by done. reflexivity.
  - unfold c, buildGfaCommand, emit, command_body. cbn [map concat fst snd join]. flatten.
Qed.

Lemma reads_frame x y w h t : reads_as (buildZplBox x y w h t) (frame x y w h t).
Proof.
  unfold buildZplBox, frame. change (js "^FO" ++ comma [x; y] ++ ?s) with (field_origin x y ++ s).
  set (c := (js "GB", _)).
  replace (js "^GB" ++ comma [w; h; t] ++ js "^FS") with (emit (map command_body [c]) ++ js "^FS").
  - apply reads_end_field. unfold c. cbn [map]. commands_ok.
  - unfold c, comma, emit, command_body. cbn [map concat fst snd join]. flatten.
Qed.

Lemma reads_text base shape text dpi deps :
  rasterizer_ok deps ->
  result_rel reads_as (renderTextLikeElement base shape text dpi deps) (text_field base shape text dpi deps).
Proof.
  intros Hr. unfold renderTextLikeElement, text_field. cbv zeta.
  destruct (drawn shape text) eqn:Ed.
  - apply result_rel_bind. intros [leftDots r] Hd. apply reads_image. by eapply drawText_ok.
  - assert (Ht : byte_text text).
    { unfold drawn in Ed. apply orb_false_iff in Ed as [Ed _]. apply orb_false_iff in Ed as [Ed _].
      apply needsImageRendering_ascii in Ed. eapply Forall_impl; [exact Ed|]. cbn. lia. }
    set (h := js_of_number _).
    assert (Hh : param_ok h = true) by apply param_number.
    destruct (maxWidthMm shape) as [w|]; cbn [result_rel].
    + set (a := (js "A0", _)). set (b := (js "FB", _)).
      assert (Hj : param_ok (alignToJustification (align shape)) = true) by by destruct (align shape) as [[]|].
      match goal with |- reads_as ?l _ =>
        replace l with (field_origin (mmToDots (xMm base) dpi) (mmToDots (yMm base) dpi)
                        ++ emit (map command_body [a; b]) ++ field_data [] text) end.
      * apply (reads_data_field _ _ [a; b] []); [|done|constructor|done].
        unfold a, b. cbn [forallb]. unfold command_ok. cbn [fst snd forallb].
        rewrite param_number, param_int, Hj, Hh. reflexivity.
      * unfold a, b, emit, command_body. cbn [map concat fst snd join]. flatten.
    + set (a := (js "A0", _)).
      match goal with |- reads_as ?l _ =>
        replace l with (field_origin (mmToDots (xMm base) dpi) (mmToDots (yMm base) dpi)
                        ++ emit (map command_body [a]) ++ field_data [] text) end.
      * apply (reads_data_field _ _ [a] []); [|done|constructor|done].
        unfold a. cbn [forallb]. unfold command_ok. cbn [fst snd forallb]. rewrite Hh. reflexivity.
      * unfold a, emit, command_body. cbn [map concat fst snd join]. flatten.
Qed.

Lemma module_width_emit e dpi : barWidthCommand e dpi = emit (map command_body (module_width e dpi)).
Proof.
  unfold barWidthCommand, module_width. destruct (moduleWidthMm e) as [w|]; [|done].
  unfold emit, command_body. cbn [map concat fst snd join]. flatten.
Qed.

Lemma module_width_ok e dpi : forallb command_ok (module_width e dpi) = true.
Proof. unfold module_width. destruct (moduleWidthMm e); [|done]. commands_ok. Qed.

(** Data under a list of commands whose text is given. *)
Lemma reads_coded x y cmds prefix text middle :
  forallb command_ok cmds = true -> existsb fd_special prefix = false -> byte_text prefix ->
  byte_text text -> middle = emit (map command_body cmds) ++ field_data prefix text ->
  reads_as (field_origin x y ++ middle)
    {| zf_origin := xy_tokens x y; zf_commands := cmds; zf_data := chars (prefix ++ text) |}.
Proof. intros ???? ->. by apply reads_data_field. Qed.

Lemma reads_barcode e data dpi :
  byte_text (resolveBarcodeSource (b_data e) data).1 ->
  reads_as (renderZplBarcodeElement e data dpi true) (barcode_field e data dpi).
Proof.
  unfold renderZplBarcodeElement, barcode_field. cbv zeta.
  destruct (resolveBarcodeSource (b_data e) data) as [value field]. cbn [fst]. intros Hv.
  set (size := js_of_number _). assert (Hs : param_ok size = true) by apply param_number.
  destruct (format e).
  - set (c := (js "BX", _)). assert (Hc : forallb command_ok [c] = true).
    { unfold c. cbn [forallb]. unfold command_ok. cbn [fst snd forallb]. rewrite Hs. reflexivity. }
    destruct (bool_decide (field = Some km_code)).
    + replace (js "^BXN," ++ size ++ js ",200,,,,_" ++ renderGs1DataMatrixTail value)
        with (emit (map command_body [c]) ++ renderGs1DataMatrixTail value).
      * by apply reads_gs1_field.
      * unfold c, emit, command_body. cbn [map concat fst snd join]. flatten.
    + eapply (reads_coded _ _ [c] []); [done|done|constructor|done|].
      unfold c, emit, command_body. cbn [map concat fst snd join]. flatten.
  - set (c := (js "BC", _)). rewrite module_width_emit.
    eapply (reads_coded _ _ (module_width e dpi ++ [c]) []); [|done|constructor| |].
    + rewrite forallb_app, module_width_ok. unfold c. cbn [forallb]. unfold command_ok.
      cbn [fst snd forallb]. rewrite Hs. reflexivity.
    + case_match; [|done]. apply byte_text_app. split; [by repeat constructor | done].
    + rewrite map_app, emit_app. unfold c, emit at 3, command_body at 3.
      cbn [map concat fst snd join]. flatten.
  - set (c := (js "BE", _)). rewrite module_width_emit.
    eapply (reads_coded _ _ (module_width e dpi ++ [c]) []); [|done|constructor|done|].
    + rewrite forallb_app, module_width_ok. unfold c. cbn [forallb]. unfold command_ok.
      cbn [fst snd forallb]. rewrite Hs. reflexivity.
    + rewrite map_app, emit_app. unfold c, emit at 3, command_body at 3.
      cbn [map concat fst snd join]. flatten.
  - set (c := (js "BQ", _)).
    eapply (reads_coded _ _ [c] (js "QA,")); [|done|by repeat constructor|done|].
    + unfold c. commands_ok.
    + unfold c, emit, command_body. cbn [map concat fst snd join]. flatten.
Qed.

(** ** Lemmas: the document *)

Section Document.
Context (bwip_raw : jsstr -> option (list ModuleGrid)) (spec : LabelTemplateSpec) (data : LabelData)
  (deps : LabelDeps) (Hr : rasterizer_ok deps).

Lemma reads_element e :
  codes_latin1 data deps [e] ->
  result_rel (Forall2 reads_as) (zpl_element bwip_raw spec data deps e)
    (element_fields bwip_raw spec data deps e).
Proof.
  intros Hc. destruct e as [base text shape|base field tf shape|e|e|e|e]; cbn [zpl_element element_fields].
  - eapply result_rel_seq; [by apply reads_text|]. cbn. by repeat constructor.
  - apply result_rel_bind. intros text _.
    eapply result_rel_seq; [by apply reads_text|]. cbn. by repeat constructor.
  - destruct (drawn_code deps e) eqn:E.
    + apply result_rel_bind. intros r H. cbn. constructor; [|constructor].
      apply reads_image. by eapply rasterizeGs1DataMatrix_ok.
    + cbn. constructor; [|constructor]. apply reads_barcode, Hc; [by left | done].
  - cbn. constructor; [|constructor]. apply reads_frame.
  - cbn. constructor; [|constructor]. apply reads_frame.
  - destruct (logo deps) as [l|]; [|by constructor].
    apply result_rel_bind. intros [[x y] r] H. cbn. constructor; [|constructor].
    apply reads_image. by eapply renderLabelLogo_ok.
Qed.

Lemma reads_elements els :
  codes_latin1 data deps els ->
  result_rel (Forall2 reads_as) (zpl_elements bwip_raw spec data deps els)
    (label_fields bwip_raw spec data deps els).
Proof.
  induction els as [|e es IH]; intros Hc; cbn [zpl_elements label_fields]; [by constructor|].
  eapply result_rel_seq; [apply reads_element|].
  { intros e' He. apply Hc. apply list_elem_of_singleton in He as ->. left. }
  intros lines fields Hl. eapply result_rel_seq; [apply IH|].
  { intros e' He. apply Hc. by right. }
  intros rest rest' Hl'. cbn. by apply Forall2_app.
Qed.
End Document.

(** The document is the header, the lines of the fields and the end. *)
Lemma document_lines w h lines :
  buildZplDocument w h lines
  = emit [js "XA" ++ [LF]; js "PW" ++ js_of_number w ++ [LF]; js "LL" ++ js_of_number h ++ [LF]]
    ++ concat (map (fun l => l ++ [LF]) lines) ++ emit [js "XZ" ++ [LF]].
Proof.
  unfold buildZplDocument. cbn [app]. rewrite !app_comm_cons, join_lines.
  rewrite map_app, concat_app. cbn [map concat]. unfold emit. cbn [map concat]. flatten.
Qed.

Lemma run_lines lines fields w l : Forall2 reads_as lines fields -> forall fs,
  exists bodies, concat (map (fun l => l ++ [LF]) lines) = emit bodies /\ Forall plain bodies
    /\ byte_text (concat (map (fun l => l ++ [LF]) lines))
    /\ zpl_run (ZInside w l fs) (map (pair CARET) bodies) = Some (ZInside w l (fs ++ fields)).
Proof.
  induction 1 as [|line f lines fields (bs & E & _ & Hp & Hb & Hrun) H IH]; intros fs.
  - exists []. rewrite app_nil_r. repeat split; constructor.
  - destruct (IH (fs ++ [f])) as (bs' & E' & Hp' & Hb' & Hrun').
    exists (bs ++ bs'). cbn [map concat]. rewrite emit_app, E, E'. split; [done|].
    split; [by apply Forall_app|]. split.
    + apply byte_text_app. rewrite <- E, <- E'. split; [|done].
      apply byte_text_app. split; [done | by repeat constructor].
    + rewrite map_app, zpl_run_app, Hrun. cbn [mbind option_bind]. rewrite Hrun'.
      by rewrite <- app_assoc.
Qed.

(** A parameter before a line feed. *)
Lemma params_of_line p : param_ok p = true -> params_of (p ++ [LF]) = [p].
Proof.
  intros H. unfold params_of. rewrite List.filter_app. cbn [List.filter].
  replace (List.filter _ p) with p.
  - rewrite app_nil_r. apply split_on_free. by eapply param_ok_free.
  - symmetry. apply filter_all. unfold param_ok in H. rewrite forallb_forall in H |- *. intros c Hc.
    specialize (H c Hc). unfold param_char in H. bool_hyps. apply negb_true_iff. by apply Z.eqb_neq.
Qed.

Lemma read_document w h lines fields :
  Forall2 reads_as lines fields ->
  read_zpl (latin1ToBytes (buildZplDocument w h lines))
  = Some {| zl_width := js_of_number w; zl_length := js_of_number h; zl_fields := fields |}.
Proof.
  intros H. rewrite document_lines.
  pose proof (param_number w) as Hw. pose proof (param_number h) as Hh.
  generalize dependent (js_of_number w). generalize dependent (js_of_number h). intros ph Hh pw Hw.
  destruct (param_ok_bytes _ Hw) as [Hbw Hpw]. destruct (param_ok_bytes _ Hh) as [Hbh Hph].
  destruct (run_lines lines fields pw ph H []) as (bodies & E & Hp & Hb & Hrun).
  rewrite E in *. rewrite <- !emit_app.
  set (top := [js "XA" ++ [LF]; js "PW" ++ pw ++ [LF]; js "LL" ++ ph ++ [LF]]).
  assert (Htop : Forall (fun b => byte_text b /\ plain b) top).
  { assert (Hl : forall code p, byte_text code -> plain code -> byte_text p -> plain p ->
                byte_text (code ++ p ++ [LF]) /\ plain (code ++ p ++ [LF])).
    { intros code p ????. unfold plain in *. rewrite !byte_text_app, !Forall_app.
      repeat split; try done; by repeat constructor. }
    unfold top. constructor; [by split; repeat constructor|].
    constructor; [|constructor; [|done]]; apply Hl; try done; by repeat constructor. }
  assert (Hplain : Forall plain (top ++ bodies ++ [js "XZ" ++ [LF]])).
  { rewrite !Forall_app. split; [eapply Forall_impl; [exact Htop|]; by intros ? [_ ?]|].
    split; [done | by repeat constructor]. }
  rewrite latin1_bytes.
  2:{ rewrite !emit_app, !byte_text_app. split; [|split; [done | by repeat constructor]].
      apply emit_bytes. eapply Forall_impl; [exact Htop|]. by intros ? [? _]. }
  unfold read_zpl. rewrite commands_emit by done. rewrite map_app, zpl_run_app.
  assert (Et : zpl_run ZStart (map (pair CARET) top) = Some (ZInside pw ph [])).
  { unfold top. cbn [map zpl_run].
    change (zpl_step ZStart (CARET, js "XA" ++ [LF])) with (Some (ZInside [] [] [])). cbn [mbind option_bind].
    assert (E1 : zpl_step (ZInside [] [] []) (CARET, js "PW" ++ pw ++ [LF]) = Some (ZInside pw [] [])).
    { unfold zpl_step. js_lits. cbn [app take drop]. rewrite Z.eqb_refl, take_0, drop_0. cbn [negb].
      rewrite params_of_line by done. cbn [concat]. by rewrite app_nil_r. }
    rewrite E1. cbn [mbind option_bind].
    assert (E2 : zpl_step (ZInside pw [] []) (CARET, js "LL" ++ ph ++ [LF]) = Some (ZInside pw ph [])).
    { unfold zpl_step. js_lits. cbn [app take drop]. rewrite Z.eqb_refl, take_0, drop_0. cbn [negb].
      rewrite params_of_line by done. cbn [concat]. by rewrite app_nil_r. }
    by rewrite E2. }
  rewrite Et. cbn [mbind option_bind]. rewrite map_app, zpl_run_app, Hrun. reflexivity.
Qed.

(** ** The theorem *)

(** C23: the station prints what the template means, for every text and every
    code.  A reader of ZPL that knows nothing of templates, given the bytes sent
    to the printer, finds exactly one label whose size and whose fields are those
    the template asks for, in order: each text and each code is the data of its
    own field, unescaped, a marking code right after FNC1 with its separators,
    and no character of the data ever starts a command, ends a field or ends the
    label.  And the emitter fails exactly when a text, a logo or a drawn code
    does, with the same error.  The codes left to the printer are Latin-1 text
    and the rasterizer returns the bytes it announces. *)
Theorem zpl_reads_back (bwip_raw : jsstr -> option (list ModuleGrid)) (spec : LabelTemplateSpec)
    (data : LabelData) (deps : LabelDeps)
    (Hr : rasterizer_ok deps) (Hc : codes_latin1 data deps (elements spec)) :
  (doc ← generateZpl bwip_raw spec data deps; Ok (read_zpl (latin1ToBytes doc)))
  = (label ← label_of bwip_raw spec data deps; Ok (Some label)).
Proof.
  unfold generateZpl, label_of.
  pose proof (reads_elements bwip_raw spec data deps Hr (elements spec) Hc) as H.
  destruct (zpl_elements _ _ _ _ _) as [lines|e], (label_fields _ _ _ _ _) as [fields|e'];
    cbn [result_rel] in H; try done; [|by subst].
  cbn [mbind result_bind]. by rewrite (read_document _ _ lines fields).
Qed.

(** ** Examples *)

Definition sample_base : Base := {| id := js "a"; xMm := float_of_Z 2; yMm := float_of_Z 3 |}.
Definition sample_shape : TextShape :=
  {| fontSizePt := float_of_Z 10; minFontSizePt := None; bold := None; fontFamily := None;
     lineHeight := None; align := Some align_center; maxWidthMm := Some (float_of_Z 40); maxLines := Some 2 |}.
Definition sample_code (f : BarcodeFormat) (d : BarcodeSource) : LabelBarcodeElement :=
  {| b_base := sample_base; format := f; b_data := d; sizeMm := float_of_Z 5; moduleWidthMm := Some (float_of_Z 1) |}.

(** Texts that try to end the field and the label, a marking code with its
    separator, a drawn text and a box. *)
Definition sample_spec : LabelTemplateSpec :=
  {| widthMm := float_of_Z 58; heightMm := float_of_Z 40; dpi := 203;
     elements := [TextElement sample_base (js "A^FS^XZ_5E~") sample_shape;
                  TextElement sample_base [0x413] sample_shape;
                  FieldElement sample_base qty None sample_shape;
                  BarcodeElement (sample_code datamatrix (SourceField km_code));
                  BarcodeElement (sample_code datamatrix (SourceLiteral (js "_1^XZ")));
                  BarcodeElement (sample_code code128 (SourceField sscc));
                  BarcodeElement (sample_code qr (SourceLiteral (js "^XA_")));
                  BoxElement {| x_base := sample_base; x_widthMm := float_of_Z 9; x_heightMm := float_of_Z 4;
                                x_thicknessMm := float_of_Z 1 |}] |}.

Definition sample_data (f : LabelField) : jsstr :=
  match f with
  | km_code => js "010460068200001321a^b_" ++ [Km.GS] ++ js "93x~"
  | sscc => js "346006820000000014"
  | qty => js "a~_"
  | _ => []
  end.

Definition sample_rasterize : RasterizeTextFn := fun _ _ =>
  Ok {| MonoRaster.hex := js "F0A5"; MonoRaster.totalBytes := 2; MonoRaster.bytesPerRow := 1;
        MonoRaster.r_width := 8; MonoRaster.r_height := 2 |}.
Definition sample_deps : LabelDeps :=
  {| rasterizeText := Some sample_rasterize; logo := None; kmRaster := false |}.

Lemma sample_rasterizer_ok : rasterizer_ok sample_deps.
Proof. intros draw [= <-] text opts r [= <-]. repeat split; vm_compute; done. Defined.

Lemma zpl_reads_back_witness :
  (doc ← generateZpl (fun _ => None) sample_spec sample_data sample_deps;
   Ok (read_zpl (latin1ToBytes doc)))
  = (label ← label_of (fun _ => None) sample_spec sample_data sample_deps; Ok (Some label))
  /\ is_ok (generateZpl (fun _ => None) sample_spec sample_data sample_deps) = true.
Proof.
  split; [|vm_compute; reflexivity].
  apply zpl_reads_back; [apply sample_rasterizer_ok|].
  intros e He _. apply byte_text_spec.
  cbn [sample_spec elements] in He.
  repeat (apply elem_of_cons in He as [He|He]; [try discriminate He; injection He as ->; vm_compute; reflexivity|]).
  by apply elem_of_nil in He.
Defined.

(** A code outside Latin-1: the low byte of the Belarusian letter U+045E is the
    caret, so a QR code of such a name starts commands of its own. *)
Definition name_spec : LabelTemplateSpec :=
  {| widthMm := float_of_Z 58; heightMm := float_of_Z 40; dpi := 203;
     elements := [BarcodeElement (sample_code qr (SourceField product_name))] |}.

Lemma qr_of_cyrillic_name_breaks_the_label :
  let data f := if bool_decide (f = product_name) then [0x45e] ++ js "XZ" else [] in
  (doc ← generateZpl (fun _ => None) name_spec data sample_deps; Ok (read_zpl (latin1ToBytes doc)))
  = Ok None.
Proof. vm_compute. reflexivity. Qed.

(** The leading [_1] of a marking code and the zero of its AI 01 are also an
    escape of two digits: a reader that decodes [^FH] before the DataMatrix
    escape finds the byte 0x10 instead of FNC1 and the zero. *)
Lemma leading_fnc1_is_also_an_escape (raw : jsstr) :
  unescape HEX_INDICATOR (js "_1" ++ escape_with gs1_special (js "0" ++ raw))
  = 0x10 :: unescape HEX_INDICATOR (escape_with gs1_special raw).
Proof. reflexivity. Qed.
