(* ===== verification/Tspl.v ===== *)
(** * The TSPL emitter

    [packages/domain/src/labels/tspl.ts]: the document [generateTspl] writes for
    a template, and a reader of the language that knows nothing of templates:
    commands end with a line feed, parameters are separated by commas, a quoted
    one holds its quotes doubled, and a [BITMAP] is followed by as many raw bytes
    as its parameters announce.  Unlike ZPL the emitter breaks the lines of a
    text itself, with the word wrap of [Wrap.v]. *)

From stdpp Require Import base list strings gmap.
From Stdlib Require Import ZArith Lia.
From Stdlib Require Import SpecFloat.
From S2P Require Import Prelude Doubles JsNumber LabelModel.
From S2P Require MonoRaster Wrap.

(** ** The emitter *)

(** Every quote is doubled. *)
Definition escapeTsplString (text : jsstr) : jsstr :=
  flat_map (fun c => if c =? QUOTE then [QUOTE; QUOTE] else [c]) text.

Definition quoted (text : jsstr) : jsstr := [QUOTE] ++ escapeTsplString text ++ [QUOTE].

Definition nativeAlignOffsetDots (shape : TextShape) (line : jsstr) (maxWidth : option spec_float)
    (dpi : Z) : spec_float :=
  rasterAlignOffsetDots (align shape) maxWidth
    (mmToDots (Wrap.estimatedTextWidthMm line (fontSizePt shape)) dpi).

Definition wrapNativeText (shape : TextShape) (text : jsstr) : option (list jsstr) :=
  match maxWidthMm shape with
  | None => None
  | Some w =>
      let lines := Wrap.wrapTextToWidth (fun s => Wrap.estimatedTextWidthMm s (fontSizePt shape)) w text
                     (default 1 (maxLines shape)) in
      if bool_decide (lines = [text]) then None else Some lines
  end.

Definition TEXT (x y : spec_float) (size : jsstr) (line : jsstr) : jsstr :=
  js "TEXT " ++ comma [x; y] ++ js "," ++ quoted (js "0") ++ js ",0," ++ size ++ js "," ++ size
  ++ js "," ++ quoted line.

Definition renderTextLikeElement (base : Base) (shape : TextShape) (text : jsstr) (dpi : Z)
    (deps : LabelDeps) : result jsstr :=
  let x := mmToDots (xMm base) dpi in
  let y := mmToDots (yMm base) dpi in
  if drawn shape text then
    '(leftDots, raster) ← drawText deps base shape text dpi;
    Ok (buildBitmapCommand leftDots y raster)
  else
    let size := js_of_number (fontSizePt shape) in
    let lines := default [text] (wrapNativeText shape text) in
    let lineStepDots := mmToDots (fmul (Wrap.ptToMm (fontSizePt shape)) Wrap.LINE_HEIGHT_EM) dpi in
    Ok (join [LF] (imap (fun i line =>
          let offsetXDots := nativeAlignOffsetDots shape line (maxWidthDots shape dpi) dpi in
          TEXT (fadd x offsetXDots) (fadd y (fmul (float_of_Z (Z.of_nat i)) lineStepDots)) size line) lines)).

Definition TSPL_DEFAULT_NARROW_DOTS : spec_float := float_of_Z 2.

Definition narrow_dots (element : LabelBarcodeElement) (dpi : Z) : spec_float :=
  match moduleWidthMm element with
  | None => TSPL_DEFAULT_NARROW_DOTS
  | Some w => js_max (float_of_Z 1) (mmToDots w dpi)
  end.

Definition barWidthParams (element : LabelBarcodeElement) (dpi : Z) : jsstr :=
  comma [narrow_dots element dpi; narrow_dots element dpi].

Definition renderTsplBarcodeElement (element : LabelBarcodeElement) (data : LabelData) (dpi : Z) : jsstr :=
  let xy := comma [mmToDots (xMm (b_base element)) dpi; mmToDots (yMm (b_base element)) dpi] in
  let size := js_of_number (mmToDots (sizeMm element) dpi) in
  let '(value, field) := resolveBarcodeSource (b_data element) data in
  match format element with
  | code128 =>
      let gs1 := bool_decide (field = Some sscc) in
      let barcodeType := if gs1 then js "EAN128" else js "128" in
      let payload := if gs1 then js "00" ++ value else value in
      js "BARCODE " ++ xy ++ js "," ++ quoted barcodeType ++ js "," ++ size ++ js ",0,0,"
      ++ barWidthParams element dpi ++ js "," ++ quoted payload
  | ean13 =>
      js "BARCODE " ++ xy ++ js "," ++ quoted (js "EAN13") ++ js "," ++ size ++ js ",0,0,"
      ++ barWidthParams element dpi ++ js "," ++ quoted value
  | datamatrix => js "DMATRIX " ++ xy ++ js "," ++ size ++ js "," ++ size ++ js "," ++ quoted value
  | qr =>
      let cellDots := js_max (float_of_Z 1) (js_min (float_of_Z 10) (mmToDots (sizeMm element) dpi)) in
      js "QRCODE " ++ xy ++ js ",M," ++ js_of_number cellDots ++ js ",A,0," ++ quoted value
  end.

Definition renderLineElement (e : LabelLineElement) (dpi : Z) : jsstr :=
  let thicknessDots := mmToDots (l_thicknessMm e) dpi in
  let spanXDots := mmToDots (SFabs (fsub (x2Mm e) (xMm (l_base e)))) dpi in
  let spanYDots := mmToDots (SFabs (fsub (y2Mm e) (yMm (l_base e)))) dpi in
  buildTsplBar (mmToDots (js_min (xMm (l_base e)) (x2Mm e)) dpi)
    (mmToDots (js_min (yMm (l_base e)) (y2Mm e)) dpi)
    (js_max spanXDots thicknessDots) (js_max spanYDots thicknessDots).

Definition renderBoxElement (e : LabelBoxElement) (dpi : Z) : jsstr :=
  buildTsplBox (mmToDots (xMm (x_base e)) dpi) (mmToDots (yMm (x_base e)) dpi)
    (mmToDots (x_widthMm e) dpi) (mmToDots (x_heightMm e) dpi) (mmToDots (x_thicknessMm e) dpi).

Section Generate.
Variable bwip_raw : jsstr -> option (list ModuleGrid).

Definition tspl_element (spec : LabelTemplateSpec) (data : LabelData) (deps : LabelDeps)
    (element : LabelElement) : result (list jsstr) :=
  match element with
  | OrganizationLogo e =>
      match logo deps with
      | None => Ok []
      | Some l =>
          '(xDots, yDots, raster) ← renderLabelLogo e (dpi spec) l;
          Ok [buildBitmapCommand xDots yDots raster]
      end
  | TextElement base text shape =>
      line ← renderTextLikeElement base shape text (dpi spec) deps; Ok [line]
  | FieldElement base field textFormat shape =>
      text ← labelFieldDisplayValue field data textFormat;
      line ← renderTextLikeElement base shape text (dpi spec) deps; Ok [line]
  | BarcodeElement e =>
      if drawn_code deps e then
        raster ← rasterizeGs1DataMatrix bwip_raw (data km_code) (mmToDots (sizeMm e) (dpi spec));
        Ok [buildBitmapCommand (mmToDots (xMm (b_base e)) (dpi spec)) (mmToDots (yMm (b_base e)) (dpi spec)) raster]
      else Ok [renderTsplBarcodeElement e data (dpi spec)]
  | LineElement e => Ok [renderLineElement e (dpi spec)]
  | BoxElement e => Ok [renderBoxElement e (dpi spec)]
  end.

Fixpoint tspl_elements (spec : LabelTemplateSpec) (data : LabelData) (deps : LabelDeps)
    (els : list LabelElement) : result (list jsstr) :=
  match els with
  | [] => Ok []
  | e :: es =>
      lines ← tspl_element spec data deps e;
      rest ← tspl_elements spec data deps es;
      Ok (lines ++ rest)
  end.

Definition generateTspl (spec : LabelTemplateSpec) (data : LabelData) (deps : LabelDeps) : result jsstr :=
  lines ← tspl_elements spec data deps (elements spec);
  Ok (buildTsplDocument (widthMm spec) (heightMm spec) lines).
End Generate.

(** ** A reader of TSPL *)

Inductive arg := Word (w : jsstr) | Quoted (q : jsstr).

(** A command: its name, its parameters and the raw bytes of a bitmap. *)
Record tcommand := { t_name : jsstr; t_args : list arg; t_bytes : list Z }.

Record tlabel := {
  tl_size : list arg; tl_gap : list arg; tl_direction : list arg; tl_objects : list tcommand;
  tl_print : list arg
}.

#[export] Instance arg_eq_dec : EqDecision arg.
Proof. solve_decision. Defined.
#[export] Instance tcommand_eq_dec : EqDecision tcommand.
Proof. solve_decision. Defined.
#[export] Instance tlabel_eq_dec : EqDecision tlabel.
Proof. solve_decision. Defined.

Inductive astate := AStart | AWord (w : jsstr) | AQuoted (q : jsstr) | AClosed (q : jsstr).

(** The parameters up to the line feed, and the rest. *)
Fixpoint read_args (st : astate) (args : list arg) (s : list Z) : option (list arg * list Z) :=
  match s with
  | [] => None
  | c :: s' =>
      match st with
      | AStart =>
          if c =? QUOTE then read_args (AQuoted []) args s'
          else if c =? 44 then read_args AStart (args ++ [Word []]) s'
          else if c =? LF then Some (args ++ [Word []], s')
          else read_args (AWord [c]) args s'
      | AWord w =>
          if c =? 44 then read_args AStart (args ++ [Word w]) s'
          else if c =? LF then Some (args ++ [Word w], s')
          else read_args (AWord (w ++ [c])) args s'
      | AQuoted q =>
          if c =? QUOTE then read_args (AClosed q) args s' else read_args (AQuoted (q ++ [c])) args s'
      | AClosed q =>
          if c =? QUOTE then read_args (AQuoted (q ++ [QUOTE])) args s'
          else if c =? 44 then read_args AStart (args ++ [Quoted q]) s'
          else if c =? LF then Some (args ++ [Quoted q], s')
          else None
      end
  end.

(** The text before the first of two separators, and what follows. *)
Fixpoint read_until (stop : Z -> bool) (s : list Z) : jsstr * list Z :=
  match s with
  | [] => ([], [])
  | c :: s' => if stop c then ([], s) else let '(w, rest) := read_until stop s' in (c :: w, rest)
  end.

(** [n] words, each closed by a comma. *)
Fixpoint read_words (n : nat) (s : list Z) : option (list jsstr * list Z) :=
  match n with
  | O => Some ([], s)
  | S n' =>
      match read_until (Z.eqb 44) s with
      | (w, _ :: rest) => '(ws, rest') ← read_words n' rest; Some (w :: ws, rest')
      | _ => None
      end
  end.

(** [BITMAP x,y,width,height,mode,<bytes>]: [width * height] bytes. *)
Definition read_bitmap (s : list Z) : option (list arg * list Z * list Z) :=
  '(ws, rest) ← read_words 5 s;
  match ws with
  | [x; y; w; h; mode] =>
      let n := Z.to_nat (digits_value w * digits_value h) in
      match drop n rest with
      | c :: rest' => if (c =? LF) && forallb is_digit (w ++ h)
                      then Some (map Word ws, take n rest, rest') else None
      | [] => None
      end
  | _ => None
  end.

Definition read_command (s : list Z) : option (tcommand * list Z) :=
  match read_until (fun c => (c =? 32) || (c =? LF)) s with
  | (name, sep :: rest) =>
      if sep =? LF then Some ({| t_name := name; t_args := []; t_bytes := [] |}, rest)
      else if bool_decide (name = js "BITMAP")
      then '(args, bytes, rest') ← read_bitmap rest;
           Some ({| t_name := name; t_args := args; t_bytes := bytes |}, rest')
      else '(args, rest') ← read_args AStart [] rest;
           Some ({| t_name := name; t_args := args; t_bytes := [] |}, rest')
  | _ => None
  end.

Fixpoint read_commands (fuel : nat) (s : list Z) : option (list tcommand) :=
  match s, fuel with
  | [], _ => Some []
  | _, O => None
  | _, S fuel' =>
      '(c, rest) ← read_command s;
      cs ← read_commands fuel' rest;
      Some (c :: cs)
  end.

(** The commands that set up a label or print it. *)
Definition control_names : list jsstr := [js "SIZE"; js "GAP"; js "DIRECTION"; js "CLS"; js "PRINT"].

Definition is_object (c : tcommand) : bool := negb (existsb (fun n => bool_decide (t_name c = n)) control_names).

(** One label: its set-up, its objects and one [PRINT] at the end. *)
Definition read_tspl (bytes : list Z) : option tlabel :=
  cs ← read_commands (length bytes) bytes;
  match cs with
  | size :: gap :: direction :: cls :: rest =>
      match last rest with
      | Some print =>
          let objects := take (length rest - 1) rest in
          if bool_decide (map t_name [size; gap; direction; cls; print] = control_names)
             && forallb is_object objects
          then Some {| tl_size := t_args size; tl_gap := t_args gap; tl_direction := t_args direction;
                       tl_objects := objects; tl_print := t_args print |}
          else None
      | None => None
      end
  | _ => None
  end.

(** ** What should be printed *)

Definition num_args (xs : list spec_float) : list arg := map (fun x => Word (js_of_number x)) xs.
Definition command (name : string) (args : list arg) : tcommand :=
  {| t_name := js name; t_args := args; t_bytes := [] |}.

(** An image: the bytes of the raster, every bit turned. *)
Definition bitmap (x y : spec_float) (r : RasterResult) : tcommand :=
  {| t_name := js "BITMAP";
     t_args := num_args [x; y] ++ [Word (js_of_Z (MonoRaster.bytesPerRow r)); Word (js_of_Z (MonoRaster.r_height r));
                                   Word (js "0")];
     t_bytes := map (fun b => 255 - b) (MonoRaster.parse_hex_bytes (MonoRaster.hex r)) |}.

(** A line of text is the content of its quotes, as it is. *)
Definition text_command (x y : spec_float) (size line : jsstr) : tcommand :=
  command "TEXT" (num_args [x; y] ++ [Quoted (js "0"); Word (js "0"); Word size; Word size;
                                      Quoted line]).

Definition text_commands (base : Base) (shape : TextShape) (text : jsstr) (dpi : Z) (deps : LabelDeps)
  : result (list tcommand) :=
  if drawn shape text then
    '(leftDots, raster) ← drawText deps base shape text dpi;
    Ok [bitmap leftDots (mmToDots (yMm base) dpi) raster]
  else
    let step := mmToDots (fmul (Wrap.ptToMm (fontSizePt shape)) Wrap.LINE_HEIGHT_EM) dpi in
    Ok (imap (fun i line =>
          text_command (fadd (mmToDots (xMm base) dpi) (nativeAlignOffsetDots shape line (maxWidthDots shape dpi) dpi))
            (fadd (mmToDots (yMm base) dpi) (fmul (float_of_Z (Z.of_nat i)) step))
            (js_of_number (fontSizePt shape)) line)
          (default [text] (wrapNativeText shape text))).

(** The text does not fit its lines in the printer's own font, so that its last line is
    cut with the ellipsis; a text sent in that font has none of its own. *)
Definition clipped (shape : TextShape) (text : jsstr) : bool :=
  negb (drawn shape text) && existsb (existsb (Z.eqb 0x2026)) (default [text] (wrapNativeText shape text)).

(** Every text the printer is to write fits its lines. *)
Definition texts_fit (data : LabelData) (elements : list LabelElement) : Prop :=
  forall element, element ∈ elements ->
  match element with
  | TextElement _ text shape => clipped shape text = false
  | FieldElement _ field textFormat shape =>
      forall text, labelFieldDisplayValue field data textFormat = Ok text -> clipped shape text = false
  | _ => True
  end.

Definition barcode_command (e : LabelBarcodeElement) (data : LabelData) (dpi : Z) : tcommand :=
  let xy := num_args [mmToDots (xMm (b_base e)) dpi; mmToDots (yMm (b_base e)) dpi] in
  let size := Word (js_of_number (mmToDots (sizeMm e) dpi)) in
  let zero := Word (js "0") in
  let bars := num_args [narrow_dots e dpi; narrow_dots e dpi] in
  let '(value, field) := resolveBarcodeSource (b_data e) data in
  match format e with
  | code128 =>
      if bool_decide (field = Some sscc)
      then command "BARCODE" (xy ++ [Quoted (js "EAN128"); size; zero; zero] ++ bars ++ [Quoted (js "00" ++ value)])
      else command "BARCODE" (xy ++ [Quoted (js "128"); size; zero; zero] ++ bars ++ [Quoted value])
  | ean13 => command "BARCODE" (xy ++ [Quoted (js "EAN13"); size; zero; zero] ++ bars ++ [Quoted value])
  | datamatrix => command "DMATRIX" (xy ++ [size; size; Quoted value])
  | qr =>
      command "QRCODE" (xy ++ [Word (js "M");
        Word (js_of_number (js_max (float_of_Z 1) (js_min (float_of_Z 10) (mmToDots (sizeMm e) dpi))));
        Word (js "A"); zero; Quoted value])
  end.

Definition line_command (e : LabelLineElement) (dpi : Z) : tcommand :=
  let t := mmToDots (l_thicknessMm e) dpi in
  command "BAR" (num_args
    [mmToDots (js_min (xMm (l_base e)) (x2Mm e)) dpi; mmToDots (js_min (yMm (l_base e)) (y2Mm e)) dpi;
     js_max (mmToDots (SFabs (fsub (x2Mm e) (xMm (l_base e)))) dpi) t;
     js_max (mmToDots (SFabs (fsub (y2Mm e) (yMm (l_base e)))) dpi) t]).

Definition box_command (e : LabelBoxElement) (dpi : Z) : tcommand :=
  let x := mmToDots (xMm (x_base e)) dpi in
  let y := mmToDots (yMm (x_base e)) dpi in
  command "BOX" (num_args
    [x; y; fadd x (mmToDots (x_widthMm e) dpi); fadd y (mmToDots (x_heightMm e) dpi);
     mmToDots (x_thicknessMm e) dpi]).

Section Objects.
Variable bwip_raw : jsstr -> option (list ModuleGrid).

Definition element_commands (spec : LabelTemplateSpec) (data : LabelData) (deps : LabelDeps)
    (element : LabelElement) : result (list tcommand) :=
  match element with
  | OrganizationLogo e =>
      match logo deps with
      | None => Ok []
      | Some l => '(xDots, yDots, raster) ← renderLabelLogo e (dpi spec) l; Ok [bitmap xDots yDots raster]
      end
  | TextElement base text shape => text_commands base shape text (dpi spec) deps
  | FieldElement base field textFormat shape =>
      text ← labelFieldDisplayValue field data textFormat;
      text_commands base shape text (dpi spec) deps
  | BarcodeElement e =>
      if drawn_code deps e then
        raster ← rasterizeGs1DataMatrix bwip_raw (data km_code) (mmToDots (sizeMm e) (dpi spec));
        Ok [bitmap (mmToDots (xMm (b_base e)) (dpi spec)) (mmToDots (yMm (b_base e)) (dpi spec)) raster]
      else Ok [barcode_command e data (dpi spec)]
  | LineElement e => Ok [line_command e (dpi spec)]
  | BoxElement e => Ok [box_command e (dpi spec)]
  end.

Fixpoint label_commands (spec : LabelTemplateSpec) (data : LabelData) (deps : LabelDeps)
    (els : list LabelElement) : result (list tcommand) :=
  match els with
  | [] => Ok []
  | e :: es =>
      cs ← element_commands spec data deps e;
      rest ← label_commands spec data deps es;
      Ok (cs ++ rest)
  end.

(** The label of a template: its size in millimetres, a gap, a direction, the
    objects and one print. *)
Definition label_of (spec : LabelTemplateSpec) (data : LabelData) (deps : LabelDeps) : result tlabel :=
  objects ← label_commands spec data deps (elements spec);
  Ok {| tl_size := [Word (js_of_number (widthMm spec) ++ js " mm"); Word (js " " ++ js_of_number (heightMm spec) ++ js " mm")];
        tl_gap := [Word (js "2 mm"); Word (js " 0 mm")]; tl_direction := [Word (js "1")];
        tl_objects := objects; tl_print := [Word (js "1")] |}.
End Objects.

(** ** Lemmas: the reader *)

Definition word_char (c : Z) : bool :=
  MonoRaster.is_byte c && negb ((c =? QUOTE) || (c =? 44) || (c =? LF)).

Definition print_arg (a : arg) : jsstr := match a with Word w => w | Quoted q => quoted q end.
Definition arg_ok (a : arg) : bool :=
  match a with Word w => forallb word_char w | Quoted q => forallb MonoRaster.is_byte q end.

Lemma word_char_spec c : word_char c = true -> (c =? QUOTE) = false /\ (c =? 44) = false /\ (c =? LF) = false.
Proof.
  unfold word_char. intros H. apply andb_true_iff in H as [_ H]. apply negb_true_iff in H.
  apply orb_false_iff in H as [H ?]. by apply orb_false_iff in H as [? ?].
Qed.

(** What a separator after a finished parameter does. *)
Definition after_arg (args : list arg) (sep : Z) (rest : list Z) : option (list arg * list Z) :=
  if sep =? LF then Some (args, rest) else read_args AStart args rest.

Lemma read_word w args sep rest : forall w0,
  forallb word_char w = true -> sep = 44 \/ sep = LF ->
  read_args (AWord w0) args (w ++ sep :: rest) = after_arg (args ++ [Word (w0 ++ w)]) sep rest.
Proof.
  induction w as [|c w IH]; intros w0 H Hs.
  - rewrite app_nil_r. cbn [app read_args]. unfold after_arg. by destruct Hs as [-> | ->].
  - cbn [forallb] in H. apply andb_true_iff in H as [Hc Hw].
    destruct (word_char_spec c Hc) as (_ & E1 & E2). cbn [app read_args]. rewrite E1, E2, IH by done.
    by rewrite <- app_assoc.
Qed.

Lemma read_quoted q args sep rest : forall q0,
  sep = 44 \/ sep = LF ->
  read_args (AQuoted q0) args (escapeTsplString q ++ QUOTE :: sep :: rest)
  = after_arg (args ++ [Quoted (q0 ++ q)]) sep rest.
Proof.
  induction q as [|c q IH]; intros q0 Hs.
  - rewrite app_nil_r. unfold escapeTsplString. cbn [flat_map app read_args]. rewrite Z.eqb_refl.
    unfold after_arg. by destruct Hs as [-> | ->].
  - unfold escapeTsplString in *. cbn [flat_map]. destruct (Z.eqb_spec c QUOTE) as [->|Hne].
    + cbn [app read_args]. rewrite Z.eqb_refl, IH by done. by rewrite <- app_assoc.
    + cbn [app read_args]. rewrite (proj2 (Z.eqb_neq c QUOTE)) by done. rewrite IH by done.
      by rewrite <- app_assoc.
Qed.

Lemma read_arg a args sep rest :
  arg_ok a = true -> sep = 44 \/ sep = LF ->
  read_args AStart args (print_arg a ++ sep :: rest) = after_arg (args ++ [a]) sep rest.
Proof.
  intros Ha Hs. destruct a as [w|q]; cbn [print_arg arg_ok] in *.
  - destruct w as [|c w].
    + cbn [app read_args]. unfold after_arg. by destruct Hs as [-> | ->].
    + cbn [forallb] in Ha. apply andb_true_iff in Ha as [Hc Hw].
      destruct (word_char_spec c Hc) as (E0 & E1 & E2). cbn [app read_args]. rewrite E0, E1, E2.
      by rewrite read_word.
  - unfold quoted. rewrite <- !app_assoc. cbn [app read_args]. rewrite Z.eqb_refl. by rewrite read_quoted.
Qed.

(** The parameters of a command are read back. *)
Lemma read_args_join args rest : forall args0,
  args <> [] -> forallb arg_ok args = true ->
  read_args AStart args0 (join [44] (map print_arg args) ++ LF :: rest) = Some (args0 ++ args, rest).
Proof.
  induction args as [|a args IH]; intros args0 Hne H; [done|].
  cbn [forallb] in H. apply andb_true_iff in H as [Ha Has].
  destruct args as [|b args].
  - cbn [map join]. rewrite read_arg by auto. done.
  - cbn [map join]. rewrite <- !app_assoc. cbn [app]. rewrite read_arg by auto.
    unfold after_arg. change (44 =? LF) with false. cbv iota.
    change (print_arg b :: map print_arg args) with (map print_arg (b :: args)).
    rewrite IH by done. by rewrite <- app_assoc.
Qed.

Lemma read_until_stop stop w c rest :
  forallb (fun c => negb (stop c)) w = true -> stop c = true ->
  read_until stop (w ++ c :: rest) = (w, c :: rest).
Proof.
  induction w as [|a w IH]; intros Hw Hc; cbn [app read_until]; [by rewrite Hc|].
  cbn [forallb] in Hw. apply andb_true_iff in Hw as [Ha Hw]. apply negb_true_iff in Ha.
  by rewrite Ha, IH.
Qed.

(** Some text is one whole command. *)
Definition readable (text : list Z) (c : tcommand) : Prop :=
  text <> [] /\ forall rest, read_command (text ++ rest) = Some (c, rest).

Definition name_ok (name : jsstr) : bool :=
  forallb (fun c => negb ((c =? 32) || (c =? LF))) name && negb (bool_decide (name = js "BITMAP")).

Lemma readable_command name args :
  name_ok name = true -> args <> [] -> forallb arg_ok args = true ->
  readable (name ++ [32] ++ join [44] (map print_arg args) ++ [LF])
    {| t_name := name; t_args := args; t_bytes := [] |}.
Proof.
  unfold name_ok. intros Hn Hne Ha. apply andb_true_iff in Hn as [Hn Hb].
  split; [by destruct name|]. intros rest. unfold read_command.
  rewrite <- !app_assoc. cbn [app]. rewrite read_until_stop by done.
  change (32 =? LF) with false. cbv iota. apply negb_true_iff in Hb. rewrite Hb.
  rewrite read_args_join by done. reflexivity.
Qed.

Lemma read_commands_concat texts cs : Forall2 readable texts cs ->
  forall fuel, (length cs <= fuel)%nat -> read_commands fuel (concat texts) = Some cs.
Proof.
  induction 1 as [|t c ts cs [Hne Hr] H IH]; intros fuel Hf.
  - by destruct fuel.
  - cbn [length] in Hf. destruct fuel as [|fuel]; [lia|]. cbn [concat].
    destruct (t ++ concat ts) as [|z s] eqn:E; [by apply app_nil in E as [? _]|].
    cbn [read_commands]. rewrite <- E, Hr. cbn [mbind option_bind]. rewrite IH by lia. done.
Qed.

Lemma readable_length texts cs : Forall2 readable texts cs -> (length cs <= length (concat texts))%nat.
Proof.
  induction 1 as [|t c ts cs [Hne _] H IH]; [done|]. cbn [concat length]. rewrite length_app.
  destruct t; [done|]. cbn [length]. lia.
Qed.

(** ** Lemmas: bitmaps *)

Lemma word_number s : number_text s = true -> forallb word_char s = true.
Proof.
  unfold number_text. rewrite !forallb_forall. intros H c Hc. specialize (H c Hc).
  unfold number_char, is_digit in H. unfold word_char, MonoRaster.is_byte, QUOTE, LF.
  rewrite !orb_true_iff, !andb_true_iff, !Z.leb_le, !Z.eqb_eq in H.
  rewrite andb_true_iff, andb_true_iff, negb_true_iff, !orb_false_iff, !Z.leb_le, !Z.eqb_neq. lia.
Qed.

Lemma arg_number x : arg_ok (Word (js_of_number x)) = true.
Proof. apply word_number, number_text_of_number. Qed.
Lemma arg_int z : arg_ok (Word (js_of_Z z)) = true.
Proof. apply word_number, number_text_of_Z. Qed.

Lemma read_words_cons n w rest :
  forallb word_char w = true ->
  read_words (S n) (w ++ 44 :: rest) = ('(ws, rest') ← read_words n rest; Some (w :: ws, rest')).
Proof.
  intros H. cbn [read_words]. rewrite read_until_stop; [done| |done].
  rewrite forallb_forall in H |- *. intros c Hc. specialize (H c Hc). apply word_char_spec in H as (_ & H & _).
  by rewrite Z.eqb_sym, H.
Qed.

Lemma parse_hex_spec : forall s,
  forallb MonoRaster.is_hex_digit s = true ->
  length (MonoRaster.parse_hex_bytes s) = (length s / 2)%nat
  /\ forallb MonoRaster.is_byte (MonoRaster.parse_hex_bytes s) = true.
Proof.
  fix IHs 1. intros [|a [|b s]]; [done|done|]. cbn [forallb]. intros H.
  apply andb_true_iff in H as [Ha H]. apply andb_true_iff in H as [Hb H].
  destruct (IHs s H) as [IH IHb]. cbn [MonoRaster.parse_hex_bytes length forallb].
  rewrite IH, IHb. apply MonoRaster.hex_value_range in Ha, Hb. split.
  - change (S (S (length s))) with (2 + length s)%nat.
    replace (2 + length s)%nat with (1 * 2 + length s)%nat by lia. by rewrite Nat.div_add_l.
  - unfold MonoRaster.is_byte. rewrite (proj2 (Z.leb_le 0 _)), (proj2 (Z.leb_le _ 255)) by lia. done.
Qed.

(** Turning every bit of a byte. *)
Lemma invert_byte b : MonoRaster.is_byte b = true -> Z.lxor b 0xff = 255 - b /\ MonoRaster.is_byte (255 - b) = true.
Proof.
  unfold MonoRaster.is_byte. intros H. apply andb_true_iff in H as [H1%Z.leb_le H2%Z.leb_le].
  assert (Hall : Forall (fun b => Z.lxor b 0xff = 255 - b) (seqZ 0 256)).
  { apply Forall_forall. intros x Hx%list_elem_of_In.
    assert (E : forallb (fun b => Z.lxor b 0xff =? 255 - b) (seqZ 0 256) = true) by (vm_compute; reflexivity).
    rewrite forallb_forall in E. by apply Z.eqb_eq, E. }
  rewrite Forall_forall in Hall. split; [apply Hall, elem_of_seqZ; lia|].
  apply andb_true_iff. rewrite !Z.leb_le. lia.
Qed.

Lemma invertHexToTsplBytes_spec r :
  raster_ok r ->
  invertHexToTsplBytes (MonoRaster.hex r) = t_bytes (bitmap (S754_zero false) (S754_zero false) r)
  /\ byte_text (invertHexToTsplBytes (MonoRaster.hex r))
  /\ Z.of_nat (length (invertHexToTsplBytes (MonoRaster.hex r)))
     = MonoRaster.bytesPerRow r * MonoRaster.r_height r.
Proof.
  intros (Hh & Hl & Ht & _ & _). destruct (parse_hex_spec _ Hh) as [Hlen Hb].
  unfold invertHexToTsplBytes. cbn [bitmap t_bytes]. split; [|split].
  - apply map_ext_in. intros b Hin. rewrite forallb_forall in Hb. by apply invert_byte, Hb.
  - apply byte_text_spec. rewrite forallb_map. rewrite forallb_forall in Hb |- *. intros b Hin.
    destruct (invert_byte b (Hb b Hin)) as [-> ?]. done.
  - rewrite length_map, Hlen, Nat2Z.inj_div. change (Z.of_nat 2) with 2. rewrite Hl, Z.mul_comm, Z.div_mul; lia.
Qed.

Lemma int_digits z : 0 <= z -> forallb is_digit (js_of_Z z) = true /\ digits_value (js_of_Z z) = z.
Proof. intros H. rewrite js_of_Z_nonneg by done. destruct (js_of_nonneg_spec z H) as (? & ? & _). done. Qed.

Lemma readable_bitmap x y r :
  raster_ok r -> readable (buildBitmapCommand x y r ++ [LF]) (bitmap x y r).
Proof.
  intros Hr. destruct (invertHexToTsplBytes_spec r Hr) as (Eb & _ & Hlen).
  destruct Hr as (_ & _ & _ & Hw & Hh).
  split; [done|]. intros rest. unfold buildBitmapCommand.
  set (ps := invertHexToTsplBytes _) in *.
  destruct (int_digits _ Hw) as [Dw Vw]. destruct (int_digits _ Hh) as [Dh Vh].
  replace ((js "BITMAP " ++ _) ++ [LF]) with
    (js "BITMAP" ++ [32] ++ js_of_number x ++ [44] ++ js_of_number y ++ [44] ++ js_of_Z (MonoRaster.bytesPerRow r)
     ++ [44] ++ js_of_Z (MonoRaster.r_height r) ++ [44] ++ js "0" ++ [44] ++ ps ++ [LF]) by flatten.
  unfold read_command. rewrite <- !app_assoc. cbn [app]. rewrite read_until_stop by (vm_compute; done).
  change (32 =? LF) with false. cbv iota. rewrite bool_decide_eq_true_2 by done.
  unfold read_bitmap.
  rewrite !read_words_cons by (apply word_number; (apply number_text_of_number || apply number_text_of_Z || done)).
  cbn [read_words mbind option_bind]. rewrite Vw, Vh.
  rewrite <- Hlen, Nat2Z.id, drop_app_length, take_app_length. rewrite Z.eqb_refl, forallb_app, Dw, Dh.
  cbn [andb]. unfold bitmap. rewrite Eb. reflexivity.
Qed.

(** ** Lemmas: the lines of a text *)

(** The wrap invents no character but spaces and the ellipsis. *)
Section WrapChars.
Context (measure : jsstr -> spec_float) (maxWidth : spec_float) (P : Z -> Prop)
  (Hspace : P 32) (Hellipsis : P 0x2026).

Lemma words_chars text : Forall P text -> Forall (Forall P) (Wrap.words text).
Proof.
  intros H. unfold Wrap.words. apply Forall_forall. intros w Hw%list_elem_of_In.
  apply List.filter_In in Hw as [Hw _]. apply list_elem_of_In in Hw.
  revert w Hw. apply Forall_forall. induction H as [|c s Hc Hs IH]; cbn [Wrap.split_by].
  - by repeat constructor.
  - destruct (is_space c); [by constructor|].
    destruct (Wrap.split_by is_space s) as [|w ws]; [by repeat constructor|].
    apply Forall_cons in IH as [? ?]. by repeat constructor.
Qed.

Lemma code_points_chars s : Forall P s -> Forall (Forall P) (Wrap.code_points s).
Proof.
  destruct (Wrap.code_points_spec s) as [E _]. rewrite <- E at 1. apply Forall_concat.
Qed.

Lemma clip_chars text : Forall P text -> Forall P (Wrap.clipWithEllipsis measure maxWidth text).
Proof.
  intros H. unfold Wrap.clipWithEllipsis. repeat case_match; try done;
    apply Forall_app; split; try (by repeat constructor); by apply Forall_take.
Qed.

Definition pair_chars (st : list jsstr * jsstr) : Prop := Forall (Forall P) st.1 /\ Forall P st.2.

Lemma break_chars word : Forall P word -> Forall (Forall P) (Wrap.breakLongWord measure maxWidth word).
Proof.
  intros H. unfold Wrap.breakLongWord.
  assert (Hf : forall cps st, Forall (Forall P) cps -> pair_chars st ->
             pair_chars (fold_left (Wrap.break_step measure maxWidth) cps st)).
  { induction cps as [|ch cps IH]; intros [chunks cur] Hc Hst; cbn [fold_left]; [done|].
    apply Forall_cons in Hc as [Hch Hcps]. apply IH; [done|]. destruct Hst as [H1 H2]. cbn [fst snd] in *.
    unfold Wrap.break_step. cbv zeta. repeat case_match; split; cbn [fst snd]; try done;
      try (apply Forall_app; split; try done; by repeat constructor). }
  pose proof (Hf (Wrap.code_points word) ([], []) (code_points_chars _ H)) as Hst.
  destruct (fold_left _ _ _) as [chunks cur]. destruct Hst as [H1 H2]; [by split|]. cbn [fst snd] in *.
  repeat case_match; try done; try (by repeat constructor);
    apply Forall_app; split; try done; by repeat constructor.
Qed.

Lemma wrap_chars text n : Forall P text -> Forall (Forall P) (Wrap.wrapTextToWidth measure maxWidth text n).
Proof.
  intros H. unfold Wrap.wrapTextToWidth.
  assert (Hf : forall ws st, Forall (Forall P) ws -> pair_chars st ->
             pair_chars (fold_left (Wrap.wrap_step measure maxWidth) ws st)).
  { induction ws as [|w ws IH]; intros [lines cur] Hw Hst; cbn [fold_left]; [done|].
    apply Forall_cons in Hw as [Hc Hws]. apply IH; [done|]. destruct Hst as [H1 H2]. cbn [fst snd] in *.
    assert (Hl : Forall (Forall P) (if bool_decide (cur = []) then lines else lines ++ [cur])).
    { case_match; [done|]. apply Forall_app. split; [done | by repeat constructor]. }
    unfold Wrap.wrap_step. cbv zeta.
    set (candidate := if bool_decide (cur = []) then w else _).
    assert (Hcand : Forall P candidate).
    { unfold candidate. case_match; [done|]. rewrite !Forall_app. repeat split; try done. by repeat constructor. }
    destruct (Wrap.fits _ _ candidate); [by split|]. destruct (Wrap.fits _ _ w); [by split|].
    pose proof (break_chars w Hc) as Hb. split; cbn [fst snd].
    - apply Forall_app. split; [done | by apply Forall_take].
    - destruct (last _) as [l|] eqn:E; [|by constructor]. apply last_Some_elem_of in E.
      rewrite Forall_forall in Hb. by apply Hb. }
  pose proof (Hf (Wrap.words text) ([], []) (words_chars _ H)) as Hst.
  case_match; [by repeat constructor|]. cbv zeta. case_match; [by repeat constructor|].
  destruct (fold_left _ _ _) as [lines cur]. destruct Hst as [Hl Hcur]; [by split|]. cbn [fst snd] in *.
  set (all := if bool_decide (cur = []) then lines else _).
  assert (Ha : Forall (Forall P) all).
  { unfold all. case_match; [done|]. apply Forall_app. split; [done | by repeat constructor]. }
  case_match; [by repeat constructor|]. case_match; [done|].
  assert (Hk : Forall (Forall P) (take (Z.to_nat (Z.max 1 n)) all)) by by apply Forall_take.
  apply Forall_insert; [done|]. apply clip_chars.
  destruct (_ !! _) as [l|] eqn:E; [|by constructor]. cbn [default].
  by eapply Forall_lookup_1 in Hk.
Qed.
End WrapChars.

(** ** Lemmas: the elements *)

(** A line of the document (or several) and the commands a reader finds there. *)
Definition reads_as (line : jsstr) (cs : list tcommand) : Prop :=
  exists parts, latin1ToBytes line ++ [LF] = concat parts /\ Forall2 readable parts cs
    /\ forallb is_object cs = true.

Definition print_command (name : jsstr) (args : list arg) : jsstr := name ++ [32] ++ join [44] (map print_arg args).

Lemma quoted_bytes q : byte_text q -> byte_text (quoted q).
Proof.
  intros H. unfold quoted. rewrite !byte_text_app. split; [by repeat constructor|].
  split; [|by repeat constructor]. induction H as [|c q Hc Hq IH]; [constructor|].
  unfold escapeTsplString in *. cbn [flat_map]. apply byte_text_app. split; [|done].
  assert (Hq' : 0 <= QUOTE <= 255) by (unfold QUOTE; lia).
  destruct (c =? QUOTE); [by constructor; [|constructor] | by constructor].
Qed.

Lemma arg_bytes a : arg_ok a = true -> byte_text (print_arg a).
Proof.
  destruct a as [w|q]; cbn [arg_ok print_arg]; intros H.
  - apply byte_text_spec. rewrite forallb_forall in H |- *. intros c Hc. specialize (H c Hc).
    unfold word_char in H. by apply andb_true_iff in H as [? _].
  - apply quoted_bytes. by apply byte_text_spec.
Qed.

Lemma args_bytes args : forallb arg_ok args = true -> byte_text (join [44] (map print_arg args)).
Proof.
  induction args as [|a args IH]; cbn [forallb]; [constructor|]. intros H.
  apply andb_true_iff in H as [Ha Has]. apply arg_bytes in Ha. destruct args as [|b args]; [done|].
  change (join [44] (map print_arg (a :: b :: args)))
    with (print_arg a ++ [44] ++ join [44] (map print_arg (b :: args))).
  rewrite !byte_text_app. split; [done|]. split; [by repeat constructor | by apply IH].
Qed.

Definition command_ok (name : jsstr) (args : list arg) : bool :=
  name_ok name && forallb MonoRaster.is_byte name && is_object {| t_name := name; t_args := args; t_bytes := [] |}
  && negb (bool_decide (args = [])) && forallb arg_ok args.

Lemma reads_sent line name args :
  command_ok name args = true -> latin1ToBytes line = print_command name args ->
  reads_as line [{| t_name := name; t_args := args; t_bytes := [] |}].
Proof.
  unfold command_ok. intros H E. bool_hyps. exists [print_command name args ++ [LF]]. cbn [concat].
  rewrite E, app_nil_r. split; [done|]. split.
  - constructor; [|constructor]. unfold print_command. rewrite <- !app_assoc. by apply readable_command.
  - cbn [forallb]. by rewrite andb_true_r.
Qed.

(** A command made of bytes is sent as it is. *)
Lemma reads_command line name args :
  command_ok name args = true -> line = print_command name args ->
  reads_as line [{| t_name := name; t_args := args; t_bytes := [] |}].
Proof.
  intros H ->. apply reads_sent; [done|]. apply latin1_bytes. unfold print_command.
  unfold command_ok in H. bool_hyps. rewrite !byte_text_app, byte_text_spec.
  split; [done|]. split; [by repeat constructor | by apply args_bytes].
Qed.

Lemma reads_bitmap x y r : raster_ok r -> reads_as (buildBitmapCommand x y r) [bitmap x y r].
Proof.
  intros Hr. exists [buildBitmapCommand x y r ++ [LF]]. cbn [concat]. rewrite app_nil_r.
  split; [|split; [constructor; [by apply readable_bitmap | constructor] | done]].
  f_equal. apply latin1_bytes. destruct (invertHexToTsplBytes_spec r Hr) as (_ & Hb & _).
  assert (Hn : forall s, number_text s = true -> byte_text s).
  { intros s H%word_number. by apply (arg_bytes (Word s)). }
  unfold buildBitmapCommand. rewrite !byte_text_app.
  repeat split; try (by repeat constructor); try done; apply Hn;
    (apply number_text_of_number || apply number_text_of_Z).
Qed.

(** What a line of the printer's own font may hold. *)
Definition sent_char (c : Z) : Prop := 0x20 <= c <= 0x7e \/ c = 0x2026.

Lemma comma_args xs : comma xs = join [44] (map print_arg (num_args xs)).
Proof. unfold comma, num_args. by rewrite map_map. Qed.

Lemma reads_text_line x y size line :
  number_text size = true -> byte_text line ->
  reads_as (TEXT x y size line) [text_command x y size line].
Proof.
  intros Hs Hb. assert (El : latin1ToBytes (quoted line) = quoted line) by by apply latin1_bytes, quoted_bytes.
  apply reads_sent.
  - unfold command_ok, num_args. cbn [map app forallb arg_ok].
    rewrite !word_number by (done || apply number_text_of_number).
    by rewrite (proj1 (byte_text_spec _) Hb).
  - assert (Hz : byte_text size) by by apply (arg_bytes (Word size)), word_number.
    assert (Hxy : byte_text (comma [x; y])).
    { rewrite comma_args. apply args_bytes. cbn [num_args map forallb]. by rewrite !arg_number. }
    assert (Hq : byte_text (quoted (js "0"))) by (apply quoted_bytes; by repeat constructor).
    unfold TEXT. rewrite !latin1_app, El. rewrite !latin1_bytes by (assumption || by repeat constructor).
    unfold print_command, comma, num_args. cbn [map app join print_arg]. flatten.
Qed.

(** Several lines of the document and the commands of all of them. *)
Lemma reads_lines lines css :
  lines <> [] -> Forall2 reads_as lines css -> reads_as (join [LF] lines) (concat css).
Proof.
  intros Hne H. assert (E : latin1ToBytes (join [LF] lines) ++ [LF]
    = concat (map (fun l => latin1ToBytes l ++ [LF]) lines)).
  { destruct (exists_last Hne) as (l & rest & ->).
    change (latin1ToBytes (join [LF] (l ++ [rest])) ++ [LF])
      with (latin1ToBytes (join [LF] (l ++ [rest])) ++ latin1ToBytes [LF]).
    rewrite <- latin1_app, join_lines. generalize (l ++ [rest]). intros ls.
    induction ls as [|a ls IH]; [done|]. cbn [map concat]. rewrite !latin1_app, IH. done. }
  clear Hne. unfold reads_as. rewrite E. clear E.
  induction H as [|line cs lines css (parts & E & Hp & Ho) H IH]; [by exists []|].
  destruct IH as (parts' & E' & Hp' & Ho'). exists (parts ++ parts'). cbn [map concat].
  rewrite concat_app, forallb_app, E, E', Ho, Ho'. split; [done|]. split; [by apply Forall2_app | done].
Qed.

Lemma concat_singletons {A B} (f : nat -> A -> B) l : concat (imap (fun i a => [f i a]) l) = imap f l.
Proof. revert f. induction l as [|a l IH]; intros f; [done|]. cbn [imap concat app]. f_equal. apply IH. Qed.

Lemma native_lines shape text :
  ascii_text text -> default [text] (wrapNativeText shape text) <> []
  /\ Forall (Forall sent_char) (default [text] (wrapNativeText shape text)).
Proof.
  intros Ha. assert (Ht : Forall sent_char text) by (eapply Forall_impl; [exact Ha|]; by left).
  unfold wrapNativeText. destruct (maxWidthMm shape) as [w|]; [|by repeat constructor].
  cbv zeta. case_bool_decide as E; [by repeat constructor|]. cbn [default]. unfold Datatypes.id.
  split.
  - unfold Wrap.wrapTextToWidth. case_match; [done|]. cbv zeta. case_match; [done|].
    destruct (fold_left _ _ _) as [lines cur]. set (all := if bool_decide (cur = []) then lines else _).
    destruct (length all =? 0)%nat eqn:El; [done|]. apply Nat.eqb_neq in El.
    destruct (length all <=? _)%nat; [by destruct all|].
    intros Hn. apply (f_equal length) in Hn. rewrite length_insert, length_take in Hn. cbn in Hn. lia.
  - apply wrap_chars; [|by right|done]. left. lia.
Qed.

(** The lines of a text that fits are Latin-1, so the station sends them as they are. *)
Lemma fitting_lines shape text :
  ascii_text text -> existsb (existsb (Z.eqb 0x2026)) (default [text] (wrapNativeText shape text)) = false ->
  Forall byte_text (default [text] (wrapNativeText shape text)).
Proof.
  intros [_ H]%(native_lines shape) Hc. rewrite <- not_true_iff_false, existsb_exists in Hc.
  apply Forall_forall. intros line Hin. rewrite Forall_forall in H. specialize (H line Hin).
  apply Forall_forall. intros c Hch. rewrite Forall_forall in H. destruct (H c Hch) as [Hr| ->]; [cbn; lia|].
  destruct Hc. exists line. split; [by apply list_elem_of_In|]. apply existsb_exists. exists 0x2026.
  split; [by apply list_elem_of_In | done].
Qed.

Lemma treads_text base shape text dpi deps :
  rasterizer_ok deps -> clipped shape text = false ->
  result_rel reads_as (renderTextLikeElement base shape text dpi deps) (text_commands base shape text dpi deps).
Proof.
  intros Hr. unfold clipped, renderTextLikeElement, text_commands. cbv zeta. intros Hf.
  destruct (drawn shape text) eqn:Ed.
  - apply result_rel_bind. intros [leftDots r] Hd. apply reads_bitmap. by eapply drawText_ok.
  - assert (Ha : ascii_text text).
    { unfold drawn in Ed. apply orb_false_iff in Ed as [Ed _]. apply orb_false_iff in Ed as [Ed _].
      by apply needsImageRendering_ascii. }
    destruct (native_lines shape text Ha) as [Hne _]. pose proof (fitting_lines shape text Ha Hf) as Hc.
    cbn [result_rel].
    match goal with |- reads_as _ (imap ?f ?l) => rewrite <- (concat_singletons f l) end. apply reads_lines.
    + intros E. apply Hne. apply (f_equal length) in E. rewrite length_imap in E. by apply nil_length_inv.
    + apply Forall2_imap. intros i line Hin. apply reads_text_line; [apply number_text_of_number|].
      rewrite Forall_forall in Hc. by apply Hc.
Qed.

Ltac command_ok_tac Hv :=
  unfold command_ok, num_args; cbn [map app forallb arg_ok];
  rewrite ?(word_number _ (number_text_of_number _)), ?forallb_app, ?Hv; reflexivity.

Lemma treads_barcode e data dpi :
  byte_text (resolveBarcodeSource (b_data e) data).1 ->
  reads_as (renderTsplBarcodeElement e data dpi) [barcode_command e data dpi].
Proof.
  unfold renderTsplBarcodeElement, barcode_command, barWidthParams. cbv zeta.
  destruct (resolveBarcodeSource (b_data e) data) as [value field]. cbn [fst]. intros Hv%byte_text_spec.
  destruct (format e); [|destruct (bool_decide (field = Some sscc))| |]; unfold command.
  all: apply reads_command; [command_ok_tac Hv|].
  all: unfold print_command, comma, num_args; cbn [map app join print_arg]; flatten.
Qed.

(** ** Lemmas: the document *)

Section Document.
Context (bwip_raw : jsstr -> option (list ModuleGrid)) (spec : LabelTemplateSpec) (data : LabelData)
  (deps : LabelDeps) (Hr : rasterizer_ok deps).

(** The lines of an element and its commands: each line has some. *)
Definition reads_all (lines : list jsstr) (cs : list tcommand) : Prop :=
  exists css, cs = concat css /\ Forall2 reads_as lines css.

Lemma reads_one line cs : reads_as line cs -> reads_all [line] cs.
Proof. intros H. exists [cs]. cbn [concat]. rewrite app_nil_r. by repeat constructor. Qed.

Lemma treads_element e :
  codes_latin1 data deps [e] -> texts_fit data [e] ->
  result_rel reads_all (tspl_element bwip_raw spec data deps e) (element_commands bwip_raw spec data deps e).
Proof.
  assert (Htext : forall base text shape, clipped shape text = false ->
    result_rel reads_all (line ← renderTextLikeElement base shape text (dpi spec) deps; Ok [line])
      (text_commands base shape text (dpi spec) deps)).
  { intros base text shape Hf. pose proof (treads_text base shape text (dpi spec) deps Hr Hf) as H.
    destruct (renderTextLikeElement _ _ _ _ _), (text_commands _ _ _ _ _); cbn in *; try done.
    by apply reads_one. }
  intros Hc Hf. specialize (Hf e ltac:(by left)).
  destruct e as [base text shape|base field tf shape|e|e|e|e]; cbn [tspl_element element_commands].
  - by apply Htext.
  - apply result_rel_bind. intros text Et. by apply Htext, Hf.
  - destruct (drawn_code deps e) eqn:E.
    + apply result_rel_bind. intros r H. apply reads_one, reads_bitmap. by eapply rasterizeGs1DataMatrix_ok.
    + apply reads_one, treads_barcode, Hc; [by left | done].
  - apply reads_one. unfold renderLineElement, line_command, buildTsplBar, command. cbv zeta.
    apply reads_command; [by command_ok_tac I|]. by rewrite comma_args.
  - apply reads_one. unfold renderBoxElement, box_command, buildTsplBox, command. cbv zeta.
    apply reads_command; [by command_ok_tac I|]. by rewrite comma_args.
  - destruct (logo deps) as [l|]; [|by exists []].
    apply result_rel_bind. intros [[x y] r] H. apply reads_one, reads_bitmap. by eapply renderLabelLogo_ok.
Qed.

Lemma treads_elements els :
  codes_latin1 data deps els -> texts_fit data els ->
  result_rel reads_all (tspl_elements bwip_raw spec data deps els) (label_commands bwip_raw spec data deps els).
Proof.
  induction els as [|e es IH]; intros Hc Hf; cbn [tspl_elements label_commands]; [by exists []|].
  eapply result_rel_seq; [apply treads_element|].
  { intros e' He. apply Hc. apply list_elem_of_singleton in He as ->. left. }
  { intros e' He. apply Hf. apply list_elem_of_singleton in He as ->. left. }
  intros lines cs (css & -> & Hl). eapply result_rel_seq; [apply IH|].
  { intros e' He. apply Hc. by right. }
  { intros e' He. apply Hf. by right. }
  intros rest rcs (rcss & -> & Hl'). exists (css ++ rcss). rewrite concat_app. split; [done|].
  by apply Forall2_app.
Qed.
End Document.

Lemma number_words s t : number_text s = true -> forallb word_char t = true -> arg_ok (Word (s ++ t)) = true.
Proof. intros Hs Ht. cbn [arg_ok]. rewrite forallb_app, word_number by done. done. Qed.

(** The commands that set a label up, and the one that prints it. *)
Definition setup_commands (w h : spec_float) : list tcommand :=
  [command "SIZE" [Word (js_of_number w ++ js " mm"); Word (js " " ++ js_of_number h ++ js " mm")];
   command "GAP" [Word (js "2 mm"); Word (js " 0 mm")]; command "DIRECTION" [Word (js "1")]; command "CLS" []].
Definition print_once : tcommand := command "PRINT" [Word (js "1")].

Lemma readable_line line c :
  name_ok (t_name c) = true -> t_args c <> [] -> forallb arg_ok (t_args c) = true -> t_bytes c = [] ->
  line = print_command (t_name c) (t_args c) ++ [LF] -> readable line c.
Proof.
  destruct c as [n args b]. cbn [t_name t_args t_bytes]. intros Hn Hne Ha -> ->.
  unfold print_command. rewrite <- !app_assoc. by apply readable_command.
Qed.

Lemma setup_readable w h :
  Forall2 readable
    [js "SIZE " ++ js_of_number w ++ js " mm, " ++ js_of_number h ++ js " mm" ++ [LF];
     js "GAP 2 mm, 0 mm" ++ [LF]; js "DIRECTION 1" ++ [LF]; js "CLS" ++ [LF]] (setup_commands w h).
Proof.
  pose proof (number_text_of_number w) as Hw. pose proof (number_text_of_number h) as Hh.
  unfold setup_commands, command.
  generalize dependent (js_of_number w). generalize dependent (js_of_number h). intros ph Hh pw Hw.
  constructor; [|constructor; [|constructor; [|constructor; [|constructor]]]].
  - apply readable_line; [done|done| |done|].
    + cbn [forallb t_args]. rewrite number_words by done. cbn [arg_ok].
      rewrite !forallb_app, (word_number ph) by done. reflexivity.
    + unfold print_command. cbn [t_name t_args map print_arg join]. flatten.
  - by apply readable_line.
  - by apply readable_line.
  - by split.
Qed.

Lemma latin1_line l : latin1ToBytes l ++ [LF] = latin1ToBytes (l ++ [LF]).
Proof. by rewrite latin1_app. Qed.

Lemma document_bytes w h lines :
  latin1ToBytes (buildTsplDocument w h lines)
  = concat [js "SIZE " ++ js_of_number w ++ js " mm, " ++ js_of_number h ++ js " mm" ++ [LF];
            js "GAP 2 mm, 0 mm" ++ [LF]; js "DIRECTION 1" ++ [LF]; js "CLS" ++ [LF]]
    ++ concat (map (fun l => latin1ToBytes l ++ [LF]) lines) ++ js "PRINT 1" ++ [LF].
Proof.
  assert (Hn : forall x, byte_text (js_of_number x)).
  { intros x. apply (arg_bytes (Word (js_of_number x))), arg_number. }
  unfold buildTsplDocument. cbn [app]. rewrite !app_comm_cons, join_lines.
  rewrite map_app, concat_app, latin1_app, (app_assoc (concat [_; _; _; _]) _ (js "PRINT 1" ++ [LF])).
  f_equal. cbn [map concat]. rewrite !latin1_app, !(latin1_bytes (js_of_number _)) by done.
  assert (El : latin1ToBytes (concat (map (fun l => l ++ [LF]) lines))
               = concat (map (fun l => latin1ToBytes l ++ [LF]) lines)).
  { induction lines as [|l ls IH]; [done|]. cbn [map concat]. by rewrite !latin1_app, IH. }
  rewrite El, !app_nil_r. rewrite <- !app_assoc. reflexivity.
Qed.

Lemma read_tdocument w h lines objects :
  reads_all lines objects ->
  read_tspl (latin1ToBytes (buildTsplDocument w h lines))
  = Some {| tl_size := [Word (js_of_number w ++ js " mm"); Word (js " " ++ js_of_number h ++ js " mm")];
            tl_gap := [Word (js "2 mm"); Word (js " 0 mm")]; tl_direction := [Word (js "1")];
            tl_objects := objects; tl_print := [Word (js "1")] |}.
Proof.
  intros (css & -> & H). rewrite document_bytes.
  assert (Hp : exists parts, concat (map (fun l => latin1ToBytes l ++ [LF]) lines) = concat parts
                /\ Forall2 readable parts (concat css) /\ forallb is_object (concat css) = true).
  { clear w h. induction H as [|l cs ls css (ps & E & Hr & Ho) H IH]; [by exists []|].
    destruct IH as (ps' & E' & Hr' & Ho'). exists (ps ++ ps'). cbn [map concat].
    rewrite concat_app, forallb_app, E, E', Ho, Ho'. split; [done|]. split; [by apply Forall2_app | done]. }
  destruct Hp as (parts & E & Hr & Ho). rewrite E. clear E H.
  generalize dependent (concat css). intros objects Hr Ho.
  set (top := [_; _; _; _]).
  assert (Hall : Forall2 readable (top ++ parts ++ [js "PRINT 1" ++ [LF]]) (setup_commands w h ++ objects ++ [print_once])).
  { apply Forall2_app; [apply setup_readable|]. apply Forall2_app; [done|].
    constructor; [|constructor]. by apply readable_line. }
  replace (concat top ++ concat parts ++ js "PRINT 1" ++ [LF])
    with (concat (top ++ parts ++ [js "PRINT 1" ++ [LF]])) by (rewrite !concat_app; cbn [concat]; by rewrite app_nil_r).
  unfold read_tspl. rewrite (read_commands_concat _ _ Hall) by by apply readable_length.
  cbn [mbind option_bind setup_commands app].
  rewrite last_snoc, length_app. cbn [length].
  replace (length objects + 1 - 1)%nat with (length objects) by lia.
  rewrite take_app_length, Ho. reflexivity.
Qed.

(** ** The theorem *)

(** C24: the same for a TSPL printer, for a template in which every text the printer
    is to write in its own font fits its lines ([texts_fit]), every code left to the printer is
    Latin-1 text, and a rasterizer that returns the bytes it announces: the bytes sent are
    one label with the size of the template in millimetres and, in order, exactly the
    commands the template asks for, one per line of a broken text; every code and every
    line of text is, character for character, the content of its own quotes, every bitmap
    has as many bytes as its command announces, and the emitter fails exactly when a text,
    a logo or a drawn code does.  A text that does not fit is cut with an ellipsis that the
    station sends as an ampersand ([clipped_text_prints_an_ampersand]). *)
Theorem tspl_reads_back (bwip_raw : jsstr -> option (list ModuleGrid)) (spec : LabelTemplateSpec)
    (data : LabelData) (deps : LabelDeps)
    (Hr : rasterizer_ok deps) (Hc : codes_latin1 data deps (elements spec))
    (Hf : texts_fit data (elements spec)) :
  (doc ← generateTspl bwip_raw spec data deps; Ok (read_tspl (latin1ToBytes doc)))
  = (label ← label_of bwip_raw spec data deps; Ok (Some label)).
Proof.
  unfold generateTspl, label_of.
  pose proof (treads_elements bwip_raw spec data deps Hr (elements spec) Hc Hf) as H.
  destruct (tspl_elements _ _ _ _ _) as [lines|e], (label_commands _ _ _ _ _) as [objects|e'];
    cbn [result_rel] in H; try done; [|by subst].
  cbn [mbind result_bind]. by rewrite (read_tdocument _ _ lines objects).
Qed.

(** ** Examples *)

Definition sample_base : Base := {| id := js "a"; xMm := float_of_Z 2; yMm := float_of_Z 3 |}.
Definition sample_shape : TextShape :=
  {| fontSizePt := float_of_Z 10; minFontSizePt := None; bold := None; fontFamily := None;
     lineHeight := None; align := Some align_center; maxWidthMm := Some (float_of_Z 20); maxLines := Some 2 |}.
Definition sample_code (f : BarcodeFormat) (d : BarcodeSource) : LabelBarcodeElement :=
  {| b_base := sample_base; format := f; b_data := d; sizeMm := float_of_Z 5; moduleWidthMm := Some (float_of_Z 1) |}.

(** A text that closes its quotes and is broken in two lines, a drawn one, the
    four kinds of codes, one with a line feed, a line. *)
Definition sample_spec : LabelTemplateSpec :=
  {| widthMm := float_of_Z 58; heightMm := float_of_Z 40; dpi := 203;
     elements := [TextElement sample_base ([65; QUOTE] ++ js ",PRINT 9 and so on") sample_shape;
                  TextElement sample_base [0x413] sample_shape;
                  BarcodeElement (sample_code datamatrix (SourceLiteral [QUOTE; LF; 80]));
                  BarcodeElement (sample_code code128 (SourceField sscc));
                  BarcodeElement (sample_code ean13 (SourceField product_gtin));
                  BarcodeElement (sample_code qr (SourceLiteral (js "a,b")));
                  LineElement {| l_base := sample_base; x2Mm := float_of_Z 9; y2Mm := float_of_Z 3;
                                 l_thicknessMm := float_of_Z 1 |}] |}.

Definition sample_data (f : LabelField) : jsstr :=
  match f with
  | sscc => js "346006820000000014"
  | product_gtin => js "4600682000013"
  | _ => []
  end.

Definition sample_rasterize : RasterizeTextFn := fun _ _ =>
  Ok {| MonoRaster.hex := js "F5A5"; MonoRaster.totalBytes := 2; MonoRaster.bytesPerRow := 1;
        MonoRaster.r_width := 8; MonoRaster.r_height := 2 |}.
Definition sample_deps : LabelDeps :=
  {| rasterizeText := Some sample_rasterize; logo := None; kmRaster := false |}.

Lemma tspl_reads_back_witness :
  (doc ← generateTspl (fun _ => None) sample_spec sample_data sample_deps;
   Ok (read_tspl (latin1ToBytes doc)))
  = (label ← label_of (fun _ => None) sample_spec sample_data sample_deps; Ok (Some label))
  /\ is_ok (generateTspl (fun _ => None) sample_spec sample_data sample_deps) = true.
Proof.
  split; [|vm_compute; reflexivity].
  apply tspl_reads_back.
  - intros draw [= <-] text opts r [= <-]. repeat split; vm_compute; done.
  - intros e He _. apply byte_text_spec. cbn [sample_spec elements] in He.
    repeat (apply elem_of_cons in He as [He|He]; [try discriminate He; injection He as ->; vm_compute; reflexivity|]).
    by apply elem_of_nil in He.
  - intros e He. cbn [sample_spec elements] in He.
    repeat (apply elem_of_cons in He as [->|He]; [vm_compute; done|]). by apply elem_of_nil in He.
Defined.

(** A text of the printer's own font that does not fit is cut with an ellipsis,
    which is not Latin-1: its low byte is the ampersand, and that is printed. *)
Definition one_line : TextShape :=
  {| fontSizePt := float_of_Z 10; minFontSizePt := None; bold := None; fontFamily := None;
     lineHeight := None; align := None; maxWidthMm := Some (float_of_Z 20); maxLines := None |}.

Lemma clipped_text_prints_an_ampersand :
  clipped one_line (js "Light lager beer") = true
  /\ (latin1ToBytes <$> renderTextLikeElement sample_base one_line (js "Light lager beer") 203 sample_deps)
     = Ok (js "TEXT 16,24," ++ quoted (js "0") ++ js ",0,10,10," ++ quoted (js "Light&")).
Proof. split; vm_compute; reflexivity. Qed.

(** The low byte of the Cyrillic capital letter U+0422 is the quote: a QR code
    of a name with that letter closes its own quotes. *)
Lemma qr_of_cyrillic_name_closes_its_quotes :
  let data f := if bool_decide (f = product_name) then [0x422] ++ js "ea" else [] in
  let spec := {| widthMm := float_of_Z 58; heightMm := float_of_Z 40; dpi := 203;
                 elements := [BarcodeElement (sample_code qr (SourceField product_name))] |} in
  (doc ← generateTspl (fun _ => None) spec data sample_deps; Ok (read_tspl (latin1ToBytes doc)))
  = Ok None.
Proof. vm_compute. reflexivity. Qed.
