(* ===== verification/BoxLabel.v ===== *)
(** * Box and pallet labels

    [packages/domain/src/labels/box-label.ts] and [pallet-label.ts]: the record
    of fields a closed box or pallet is printed from; [labels/eligibility.ts]:
    which template may be offered and which is the default; [labels/code128.ts]:
    the width of a linear code in modules; [renderLabelBytes] of the station's
    [lib/print-label.ts].  The local calendar date of an instant is the device's
    own ([new Date] and its zone) and a parameter. *)

From stdpp Require Import base list strings gmap.
From Stdlib Require Import ZArith QArith Lia.
From Stdlib Require Import SpecFloat.
From S2P Require Import Prelude Dates LabelModel.
From S2P Require MonoRaster Zpl Tspl.

Open Scope Z_scope.

(** ** box-label.ts *)

Record BoxLabelInput := {
  bi_sscc : jsstr; bi_itemCount : Z; bi_productName : jsstr; bi_productPrintName : option jsstr;
  bi_gtin14 : jsstr; bi_egaisCode : option jsstr; bi_shelfLifeDays : option jsnum;
  bi_operatorName : option jsstr; bi_counterpartyName : option jsstr; bi_closedAt : jsstr;
  bi_productionDate : option jsstr; bi_shiftNumber : option jsstr
}.

Section Local.
(** The local year, month and day of an instant, none for an invalid one. *)
Variable local_civil : jsstr -> option (Z * Z * Z).

Definition localIsoDate (instant : jsstr) : jsstr :=
  match local_civil instant with
  | None => []
  | Some (year, month, day) => pad year 4 ++ js "-" ++ pad month 2 ++ js "-" ++ pad day 2
  end.

Definition effectiveProductionIsoDate (closedAt : jsstr) (productionDate : option jsstr) : jsstr :=
  match productionDate with
  | Some d => addCalendarDays d 0
  | None => localIsoDate closedAt
  end.

Definition expiryIsoDate (closedAt : jsstr) (shelfLifeDays : option jsnum) (productionDate : option jsstr) : jsstr :=
  shelfLifeExpiryDate (effectiveProductionIsoDate closedAt productionDate) shelfLifeDays.

Definition boxLabelFields (i : BoxLabelInput) : LabelData :=
  let effectiveDate := effectiveProductionIsoDate (bi_closedAt i) (bi_productionDate i) in
  let effectiveExpiry := shelfLifeExpiryDate effectiveDate (bi_shelfLifeDays i) in
  fun f =>
    match f with
    | product_name => bi_productName i
    | product_printName => default (bi_productName i) (bi_productPrintName i)
    | product_gtin => bi_gtin14 i
    | product_egais => default [] (bi_egaisCode i)
    | km_code => []
    | sscc => bi_sscc i
    | shift_no => default [] (bi_shiftNumber i)
    | date => formatLabelDate effectiveDate
    | expiry => formatLabelDate effectiveExpiry
    | qty => js_of_Z (bi_itemCount i)
    | qty_boxes => []
    | operator => default [] (bi_operatorName i)
    | counterparty_name => default [] (bi_counterpartyName i)
    end.

(** ** pallet-label.ts *)

(** The fields of a box's input and the number of boxes. *)
Record PalletLabelInput := { pi_box : BoxLabelInput; pi_boxCount : Z }.

Definition palletLabelFields (p : PalletLabelInput) : LabelData :=
  let i := pi_box p in
  let effectiveDate := effectiveProductionIsoDate (bi_closedAt i) (bi_productionDate i) in
  let effectiveExpiry := shelfLifeExpiryDate effectiveDate (bi_shelfLifeDays i) in
  fun f =>
    match f with
    | product_name => bi_productName i
    | product_printName => default (bi_productName i) (bi_productPrintName i)
    | product_gtin => bi_gtin14 i
    | product_egais => default [] (bi_egaisCode i)
    | km_code => []
    | sscc => bi_sscc i
    | shift_no => default [] (bi_shiftNumber i)
    | date => formatLabelDate effectiveDate
    | expiry => formatLabelDate effectiveExpiry
    | qty => js_of_Z (bi_itemCount i)
    | qty_boxes => js_of_Z (pi_boxCount p)
    | operator => default [] (bi_operatorName i)
    | counterparty_name => default [] (bi_counterpartyName i)
    end.
End Local.

(** ** eligibility.ts *)

Inductive LabelTemplatePurpose := PurposeBox | PurposePallet | PurposeProductDuplicate.

#[export] Instance LabelTemplatePurpose_eq_dec : EqDecision LabelTemplatePurpose.
Proof. solve_decision. Defined.

Record BoxLabelTemplateEligibility := {
  purpose : option LabelTemplatePurpose; enabled : bool; chzProductGroupCodes : option (list Z)
}.

(** The rule of both functions for one purpose. *)
Definition eligible_for (wanted : LabelTemplatePurpose) (t : BoxLabelTemplateEligibility)
    (group : option Z) : bool :=
  if negb (enabled t)
     || match purpose t with Some p => negb (bool_decide (p = wanted)) | None => false end
  then false
  else
    match chzProductGroupCodes t with
    | None => true
    | Some codes => match group with Some g => existsb (Z.eqb g) codes | None => false end
    end.

Definition isBoxLabelTemplateEligible := eligible_for PurposeBox.
Definition isPalletLabelTemplateEligible := eligible_for PurposePallet.

Inductive DefaultSource := FromCategory | FromOrganization.

Record BoxLabelTemplateDefault := { templateId : option jsstr; source : option DefaultSource }.

Definition resolveBoxLabelTemplateDefault (categoryDefaultId organizationDefaultId : option jsstr)
  : BoxLabelTemplateDefault :=
  match categoryDefaultId, organizationDefaultId with
  | Some c, _ => {| templateId := Some c; source := Some FromCategory |}
  | None, Some o => {| templateId := Some o; source := Some FromOrganization |}
  | None, None => {| templateId := None; source := None |}
  end.

Definition labelTemplateUsesField (spec : LabelTemplateSpec) (field : LabelField) : bool :=
  existsb (fun element =>
    match element with
    | FieldElement _ f _ _ => bool_decide (f = field)
    | BarcodeElement e => bool_decide (b_data e = SourceField field)
    | _ => false
    end) (elements spec).

(** ** code128.ts *)

Definition CODE128_FRAME_MODULES : Z := 35.
Definition CODE128_SYMBOL_MODULES : Z := 11.
Definition CODE128_FNC1_MODULES : Z := 11.

Definition code128ModuleCount (value : jsstr) (gs1 : bool) : Z :=
  let symbols := if all_digits1 value then (Z.of_nat (length value) + 1) / 2 else Z.of_nat (length value) in
  CODE128_FRAME_MODULES + (if gs1 then CODE128_FNC1_MODULES else 0) + symbols * CODE128_SYMBOL_MODULES.

(** ** print-label.ts *)

Inductive RawLanguage := PrinterZpl | PrinterTspl.

Definition renderLabelBytes (bwip_raw : jsstr -> option (list ModuleGrid)) (spec : LabelTemplateSpec)
    (data : LabelData) (language : RawLanguage) (deps : LabelDeps) (printerDpi : option Z)
  : result (list Z) :=
  let printSpec := withPrinterDpi spec printerDpi in
  text ← match language with
         | PrinterTspl => Tspl.generateTspl bwip_raw printSpec data deps
         | PrinterZpl => Zpl.generateZpl bwip_raw printSpec data deps
         end;
  Ok (latin1ToBytes text).

(** ** Lemmas *)

Section Unused.
Context (bwip_raw : jsstr -> option (list ModuleGrid)) (deps : LabelDeps) (field : LabelField)
  (data data' : LabelData) (Hd : forall f, f <> field -> data f = data' f).

(** The part of [labelTemplateUsesField] for one element. *)
Definition reads_field (element : LabelElement) : bool :=
  match element with
  | FieldElement _ f _ _ => bool_decide (f = field)
  | BarcodeElement e => bool_decide (b_data e = SourceField field)
  | _ => false
  end.

Lemma display_other f tf : f <> field -> labelFieldDisplayValue f data tf = labelFieldDisplayValue f data' tf.
Proof. intros H. unfold labelFieldDisplayValue. by rewrite (Hd f H). Qed.

Lemma source_other d : d <> SourceField field -> resolveBarcodeSource d data = resolveBarcodeSource d data'.
Proof. intros H. destruct d as [f|l]; [|done]. cbn. rewrite (Hd f); [done|]. congruence. Qed.

Lemma drawn_other e : b_data e <> SourceField field -> drawn_code deps e = true -> data km_code = data' km_code.
Proof.
  unfold drawn_code. intros H E. bool_hyps. apply Hd. intros <-. congruence.
Qed.

Lemma zpl_element_other spec e :
  reads_field e = false -> Zpl.zpl_element bwip_raw spec data deps e = Zpl.zpl_element bwip_raw spec data' deps e.
Proof.
  destruct e as [| |e| | |]; cbn [reads_field Zpl.zpl_element]; try done; intros H; bool_hyps.
  - by rewrite display_other.
  - destruct (drawn_code deps e) eqn:E; [by rewrite (drawn_other e)|].
    unfold Zpl.renderZplBarcodeElement. by rewrite source_other.
Qed.

Lemma tspl_element_other spec e :
  reads_field e = false -> Tspl.tspl_element bwip_raw spec data deps e = Tspl.tspl_element bwip_raw spec data' deps e.
Proof.
  destruct e as [| |e| | |]; cbn [reads_field Tspl.tspl_element]; try done; intros H; bool_hyps.
  - by rewrite display_other.
  - destruct (drawn_code deps e) eqn:E; [by rewrite (drawn_other e)|].
    unfold Tspl.renderTsplBarcodeElement. by rewrite source_other.
Qed.

Lemma elements_other spec els :
  existsb reads_field els = false ->
  Zpl.zpl_elements bwip_raw spec data deps els = Zpl.zpl_elements bwip_raw spec data' deps els
  /\ Tspl.tspl_elements bwip_raw spec data deps els = Tspl.tspl_elements bwip_raw spec data' deps els.
Proof.
  induction els as [|e es IH]; [done|]. cbn [existsb]. intros [He Hes]%orb_false_iff.
  destruct (IH Hes) as [Ez Et]. cbn [Zpl.zpl_elements Tspl.tspl_elements].
  by rewrite zpl_element_other, tspl_element_other, Ez, Et.
Qed.
End Unused.

(** ** Theorems *)

(** [labelTemplateUsesField] tells the truth: when it says no, the bytes sent to
    either printer are the same whatever that field holds. *)
Theorem unused_field_irrelevant (bwip_raw : jsstr -> option (list ModuleGrid)) (spec : LabelTemplateSpec)
    (field : LabelField) (data data' : LabelData) (language : RawLanguage) (deps : LabelDeps)
    (printerDpi : option Z) :
  labelTemplateUsesField spec field = false ->
  (forall f, f <> field -> data f = data' f) ->
  renderLabelBytes bwip_raw spec data language deps printerDpi
  = renderLabelBytes bwip_raw spec data' language deps printerDpi.
Proof.
  intros Hu Hd. unfold renderLabelBytes. cbv zeta.
  assert (Hw : elements (withPrinterDpi spec printerDpi) = elements spec).
  { unfold withPrinterDpi. destruct printerDpi as [d|]; [|done]. by case_match. }
  change (existsb (reads_field field) (elements spec) = false) in Hu. rewrite <- Hw in Hu.
  clear Hw. revert Hu. generalize (withPrinterDpi spec printerDpi). intros ps Hu.
  destruct (elements_other bwip_raw deps field data data' Hd ps (elements ps) Hu) as [Ez Et].
  destruct language; [unfold Zpl.generateZpl; by rewrite Ez | unfold Tspl.generateTspl; by rewrite Et].
Qed.

(** [DD.MM.YYYY] of a date. *)
Definition printed (c : Civil) : jsstr := pad (cd c) 2 ++ js "." ++ pad (cm c) 2 ++ js "." ++ pad (cy c) 4.

Lemma formatLabelDate_iso c : civil_ok c -> 1 <= cy c <= 9999 -> formatLabelDate (iso c) = printed c.
Proof.
  intros Hc Hy. unfold formatLabelDate. rewrite ISO_DATE_iso; [done|done|]. unfold year_ok. lia.
Qed.

(** What a box label says about time: the declared production date, or else the
    local day the box was closed, is printed day first, and the expiry is the
    last usable day, [n - 1] days later on the calendar, or nothing past the year
    9999; a pallet of the same content prints the same fields, and its boxes. *)
Theorem box_label_dates (local_civil : jsstr -> option (Z * Z * Z)) (i : BoxLabelInput) (boxes : Z) (c : Civil) (n : nat) :
  civil_ok c -> 1 <= cy c <= 9999 -> bi_shelfLifeDays i = Some (num (Z.of_nat n + 1)) ->
  (bi_productionDate i = Some (iso c)
   \/ bi_productionDate i = None /\ local_civil (bi_closedAt i) = Some (cy c, cm c, cd c)) ->
  boxLabelFields local_civil i date = printed c
  /\ boxLabelFields local_civil i expiry
     = (if cy (later n c) <=? 9999 then printed (later n c) else [])
  /\ forall f, palletLabelFields local_civil {| pi_box := i; pi_boxCount := boxes |} f
               = if bool_decide (f = qty_boxes) then js_of_Z boxes else boxLabelFields local_civil i f.
Proof.
  intros Hc Hy Hs Hdate.
  assert (He : effectiveProductionIsoDate local_civil (bi_closedAt i) (bi_productionDate i) = iso c).
  { unfold effectiveProductionIsoDate, localIsoDate. destruct Hdate as [-> |[-> ->]]; [|done].
    change 0 with (Z.of_nat 0). rewrite (addCalendarDays_day c c) by (done || lia).
    by rewrite (proj2 (Z.leb_le _ _)) by lia. }
  unfold boxLabelFields, palletLabelFields. cbn [pi_box pi_boxCount]. rewrite He, Hs.
  split; [by apply formatLabelDate_iso|]. split.
  - unfold shelfLifeExpiryDate. autorewrite with jsnum. rewrite (proj2 (Z.leb_gt _ 0)) by lia. cbn [negb orb].
    replace (Z.of_nat n + 1 - 1) with (Z.of_nat n) by lia.
    pose proof (later_year n c).
    rewrite (addCalendarDays_day c (later n c)) by (done || (by apply later_ok) || (by apply day_of_later) || lia).
    destruct (Z.leb_spec (cy (later n c)) 9999); [|done].
    apply formatLabelDate_iso; [by apply later_ok|lia].
  - by intros [].
Qed.
