(* ===== verification/Effects.v ===== *)
(** * Effects: programs that await, and what can happen to them

    An [async] function of the source is a tree of the operations it awaits
    ([prog]).  An operation answers, rejects, or the process dies under it: the
    handler [perform] decides, from the state of the world and from one choice
    of the environment per operation (a failure, the reply of a server, what
    another task did meanwhile).  [run] executes a program along a list of
    choices, so that quantifying over the list quantifies over every failure,
    reply, crash and interleaving.  [wp] is what holds however the choices
    fall; [twp] is what is reached within a number of operations when all the
    choices are good ones. *)

From stdpp Require Import base list.
From Stdlib Require Import ZArith Lia.
From S2P Require Import Prelude.

(** [E] is what an operation rejects with, [X] what the program throws: a
    [try] block whose [catch] reads variables the block has assigned throws the
    rejection together with them. *)
Inductive prog (op : Type -> Type) (E X A : Type) : Type :=
| Ret (a : A)
| Raise (x : X)
| Await {R : Type} (o : op R) (k : R + E -> prog op E X A).

Arguments Ret {op E X A} a.
Arguments Raise {op E X A} x.
Arguments Await {op E X A R} o k.

Section Programs.
Context {op : Type -> Type} {E : Type}.

(** [await o]: its value, or its rejection thrown, as [thrown] presents it. *)
Definition call_as {X R} (thrown : E -> X) (o : op R) : prog op E X R :=
  Await o (fun r => match r with inl a => Ret a | inr e => Raise (thrown e) end).

Definition call {R} : op R -> prog op E E R := call_as id.

Fixpoint bind {X A B} (p : prog op E X A) (f : A -> prog op E X B) : prog op E X B :=
  match p with
  | Ret a => f a
  | Raise x => Raise x
  | Await o k => Await o (fun r => bind (k r) f)
  end.

(** [try { p } catch (x) { h(x) }]. *)
Fixpoint try_catch {X Y A} (p : prog op E X A) (h : X -> prog op E Y A) : prog op E Y A :=
  match p with
  | Ret a => Ret a
  | Raise x => h x
  | Await o k => Await o (fun r => try_catch (k r) h)
  end.
End Programs.

Declare Scope prog_scope.
Delimit Scope prog_scope with prog.
Notation "'let!' x := p 'in' q" := (bind p (fun x => q))
  (at level 10, x pattern, p at level 100, q at level 200) : prog_scope.
Notation "p ;; q" := (bind p (fun _ => q)) (at level 100, q at level 200, right associativity)
  : prog_scope.

(** How a run ends. *)
Inductive ending (X A : Type) :=
| Done (a : A)
| Failed (x : X)
| Died.
Arguments Done {X A} a.
Arguments Failed {X A} x.
Arguments Died {X A}.

Section Run.
Context {op : Type -> Type} {E W C : Type}.
(** [None]: the process died before it saw an answer. *)
Context (perform : forall R, op R -> C -> W -> option (R + E) * W).
Arguments perform {R} _ _ _.

Fixpoint run {Y A} (p : prog op E Y A) (cs : list C) (w : W) : ending Y A * list C * W :=
  match p with
  | Ret a => (Done a, cs, w)
  | Raise e => (Failed e, cs, w)
  | Await o k =>
      match cs with
      | [] => (Died, [], w)
      | c :: cs' =>
          match perform o c w with
          | (None, w') => (Died, cs', w')
          | (Some r, w') => run (k r) cs' w'
          end
      end
  end.

(** ** Whatever happens *)

Section Wp.
Context (allowed : C -> Prop).

Fixpoint wp {Y A} (p : prog op E Y A) (Q : A -> W -> Prop) (X : Y -> W -> Prop) (D : W -> Prop)
    (w : W) : Prop :=
  match p with
  | Ret a => Q a w
  | Raise e => X e w
  | Await o k =>
      D w /\ forall c, allowed c ->
        match perform o c w with
        | (None, w') => D w'
        | (Some r, w') => wp (k r) Q X D w'
        end
  end.

Lemma wp_sound {Y A} (p : prog op E Y A) Q X D w cs :
  wp p Q X D w -> Forall allowed cs ->
  match run p cs w with
  | (Done a, _, w') => Q a w'
  | (Failed e, _, w') => X e w'
  | (Died, _, w') => D w'
  end.
Proof.
  revert w cs. induction p as [a|e|R o k IH]; intros w cs Hp Hcs; [exact Hp..|].
  destruct Hp as [Hd Hp]. destruct cs as [|c cs]; [exact Hd|]. cbn [run].
  apply Forall_cons_1 in Hcs as [Hc Hcs]. specialize (Hp c Hc).
  destruct (perform o c w) as [[r|] w']; [by apply IH | exact Hp].
Qed.

Lemma wp_mono {Y A} (p : prog op E Y A) (Q Q' : A -> W -> Prop) (X X' : Y -> W -> Prop) (D D' : W -> Prop) w :
  wp p Q X D w -> (forall a w, Q a w -> Q' a w) -> (forall e w, X e w -> X' e w) ->
  (forall w, D w -> D' w) -> wp p Q' X' D' w.
Proof.
  intros Hp HQ HX HD. revert w Hp. induction p as [a|e|R o k IH]; intros w Hp; cbn in *; [auto..|].
  destruct Hp as [Hd Hp]. split; [auto|]. intros c Hc. specialize (Hp c Hc).
  destruct (perform o c w) as [[r|] w']; auto.
Qed.

Lemma wp_bind {Y A B} (p : prog op E Y A) (f : A -> prog op E Y B) Q X D w :
  wp p (fun a => wp (f a) Q X D) X D w -> wp (bind p f) Q X D w.
Proof.
  revert w. induction p as [a|e|R o k IH]; intros w Hp; cbn in *; [exact Hp..|].
  destruct Hp as [Hd Hp]. split; [exact Hd|]. intros c Hc. specialize (Hp c Hc).
  destruct (perform o c w) as [[r|] w']; auto.
Qed.

Lemma wp_try {Y Z A} (p : prog op E Y A) (h : Y -> prog op E Z A) Q X D w :
  wp p Q (fun e => wp (h e) Q X D) D w -> wp (try_catch p h) Q X D w.
Proof.
  revert w. induction p as [a|e|R o k IH]; intros w Hp; cbn in *; [exact Hp..|].
  destruct Hp as [Hd Hp]. split; [exact Hd|]. intros c Hc. specialize (Hp c Hc).
  destruct (perform o c w) as [[r|] w']; auto.
Qed.

Lemma wp_call {Y R} (thrown : E -> Y) (o : op R) Q X D w :
  D w ->
  (forall c, allowed c -> match perform o c w with
     | (None, w') => D w' | (Some (inl a), w') => Q a w' | (Some (inr e), w') => X (thrown e) w' end) ->
  wp (call_as thrown o) Q X D w.
Proof.
  intros Hd Hp. split; [exact Hd|]. intros c Hc. specialize (Hp c Hc).
  by destruct (perform o c w) as [[[a|e]|] w'].
Qed.

(** ** Within a number of operations *)

Fixpoint twp {Y A} (p : prog op E Y A) (n : nat) (Q : nat -> A -> W -> Prop)
    (X : nat -> Y -> W -> Prop) (w : W) : Prop :=
  match p with
  | Ret a => Q n a w
  | Raise e => X n e w
  | Await o k =>
      match n with
      | O => False
      | S n' =>
          forall c, allowed c ->
          match perform o c w with
          | (None, _) => False
          | (Some r, w') => twp (k r) n' Q X w'
          end
      end
  end.

Lemma twp_sound {Y A} (p : prog op E Y A) Q X n w cs :
  twp p n Q X w -> Forall allowed cs -> (n <= length cs)%nat ->
  match run p cs w with
  | (Done a, cs', w') => exists m, (m <= length cs')%nat /\ Q m a w'
  | (Failed e, cs', w') => exists m, (m <= length cs')%nat /\ X m e w'
  | (Died, _, _) => False
  end.
Proof.
  revert n w cs. induction p as [a|e|R o k IH]; intros n w cs Hp Hcs Hn; [by exists n..|].
  destruct n as [|n]; [destruct Hp|]. destruct cs as [|c cs]; cbn [length] in Hn; [lia|].
  cbn [run]. apply Forall_cons_1 in Hcs as [Hc Hcs]. specialize (Hp c Hc).
  destruct (perform o c w) as [[r|] w']; [|destruct Hp]. apply (IH r n); [exact Hp | exact Hcs | lia].
Qed.

Lemma twp_mono {Y A} (p : prog op E Y A) (Q Q' : nat -> A -> W -> Prop) (X X' : nat -> Y -> W -> Prop) n w :
  twp p n Q X w -> (forall n a w, Q n a w -> Q' n a w) -> (forall n e w, X n e w -> X' n e w) ->
  twp p n Q' X' w.
Proof.
  intros Hp HQ HX. revert n w Hp. induction p as [a|e|R o k IH]; intros n w Hp; cbn in *; [auto..|].
  destruct n as [|n]; [done|]. intros c Hc. specialize (Hp c Hc).
  destruct (perform o c w) as [[r|] w']; auto.
Qed.

Lemma twp_bind {Y A B} (p : prog op E Y A) (f : A -> prog op E Y B) Q X n w :
  twp p n (fun m a => twp (f a) m Q X) X w -> twp (bind p f) n Q X w.
Proof.
  revert n w. induction p as [a|e|R o k IH]; intros n w Hp; cbn in *; [exact Hp..|].
  destruct n as [|n]; [done|]. intros c Hc. specialize (Hp c Hc).
  destruct (perform o c w) as [[r|] w']; auto.
Qed.

Lemma twp_try {Y Z A} (p : prog op E Y A) (h : Y -> prog op E Z A) Q X n w :
  twp p n Q (fun m e => twp (h e) m Q X) w -> twp (try_catch p h) n Q X w.
Proof.
  revert n w. induction p as [a|e|R o k IH]; intros n w Hp; cbn in *; [exact Hp..|].
  destruct n as [|n]; [done|]. intros c Hc. specialize (Hp c Hc).
  destruct (perform o c w) as [[r|] w']; auto.
Qed.

Lemma twp_call {Y R} (thrown : E -> Y) (o : op R) Q X n w :
  (forall c, allowed c -> match perform o c w with
     | (None, _) => False | (Some (inl a), w') => Q n a w' | (Some (inr e), w') => X n (thrown e) w' end) ->
  twp (call_as thrown o) (S n) Q X w.
Proof.
  intros Hp c Hc. specialize (Hp c Hc). by destruct (perform o c w) as [[[a|e]|] w'].
Qed.

(** [reach p k Q w]: [p] ends with a result that meets [Q], within [k]
    operations and without an exception. *)
Definition reach {Y A} (p : prog op E Y A) (k : nat) (Q : A -> W -> Prop) (w : W) : Prop :=
  forall m, twp p (k + m) (fun m' a w' => (m <= m')%nat /\ Q a w') (fun _ _ _ => False) w.

Lemma reach_ret {Y A} (a : A) (Q : A -> W -> Prop) w : Q a w -> reach (Y:=Y) (Ret a) 0 Q w.
Proof. intros Hq m. by split. Qed.

Lemma reach_more {Y A} (p : prog op E Y A) k k' Q w :
  reach p k Q w -> (k <= k')%nat -> reach p k' Q w.
Proof.
  intros Hp Hk m. replace (k' + m)%nat with (k + ((k' - k) + m))%nat by lia.
  eapply twp_mono; [apply Hp| |done]. intros m' a w' [? ?]. split; [lia | done].
Qed.

Lemma reach_mono {Y A} (p : prog op E Y A) k (Q Q' : A -> W -> Prop) w :
  reach p k Q w -> (forall a w', Q a w' -> Q' a w') -> reach p k Q' w.
Proof.
  intros Hp HQ m. eapply twp_mono; [apply Hp| |done]. intros m' a w' [? ?]. auto.
Qed.

Lemma reach_bind {Y A B} (p : prog op E Y A) (f : A -> prog op E Y B) k j P Q w :
  reach p k P w -> (forall a w', P a w' -> reach (f a) j Q w') -> reach (bind p f) (k + j) Q w.
Proof.
  intros Hp Hf m. apply twp_bind. rewrite <- Nat.add_assoc.
  eapply twp_mono; [apply Hp| |done]. intros m' a w' [Hm Ha].
  replace m' with (j + (m' - j))%nat by lia.
  eapply twp_mono; [apply Hf, Ha| |done]. intros m'' b w'' [? ?]. split; [lia | done].
Qed.

Lemma reach_try {Y Z A} (p : prog op E Y A) (h : Y -> prog op E Z A) k Q w :
  reach p k Q w -> reach (try_catch p h) k Q w.
Proof. intros Hp m. apply twp_try. by eapply twp_mono; [apply Hp|..]. Qed.

Lemma reach_call {Y R} (thrown : E -> Y) (o : op R) (Q : R -> W -> Prop) w :
  (forall c, allowed c -> exists a w', perform o c w = (Some (inl a), w') /\ Q a w') ->
  reach (call_as thrown o) 1 Q w.
Proof.
  intros Ho m. apply twp_call. intros c Hc. destruct (Ho c Hc) as (a & w' & -> & Hq). by split.
Qed.

(** Enough good choices: the program ends, whatever they are. *)
Lemma reach_run {Y A} (p : prog op E Y A) k Q w cs :
  reach p k Q w -> Forall allowed cs -> (k <= length cs)%nat ->
  exists a cs' w', run p cs w = (Done a, cs', w') /\ Q a w'.
Proof.
  intros Hp Hcs Hk. pose proof (twp_sound p _ _ (k + 0) w cs (Hp 0%nat) Hcs ltac:(lia)) as H.
  destruct (run p cs w) as [[[a|x|] cs'] w'].
  - destruct H as (m & _ & _ & H). eauto.
  - by destruct H as (m & _ & []).
  - destruct H.
Qed.
End Wp.
End Run.
