(* ===== verification/KioskApi.v ===== *)
(** * The kiosk's wire data, its errors and its identity

    [apps/kiosk/src/api/types.ts] and [client.ts] (what an order is on the wire,
    what a failed request means), [store/installation-binding.ts] (which
    installation and credential a record belongs to), and the JavaScript values
    that code reads without trusting their type. *)

From stdpp Require Import base list strings gmap.
From Stdlib Require Import ZArith Lia.
From S2P Require Import Prelude Dates.
From S2P Require InventorySync.

(** ** Values of type [unknown] *)

Inductive value :=
| VUndefined
| VNull
| VBool (b : bool)
| VNum (n : jsnum)
| VStr (s : jsstr)
| VArr (l : list value)
| VObj (fields : list (jsstr * value)).

(** [v.key], for a [v] that is neither [undefined] nor [null]. *)
Definition get (key : jsstr) (v : value) : value :=
  match v with
  | VObj fields => match List.find (fun f => jseqb f.1 key) fields with
                   | Some (_, x) => x | None => VUndefined end
  | _ => VUndefined
  end.

(** [v ?? d]. *)
Definition coalesce (v d : value) : value :=
  match v with VUndefined | VNull => d | _ => v end.

Definition is_nullish (v : value) : bool :=
  match v with VUndefined | VNull => true | _ => false end.

(** [v && typeof v === 'object']. *)
Definition is_object (v : value) : bool :=
  match v with VArr _ | VObj _ => true | _ => false end.

(** [Number.isInteger(v)], with the integer. *)
Definition integer_of (v : value) : option Z :=
  match v with VNum n => if is_integer n then Some (int_value n) else None | _ => None end.

Definition is_str (s : jsstr) (v : value) : bool :=
  match v with VStr t => jseqb t s | _ => false end.

(** ** Instants *)

Definition DAY_MS : Z := 86400000.

(** [new Date(t).toISOString()] for a valid time value. *)
Definition toISOString (t : Z) : jsstr :=
  let d := t / DAY_MS in
  let ms := t mod DAY_MS in
  let y := year_from_day d in
  let year := if (0 <=? y) && (y <=? 9999) then pad y 4
              else if y <? 0 then js "-" ++ pad (- y) 6 else js "+" ++ pad y 6 in
  year ++ js "-" ++ pad (month_from_day d + 1) 2 ++ js "-" ++ pad (date_from_day d) 2
  ++ js "T" ++ pad (ms / 3600000) 2 ++ js ":" ++ pad (ms / 60000 mod 60) 2
  ++ js ":" ++ pad (ms / 1000 mod 60) 2 ++ js "." ++ pad (ms mod 1000) 3 ++ js "Z".

(** The time value written in one of the two forms [toISOString] prints. *)
Definition instant_fields (s : jsstr) : Z :=
  let '(year, rest) := match s with
    | c :: s' => if c =? 43 then (digits_value (take 6 s'), drop 6 s')
                 else if c =? 45 then (- digits_value (take 6 s'), drop 6 s')
                 else (digits_value (take 4 s), drop 4 s)
    | [] => (0, []) end in
  make_day year (digits_value (slice 1 3 rest) - 1) (digits_value (slice 4 6 rest)) * DAY_MS
  + digits_value (slice 7 9 rest) * 3600000 + digits_value (slice 10 12 rest) * 60000
  + digits_value (slice 13 15 rest) * 1000 + digits_value (slice 16 19 rest).

Definition valid_time (t : Z) : bool := Z.abs t <=? 8640000000000000.

(** ** store/installation-binding.ts *)

Record BoxRegistryBinding := { serverUrl : jsstr; kioskId : jsstr }.

#[export] Instance BoxRegistryBinding_eq_dec : EqDecision BoxRegistryBinding.
Proof. solve_decision. Defined.

Record BoxRegistryCredentialOwner := {
  binding : BoxRegistryBinding; credentialGeneration : jsstr
}.

#[export] Instance BoxRegistryCredentialOwner_eq_dec : EqDecision BoxRegistryCredentialOwner.
Proof. solve_decision. Defined.

(** [s.replace(/\/+$/, '')]. *)
Definition strip_slashes (s : jsstr) : jsstr :=
  reverse (drop_while (fun c => c =? 47) (reverse s)).

(** The fields of a stored record that name an installation; [None] for one
    that is missing or not a string. *)
Definition boxRegistryBindingOf (url id : option jsstr) : option BoxRegistryBinding :=
  rawUrl ← url; rawId ← id;
  let serverUrl := strip_slashes (trim rawUrl) in
  let kioskId := trim rawId in
  if (length serverUrl =? 0)%nat || (2048 <? Z.of_nat (length serverUrl))
     || (length kioskId =? 0)%nat || (128 <? Z.of_nat (length kioskId))
  then None else Some {| serverUrl := serverUrl; kioskId := kioskId |}.

Definition sameBoxRegistryBinding (left right : option BoxRegistryBinding) : bool :=
  match left, right with
  | Some l, Some r => jseqb (serverUrl l) (serverUrl r) && jseqb (kioskId l) (kioskId r)
  | _, _ => false
  end.

(** [toLowerCase] of a hexadecimal text. *)
Definition lower (s : jsstr) : jsstr :=
  map (fun c => if (65 <=? c) && (c <=? 90) then c + 32 else c) s.

(** The UUID patterns with the [i] flag. *)
Definition isUuid (s : jsstr) : bool := InventorySync.uuidSchema (lower s).

Definition credentialGenerationOf (generation : option jsstr) : option jsstr :=
  match generation with
  | Some g => if isUuid g then Some (lower g) else None
  | None => None
  end.

Definition boxRegistryCredentialOwnerOf (url id generation : option jsstr)
  : option BoxRegistryCredentialOwner :=
  match boxRegistryBindingOf url id, credentialGenerationOf generation with
  | Some b, Some g => Some {| binding := b; credentialGeneration := g |}
  | _, _ => None
  end.

(** The same, of a record that is already of the type. *)
Definition owner_of_owner (o : BoxRegistryCredentialOwner) : option BoxRegistryCredentialOwner :=
  boxRegistryCredentialOwnerOf (Some (serverUrl (binding o))) (Some (kioskId (binding o)))
    (Some (credentialGeneration o)).

Definition sameBoxRegistryCredentialOwner (left right : option BoxRegistryCredentialOwner) : bool :=
  match left, right with
  | Some l, Some r => sameBoxRegistryBinding (Some (binding l)) (Some (binding r))
                      && jseqb (credentialGeneration l) (credentialGeneration r)
  | _, _ => false
  end.

(** ** api/types.ts *)

Inductive Reason := Buy | Writeoff.

#[export] Instance Reason_eq_dec : EqDecision Reason.
Proof. solve_decision. Defined.

Inductive BadgeIdentity := BadgeDigest (digest : jsstr) | BadgeCode (code : jsstr).

#[export] Instance BadgeIdentity_eq_dec : EqDecision BadgeIdentity.
Proof. solve_decision. Defined.

Record CreateOrderDto := {
  d_deviceSeq : Z; d_badge : BadgeIdentity; d_reason : Reason; d_writeoffReasonId : option jsstr;
  d_items : list jsstr; d_boxes : option (list jsstr); d_createdAt : option jsstr;
  d_admissionNonce : option jsstr; d_admissionProof : option jsstr
}.

#[export] Instance CreateOrderDto_eq_dec : EqDecision CreateOrderDto.
Proof. solve_decision. Defined.

(** A scanned code or a box the server did not accept, and its answer. *)
Record OrderConflict := { cf_rawKm : jsstr; cf_reason : jsstr }.
Record BoxConflict := { bc_sscc : jsstr; bc_bottleCount : option Z; bc_reason : jsstr }.
Record AcceptedBox := { ab_sscc : jsstr; ab_bottleCount : Z }.

Record CreateOrderResultDto := {
  r_orderNo : jsstr; r_itemCount : Z; r_conflicts : list OrderConflict;
  r_boxConflicts : option (list BoxConflict); r_acceptedBoxes : option (list AcceptedBox)
}.

(** ** api/client.ts *)

(** What a request or a store operation rejects with: an answer of the server
    that is not a success, a request that got none (a dead connection, the
    deadline), a failure of the store or of a check on the device. *)
Inductive failure :=
| KioskApiError (status : Z) (message : jsstr) (code : option jsstr) (details : value)
| KioskTimeoutError
| NetworkError
| DeviceError.

Definition isDeviceRevoked (err : failure) : bool :=
  match err with KioskApiError status _ _ _ => status =? 401 | _ => false end.

Definition GATEWAY_STATUSES : list Z := [502; 503; 504].

Definition isUnreachable (err : failure) : bool :=
  match err with
  | KioskApiError status _ _ _ => bool_decide (status ∈ GATEWAY_STATUSES)
  | _ => true
  end.

(** ** Lemmas *)

Lemma sameBinding_spec l r :
  sameBoxRegistryBinding l r = true <-> exists b, l = Some b /\ r = Some b.
Proof.
  unfold sameBoxRegistryBinding. destruct l as [[u i]|], r as [[v j]|]; cbn; try naive_solver.
  rewrite andb_true_iff, !jseqb_eq. naive_solver.
Qed.

Lemma sameOwner_spec l r :
  sameBoxRegistryCredentialOwner l r = true <-> exists o, l = Some o /\ r = Some o.
Proof.
  unfold sameBoxRegistryCredentialOwner. destruct l as [[b g]|], r as [[c h]|]; cbn [binding credentialGeneration];
    try naive_solver.
  rewrite andb_true_iff, sameBinding_spec, jseqb_eq. naive_solver.
Qed.

Lemma lower_lower s : lower (lower s) = lower s.
Proof.
  unfold lower. rewrite map_map. apply map_ext. intros c.
  destruct ((65 <=? c) && (c <=? 90)) eqn:E; [|by rewrite E].
  bool_hyps. destruct ((65 <=? c + 32) && (c + 32 <=? 90)) eqn:F; [|done]. bool_hyps. lia.
Qed.
