(* ===== verification/Json.v ===== *)
(** * JSON texts

    [JSON.parse] and [JSON.stringify] of ECMAScript on the values of [KioskApi],
    for the code that sends, stores and reads them.  A number is read as the
    nearest double and written with the shortest digits ([JsNumber]); the sign of
    a zero is not kept.  The parser is fueled: one level of nesting takes a
    character of the text and two units, so [S (2 * length s)] is enough
    ([json_value_enough]).  What is written is read back ([JSON_roundtrip]). *)

From stdpp Require Import base list strings gmap.
From Stdlib Require Import ZArith QArith Lia.
From Stdlib Require Import SpecFloat.
From S2P Require Import Prelude Doubles JsNumber KioskApi.

#[local] Open Scope Z_scope.

(** ** Strings *)

Definition hex_char (d : Z) : Z := if d <? 10 then 48 + d else 87 + d.

Definition hex4 (c : Z) : jsstr :=
  [hex_char (c / 4096); hex_char (c / 256 mod 16); hex_char (c / 16 mod 16); hex_char (c mod 16)].

Definition is_surrogate (c : Z) : bool := is_high_surrogate c || is_low_surrogate c.

(** How one code unit is written: an escape, or itself. *)
Definition json_unit (c : Z) : jsstr :=
  if c =? 34 then [92; 34]
  else if c =? 92 then [92; 92]
  else if c =? 8 then [92; 98]
  else if c =? 12 then [92; 102]
  else if c =? 10 then [92; 110]
  else if c =? 13 then [92; 114]
  else if c =? 9 then [92; 116]
  else if (c <? 32) || is_surrogate c then [92; 117] ++ hex4 c
  else [c].

(** The characters between the quotes; a pair of surrogates stays as it is. *)
Fixpoint json_chars (s : jsstr) : jsstr :=
  match s with
  | [] => []
  | a :: s' =>
      match s' with
      | b :: s'' =>
          if is_high_surrogate a && is_low_surrogate b then a :: b :: json_chars s''
          else json_unit a ++ json_chars s'
      | [] => json_unit a
      end
  end.

Definition json_quote (s : jsstr) : jsstr := 34 :: json_chars s ++ [34].

Definition hex_value (c : Z) : option Z :=
  if is_digit c then Some (c - 48)
  else if (97 <=? c) && (c <=? 102) then Some (c - 87)
  else if (65 <=? c) && (c <=? 70) then Some (c - 55)
  else None.

Definition simple_escape (e : Z) : option Z :=
  if (e =? 34) || (e =? 92) || (e =? 47) then Some e
  else if e =? 98 then Some 8
  else if e =? 102 then Some 12
  else if e =? 110 then Some 10
  else if e =? 114 then Some 13
  else if e =? 116 then Some 9
  else None.

(** A string after its opening quote, and what follows its closing one. *)
Fixpoint json_string (s : jsstr) : option (jsstr * jsstr) :=
  match s with
  | [] => None
  | c :: s1 =>
      if c =? 34 then Some ([], s1)
      else if c =? 92 then
        match s1 with
        | [] => None
        | e :: s2 =>
            if e =? 117 then
              match s2 with
              | x3 :: x2 :: x1 :: x0 :: s3 =>
                  d3 ← hex_value x3; d2 ← hex_value x2; d1 ← hex_value x1; d0 ← hex_value x0;
                  '(t, rest) ← json_string s3;
                  Some (d3 * 4096 + d2 * 256 + d1 * 16 + d0 :: t, rest)
              | _ => None
              end
            else u ← simple_escape e; '(t, rest) ← json_string s2; Some (u :: t, rest)
        end
      else if c <? 32 then None
      else '(t, rest) ← json_string s1; Some (c :: t, rest)
  end.

(** ** Numbers *)

Fixpoint span_digits (s : jsstr) : jsstr * jsstr :=
  match s with
  | c :: s' => if is_digit c then let '(ds, rest) := span_digits s' in (c :: ds, rest) else ([], s)
  | [] => ([], [])
  end.

Definition jsnum_of_double (negative : bool) (x : spec_float) : jsnum :=
  match x with
  | S754_finite _ m e =>
      let v := if negative then Z.neg m else Z.pos m in
      JFinite (if 0 <=? e then v * 2 ^ e # 1 else Qred (v # Z.to_pos (2 ^ (- e))))
  | S754_infinity _ => JInfinite negative
  | _ => num 0
  end.

(** The number nearest to [m * 10 ^ t]. *)
Definition num_of_decimal (negative : bool) (m t : Z) : jsnum :=
  if m =? 0 then num 0
  else if (t =? 0) && safe_int m then num (if negative then - m else m)
  else jsnum_of_double negative (double_of_decimal m t).

(** An optional fraction or exponent: its digits, or [None] when they are missing. *)
Definition json_fraction (s : jsstr) : option (jsstr * jsstr) :=
  match s with
  | c :: s1 =>
      if c =? 46 then
        match span_digits s1 with ([], _) => None | r => Some r end
      else Some ([], s)
  | [] => Some ([], s)
  end.

Definition json_exponent (s : jsstr) : option (Z * jsstr) :=
  match s with
  | c :: s1 =>
      if (c =? 101) || (c =? 69) then
        let '(negative, s2) := match s1 with
          | d :: s2 => if d =? 45 then (true, s2) else if d =? 43 then (false, s2) else (false, s1)
          | [] => (false, s1) end in
        match span_digits s2 with
        | ([], _) => None
        | (ds, rest) => Some (if negative then - digits_value ds else digits_value ds, rest)
        end
      else Some (0, s)
  | [] => Some (0, s)
  end.

Definition json_number (s : jsstr) : option (jsnum * jsstr) :=
  let '(negative, s1) := match s with
    | c :: s1 => if c =? 45 then (true, s1) else (false, s)
    | [] => (false, s) end in
  let '(int, s2) := span_digits s1 in
  if match int with [] => true | c :: ds => (c =? 48) && negb (bool_decide (ds = [])) end then None
  else
    '(fraction, s3) ← json_fraction s2; '(exponent, s4) ← json_exponent s3;
    Some (num_of_decimal negative (digits_value (int ++ fraction))
            (exponent - Z.of_nat (length fraction)), s4).

(** The double a number is. *)
Definition double_of_Q (q : Q) : spec_float :=
  match Qnum q with
  | Z0 => S754_zero false
  | Z.pos p => fdiv (S754_finite false p 0) (S754_finite false (Qden q) 0)
  | Z.neg p => fdiv (S754_finite true p 0) (S754_finite false (Qden q) 0)
  end.

Definition json_number_text (n : jsnum) : jsstr :=
  match n with
  | JFinite q => if is_safe_integer n then js_of_Z (int_value n) else js_of_number (double_of_Q q)
  | _ => js "null"
  end.

(** ** Values *)

Definition commas (parts : list jsstr) : jsstr := join [44] parts.

(** [JSON.stringify(v)] of a [v] other than [undefined]. *)
Fixpoint json_text (v : value) : jsstr :=
  match v with
  | VUndefined | VNull => js "null"
  | VBool true => js "true"
  | VBool false => js "false"
  | VNum n => json_number_text n
  | VStr s => json_quote s
  | VArr l => 91 :: commas (map json_text l) ++ [93]
  | VObj fields =>
      123 :: commas (concat (map (fun f => match f.2 with
        | VUndefined => []
        | _ => [json_quote f.1 ++ [58] ++ json_text f.2]
        end) fields)) ++ [125]
  end.

Definition JSON_stringify (v : value) : option jsstr :=
  match v with VUndefined => None | _ => Some (json_text v) end.

Definition json_space (c : Z) : bool := (c =? 32) || (c =? 9) || (c =? 10) || (c =? 13).

Definition skip_space (s : jsstr) : jsstr := drop_while json_space s.

(** A later field replaces an earlier one of the same name, in its place. *)
Fixpoint set_field (key : jsstr) (v : value) (fields : list (jsstr * value)) : list (jsstr * value) :=
  match fields with
  | [] => [(key, v)]
  | (k, x) :: rest => if jseqb k key then (k, v) :: rest else (k, x) :: set_field key v rest
  end.

Definition object_of (fields : list (jsstr * value)) : value :=
  VObj (fold_left (fun acc f => set_field f.1 f.2 acc) fields []).

(** A name and its colon. *)
Definition json_key (s : jsstr) : option (jsstr * jsstr) :=
  match skip_space s with
  | q :: r =>
      if negb (q =? 34) then None
      else
        '(key, rest) ← json_string r;
        match skip_space rest with
        | colon :: rest' => if colon =? 58 then Some (key, rest') else None
        | [] => None
        end
  | [] => None
  end.

Fixpoint json_value (fuel : nat) (s : jsstr) : option (value * jsstr) :=
  match fuel with
  | O => None
  | S n =>
      match skip_space s with
      | [] => None
      | c :: r =>
          if c =? 34 then '(t, rest) ← json_string r; Some (VStr t, rest)
          else if c =? 123 then
            if starts_with [125] (skip_space r) then Some (VObj [], drop 1 (skip_space r))
            else '(fields, rest) ← json_members n r; Some (object_of fields, rest)
          else if c =? 91 then
            if starts_with [93] (skip_space r) then Some (VArr [], drop 1 (skip_space r))
            else '(vs, rest) ← json_elements n r; Some (VArr vs, rest)
          else if starts_with (js "null") (c :: r) then Some (VNull, drop 3 r)
          else if starts_with (js "true") (c :: r) then Some (VBool true, drop 3 r)
          else if starts_with (js "false") (c :: r) then Some (VBool false, drop 4 r)
          else '(x, rest) ← json_number (c :: r); Some (VNum x, rest)
      end
  end
with json_elements (fuel : nat) (s : jsstr) : option (list value * jsstr) :=
  match fuel with
  | O => None
  | S n =>
      '(v, rest) ← json_value n s;
      match skip_space rest with
      | c :: rest' =>
          if c =? 44 then '(vs, rest'') ← json_elements n rest'; Some (v :: vs, rest'')
          else if c =? 93 then Some ([v], rest') else None
      | [] => None
      end
  end
with json_members (fuel : nat) (s : jsstr) : option (list (jsstr * value) * jsstr) :=
  match fuel with
  | O => None
  | S n =>
      '(key, r) ← json_key s;
      '(v, rest) ← json_value n r;
      match skip_space rest with
      | c :: rest' =>
          if c =? 44 then '(fields, rest'') ← json_members n rest'; Some ((key, v) :: fields, rest'')
          else if c =? 125 then Some ([(key, v)], rest') else None
      | [] => None
      end
  end.

(** [JSON.parse(s)]; [None] is the [SyntaxError]. *)
Definition JSON_parse (s : jsstr) : option value :=
  '(v, rest) ← json_value (S (2 * length s)) s;
  match skip_space rest with [] => Some v | _ => None end.

(** ** Strings are read back *)

Definition is_unit (c : Z) : bool := (0 <=? c) && (c <? 65536).

Lemma hex_value_char d : 0 <= d < 16 -> hex_value (hex_char d) = Some d.
Proof.
  intros H. assert (Hall : Forall (fun d => hex_value (hex_char d) = Some d) (seqZ 0 16))
    by (by repeat constructor).
  apply (proj1 (Forall_forall _ _) Hall), elem_of_seqZ. lia.
Qed.

Lemma json_string_hex4 c s :
  is_unit c = true ->
  json_string (92 :: 117 :: hex4 c ++ s) = '(t, rest) ← json_string s; Some (c :: t, rest).
Proof.
  intros Hc. unfold is_unit in Hc. bool_hyps. unfold hex4. cbn -[hex_value hex_char Z.add Z.mul Z.div Z.modulo].
  rewrite (hex_value_char (c / 4096)) by (split; [apply Z.div_pos; lia | apply Z.div_lt_upper_bound; lia]).
  rewrite !hex_value_char by (apply Z.mod_pos_bound; lia). cbn -[Z.add Z.mul Z.div Z.modulo].
  assert (c / 4096 * 4096 + c / 256 mod 16 * 256 + c / 16 mod 16 * 16 + c mod 16 = c) as ->; [|done].
  assert (c / 256 = c / 16 / 16) as -> by (by rewrite Z.div_div by lia).
  assert (c / 4096 = c / 16 / 16 / 16) as -> by (by rewrite !Z.div_div by lia).
  pose proof (Z.div_mod c 16 ltac:(lia)). pose proof (Z.div_mod (c / 16) 16 ltac:(lia)).
  pose proof (Z.div_mod (c / 16 / 16) 16 ltac:(lia)). lia.
Qed.

Lemma json_string_unit c s :
  is_unit c = true ->
  json_string (json_unit c ++ s) = '(t, rest) ← json_string s; Some (c :: t, rest).
Proof.
  intros Hc. unfold json_unit.
  repeat match goal with
  | |- context [if (c =? ?k) then _ else _] => destruct (Z.eqb_spec c k) as [->|]; [reflexivity|]
  end.
  destruct ((c <? 32) || is_surrogate c) eqn:E; [by apply json_string_hex4|].
  apply orb_false_iff in E as [E _]. cbn.
  rewrite (proj2 (Z.eqb_neq c 34)), (proj2 (Z.eqb_neq c 92)) by done. by rewrite E.
Qed.

Lemma json_string_plain c s :
  34 < c -> c <> 92 -> json_string (c :: s) = '(t, rest) ← json_string s; Some (c :: t, rest).
Proof.
  intros H Hn. cbn. rewrite (proj2 (Z.eqb_neq c 34)), (proj2 (Z.eqb_neq c 92)) by lia.
  by rewrite (proj2 (Z.ltb_ge c 32)) by lia.
Qed.

Lemma json_string_chars s rest :
  forallb is_unit s = true -> json_string (json_chars s ++ 34 :: rest) = Some (s, rest).
Proof.
  remember (length s) as n eqn:Hn. assert (Hle : (length s <= n)%nat) by lia. clear Hn.
  revert s Hle. induction n as [|n IH]; intros [|a s] Hle Hu; try done; [cbn in Hle; lia|].
  cbn [forallb] in Hu. apply andb_true_iff in Hu as [Ha Hs]. cbn [length] in Hle.
  destruct s as [|b s]; [by cbn [json_chars]; rewrite json_string_unit|].
  change (json_chars (a :: b :: s)) with (if is_high_surrogate a && is_low_surrogate b
    then a :: b :: json_chars s else json_unit a ++ json_chars (b :: s)).
  destruct (is_high_surrogate a && is_low_surrogate b) eqn:E.
  - unfold is_high_surrogate, is_low_surrogate in E. bool_hyps. cbn [app].
    rewrite !json_string_plain by lia. rewrite IH; [done | cbn in Hle; lia|].
    by apply andb_true_iff in Hs as [_ ?].
  - rewrite <- app_assoc, json_string_unit by done.
    rewrite IH; [done | cbn in *; lia | done].
Qed.

(** ** Numbers are read back *)

(** No character that would go on with a number. *)
Definition number_ends (rest : jsstr) : bool :=
  match rest with
  | [] => true
  | c :: _ => negb (is_digit c || (c =? 46) || (c =? 101) || (c =? 69))
  end.

Lemma span_digits_app ds rest :
  forallb is_digit ds = true -> match rest with c :: _ => is_digit c = false | [] => True end ->
  span_digits (ds ++ rest) = (ds, rest).
Proof.
  intros Hd Hr. induction ds as [|d ds IH]; cbn [app span_digits].
  - destruct rest as [|c rest]; [done|]. cbn. by rewrite Hr.
  - apply andb_true_iff in Hd as [-> Hd]. by rewrite IH.
Qed.

(** The digits of a number do not begin with a superfluous zero. *)
Lemma js_of_nonneg_head n :
  0 <= n -> exists c ds, js_of_nonneg n = c :: ds /\ (c = 48 -> ds = []).
Proof.
  intros Hn. destruct (js_of_nonneg_spec n Hn) as (Hd & Hv & Hl & Hb).
  destruct (js_of_nonneg n) as [|c ds] eqn:E; [cbn in Hl; lia|]. exists c, ds. split; [done|].
  intros ->. destruct ds as [|d ds]; [done|]. exfalso. specialize (Hb ltac:(cbn; lia)).
  cbn [forallb] in Hd. apply andb_true_iff in Hd as [_ Hd].
  pose proof (digits_value_bound (d :: ds) Hd) as Hlt.
  change (48 :: d :: ds) with ([48] ++ (d :: ds)) in Hv. rewrite digits_value_app in Hv.
  change (digits_value [48]) with 0 in Hv. cbn [length] in Hb, Hlt, Hv.
  rewrite !Nat2Z.inj_succ in *. replace (Z.succ (Z.succ (Z.of_nat (length ds))) - 1)
    with (Z.succ (Z.of_nat (length ds))) in Hb by lia. lia.
Qed.

Lemma json_number_digits negative n rest :
  0 <= n -> safe_int n = true -> number_ends rest = true ->
  json_number ((if negative : bool then [45] else []) ++ js_of_nonneg n ++ rest)
  = Some (num (if negative && negb (n =? 0) then - n else n), rest).
Proof.
  intros Hn Hs Hr. destruct (js_of_nonneg_head n Hn) as (c & ds & E & Hz).
  destruct (js_of_nonneg_spec n Hn) as (Hd & Hv & _). rewrite E in Hd, Hv. rewrite E.
  assert (Hc : is_digit c = true) by (cbn in Hd; by apply andb_true_iff in Hd as [? _]).
  assert (Hsign : json_number ((if negative then [45] else []) ++ (c :: ds) ++ rest)
    = let '(int, s2) := span_digits ((c :: ds) ++ rest) in
      if match int with [] => true | c :: ds => (c =? 48) && negb (bool_decide (ds = [])) end then None
      else '(fraction, s3) ← json_fraction s2; '(exponent, s4) ← json_exponent s3;
           Some (num_of_decimal negative (digits_value (int ++ fraction))
                   (exponent - Z.of_nat (length fraction)), s4)).
  { destruct negative; [done|]. cbn [app]. unfold json_number.
    rewrite (proj2 (Z.eqb_neq c 45)); [done|]. apply is_digit_spec in Hc. lia. }
  rewrite Hsign, span_digits_app; [|done|].
  2: { destruct rest as [|r rest]; [done|]. cbn in Hr. by destruct (is_digit r). }
  rewrite (proj2 (andb_false_iff _ _)).
  2: { destruct (Z.eqb_spec c 48) as [->|]; [right | by left]. by rewrite Hz. }
  assert (json_fraction rest = Some ([], rest) /\ json_exponent rest = Some (0, rest)) as [-> Hx].
  { destruct rest as [|r rest]; [done|]. cbn in Hr. unfold json_fraction, json_exponent.
    destruct (is_digit r), (r =? 46), (r =? 101), (r =? 69); done. }
  cbn [mbind option_bind]. rewrite Hx. cbn [mbind option_bind]. rewrite app_nil_r, Hv.
  unfold num_of_decimal. cbn [length Z.of_nat]. replace (0 - 0 =? 0) with true by done. rewrite Hs.
  destruct (Z.eqb_spec n 0) as [Hn0|]; cbn [negb andb]; rewrite ?andb_false_r, ?andb_true_r; [|done].
  by rewrite Hn0.
Qed.

Lemma json_number_num z rest :
  safe_int z = true -> number_ends rest = true ->
  json_number (js_of_Z z ++ rest) = Some (num z, rest).
Proof.
  intros Hs Hr. unfold js_of_Z. destruct (Z.ltb_spec z 0).
  - assert (Hs' : safe_int (- z) = true) by (unfold safe_int; by rewrite Z.abs_opp).
    change (45 :: js_of_nonneg (- z)) with ([45] ++ js_of_nonneg (- z)). rewrite <- app_assoc.
    rewrite (json_number_digits true (- z) rest ltac:(lia) Hs' Hr).
    rewrite (proj2 (Z.eqb_neq (- z) 0)) by lia. cbn. do 3 f_equal. lia.
  - exact (json_number_digits false z rest ltac:(lia) Hs Hr).
Qed.

(** ** Values are read back *)

(** The values that lose nothing: strings of code units, safe integers, distinct
    names, nothing [undefined]. *)
Fixpoint json_plain (v : value) : bool :=
  match v with
  | VUndefined => false
  | VNull | VBool _ => true
  | VNum (JFinite (Qmake z d)) => (d =? 1)%positive && safe_int z
  | VNum _ => false
  | VStr s => forallb is_unit s
  | VArr l => forallb json_plain l
  | VObj fields =>
      forallb (fun f => forallb is_unit f.1 && json_plain f.2) fields
      && bool_decide (NoDup (map fst fields))
  end.

Lemma value_nested_ind (P : value -> Prop) :
  P VUndefined -> P VNull -> (forall b, P (VBool b)) -> (forall n, P (VNum n)) ->
  (forall s, P (VStr s)) -> (forall l, Forall P l -> P (VArr l)) ->
  (forall fields, Forall (fun f => P f.2) fields -> P (VObj fields)) -> forall v, P v.
Proof.
  intros Hu Hn Hb Hnum Hs Ha Ho. fix IH 1. intros [| | | | |l|fields]; [done..| |].
  - apply Ha. induction l; constructor; auto.
  - apply Ho. induction fields as [|[k x] fields]; constructor; auto.
Qed.

Definition text_ends (rest : jsstr) : bool :=
  match rest with [] => true | c :: _ => (c =? 44) || (c =? 93) || (c =? 125) end.

Lemma text_ends_number rest : text_ends rest = true -> number_ends rest = true.
Proof.
  destruct rest as [|c rest]; [done|]. cbn. unfold is_digit. intros H.
  assert (c = 44 \/ c = 93 \/ c = 125) as [-> | [-> | ->]]; [|done..].
  apply orb_true_iff in H as [[H|H]%orb_true_iff|H]; apply Z.eqb_eq in H; auto.
Qed.

(** A text begins with a character of its kind. *)
Definition text_head (c : Z) : bool :=
  (c =? 34) || (c =? 123) || (c =? 91) || (c =? 110) || (c =? 116) || (c =? 102) || (c =? 45) || is_digit c.

Lemma js_of_Z_head z : exists c ds, js_of_Z z = c :: ds /\ (c = 45 \/ is_digit c = true).
Proof.
  unfold js_of_Z. destruct (Z.ltb_spec z 0); [by eauto|].
  destruct (js_of_nonneg_head z) as (c & ds & E & _); [lia|]. exists c, ds. split; [done|].
  pose proof (js_of_nonneg_spec z ltac:(lia)) as [Hd _]. rewrite E in Hd.
  apply andb_true_iff in Hd as [Hd _]. by right.
Qed.

Lemma json_text_num z : safe_int z = true -> json_text (VNum (num z)) = js_of_Z z.
Proof.
  intros Hs. cbn [json_text json_number_text num]. change (JFinite (z # 1)) with (num z).
  by rewrite is_safe_integer_num, Hs, int_value_num.
Qed.

Lemma json_plain_num n : json_plain (VNum n) = true -> exists z, n = num z /\ safe_int z = true.
Proof.
  destruct n as [[z d]| |]; try done. cbn [json_plain]. intros [->%Pos.eqb_eq Hs]%andb_true_iff. by exists z.
Qed.

Lemma json_text_head v :
  json_plain v = true -> exists c rest, json_text v = c :: rest /\ text_head c = true.
Proof.
  destruct v as [| |[]|n|s|l|fields]; intros H; try done; try (cbn; by eauto).
  apply json_plain_num in H as (z & -> & Hs). rewrite json_text_num by done.
  destruct (js_of_Z_head z) as (c & ds & E & Hc). exists c, ds. split; [done|].
  unfold text_head. by destruct Hc as [-> | ->]; rewrite ?orb_true_r.
Qed.

Lemma text_head_space c : text_head c = true -> json_space c = false /\ c <> 93 /\ c <> 125.
Proof.
  unfold text_head, json_space, is_digit. intros H.
  repeat match type of H with _ || _ = true => apply orb_true_iff in H as [H|H] end; bool_hyps;
    repeat split; try lia.
Qed.

Lemma skip_space_head c s : json_space c = false -> skip_space (c :: s) = c :: s.
Proof. intros H. unfold skip_space. cbn. by rewrite H. Qed.

Lemma json_value_number n c r :
  c = 45 \/ is_digit c = true ->
  json_value (S n) (c :: r) = '(x, rest) ← json_number (c :: r); Some (VNum x, rest).
Proof.
  intros Hc. assert (Hb : c = 45 \/ 48 <= c <= 57) by (rewrite is_digit_spec in Hc; lia).
  cbn [json_value]. rewrite skip_space_head.
  2: { unfold json_space. repeat apply orb_false_intro; apply Z.eqb_neq; lia. }
  js_lits. cbn [starts_with].
  rewrite (proj2 (Z.eqb_neq c 34)), (proj2 (Z.eqb_neq c 123)), (proj2 (Z.eqb_neq c 91)) by lia.
  rewrite (proj2 (Z.eqb_neq 110 c)), (proj2 (Z.eqb_neq 116 c)), (proj2 (Z.eqb_neq 102 c)) by lia.
  done.
Qed.

Definition reads_back (v : value) : Prop :=
  json_plain v = true -> forall n rest, (2 * length (json_text v) <= n)%nat ->
  text_ends rest = true -> json_value n (json_text v ++ rest) = Some (v, rest).

Lemma commas_cons s t parts : commas (s :: t :: parts) = s ++ 44 :: commas (t :: parts).
Proof. reflexivity. Qed.

Lemma json_elements_text l : forall n rest,
  l <> [] -> Forall reads_back l -> forallb json_plain l = true ->
  (2 * length (commas (map json_text l)) + 1 <= n)%nat ->
  json_elements n (commas (map json_text l) ++ 93 :: rest) = Some (l, rest).
Proof.
  induction l as [|v l IH]; intros n rest Hne Hl Hp Hn; [done|].
  apply Forall_cons in Hl as [Hv Hl]. cbn [forallb] in Hp. apply andb_true_iff in Hp as [Hpv Hpl].
  destruct n as [|n]; [lia|]. cbn [json_elements]. destruct l as [|w l]; cbn [map] in *.
  - change (commas [json_text v]) with (json_text v) in *.
    rewrite Hv by (done || lia). cbn [mbind option_bind]. by rewrite skip_space_head.
  - rewrite commas_cons in *. rewrite <- !app_assoc. cbn [app]. rewrite !length_app in Hn. cbn [length] in Hn.
    rewrite Hv by (done || lia). cbn [mbind option_bind]. rewrite skip_space_head by done.
    change (44 =? 44) with true. cbn iota.
    destruct (json_text_head v Hpv) as (c & t & E & _). rewrite E in Hn. cbn [length] in Hn.
    rewrite IH; [done | done | done | done | cbn [map]; lia].
Qed.

Definition field_text (f : jsstr * value) : jsstr := json_quote f.1 ++ [58] ++ json_text f.2.

Definition plain_field (f : jsstr * value) : bool := forallb is_unit f.1 && json_plain f.2.

Lemma json_object_text fields :
  forallb plain_field fields = true ->
  json_text (VObj fields) = 123 :: commas (map field_text fields) ++ [125].
Proof.
  intros H. cbn [json_text]. do 3 f_equal. induction fields as [|[k v] fields IH]; [done|].
  cbn [forallb] in H. apply andb_true_iff in H as [[_ Hv]%andb_true_iff H]. cbn [map concat].
  rewrite IH by done. by destruct v.
Qed.

Lemma json_key_text k v s :
  forallb is_unit k = true ->
  json_key (field_text (k, v) ++ s) = Some (k, json_text v ++ s).
Proof.
  intros Hk. unfold field_text, json_quote, json_key. cbn [fst snd app].
  rewrite skip_space_head by done. change (34 =? 34) with true. cbn [negb].
  rewrite <- !app_assoc. cbn [app]. rewrite json_string_chars by done. cbn [mbind option_bind].
  by rewrite skip_space_head.
Qed.

Lemma field_length k v :
  length (field_text (k, v)) = (length (json_chars k) + length (json_text v) + 3)%nat.
Proof. unfold field_text, json_quote. cbn [fst snd]. rewrite !length_app. cbn. rewrite length_app. cbn. lia. Qed.

Lemma json_members_text fields : forall n rest,
  fields <> [] -> Forall (fun f => reads_back f.2) fields -> forallb plain_field fields = true ->
  (2 * length (commas (map field_text fields)) + 1 <= n)%nat ->
  json_members n (commas (map field_text fields) ++ 125 :: rest) = Some (fields, rest).
Proof.
  induction fields as [|[k v] fields IH]; intros n rest Hne Hl Hp Hn; [done|].
  apply Forall_cons in Hl as [Hv Hl]. cbn [forallb] in Hp.
  apply andb_true_iff in Hp as [[Hk Hpv]%andb_true_iff Hpl]. cbn [fst snd] in *.
  destruct n as [|n]; [lia|]. cbn [json_members].
  destruct fields as [|g fields]; cbn [map] in *.
  - change (commas [field_text (k, v)]) with (field_text (k, v)) in *.
    rewrite json_key_text by done. cbn [mbind option_bind].
    rewrite field_length in Hn. rewrite Hv by (done || lia). cbn [mbind option_bind].
    by rewrite skip_space_head.
  - rewrite commas_cons in *. rewrite <- app_assoc. cbn [app].
    rewrite !length_app in Hn. cbn [length] in Hn. rewrite field_length in Hn.
    rewrite json_key_text by done. cbn [mbind option_bind].
    rewrite Hv by (done || lia). cbn [mbind option_bind]. rewrite skip_space_head by done.
    change (44 =? 44) with true. cbn iota.
    rewrite IH; [done | done | done | done | cbn [map]; lia].
Qed.

Lemma set_field_fresh key v fields :
  key ∉ map fst fields -> set_field key v fields = fields ++ [(key, v)].
Proof.
  induction fields as [|[k x] fields IH]; intros H; cbn in *; [done|].
  apply not_elem_of_cons in H as [Hk H]. rewrite (proj2 (jseqb_neq _ _)) by congruence. by rewrite IH.
Qed.

Lemma object_of_distinct fields : NoDup (map fst fields) -> object_of fields = VObj fields.
Proof.
  intros Hn. unfold object_of. f_equal.
  cut (forall acc, NoDup (map fst (acc ++ fields)) ->
    fold_left (fun acc f => set_field f.1 f.2 acc) fields acc = acc ++ fields); [intros H; by apply H|].
  clear Hn. induction fields as [|[k v] fields IH]; intros acc Hn; cbn [fold_left]; [by rewrite app_nil_r|].
  assert (Hk : k ∉ map fst acc).
  { rewrite map_app in Hn. apply NoDup_app in Hn as (_ & Hd & _). intros Hin. apply (Hd k Hin). by left. }
  cbn [fst snd]. rewrite set_field_fresh by done. change ((k, v) :: fields) with ([(k, v)] ++ fields) in *.
  rewrite app_assoc in *. by apply IH.
Qed.

(** A list of texts does not begin with the bracket that would close it. *)
Lemma not_closed close_ c s t :
  text_head c = true -> close_ = 93 \/ close_ = 125 ->
  s = c :: t -> starts_with [close_] (skip_space s) = false.
Proof.
  intros Hc Hd ->. destruct (text_head_space c Hc) as (Hs & H1 & H2). rewrite skip_space_head by done.
  cbn. rewrite andb_true_r. apply Z.eqb_neq. destruct Hd as [-> | ->]; congruence.
Qed.

Lemma json_value_array n l rest :
  l <> [] -> forallb json_plain l = true ->
  json_value (S n) (json_text (VArr l) ++ rest)
  = '(vs, rest') ← json_elements n (commas (map json_text l) ++ 93 :: rest); Some (VArr vs, rest').
Proof.
  intros Hne Hp. cbn [json_text app]. rewrite <- app_assoc. cbn [app json_value].
  rewrite skip_space_head by done. change (91 =? 34) with false. change (91 =? 123) with false.
  change (91 =? 91) with true. cbn iota. destruct l as [|v l]; [done|].
  cbn [forallb] in Hp. apply andb_true_iff in Hp as [Hv _].
  destruct (json_text_head v Hv) as (c & t & E & Hc).
  destruct l as [|w l]; cbn [map]; rewrite ?commas_cons.
  - change (commas [json_text v]) with (json_text v). rewrite E.
    by rewrite (not_closed 93 c _ (t ++ 93 :: rest)) by auto.
  - rewrite E. cbn [app]. by erewrite (not_closed 93 c) by auto.
Qed.

Lemma json_value_object n fields rest :
  fields <> [] -> forallb plain_field fields = true ->
  json_value (S n) (json_text (VObj fields) ++ rest)
  = '(fs, rest') ← json_members n (commas (map field_text fields) ++ 125 :: rest);
    Some (object_of fs, rest').
Proof.
  intros Hne Hp. rewrite json_object_text by done. cbn [app]. rewrite <- app_assoc. cbn [app json_value].
  rewrite skip_space_head by done. change (123 =? 34) with false. change (123 =? 123) with true. cbn iota.
  destruct fields as [|f fields]; [done|]. destruct fields as [|g fields]; cbn [map]; rewrite ?commas_cons;
    by erewrite (not_closed 125 34) by (done || auto).
Qed.

Lemma json_text_reads_back v : reads_back v.
Proof.
  induction v as [| |b|n|s|l Hl|fields Hf] using value_nested_ind; intros Hp fuel rest Hn Hr; [done|..];
    (destruct fuel as [|fuel]; [destruct (json_text_head _ Hp) as (c & t & E & _); rewrite E in Hn;
       cbn [length] in Hn; lia|]).
  - done.
  - by destruct b.
  - apply json_plain_num in Hp as (z & -> & Hs). rewrite json_text_num in * by done.
    pose proof (json_number_num z rest Hs (text_ends_number _ Hr)) as Hnum.
    destruct (js_of_Z_head z) as (c & ds & E & Hc). rewrite E in *. cbn [app] in *.
    by rewrite json_value_number, Hnum.
  - cbn [json_plain] in Hp. cbn [json_text]. unfold json_quote. cbn [app]. rewrite <- app_assoc. cbn [app].
    cbn [json_value]. rewrite skip_space_head by done. change (34 =? 34) with true. cbn iota.
    by rewrite json_string_chars.
  - cbn [json_plain] in Hp. destruct l as [|v l]; [done|]. rewrite json_value_array by done.
    rewrite json_elements_text; [done | done | done | done|].
    cbn [json_text] in Hn. cbn [length] in Hn. rewrite length_app in Hn. cbn [length] in Hn. lia.
  - cbn [json_plain] in Hp. apply andb_true_iff in Hp as [Hp Hk]. apply bool_decide_eq_true in Hk.
    change (forallb plain_field fields = true) in Hp. destruct fields as [|f fields]; [done|].
    rewrite json_value_object by done. rewrite json_object_text in Hn by done.
    rewrite json_members_text; [|done|done|done|].
    + cbn [mbind option_bind]. by rewrite object_of_distinct.
    + cbn [length] in Hn. rewrite length_app in Hn. cbn [length] in Hn. lia.
Qed.

(** What [JSON.stringify] writes of a plain value, [JSON.parse] reads back. *)
Lemma JSON_roundtrip v : json_plain v = true -> JSON_parse (json_text v) = Some v.
Proof.
  intros Hp. unfold JSON_parse. pose proof (json_text_reads_back v Hp (S (2 * length (json_text v))) []
    ltac:(lia) eq_refl) as H. rewrite app_nil_r in H. by rewrite H.
Qed.

(** ** The fuel is enough *)

Lemma skip_space_length s : (length (skip_space s) <= length s)%nat.
Proof.
  unfold skip_space. induction s as [|c s IH]; cbn; [done|]. destruct (json_space c); cbn; lia.
Qed.

Lemma json_string_length s t rest : json_string s = Some (t, rest) -> (length rest < length s)%nat.
Proof.
  remember (length s) as n eqn:Hn. assert (Hle : (length s <= n)%nat) by lia. rewrite Hn. clear Hn.
  revert s t Hle. induction n as [|n IH]; intros [|c s] t Hle; cbn [json_string]; try done; [cbn in Hle; lia|].
  assert (Hnext : forall u s', (length s' <= length s)%nat ->
    ('(t, rest) ← json_string s'; Some (u :: t, rest)) = Some (t, rest) -> (length rest < length (c :: s))%nat).
  { intros u s' Hs. destruct (json_string s') as [[t' r]|] eqn:E; [|done]. cbn. intros [= <- <-].
    apply IH in E; [cbn in *; lia | cbn in *; lia]. }
  destruct (c =? 34); [intros [= <- <-]; cbn; lia|].
  destruct (c =? 92); [|destruct (c <? 32); [done|]; by apply Hnext].
  destruct s as [|e s2]; [done|]. destruct (e =? 117).
  - destruct s2 as [|x3 [|x2 [|x1 [|x0 s3]]]]; try done.
    destruct (hex_value x3), (hex_value x2), (hex_value x1), (hex_value x0); try done.
    cbn [mbind option_bind]. apply Hnext. cbn. lia.
  - destruct (simple_escape e); [|done]. cbn [mbind option_bind]. apply Hnext. cbn. lia.
Qed.

Lemma span_digits_length s : (length (span_digits s).1 + length (span_digits s).2 = length s)%nat.
Proof.
  induction s as [|c s IH]; cbn; [done|]. destruct (is_digit c); [|done].
  destruct (span_digits s). cbn in *. lia.
Qed.

Lemma json_number_length s x rest : json_number s = Some (x, rest) -> (length rest < length s)%nat.
Proof.
  unfold json_number. set (p := match s with c :: s1 => if c =? 45 then (true, s1) else (false, s) | [] => (false, s) end).
  assert (Hp : (length p.2 <= length s)%nat) by (subst p; destruct s as [|c s]; [done|]; destruct (c =? 45); cbn; lia).
  destruct p as [negative s1]. cbn in Hp. pose proof (span_digits_length s1) as H1.
  destruct (span_digits s1) as [[|d int] s2]; cbn in H1; [done|].
  destruct (_ && _); [done|]. destruct (json_fraction s2) as [[fraction s3]|] eqn:Ef; [|done].
  cbn [mbind option_bind]. destruct (json_exponent s3) as [[e s4]|] eqn:Ee; [|done].
  cbn. intros [= _ <-].
  assert (length s3 <= length s2)%nat.
  { unfold json_fraction in Ef. destruct s2 as [|c s2']; [by injection Ef as <- <-|].
    destruct (c =? 46); [|by injection Ef as <- <-]. pose proof (span_digits_length s2') as H.
    destruct (span_digits s2') as [[|] r]; [done|]. injection Ef as <- <-. cbn in *. lia. }
  assert (length s4 <= length s3)%nat; [|lia].
  unfold json_exponent in Ee. destruct s3 as [|c s3']; [by injection Ee as <- <-|].
  destruct (_ || _); [|by injection Ee as <- <-].
  set (q := match s3' with d :: s2 => _ | [] => _ end) in Ee.
  assert (Hq : (length q.2 <= length s3')%nat) by (subst q; destruct s3' as [|d' s3']; [done|];
    destruct (d' =? 45), (d' =? 43); cbn; lia).
  destruct q as [neg r]. cbn in Hq. pose proof (span_digits_length r) as Hd.
  destruct (span_digits r) as [[|] r']; [done|]. injection Ee as <- <-. cbn in *. lia.
Qed.

Lemma json_key_length s key rest : json_key s = Some (key, rest) -> (length rest < length s)%nat.
Proof.
  unfold json_key. pose proof (skip_space_length s) as Hs. destruct (skip_space s) as [|q r]; [done|].
  destruct (negb _); [done|]. destruct (json_string r) as [[k r1]|] eqn:E; [|done].
  apply json_string_length in E. cbn [mbind option_bind]. pose proof (skip_space_length r1).
  destruct (skip_space r1) as [|colon r2]; [done|]. destruct (colon =? 58); [|done].
  intros [= <- <-]. cbn in *. lia.
Qed.

Lemma json_shorter n :
  (forall s v rest, json_value n s = Some (v, rest) -> (length rest < length s)%nat)
  /\ (forall s vs rest, json_elements n s = Some (vs, rest) -> (length rest < length s)%nat)
  /\ (forall s fs rest, json_members n s = Some (fs, rest) -> (length rest < length s)%nat).
Proof.
  induction n as [|n (IHv & IHe & IHm)]; [done|]. split; [|split]; intros s v rest.
  - cbn [json_value]. pose proof (skip_space_length s). destruct (skip_space s) as [|c r]; [done|].
    cbn [length] in *. pose proof (skip_space_length r).
    repeat match goal with
    | |- (if ?b then _ else _) = _ -> _ => destruct b
    | |- (match ?m with Some _ => _ | None => _ end) = _ -> _ => fail
    | |- ('(_, _) ← ?m; _) = _ -> _ => destruct m as [[? ?]|] eqn:?; [|done]; cbn [mbind option_bind]
    end; intros [= <- <-];
    repeat match goal with
    | H : json_string _ = Some _ |- _ => apply json_string_length in H
    | H : json_members n _ = Some _ |- _ => apply IHm in H
    | H : json_elements n _ = Some _ |- _ => apply IHe in H
    | H : json_number _ = Some _ |- _ => apply json_number_length in H
    end; rewrite ?length_drop; cbn [length] in *; lia.
  - cbn [json_elements]. destruct (json_value n s) as [[x r]|] eqn:E; [|done]. apply IHv in E.
    cbn [mbind option_bind]. pose proof (skip_space_length r). destruct (skip_space r) as [|c r']; [done|].
    cbn [length] in *. destruct (c =? 44).
    + destruct (json_elements n r') as [[vs r2]|] eqn:E2; [|done]. apply IHe in E2. cbn. intros [= <- <-]. lia.
    + destruct (c =? 93); [|done]. intros [= <- <-]. lia.
  - cbn [json_members]. destruct (json_key s) as [[k r0]|] eqn:Ek; [|done]. apply json_key_length in Ek.
    cbn [mbind option_bind]. destruct (json_value n r0) as [[x r]|] eqn:E; [|done]. apply IHv in E.
    cbn [mbind option_bind]. pose proof (skip_space_length r). destruct (skip_space r) as [|c r']; [done|].
    cbn [length] in *. destruct (c =? 44).
    + destruct (json_members n r') as [[vs r2]|] eqn:E2; [|done]. apply IHm in E2. cbn. intros [= <- <-]. lia.
    + destruct (c =? 125); [|done]. intros [= <- <-]. lia.
Qed.

Lemma json_value_S n s :
  json_value (S n) s =
  match skip_space s with
      | [] => None
      | c :: r =>
          if c =? 34 then '(t, rest) ← json_string r; Some (VStr t, rest)
          else if c =? 123 then
            if starts_with [125] (skip_space r) then Some (VObj [], drop 1 (skip_space r))
            else '(fields, rest) ← json_members n r; Some (object_of fields, rest)
          else if c =? 91 then
            if starts_with [93] (skip_space r) then Some (VArr [], drop 1 (skip_space r))
            else '(vs, rest) ← json_elements n r; Some (VArr vs, rest)
          else if starts_with (js "null") (c :: r) then Some (VNull, drop 3 r)
          else if starts_with (js "true") (c :: r) then Some (VBool true, drop 3 r)
          else if starts_with (js "false") (c :: r) then Some (VBool false, drop 4 r)
          else '(x, rest) ← json_number (c :: r); Some (VNum x, rest)
      end.
Proof. reflexivity. Qed.

Lemma json_elements_S n s :
  json_elements (S n) s =
  '(v, rest) ← json_value n s;
      match skip_space rest with
      | c :: rest' =>
          if c =? 44 then '(vs, rest'') ← json_elements n rest'; Some (v :: vs, rest'')
          else if c =? 93 then Some ([v], rest') else None
      | [] => None
      end.
Proof. reflexivity. Qed.

Lemma json_members_S n s :
  json_members (S n) s =
  '(key, r) ← json_key s; '(v, rest) ← json_value n r;
      match skip_space rest with
      | c :: rest' =>
          if c =? 44 then '(fields, rest'') ← json_members n rest'; Some ((key, v) :: fields, rest'')
          else if c =? 125 then Some ([(key, v)], rest') else None
      | [] => None
      end.
Proof. reflexivity. Qed.

(** Beyond twice the length of the text, more fuel changes nothing. *)
Lemma json_value_enough n :
  (forall s, (2 * length s < n)%nat -> json_value (S n) s = json_value n s)
  /\ (forall s, (2 * length s + 1 < n)%nat -> json_elements (S n) s = json_elements n s)
  /\ (forall s, (2 * length s + 1 < n)%nat -> json_members (S n) s = json_members n s).
Proof.
  induction n as [|n (IHv & IHe & IHm)]; [by repeat split; intros s H; exfalso; lia|].
  split; [|split]; intros s Hn.
  - rewrite (json_value_S (S n)), (json_value_S n s).
    pose proof (skip_space_length s). destruct (skip_space s) as [|c r]; [done|].
    cbn [length] in *. by rewrite IHm, IHe by lia.
  - rewrite (json_elements_S (S n)), (json_elements_S n s).
    rewrite IHv by lia. destruct (json_value n s) as [[x r]|] eqn:E; [|done].
    apply (json_shorter n) in E. cbn [mbind option_bind]. pose proof (skip_space_length r).
    destruct (skip_space r) as [|c r']; [done|]. cbn [length] in *. by rewrite IHe by lia.
  - rewrite (json_members_S (S n)), (json_members_S n s).
    destruct (json_key s) as [[k r0]|] eqn:Ek; [|done]. apply json_key_length in Ek.
    cbn [mbind option_bind]. rewrite IHv by lia. destruct (json_value n r0) as [[x r]|] eqn:E; [|done].
    apply (json_shorter n) in E. cbn [mbind option_bind]. pose proof (skip_space_length r).
    destruct (skip_space r) as [|c r']; [done|]. cbn [length] in *. by rewrite IHm by lia.
Qed.
