(* ===== verification/KioskCart.v ===== *)
(** * The kiosk's cart: scans, limits, money

    [apps/kiosk/src/domain-guard/classify.ts] (what a scan is at a kiosk),
    [session/day-count.ts] (the pickup policy read from an untrusted snapshot),
    [session/cart.ts] (the reducer of the cart), [session/box-resolution.ts]
    and [screens/money.ts] (prices in kopecks).  The snapshot is what IndexedDB
    holds, of any version: a field that may be missing or of another type is an
    [option], [None] standing for both. *)

From stdpp Require Import base list strings gmap.
From Stdlib Require Import ZArith Lia.
From S2P Require Import Prelude Gs1 Km KioskApi.

(** ** domain-guard/classify.ts *)

Inductive KioskScan :=
| KBadge (raw : jsstr)
| KKm (rawKm gtin14 serial kmKey : jsstr)
| KSscc (sscc : jsstr)
| KIncomplete (raw : jsstr)
| KUnknown (raw : jsstr).

Definition classifyKioskScan (raw : jsstr) : KioskScan :=
  match validatePickupKm raw true with
  | PickupOk km key => KKm raw (gtin14 km) (serial km) key
  | PickupIncomplete _ => KIncomplete raw
  | PickupNotKm _ =>
      if (length (trim raw) =? 0)%nat then KUnknown raw
      else match classifyScan raw with
           | ScanSscc sscc => KSscc sscc
           | ScanGtin _ => KUnknown raw
           | _ => KBadge raw
           end
  end.

(** ** api/types.ts: the snapshot *)

Record Employee := {
  em_id : jsstr; em_limitMode : option jsstr; em_dayLimit : option jsnum;
  em_canWriteoff : option bool; em_takenTodayElsewhere : option jsnum
}.

Record Product := {
  pr_id : jsstr; pr_gtin14 : jsstr; pr_name : jsstr; pr_unitPrice : option jsstr
}.

Record Bootstrap := {
  bs_limitsEnabled : option bool; bs_dayLimitPerEmployee : option jsnum;
  bs_products : list Product; bs_employees : list Employee
}.

(** ** day-count.ts: the policy *)

Record EffectivePickupPolicy := { limited : bool; dayLimit : Z; canWriteoff : bool }.

Definition positive_integer (n : jsnum) : bool := is_integer n && (0 <? int_value n).

(** [isCompleteCurrentPickupPolicy], with the policy it is complete for. *)
Definition isCompleteCurrentPickupPolicy (bootstrap : Bootstrap) (e : Employee)
  : option EffectivePickupPolicy :=
  match bs_limitsEnabled bootstrap, em_limitMode e, em_dayLimit e, em_canWriteoff e with
  | Some limitsEnabled, Some limitMode, Some n, Some canWriteoff =>
      if (jseqb limitMode (js "limited") || jseqb limitMode (js "unlimited")) && positive_integer n
      then Some {| limited := limitsEnabled && jseqb limitMode (js "limited");
                   dayLimit := int_value n; canWriteoff := canWriteoff |}
      else None
  | _, _, _, _ => None
  end.

Definition employee_of (bootstrap : Bootstrap) (employeeId : jsstr) : option Employee :=
  List.find (fun one => jseqb (em_id one) employeeId) (bs_employees bootstrap).

Definition effectivePickupPolicy (bootstrap : Bootstrap) (employeeId : jsstr)
  : option EffectivePickupPolicy :=
  employee ← employee_of bootstrap employeeId;
  match isCompleteCurrentPickupPolicy bootstrap employee with
  | Some policy => Some policy
  | None =>
      let dayLimit := match bs_dayLimitPerEmployee bootstrap with
        | Some n => if positive_integer n then int_value n else 0
        | None => 0 end in
      Some {| limited := true; dayLimit := dayLimit; canWriteoff := false |}
  end.

Definition takenTodayElsewhere (bootstrap : option Bootstrap) (employeeId : jsstr) : Z :=
  match bootstrap ≫= fun b => employee_of b employeeId ≫= em_takenTodayElsewhere with
  | Some taken => if negb (is_integer taken) || (int_value taken <? 0) then 0 else int_value taken
  | None => 0
  end.

(** ** cart.ts *)

Record LooseKmLine := {
  lo_rawKm : jsstr; lo_kmKey : jsstr; lo_gtin14 : jsstr; lo_serial : jsstr;
  lo_productId : jsstr; lo_name : jsstr; lo_unitPrice : option jsstr
}.

Record BoxLine := {
  bl_boxId : jsstr; bl_sscc : jsstr; bl_productId : jsstr; bl_name : jsstr; bl_bottleCount : Z;
  bl_unitPrice : option jsstr; bl_contentKeys : list jsstr; bl_registryVersion : jsstr
}.

Inductive KioskCartLine := LooseLine (l : LooseKmLine) | BoxedLine (b : BoxLine).

Definition line_bottles (line : KioskCartLine) : Z :=
  match line with LooseLine _ => 1 | BoxedLine b => bl_bottleCount b end.

Definition unitPrice (line : KioskCartLine) : option jsstr :=
  match line with LooseLine l => lo_unitPrice l | BoxedLine b => bl_unitPrice b end.

Inductive CartNotice :=
| NDuplicate | NDuplicateBox | NDuplicateSscc
| NLimit (requested remaining : Z)
| NUnknownProduct | NUnknownBox | NRegistryUnavailable | NRegistryBlocked | NIncomplete | NNotACode.

Record CartState := {
  lines : list KioskCartLine; reason : Reason; writeoffReasonId : option jsstr;
  notice : option CartNotice
}.

Inductive CartAction :=
| AScan (scan : KioskScan)
| AScanBox (box : BoxLine)
| ABoxRejected (kind : CartNotice)
| ARemove (kmKey : jsstr)
| ARemoveBox (sscc : jsstr)
| AReason (r : Reason)
| AWriteoffReason (id : jsstr)
| ADismissNotice
| AReset.

Record CartContext := { cx_bootstrap : Bootstrap; cx_employeeId : jsstr; alreadyTakenToday : Z }.

Definition DENY_ALL_POLICY : EffectivePickupPolicy :=
  {| limited := true; dayLimit := 0; canWriteoff := false |}.

Definition cartPickupPolicy (ctx : CartContext) : EffectivePickupPolicy :=
  default DENY_ALL_POLICY (effectivePickupPolicy (cx_bootstrap ctx) (cx_employeeId ctx)).

Definition initialCartState : CartState :=
  {| lines := []; reason := Buy; writeoffReasonId := None; notice := None |}.

Definition bottleCount (ls : list KioskCartLine) : Z :=
  fold_left (fun sum line => sum + line_bottles line) ls 0.

Definition looseLines (ls : list KioskCartLine) : list LooseKmLine :=
  omap (fun line => match line with LooseLine l => Some l | BoxedLine _ => None end) ls.

Definition boxLines (ls : list KioskCartLine) : list BoxLine :=
  omap (fun line => match line with LooseLine _ => None | BoxedLine b => Some b end) ls.

Definition remainingToday (state : CartState) (ctx : CartContext) : option Z :=
  let policy := cartPickupPolicy ctx in
  if negb (limited policy) then None
  else Some (Z.max 0 (dayLimit policy - alreadyTakenToday ctx - bottleCount (lines state))).

Definition line_keys (line : KioskCartLine) : list jsstr :=
  match line with LooseLine l => [lo_kmKey l] | BoxedLine b => bl_contentKeys b end.

Definition contentKeys (ls : list KioskCartLine) : gset jsstr :=
  fold_left (fun keys line => list_to_set (line_keys line) ∪ keys) ls ∅.

Definition with_notice (state : CartState) (n : option CartNotice) : CartState :=
  {| lines := lines state; reason := reason state; writeoffReasonId := writeoffReasonId state;
     notice := n |}.

Definition with_lines (state : CartState) (ls : list KioskCartLine) : CartState :=
  {| lines := ls; reason := reason state; writeoffReasonId := writeoffReasonId state;
     notice := None |}.

Definition loose_line (rawKm gtin14 serial kmKey : jsstr) (product : Product) : LooseKmLine :=
  {| lo_rawKm := rawKm; lo_kmKey := kmKey; lo_gtin14 := gtin14; lo_serial := serial;
     lo_productId := pr_id product; lo_name := pr_name product;
     lo_unitPrice := pr_unitPrice product |}.

Definition applyScan (state : CartState) (scan : KioskScan) (ctx : CartContext) : CartState :=
  match scan with
  | KIncomplete _ => with_notice state (Some NIncomplete)
  | KUnknown _ => with_notice state (Some NNotACode)
  | KKm rawKm gtin14 serial kmKey =>
      match List.find (fun candidate => jseqb (pr_gtin14 candidate) gtin14)
              (bs_products (cx_bootstrap ctx)) with
      | None => with_notice state (Some NUnknownProduct)
      | Some product =>
          if bool_decide (kmKey ∈ contentKeys (lines state)) then with_notice state (Some NDuplicate)
          else match remainingToday state ctx with
               | Some remaining =>
                   if remaining <? 1 then with_notice state (Some (NLimit 1 remaining))
                   else with_lines state
                          (lines state ++ [LooseLine (loose_line rawKm gtin14 serial kmKey product)])
               | None => with_lines state
                           (lines state ++ [LooseLine (loose_line rawKm gtin14 serial kmKey product)])
               end
      end
  | _ => state
  end.

Definition is_box (sscc : jsstr) (line : KioskCartLine) : bool :=
  match line with LooseLine _ => false | BoxedLine b => jseqb (bl_sscc b) sscc end.

Definition is_loose (kmKey : jsstr) (line : KioskCartLine) : bool :=
  match line with LooseLine l => jseqb (lo_kmKey l) kmKey | BoxedLine _ => false end.

Definition applyBox (state : CartState) (box : BoxLine) (ctx : CartContext) : CartState :=
  if existsb (is_box (bl_sscc box)) (lines state) then with_notice state (Some NDuplicateSscc)
  else if existsb (fun key => bool_decide (key ∈ contentKeys (lines state))) (bl_contentKeys box)
  then with_notice state (Some NDuplicateBox)
  else match remainingToday state ctx with
       | Some remaining =>
           if remaining <? bl_bottleCount box
           then with_notice state (Some (NLimit (bl_bottleCount box) remaining))
           else with_lines state (lines state ++ [BoxedLine box])
       | None => with_lines state (lines state ++ [BoxedLine box])
       end.

Definition cartReducer (state : CartState) (action : CartAction) (ctx : CartContext) : CartState :=
  match action with
  | AScan scan => applyScan state scan ctx
  | AScanBox box => applyBox state box ctx
  | ABoxRejected kind => with_notice state (Some kind)
  | ARemove kmKey =>
      with_lines state (List.filter (fun line => negb (is_loose kmKey line)) (lines state))
  | ARemoveBox sscc =>
      with_lines state (List.filter (fun line => negb (is_box sscc line)) (lines state))
  | AReason r =>
      if bool_decide (r = Writeoff) && negb (canWriteoff (cartPickupPolicy ctx)) then state
      else {| lines := lines state; reason := r;
              writeoffReasonId := match r with Buy => None | Writeoff => writeoffReasonId state end;
              notice := notice state |}
  | AWriteoffReason id =>
      if canWriteoff (cartPickupPolicy ctx)
      then {| lines := lines state; reason := reason state; writeoffReasonId := Some id;
              notice := notice state |}
      else state
  | ADismissNotice => with_notice state None
  | AReset => initialCartState
  end.

Definition canSubmit (state : CartState) (ctx : CartContext) : bool :=
  if (length (lines state) =? 0)%nat then false
  else match reason state with
       | Writeoff => canWriteoff (cartPickupPolicy ctx)
                     && bool_decide (is_Some (writeoffReasonId state))
       | Buy => true
       end.

(** ** screens/money.ts *)

(** [/^(-?)(\d+)(?:\.(\d+))?$/]: the sign, the whole part, the fraction. *)
Definition price_parts (s : jsstr) : option (bool * jsstr * jsstr) :=
  let '(negative, rest) := match s with
    | c :: s' => if c =? 45 then (true, s') else (false, s)
    | [] => (false, []) end in
  match index_of 46 rest with
  | None => if all_digits1 rest then Some (negative, rest, []) else None
  | Some i =>
      let whole := take i rest in
      let digits := drop (S i) rest in
      if all_digits1 whole && all_digits1 digits then Some (negative, whole, digits) else None
  end.

(** The number of kopecks, in integers: exact as long as it is a safe integer. *)
Definition toKopecks (value : jsstr) : option Z :=
  match price_parts (trim value) with
  | None => None
  | Some (negative, whole, digits) =>
      let hundredths := take 2 digits ++ replicate (2 - length digits) 48 in
      let kopecks := digits_value whole * 100 + digits_value hundredths in
      let kopecks := match digits !! 2%nat with
        | Some c => if 5 <=? c - 48 then kopecks + 1 else kopecks
        | None => kopecks end in
      Some ((if negative then -1 else 1) * kopecks)
  end.

Fixpoint sum_kopecks (sum : Z) (items : list KioskCartLine) : option Z :=
  match items with
  | [] => Some sum
  | item :: rest =>
      price ← unitPrice item; kopecks ← toKopecks price;
      sum_kopecks (sum + kopecks * line_bottles item) rest
  end.

Definition totalKopecks (items : list KioskCartLine) : option Z := sum_kopecks 0 items.

(** ** box-resolution.ts *)

Inductive CacheAge := Fresh | Warn | Blocked.

#[export] Instance CacheAge_eq_dec : EqDecision CacheAge.
Proof. solve_decision. Defined.

Record StoredBoxRegistryRow := {
  br_sscc : jsstr; br_boxId : jsstr; br_productId : jsstr; br_bottleCount : Z;
  br_contentKeys : list jsstr; br_updatedAt : jsstr; br_version : jsstr
}.

Inductive BoxResolution := Resolved (box : BoxLine) | Rejected (n : CartNotice).

(** [meta] and [lookup] are what the store of [box-registry.ts] answers. *)
Definition resolveBoxScan {M} (sscc : jsstr) (bootstrap : Bootstrap) (registryAge : CacheAge)
    (meta : option M) (lookup : jsstr -> option StoredBoxRegistryRow) : BoxResolution :=
  match meta with
  | None => Rejected NRegistryUnavailable
  | Some _ =>
      if bool_decide (registryAge = Blocked) then Rejected NRegistryBlocked
      else match lookup sscc with
      | None => Rejected NUnknownBox
      | Some row =>
          match List.find (fun candidate => jseqb (pr_id candidate) (br_productId row))
                  (bs_products bootstrap) with
          | None => Rejected NUnknownBox
          | Some product => Resolved
              {| bl_boxId := br_boxId row; bl_sscc := br_sscc row; bl_productId := br_productId row;
                 bl_name := pr_name product; bl_bottleCount := br_bottleCount row;
                 bl_unitPrice := pr_unitPrice product; bl_contentKeys := br_contentKeys row;
                 bl_registryVersion := br_version row |}
          end
      end
  end.

(** ** The lines of a cart *)

(** Two lines hold different things: no code in common, not the same box. *)
Definition apart (l k : KioskCartLine) : Prop :=
  line_keys l ## line_keys k /\
  match l, k with BoxedLine b, BoxedLine c => bl_sscc b <> bl_sscc c | _, _ => True end.

Abbreviation apart_all := (Sorted.StronglySorted apart).

Lemma contentKeys_from (keys : gset jsstr) (ls : list KioskCartLine) k :
  k ∈ fold_left (fun keys line => list_to_set (line_keys line) ∪ keys) ls keys <->
  k ∈ keys \/ exists l, l ∈ ls /\ k ∈ line_keys l.
Proof.
  revert keys. induction ls as [|l ls IH]; intros keys; cbn [fold_left].
  - set_solver.
  - rewrite IH, elem_of_union, elem_of_list_to_set. set_solver.
Qed.

Lemma elem_of_contentKeys (ls : list KioskCartLine) k :
  k ∈ contentKeys ls <-> exists l, l ∈ ls /\ k ∈ line_keys l.
Proof. unfold contentKeys. rewrite contentKeys_from. set_solver. Qed.

Lemma bottles_from (s : Z) (ls : list KioskCartLine) :
  fold_left (fun sum line => sum + line_bottles line) ls s = s + bottleCount ls.
Proof.
  unfold bottleCount. revert s. induction ls as [|l ls IH]; intros s; cbn [fold_left]; [lia|].
  rewrite IH, (IH (0 + line_bottles l)). lia.
Qed.

Lemma bottleCount_cons l (ls : list KioskCartLine) : bottleCount (l :: ls) = line_bottles l + bottleCount ls.
Proof. unfold bottleCount at 1. cbn [fold_left]. rewrite bottles_from. lia. Qed.

Lemma bottleCount_app (ls ks : list KioskCartLine) : bottleCount (ls ++ ks) = bottleCount ls + bottleCount ks.
Proof.
  induction ls as [|l ls IH]; [done|]. cbn [app]. rewrite !bottleCount_cons, IH. lia.
Qed.

Lemma apart_snoc (ls : list KioskCartLine) l :
  apart_all ls -> (forall k, k ∈ ls -> apart k l) -> apart_all (ls ++ [l]).
Proof.
  induction 1 as [|k ls Hs IH Hk]; intros Hl; cbn [app]; [by repeat constructor|].
  constructor; [apply IH; set_solver|]. rewrite Forall_app. split; [done|].
  apply Forall_singleton. apply Hl. left.
Qed.

Lemma filter_Forall {A} (P : A -> Prop) f (ls : list A) : Forall P ls -> Forall P (List.filter f ls).
Proof. induction 1; cbn; [done|]. destruct (f _); auto. Qed.

Lemma apart_filter f (ls : list KioskCartLine) : apart_all ls -> apart_all (List.filter f ls).
Proof.
  induction 1 as [|k ls Hs IH Hk]; cbn; [constructor|].
  destruct (f k); [|done]. constructor; [done | by apply filter_Forall].
Qed.

Lemma bottles_filter f (ls : list KioskCartLine) :
  Forall (fun l => 0 <= line_bottles l) ls -> bottleCount (List.filter f ls) <= bottleCount ls.
Proof.
  induction 1 as [|l ls Hl Hs IH]; [done|]. cbn [List.filter]. rewrite bottleCount_cons.
  destruct (f l); [rewrite bottleCount_cons|]; lia.
Qed.

(** A scanned code that is new, or a box whose codes and number are. *)
Lemma apart_loose (ls : list KioskCartLine) l :
  lo_kmKey l ∉ contentKeys ls -> forall k, k ∈ ls -> apart k (LooseLine l).
Proof.
  rewrite elem_of_contentKeys. intros Hn k Hk. split; [|by destruct k].
  cbn [line_keys]. intros x Hx ->%list_elem_of_singleton. eauto.
Qed.

Lemma apart_box (ls : list KioskCartLine) b :
  existsb (is_box (bl_sscc b)) ls = false ->
  existsb (fun key => bool_decide (key ∈ contentKeys ls)) (bl_contentKeys b) = false ->
  forall k, k ∈ ls -> apart k (BoxedLine b).
Proof.
  intros Hs Hc k Hk. split.
  - intros x Hx Hb. cbn [line_keys] in Hb.
    apply not_true_iff_false in Hc. apply Hc, existsb_exists. exists x.
    split; [by apply list_elem_of_In|]. apply bool_decide_eq_true_2, elem_of_contentKeys. eauto.
  - destruct k as [|c]; [done|]. intros He.
    apply not_true_iff_false in Hs. apply Hs, existsb_exists. exists (BoxedLine c).
    split; [by apply list_elem_of_In|]. cbn [is_box]. by apply jseqb_eq.
Qed.

(** What one action asks of the device: boxes hold at least no bottle, and the
    employee may take at most [allowance] more in all. *)
Definition action_fine (action : CartAction) : Prop :=
  match action with AScanBox box => 0 <= bl_bottleCount box | _ => True end.

Definition within (allowance : Z) (ctx : CartContext) : Prop :=
  limited (cartPickupPolicy ctx) = true /\
  dayLimit (cartPickupPolicy ctx) - alreadyTakenToday ctx <= allowance.

Definition lines_fine (ls : list KioskCartLine) : Prop :=
  apart_all ls /\ Forall (fun l => 0 <= line_bottles l) ls.

(** The lines of the next state: a subset, none, or one line more that stands
    apart and fits the allowance. *)
Lemma cartReducer_lines st action ctx :
  let st' := cartReducer st action ctx in
  (exists f, lines st' = List.filter f (lines st)) \/
  exists l, lines st' = lines st ++ [l] /\ (forall k, k ∈ lines st -> apart k l) /\
    (action_fine action -> 0 <= line_bottles l) /\
    (forall A, within A ctx -> line_bottles l <= Z.max 0 (A - bottleCount (lines st))).
Proof.
  assert (Hsame : exists f, lines st = List.filter f (lines st)).
  { exists (fun _ => true). induction (lines st) as [|l ls IH]; cbn; congruence. }
  assert (Hrem : forall A n, within A ctx -> remainingToday st ctx = Some n ->
      n <= Z.max 0 (A - bottleCount (lines st))).
  { intros A n [Hl Hd]. unfold remainingToday. cbv zeta. rewrite Hl. cbn [negb]. intros [= <-]. lia. }
  assert (Hnone : forall A, within A ctx -> remainingToday st ctx <> None).
  { intros A [Hl _]. unfold remainingToday. cbv zeta. by rewrite Hl. }
  intros st'. unfold st', cartReducer. destruct action as [scan|box|n|k|k|r|id| |]; try (left; exact Hsame).
  - unfold applyScan. destruct scan as [| raw gtin serial key | | |]; try (left; exact Hsame).
    destruct (List.find _ _) as [product|]; [|left; exact Hsame].
    destruct (bool_decide _) eqn:Hk; [left; exact Hsame|].
    apply bool_decide_eq_false_1 in Hk.
    assert (Hap := apart_loose (lines st) (loose_line raw gtin serial key product) Hk).
    destruct (remainingToday st ctx) as [n|] eqn:Hr.
    + destruct (n <? 1) eqn:Hn; [left; exact Hsame|]. bool_hyps. right.
      eexists. split; [reflexivity|]. split; [exact Hap|]. split; [cbn; lia|].
      intros A HA. cbn [line_bottles]. specialize (Hrem A n HA eq_refl). lia.
    + right. eexists. split; [reflexivity|]. split; [exact Hap|]. split; [cbn; lia|].
      intros A HA. by destruct (Hnone A HA).
  - unfold applyBox. destruct (existsb (is_box _) _) eqn:Hs; [left; exact Hsame|].
    destruct (existsb _ (bl_contentKeys box)) eqn:Hc; [left; exact Hsame|].
    assert (Hap := apart_box _ _ Hs Hc).
    destruct (remainingToday st ctx) as [n|] eqn:Hr.
    + destruct (n <? _) eqn:Hn; [left; exact Hsame|]. bool_hyps. right.
      eexists. split; [reflexivity|]. split; [exact Hap|]. split; [done|].
      intros A HA. cbn [line_bottles]. specialize (Hrem A n HA eq_refl). lia.
    + right. eexists. split; [reflexivity|]. split; [exact Hap|]. split; [done|].
      intros A HA. by destruct (Hnone A HA).
  - left. by eexists.
  - left. by eexists.
  - destruct (_ && _); left; exact Hsame.
  - destruct (canWriteoff _); left; exact Hsame.
  - left. exists (fun _ => false). clear. cbn [lines initialCartState].
    induction (lines st) as [|l ls IH]; [done | exact IH].
Qed.

Lemma cartReducer_fine st action ctx :
  action_fine action -> lines_fine (lines st) -> lines_fine (lines (cartReducer st action ctx)).
Proof.
  intros Ha [Hs Hb]. destruct (cartReducer_lines st action ctx) as [[f ->]|(l & -> & Hap & Hl & _)].
  - split; [by apply apart_filter | by apply filter_Forall].
  - split; [by apply apart_snoc|]. rewrite Forall_app. split; [done | apply Forall_singleton; auto].
Qed.

Lemma cartReducer_within A st action ctx :
  within A ctx -> lines_fine (lines st) -> bottleCount (lines st) <= Z.max 0 A ->
  bottleCount (lines (cartReducer st action ctx)) <= Z.max 0 A.
Proof.
  intros HA [_ Hb] HbA.
  destruct (cartReducer_lines st action ctx) as [[f ->]|(l & -> & _ & _ & Hl)].
  - pose proof (bottles_filter f _ Hb). lia.
  - rewrite bottleCount_app, (bottleCount_cons l []). specialize (Hl A HA).
    change (bottleCount []) with 0. lia.
Qed.

Definition run_cart (steps : list (CartAction * CartContext)) : CartState :=
  fold_left (fun st step => cartReducer st step.1 step.2) steps initialCartState.

Lemma run_cart_ind (P : CartState -> Prop) steps :
  P initialCartState ->
  (forall st step, step ∈ steps -> P st -> P (cartReducer st step.1 step.2)) ->
  P (run_cart steps).
Proof.
  unfold run_cart. generalize initialCartState. induction steps as [|step steps IH]; intros st H0 Hs; [done|].
  cbn [fold_left]. apply IH; [apply Hs; [left | done] | intros st' s' Hin; apply Hs; by right].
Qed.

(** C25: Whatever is scanned, added, removed and reset at a kiosk, the cart
    never holds one marking code twice, be it loose or inside a box, nor one
    box twice; and when the employee may take at most [allowance] more at every
    step, the bottles of the cart, those inside the boxes included, never
    exceed it. *)
Theorem cart_invariant (allowance : Z) (steps : list (CartAction * CartContext))
    (Hfine : Forall (fun step => action_fine step.1) steps) :
  let ls := lines (run_cart steps) in
  (forall (i j : nat) l k, ls !! i = Some l -> ls !! j = Some k -> i <> j ->
     line_keys l ## line_keys k /\
     match l, k with BoxedLine b, BoxedLine c => bl_sscc b <> bl_sscc c | _, _ => True end) /\
  (Forall (fun step => within allowance step.2) steps -> bottleCount ls <= Z.max 0 allowance).
Proof.
  rewrite Forall_forall in Hfine. intros ls.
  assert (Hok : lines_fine ls).
  { apply (run_cart_ind (fun st => lines_fine (lines st))); [repeat constructor|]. intros st step Hin Hst.
    apply cartReducer_fine; [by apply Hfine | done]. }
  split.
  - destruct Hok as [Hs _]. assert (Hlt : forall (i j : nat) l k, ls !! i = Some l -> ls !! j = Some k ->
        (i < j)%nat -> apart l k).
    { induction Hs as [|x xs Hs IH Hx]; intros i j l k Hi Hj Hij; [by rewrite lookup_nil in Hi|].
      destruct j as [|j]; [lia|]. destruct i as [|i]; cbn in Hi, Hj.
      - injection Hi as <-. by apply (Forall_lookup_1 _ _ _ _ Hx Hj).
      - eapply IH; [exact Hi | exact Hj | lia]. }
    intros i j l k Hi Hj Hne. destruct (decide (i < j)%nat) as [H|H]; [by eapply Hlt|].
    destruct (Hlt j i k l Hj Hi ltac:(lia)) as [Hk Hb]. split; [intros x ? ?; by apply (Hk x)|].
    destruct l, k; congruence.
  - intros HA. rewrite Forall_forall in HA.
    apply (run_cart_ind (fun st => lines_fine (lines st) /\ bottleCount (lines st) <= Z.max 0 allowance)).
    + split; [repeat constructor | cbn; lia].
    + intros st step Hin [Hst Hb]. split; [apply cartReducer_fine; [by apply Hfine | done]|].
      apply cartReducer_within; [by apply HA | done..].
Qed.

Definition sample_bootstrap : Bootstrap :=
  {| bs_limitsEnabled := Some true; bs_dayLimitPerEmployee := None;
     bs_products := [{| pr_id := js "p1"; pr_gtin14 := js "04600000000013"; pr_name := js "Water";
                        pr_unitPrice := Some (js "89.90") |}];
     bs_employees := [{| em_id := js "e1"; em_limitMode := Some (js "limited");
                         em_dayLimit := Some (num 3); em_canWriteoff := Some true;
                         em_takenTodayElsewhere := Some (num 1) |}] |}.

Definition sample_ctx : CartContext :=
  {| cx_bootstrap := sample_bootstrap; cx_employeeId := js "e1"; alreadyTakenToday := 1 |}.

Definition sample_box (sscc : string) (keys : list jsstr) : BoxLine :=
  {| bl_boxId := js "b"; bl_sscc := js sscc; bl_productId := js "p1"; bl_name := js "Water";
     bl_bottleCount := Z.of_nat (length keys); bl_unitPrice := Some (js "89.90");
     bl_contentKeys := keys; bl_registryVersion := js "7" |}.

Definition sample_scan (key : string) : CartAction :=
  AScan (KKm (js key) (js "04600000000013") (js "s") (js key)).

(** A scan, the same scan again, a box that holds it, and a box too large. *)
Definition sample_steps : list (CartAction * CartContext) :=
  [(sample_scan "a", sample_ctx); (sample_scan "a", sample_ctx);
   (AScanBox (sample_box "1" [js "a"]), sample_ctx);
   (AScanBox (sample_box "2" [js "b"; js "c"]), sample_ctx)].

Lemma cart_invariant_witness :
  (length (lines (run_cart sample_steps)) = 1%nat /\
   notice (run_cart sample_steps) = Some (NLimit 2 1)) /\
  bottleCount (lines (run_cart sample_steps)) <= Z.max 0 2.
Proof.
  split; [by vm_compute|]. apply (cart_invariant 2 sample_steps).
  - repeat constructor; vm_compute; discriminate.
  - repeat (constructor; [split; [by vm_compute | by vm_compute]|]). constructor.
Defined.

(** ** Money *)

Lemma digits_no_dot s : forallb is_digit s = true -> 46 ∉ s.
Proof.
  intros H Hin%list_elem_of_In. rewrite forallb_forall in H. specialize (H _ Hin).
  apply is_digit_spec in H. lia.
Qed.

Lemma digit_ink c : is_digit c = true -> is_space c = false /\ (c =? 45) = false.
Proof.
  rewrite is_digit_spec. intros H. assert (Hc : c ∈ seqZ 48 10) by (apply elem_of_seqZ; lia).
  cbn in Hc. repeat (apply elem_of_cons in Hc as [->|Hc]; [done|]). by apply not_elem_of_nil in Hc.
Qed.

Lemma digits_head s c : forallb is_digit s = true -> head s = Some c -> (c =? 45) = false.
Proof. destruct s as [|d s]; [done|]. cbn. intros [Hd _]%andb_true_iff [= <-]. by apply digit_ink. Qed.

(** The price a number is written as. *)
Definition price_text (negative : bool) (whole digits : jsstr) : jsstr :=
  (if negative then [45] else []) ++ whole ++ match digits with [] => [] | _ => 46 :: digits end.

Lemma price_parts_text negative whole digits :
  all_digits1 whole = true -> forallb is_digit digits = true ->
  price_parts (price_text negative whole digits) = Some (negative, whole, digits).
Proof.
  intros Hw Hd. assert (Hw' := Hw). apply all_digits1_spec in Hw' as [Hne Hall].
  set (rest := whole ++ match digits with [] => [] | _ => 46 :: digits end).
  assert (Hr : match index_of 46 rest with
      | None => if all_digits1 rest then Some (negative, rest, []) else None
      | Some i => if all_digits1 (take i rest) && all_digits1 (drop (S i) rest)
                  then Some (negative, take i rest, drop (S i) rest) else None end
      = Some (negative, whole, digits)).
  { unfold rest. destruct digits as [|d digits].
    - rewrite app_nil_r, (proj2 (index_of_None _ _)) by by apply digits_no_dot. by rewrite Hw.
    - rewrite index_of_app by by apply digits_no_dot. rewrite take_app_length.
      replace (drop (S (length whole)) (whole ++ 46 :: d :: digits)) with (d :: digits).
      + rewrite Hw, (proj2 (all_digits1_spec _)) by done. done.
      + change (46 :: d :: digits) with ([46] ++ d :: digits). rewrite app_assoc.
        rewrite drop_app_length'; [done|]. rewrite length_app. cbn. lia. }
  unfold price_parts, price_text. destruct negative; cbn [app]; fold rest.
  - change (45 =? 45) with true. cbv iota. exact Hr.
  - destruct rest as [|c rest'] eqn:Er.
    { destruct whole; [done | discriminate Er]. }
    rewrite (digits_head whole c); [exact Hr | done|]. destruct whole; [done|]. by injection Er as <- _.
Qed.

Lemma price_parts_inv s negative whole digits :
  price_parts s = Some (negative, whole, digits) ->
  all_digits1 whole = true /\ forallb is_digit digits = true /\
  (s = price_text negative whole digits).
Proof.
  unfold price_parts. intros H.
  set (parts := match s with c :: s' => if c =? 45 then (true, s') else (false, s) | [] => (false, []) end) in H.
  assert (Hs : s = (if parts.1 then [45] else []) ++ parts.2).
  { unfold parts. destruct s as [|c s']; [done|]. destruct (Z.eqb_spec c 45) as [->|]; done. }
  destruct parts as [n rest]. cbn [fst snd] in Hs. destruct (index_of 46 rest) as [i|] eqn:Ei.
  - destruct (all_digits1 (take i rest)) eqn:E1; [|discriminate].
    destruct (all_digits1 (drop (S i) rest)) eqn:E2; [|discriminate].
    cbn [andb] in H. injection H as <- <- <-. split; [done|].
    apply all_digits1_spec in E2 as [Hne E2]. split; [done|]. rewrite Hs. unfold price_text. f_equal.
    apply index_of_Some in Ei as (Hr & _). rewrite Hr at 1. f_equal.
    destruct (drop (S i) rest); done.
  - destruct (all_digits1 rest) eqn:E1; [|discriminate]. injection H as <- <- <-.
    split; [done|]. split; [done|]. rewrite Hs. unfold price_text. by rewrite app_nil_r.
Qed.

(** Rounding on the third digit is rounding the whole fraction. *)
Lemma hundredths_rounded digits :
  forallb is_digit digits = true ->
  let d := 10 ^ Z.of_nat (length digits) in
  let h := digits_value (take 2 digits ++ replicate (2 - length digits) 48) in
  match digits !! 2%nat with
  | Some c => if 5 <=? c - 48 then h + 1 else h
  | None => h end = (200 * digits_value digits + d) / (2 * d).
Proof.
  intros Hd. destruct digits as [|a [|b [|c rest]]]; [done|..].
  - cbn in Hd. apply andb_true_iff in Hd as [Ha%is_digit_spec _]. cbn.
    apply Z.div_unique with (r := 10); lia.
  - cbn in Hd. repeat (apply andb_true_iff in Hd as [?%is_digit_spec Hd]). cbn.
    apply Z.div_unique with (r := 100); lia.
  - cbn [forallb] in Hd. apply andb_true_iff in Hd as [Ha%is_digit_spec Hd].
    apply andb_true_iff in Hd as [Hb%is_digit_spec Hd]. apply andb_true_iff in Hd as [Hc%is_digit_spec Hd].
    pose proof (digits_value_bound rest Hd) as Hr. cbv zeta.
    change (a :: b :: c :: rest) with ([a; b; c] ++ rest). rewrite (digits_value_app [a; b; c] rest), length_app.
    rewrite Nat2Z.inj_add, Z.pow_add_r by lia. set (m := 10 ^ Z.of_nat (length rest)) in *.
    change (10 ^ Z.of_nat (length [a; b; c])) with 1000.
    set (r := digits_value rest) in *.
    assert (Hp : 0 <= (c - 48) * m <= 9 * m /\ (5 <= c - 48 -> 5 * m <= (c - 48) * m) /\
                 (c - 48 < 5 -> (c - 48) * m <= 4 * m)) by nia.
    set (h := digits_value [a; b]).
    replace (digits_value [a; b; c]) with (10 * h + (c - 48)) by (unfold h; cbn; lia).
    change (take 2 ([a; b; c] ++ rest)) with [a; b].
    change (replicate _ 48) with (@nil Z). change ([a; b] ++ []) with [a; b]. fold h.
    cbn [lookup list_lookup app].
    destruct (Z.leb_spec 5 (c - 48)) as [H5|H5].
    + apply Z.div_unique with (r := 200 * ((c - 48) * m + r) + 1000 * m - 2000 * m); [left; lia|]. lia.
    + apply Z.div_unique with (r := 200 * ((c - 48) * m + r) + 1000 * m); [left; lia|]. lia.
Qed.

Lemma toKopecks_text negative whole digits :
  all_digits1 whole = true -> forallb is_digit digits = true ->
  let d := 10 ^ Z.of_nat (length digits) in
  (match price_parts (price_text negative whole digits) with
   | None => None
   | Some (negative, whole, digits) =>
      let hundredths := take 2 digits ++ replicate (2 - length digits) 48 in
      let kopecks := digits_value whole * 100 + digits_value hundredths in
      let kopecks := match digits !! 2%nat with
        | Some c => if 5 <=? c - 48 then kopecks + 1 else kopecks
        | None => kopecks end in
      Some ((if negative then -1 else 1) * kopecks)
   end) = Some ((if negative then -1 else 1) *
                ((200 * (digits_value whole * d + digits_value digits) + d) / (2 * d))).
Proof.
  intros Hw Hd. cbv zeta. rewrite price_parts_text by done. do 2 f_equal.
  pose proof (hundredths_rounded digits Hd) as Hh. cbv zeta in Hh.
  set (d := 10 ^ Z.of_nat (length digits)) in *.
  assert (Hpos : 0 < d) by (apply Z.pow_pos_nonneg; lia).
  replace (200 * (digits_value whole * d + digits_value digits) + d)
    with (200 * digits_value digits + d + (digits_value whole * 100) * (2 * d)) by lia.
  rewrite Z.div_add, <- Hh by lia. destruct (digits !! 2%nat) as [c|]; [|lia].
  destruct (5 <=? c - 48); lia.
Qed.

(** A price is read exactly when, between blanks, it is an optional minus,
    digits and possibly a point and digits; of [whole.digits] the result is the
    nearest whole number of kopecks, halves away from zero, however many digits
    follow the point. *)
Theorem toKopecks_nearest (value : jsstr) (kopecks : Z) :
  toKopecks value = Some kopecks <->
  exists (negative : bool) (whole digits : jsstr),
    all_digits1 whole = true /\ forallb is_digit digits = true /\
    trim value = (if negative then [45] else []) ++ whole
                 ++ match digits with [] => [] | _ => 46 :: digits end /\
    let d := 10 ^ Z.of_nat (length digits) in
    kopecks = (if negative then -1 else 1)
              * ((200 * (digits_value whole * d + digits_value digits) + d) / (2 * d)).
Proof.
  split.
  - unfold toKopecks. destruct (price_parts (trim value)) as [[[negative whole] digits]|] eqn:Ep; [|done].
    destruct (price_parts_inv _ _ _ _ Ep) as (Hw & Hd & Ht). intros Hk.
    exists negative, whole, digits. split; [done|]. split; [done|]. split; [exact Ht|].
    pose proof (toKopecks_text negative whole digits Hw Hd) as Hv.
    cbv zeta in Hv, Hk |- *. rewrite <- Ht, Ep, Hk in Hv. by injection Hv.
  - intros (negative & whole & digits & Hw & Hd & Ht & ->). unfold toKopecks. rewrite Ht.
    exact (toKopecks_text negative whole digits Hw Hd).
Qed.

(** A total is known only when every line is priced, and is then their sum. *)
Lemma sum_kopecks_spec items s t :
  sum_kopecks s items = Some t <->
  exists ks, mapM (fun item => unitPrice item ≫= toKopecks) items = Some ks /\
    t = s + foldr Z.add 0 (zip_with Z.mul ks (line_bottles <$> items)).
Proof.
  revert s. induction items as [|item items IH]; intros s; cbn [sum_kopecks mapM].
  - split; [intros [= <-]; exists []; split; [done | cbn; lia] | intros (ks & [= <-] & ->); cbn; f_equal; lia].
  - destruct (unitPrice item) as [price|]; cbn [mbind option_bind]; [|split; [done | by intros (? & ? & _)]].
    destruct (toKopecks price) as [k|]; cbn [mbind option_bind]; [|split; [done | by intros (? & ? & _)]].
    rewrite IH. split.
    + intros (ks & Hks & ->). exists (k :: ks). rewrite Hks. split; [done|]. cbn. lia.
    + intros (ks & Hks & ->). destruct (mapM _ items) as [ks'|] eqn:Em; [|done]. cbn in Hks.
      injection Hks as <-. exists ks'. split; [done|]. cbn. lia.
Qed.
