(* ===== verification/KioskFlow.v ===== *)
(** * The screens of a kiosk and the order they confirm

    [apps/kiosk/src/session/flow.ts]: the state machine of the screens and the
    session, what an answer of the server means for the cart it was sent for,
    and the body of the order a confirmed session sends.  Scanner, storage,
    clocks and network stay outside it. *)

From stdpp Require Import base list strings gmap.
From Stdlib Require Import ZArith Lia.
From S2P Require Import Prelude KioskApi KioskCart.

(** ** Data *)

Inductive KioskOutcome :=
| OAccepted (orderNo : jsstr) (bottleCount : Z) (totalKopecks : option Z)
| OQueued (deviceSeq : Z) (bottleCount : Z)
| ORejected (title message : jsstr) (bottleCount : option Z)
| OPartial (orderNo : jsstr) (acceptedBottleCount : Z) (rejectedLines : list KioskCartLine).

Record KioskEmployee := {
  ke_id : jsstr; ke_fullName : jsstr; ke_limited : bool; ke_dayLimit : Z; ke_canWriteoff : bool
}.

Record ActiveKioskSession := {
  s_id : Z; badgeDigest : jsstr; employee : KioskEmployee; cart : CartState
}.

(** The part of [StoredKioskOutcome] a recovered outcome shows. *)
Inductive OutcomeKind := KAccepted | KPartial | KRejected.

#[export] Instance OutcomeKind_eq_dec : EqDecision OutcomeKind.
Proof. solve_decision. Defined.

Record RecoveredOutcome := {
  ro_deviceSeq : Z; ro_kind : OutcomeKind; ro_orderNo : option jsstr; ro_acceptedCount : Z
}.

Inductive ActiveScreen := SCart | SOperation | SReason.

Inductive KioskFlowState :=
| Pairing
| Login
| Active (screen : ActiveScreen) (session : ActiveKioskSession)
| Confirmation (session : ActiveKioskSession) (submitting : bool)
| Outcome (session : ActiveKioskSession) (deviceSeq : Z) (result : option CreateOrderResultDto)
    (outcome : KioskOutcome) (stored : option RecoveredOutcome).

Inductive KioskFlowAction :=
| Paired | Unpaired
| SessionStarted (session : ActiveKioskSession)
| DraftRecovered (session : ActiveKioskSession)
| OutcomeRecovered (session : ActiveKioskSession) (outcome : RecoveredOutcome)
| CartChanged (c : CartState)
| LegacySubmit (c : CartState)
| SubmissionStarted | SubmitFailed | Continue
| ChooseOperation (r : Reason)
| ChooseWriteoffReason (id : jsstr)
| InvalidateWriteoffReason | Back
| Submitted (deviceSeq : Z) (result : option CreateOrderResultDto) (outcome : KioskOutcome)
    (stored : option RecoveredOutcome)
| Finish | CancelConfirmed | LogoutConfirmed | IdleReset.

Definition initialKioskFlowState : KioskFlowState := Pairing.

(** ** What an answer means *)

Definition rejectedLoose (result : CreateOrderResultDto) : list jsstr :=
  map cf_rawKm (r_conflicts result).

Definition rejectedBoxes (result : CreateOrderResultDto) : list jsstr :=
  map bc_sscc (default [] (r_boxConflicts result)).

Definition has (s : jsstr) (set : list jsstr) : bool := existsb (jseqb s) set.

Definition line_rejected (result : CreateOrderResultDto) (line : KioskCartLine) : bool :=
  match line with
  | LooseLine l => has (lo_rawKm l) (rejectedLoose result)
  | BoxedLine b => has (bl_sscc b) (rejectedBoxes result)
  end.

Definition kioskOutcomeOf (deviceSeq : Z) (result : option CreateOrderResultDto) (c : CartState)
  : KioskOutcome :=
  match result with
  | None => OQueued deviceSeq (bottleCount (lines c))
  | Some r =>
      if jseqb (r_orderNo r) [] then
        ORejected (js "Order rejected") (js "The server rejected every line")
          (Some (bottleCount (lines c)))
      else if negb (length (rejectedLoose r) =? 0)%nat || negb (length (rejectedBoxes r) =? 0)%nat then
        OPartial (r_orderNo r) (r_itemCount r) (List.filter (line_rejected r) (lines c))
      else OAccepted (r_orderNo r) (r_itemCount r) (totalKopecks (lines c))
  end.

(** [new Map(boxes.map((box) => [box.sscc, box.bottleCount]))]: the last wins. *)
Definition box_map (boxes : list AcceptedBox) : gmap jsstr Z :=
  fold_left (fun m box => <[ab_sscc box := ab_bottleCount box]> m) boxes ∅.

Fixpoint accepted_sum (result : CreateOrderResultDto) (boxes : gmap jsstr Z)
    (total acceptedCount : Z) (ls : list KioskCartLine) : option Z :=
  match ls with
  | [] => if acceptedCount =? r_itemCount result then Some total else None
  | line :: rest =>
      price ← unitPrice line; unit ← toKopecks price;
      match line with
      | LooseLine l =>
          if negb (has (lo_rawKm l) (rejectedLoose result))
          then accepted_sum result boxes (total + unit) (acceptedCount + 1) rest
          else accepted_sum result boxes total acceptedCount rest
      | BoxedLine b =>
          match boxes !! bl_sscc b with
          | Some n => accepted_sum result boxes (total + unit * n) (acceptedCount + n) rest
          | None => accepted_sum result boxes total acceptedCount rest
          end
      end
  end.

Definition acceptedTotalKopecks (result : option CreateOrderResultDto) (c : CartState) : option Z :=
  match result with
  | None => totalKopecks (lines c)
  | Some r =>
      if jseqb (r_orderNo r) [] || (r_itemCount r =? 0) then None
      else accepted_sum r (box_map (default [] (r_acceptedBoxes r))) 0 0 (lines c)
  end.

(** ** The order a confirmed session sends *)

Definition createConfirmedOrderBody (session : ActiveKioskSession) (deviceSeq : Z) (createdAt : jsstr)
  : CreateOrderDto :=
  let boxes := boxLines (lines (cart session)) in
  {| d_deviceSeq := deviceSeq; d_badge := BadgeDigest (badgeDigest session);
     d_reason := reason (cart session); d_writeoffReasonId := writeoffReasonId (cart session);
     d_items := map lo_rawKm (looseLines (lines (cart session)));
     d_boxes := if (0 <? length boxes)%nat then Some (map bl_sscc boxes) else None;
     d_createdAt := Some createdAt; d_admissionNonce := None; d_admissionProof := None |}.

(** ** The reducer *)

Definition with_cart (session : ActiveKioskSession) (c : CartState) : ActiveKioskSession :=
  {| s_id := s_id session; badgeDigest := badgeDigest session; employee := employee session;
     cart := c |}.

(** [{ ...cart, reason, writeoffReasonId }]. *)
Definition for_reason (c : CartState) (r : Reason) (id : option jsstr) : CartState :=
  {| lines := lines c; reason := r; writeoffReasonId := id; notice := notice c |}.

Definition no_lines (c : CartState) : bool := (length (lines c) =? 0)%nat.

Definition recovered_outcome (o : RecoveredOutcome) : KioskOutcome :=
  match ro_kind o with
  | KAccepted => OAccepted (default [] (ro_orderNo o)) (ro_acceptedCount o) None
  | KPartial => OPartial (default [] (ro_orderNo o)) (ro_acceptedCount o) []
  | KRejected => ORejected (js "Rejected") (js "Rejected") (Some 0)
  end.

(** [case 'legacySubmit']. *)
Definition legacySubmit (state : KioskFlowState) (c : CartState) : KioskFlowState :=
  match state with
  | Active SCart session =>
      if no_lines c then state
      else
        let c := if ke_canWriteoff (employee session) then c else for_reason c Buy None in
        match reason c, writeoffReasonId c with
        | Writeoff, None => state
        | Buy, Some _ => Confirmation (with_cart session (for_reason c Buy None)) false
        | _, _ => Confirmation (with_cart session c) false
        end
  | _ => state
  end.

(** [case 'continue']. *)
Definition continue_ (state : KioskFlowState) : KioskFlowState :=
  match state with
  | Active SCart session =>
      if no_lines (cart session) then state
      else if ke_canWriteoff (employee session) then Active SOperation session
      else Confirmation (with_cart session (for_reason (cart session) Buy None)) false
  | Active SReason session =>
      match reason (cart session), writeoffReasonId (cart session) with
      | Writeoff, Some _ => Confirmation session false
      | _, _ => state
      end
  | _ => state
  end.

Definition chooseOperation (state : KioskFlowState) (r : Reason) : KioskFlowState :=
  match state with
  | Active SOperation session =>
      match r with
      | Writeoff =>
          if negb (ke_canWriteoff (employee session)) then state
          else Active SReason (with_cart session (for_reason (cart session) Writeoff None))
      | Buy => Confirmation (with_cart session (for_reason (cart session) Buy None)) false
      end
  | _ => state
  end.

Definition invalidateWriteoffReason (state : KioskFlowState) : KioskFlowState :=
  match state with
  | Active SReason session | Confirmation session _ =>
      match reason (cart session) with
      | Writeoff => Active SReason (with_cart session (for_reason (cart session) Writeoff None))
      | Buy => state
      end
  | _ => state
  end.

Definition back (state : KioskFlowState) : KioskFlowState :=
  match state with
  | Active SOperation session => Active SCart session
  | Active SReason session => Active SOperation session
  | Confirmation session _ =>
      match reason (cart session) with
      | Writeoff => Active SReason session
      | Buy => Active (if ke_canWriteoff (employee session) then SOperation else SCart) session
      end
  | _ => state
  end.

Definition submitting (state : KioskFlowState) : bool :=
  match state with Confirmation _ s => s | _ => false end.

Definition is_answer (action : KioskFlowAction) : bool :=
  match action with Submitted _ _ _ _ | SubmitFailed => true | _ => false end.

Definition kioskFlowReducer (state : KioskFlowState) (action : KioskFlowAction) : KioskFlowState :=
  match action with
  | Unpaired => Pairing
  | _ =>
      if submitting state && negb (is_answer action) then state
      else match action, state with
      | Paired, Pairing => Login
      | DraftRecovered session, Login => Confirmation session false
      | SessionStarted session, Login => Active SCart session
      | OutcomeRecovered session o, Login =>
          Outcome session (ro_deviceSeq o) None (recovered_outcome o) (Some o)
      | CartChanged c, Active SCart session => Active SCart (with_cart session c)
      | LegacySubmit c, _ => legacySubmit state c
      | SubmissionStarted, Confirmation session false => Confirmation session true
      | SubmitFailed, Confirmation session true => Active SCart session
      | Continue, _ => continue_ state
      | ChooseOperation r, _ => chooseOperation state r
      | ChooseWriteoffReason id, Active SReason session =>
          if (length id =? 0)%nat then state
          else Active SReason (with_cart session
                 (for_reason (cart session) (reason (cart session)) (Some id)))
      | InvalidateWriteoffReason, _ => invalidateWriteoffReason state
      | Back, _ => back state
      | Submitted deviceSeq result outcome stored, Confirmation session true =>
          Outcome session deviceSeq result outcome stored
      | Finish, Outcome _ _ _ _ _ => Login
      | (CancelConfirmed | LogoutConfirmed | IdleReset),
        (Active _ _ | Confirmation _ _ | Outcome _ _ _ _ _) => Login
      | _, _ => state
      end
  end.

(** ** The device around the reducer *)

(** What [preparePickupDraft] (grants/drafts.ts) writes down of a confirmed session and
    [recoverPickupDraft] asks of the employee who logs in again. *)
Record PickupDraft := { dr_employeeId : jsstr; dr_badgeDigest : jsstr; dr_cart : CartState }.

Definition draft_of (session : ActiveKioskSession) : PickupDraft :=
  {| dr_employeeId := ke_id (employee session); dr_badgeDigest := badgeDigest session; dr_cart := cart session |}.

Definition drafted_for (session : ActiveKioskSession) (draft : PickupDraft) : Prop :=
  dr_employeeId draft = ke_id (employee session) /\ dr_badgeDigest draft = badgeDigest session.

Definition is_recovery (action : KioskFlowAction) : bool :=
  match action with DraftRecovered _ => true | _ => false end.

Record Shell := { sh_flow : KioskFlowState; sh_drafts : list PickupDraft }.

(** One step of the device: any action but a recovery; a confirmed session is written
    down; any draft of the employee who logs in, and of the same badge, comes back in a
    session of today's rights, in whose place the draft puts its cart (ui/KioskShell.tsx);
    the page is loaded anew, and only the drafts are left.  Which draft comes back, and
    when one is given up, is left open. *)
Inductive shell_step : Shell -> Shell -> Prop :=
| Acts action flow drafts :
    is_recovery action = false ->
    shell_step {| sh_flow := flow; sh_drafts := drafts |}
      {| sh_flow := kioskFlowReducer flow action; sh_drafts := drafts |}
| Prepares session sending drafts :
    shell_step {| sh_flow := Confirmation session sending; sh_drafts := drafts |}
      {| sh_flow := Confirmation session sending; sh_drafts := draft_of session :: drafts |}
| Recovers session draft flow drafts :
    draft ∈ drafts -> drafted_for session draft ->
    shell_step {| sh_flow := flow; sh_drafts := drafts |}
      {| sh_flow := kioskFlowReducer flow (DraftRecovered (with_cart session (dr_cart draft)));
         sh_drafts := drafts |}
| Reloads flow drafts :
    shell_step {| sh_flow := flow; sh_drafts := drafts |}
      {| sh_flow := initialKioskFlowState; sh_drafts := drafts |}.

(** The moments of a device since it was new, the last one first. *)
Inductive lived : list Shell -> Prop :=
| Fresh : lived [{| sh_flow := initialKioskFlowState; sh_drafts := [] |}]
| Lives shell shell' past :
    lived (shell :: past) -> shell_step shell shell' -> lived (shell' :: shell :: past).

(** At one of the moments, the employee of the session confirmed a write-off of the
    same lines, with the same badge, and had the right to. *)
Definition allowed_before (past : list Shell) (session : ActiveKioskSession) : Prop :=
  exists shell session0 sending0,
    shell ∈ past /\ sh_flow shell = Confirmation session0 sending0
    /\ ke_id (employee session0) = ke_id (employee session) /\ badgeDigest session0 = badgeDigest session
    /\ lines (cart session0) = lines (cart session)
    /\ reason (cart session0) = Writeoff /\ ke_canWriteoff (employee session0) = true.

(** ** Reachable screens *)

Lemma no_lines_spec c : no_lines c = false <-> lines c <> [].
Proof. unfold no_lines. rewrite Nat.eqb_neq. destruct (lines c); cbn; split; congruence. Qed.

Section Rights.
(** Who may write off: today's right is enough, and what is enough does not depend on
    the reason that is chosen. *)
Context (may : ActiveKioskSession -> Prop).
Context (may_now : forall session, ke_canWriteoff (employee session) = true -> may session).
Context (may_still : forall session r id,
  may session -> may (with_cart session (for_reason (cart session) r id))).

(** A session whose order can be sent: something is taken, and a writeoff is
    allowed and has its reason. *)
Definition sendable (session : ActiveKioskSession) : Prop :=
  lines (cart session) <> [] /\
  (reason (cart session) = Writeoff -> may session /\ is_Some (writeoffReasonId (cart session))) /\
  (reason (cart session) = Buy -> writeoffReasonId (cart session) = None).

Definition flow_ok (state : KioskFlowState) : Prop :=
  match state with
  | Confirmation session _ => sendable session
  | Active SOperation session => lines (cart session) <> []
  | Active SReason session =>
      lines (cart session) <> [] /\ may session /\ reason (cart session) = Writeoff
  | _ => True
  end.

Definition draft_ok (action : KioskFlowAction) : Prop :=
  match action with DraftRecovered session => sendable session | _ => True end.

Lemma sendable_buy session c :
  lines c <> [] -> sendable (with_cart session (for_reason c Buy None)).
Proof. intros Hl. split; [exact Hl|]. done. Qed.

#[local] Hint Resolve sendable_buy : core.

Lemma legacySubmit_ok state c : flow_ok state -> flow_ok (legacySubmit state c).
Proof.
  intros H. unfold legacySubmit. destruct state as [| |[] session| |]; try exact H.
  destruct (no_lines c) eqn:En; [exact H|]. apply no_lines_spec in En. cbv zeta.
  destruct (ke_canWriteoff (employee session)) eqn:Ew.
  - destruct (reason c) eqn:Er, (writeoffReasonId c) as [id|] eqn:Ei; cbn [flow_ok]; auto.
    + split; [exact En|]. cbn. rewrite Er, Ei. done.
    + split; [exact En|]. cbn. rewrite Er, Ei. split; [|done]. intros _. split; [by apply may_now | done].
  - cbn [reason writeoffReasonId for_reason flow_ok]. auto.
Qed.

Lemma continue_ok state : flow_ok state -> flow_ok (continue_ state).
Proof.
  intros H. unfold continue_. destruct state as [| |[] session| |]; try exact H.
  - destruct (no_lines (cart session)) eqn:En; [exact H|]. apply no_lines_spec in En.
    destruct (ke_canWriteoff (employee session)) eqn:Ew; cbn [flow_ok]; auto.
  - destruct H as (Hl & Hw & Hr).
    destruct (reason (cart session)) eqn:Er, (writeoffReasonId (cart session)) eqn:Ei;
      try (by split); split; [done|]. rewrite Er, Ei. by split; [|done].
Qed.

Lemma back_ok state : flow_ok state -> flow_ok (back state).
Proof.
  intros H. unfold back. destruct state as [| |[] session|session b|]; try exact H.
  - exact I.
  - by destruct H as (? & _).
  - destruct H as (Hl & Hw & Hb). destruct (reason (cart session)) eqn:Er; cbn [flow_ok].
    + by destruct (ke_canWriteoff (employee session)).
    + by destruct (Hw eq_refl).
Qed.

Lemma operation_ok state r : flow_ok state -> flow_ok (chooseOperation state r).
Proof.
  intros H. unfold chooseOperation. destruct state as [| |[] session| |]; try exact H.
  destruct r; [cbn [flow_ok]; auto|]. destruct (ke_canWriteoff (employee session)) eqn:Ew; [|exact H].
  split; [exact H|]. split; [by apply may_now | done].
Qed.

Lemma invalidate_ok state : flow_ok state -> flow_ok (invalidateWriteoffReason state).
Proof.
  intros H. unfold invalidateWriteoffReason. destruct state as [| |[] session|session b|]; try exact H.
  - destruct (reason (cart session)); [exact H|]. destruct H as (? & ? & _). split; [done|].
    split; [by apply may_still | done].
  - destruct H as (Hl & Hw & Hb). destruct (reason (cart session)) eqn:Er.
    + split; [done|]. by rewrite Er.
    + destruct (Hw eq_refl). split; [done|]. split; [by apply may_still | done].
Qed.

Lemma flow_ok_step state action :
  draft_ok action -> flow_ok state -> flow_ok (kioskFlowReducer state action).
Proof.
  intros Hd H. unfold kioskFlowReducer.
  destruct action; try exact I; (destruct (submitting state && _); [exact H|]);
    auto using legacySubmit_ok, continue_ok, back_ok, operation_ok, invalidate_ok;
    destruct state as [| |[] s0|s0 []|]; try exact H; try exact I; try exact Hd.
  destruct H as (Hl & Hw & Hr). destruct (length id =? 0)%nat; [done|]. split; [done|].
  split; [by apply may_still | done].
Qed.
End Rights.

Lemma sendable_weaken (may may' : ActiveKioskSession -> Prop) session :
  (may session -> may' session) -> sendable may session -> sendable may' session.
Proof. intros H (Hl & Hw & Hb). split; [done|]. split; [|done]. intros Hr. destruct (Hw Hr). auto. Qed.

Lemma flow_ok_weaken (may may' : ActiveKioskSession -> Prop) state :
  (forall session, may session -> may' session) -> flow_ok may state -> flow_ok may' state.
Proof.
  intros H. destruct state as [| |[] session|session b|]; cbn; try done; [intros (? & ? & ?); auto|].
  apply (sendable_weaken may may'), H.
Qed.

Definition run_flow (actions : list KioskFlowAction) (state : KioskFlowState) : KioskFlowState :=
  fold_left kioskFlowReducer actions state.

Definition quiet (action : KioskFlowAction) : bool :=
  match action with Unpaired => false | _ => negb (is_answer action) end.

Lemma submitting_quiet actions session :
  forallb quiet actions = true ->
  run_flow actions (Confirmation session true) = Confirmation session true.
Proof.
  induction actions as [|action actions IH]; [done|]. cbn [forallb]. intros [Hq Ha]%andb_true_iff.
  unfold run_flow. cbn [fold_left]. replace (kioskFlowReducer _ action) with (Confirmation session true).
  - by apply IH.
  - unfold kioskFlowReducer. destruct action; done.
Qed.

(** *** What an order lists *)

Lemma loose_codes ls :
  map lo_rawKm (looseLines ls)
  = omap (fun line => match line with LooseLine l => Some (lo_rawKm l) | BoxedLine _ => None end) ls.
Proof. induction ls as [|[l|b] ls IH]; [done | cbn; by f_equal | exact IH]. Qed.

Lemma box_names ls :
  map bl_sscc (boxLines ls)
  = omap (fun line => match line with LooseLine _ => None | BoxedLine b => Some (bl_sscc b) end) ls.
Proof. induction ls as [|[l|b] ls IH]; [done | exact IH | cbn; by f_equal]. Qed.

(** *** Rights over the life of a device *)

Definition may_write_off (past : list Shell) (session : ActiveKioskSession) : Prop :=
  ke_canWriteoff (employee session) = true \/ allowed_before past session.

Lemma may_now past session : ke_canWriteoff (employee session) = true -> may_write_off past session.
Proof. by left. Qed.

Lemma may_still past session r id :
  may_write_off past session -> may_write_off past (with_cart session (for_reason (cart session) r id)).
Proof. intros [H|H]; [by left | right; exact H]. Qed.

Lemma may_later past shell session : may_write_off past session -> may_write_off (shell :: past) session.
Proof.
  intros [H|(shell0 & s0 & b & Hin & H)]; [by left|]. right. exists shell0, s0, b. split; [by right | done].
Qed.

(** A draft brings back what may be sent by whoever recovers it. *)
Definition draft_sendable (past : list Shell) (draft : PickupDraft) : Prop :=
  forall session, drafted_for session draft -> sendable (may_write_off past) (with_cart session (dr_cart draft)).

Lemma draft_of_sendable past session sending drafts :
  {| sh_flow := Confirmation session sending; sh_drafts := drafts |} ∈ past ->
  sendable (may_write_off past) session -> draft_sendable past (draft_of session).
Proof.
  intros Hin (Hl & Hw & Hb) other [Hid Hbadge]. cbn in Hid, Hbadge. split; [done|]. split; [|done].
  intros Hr. destruct (Hw Hr) as [Hmay Hreason]. split; [|done]. right.
  destruct Hmay as [Hcan|(shell & s0 & b & Hin0 & Hs & Hi & Hd & Hls & Hw0 & Hcan)].
  - by exists {| sh_flow := Confirmation session sending; sh_drafts := drafts |}, session, sending.
  - exists shell, s0, b. cbn. split_and!; try done; congruence.
Qed.

Lemma lived_ok shell past :
  lived (shell :: past) ->
  flow_ok (may_write_off (shell :: past)) (sh_flow shell)
  /\ Forall (draft_sendable (shell :: past)) (sh_drafts shell).
Proof.
  remember (shell :: past) as t eqn:Et. intros H. revert shell past Et.
  induction H as [|shell0 shell1 past0 H IH Hs]; intros shell past [= <- <-]; [by split; [|constructor]|].
  destruct (IH _ _ eq_refl) as [Hf Hd]. clear IH.
  assert (Hm : forall session, may_write_off (shell0 :: past0) session -> may_write_off (shell1 :: shell0 :: past0) session)
    by (intros session; apply may_later).
  apply (flow_ok_weaken _ _ _ Hm) in Hf.
  assert (Hd' : Forall (draft_sendable (shell1 :: shell0 :: past0)) (sh_drafts shell0)).
  { eapply Forall_impl; [exact Hd|]. intros draft Hdr session Hfor. exact (sendable_weaken _ _ _ (Hm _) (Hdr session Hfor)). }
  inversion Hs as [action flow drafts Ha|session sending drafts|session draft flow drafts Hin Hfor|flow drafts];
    subst; cbn [sh_flow sh_drafts] in *; (split; [|try done]); try done.
  - apply flow_ok_step; [apply may_now | apply may_still | by destruct action | done].
  - constructor; [|done]. eapply draft_of_sendable; [|exact Hf]. right. by left.
  - apply flow_ok_step; [apply may_now | apply may_still | | done].
    exact (proj1 (Forall_forall _ _) Hd' _ Hin _ Hfor).
Qed.

(** C26: At any moment in the life of a device, over any actions, confirmed sessions
    written down and recovered at a later login, and reloads: the order made of a
    confirmed session lists exactly the codes of the loose lines of the cart and exactly
    the SSCCs of its box lines, both in the order of the cart, which is not empty; a
    write-off has a reason, and was confirmed for these lines, at this moment or an
    earlier one, by the same employee with the same badge while the employee had the
    right to write off (the flow does not hold a recovered draft against today's right,
    [recovered_without_right]; the shell does before it sends the order); a purchase
    never has a reason.  While the order is on its way,
    nothing but its answer, a reload or the loss of the pairing changes the state, and
    the answer is shown against the very session that was sent. *)
Theorem confirmed_order (shell : Shell) (past : list Shell) (session : ActiveKioskSession)
    (sending : bool) (deviceSeq : Z) (createdAt : jsstr)
    (Hlife : lived (shell :: past))
    (Hstate : sh_flow shell = Confirmation session sending) :
  let body := createConfirmedOrderBody session deviceSeq createdAt in
  let ls := lines (cart session) in
  ls <> [] /\
  d_items body = omap (fun line => match line with LooseLine l => Some (lo_rawKm l) | BoxedLine _ => None end) ls /\
  default [] (d_boxes body)
    = omap (fun line => match line with LooseLine _ => None | BoxedLine b => Some (bl_sscc b) end) ls /\
  (d_reason body = Writeoff -> is_Some (d_writeoffReasonId body) /\ allowed_before (shell :: past) session) /\
  (d_reason body = Buy -> d_writeoffReasonId body = None) /\
  (forall later seq result outcome stored,
     sending = true -> forallb quiet later = true ->
     run_flow later (sh_flow shell) = Confirmation session true /\
     kioskFlowReducer (Confirmation session true) (Submitted seq result outcome stored)
       = Outcome session seq result outcome stored).
Proof.
  destruct (lived_ok _ _ Hlife) as [Hok _]. rewrite Hstate in Hok |- *. destruct Hok as (Hl & Hw & Hb).
  split; [exact Hl|]. split; [|split; [|split; [|split; [exact Hb|]]]]; cbn.
  - apply loose_codes.
  - rewrite <- box_names. by destruct (boxLines _).
  - intros Hr. destruct (Hw Hr) as [[Hcan|H] Hreason]; [|done]. split; [done|].
    exists shell, session, sending. by split; [left|].
  - intros later seq result outcome stored -> Hq. split; [|done]. by apply submitting_quiet.
Qed.

Definition sample_session : ActiveKioskSession :=
  {| s_id := 1; badgeDigest := js "d";
     employee := {| ke_id := js "e1"; ke_fullName := js "A"; ke_limited := true; ke_dayLimit := 3;
                    ke_canWriteoff := true |};
     cart := run_cart sample_steps |}.

Definition sample_actions : list KioskFlowAction :=
  [Paired; SessionStarted sample_session; Continue; ChooseOperation Writeoff; Continue;
   ChooseWriteoffReason (js "r1"); Continue; SubmissionStarted].

Definition sample_confirmed : ActiveKioskSession :=
  with_cart sample_session (for_reason (run_cart sample_steps) Writeoff (Some (js "r1"))).

Lemma lived_acts actions shell past :
  forallb (fun action => negb (is_recovery action)) actions = true -> lived (shell :: past) ->
  exists past', lived ({| sh_flow := run_flow actions (sh_flow shell); sh_drafts := sh_drafts shell |} :: past').
Proof.
  revert shell past. induction actions as [|action actions IH]; intros [flow drafts] past; [by exists past|].
  cbn [forallb]. intros [Ha%negb_true_iff Hrest]%andb_true_iff Hl.
  apply (IH {| sh_flow := kioskFlowReducer flow action; sh_drafts := drafts |}
    ({| sh_flow := flow; sh_drafts := drafts |} :: past) Hrest).
  apply (Lives _ _ _ Hl). by apply Acts.
Qed.

(** The write-off of the sample is written down, the page is loaded anew, and the employee
    logs in without the right to write off. *)
Definition todays_session : ActiveKioskSession :=
  {| s_id := 2; badgeDigest := js "d";
     employee := {| ke_id := js "e1"; ke_fullName := js "A"; ke_limited := true; ke_dayLimit := 3;
                    ke_canWriteoff := false |};
     cart := run_cart [] |}.

Definition recovered_session : ActiveKioskSession := with_cart todays_session (cart sample_confirmed).

Definition recovered_shell : Shell :=
  {| sh_flow := Confirmation recovered_session false; sh_drafts := [draft_of sample_confirmed] |}.

Lemma sample_drafted : drafted_for todays_session (draft_of sample_confirmed).
Proof. split; reflexivity. Qed.

Lemma recovered_lived : exists past, lived (recovered_shell :: past).
Proof.
  destruct (lived_acts sample_actions _ _ eq_refl Fresh) as [past H1]. cbn [sh_flow sh_drafts] in H1.
  assert (E : run_flow sample_actions initialKioskFlowState = Confirmation sample_confirmed true)
    by (vm_compute; reflexivity).
  rewrite E in H1. pose proof (Lives _ _ _ H1 (Prepares _ _ _)) as H2.
  pose proof (Lives _ _ _ H2 (Reloads _ _)) as H3.
  destruct (lived_acts [Paired] _ _ eq_refl H3) as [past' H4]. cbn [sh_flow sh_drafts] in H4.
  change (run_flow [Paired] initialKioskFlowState) with Login in H4.
  assert (E' : kioskFlowReducer Login (DraftRecovered (with_cart todays_session (dr_cart (draft_of sample_confirmed))))
    = Confirmation recovered_session false) by reflexivity.
  eexists. apply (Lives _ _ _ H4). unfold recovered_shell. rewrite <- E'. apply Recovers; [apply list_elem_of_here | exact sample_drafted].
Qed.

(** A recovered write-off is confirmed for an employee whose right was withdrawn;
    [submitCart] of ui/KioskShell.tsx refuses to send it. *)
Example recovered_without_right :
  (exists past, lived (recovered_shell :: past))
  /\ reason (cart recovered_session) = Writeoff /\ ke_canWriteoff (employee recovered_session) = false.
Proof. split; [exact recovered_lived|]. by vm_compute. Qed.

Lemma confirmed_order_witness :
  exists past, lived (recovered_shell :: past) /\ allowed_before (recovered_shell :: past) recovered_session.
Proof.
  destruct recovered_lived as [past H]. exists past. split; [exact H|].
  destruct (confirmed_order recovered_shell past recovered_session false 7 (js "2026-01-01T00:00:00.000Z") H eq_refl)
    as (_ & _ & _ & Hw & _).
  apply Hw. vm_compute. reflexivity.
Defined.

(** Any state is at most one action of the user away from the login or the
    pairing screen, unless an order is on its way. *)
Lemma login_in_reach state :
  submitting state = false -> state = Pairing \/ kioskFlowReducer state IdleReset = Login.
Proof. destruct state as [| |screen session|session []|]; cbn; auto. done. Qed.

(** ** The money of an answered order *)

(** How many bottles of a line the answer accepted. *)
Definition taken (result : CreateOrderResultDto) (boxes : gmap jsstr Z) (line : KioskCartLine) : Z :=
  match line with
  | LooseLine l => if has (lo_rawKm l) (rejectedLoose result) then 0 else 1
  | BoxedLine b => default 0 (boxes !! bl_sscc b)
  end.

Definition sum_of (f : KioskCartLine -> Z) (ls : list KioskCartLine) : Z :=
  foldr (fun line s => f line + s) 0 ls.

(** The price of a line in kopecks, 0 for one without: every line of a sum that
    is known has a price. *)
Definition unit_kopecks (line : KioskCartLine) : Z :=
  default 0 (unitPrice line ≫= toKopecks).

Definition priced (line : KioskCartLine) : Prop := is_Some (unitPrice line ≫= toKopecks).

Lemma accepted_sum_spec result boxes total n ls t :
  accepted_sum result boxes total n ls = Some t <->
  Forall priced ls /\ n + sum_of (taken result boxes) ls = r_itemCount result /\
  t = total + sum_of (fun line => unit_kopecks line * taken result boxes line) ls.
Proof.
  revert total n. induction ls as [|line ls IH]; intros total n; cbn [accepted_sum sum_of foldr].
  - destruct (Z.eqb_spec n (r_itemCount result)) as [He|He].
    + split; [intros [= <-]; split; [done | split; lia] | intros (_ & _ & ->); f_equal; lia].
    + split; [done | intros (_ & H & _); lia].
  - rewrite Forall_cons. unfold priced at 1, unit_kopecks at 1.
    destruct (unitPrice line) as [price|]; cbn [mbind option_bind];
      [|split; [done | by intros ((? & _) & _)]].
    destruct (toKopecks price) as [unit|]; cbn [mbind option_bind default];
      [|split; [done | by intros ((? & _) & _)]].
    unfold default, from_option, id.
    fold (sum_of (taken result boxes) ls)
      (sum_of (fun line => unit_kopecks line * taken result boxes line) ls).
    destruct line as [l|b]; cbn [taken].
    + destruct (has _ _); cbn [negb]; rewrite IH; split; intros (? & ? & ->); (split; [|split]);
        try lia; naive_solver.
    + destruct (boxes !! bl_sscc b); cbn; rewrite IH; split; intros (? & ? & ->); (split; [|split]);
        try lia; naive_solver.
Qed.

Lemma totalKopecks_spec ls t :
  totalKopecks ls = Some t <->
  Forall priced ls /\ t = sum_of (fun line => unit_kopecks line * line_bottles line) ls.
Proof.
  unfold totalKopecks. assert (H : forall s, sum_kopecks s ls = Some t <->
    Forall priced ls /\ t = s + sum_of (fun line => unit_kopecks line * line_bottles line) ls);
    [|by rewrite H].
  induction ls as [|line ls IH]; intros s; cbn [sum_kopecks sum_of foldr].
  - split; [intros [= <-]; split; [done | lia] | intros [_ ->]; f_equal; lia].
  - rewrite Forall_cons. unfold priced at 1, unit_kopecks at 1.
    destruct (unitPrice line) as [price|]; cbn [mbind option_bind];
      [|split; [done | by intros ((? & _) & _)]].
    destruct (toKopecks price) as [unit|]; cbn [mbind option_bind default];
      [|split; [done | by intros ((? & _) & _)]].
    unfold default, from_option, id. rewrite IH.
    fold (sum_of (fun line => unit_kopecks line * line_bottles line) ls).
    split; intros [? ->]; (split; [|lia]); naive_solver.
Qed.

Lemma sum_of_ext f g ls : (forall l, l ∈ ls -> f l = g l) -> sum_of f ls = sum_of g ls.
Proof.
  intros H. induction ls as [|l ls IH]; [done|]. cbn. rewrite H by left. f_equal.
  apply IH. intros k Hk. apply H. by right.
Qed.

Lemma sum_of_bottles ls : sum_of line_bottles ls = bottleCount ls.
Proof. induction ls as [|l ls IH]; [done|]. rewrite bottleCount_cons, <- IH. done. Qed.

(** The price shown for an answered order is known exactly when the order
    was filed, every line is priced and the bottles counted line by line - a
    loose code unless the answer rejects it, a box as the answer counts it -
    add up to the count of the answer; it is then the sum of their prices.  An
    answer that accepts the whole cart gives the cart's own total. *)
Theorem acceptedTotal_counts (r : CreateOrderResultDto) (c : CartState) (t : Z) :
  let boxes := box_map (default [] (r_acceptedBoxes r)) in
  (acceptedTotalKopecks (Some r) c = Some t <->
   r_orderNo r <> [] /\ r_itemCount r <> 0 /\ Forall priced (lines c) /\
   sum_of (taken r boxes) (lines c) = r_itemCount r /\
   t = sum_of (fun line => unit_kopecks line * taken r boxes line) (lines c)) /\
  (r_orderNo r <> [] -> r_itemCount r <> 0 -> r_itemCount r = bottleCount (lines c) ->
   (forall line, line ∈ lines c -> taken r boxes line = line_bottles line) ->
   acceptedTotalKopecks (Some r) c = acceptedTotalKopecks None c).
Proof.
  intros boxes.
  assert (Hiff : forall u, acceptedTotalKopecks (Some r) c = Some u <->
   r_orderNo r <> [] /\ r_itemCount r <> 0 /\ Forall priced (lines c) /\
   sum_of (taken r boxes) (lines c) = r_itemCount r /\
   u = sum_of (fun line => unit_kopecks line * taken r boxes line) (lines c)).
  { intros u. unfold acceptedTotalKopecks. destruct (jseqb (r_orderNo r) []) eqn:Eo; cbn [orb].
    { apply jseqb_eq in Eo. split; [done | by intros (? & _)]. }
    apply jseqb_neq in Eo. destruct (Z.eqb_spec (r_itemCount r) 0) as [Ei|Ei].
    { split; [done | by intros (_ & ? & _)]. }
    fold boxes. rewrite accepted_sum_spec, !Z.add_0_l. naive_solver. }
  split; [apply Hiff|]. intros Ho Hi Hc Ht.
  assert (Hsum : sum_of (taken r boxes) (lines c) = r_itemCount r).
  { rewrite (sum_of_ext _ line_bottles), sum_of_bottles by done. lia. }
  assert (Hmul : sum_of (fun line => unit_kopecks line * taken r boxes line) (lines c)
      = sum_of (fun line => unit_kopecks line * line_bottles line) (lines c)).
  { apply sum_of_ext. intros l Hl. by rewrite Ht. }
  apply option_eq. intros u. cbn [acceptedTotalKopecks]. rewrite (Hiff u), totalKopecks_spec, Hmul.
  naive_solver.
Qed.
