(* ===== verification/KioskOutcomes.v ===== *)
(** * Outcomes kept for the worker who is no longer at the screen

    [apps/kiosk/src/store/outcomes.ts]: what may be stored of the server's
    answer to an order, the bounded store of outcomes of one installation, the
    oldest one a worker has not seen, and its acknowledgement.  A row of the
    object store is a record whose fields copied from the server keep the type
    [value]; the store is a finite map from the key path [id].  The outcome
    sort compares with [String.prototype.localeCompare], a parameter. *)

From stdpp Require Import base list strings gmap sorting.
From Stdlib Require Import ZArith Lia.
From S2P Require Import Prelude Gs1 InventoryScan KioskApi.

(** ** Data *)

Record OutcomeOwner := { ow_serverUrl : jsstr; ow_kioskId : jsstr; ow_generation : jsstr }.

#[export] Instance OutcomeOwner_eq_dec : EqDecision OutcomeOwner.
Proof. solve_decision. Defined.

Inductive StoredRejectedLine :=
| RejectedLoose (codeTail reason : jsstr)
| RejectedBox (sscc : jsstr) (bottleCount : Z) (reason : jsstr).

Record StoredKioskOutcome := {
  oc_id : jsstr; oc_owner : OutcomeOwner; oc_deviceSeq : Z; oc_employeeId : option jsstr;
  oc_at : jsstr; oc_viewedAt : option jsstr; oc_kind : jsstr; oc_orderNo : value;
  oc_acceptedCount : value; oc_acceptedBoxes : list AcceptedBox; oc_rejected : list StoredRejectedLine
}.

Definition MAX_LINES : nat := 200.
Definition MAX_OUTCOMES_PER_OWNER : nat := 100.
Definition MAX_OWNER_PART : Z := 2048.
Definition MAX_SHORT_TEXT : Z := 256.

Definition LOOSE_REASONS : list jsstr :=
  [js "not_km"; js "incomplete"; js "unknown_product"; js "not_allowed"; js "duplicate"; js "over_limit"].

Definition BOX_REASONS : list jsstr :=
  [js "unknown_box"; js "box_not_closed"; js "box_disassembled"; js "box_contents_changed";
   js "mixed_product_box"; js "duplicate"; js "over_limit"].

(** ** Checks *)

Definition boundedText (value : jsstr) (max : Z) (allowEmpty : bool) : bool :=
  if existsb (fun code => (code <=? 0x1f) || (code =? 0x7f)) value then false
  else (allowEmpty || (0 <? length value)%nat) && (Z.of_nat (length value) <=? max)
       && (Z.of_nat (length (utf8_encode value)) <=? max).

(** [Date.parse] and back: [toISOString] has to print the very text, so that
    only texts of its two forms can pass, and these are read exactly. *)
Definition isIsoDate (value : jsstr) : bool :=
  (length value <=? 32)%nat
  && (let time := instant_fields value in valid_time time && jseqb (toISOString time) value).

Definition normalizedOwner (owner : OutcomeOwner) : option OutcomeOwner :=
  let serverUrl := strip_slashes (trim (ow_serverUrl owner)) in
  let kioskId := trim (ow_kioskId owner) in
  match credentialGenerationOf (Some (ow_generation owner)) with
  | Some g => if boundedText serverUrl MAX_OWNER_PART false && isUuid kioskId
              then Some {| ow_serverUrl := serverUrl; ow_kioskId := kioskId; ow_generation := g |}
              else None
  | None => None
  end.

Definition safe_seq (deviceSeq : Z) : bool := (0 <=? deviceSeq) && safe_int deviceSeq.

Definition idOf (owner : OutcomeOwner) (deviceSeq : Z) : option jsstr :=
  safe ← normalizedOwner owner;
  if safe_seq deviceSeq
  then Some (ow_serverUrl safe ++ [0x1f] ++ ow_kioskId safe ++ [0x1f] ++ ow_generation safe
             ++ [0x1f] ++ js_of_Z deviceSeq)
  else None.

Definition rejected_line_ok (line : StoredRejectedLine) : bool :=
  match line with
  | RejectedLoose tail reason =>
      boundedText tail 32 true && (length tail <=? 32)%nat && bool_decide (reason ∈ LOOSE_REASONS)
  | RejectedBox sscc n reason =>
      isValidSscc sscc && (0 <? n) && (n <=? 500) && bool_decide (reason ∈ BOX_REASONS)
  end.

Definition accepted_box_ok (box : AcceptedBox) : bool :=
  isValidSscc (ab_sscc box) && (0 <? ab_bottleCount box) && (ab_bottleCount box <=? 500).

Definition order_no_ok (v : value) : bool :=
  match v with VNull => true | VStr s => boundedText s MAX_SHORT_TEXT false | _ => false end.

Definition accepted_count_ok (v : value) : bool :=
  match integer_of v with Some n => (0 <=? n) && (n <=? 1500) | None => false end.

Definition isStored (row : StoredKioskOutcome) : bool :=
  match normalizedOwner (oc_owner row) with
  | None => false
  | Some owner =>
      safe_seq (oc_deviceSeq row)
      && bool_decide (Some (oc_id row) = idOf owner (oc_deviceSeq row))
      && bool_decide (oc_owner row = owner)
      && match oc_employeeId row with Some e => isUuid e | None => false end
      && isIsoDate (oc_at row)
      && match oc_viewedAt row with None => true | Some v => isIsoDate v end
      && (jseqb (oc_kind row) (js "accepted") || jseqb (oc_kind row) (js "partial")
          || jseqb (oc_kind row) (js "rejected"))
      && order_no_ok (oc_orderNo row)
      && accepted_count_ok (oc_acceptedCount row)
      && (length (oc_acceptedBoxes row) <=? MAX_LINES)%nat
      && forallb accepted_box_ok (oc_acceptedBoxes row)
      && (length (oc_rejected row) <=? MAX_LINES)%nat
      && forallb rejected_line_ok (oc_rejected row)
  end.

(** ** The store *)

Abbreviation Outcomes := (gmap jsstr StoredKioskOutcome).

(** The rows [getAll] returns, ascending by key. *)
Definition all_rows (store : Outcomes) : list StoredKioskOutcome :=
  map snd (js_sort (fun a b => js_leb a.1 b.1) (map_to_list store)).

Definition owned_by (owner : OutcomeOwner) (row : StoredKioskOutcome) : bool :=
  jseqb (ow_serverUrl (oc_owner row)) (ow_serverUrl owner)
  && jseqb (ow_kioskId (oc_owner row)) (ow_kioskId owner)
  && jseqb (ow_generation (oc_owner row)) (ow_generation owner).

Definition with_owner (row : StoredKioskOutcome) (id : jsstr) (owner : OutcomeOwner) : StoredKioskOutcome :=
  {| oc_id := id; oc_owner := owner; oc_deviceSeq := oc_deviceSeq row;
     oc_employeeId := oc_employeeId row; oc_at := oc_at row; oc_viewedAt := oc_viewedAt row;
     oc_kind := oc_kind row; oc_orderNo := oc_orderNo row; oc_acceptedCount := oc_acceptedCount row;
     oc_acceptedBoxes := oc_acceptedBoxes row; oc_rejected := oc_rejected row |}.

Definition with_stamps (row : StoredKioskOutcome) (at_ : jsstr) (viewedAt : option jsstr)
  : StoredKioskOutcome :=
  {| oc_id := oc_id row; oc_owner := oc_owner row; oc_deviceSeq := oc_deviceSeq row;
     oc_employeeId := oc_employeeId row; oc_at := at_; oc_viewedAt := viewedAt;
     oc_kind := oc_kind row; oc_orderNo := oc_orderNo row; oc_acceptedCount := oc_acceptedCount row;
     oc_acceptedBoxes := oc_acceptedBoxes row; oc_rejected := oc_rejected row |}.

Section Store.
Context (localeCompare : jsstr -> jsstr -> Z).

Definition owned_rows (owner : OutcomeOwner) (store : Outcomes) : list StoredKioskOutcome :=
  List.filter (owned_by owner) (List.filter isStored (all_rows store)).

(** Newest first, and what is past the bound. *)
Definition newest (rows : list StoredKioskOutcome) : list StoredKioskOutcome :=
  js_sort (fun l r => localeCompare (oc_at r) (oc_at l) <=? 0) rows.

Definition expire (owner : OutcomeOwner) (store : Outcomes) : Outcomes :=
  fold_left (fun store expired => delete (oc_id expired) store)
    (drop MAX_OUTCOMES_PER_OWNER (newest (owned_rows owner store))) store.

(** [putOutcomeInTransaction]; [None] is its exception, which aborts the
    transaction.  The [id] of [outcome] is not read. *)
Definition putOutcome (outcome : StoredKioskOutcome) (store : Outcomes) : option Outcomes :=
  owner ← normalizedOwner (oc_owner outcome);
  id ← idOf owner (oc_deviceSeq outcome);
  let stored := with_owner outcome id owner in
  if negb (isStored stored) then None
  else
    let replacement := match store !! id with
      | Some existing => if isStored existing then with_stamps stored (oc_at existing) (oc_viewedAt existing)
                         else stored
      | None => stored end in
    Some (expire owner (<[id := replacement]> store)).

(** The oldest first. *)
Definition findOldestUnviewedOutcome (owner : OutcomeOwner) (employeeId : jsstr) (store : Outcomes)
  : option (option StoredKioskOutcome) :=
  expected ← normalizedOwner owner;
  Some (head (js_sort (fun l r => localeCompare (oc_at l) (oc_at r) <=? 0)
    (List.filter (fun row => bool_decide (oc_employeeId row = Some employeeId)
                             && bool_decide (oc_viewedAt row = None) && owned_by expected row)
       (List.filter isStored (all_rows store))))).

Definition readOutcome (owner : OutcomeOwner) (deviceSeq : Z) (store : Outcomes)
  : option (option StoredKioskOutcome) :=
  id ← idOf owner deviceSeq; expected ← normalizedOwner owner;
  Some (match store !! id with
        | Some row => if isStored row && owned_by expected row then Some row else None
        | None => None end).

(** [None] is an exception; no row was changed. *)
Definition acknowledgeOutcome (owner : OutcomeOwner) (deviceSeq : Z) (viewedAt : jsstr) (store : Outcomes)
  : option Outcomes :=
  if negb (isIsoDate viewedAt) then None
  else
    id ← idOf owner deviceSeq;
    match store !! id with
    | Some row =>
        if isStored row then
          Some (match oc_viewedAt row with
                | None => <[id := with_stamps row (oc_at row) (Some viewedAt)]> store
                | Some _ => store end)
        else None
    | None => None
    end.
End Store.

(** ** The rows of a store *)

(** The key path: a row is stored under its own [id]. *)
Definition keyed (store : Outcomes) : Prop := forall k row, store !! k = Some row -> oc_id row = k.

Lemma elem_of_all_rows (store : Outcomes) row :
  row ∈ all_rows store <-> exists k, store !! k = Some row.
Proof.
  unfold all_rows. rewrite list_elem_of_In, in_map_iff. split.
  - intros ([k r] & <- & Hin%list_elem_of_In). apply elem_of_js_sort, elem_of_map_to_list in Hin. eauto.
  - intros [k Hk]. exists (k, row). split; [done|].
    by apply list_elem_of_In, elem_of_js_sort, elem_of_map_to_list.
Qed.

Lemma NoDup_filter_bool {A} (f : A -> bool) (l : list A) : NoDup l -> NoDup (List.filter f l).
Proof.
  induction 1 as [|x l Hx Hl IH]; cbn; [constructor|]. destruct (f x); [|done].
  constructor; [|done]. intros Hin%list_elem_of_In%filter_In. apply Hx, list_elem_of_In, Hin.
Qed.

Lemma NoDup_map_inj_on {A B} (f : A -> B) (l : list A) :
  (forall x y, x ∈ l -> y ∈ l -> f x = f y -> x = y) -> NoDup l -> NoDup (map f l).
Proof.
  intros Hf. induction 1 as [|x l Hx Hl IH]; cbn; [constructor|]. constructor.
  - intros (y & He & Hy)%list_elem_of_In%in_map_iff. apply Hx.
    rewrite (Hf x y); [by apply list_elem_of_In | left | right; by apply list_elem_of_In | done].
  - apply IH. intros y z Hy Hz. apply Hf; by right.
Qed.

Lemma NoDup_all_rows store : keyed store -> NoDup (all_rows store).
Proof.
  intros Hk. unfold all_rows. apply NoDup_map_inj_on.
  - intros [k r] [k' r'] H1 H2 He. cbn in He. subst r'.
    apply elem_of_js_sort, elem_of_map_to_list in H1, H2.
    by rewrite <- (Hk _ _ H1), <- (Hk _ _ H2).
  - rewrite js_sort_perm. apply NoDup_map_to_list.
Qed.

Lemma elem_of_owned_rows owner store row :
  row ∈ owned_rows owner store <->
  (exists k, store !! k = Some row) /\ isStored row = true /\ owned_by owner row = true.
Proof.
  unfold owned_rows. rewrite list_elem_of_In, !filter_In, <- list_elem_of_In, elem_of_all_rows. tauto.
Qed.

Lemma NoDup_owned_rows owner store : keyed store -> NoDup (owned_rows owner store).
Proof. intros H. by apply NoDup_filter_bool, NoDup_filter_bool, NoDup_all_rows. Qed.

Lemma fold_delete_lookup (rows : list StoredKioskOutcome) (store : Outcomes) k :
  fold_left (fun store expired => delete (oc_id expired) store) rows store !! k =
  if bool_decide (k ∈ map oc_id rows) then None else store !! k.
Proof.
  revert store. induction rows as [|row rows IH]; intros store; cbn [fold_left map]; [done|].
  rewrite IH. destruct (bool_decide (k ∈ map oc_id rows)) eqn:E1.
  - apply bool_decide_eq_true_1 in E1. by rewrite bool_decide_eq_true_2 by by right.
  - apply bool_decide_eq_false_1 in E1. destruct (decide (k = oc_id row)) as [->|Hne].
    + rewrite lookup_delete_eq, bool_decide_eq_true_2 by left. done.
    + rewrite lookup_delete_ne by done. rewrite bool_decide_eq_false_2; [done|].
      intros [?|?]%elem_of_cons; auto.
Qed.

Section Retention.
Context (localeCompare : jsstr -> jsstr -> Z).

Abbreviation kept owner store := (take MAX_OUTCOMES_PER_OWNER (newest localeCompare (owned_rows owner store))).
Abbreviation dropped owner store := (drop MAX_OUTCOMES_PER_OWNER (newest localeCompare (owned_rows owner store))).

Lemma newest_perm owner store : kept owner store ++ dropped owner store ≡ₚ owned_rows owner store.
Proof. rewrite take_drop. apply js_sort_perm. Qed.

Lemma elem_of_newest owner store row :
  row ∈ owned_rows owner store <-> row ∈ kept owner store \/ row ∈ dropped owner store.
Proof.
  rewrite <- elem_of_app. symmetry.
  exact (elem_of_Permutation_proper row _ _ (newest_perm owner store)).
Qed.

Lemma expire_lookup owner store k :
  expire localeCompare owner store !! k =
  if bool_decide (k ∈ map oc_id (dropped owner store)) then None else store !! k.
Proof. apply fold_delete_lookup. Qed.

Lemma owned_rows_expire owner store :
  keyed store -> owned_rows owner (expire localeCompare owner store) ≡ₚ kept owner store.
Proof.
  intros Hk. pose proof (NoDup_owned_rows owner store Hk) as Hn.
  pose proof (newest_perm owner store) as Hp. rewrite <- Hp in Hn.
  apply NoDup_app in Hn as (Hkn & Hdis & _).
  assert (Hke : keyed (expire localeCompare owner store)).
  { intros k row. rewrite expire_lookup. destruct (bool_decide _); [done | apply Hk]. }
  apply NoDup_Permutation; [by apply NoDup_owned_rows | done|]. intros row.
  assert (Hmem : row ∈ owned_rows owner store <-> row ∈ kept owner store \/ row ∈ dropped owner store).
  { apply elem_of_newest. }
  rewrite elem_of_owned_rows in Hmem. rewrite elem_of_owned_rows. split.
  - intros ((k & Hr) & Hs & Ho). rewrite expire_lookup in Hr. destruct (bool_decide _) eqn:E; [done|].
    apply bool_decide_eq_false_1 in E. destruct (proj1 Hmem) as [?|Hd]; eauto.
    destruct E. rewrite <- (Hk _ _ Hr). apply list_elem_of_In, in_map, list_elem_of_In, Hd.
  - intros Hr. destruct (proj2 Hmem (or_introl Hr)) as ((k & Hl) & Hs & Ho). split; [|done].
    exists k. rewrite expire_lookup, bool_decide_eq_false_2; [done|].
    intros (row' & He & Hin)%list_elem_of_In%in_map_iff. apply list_elem_of_In in Hin.
    assert (Hin' : row' ∈ owned_rows owner store) by (apply elem_of_newest; by right).
    apply elem_of_owned_rows in Hin' as ((k' & Hl') & _).
    rewrite (Hk _ _ Hl') in He. subst k'. rewrite Hl in Hl'. injection Hl' as <-. by apply (Hdis row).
Qed.
End Retention.

(** ** What a new outcome leaves in the store *)

Section Laws.
Context (localeCompare : jsstr -> jsstr -> Z) `{!LocaleCompare localeCompare}.

#[local] Instance newest_comparator :
  Comparator (fun l r => localeCompare (oc_at r) (oc_at l) <=? 0).
Proof.
  split.
  - intros a b. pose proof (locale_antisym (oc_at a) (oc_at b)).
    rewrite !Z.leb_le. lia.
  - intros a b c. rewrite !Z.leb_le. intros H1 H2. by eapply locale_trans.
Qed.

Lemma dropped_older owner store row gone :
  row ∈ take MAX_OUTCOMES_PER_OWNER (newest localeCompare (owned_rows owner store)) ->
  gone ∈ drop MAX_OUTCOMES_PER_OWNER (newest localeCompare (owned_rows owner store)) ->
  localeCompare (oc_at gone) (oc_at row) <= 0.
Proof.
  intros Hr Hg. apply Z.leb_le.
  pose proof (js_sort_sorted (fun l r => localeCompare (oc_at r) (oc_at l) <=? 0) (owned_rows owner store)) as Hs.
  fold (newest localeCompare (owned_rows owner store)) in Hs.
  rewrite <- (take_drop MAX_OUTCOMES_PER_OWNER (newest _ _)) in Hs.
  by apply (StronglySorted_app_1_elem_of _ _ _ row gone Hs).
Qed.

(** Storing an outcome leaves at most a hundred of the installation, keeps
    the stamps of an outcome that is stored already (so that one the worker has
    seen is not shown again), and touches no other row but to drop rows of the
    same installation none of which is newer than a row that stays, and then
    exactly a hundred stay. *)
Theorem outcomes_retained (store store' : Outcomes) (outcome : StoredKioskOutcome)
    (Hkeyed : keyed store) (Hput : putOutcome localeCompare outcome store = Some store') :
  keyed store' /\
  exists owner id,
    normalizedOwner (oc_owner outcome) = Some owner /\ idOf owner (oc_deviceSeq outcome) = Some id /\
    (length (owned_rows owner store') <= 100)%nat /\
    (forall row existing, store' !! id = Some row -> store !! id = Some existing ->
       isStored existing = true ->
       oc_viewedAt row = oc_viewedAt existing /\ oc_at row = oc_at existing) /\
    (forall k, k <> id -> store' !! k = store !! k \/
       exists gone, store !! k = Some gone /\ owned_by owner gone = true /\
         length (owned_rows owner store') = 100%nat /\
         forall row, row ∈ owned_rows owner store' -> localeCompare (oc_at gone) (oc_at row) <= 0).
Proof.
  unfold putOutcome in Hput. destruct (normalizedOwner (oc_owner outcome)) as [owner|]; [|done].
  cbn [mbind option_bind] in Hput.
  destruct (idOf owner (oc_deviceSeq outcome)) as [id|] eqn:Eid; [|done]. cbn [mbind option_bind] in Hput.
  destruct (isStored (with_owner outcome id owner)) eqn:Es; [|done]. cbn [negb] in Hput.
  set (stored := with_owner outcome id owner) in *.
  set (replacement := match store !! id with Some e => _ | None => _ end) in Hput.
  apply (inj Some) in Hput as <-.
  set (mid := <[id := replacement]> store).
  assert (Hid : oc_id replacement = id).
  { unfold replacement. destruct (store !! id) as [e|]; [by destruct (isStored e)|done]. }
  assert (Hmid : keyed mid).
  { intros k row. unfold mid. destruct (decide (k = id)) as [->|Hne].
    - rewrite lookup_insert_eq. by intros [= <-].
    - rewrite lookup_insert_ne by done. apply Hkeyed. }
  assert (Hlen : length (owned_rows owner (expire localeCompare owner mid))
                 = (100 `min` length (owned_rows owner mid))%nat).
  { rewrite (owned_rows_expire localeCompare owner mid Hmid), length_take. f_equal.
    apply Permutation_length, js_sort_perm. }
  split.
  { intros k row. rewrite expire_lookup. destruct (bool_decide _); [done | apply Hmid]. }
  exists owner, id. split; [done|]. split; [done|]. split; [lia|]. split.
  - intros row existing Hr He Hs. rewrite expire_lookup in Hr. destruct (bool_decide _); [done|].
    unfold mid in Hr. rewrite lookup_insert_eq in Hr. apply (inj Some) in Hr as <-.
    unfold replacement. by rewrite He, Hs.
  - intros k Hne. rewrite expire_lookup. destruct (bool_decide _) eqn:Ed.
    + right. apply bool_decide_eq_true_1 in Ed.
      apply list_elem_of_In, in_map_iff in Ed as (gone & <- & Hg%list_elem_of_In).
      assert (Ho : gone ∈ owned_rows owner mid) by (apply (elem_of_newest localeCompare); by right).
      apply elem_of_owned_rows in Ho as ((k' & Hk') & _ & Ho).
      assert (k' = oc_id gone) as -> by (symmetry; by apply Hmid).
      unfold mid in Hk'. rewrite lookup_insert_ne in Hk' by done.
      exists gone. split; [done|]. split; [done|]. split.
      * rewrite Hlen. pose proof (Permutation_length (newest_perm localeCompare owner mid)) as Hp.
        rewrite length_app, length_take, length_drop in Hp.
        apply list_elem_of_In, in_split in Hg as (l1 & l2 & Hg). apply (f_equal length) in Hg.
        rewrite length_drop, length_app in Hg. cbn in Hg. unfold MAX_OUTCOMES_PER_OWNER in *. lia.
      * intros row Hr. apply (dropped_older owner mid); [|done].
        exact (proj1 (elem_of_Permutation_proper row _ _ (owned_rows_expire localeCompare owner mid Hmid)) Hr).
    + left. unfold mid. by rewrite lookup_insert_ne.
Qed.
End Laws.

Definition sample_owner : OutcomeOwner :=
  {| ow_serverUrl := js "https://m.example"; ow_kioskId := js "11111111-1111-4111-8111-111111111111";
     ow_generation := js "22222222-2222-4222-8222-222222222222" |}.

Definition sample_outcome (seq : Z) (viewed : option jsstr) : StoredKioskOutcome :=
  {| oc_id := []; oc_owner := sample_owner; oc_deviceSeq := seq;
     oc_employeeId := Some (js "33333333-3333-4333-8333-333333333333");
     oc_at := js "2026-01-01T10:00:00.000Z"; oc_viewedAt := viewed; oc_kind := js "accepted";
     oc_orderNo := VStr (js "A-1"); oc_acceptedCount := VNum (num 2); oc_acceptedBoxes := [];
     oc_rejected := [] |}.

Definition sample_stored (o : StoredKioskOutcome) : Outcomes :=
  default ∅ (putOutcome unit_compare o ∅).

Lemma outcomes_retained_witness :
  let seen := Some (js "2026-01-01T11:00:00.000Z") in
  keyed (sample_stored (sample_outcome 4 seen)) /\
  exists store', putOutcome unit_compare (sample_outcome 4 None) (sample_stored (sample_outcome 4 seen))
                 = Some store' /\ keyed store' /\ map oc_viewedAt (all_rows store') = [seen].
Proof.
  intros seen. assert (Hk : keyed (sample_stored (sample_outcome 4 seen))).
  { intros k row H%elem_of_map_to_list. revert H. unfold sample_stored.
    set (l := map_to_list _). vm_compute in l. subst l.
    intros [[= -> ->]|H]%elem_of_cons; [by vm_compute | by apply not_elem_of_nil in H]. }
  split; [exact Hk|].
  destruct (putOutcome unit_compare (sample_outcome 4 None) (sample_stored (sample_outcome 4 seen)))
    as [store'|] eqn:E; [|vm_compute in E; discriminate].
  exists store'. split; [done|]. split.
  - pose proof unit_compare_locale. by destruct (outcomes_retained unit_compare _ _ _ Hk E).
  - assert (E' : map oc_viewedAt (all_rows (default ∅ (putOutcome unit_compare (sample_outcome 4 None)
       (sample_stored (sample_outcome 4 seen))))) = [seen]) by (vm_compute; reflexivity).
    by rewrite E in E'.
Defined.
