(* ===== verification/KioskQueue.v ===== *)
(** * The offline queue of a kiosk and one pass over it

    [apps/kiosk/src/store/queue.ts], [store/journal.ts], the durable half of
    [grants/evidence.ts], and [drainOnce] with its helpers of [sync/worker.ts].
    The object stores of the device are the fields of [World]; every operation
    the code awaits is a constructor of [kiosk_op], and [perform] gives it its
    effect.  One [choice] of the environment per operation says what the user
    interface did meanwhile ([interference]), whether the operation fails,
    whether the process dies before or after it, what a server answers, and
    what the clock and the random source return.

    Three fields record history for the theorems and are read by no operation:
    [w_accepted] (every order ever queued, by sequence), [w_filed] and
    [w_journalled] (the sequences a server answered and the journal was given),
    [w_sent] (each request [SubmitOrder] with the queue at that moment; an order that carries
    grant evidence is sent by [SubmitGrantEvidence] and not recorded here). *)

From stdpp Require Import base list strings gmap sorting.
From Stdlib Require Import ZArith QArith Lia.
From S2P Require Import Prelude Gs1 KioskApi KioskOutcomes Effects.

#[global] Open Scope Z_scope.

#[global] Open Scope prog_scope.

(** ** store/queue.ts and store/journal.ts: records *)

Record GrantEvidence := {
  gv_eventId : jsstr; gv_taskGrantId : option jsstr; gv_credentialEpoch : Z; gv_strict : bool;
  gv_cost : list (jsstr * Z)
}.

#[export] Instance GrantEvidence_eq_dec : EqDecision GrantEvidence.
Proof. solve_decision. Defined.

Record GrantEvidenceEnvelope := {
  en_batchId : jsstr; en_payloadDigest : jsstr; en_grants : list jsstr;
  en_eventGrant : option jsstr; en_payload : CreateOrderDto
}.

#[export] Instance GrantEvidenceEnvelope_eq_dec : EqDecision GrantEvidenceEnvelope.
Proof. solve_decision. Defined.

(** The parsed reply to an evidence batch. *)
Record GrantEvidenceReceipt := {
  rc_batchId : jsstr; rc_quarantined : bool; rc_status : jsstr; rc_statusCode : option Z;
  rc_result : value; rc_reason : option jsstr
}.

Record QueuedOrder := {
  qo_deviceSeq : Z; qo_employeeId : option jsstr; qo_body : CreateOrderDto;
  qo_pending : bool; qo_admissionNonce : option jsstr; qo_estimatedBottleCount : option jsnum;
  qo_evidenceProtocol : bool; qo_grantEvidence : option GrantEvidence;
  qo_evidenceEnvelope : option GrantEvidenceEnvelope
}.

Record QuarantinedOrder := {
  qq_order : QueuedOrder; qq_at : jsstr; qq_status : Z; qq_message : jsstr;
  qq_boxConflicts : list BoxConflict; qq_receipt : option GrantEvidenceReceipt
}.

Record JournalEntry := {
  je_at : jsstr; je_createdAt : jsstr; je_kioskId : option jsstr; je_deviceSeq : Z;
  je_orderNo : value; je_employeeId : option jsstr; je_acceptedCount : value; je_conflicts : value;
  je_acceptedBoxes : list AcceptedBox; je_boxConflicts : list BoxConflict
}.

Record KioskConfig := {
  kc_serverUrl : jsstr; kc_token : option jsstr; kc_kioskId : option jsstr;
  kc_generation : option jsstr
}.

Definition set_body (o : QueuedOrder) (body : CreateOrderDto) : QueuedOrder :=
  {| qo_deviceSeq := qo_deviceSeq o; qo_employeeId := qo_employeeId o; qo_body := body;
     qo_pending := false; qo_admissionNonce := qo_admissionNonce o;
     qo_estimatedBottleCount := qo_estimatedBottleCount o; qo_evidenceProtocol := qo_evidenceProtocol o;
     qo_grantEvidence := qo_grantEvidence o; qo_evidenceEnvelope := qo_evidenceEnvelope o |}.

Definition set_nonce (o : QueuedOrder) (nonce : jsstr) : QueuedOrder :=
  {| qo_deviceSeq := qo_deviceSeq o; qo_employeeId := qo_employeeId o; qo_body := qo_body o;
     qo_pending := qo_pending o; qo_admissionNonce := Some nonce;
     qo_estimatedBottleCount := qo_estimatedBottleCount o; qo_evidenceProtocol := qo_evidenceProtocol o;
     qo_grantEvidence := qo_grantEvidence o; qo_evidenceEnvelope := qo_evidenceEnvelope o |}.

Definition set_envelope (o : QueuedOrder) (envelope : GrantEvidenceEnvelope) : QueuedOrder :=
  {| qo_deviceSeq := qo_deviceSeq o; qo_employeeId := qo_employeeId o; qo_body := qo_body o;
     qo_pending := qo_pending o; qo_admissionNonce := qo_admissionNonce o;
     qo_estimatedBottleCount := qo_estimatedBottleCount o; qo_evidenceProtocol := qo_evidenceProtocol o;
     qo_grantEvidence := qo_grantEvidence o; qo_evidenceEnvelope := Some envelope |}.

(** ** The device *)

Record World := {
  w_config : option KioskConfig; w_tenantId : option jsstr; w_archive : gmap jsstr jsstr;
  w_queue : gmap Z QueuedOrder; w_quarantine : gmap Z QuarantinedOrder;
  w_journal : list JournalEntry; w_outcomes : Outcomes;
  w_nextSeq : Z;
  w_accepted : gmap Z QueuedOrder; w_filed : gset Z; w_journalled : gset Z;
  w_sent : list (Z * gmap Z QueuedOrder)
}.

Definition set_config (c : option KioskConfig) (w : World) : World :=
  {| w_config := c; w_tenantId := w_tenantId w; w_archive := w_archive w; w_queue := w_queue w;
     w_quarantine := w_quarantine w; w_journal := w_journal w; w_outcomes := w_outcomes w;
     w_nextSeq := w_nextSeq w; w_accepted := w_accepted w; w_filed := w_filed w;
     w_journalled := w_journalled w; w_sent := w_sent w |}.

Definition set_queue (q : gmap Z QueuedOrder) (w : World) : World :=
  {| w_config := w_config w; w_tenantId := w_tenantId w; w_archive := w_archive w; w_queue := q;
     w_quarantine := w_quarantine w; w_journal := w_journal w; w_outcomes := w_outcomes w;
     w_nextSeq := w_nextSeq w; w_accepted := w_accepted w; w_filed := w_filed w;
     w_journalled := w_journalled w; w_sent := w_sent w |}.

Definition park (q : QuarantinedOrder) (w : World) : World :=
  {| w_config := w_config w; w_tenantId := w_tenantId w; w_archive := w_archive w;
     w_queue := w_queue w; w_quarantine := <[qo_deviceSeq (qq_order q) := q]> (w_quarantine w);
     w_journal := w_journal w; w_outcomes := w_outcomes w;
     w_nextSeq := w_nextSeq w; w_accepted := w_accepted w; w_filed := w_filed w;
     w_journalled := w_journalled w; w_sent := w_sent w |}.

Definition set_outcomes (o : Outcomes) (w : World) : World :=
  {| w_config := w_config w; w_tenantId := w_tenantId w; w_archive := w_archive w;
     w_queue := w_queue w; w_quarantine := w_quarantine w; w_journal := w_journal w; w_outcomes := o;
     w_nextSeq := w_nextSeq w; w_accepted := w_accepted w; w_filed := w_filed w;
     w_journalled := w_journalled w; w_sent := w_sent w |}.

Definition set_journal (j : list JournalEntry) (w : World) : World :=
  {| w_config := w_config w; w_tenantId := w_tenantId w; w_archive := w_archive w;
     w_queue := w_queue w; w_quarantine := w_quarantine w; w_journal := j; w_outcomes := w_outcomes w;
     w_nextSeq := w_nextSeq w; w_accepted := w_accepted w; w_filed := w_filed w;
     w_journalled := w_journalled w; w_sent := w_sent w |}.

(** [s.add(entry)] on the journal. *)
Definition add_journal (e : JournalEntry) (w : World) : World :=
  {| w_config := w_config w; w_tenantId := w_tenantId w; w_archive := w_archive w;
     w_queue := w_queue w; w_quarantine := w_quarantine w; w_journal := w_journal w ++ [e];
     w_outcomes := w_outcomes w;
     w_nextSeq := w_nextSeq w; w_accepted := w_accepted w; w_filed := w_filed w;
     w_journalled := {[je_deviceSeq e]} ∪ w_journalled w; w_sent := w_sent w |}.

Definition file_order (s : Z) (w : World) : World :=
  {| w_config := w_config w; w_tenantId := w_tenantId w; w_archive := w_archive w;
     w_queue := w_queue w; w_quarantine := w_quarantine w; w_journal := w_journal w;
     w_outcomes := w_outcomes w;
     w_nextSeq := w_nextSeq w; w_accepted := w_accepted w; w_filed := {[s]} ∪ w_filed w;
     w_journalled := w_journalled w; w_sent := w_sent w |}.

Definition send_order (s : Z) (w : World) : World :=
  {| w_config := w_config w; w_tenantId := w_tenantId w; w_archive := w_archive w;
     w_queue := w_queue w; w_quarantine := w_quarantine w; w_journal := w_journal w;
     w_outcomes := w_outcomes w;
     w_nextSeq := w_nextSeq w; w_accepted := w_accepted w; w_filed := w_filed w;
     w_journalled := w_journalled w; w_sent := w_sent w ++ [(s, w_queue w)] |}.

(** A successful [enqueueOrder]: the order takes the next sequence. *)
Definition enqueue (o : QueuedOrder) (w : World) : World :=
  if (qo_deviceSeq o =? w_nextSeq w) && (d_deviceSeq (qo_body o) =? w_nextSeq w)
  then {| w_config := w_config w; w_tenantId := w_tenantId w; w_archive := w_archive w;
          w_queue := <[w_nextSeq w := o]> (w_queue w); w_quarantine := w_quarantine w;
          w_journal := w_journal w; w_outcomes := w_outcomes w; w_nextSeq := w_nextSeq w + 1;
          w_accepted := <[w_nextSeq w := o]> (w_accepted w); w_filed := w_filed w;
          w_journalled := w_journalled w; w_sent := w_sent w |}
  else w.

(** What the shell may do while a pass waits: queue an order, bind the device
    elsewhere, and the two steps of [quarantineQueue] for an order. *)
Inductive interference :=
| IEnqueue (o : QueuedOrder)
| IConfig (c : option KioskConfig)
| IPark (s : Z) (at_ message : jsstr)
| IDequeueParked (s : Z).

Definition parked_order (o : QueuedOrder) (at_ message : jsstr) : QuarantinedOrder :=
  {| qq_order := o; qq_at := at_; qq_status := 0; qq_message := message; qq_boxConflicts := [];
     qq_receipt := None |}.

Definition interfere (w : World) (i : interference) : World :=
  match i with
  | IEnqueue o => enqueue o w
  | IConfig c => set_config c w
  | IPark s at_ message =>
      match w_queue w !! s with Some o => park (parked_order o at_ message) w | None => w end
  | IDequeueParked s =>
      match w_quarantine w !! s with
      | Some _ => set_queue (delete s (w_queue w)) w | None => w end
  end.

(** ** Operations *)

Record Admission := { ad_claimedAt : jsstr; ad_proof : jsstr }.

Inductive kiosk_op : Type -> Type :=
| ReadConfig : kiosk_op (option KioskConfig)
| ListQueue : kiosk_op (list QueuedOrder)
| FreshNonce : kiosk_op jsstr
| Now : kiosk_op Z
| PersistAdmissionNonce (s : Z) (nonce : jsstr) : kiosk_op bool
| NegotiateReservation (body : CreateOrderDto) : kiosk_op (option Admission)
| AttestOrder (body : CreateOrderDto) : kiosk_op Admission
| AttestQueuedOrder (s : Z) (body : CreateOrderDto) : kiosk_op bool
| PrepareEvidence (owner : BoxRegistryCredentialOwner) (o : QueuedOrder)
  : kiosk_op (option GrantEvidenceEnvelope)
| SubmitGrantEvidence (envelope : GrantEvidenceEnvelope) : kiosk_op GrantEvidenceReceipt
| CommitEvidence (owner : BoxRegistryCredentialOwner) (o : QueuedOrder)
    (envelope : GrantEvidenceEnvelope) (receipt : GrantEvidenceReceipt) (native : option CreateOrderResultDto)
    (at_ : jsstr) : kiosk_op bool
| SubmitOrder (body : CreateOrderDto) : kiosk_op value
| PutOutcome (outcome : StoredKioskOutcome) : kiosk_op unit
| JournalAdd (e : JournalEntry) : kiosk_op unit
| PruneJournal (now : jsstr) : kiosk_op unit
| QuarantineOrder (q : QuarantinedOrder) : kiosk_op unit
| DequeueOrder (s : Z) : kiosk_op unit.

Inductive death := Alive | DiesBefore | DiesAfter.

Record choice := {
  c_meanwhile : list interference; c_death : death; c_fails : option failure;
  c_uuid : jsstr; c_time : Z; c_reservation : option Admission; c_admission : Admission;
  c_result : value; c_receipt : GrantEvidenceReceipt
}.

(** ** What is copied out of an answer *)

(** [c.rawKm.slice(-6)] after an ellipsis. *)
Definition code_tail (rawKm : jsstr) : jsstr := 0x2026 :: drop (length rawKm - 6) rawKm.

Definition MAX_RAW_KM : nat := 4096.

Definition loose_conflict (entry : value) : option StoredRejectedLine :=
  match get (js "rawKm") entry, get (js "reason") entry with
  | VStr rawKm, VStr reason =>
      if negb (is_object entry) || (length rawKm =? 0)%nat || (MAX_RAW_KM <? length rawKm)%nat
         || negb (bool_decide (reason ∈ LOOSE_REASONS))
      then None else Some (RejectedLoose (code_tail rawKm) reason)
  | _, _ => None
  end.

Definition safeLooseConflicts (details : value) : list StoredRejectedLine :=
  match get (js "conflicts") details with
  | VArr raw => if (100 <? length raw)%nat then [] else default [] (mapM loose_conflict raw)
  | _ => []
  end.

Definition box_conflict (entry : value) : option BoxConflict :=
  match get (js "sscc") entry, get (js "reason") entry with
  | VStr sscc, VStr reason =>
      let bottleCount := get (js "bottleCount") entry in
      let count := match bottleCount with
        | VNull => Some None
        | _ => match integer_of bottleCount with
               | Some n => if (0 <? n) && (n <=? 500) then Some (Some n) else None
               | None => None end
        end in
      match count with
      | Some n => if isValidSscc sscc && bool_decide (reason ∈ BOX_REASONS)
                  then Some {| bc_sscc := sscc; bc_bottleCount := n; bc_reason := reason |} else None
      | None => None
      end
  | _, _ => None
  end.

Definition safeBoxConflicts (details : value) : list BoxConflict :=
  match get (js "boxConflicts") details with
  | VArr raw => if (100 <? length raw)%nat then [] else default [] (mapM box_conflict raw)
  | _ => []
  end.

Definition accepted_box (entry : value) : option AcceptedBox :=
  match get (js "sscc") entry, integer_of (get (js "bottleCount") entry) with
  | VStr sscc, Some n =>
      if isValidSscc sscc && (0 <? n) && (n <=? 500)
      then Some {| ab_sscc := sscc; ab_bottleCount := n |} else None
  | _, _ => None
  end.

Definition safeAcceptedBoxes (v : value) : list AcceptedBox :=
  match v with
  | VArr raw => if (100 <? length raw)%nat then [] else default [] (mapM accepted_box raw)
  | _ => []
  end.

Definition rejected_box (c : BoxConflict) : StoredRejectedLine :=
  RejectedBox (bc_sscc c) (default 1 (bc_bottleCount c)) (bc_reason c).

Definition rejectedOfResult (result : value) : list StoredRejectedLine :=
  safeLooseConflicts (VObj [(js "conflicts", get (js "conflicts") result)])
  ++ map rejected_box (safeBoxConflicts
       (VObj [(js "boxConflicts", coalesce (get (js "boxConflicts") result) (VArr []))])).

(** [v || null]. *)
Definition or_null (v : value) : value :=
  match v with
  | VUndefined | VNull | VBool false | VNum JNaN | VStr [] => VNull
  | VNum (JFinite q) => if Qnum q =? 0 then VNull else v
  | _ => v
  end.

Definition is_zero (v : value) : bool :=
  match v with VNum (JFinite q) => Qnum q =? 0 | _ => false end.

Definition outcome_kind (rejected_all : bool) (rejected : list StoredRejectedLine) : jsstr :=
  if rejected_all then js "rejected"
  else if (0 <? length rejected)%nat then js "partial" else js "accepted".

(** ** nativeResultSchema of grants/evidence.ts *)

Definition only_keys (keys : list jsstr) (v : value) : bool :=
  match v with VObj fields => forallb (fun f => bool_decide (f.1 ∈ keys)) fields | _ => false end.

Definition str_of (v : value) : option jsstr := match v with VStr s => Some s | _ => None end.
Definition arr_of (v : value) : option (list value) := match v with VArr l => Some l | _ => None end.

Definition native_conflict (v : value) : option OrderConflict :=
  rawKm ← str_of (get (js "rawKm") v); reason ← str_of (get (js "reason") v);
  if only_keys [js "rawKm"; js "reason"] v && bool_decide (reason ∈ LOOSE_REASONS)
  then Some {| cf_rawKm := rawKm; cf_reason := reason |} else None.

Definition native_box_conflict (v : value) : option BoxConflict :=
  sscc ← str_of (get (js "sscc") v); reason ← str_of (get (js "reason") v);
  count ← match get (js "bottleCount") v with
          | VNull => Some None
          | b => n ← integer_of b; if (0 <=? n) && safe_int n then Some (Some n) else None end;
  if only_keys [js "sscc"; js "bottleCount"; js "reason"] v && isValidSscc sscc
     && bool_decide (reason ∈ BOX_REASONS)
  then Some {| bc_sscc := sscc; bc_bottleCount := count; bc_reason := reason |} else None.

Definition native_accepted_box (v : value) : option AcceptedBox :=
  if only_keys [js "sscc"; js "bottleCount"] v then accepted_box v else None.

Definition optional_list {A} (parse : value -> option A) (v : value) : option (option (list A)) :=
  match v with
  | VUndefined => Some None
  | _ => l ← arr_of v; Some <$> mapM parse l
  end.

Definition nativeResult (v : value) : option CreateOrderResultDto :=
  orderNo ← str_of (get (js "orderNo") v);
  itemCount ← integer_of (get (js "itemCount") v);
  conflicts ← arr_of (get (js "conflicts") v) ≫= mapM native_conflict;
  boxConflicts ← optional_list native_box_conflict (get (js "boxConflicts") v);
  acceptedBoxes ← optional_list native_accepted_box (get (js "acceptedBoxes") v);
  if only_keys [js "orderNo"; js "status"; js "itemCount"; js "conflicts"; js "boxConflicts";
                js "acceptedBoxes"] v
     && is_str (js "pending") (get (js "status") v) && (0 <=? itemCount) && (itemCount <=? 1500)
  then Some {| r_orderNo := orderNo; r_itemCount := itemCount; r_conflicts := conflicts;
               r_boxConflicts := boxConflicts; r_acceptedBoxes := acceptedBoxes |}
  else None.

(** ** The effect of an operation *)

(** [equalOrder] of grants/evidence.ts. *)
Definition equalOrder (a b : QueuedOrder) : bool :=
  bool_decide (qo_employeeId a = qo_employeeId b) && bool_decide (qo_body a = qo_body b)
  && bool_decide (qo_grantEvidence a = qo_grantEvidence b).

(** [config?.token ? boxRegistryCredentialOwnerOf(config) : null]. *)
Definition credential_owner (config : option KioskConfig) : option BoxRegistryCredentialOwner :=
  c ← config;
  match kc_token c with
  | Some (_ :: _) => boxRegistryCredentialOwnerOf (Some (kc_serverUrl c)) (kc_kioskId c) (kc_generation c)
  | _ => None
  end.

Definition kioskIdOf (id : option jsstr) : option jsstr :=
  match id with Some (_ :: _) => id | _ => None end.

(** [readConfig]: the kiosk id normalised, and a config with a token and no
    credential generation written back with a fresh one. *)
Definition readConfig (fresh : jsstr) (w : World) : option KioskConfig * World :=
  match w_config w with
  | None => (None, w)
  | Some c =>
      let normalized generation :=
        {| kc_serverUrl := kc_serverUrl c; kc_token := kc_token c; kc_kioskId := kioskIdOf (kc_kioskId c);
           kc_generation := generation |} in
      match kc_token c, credentialGenerationOf (kc_generation c) with
      | Some (_ :: _), None =>
          let stored := normalized (Some fresh) in (Some stored, set_config (Some stored) w)
      | _, _ => (Some (normalized (kc_generation c)), w)
      end
  end.

(** [getAll()]: ascending by [deviceSeq]. *)
Definition listQueue (w : World) : list QueuedOrder :=
  map snd (js_sort (fun a b => a.1 <=? b.1) (map_to_list (w_queue w))).

(** The queue records [updateEach] would rewrite: the one of the sequence, when
    it is still pending. *)
Definition pending_at (s : Z) (w : World) : option QueuedOrder :=
  o ← w_queue w !! s; if qo_pending o then Some o else None.

Definition persistAdmissionNonce (s : Z) (nonce : jsstr) (w : World) : bool * World :=
  match pending_at s w with
  | Some o => (true, set_queue (<[s := set_nonce o nonce]> (w_queue w)) w)
  | None => (false, w)
  end.

Definition attestQueuedOrder (s : Z) (body : CreateOrderDto) (w : World) : bool * World :=
  match pending_at s w with
  | Some o => (true, set_queue (<[s := set_body o body]> (w_queue w)) w)
  | None => (false, w)
  end.

Section Effects.
(** [productLabelValueDigest] of a body, [localeCompare], and [Date.parse],
    which is implementation-defined outside the ISO form. *)
Context (digest : CreateOrderDto -> jsstr) (localeCompare : jsstr -> jsstr -> Z)
  (date_parse : jsstr -> option Z).

Definition JOURNAL_RETENTION_MS : Z := 14 * DAY_MS.

Fixpoint drop_expired (horizon : Z) (entries : list JournalEntry) : list JournalEntry :=
  match entries with
  | [] => []
  | e :: rest =>
      match date_parse (je_at e) with
      | Some at_ => if at_ <? horizon then drop_expired horizon rest else entries
      | None => entries
      end
  end.

Definition pruneJournal (now : jsstr) (w : World) : World :=
  match date_parse now with
  | Some t => set_journal (drop_expired (t - JOURNAL_RETENTION_MS) (w_journal w)) w
  | None => w
  end.

(** [prepare] of grants/evidence.ts; [Throw] aborts its transaction. *)
Definition prepare (batchId : jsstr) (owner : BoxRegistryCredentialOwner) (o : QueuedOrder) (w : World)
  : (option GrantEvidenceEnvelope + failure) * World :=
  if negb (sameBoxRegistryCredentialOwner (credential_owner (w_config w)) (Some owner)) then (inl None, w)
  else match w_queue w !! qo_deviceSeq o with
  | None => (inl None, w)
  | Some current =>
      if negb (equalOrder current o) then (inl None, w)
      else match qo_evidenceEnvelope current with
      | Some envelope =>
          if jseqb (en_payloadDigest envelope) (digest (qo_body o))
             && bool_decide (en_payload envelope = qo_body o)
          then (inl (Some envelope), w) else (inr DeviceError, w)
      | None =>
          let grantId := qo_grantEvidence current ≫= gv_taskGrantId in
          let persist grants :=
            let envelope := {| en_batchId := batchId; en_payloadDigest := digest (qo_body o);
                               en_grants := grants; en_eventGrant := grantId; en_payload := qo_body o |} in
            (inl (Some envelope),
             set_queue (<[qo_deviceSeq o := set_envelope current envelope]> (w_queue w)) w) in
          match grantId with
          | None => if qo_evidenceProtocol current then persist [] else (inr DeviceError, w)
          | Some id =>
              match w_tenantId w, w_archive w !! id with
              | Some _, Some compact => persist [compact]
              | _, _ => (inr DeviceError, w)
              end
          end
      end
  end.

Definition native_rejected (native : CreateOrderResultDto) : list StoredRejectedLine :=
  map (fun c => RejectedLoose (code_tail (cf_rawKm c)) (cf_reason c)) (r_conflicts native)
  ++ map rejected_box (default [] (r_boxConflicts native)).

Definition evidence_outcome (owner : BoxRegistryCredentialOwner) (o : QueuedOrder)
    (native : option CreateOrderResultDto) (at_ : jsstr) : StoredKioskOutcome :=
  let rejected := from_option native_rejected [] native in
  {| oc_id := [];
     oc_owner := {| ow_serverUrl := serverUrl (binding owner); ow_kioskId := kioskId (binding owner);
                    ow_generation := credentialGeneration owner |};
     oc_deviceSeq := qo_deviceSeq o; oc_employeeId := qo_employeeId o; oc_at := at_;
     oc_viewedAt := None;
     oc_kind := outcome_kind (match native with
       | None => true | Some n => jseqb (r_orderNo n) [] || (r_itemCount n =? 0) end) rejected;
     oc_orderNo := match native with
       | Some n => or_null (VStr (r_orderNo n)) | None => VNull end;
     oc_acceptedCount := VNum (num (from_option r_itemCount 0 native));
     oc_acceptedBoxes := default [] (native ≫= r_acceptedBoxes); oc_rejected := rejected |}.

Definition evidence_entry (owner : BoxRegistryCredentialOwner) (o : QueuedOrder)
    (native : option CreateOrderResultDto) (at_ : jsstr) : JournalEntry :=
  {| je_at := at_; je_createdAt := default at_ (d_createdAt (qo_body o));
     je_kioskId := Some (kioskId (binding owner)); je_deviceSeq := qo_deviceSeq o;
     je_orderNo := VStr (from_option r_orderNo [] native); je_employeeId := qo_employeeId o;
     je_acceptedCount := VNum (num (from_option r_itemCount 0 native));
     je_conflicts := VArr (map (fun c => VObj [(js "rawKm", VStr (cf_rawKm c));
                                               (js "reason", VStr (cf_reason c))])
                             (from_option r_conflicts [] native));
     je_acceptedBoxes := default [] (native ≫= r_acceptedBoxes);
     je_boxConflicts := default [] (native ≫= r_boxConflicts) |}.

(** [commit]: one transaction. *)
Definition commit (owner : BoxRegistryCredentialOwner) (o : QueuedOrder)
    (envelope : GrantEvidenceEnvelope) (receipt : GrantEvidenceReceipt)
    (native : option CreateOrderResultDto) (at_ : jsstr) (w : World) : (bool + failure) * World :=
  if negb (sameBoxRegistryCredentialOwner (credential_owner (w_config w)) (Some owner)) then (inl false, w)
  else match w_queue w !! qo_deviceSeq o with
  | None => (inl false, w)
  | Some current =>
      if negb (equalOrder current o)
         || negb (bool_decide (qo_evidenceEnvelope current = Some envelope)) then (inl false, w)
      else match putOutcome localeCompare (evidence_outcome owner o native at_) (w_outcomes w) with
      | None => (inr DeviceError, w)
      | Some outcomes =>
          let w1 := add_journal (evidence_entry owner o native at_) (set_outcomes outcomes w) in
          let w2 := match native with
            | Some _ => w1
            | None => park {| qq_order := current; qq_at := at_; qq_status := default 0 (rc_statusCode receipt);
                              qq_message := default (js "evidence_" ++ rc_status receipt) (rc_reason receipt);
                              qq_boxConflicts := []; qq_receipt := Some receipt |} w1
            end in
          (inl true, set_queue (delete (qo_deviceSeq o) (w_queue w2)) w2)
      end
  end.

Definition effect {R} (o : kiosk_op R) (c : choice) (w : World) : (R + failure) * World :=
  match o in kiosk_op R return (R + failure) * World with
  | ReadConfig => let '(config, w') := readConfig (c_uuid c) w in (inl config, w')
  | ListQueue => (inl (listQueue w), w)
  | FreshNonce => (inl (c_uuid c), w)
  | Now => (inl (c_time c), w)
  | PersistAdmissionNonce s nonce => let '(b, w') := persistAdmissionNonce s nonce w in (inl b, w')
  | NegotiateReservation _ => (inl (c_reservation c), w)
  | AttestOrder _ => (inl (c_admission c), w)
  | AttestQueuedOrder s body => let '(b, w') := attestQueuedOrder s body w in (inl b, w')
  | PrepareEvidence owner o => prepare (c_uuid c) owner o w
  | SubmitGrantEvidence envelope => (inl (c_receipt c), file_order (d_deviceSeq (en_payload envelope)) w)
  | CommitEvidence owner o envelope receipt native at_ => commit owner o envelope receipt native at_ w
  | SubmitOrder body => (inl (c_result c), file_order (d_deviceSeq body) w)
  | PutOutcome outcome =>
      match putOutcome localeCompare outcome (w_outcomes w) with
      | Some outcomes => (inl tt, set_outcomes outcomes w)
      | None => (inr DeviceError, w)
      end
  | JournalAdd e => (inl tt, add_journal e w)
  | PruneJournal now => (inl tt, pruneJournal now w)
  | QuarantineOrder q => (inl tt, park q w)
  | DequeueOrder s => (inl tt, set_queue (delete s (w_queue w)) w)
  end.

(** The clock and the random source do not fail. *)
Definition infallible {R} (o : kiosk_op R) : bool :=
  match o with FreshNonce | Now => true | _ => false end.

(** A request for an order leaves a trace even when it gets no answer. *)
Definition attempted {R} (o : kiosk_op R) (w : World) : World :=
  match o with SubmitOrder body => send_order (d_deviceSeq body) w | _ => w end.

Definition perform (R : Type) (o : kiosk_op R) (c : choice) (w : World) : option (R + failure) * World :=
  let w1 := attempted o (fold_left interfere (c_meanwhile c) w) in
  match c_death c with
  | DiesBefore => (None, w1)
  | d =>
      let '(r, w2) := match c_fails c with
        | Some e => if infallible o then effect o c w1 else (inr e, w1)
        | None => effect o c w1 end in
      match d with Alive => (Some r, w2) | _ => (None, w2) end
  end.
End Effects.

(** ** sync/worker.ts: one pass *)

Definition TERMINAL_STATUSES : list Z := [400; 409; 413; 422].

Definition isTerminalRejection (err : failure) : bool :=
  match err with
  | KioskApiError status _ code _ =>
      bool_decide (status ∈ TERMINAL_STATUSES)
      || ((status =? 403) && bool_decide (code = Some (js "subscription_read_only")))
  | _ => false
  end.

Definition maySubmitWithoutAttestation (err : failure) : bool :=
  match err with
  | KioskApiError status _ code _ =>
      (status =? 404)
      || ((status =? 403) && bool_decide (code = Some (js "subscription_read_only")))
      || ((status =? 409) && bool_decide (code = Some (js "kiosk_admission_not_required")))
  | _ => false
  end.

(** A body with its delivery fields replaced. *)
Definition with_delivery (body : CreateOrderDto) (createdAt nonce proof : option jsstr) : CreateOrderDto :=
  {| d_deviceSeq := d_deviceSeq body; d_badge := d_badge body; d_reason := d_reason body;
     d_writeoffReasonId := d_writeoffReasonId body; d_items := d_items body; d_boxes := d_boxes body;
     d_createdAt := createdAt; d_admissionNonce := nonce; d_admissionProof := proof |}.

Definition admissionRequest (body : CreateOrderDto) : CreateOrderDto :=
  with_delivery body None (d_admissionNonce body) None.

Definition outcomeOwnerOf (config : KioskConfig) : option OutcomeOwner :=
  match kc_kioskId config, kc_generation config with
  | Some ((_ :: _) as id), Some ((_ :: _) as g) =>
      Some {| ow_serverUrl := kc_serverUrl config; ow_kioskId := id; ow_generation := g |}
  | _, _ => None
  end.

(** The variables of a pass that its [catch] blocks read. *)
Record Pass := { delivered : bool; answered : bool; evidenceAttempt : bool }.
Record Flags := { f_delivered : bool; f_unreachable : bool }.

Section Drain.
(** The client the pass was called with: whose credential it carries, and
    whether it can send evidence. *)
Context (registryOwner : option BoxRegistryCredentialOwner) (evidence_transport : bool).

Abbreviation program := (prog kiosk_op failure).

(** [await q] inside a [try] block whose [catch] reads the variables [v]. *)
Definition throwing {V A} (v : V) (q : program failure A) : program (failure * V) A :=
  try_catch q (fun e => Raise (e, v)).

(** [try { await q } catch {}], and whether it went well. *)
Definition succeeds {X A} (q : program failure A) : program X bool :=
  try_catch (q ;; Ret true) (fun _ => Ret false).

Definition appendJournal (e : JournalEntry) : program failure unit :=
  call (JournalAdd e) ;; succeeds (call (PruneJournal (je_at e))) ;; Ret tt.

(** *** The admission of a pending order *)

(** [None] is [continue]: the record is no longer there to be attested. *)
Definition request_admission (order : QueuedOrder) : program failure (option CreateOrderDto) :=
  let! admissionNonce := match qo_admissionNonce order with
    | Some nonce => Ret nonce | None => call FreshNonce end in
  let! persisted := match qo_admissionNonce order with
    | Some (_ :: _) => Ret true
    | _ => call (PersistAdmissionNonce (qo_deviceSeq order) admissionNonce) end in
  if negb persisted then Ret None
  else
    let body := admissionRequest (qo_body order) in
    let admissionBody := with_delivery body None (Some admissionNonce) None in
    let! reserved := call (NegotiateReservation admissionBody) in
    let! admission := match reserved with
      | Some a => Ret a | None => call (AttestOrder admissionBody) end in
    Ret (Some (with_delivery body (Some (ad_claimedAt admission)) None (Some (ad_proof admission)))).

Definition admitted (order : QueuedOrder) : program failure (option QueuedOrder) :=
  if negb (qo_pending order) then Ret (Some order)
  else
    let! attested := try_catch (request_admission order)
      (fun err => if maySubmitWithoutAttestation err then Ret (Some (qo_body order)) else Raise err) in
    match attested with
    | None => Ret None
    | Some attestedBody =>
        let! updated := call (AttestQueuedOrder (qo_deviceSeq order) attestedBody) in
        if (updated : bool) then Ret (Some (set_body order attestedBody)) else Ret None
    end.

(** *** Orders that carry evidence *)

Definition evidence_order (order : QueuedOrder) : bool :=
  match qo_grantEvidence order ≫= gv_taskGrantId, qo_evidenceEnvelope order with
  | None, None => qo_evidenceProtocol order
  | _, _ => true
  end.

Definition applied (receipt : GrantEvidenceReceipt) : bool :=
  negb (rc_quarantined receipt) && jseqb (rc_status receipt) (js "applied")
  && match rc_statusCode receipt with Some code => (200 <=? code) && (code <? 300) | None => false end.

Definition reconcileEvidenceOrder (order : QueuedOrder) : program failure bool :=
  if negb (evidence_order order) then Ret false
  else match registryOwner with
  | None => Raise DeviceError
  | Some owner =>
      let! prepared := call (PrepareEvidence owner order) in
      match prepared with
      | None => Ret true
      | Some envelope =>
          if negb evidence_transport then Raise DeviceError
          else
            let! receipt := call (SubmitGrantEvidence envelope) in
            if negb (jseqb (rc_batchId receipt) (en_batchId envelope)) then Raise DeviceError
            else
              let! native := if applied receipt
                then match nativeResult (rc_result receipt) with
                     | Some n => Ret (Some n) | None => Raise DeviceError end
                else Ret None in
              let! now := call Now in
              let! committed := call (CommitEvidence owner order envelope receipt native (toISOString now)) in
              if (committed : bool)
              then let! later := call Now in
                   succeeds (call (PruneJournal (toISOString later))) ;; Ret true
              else Ret true
      end
  end.

(** *** Recording an answer *)

Definition answer_outcome (owner : OutcomeOwner) (order : QueuedOrder) (at_ : jsstr) (result : value)
  : StoredKioskOutcome :=
  let rejected := rejectedOfResult result in
  {| oc_id := []; oc_owner := owner; oc_deviceSeq := qo_deviceSeq order;
     oc_employeeId := qo_employeeId order; oc_at := at_; oc_viewedAt := None;
     oc_kind := outcome_kind (is_str [] (get (js "orderNo") result)
                              || is_zero (get (js "itemCount") result)) rejected;
     oc_orderNo := or_null (get (js "orderNo") result);
     oc_acceptedCount := get (js "itemCount") result;
     oc_acceptedBoxes := safeAcceptedBoxes (coalesce (get (js "acceptedBoxes") result) (VArr []));
     oc_rejected := rejected |}.

Definition answer_entry (kioskId : option jsstr) (order submitted : QueuedOrder) (at_ : jsstr)
    (result : value) : JournalEntry :=
  {| je_at := at_; je_createdAt := default at_ (d_createdAt (qo_body submitted));
     je_kioskId := kioskId; je_deviceSeq := qo_deviceSeq order;
     je_orderNo := get (js "orderNo") result; je_employeeId := qo_employeeId order;
     je_acceptedCount := get (js "itemCount") result; je_conflicts := get (js "conflicts") result;
     je_acceptedBoxes := safeAcceptedBoxes (coalesce (get (js "acceptedBoxes") result) (VArr []));
     je_boxConflicts := safeBoxConflicts (VObj [(js "boxConflicts",
       coalesce (get (js "boxConflicts") result) (VArr []))]) |}.

Definition record_answer (kioskId : option jsstr) (owner : option OutcomeOwner)
    (order submitted : QueuedOrder) (result : value) : program failure unit :=
  let! now := call Now in
  let at_ := toISOString now in
  if is_nullish result then Raise DeviceError
  else
    (match owner with
     | Some owner => call (PutOutcome (answer_outcome owner order at_ result))
     | None => Ret tt end) ;;
    appendJournal (answer_entry kioskId order submitted at_ result).

(** *** An order the server refused for good *)

Definition refusal_entry (kioskId : option jsstr) (order : QueuedOrder) (at_ : jsstr)
    (boxConflicts : list BoxConflict) : JournalEntry :=
  {| je_at := at_; je_createdAt := default at_ (d_createdAt (qo_body order)); je_kioskId := kioskId;
     je_deviceSeq := qo_deviceSeq order; je_orderNo := VStr []; je_employeeId := qo_employeeId order;
     je_acceptedCount := VNum (num 0); je_conflicts := VArr []; je_acceptedBoxes := [];
     je_boxConflicts := boxConflicts |}.

Definition refusal_outcome (owner : OutcomeOwner) (order : QueuedOrder) (at_ : jsstr) (details : value)
  : StoredKioskOutcome :=
  {| oc_id := []; oc_owner := owner; oc_deviceSeq := qo_deviceSeq order;
     oc_employeeId := qo_employeeId order; oc_at := at_; oc_viewedAt := None; oc_kind := js "rejected";
     oc_orderNo := VNull; oc_acceptedCount := VNum (num 0); oc_acceptedBoxes := [];
     oc_rejected := safeLooseConflicts details ++ map rejected_box (safeBoxConflicts details) |}.

Definition quarantine {X} (order : QueuedOrder) (status : Z) (message : jsstr) (details : value)
    (kioskId : option jsstr) (owner : option OutcomeOwner) : program X bool :=
  let boxConflicts := safeBoxConflicts details in
  let! now := try_catch (call Now) (fun _ => Ret 0) in
  let at_ := toISOString now in
  let! custody := succeeds (call (QuarantineOrder
    {| qq_order := order; qq_at := at_; qq_status := status; qq_message := message;
       qq_boxConflicts := boxConflicts; qq_receipt := None |})) in
  if negb custody then Ret false
  else
    succeeds (appendJournal (refusal_entry kioskId order at_ boxConflicts)) ;;
    let! stored := match owner with
      | Some owner => succeeds (call (PutOutcome (refusal_outcome owner order at_ details)))
      | None => Ret true end in
    if negb stored then Ret false
    else succeeds (call (DequeueOrder (qo_deviceSeq order))).

(** *** The pass *)

(** How the turn of one order ends: on to the next one, with the order to be
    removed or not, or the end of the pass. *)
Inductive turn := NextOrder (remove : bool) (d : bool) | EndPass (flags : Flags).

Definition deliver (kioskId : option jsstr) (owner : option OutcomeOwner) (order : QueuedOrder) (d : bool)
  : program (failure * Pass) turn :=
  let p := {| delivered := d; answered := false; evidenceAttempt := false |} in
  let! submitted := throwing p (admitted order) in
  match submitted with
  | None => Ret (NextOrder false d)
  | Some submittedOrder =>
      let p := {| delivered := d; answered := false; evidenceAttempt := evidence_order submittedOrder |} in
      let! reconciled := throwing p (reconcileEvidenceOrder submittedOrder) in
      if (reconciled : bool) then Ret (NextOrder false true)
      else
        let! result := throwing p (call (SubmitOrder (qo_body submittedOrder))) in
        let p := {| delivered := true; answered := true;
                    evidenceAttempt := evidence_order submittedOrder |} in
        throwing p (record_answer kioskId owner order submittedOrder result) ;;
        Ret (NextOrder true true)
  end.

Definition one_order (kioskId : option jsstr) (owner : option OutcomeOwner) (order : QueuedOrder) (d : bool)
  : program Empty_set turn :=
  try_catch (deliver kioskId owner order d) (fun '(err, p) =>
    let stop := {| f_delivered := delivered p; f_unreachable := negb (answered p) && isUnreachable err |} in
    if evidenceAttempt p
    then Ret (EndPass {| f_delivered := delivered p; f_unreachable := isUnreachable err |})
    else match err with
    | KioskApiError status message _ details =>
        if isTerminalRejection err then
          let! parked := quarantine order status message details kioskId owner in
          Ret (if parked then NextOrder false (delivered p) else EndPass stop)
        else Ret (EndPass stop)
    | _ => Ret (EndPass stop)
    end).

Definition absurd {A} (e : Empty_set) : A := match e with end.

Fixpoint drain_orders (kioskId : option jsstr) (owner : option OutcomeOwner) (queued : list QueuedOrder)
    (d : bool) : program (failure * Flags) Flags :=
  match queued with
  | [] => Ret {| f_delivered := d; f_unreachable := false |}
  | order :: rest =>
      let! t := try_catch (one_order kioskId owner order d) absurd in
      match t with
      | EndPass flags => Ret flags
      | NextOrder remove d' =>
          (if remove
           then throwing {| f_delivered := d'; f_unreachable := false |}
                  (call (DequeueOrder (qo_deviceSeq order)))
           else Ret tt) ;;
          drain_orders kioskId owner rest d'
      end
  end.

(** [drainOnce] up to its [finally]: it never rejects. *)
Definition drainOnce : program Empty_set Flags :=
  try_catch
    (let none := {| f_delivered := false; f_unreachable := false |} in
     let! config := throwing none (call ReadConfig) in
     let! queued := throwing none (call ListQueue) in
     drain_orders (config ≫= kc_kioskId) (config ≫= outcomeOwnerOf) queued false)
    (fun '(_, flags) => Ret flags).

(** [quarantineQueue] of store/queue.ts, with the number of orders set aside. *)
Fixpoint park_orders (at_ message : jsstr) (queued : list QueuedOrder) (parked : nat)
  : program failure nat :=
  match queued with
  | [] => Ret parked
  | order :: rest =>
      call (QuarantineOrder (parked_order order at_ message)) ;;
      call (DequeueOrder (qo_deviceSeq order)) ;;
      park_orders at_ message rest (S parked)
  end.

Definition quarantineQueue (at_ message : jsstr) : program failure nat :=
  let! queued := call ListQueue in park_orders at_ message queued 0.
End Drain.
