(* ===== verification/KioskCustody.v ===== *)
(** * No order is lost, and none overtakes another

    What holds of a pass over the kiosk's queue ([KioskQueue]) whatever fails,
    whatever the servers answer, wherever the process dies and whatever the
    shell does meanwhile. *)

From stdpp Require Import base list strings gmap sorting.
From Stdlib Require Import ZArith Lia.
From S2P Require Import Prelude KioskApi KioskOutcomes Effects KioskQueue.

(** ** Custody *)

(** An order apart from what its delivery adds: the admission and its time. *)
Definition content (body : CreateOrderDto) : CreateOrderDto := with_delivery body None None None.

Definition same_order (a b : QueuedOrder) : Prop :=
  qo_deviceSeq a = qo_deviceSeq b /\ qo_employeeId a = qo_employeeId b
  /\ content (qo_body a) = content (qo_body b).

(** Answered by a server and in the journal, or set aside. *)
Definition settled (s : Z) (w : World) : Prop :=
  (s ∈ w_filed w /\ s ∈ w_journalled w) \/ is_Some (w_quarantine w !! s).

(** Every order in front of a sequence carries evidence. *)
Definition older_evidence (s : Z) (queue : gmap Z QueuedOrder) : Prop :=
  forall s' o', queue !! s' = Some o' -> s' < s -> evidence_order o' = true.

Record custody (w : World) : Prop := {
  cu_queue : forall s o, w_queue w !! s = Some o ->
    qo_deviceSeq o = s /\ d_deviceSeq (qo_body o) = s /\
    exists o0, w_accepted w !! s = Some o0 /\ same_order o0 o;
  cu_parked : forall s q, w_quarantine w !! s = Some q ->
    exists o0, w_accepted w !! s = Some o0 /\ same_order o0 (qq_order q);
  cu_kept : forall s o, w_accepted w !! s = Some o ->
    s < w_nextSeq w /\ (is_Some (w_queue w !! s) \/ settled s w);
  cu_sent : Forall (fun sent => older_evidence sent.1 sent.2) (w_sent w)
}.

(** What time can do: more is accepted, answered, journalled and parked; an
    order that left the queue does not come back; only the orders of [T] lose
    their pending mark, and none its evidence. *)
Record evolves (T : Z -> Prop) (w w' : World) : Prop := {
  ev_accepted : w_accepted w ⊆ w_accepted w';
  ev_filed : w_filed w ⊆ w_filed w';
  ev_journalled : w_journalled w ⊆ w_journalled w';
  ev_parked : forall s, is_Some (w_quarantine w !! s) -> is_Some (w_quarantine w' !! s);
  ev_next : w_nextSeq w <= w_nextSeq w';
  ev_queue : forall s o', s < w_nextSeq w -> w_queue w' !! s = Some o' ->
    exists o, w_queue w !! s = Some o /\ evidence_order o' = evidence_order o
              /\ (T s \/ qo_pending o' = qo_pending o)
}.

Lemma evolves_refl T w : evolves T w w.
Proof. split; try done. intros s o' _ Ho. exists o'. auto. Qed.

Lemma evolves_trans T w w' w'' : evolves T w w' -> evolves T w' w'' -> evolves T w w''.
Proof.
  intros [a1 f1 j1 p1 n1 q1] [a2 f2 j2 p2 n2 q2]. split.
  - by transitivity (w_accepted w').
  - by transitivity (w_filed w').
  - by transitivity (w_journalled w').
  - auto.
  - lia.
  - intros s o'' Hs Ho. destruct (q2 s o'' ltac:(lia) Ho) as (o' & Ho' & He' & Hp').
    destruct (q1 s o' Hs Ho') as (o & Ho0 & He & Hp). exists o. split; [done|]. split; [congruence|].
    destruct Hp' as [?|Hp']; [by left|]. destruct Hp as [?|Hp]; [by left | right; congruence].
Qed.

Lemma evolves_weaken (T T' : Z -> Prop) w w' :
  (forall s, T s -> T' s) -> evolves T w w' -> evolves T' w w'.
Proof.
  intros HT [a f j p n q]. split; try done. intros s o' Hs Ho.
  destruct (q s o' Hs Ho) as (o & H1 & H2 & [H3|H3]); exists o; auto.
Qed.

Lemma settled_evolves T w w' s : evolves T w w' -> settled s w -> settled s w'.
Proof.
  intros [a f j p n q] [[H1 H2]|H]; [left; set_solver | right; auto].
Qed.

Lemma older_evolves T w w' s :
  evolves T w w' -> s <= w_nextSeq w -> older_evidence s (w_queue w) -> older_evidence s (w_queue w').
Proof.
  intros [a f j p n q] Hs Ho s' o' Hl Hlt. destruct (q s' o' ltac:(lia) Hl) as (o & Hq & -> & _).
  by apply (Ho s').
Qed.

(** An order the device knows. *)
Definition known (o : QueuedOrder) (w : World) : Prop :=
  d_deviceSeq (qo_body o) = qo_deviceSeq o /\
  exists o0, w_accepted w !! qo_deviceSeq o = Some o0 /\ same_order o0 o.

Lemma known_evolves T w w' o : evolves T w w' -> known o w -> known o w'.
Proof.
  intros He [Hs (o0 & Ha & H)]. split; [done|]. exists o0. split; [|done].
  exact (lookup_weaken _ _ _ _ Ha (ev_accepted _ _ _ He)).
Qed.

(** The copy of an order a pass holds agrees with the queue. *)
Definition synced (o : QueuedOrder) (w : World) : Prop :=
  forall o', w_queue w !! qo_deviceSeq o = Some o' ->
    evidence_order o' = evidence_order o /\ qo_pending o' = qo_pending o.

Lemma synced_evolves (T : Z -> Prop) w w' o :
  evolves T w w' -> qo_deviceSeq o < w_nextSeq w -> ~ T (qo_deviceSeq o) -> synced o w -> synced o w'.
Proof.
  intros He Hn HT Hs o' Ho. destruct (ev_queue _ _ _ He _ _ Hn Ho) as (o1 & H1 & H2 & [H3|H3]); [done|].
  destruct (Hs _ H1) as [H4 H5]. split; congruence.
Qed.

Lemma same_order_trans a b c : same_order a b -> same_order b c -> same_order a c.
Proof. unfold same_order. intros (-> & -> & ->) (-> & -> & ->). done. Qed.

Lemma same_order_sym a b : same_order a b -> same_order b a.
Proof. unfold same_order. intros (-> & -> & ->). done. Qed.

(** ** What an operation asks for, and what it gives *)

Definition op_pre {R} (o : kiosk_op R) (w : World) : Prop :=
  match o with
  | AttestQueuedOrder s body =>
      exists o0, w_accepted w !! s = Some o0 /\ content body = content (qo_body o0)
                 /\ d_deviceSeq body = s
  | QuarantineOrder q => known (qq_order q) w
  | DequeueOrder s => settled s w
  | SubmitOrder body =>
      older_evidence (d_deviceSeq body) (w_queue w) /\ d_deviceSeq body < w_nextSeq w
  | CommitEvidence _ order _ _ native _ => is_Some native -> qo_deviceSeq order ∈ w_filed w
  | _ => True
  end.

(** The order an operation takes the pending mark from: whatever comes of it,
    and given its answer. *)
Definition touches {R} (o : kiosk_op R) (s : Z) : Prop :=
  match o with AttestQueuedOrder s' _ => s = s' | _ => False end.

Definition touched {R} (o : kiosk_op R) : R + failure -> Z -> Prop :=
  match o in kiosk_op R return R + failure -> Z -> Prop with
  | AttestQueuedOrder s' _ => fun r s => r = inl true /\ s = s'
  | _ => fun _ _ => False
  end.

Lemma touched_touches {R} (o : kiosk_op R) r s : touched o r s -> touches o s.
Proof. destruct o; cbn; try done. by intros [_ ->]. Qed.

Definition op_post {R} (o : kiosk_op R) : R + failure -> World -> Prop :=
  match o in kiosk_op R return R + failure -> World -> Prop with
  | ListQueue => fun r w => forall l, r = inl l -> l = listQueue w
  | PersistAdmissionNonce s _ => fun r w => r = inl false -> pending_at s w = None
  | AttestQueuedOrder s _ => fun r w => r = inl false -> pending_at s w = None
  | PrepareEvidence _ order => fun r w =>
      forall envelope, r = inl (Some envelope) -> en_payload envelope = qo_body order
  | SubmitGrantEvidence envelope => fun r w =>
      forall receipt, r = inl receipt -> d_deviceSeq (en_payload envelope) ∈ w_filed w
  | SubmitOrder body => fun r w => forall result, r = inl result -> d_deviceSeq body ∈ w_filed w
  | JournalAdd e => fun r w => r = inl tt -> je_deviceSeq e ∈ w_journalled w
  | QuarantineOrder q => fun r w =>
      r = inl tt -> is_Some (w_quarantine w !! qo_deviceSeq (qq_order q))
  | DequeueOrder s => fun r w => r = inl tt -> w_queue w !! s = None
  | _ => fun _ _ => True
  end.

Lemma op_pre_evolves {R} T (o : kiosk_op R) w w' : evolves T w w' -> op_pre o w -> op_pre o w'.
Proof.
  intros He. destruct o; cbn [op_pre]; try done.
  - intros (o0 & Ha & Hb). exists o0. split; [|done]. exact (lookup_weaken _ _ _ _ Ha (ev_accepted _ _ _ He)).
  - intros H Hn. exact (ev_filed _ _ _ He _ (H Hn)).
  - intros [Ho Hn]. split; [eapply older_evolves; [exact He | lia | done]|].
    pose proof (ev_next _ _ _ He). lia.
  - by apply (known_evolves T).
  - by apply (settled_evolves T).
Qed.

(** ** The changes a device can undergo *)

Abbreviation step_ok T w w' := (custody w' /\ evolves T w w').

(** A change of what no order depends on. *)
Lemma step_same T w w' :
  custody w -> w_queue w' = w_queue w -> w_quarantine w' = w_quarantine w ->
  w_accepted w' = w_accepted w -> w_nextSeq w' = w_nextSeq w -> w_sent w' = w_sent w ->
  w_filed w ⊆ w_filed w' -> w_journalled w ⊆ w_journalled w' -> step_ok T w w'.
Proof.
  intros [q p k s] Hq Hp Ha Hn Hs Hf Hj.
  assert (He : evolves T w w').
  { split; try (by rewrite ?Ha, ?Hp); [by rewrite Hn|]. intros s' o' _. rewrite Hq. intros H. exists o'. auto. }
  split; [|exact He]. split.
  - by rewrite Hq, Ha.
  - by rewrite Hp, Ha.
  - rewrite Ha, Hn, Hq. intros s' o Ho. destruct (k s' o Ho) as [H1 [H2|H2]]; split; auto.
    right. by apply (settled_evolves T w).
  - by rewrite Hs.
Qed.

Lemma step_park T q w : custody w -> known (qq_order q) w -> step_ok T w (park q w).
Proof.
  intros [cq p k s] [Hseq (o0 & Ha & Hso)].
  assert (Hpk : forall s', is_Some (w_quarantine w !! s') -> is_Some (w_quarantine (park q w) !! s')).
  { intros s' H. cbn. destruct (decide (s' = qo_deviceSeq (qq_order q))) as [->|Hne].
    - rewrite lookup_insert_eq. eauto.
    - by rewrite lookup_insert_ne. }
  assert (He : evolves T w (park q w)).
  { split; try done. intros s' o' _ H. exists o'. auto. }
  split; [|exact He]. split; [done| | |done].
  - intros s' q'. cbn. destruct (decide (s' = qo_deviceSeq (qq_order q))) as [->|Hne].
    + rewrite lookup_insert_eq. intros [= <-]. eauto.
    + rewrite lookup_insert_ne by done. apply p.
  - intros s' o Ho. destruct (k s' o Ho) as [H1 [H2|H2]]; split; auto.
    right. by apply (settled_evolves T w).
Qed.

(** A queued record rewritten in place. *)
Lemma step_rewrite (T : Z -> Prop) s o o' w :
  custody w -> w_queue w !! s = Some o -> same_order o o' -> d_deviceSeq (qo_body o') = s ->
  evidence_order o' = evidence_order o -> (T s \/ qo_pending o' = qo_pending o) ->
  step_ok T w (set_queue (<[s := o']> (w_queue w)) w).
Proof.
  intros [cq p k sn] Ho Hso Hseq Hev Hp. destruct (cq s o Ho) as (H1 & H2 & o0 & Ha & Hs0).
  assert (He : evolves T w (set_queue (<[s := o']> (w_queue w)) w)).
  { split; try done. intros s' o'' _. cbn. destruct (decide (s' = s)) as [->|Hne].
    - rewrite lookup_insert_eq. intros [= <-]. eauto.
    - rewrite lookup_insert_ne by done. intros H. exists o''. auto. }
  split; [|exact He]. split; [|done| |done].
  - intros s' o''. cbn. destruct (decide (s' = s)) as [->|Hne].
    + rewrite lookup_insert_eq. intros [= <-]. split; [destruct Hso; congruence|]. split; [done|].
      exists o0. split; [done|]. by eapply same_order_trans.
    + rewrite lookup_insert_ne by done. apply cq.
  - intros s' o'' Ho''. destruct (k s' o'' Ho'') as [H3 [H4|H4]]; split; auto. left. cbn.
    destruct (decide (s' = s)) as [->|Hne]; [rewrite lookup_insert_eq; eauto | by rewrite lookup_insert_ne].
Qed.

Lemma step_delete T s w :
  custody w -> settled s w -> step_ok T w (set_queue (delete s (w_queue w)) w).
Proof.
  intros [cq p k sn] Hset.
  assert (He : evolves T w (set_queue (delete s (w_queue w)) w)).
  { split; try done. intros s' o' _. cbn. rewrite lookup_delete_Some. intros [_ H]. exists o'. auto. }
  split; [|exact He]. split; [|done| |done].
  - intros s' o'. cbn. rewrite lookup_delete_Some. intros [_ H]. by apply cq.
  - intros s' o' Ho. destruct (k s' o' Ho) as [H1 [H2|H2]]; split; auto. cbn.
    destruct (decide (s' = s)) as [->|Hne]; [by right | left; by rewrite lookup_delete_ne].
Qed.

Lemma step_enqueue T o w : custody w -> step_ok T w (enqueue o w).
Proof.
  intros Hc. unfold enqueue. destruct (_ && _) eqn:E; [|by split; [|apply evolves_refl]].
  bool_hyps. destruct Hc as [cq p k sn].
  assert (Hfresh : w_accepted w !! w_nextSeq w = None).
  { destruct (w_accepted w !! w_nextSeq w) as [o1|] eqn:Ea; [|done]. apply k in Ea. lia. }
  match goal with |- step_ok _ _ ?x => set (w' := x) end.
  assert (He : evolves T w w').
  { split; try done; cbn; [by apply insert_subseteq | lia|].
    intros s' o' Hs. rewrite lookup_insert_ne by lia. intros H'. exists o'. auto. }
  split; [|exact He]. split; [| | |done].
  - intros s' o'. cbn. destruct (decide (s' = w_nextSeq w)) as [->|Hne].
    + rewrite !lookup_insert_eq. intros [= <-]. repeat split; try done. by exists o.
    + rewrite !lookup_insert_ne by done. apply cq.
  - intros s' q Hq. destruct (p s' q Hq) as (o0 & Ha & Hso). exists o0. split; [|done]. cbn.
    rewrite lookup_insert_ne; [done|]. intros <-. congruence.
  - intros s' o'. cbn. destruct (decide (s' = w_nextSeq w)) as [->|Hne].
    + rewrite !lookup_insert_eq. intros _. split; [lia|]. left. eauto.
    + rewrite !lookup_insert_ne by done. intros Ho. destruct (k s' o' Ho) as [H1 [H2|H2]].
      * split; [lia | by left].
      * split; [lia|]. right. by apply (settled_evolves T w).
Qed.

Lemma step_interfere T w i : custody w -> step_ok T w (interfere w i).
Proof.
  intros Hc. destruct i as [o|c|s at_ message|s]; cbn [interfere].
  - by apply step_enqueue.
  - by apply step_same.
  - destruct (w_queue w !! s) as [o|] eqn:Eo; [|by split; [|apply evolves_refl]].
    apply step_park; [done|]. destruct (cu_queue _ Hc _ _ Eo) as (<- & Hb & o0 & Ha & Hso).
    split; [done|]. by exists o0.
  - destruct (w_quarantine w !! s) eqn:Eq; [|by split; [|apply evolves_refl]].
    apply step_delete; [done|]. right. eauto.
Qed.

Lemma step_meanwhile T is_ w : custody w -> step_ok T w (fold_left interfere is_ w).
Proof.
  revert w. induction is_ as [|i is_ IH]; intros w Hc; cbn [fold_left];
    [by split; [|apply evolves_refl]|].
  destruct (step_interfere T w i Hc) as [Hc' He]. destruct (IH _ Hc') as [Hc'' He'].
  split; [done|]. by eapply evolves_trans.
Qed.

Lemma step_send T s w :
  custody w -> older_evidence s (w_queue w) -> step_ok T w (send_order s w).
Proof.
  intros Hc Ho. destruct Hc as [cq p k sn]. split; [split|split]; try done.
  - cbn. rewrite Forall_app. split; [done|]. by apply Forall_singleton.
  - intros s' o' _ H. exists o'. auto.
Qed.

Section Custody.
Context (digest : CreateOrderDto -> jsstr) (localeCompare : jsstr -> jsstr -> Z)
  (date_parse : jsstr -> option Z).

Abbreviation effect := (KioskQueue.effect digest localeCompare date_parse).
Abbreviation perform := (KioskQueue.perform digest localeCompare date_parse).

Lemma step_id T w : custody w -> step_ok T w w.
Proof. intros H. split; [done | apply evolves_refl]. Qed.

#[local] Hint Resolve step_id : core.

Lemma pending_at_Some s w o :
  pending_at s w = Some o <-> w_queue w !! s = Some o /\ qo_pending o = true.
Proof.
  unfold pending_at. destruct (w_queue w !! s) as [o'|]; cbn [mbind option_bind];
    [|split; [done | by intros [? _]]].
  destruct (qo_pending o') eqn:E; (split; [|intros [H Hp]]); try (by intros [= <-]); congruence.
Qed.

Lemma prepare_ok batchId owner o w :
  custody w ->
  let r := prepare digest batchId owner o w in
  step_ok (fun _ => False) w r.2 /\ op_post (PrepareEvidence owner o) r.1 r.2.
Proof.
  intros Hc. unfold prepare. destruct (negb _); [by split; [auto|]|].
  destruct (w_queue w !! qo_deviceSeq o) as [current|] eqn:Eq; [|by split; [auto|]].
  destruct (negb (equalOrder current o)); [by split; [auto|]|].
  destruct (qo_evidenceEnvelope current) as [envelope|] eqn:Ee.
  { destruct (_ && _) eqn:E; [|by split; [auto|]]. split; [auto|]. bool_hyps.
    by intros env' [= <-]. }
  assert (Hset : forall env, evidence_order current = true ->
      step_ok (fun _ => False) w
        (set_queue (<[qo_deviceSeq o := set_envelope current env]> (w_queue w)) w)).
  { intros env Hev. destruct (cu_queue _ Hc _ _ Eq) as (_ & Hb & _).
    apply (step_rewrite _ _ current); [done|done|done|done| |by right].
    rewrite Hev. unfold evidence_order, set_envelope. cbn. by destruct (_ ≫= _). }
  cbv zeta. destruct (qo_grantEvidence current ≫= gv_taskGrantId) as [id|] eqn:Eg.
  - destruct (w_tenantId w), (w_archive w !! id); try (by split; [auto|]).
    split; [|by intros env' [= <-]]. apply Hset. unfold evidence_order. by rewrite Eg.
  - destruct (qo_evidenceProtocol current) eqn:Ep; [|by split; [auto|]].
    split; [|by intros env' [= <-]]. apply Hset. unfold evidence_order. by rewrite Eg, Ee.
Qed.

Lemma commit_ok owner o envelope receipt native at_ w :
  custody w -> op_pre (CommitEvidence owner o envelope receipt native at_) w ->
  step_ok (fun _ => False) w
    (commit localeCompare owner o envelope receipt native at_ w).2.
Proof.
  intros Hc Hpre. unfold commit. destruct (negb _); [auto|].
  destruct (w_queue w !! qo_deviceSeq o) as [current|] eqn:Eq; [|auto].
  destruct (_ || _); [auto|]. destruct (putOutcome _ _ _) as [outcomes|]; [|auto]. cbn [snd].
  set (T := fun _ : Z => False). destruct (cu_queue _ Hc _ _ Eq) as (Hs & Hb & o0 & Ha & Hso).
  set (e := evidence_entry owner o native at_).
  destruct (step_same T w (add_journal e (set_outcomes outcomes w)) Hc) as [Hc1 He1];
    [done..|cbn; set_solver|].
  set (w1 := add_journal _ _) in *.
  assert (H2 : step_ok T w1 (match native with
     | Some _ => w1
     | None => park {| qq_order := current; qq_at := at_; qq_status := default 0 (rc_statusCode receipt);
                       qq_message := default (js "evidence_" ++ rc_status receipt) (rc_reason receipt);
                       qq_boxConflicts := []; qq_receipt := Some receipt |} w1 end)
    /\ settled (qo_deviceSeq o) (match native with
     | Some _ => w1
     | None => park {| qq_order := current; qq_at := at_; qq_status := default 0 (rc_statusCode receipt);
                       qq_message := default (js "evidence_" ++ rc_status receipt) (rc_reason receipt);
                       qq_boxConflicts := []; qq_receipt := Some receipt |} w1 end)).
  { destruct native as [n|].
    - split; [auto|]. left. split; [apply Hpre; eauto|]. cbn. set_solver.
    - split; [|right; cbn; rewrite Hs, lookup_insert_eq; eauto].
      apply step_park; [done|]. cbn [qq_order]. split; [by rewrite Hb, Hs|]. exists o0. by rewrite Hs. }
  set (w2 := match native with Some _ => _ | None => _ end) in *.
  destruct H2 as [[Hc2 He2] Hset]. destruct (step_delete T (qo_deviceSeq o) w2 Hc2 Hset) as [Hc3 He3].
  split; [exact Hc3|]. eapply evolves_trans; [exact He1|]. by eapply evolves_trans.
Qed.

Lemma effect_ok {R} (o : kiosk_op R) c w :
  custody w -> op_pre o w ->
  let r := effect o c w in
  step_ok (touched o r.1) w r.2 /\ op_post o r.1 r.2.
Proof.
  intros Hc Hpre. destruct o; cbn [KioskQueue.effect].
  - unfold readConfig. destruct (w_config w) as [cf|]; [|by split; [auto|]]. cbv zeta.
    destruct (kc_token cf) as [[|x t]|]; try (by split; [auto|]).
    destruct (credentialGenerationOf _); [by split; [auto|]|]. split; [by apply step_same|done].
  - split; [auto|]. by intros l [= <-].
  - by split; [auto|].
  - by split; [auto|].
  - unfold persistAdmissionNonce. destruct (pending_at s w) as [o|] eqn:Ep.
    + split; [|done]. apply pending_at_Some in Ep as [Ho Hp].
      destruct (cu_queue _ Hc _ _ Ho) as (_ & Hb & _). by apply (step_rewrite _ _ o); auto.
    + split; [auto|]. by intros _.
  - by split; [auto|].
  - by split; [auto|].
  - unfold attestQueuedOrder. destruct (pending_at s w) as [o|] eqn:Ep.
    + split; [|done]. apply pending_at_Some in Ep as [Ho Hp].
      destruct (cu_queue _ Hc _ _ Ho) as (Hs & Hb & o0 & Ha & Hso).
      destruct Hpre as (o1 & Ha1 & Hcont & Hd). rewrite Ha in Ha1. apply (inj Some) in Ha1 as <-.
      apply (step_rewrite _ _ o); auto.
      * destruct Hso as (H1 & H2 & H3). split; [done|]. split; [done|]. cbn. congruence.
      * by left.
    + split; [auto|]. by intros _.
  - by apply prepare_ok.
  - split; [apply step_same; cbn; [done..|set_solver|done]|]. intros receipt _. cbn. set_solver.
  - destruct (commit_ok owner o envelope receipt native at_ w Hc Hpre) as [H1 H2]. by split.
  - split; [apply step_same; cbn; [done..|set_solver|done]|]. intros result _. cbn. set_solver.
  - destruct (putOutcome _ _ _); (split; [|done]); [by apply step_same | auto].
  - split; [apply step_same; cbn; [done..|set_solver]|]. intros _. cbn. set_solver.
  - unfold pruneJournal. destruct (date_parse now); (split; [|done]); [by apply step_same | auto].
  - split; [by apply step_park|]. intros _. cbn. rewrite lookup_insert_eq. eauto.
  - split; [by apply step_delete|]. intros _. cbn. by rewrite lookup_delete_eq.
Qed.

(** Whatever an operation does, custody is kept. *)
Lemma perform_ok {R} (o : kiosk_op R) c w :
  custody w -> op_pre o w ->
  match perform R o c w with
  | (Some r, w') => step_ok (touched o r) w w' /\ op_post o r w'
  | (None, w') => step_ok (touches o) w w'
  end.
Proof.
  intros Hc Hpre. unfold KioskQueue.perform.
  destruct (step_meanwhile (fun _ => False) (c_meanwhile c) w Hc) as [Hc0 He0].
  set (w0 := fold_left _ _ w) in *. pose proof (op_pre_evolves _ o _ _ He0 Hpre) as Hpre0.
  assert (H1 : step_ok (fun _ => False) w0 (attempted o w0)).
  { destruct o; try (by auto). destruct Hpre0. by apply step_send. }
  destruct H1 as [Hc1 He1]. set (w1 := attempted o w0) in *.
  pose proof (op_pre_evolves _ o _ _ He1 Hpre0) as Hpre1.
  pose proof (evolves_trans _ _ _ _ He0 He1) as He. clearbody w1.
  assert (Hnone : forall T, evolves T w w1) by (intros T; by apply (evolves_weaken (fun _ => False))).
  destruct (effect_ok o c w1 Hc1 Hpre1) as [[Hc2 He2] Hp].
  assert (Hran : step_ok (touched o (effect o c w1).1) w (effect o c w1).2).
  { split; [done|]. by eapply evolves_trans. }
  assert (Hout : forall r w', (r = (effect o c w1).1 /\ w' = (effect o c w1).2) \/
      (exists e, r = inr e /\ w' = w1 /\ infallible o = false) ->
      step_ok (touched o r) w w' /\ op_post o r w').
  { intros r w' [[-> ->]|(e & -> & -> & Hi)]; [by split|]. split; [by split|]. destruct o; done. }
  assert (Hsel : exists r w2, match c_fails c with
        | Some e => if infallible o then effect o c w1 else (inr e, w1)
        | None => effect o c w1 end = (r, w2) /\ step_ok (touched o r) w w2 /\ op_post o r w2).
  { destruct (c_fails c) as [e|]; [destruct (infallible o) eqn:Ei|].
    - exists (effect o c w1).1, (effect o c w1).2. split; [by destruct (effect o c w1)|]. apply Hout. by left.
    - exists (inr e), w1. split; [done|]. apply Hout. right. eauto.
    - exists (effect o c w1).1, (effect o c w1).2. split; [by destruct (effect o c w1)|]. apply Hout. by left. }
  destruct Hsel as (r & w2 & -> & [Hc3 He3] & Hp3).
  destruct (c_death c); [(split; [by split | done]) | by split |].
  split; [done|]. eapply evolves_weaken; [|exact He3]. apply touched_touches.
Qed.

(** ** Programs that keep custody *)

(** From [w], custody is kept and the world evolves wherever the program is,
    also where the process dies; a result meets [Q] and an exception [X]. *)
Definition safe {Y A} (T : Z -> Prop) (p : prog kiosk_op failure Y A)
    (Q : A -> World -> Prop) (X : Y -> World -> Prop) (w : World) : Prop :=
  wp perform (fun _ => True) p
    (fun a w' => step_ok T w w' /\ Q a w') (fun x w' => step_ok T w w' /\ X x w')
    (fun w' => step_ok T w w') w.

Section Rules.
Context (T : Z -> Prop).

Lemma safe_mono {Y A} (p : prog kiosk_op failure Y A) Q Q' X X' w :
  safe T p Q X w ->
  (forall a w', custody w' -> evolves T w w' -> Q a w' -> Q' a w') ->
  (forall x w', custody w' -> evolves T w w' -> X x w' -> X' x w') ->
  safe T p Q' X' w.
Proof.
  intros Hp HQ HX. eapply wp_mono; [exact Hp|..]; cbv beta; [| |done].
  - intros a w' [[? ?] ?]. auto.
  - intros x w' [[? ?] ?]. auto.
Qed.

Lemma safe_ret {Y A} (a : A) (Q : A -> World -> Prop) (X : Y -> World -> Prop) w :
  custody w -> Q a w -> safe T (Ret a) Q X w.
Proof. intros Hc Hq. split; [|done]. split; [done | apply evolves_refl]. Qed.

Lemma safe_raise {Y A} (x : Y) (Q : A -> World -> Prop) (X : Y -> World -> Prop) w :
  custody w -> X x w -> safe T (Raise x) Q X w.
Proof. intros Hc Hq. split; [|done]. split; [done | apply evolves_refl]. Qed.

(** What runs well from [w'] runs well from what led to [w']. *)
Lemma safe_after {Y A} w w' (p : prog kiosk_op failure Y A) Q X :
  evolves T w w' -> safe T p Q X w' ->
  wp perform (fun _ => True) p
    (fun a w'' => step_ok T w w'' /\ Q a w'') (fun x w'' => step_ok T w w'' /\ X x w'')
    (fun w'' => step_ok T w w'') w'.
Proof.
  intros He Hp. eapply wp_mono; [exact Hp|..]; cbv beta.
  - intros a w'' [[? ?] ?]. split; [|done]. split; [done|]. by eapply evolves_trans.
  - intros x w'' [[? ?] ?]. split; [|done]. split; [done|]. by eapply evolves_trans.
  - intros w'' [? ?]. split; [done|]. by eapply evolves_trans.
Qed.

Lemma safe_bind {Y A B} (p : prog kiosk_op failure Y A) (f : A -> prog kiosk_op failure Y B) P Q X w :
  safe T p P X w ->
  (forall a w', custody w' -> evolves T w w' -> P a w' -> safe T (f a) Q X w') ->
  safe T (bind p f) Q X w.
Proof.
  intros Hp Hf. apply wp_bind. eapply wp_mono; [exact Hp|..]; cbv beta; [|done..].
  intros a w' [[Hc He] Ha]. apply safe_after; [done|]. by apply Hf.
Qed.

Lemma safe_try {Y Z A} (p : prog kiosk_op failure Y A) (h : Y -> prog kiosk_op failure Z A) P Q X w :
  safe T p Q P w ->
  (forall x w', custody w' -> evolves T w w' -> P x w' -> safe T (h x) Q X w') ->
  safe T (try_catch p h) Q X w.
Proof.
  intros Hp Hh. apply wp_try. eapply wp_mono; [exact Hp|..]; cbv beta; [done| |done].
  intros x w' [[Hc He] Hx]. apply safe_after; [done|]. by apply Hh.
Qed.

Lemma safe_op {Y R} (thrown : failure -> Y) (o : kiosk_op R) (Q : R -> World -> Prop) X w :
  custody w -> op_pre o w -> (forall s, touches o s -> T s) ->
  (forall r w', custody w' -> evolves T w w' -> evolves (touched o r) w w' -> op_post o r w' ->
     match r with inl a => Q a w' | inr e => X (thrown e) w' end) ->
  safe T (call_as thrown o) Q X w.
Proof.
  intros Hc Hpre HT Hr. apply wp_call; [by split; [|apply evolves_refl]|]. intros c _.
  pose proof (perform_ok o c w Hc Hpre) as Ho.
  destruct (perform R o c w) as [[r|] w'].
  - destruct Ho as [[Hc' He'] Hp].
    assert (He : evolves T w w').
    { eapply evolves_weaken; [|exact He']. intros s Hs. apply HT. by eapply touched_touches. }
    specialize (Hr r w' Hc' He He' Hp). by destruct r.
  - destruct Ho as [Hc' He']. split; [done|]. by eapply evolves_weaken.
Qed.

(** An operation of which only the effect on the world matters. *)
Lemma safe_any {Y R} (thrown : failure -> Y) (o : kiosk_op R) w :
  custody w -> op_pre o w -> (forall s, touches o s -> T s) ->
  safe T (call_as thrown o) (fun _ _ => True) (fun _ _ => True) w.
Proof. intros Hc Hpre HT. apply safe_op; [done..|]. by intros []. Qed.

Lemma safe_throwing {V A} (v : V) (q : prog kiosk_op failure failure A) Q (X : failure * V -> World -> Prop) w :
  safe T q Q (fun e w' => X (e, v) w') w -> safe T (throwing v q) Q X w.
Proof.
  intros Hq. eapply safe_try; [exact Hq|]. intros x w' Hc _ Hx. by apply safe_raise.
Qed.

Lemma safe_succeeds {Y A} (q : prog kiosk_op failure failure A) (F : World -> Prop) (X : Y -> World -> Prop) w :
  safe T q (fun _ => F) (fun _ _ => True) w ->
  safe T (succeeds q) (fun b w' => b = true -> F w') X w.
Proof.
  intros Hq. eapply safe_try; [eapply safe_bind; [exact Hq|]|]; cbv beta.
  - intros a w' Hc _ Hf. by apply safe_ret.
  - intros x w' Hc _ _. by apply safe_ret.
Qed.

Lemma safe_succeeds_any {Y A} (q : prog kiosk_op failure failure A) (X : Y -> World -> Prop) w :
  safe T q (fun _ _ => True) (fun _ _ => True) w ->
  safe T (succeeds q) (fun _ _ => True) X w.
Proof. intros Hq. eapply safe_mono; [by apply (safe_succeeds q (fun _ => True) X)|done..]. Qed.
End Rules.

Lemma safe_weaken {Y A} (T T' : Z -> Prop) (p : prog kiosk_op failure Y A) Q X w :
  (forall s, T s -> T' s) -> safe T p Q X w -> safe T' p Q X w.
Proof.
  intros HT Hp. eapply wp_mono; [exact Hp|..]; cbv beta.
  - intros a w' [[? ?] ?]. split; [|done]. split; [done|]. by eapply evolves_weaken.
  - intros x w' [[? ?] ?]. split; [|done]. split; [done|]. by eapply evolves_weaken.
  - intros w' [? ?]. split; [done|]. by eapply evolves_weaken.
Qed.

(** ** The parts of a pass *)

Lemma safe_appendJournal T e w :
  custody w ->
  safe T (appendJournal e) (fun _ w' => je_deviceSeq e ∈ w_journalled w') (fun _ _ => True) w.
Proof.
  intros Hc. unfold appendJournal.
  eapply safe_bind; [apply (safe_op _ _ _ (fun _ w' => je_deviceSeq e ∈ w_journalled w')); [done..|]|].
  - intros [[]|err] w1 _ _ _ Hp; [|done]. by apply Hp.
  - cbv beta. intros _ w1 Hc1 _ Hj.
    eapply (safe_bind _ _ _ (fun _ _ => True)); [by apply safe_succeeds_any, safe_any|].
    cbv beta. intros b w2 Hc2 He2 _. apply safe_ret; [done|]. exact (ev_journalled _ _ _ He2 _ Hj).
Qed.

Definition at_order (order : QueuedOrder) (w : World) : Prop :=
  known order w /\ qo_deviceSeq order < w_nextSeq w.

Lemma at_order_evolves T w w' order : evolves T w w' -> at_order order w -> at_order order w'.
Proof.
  intros He [Hk Hn]. split; [by apply (known_evolves T w)|]. pose proof (ev_next _ _ _ He). lia.
Qed.

Lemma quarantine_safe {Y} T order status message details kioskId owner w :
  custody w -> known order w ->
  safe T (quarantine (X:=Y) order status message details kioskId owner)
    (fun b w' => b = true -> w_queue w' !! qo_deviceSeq order = None) (fun _ _ => True) w.
Proof.
  intros Hc Hk. unfold quarantine. cbv zeta.
  eapply (safe_bind _ _ _ (fun _ _ => True)); [eapply (safe_try _ _ _ (fun _ _ => True)); [by apply safe_any|]|].
  { cbv beta. intros _ w1 Hc1 _ _. by apply (safe_ret _ _ (fun _ _ => True)). }
  cbv beta. intros now w1 Hc1 He1 _. pose proof (known_evolves _ _ _ _ He1 Hk) as Hk1.
  eapply safe_bind; [apply (safe_succeeds _ _ (fun w' => is_Some (w_quarantine w' !! qo_deviceSeq order)))|].
  { apply safe_op; [done..|]. intros [[]|e] w2 _ _ _ Hp; [|done]. by apply Hp. }
  cbv beta. intros custody_ w2 Hc2 He2 Hq. destruct custody_; cbn [negb]; [|by apply safe_ret].
  specialize (Hq eq_refl).
  eapply (safe_bind _ _ _ (fun _ _ => True)).
  { apply safe_succeeds_any. eapply safe_mono; [by apply safe_appendJournal|done..]. }
  cbv beta. intros _ w3 Hc3 He3 _.
  eapply (safe_bind _ _ _ (fun _ _ => True)).
  { destruct owner as [ow|]; [|by apply safe_ret].
    by apply safe_succeeds_any, safe_any. }
  cbv beta. intros stored w4 Hc4 He4 _. destruct stored; cbn [negb]; [|by apply safe_ret].
  apply safe_succeeds. apply safe_op; [done| |done|].
  - cbn. right. by apply (ev_parked _ _ _ He4), (ev_parked _ _ _ He3).
  - intros [[]|e] w5 _ _ _ Hp; [|done]. by apply Hp.
Qed.

Abbreviation only order := (fun s : Z => s = qo_deviceSeq order).

Lemma pending_synced order w :
  synced order w -> qo_pending order = true -> pending_at (qo_deviceSeq order) w = None ->
  w_queue w !! qo_deviceSeq order = None.
Proof.
  intros Hs Hp Hn. destruct (w_queue w !! qo_deviceSeq order) as [o|] eqn:Eo; [|done].
  destruct (Hs o Eo) as [_ Hpe]. assert (H : pending_at (qo_deviceSeq order) w = Some o).
  { apply pending_at_Some. split; [done | congruence]. }
  congruence.
Qed.

Lemma request_admission_safe order w :
  custody w -> at_order order w -> synced order w -> qo_pending order = true ->
  safe (fun _ => False) (request_admission order)
    (fun r w' => match r with
       | None => w_queue w' !! qo_deviceSeq order = None
       | Some body => content body = content (qo_body order) /\ d_deviceSeq body = qo_deviceSeq order
       end) (fun _ _ => True) w.
Proof.
  intros Hc [Hk Hn] Hs Hp. unfold request_admission.
  eapply (safe_bind _ _ _ (fun _ _ => True)).
  { destruct (qo_admissionNonce order); [by apply safe_ret | by apply safe_any]. }
  intros nonce w1 Hc1 He1 _.
  assert (Hs1 : synced order w1) by (eapply synced_evolves; [exact He1|done|tauto|done]).
  pose proof (ev_next _ _ _ He1) as Hn1.
  eapply (safe_bind _ _ _ (fun b w' => b = false -> w_queue w' !! qo_deviceSeq order = None)).
  { assert (Hop : safe (fun _ => False) (call (PersistAdmissionNonce (qo_deviceSeq order) nonce))
      (fun b w' => b = false -> w_queue w' !! qo_deviceSeq order = None) (fun _ _ => True) w1).
    { apply safe_op; [done..|]. intros [b|e] w2 _ He2 _ Hpost; [|done]. intros ->.
      apply pending_synced; [|done|by apply Hpost].
      eapply synced_evolves; [exact He2|lia|tauto|done]. }
    destruct (qo_admissionNonce order) as [[|c n]|]; [exact Hop | by apply safe_ret | exact Hop]. }
  cbv beta. intros [] w2 Hc2 He2 Hb; cbn [negb]; [|apply safe_ret; [done | by apply Hb]].
  cbv zeta. eapply (safe_bind _ _ _ (fun _ _ => True)); [by apply safe_any|].
  intros reserved w3 Hc3 _ _.
  eapply (safe_bind _ _ _ (fun _ _ => True)).
  { destruct reserved; [by apply safe_ret | by apply safe_any]. }
  intros admission w4 Hc4 _ _. apply safe_ret; [done|]. split; [done|]. apply Hk.
Qed.

(** What the pass goes on with is the order it started with. *)
Definition same_turn (order submitted : QueuedOrder) : Prop :=
  qo_deviceSeq submitted = qo_deviceSeq order /\
  d_deviceSeq (qo_body submitted) = qo_deviceSeq order /\
  evidence_order submitted = evidence_order order.

Lemma admitted_safe order w :
  custody w -> at_order order w -> synced order w ->
  safe (only order) (admitted order)
    (fun r w' => match r with
       | None => w_queue w' !! qo_deviceSeq order = None
       | Some submitted => same_turn order submitted
       end) (fun _ _ => True) w.
Proof.
  intros Hc Ho Hs. unfold admitted. destruct (qo_pending order) eqn:Ep; cbn [negb].
  2:{ apply safe_ret; [done|]. split; [done|]. split; [apply Ho|done]. }
  set (P := fun (r : option CreateOrderDto) w' => match r with
     | None => w_queue w' !! qo_deviceSeq order = None
     | Some body => content body = content (qo_body order) /\ d_deviceSeq body = qo_deviceSeq order
                    /\ synced order w' end).
  eapply (safe_bind _ _ _ P).
  { eapply (safe_weaken (fun _ => False)); [done|].
    eapply safe_try.
    - eapply safe_mono; [by apply request_admission_safe| |done].
      intros [body|] w' _ He Hr; cbv beta in Hr; [|done]. destruct Hr as [H1 H2]. split; [done|]. split; [done|].
      eapply synced_evolves; [exact He|apply Ho|tauto|done].
    - intros err w' Hc' He _. destruct (maySubmitWithoutAttestation err); [|by apply safe_raise].
      apply safe_ret; [done|]. split; [done|]. split; [apply Ho|].
      eapply synced_evolves; [exact He|apply Ho|tauto|done]. }
  intros [body|] w1 Hc1 He1 Hr; [|by apply safe_ret]. destruct Hr as (H1 & H2 & H3).
  pose proof (at_order_evolves _ _ _ _ He1 Ho) as [Hk Hn].
  eapply (safe_bind _ _ _ (fun b w' => b = false -> w_queue w' !! qo_deviceSeq order = None)).
  - apply safe_op; [done| |by intros s ->|].
    + destruct Hk as (Hd & o0 & Ha & Hso). exists o0. split; [done|]. split; [|done].
      destruct Hso as (_ & _ & Hso). congruence.
    + intros [b|e] w2 _ _ He2 Hpost; [|done]. intros ->.
      apply pending_synced; [|done|by apply Hpost].
      eapply synced_evolves; [exact He2|lia| |done]. by intros [? _].
  - intros [] w2 Hc2 _ Hb; apply safe_ret; [done| |done|by apply Hb].
    split; [done|]. by split.
Qed.

Lemma reconcile_safe registryOwner transport T order w :
  custody w -> d_deviceSeq (qo_body order) = qo_deviceSeq order ->
  safe T (reconcileEvidenceOrder registryOwner transport order)
    (fun b w' => b = evidence_order order) (fun _ _ => True) w.
Proof.
  intros Hc Hd. unfold reconcileEvidenceOrder.
  destruct (evidence_order order) eqn:Ee; cbn [negb]; [|by apply safe_ret].
  destruct registryOwner as [owner|]; [|by apply safe_raise].
  eapply (safe_bind _ _ _ (fun r w' => forall envelope, r = Some envelope -> en_payload envelope = qo_body order)).
  { apply safe_op; [done..|]. intros [r|e] w1 _ _ _ Hp; [|done]. intros envelope ->. by apply Hp. }
  intros [envelope|] w1 Hc1 _ Hp; [|by apply safe_ret]. specialize (Hp _ eq_refl).
  destruct transport; cbn [negb]; [|by apply safe_raise].
  eapply (safe_bind _ _ _ (fun _ w' => qo_deviceSeq order ∈ w_filed w')).
  { apply safe_op; [done..|]. intros [r|e] w2 _ _ _ Hf; [|done].
    rewrite <- Hd, <- Hp. by apply (Hf r). }
  intros receipt w2 Hc2 _ Hf. destruct (negb _); [by apply safe_raise|].
  eapply (safe_bind _ _ _ (fun _ _ => True)).
  { destruct (applied receipt); [|by apply safe_ret].
    destruct (nativeResult _); [by apply safe_ret | by apply safe_raise]. }
  intros native w3 Hc3 He3 _.
  eapply (safe_bind _ _ _ (fun _ _ => True)); [by apply safe_any|]. intros now w4 Hc4 He4 _.
  eapply (safe_bind _ _ _ (fun _ _ => True)).
  { apply safe_any; [done| |done]. intros _. by apply (ev_filed _ _ _ He4), (ev_filed _ _ _ He3). }
  intros [] w5 Hc5 _ _; [|by apply safe_ret].
  eapply (safe_bind _ _ _ (fun _ _ => True)); [by apply safe_any|]. intros later w6 Hc6 _ _.
  eapply (safe_bind _ _ _ (fun _ _ => True)); [by apply safe_succeeds_any, safe_any|].
  intros _ w7 Hc7 _ _. by apply safe_ret.
Qed.

Lemma record_answer_safe T kioskId owner order submitted result w :
  custody w -> qo_deviceSeq order ∈ w_filed w ->
  safe T (record_answer kioskId owner order submitted result)
    (fun _ w' => settled (qo_deviceSeq order) w') (fun _ _ => True) w.
Proof.
  intros Hc Hf. unfold record_answer.
  eapply (safe_bind _ _ _ (fun _ _ => True)); [by apply safe_any|]. intros now w1 Hc1 He1 _.
  cbv zeta. destruct (is_nullish result); [by apply safe_raise|].
  eapply (safe_bind _ _ _ (fun _ _ => True)).
  { destruct owner; [by apply safe_any | by apply safe_ret]. }
  intros _ w2 Hc2 He2 _. eapply safe_mono; [by apply safe_appendJournal| |done]. cbv beta.
  intros _ w3 _ He3 Hj. left. split; [|exact Hj].
  by apply (ev_filed _ _ _ He3), (ev_filed _ _ _ He2), (ev_filed _ _ _ He1).
Qed.

(** What the turn of one order leaves behind. *)
Definition turn_ok (order : QueuedOrder) (t : turn) (w : World) : Prop :=
  match t with
  | NextOrder true _ => settled (qo_deviceSeq order) w
  | NextOrder false _ =>
      forall o', w_queue w !! qo_deviceSeq order = Some o' -> evidence_order o' = true
  | EndPass _ => True
  end.

Lemma gone_turn order d w : w_queue w !! qo_deviceSeq order = None -> turn_ok order (NextOrder false d) w.
Proof. intros H o' Ho. congruence. Qed.

Section Pass.
Context (registryOwner : option BoxRegistryCredentialOwner) (transport : bool)
  (kioskId : option jsstr) (owner : option OutcomeOwner).

Lemma deliver_safe order d w :
  custody w -> at_order order w -> synced order w ->
  older_evidence (qo_deviceSeq order) (w_queue w) ->
  safe (only order) (deliver registryOwner transport kioskId owner order d) (turn_ok order)
    (fun _ _ => True) w.
Proof.
  intros Hc Ho Hs Hold. unfold deliver. cbv zeta.
  eapply safe_bind; [eapply safe_throwing; by apply admitted_safe|].
  cbv beta. intros [submitted|] w1 Hc1 He1 Hr; [|by apply safe_ret; [|apply gone_turn]].
  destruct Hr as (H1 & H2 & H3).
  eapply safe_bind; [eapply safe_throwing; apply reconcile_safe; [done|congruence]|].
  cbv beta. intros b w2 Hc2 He2 ->. pose proof (evolves_trans _ _ _ _ He1 He2) as He.
  destruct (evidence_order submitted) eqn:Ee.
  { apply safe_ret; [done|]. intros o' Ho'.
    destruct (ev_queue _ _ _ He _ _ (proj2 Ho) Ho') as (o1 & Hq & -> & _).
    destruct (Hs o1 Hq) as [-> _]. congruence. }
  destruct (at_order_evolves _ _ _ _ He Ho) as [_ Hn2].
  eapply (safe_bind _ _ _ (fun _ w' => qo_deviceSeq order ∈ w_filed w')).
  { apply safe_throwing, safe_op; [done| |done|].
    - cbn. rewrite H2. split; [|done]. eapply older_evolves; [exact He | | done].
      destruct Ho. lia.
    - intros [r|e] w3 _ _ _ Hf; [|done]. rewrite <- H2. by apply (Hf r). }
  cbv beta. intros result w3 Hc3 _ Hf.
  eapply safe_bind; [apply safe_throwing; by apply record_answer_safe|].
  cbv beta. intros _ w4 Hc4 _ Hset. by apply safe_ret.
Qed.

Lemma one_order_safe order d w :
  custody w -> at_order order w -> synced order w ->
  older_evidence (qo_deviceSeq order) (w_queue w) ->
  safe (only order) (one_order registryOwner transport kioskId owner order d) (turn_ok order)
    (fun _ _ => True) w.
Proof.
  intros Hc Ho Hs Hold. unfold one_order.
  eapply safe_try; [by apply deliver_safe|]. cbv beta.
  intros [err p] w1 Hc1 He1 _. cbv zeta. destruct (evidenceAttempt p); [by apply safe_ret|].
  destruct err as [status message code details| | |]; try by apply safe_ret.
  destruct (isTerminalRejection _); [|by apply safe_ret].
  eapply safe_bind; [apply quarantine_safe; [done|]; by apply (at_order_evolves _ _ _ _ He1)|].
  cbv beta. intros [] w2 Hc2 _ Hb; (apply safe_ret; [done|]); [|done]. by apply gone_turn, Hb.
Qed.

(** What a pass keeps in hand: the orders it listed, ascending, each as the
    queue has it; all else in the queue carries evidence or came later. *)
Definition ascending := Sorted.StronglySorted (fun a b : QueuedOrder => qo_deviceSeq a < qo_deviceSeq b).

Definition in_hand (queued : list QueuedOrder) (w : World) : Prop :=
  ascending queued /\ Forall (fun o => at_order o w /\ synced o w) queued /\
  forall s o, w_queue w !! s = Some o ->
    evidence_order o = true \/ (exists k, k ∈ queued /\ qo_deviceSeq k = s)
    \/ forall k, k ∈ queued -> qo_deviceSeq k < s.

Lemma in_hand_older order rest w :
  in_hand (order :: rest) w -> older_evidence (qo_deviceSeq order) (w_queue w).
Proof.
  intros (Ha & _ & Hf) s o Ho Hlt. destruct (Hf s o Ho) as [?|[(k & Hk & Heq)|Hall]]; [done| |].
  - inversion Ha as [|? ? _ Hr]; subst. apply elem_of_cons in Hk as [->|Hk]; [lia|].
    rewrite Forall_forall in Hr. specialize (Hr k Hk). lia.
  - specialize (Hall order ltac:(left)). lia.
Qed.

Lemma in_hand_next order rest w w' :
  custody w' -> in_hand (order :: rest) w -> evolves (only order) w w' ->
  (forall o', w_queue w' !! qo_deviceSeq order = Some o' -> evidence_order o' = true) ->
  in_hand rest w'.
Proof.
  intros Hc (Ha & Hs & Hf) He Hgone. inversion Ha as [|? ? Hrest Hr]; subst.
  apply Forall_cons in Hs as [[[_ Hn] _] Hs]. split; [done|]. split.
  - rewrite Forall_forall in Hs, Hr |- *. intros k Hk. destruct (Hs k Hk) as [Hat Hsy].
    split; [by apply (at_order_evolves _ _ _ _ He)|].
    eapply synced_evolves; [exact He|apply Hat| |done]. specialize (Hr k Hk). cbn. lia.
  - intros s o' Ho'. destruct (Z.lt_ge_cases s (w_nextSeq w)) as [Hlt|Hge].
    + destruct (ev_queue _ _ _ He _ _ Hlt Ho') as (o & Ho & Hev & _).
      destruct (Hf s o Ho) as [?|[(k & Hk & Heq)|Hall]].
      * left. congruence.
      * apply elem_of_cons in Hk as [->|Hk]; [|right; left; eauto].
        left. subst s. by apply Hgone.
      * right. right. intros k Hk. apply Hall. by right.
    + right. right. intros k Hk. rewrite Forall_forall in Hs. destruct (Hs k Hk) as [[_ ?] _]. lia.
Qed.

Lemma drain_orders_safe queued d w :
  custody w -> in_hand queued w ->
  safe (fun _ => True) (drain_orders registryOwner transport kioskId owner queued d)
    (fun _ _ => True) (fun _ _ => True) w.
Proof.
  revert d w. induction queued as [|order rest IH]; intros d w Hc Hh; cbn [drain_orders];
    [by apply safe_ret|].
  pose proof (in_hand_older _ _ _ Hh) as Hold.
  destruct (proj1 (Forall_cons _ _ _) (proj1 (proj2 Hh))) as [[Hat Hsy] _].
  eapply (safe_bind _ _ _ (fun t w' => turn_ok order t w' /\ evolves (only order) w w')).
  { eapply (safe_try _ _ _ (fun _ _ => True)); [|by intros []].
    eapply (safe_weaken (only order)); [done|].
    eapply safe_mono; [by apply one_order_safe|done|done]. }
  intros [remove d'|flags] w1 Hc1 _ [Ht He1]; [|by apply safe_ret].
  eapply (safe_bind _ _ _ (fun _ w' => in_hand rest w')).
  - destruct remove; cbn [turn_ok] in Ht.
    + apply safe_throwing, safe_op; [done|done|done|].
      intros [[]|e] w2 Hc2 _ He2 Hp; [|done].
      eapply (in_hand_next order); [done|exact Hh| |].
      * eapply evolves_trans; [exact He1|]. by eapply evolves_weaken; [|exact He2].
      * rewrite (Hp eq_refl). done.
    + apply safe_ret; [done|]. by eapply (in_hand_next order).
  - intros _ w2 Hc2 _ Hh2. by apply IH.
Qed.
End Pass.

(** *** The listing *)

Lemma listQueue_elem (w : World) o :
  custody w -> o ∈ listQueue w <-> w_queue w !! qo_deviceSeq o = Some o.
Proof.
  intros Hc. unfold listQueue. rewrite list_elem_of_In, in_map_iff. split.
  - intros ([s o'] & <- & Hin%list_elem_of_In%elem_of_js_sort%elem_of_map_to_list).
    cbn. by destruct (cu_queue _ Hc _ _ Hin) as (-> & _).
  - intros Ho. exists (qo_deviceSeq o, o). split; [done|].
    by apply list_elem_of_In, elem_of_js_sort, elem_of_map_to_list.
Qed.

#[local] Instance by_key : Comparator (fun a b : Z * QueuedOrder => a.1 <=? b.1).
Proof. split; intros *; rewrite !Z.leb_le; lia. Qed.

Lemma listQueue_ascending (w : World) : custody w -> ascending (listQueue w).
Proof.
  intros Hc. unfold listQueue.
  assert (Hin : forall p, p ∈ js_sort (fun a b : Z * QueuedOrder => a.1 <=? b.1) (map_to_list (w_queue w)) ->
      qo_deviceSeq p.2 = p.1).
  { intros [s o] H%elem_of_js_sort%elem_of_map_to_list. by destruct (cu_queue _ Hc _ _ H). }
  assert (Hnd : NoDup (js_sort (fun a b : Z * QueuedOrder => a.1 <=? b.1) (map_to_list (w_queue w))).*1).
  { rewrite js_sort_perm. apply NoDup_fst_map_to_list. }
  pose proof (js_sort_sorted (fun a b : Z * QueuedOrder => a.1 <=? b.1) (map_to_list (w_queue w))) as Hs.
  revert Hin Hnd Hs. generalize (js_sort (fun a b : Z * QueuedOrder => a.1 <=? b.1) (map_to_list (w_queue w))).
  intros l Hin Hnd Hs. induction Hs as [|p l Hl IH Hp]; cbn; [constructor|].
  cbn in Hnd. apply NoDup_cons in Hnd as [Hn Hnd]. constructor.
  - apply IH; [|done]. intros q Hq. apply Hin. by right.
  - apply Forall_forall. intros o (q & <- & Hq%list_elem_of_In)%list_elem_of_In%in_map_iff.
    rewrite (Hin p) by left. rewrite (Hin q) by by right.
    apply (proj1 (Forall_forall _ _)) with (x := q) in Hp; [|done]. apply Z.leb_le in Hp.
    assert (p.1 <> q.1); [|lia]. intros Heq. apply Hn. rewrite Heq. by apply list_elem_of_fmap_2.
Qed.

Lemma listQueue_in_hand (w : World) : custody w -> in_hand (listQueue w) w.
Proof.
  intros Hc. split; [by apply listQueue_ascending|]. split.
  - rewrite Forall_forall. intros o Ho%listQueue_elem; [|done].
    destruct (cu_queue _ Hc _ _ Ho) as (_ & Hd & o0 & Ha & Hso). split.
    + split; [split; [congruence | eauto]|]. exact (proj1 (cu_kept _ Hc _ _ Ha)).
    + intros o' Ho'. rewrite Ho in Ho'. by injection Ho' as <-.
  - intros s o Ho. right. left. exists o. destruct (cu_queue _ Hc _ _ Ho) as (<- & _).
    split; [|done]. by apply listQueue_elem.
Qed.

(** A whole pass. *)
Lemma drainOnce_safe registryOwner transport w :
  custody w ->
  safe (fun _ => True) (drainOnce registryOwner transport) (fun _ _ => True) (fun _ _ => True) w.
Proof.
  intros Hc. unfold drainOnce. cbv zeta.
  eapply (safe_try _ _ _ (fun _ _ => True)).
  - eapply (safe_bind _ _ _ (fun _ _ => True)).
    { by apply safe_throwing, safe_any. }
    intros config w1 Hc1 _ _.
    eapply (safe_bind _ _ _ (fun l w' => in_hand l w')).
    { apply safe_throwing, safe_op; [done..|]. intros [l|e] w2 Hc2 _ _ Hp; [|done].
      rewrite (Hp l eq_refl). by apply listQueue_in_hand. }
    intros queued w2 Hc2 _ Hh. by apply drain_orders_safe.
  - intros [e flags] w1 Hc1 _ _. by apply safe_ret.
Qed.

Lemma park_orders_safe at_ message queued n w :
  custody w -> Forall (fun o => known o w) queued ->
  safe (fun _ => True) (park_orders at_ message queued n) (fun _ _ => True) (fun _ _ => True) w.
Proof.
  revert n w. induction queued as [|order rest IH]; intros n w Hc Hk; cbn [park_orders]; [by apply safe_ret|].
  apply Forall_cons in Hk as [Hko Hk].
  eapply (safe_bind _ _ _ (fun _ w' => is_Some (w_quarantine w' !! qo_deviceSeq order))).
  { apply safe_op; [done..|]. intros [[]|e] w1 _ _ _ Hp; [|done]. by apply Hp. }
  intros _ w1 Hc1 He1 Hq.
  eapply (safe_bind _ _ _ (fun _ _ => True)); [apply safe_any; [done|by right|done]|].
  intros _ w2 Hc2 He2 _. apply IH; [done|]. eapply Forall_impl; [exact Hk|].
  intros o Ho. cbv beta in Ho. by apply (known_evolves _ _ _ _ He2), (known_evolves _ _ _ _ He1).
Qed.

Lemma quarantineQueue_safe at_ message w :
  custody w ->
  safe (fun _ => True) (quarantineQueue at_ message) (fun _ _ => True) (fun _ _ => True) w.
Proof.
  intros Hc. unfold quarantineQueue.
  eapply (safe_bind _ _ _ (fun l w' => Forall (fun o => known o w') l)).
  - apply safe_op; [done..|]. intros [l|e] w1 Hc1 _ _ Hp; [|done]. rewrite (Hp l eq_refl).
    destruct (listQueue_in_hand w1 Hc1) as (_ & Hs & _). eapply Forall_impl; [exact Hs|].
    by intros o [[Hk _] _].
  - intros l w1 Hc1 _ Hl. by apply park_orders_safe.
Qed.

(** ** The life of a device *)

(** What runs on it: a pass with some client, the parking of the queue, or the
    shell on its own; the choices say how the environment behaves. *)
Inductive activity :=
| ADrain (registryOwner : option BoxRegistryCredentialOwner) (transport : bool) (cs : list choice)
| APark (at_ message : jsstr) (cs : list choice)
| AShell (i : interference).

Definition act (w : World) (a : activity) : World :=
  match a with
  | ADrain registryOwner transport cs => (run perform (drainOnce registryOwner transport) cs w).2
  | APark at_ message cs => (run perform (quarantineQueue at_ message) cs w).2
  | AShell i => interfere w i
  end.

Definition live (activities : list activity) (w : World) : World := fold_left act activities w.

(** A device that was just paired: nothing is stored. *)
Definition paired_device (config : KioskConfig) (nextSeq : Z) : World :=
  {| w_config := Some config; w_tenantId := None; w_archive := ∅; w_queue := ∅; w_quarantine := ∅;
     w_journal := []; w_outcomes := ∅; w_nextSeq := nextSeq; w_accepted := ∅; w_filed := ∅;
     w_journalled := ∅; w_sent := [] |}.

Lemma custody_paired config nextSeq : custody (paired_device config nextSeq).
Proof. by split; cbn; intros *; rewrite ?lookup_empty. Qed.

Lemma safe_run {Y A} (p : prog kiosk_op failure Y A) cs w :
  safe (fun _ => True) p (fun _ _ => True) (fun _ _ => True) w ->
  step_ok (fun _ => True) w (run perform p cs w).2.
Proof.
  intros Hp. pose proof (wp_sound perform (fun _ => True) p _ _ _ w cs Hp) as H.
  destruct (run perform p cs w) as [[[a|x|] cs'] w']; cbn.
  - by destruct H as [H _]; [by apply Forall_forall|].
  - by destruct H as [H _]; [by apply Forall_forall|].
  - apply H. by apply Forall_forall.
Qed.

Lemma act_ok w a : custody w -> step_ok (fun _ => True) w (act w a).
Proof.
  intros Hc. destruct a as [registryOwner transport cs|at_ message cs|i]; cbn [act].
  - by apply safe_run, drainOnce_safe.
  - by apply safe_run, quarantineQueue_safe.
  - by apply step_interfere.
Qed.

Lemma live_ok activities w : custody w -> step_ok (fun _ => True) w (live activities w).
Proof.
  revert w. induction activities as [|a activities IH]; intros w Hc; [by apply step_id|].
  destruct (act_ok w a Hc) as [Hc1 He1]. destruct (IH _ Hc1) as [Hc2 He2].
  split; [exact Hc2|]. by eapply evolves_trans.
Qed.

(** C1: Whatever runs on a paired device, whatever fails or dies on the way
    and whatever the servers answer, an order that was accepted is still in the
    queue with its content, or a server has answered it and the answer was
    journalled, or it is in the quarantine with its content; and an order that
    left the queue never comes back. *)
Theorem no_order_lost (config : KioskConfig) (nextSeq : Z) (before after : list activity) :
  let w := live before (paired_device config nextSeq) in
  let w' := live after w in
  w_accepted w ⊆ w_accepted w' /\
  (forall s o, w_accepted w' !! s = Some o ->
     (exists o', w_queue w' !! s = Some o' /\ same_order o o') \/
     (s ∈ w_filed w' /\ s ∈ w_journalled w') \/
     (exists q, w_quarantine w' !! s = Some q /\ same_order o (qq_order q))) /\
  (forall s, s < w_nextSeq w -> w_queue w !! s = None -> w_queue w' !! s = None).
Proof.
  intros w w'. destruct (live_ok before _ (custody_paired config nextSeq)) as [Hc _].
  destruct (live_ok after w Hc) as [Hc' He]. fold w w' in Hc, Hc', He.
  split; [exact (ev_accepted _ _ _ He)|]. split.
  - intros s o Ho. destruct (cu_kept _ Hc' s o Ho) as [_ [[o' Hq]|[Hset|[q Hq]]]]; [left|by right; left|right; right].
    + exists o'. split; [done|]. destruct (cu_queue _ Hc' s o' Hq) as (_ & _ & o0 & Ha & Hso). congruence.
    + exists q. split; [done|]. destruct (cu_parked _ Hc' s q Hq) as (o0 & Ha & Hso). congruence.
  - intros s Hs Hn. destruct (w_queue w' !! s) as [o'|] eqn:Eq; [|done].
    destruct (ev_queue _ _ _ He s o' Hs Eq) as (o & Ho & _). congruence.
Qed.

(** C2: Whenever a request for an order ([SubmitOrder]) leaves the device, every
    order with a smaller sequence that is still in the queue at that moment is one that
    carries grant evidence, which is sent by another way ([SubmitGrantEvidence], of whose
    requests this does not speak): no order sent by such a request overtakes an ordinary
    one, whatever fails. *)
Theorem no_overtaking (config : KioskConfig) (nextSeq : Z) (activities : list activity)
    (s : Z) (queue : gmap Z QueuedOrder) :
  (s, queue) ∈ w_sent (live activities (paired_device config nextSeq)) ->
  forall s' o', queue !! s' = Some o' -> s' < s -> evidence_order o' = true.
Proof.
  intros Hin. destruct (live_ok activities _ (custody_paired config nextSeq)) as [Hc _].
  exact (proj1 (Forall_forall _ _) (cu_sent _ Hc) _ Hin).
Qed.
End Custody.
