(* ===== verification/KioskDelivery.v ===== *)
(** * A pass that is not disturbed delivers the queue

    When the servers answer and nothing fails, a pass over the kiosk's queue
    ends within eleven operations per order, delivers every order it found and
    takes it out of the queue, whatever earlier passes left behind and whatever
    is queued meanwhile. *)

From stdpp Require Import base list strings gmap sorting.
From Stdlib Require Import ZArith Lia.
From S2P Require Import Prelude KioskApi KioskOutcomes Effects KioskQueue KioskCustody.

(** ** A quiet environment *)

Section Delivery.
Context (digest : CreateOrderDto -> jsstr) (localeCompare : jsstr -> jsstr -> Z)
  (date_parse : jsstr -> option Z).
(** The clock's readings and the server's answers. *)
Context (reading : Z -> Prop) (reply : value -> Prop).

Abbreviation effect := (KioskQueue.effect digest localeCompare date_parse).
Abbreviation perform := (KioskQueue.perform digest localeCompare date_parse).

Definition arrival (i : interference) : Prop := match i with IEnqueue _ => True | _ => False end.

Record quiet (c : choice) : Prop := {
  qu_alive : c_death c = Alive; qu_fine : c_fails c = None;
  qu_arrivals : Forall arrival (c_meanwhile c); qu_time : reading (c_time c); qu_result : reply (c_result c)
}.

(** Sequences are handed out in order. *)
Definition fresh (w : World) : Prop := forall s, is_Some (w_queue w !! s) -> s < w_nextSeq w.

(** What happens to the world during the turn of order [s]. *)
Record moves (s : Z) (w w' : World) : Prop := {
  mv_fresh : fresh w'; mv_next : w_nextSeq w <= w_nextSeq w';
  mv_filed : w_filed w ⊆ w_filed w'; mv_journalled : w_journalled w ⊆ w_journalled w';
  mv_others : forall s', s' <> s -> s' < w_nextSeq w -> w_queue w' !! s' = w_queue w !! s'
}.

Lemma moves_refl s w : fresh w -> moves s w w.
Proof. by split. Qed.

Lemma moves_trans s w w' w'' : moves s w w' -> moves s w' w'' -> moves s w w''.
Proof.
  intros [f1 n1 a1 j1 o1] [f2 n2 a2 j2 o2]. split; [done|lia|set_solver|set_solver|].
  intros s' Hs Hn. rewrite o2 by (done || lia). by apply o1.
Qed.

(** Arrivals leave every order that is there alone. *)
Record arrived (w w' : World) : Prop := {
  ar_fresh : fresh w'; ar_next : w_nextSeq w <= w_nextSeq w';
  ar_filed : w_filed w' = w_filed w; ar_journalled : w_journalled w' = w_journalled w;
  ar_config : w_config w' = w_config w;
  ar_queue : forall s, s < w_nextSeq w -> w_queue w' !! s = w_queue w !! s
}.

Lemma arrived_meanwhile is_ w :
  Forall arrival is_ -> fresh w -> arrived w (fold_left interfere is_ w).
Proof.
  intros Hi. revert w. induction Hi as [|i is_ Hi His IH]; intros w Hf; [by split|].
  cbn [fold_left]. destruct i as [o|c|s at_ message|s]; try destruct Hi. cbn [interfere].
  assert (H : arrived w (enqueue o w)).
  { unfold enqueue. destruct (_ && _); [|by split]. split; cbn; [|lia|done..|].
    - intros s. cbn. destruct (decide (s = w_nextSeq w)) as [->|Hne]; [intros _; lia|].
      rewrite lookup_insert_ne by done. intros H. specialize (Hf s H). lia.
    - intros s Hs. by rewrite lookup_insert_ne by lia. }
  destruct H as [f n a j c q]. destruct (IH _ f) as [f' n' a' j' c' q'].
  split; [done|lia|congruence|congruence|congruence|]. intros s Hs. rewrite q' by lia. by apply q.
Qed.

Lemma quiet_perform {R} (o : kiosk_op R) c w :
  quiet c -> fresh w -> exists w1, arrived w w1 /\
    perform R o c w = (Some (effect o c (attempted o w1)).1, (effect o c (attempted o w1)).2).
Proof.
  intros [Ha Hf Hi _ _] Hw. exists (fold_left interfere (c_meanwhile c) w).
  split; [by apply arrived_meanwhile|]. unfold KioskQueue.perform. rewrite Ha, Hf.
  by destruct (effect o c _).
Qed.

Lemma arrived_moves s w w' : arrived w w' -> moves s w w'.
Proof.
  intros [f n a j c q]. split; [done|done|by rewrite a|by rewrite j|]. intros s' _ Hs. by apply q.
Qed.

Lemma moves_same s w w' :
  fresh w -> w_queue w' = w_queue w -> w_nextSeq w' = w_nextSeq w ->
  w_filed w ⊆ w_filed w' -> w_journalled w ⊆ w_journalled w' -> moves s w w'.
Proof.
  intros Hf Hq Hn Ha Hj. split; [|by rewrite Hn|done|done|by rewrite Hq].
  intros s'. rewrite Hq, Hn. apply Hf.
Qed.

(** The record of [s] is rewritten or removed. *)
Lemma moves_at s (m : gmap Z QueuedOrder) w :
  fresh w -> is_Some (w_queue w !! s) -> (forall s', s' <> s -> m !! s' = w_queue w !! s') ->
  moves s w (set_queue m w).
Proof.
  intros Hf Hs Hm. split; [|done..|by intros s' Hne _; apply Hm].
  intros s' Hs'. cbn in Hs' |- *. destruct (decide (s' = s)) as [->|Hne]; [by apply Hf|].
  rewrite Hm in Hs' by done. by apply Hf.
Qed.

Abbreviation reaches p k Q w := (reach perform quiet p k Q w).

(** One operation of the turn of [s]: what it answers and does. *)
Lemma reaches_op {Y R} (thrown : failure -> Y) (o : kiosk_op R) s (Q : R -> World -> Prop) w :
  fresh w ->
  (forall c w1, quiet c -> arrived w w1 -> exists a w2,
     effect o c (attempted o w1) = (inl a, w2) /\ (moves s w1 w2 -> Q a w2) /\ moves s w1 w2) ->
  reaches (call_as thrown o) 1 (fun a w' => moves s w w' /\ Q a w') w.
Proof.
  intros Hf Ho. apply reach_call. intros c Hc. destruct (quiet_perform o c w Hc Hf) as (w1 & Har & ->).
  destruct (Ho c w1 Hc Har) as (a & w2 & -> & HQ & Hm). exists a, w2. split; [done|]. split; [|auto].
  eapply moves_trans; [by apply arrived_moves | done].
Qed.

(** ** The turn of an order *)

Definition held (s : Z) (pending : bool) (w : World) : Prop :=
  exists o, w_queue w !! s = Some o /\ qo_pending o = pending.

Lemma held_arrived s p w w1 : fresh w -> arrived w w1 -> held s p w -> held s p w1.
Proof.
  intros Hf Ha (o & Ho & Hp). exists o. split; [|done].
  rewrite (ar_queue _ _ Ha); [done|]. apply Hf. eauto.
Qed.

Lemma held_pending s w : held s true w -> exists o, pending_at s w = Some o.
Proof. intros (o & Ho & Hp). exists o. by apply pending_at_Some. Qed.

(** An operation that only answers. *)
Lemma reaches_pure {Y R} (thrown : failure -> Y) (o : kiosk_op R) s p w :
  fresh w -> held s p w ->
  (forall c w1, quiet c -> exists a, effect o c w1 = (inl a, w1)) -> (forall w1, attempted o w1 = w1) ->
  reaches (call_as thrown o) 1 (fun _ w' => moves s w w' /\ held s p w') w.
Proof.
  intros Hf Hh Ho Hat. apply reaches_op; [done|]. intros c w1 Hc Har. rewrite Hat.
  destruct (Ho c w1 Hc) as [a Ha]. exists a, w1. split; [done|]. split.
  - intros _. by apply (held_arrived _ _ w).
  - apply moves_refl, (ar_fresh _ _ Har).
Qed.

Lemma reach_moves {Y A B} (p : prog kiosk_op failure Y A) (f : A -> prog kiosk_op failure Y B) s k j
    (P : A -> World -> Prop) (Q : B -> World -> Prop) w :
  reaches p k (fun a w' => moves s w w' /\ P a w') w ->
  (forall a w', moves s w w' -> P a w' -> reaches (f a) j (fun b w'' => moves s w' w'' /\ Q b w'') w') ->
  reaches (bind p f) (k + j) (fun b w'' => moves s w w'' /\ Q b w'') w.
Proof.
  intros Hp Hf. eapply reach_bind; [exact Hp|]. intros a w' [Hm Ha].
  eapply reach_mono; [by apply Hf|]. intros b w'' [Hm' Hb]. split; [|done]. by eapply moves_trans.
Qed.

Lemma reaches_ret {Y A} (a : A) s (Q : A -> World -> Prop) w :
  fresh w -> Q a w -> reaches (Ret (X:=Y) a) 0 (fun b w' => moves s w w' /\ Q b w') w.
Proof. intros Hf Hq. apply reach_ret. split; [by apply moves_refl | done]. Qed.

Lemma admitted_reaches order w :
  fresh w -> held (qo_deviceSeq order) (qo_pending order) w ->
  reaches (admitted order) 5 (fun r w' => moves (qo_deviceSeq order) w w' /\
    (exists submitted, r = Some submitted /\ evidence_order submitted = evidence_order order
       /\ d_deviceSeq (qo_body submitted) = d_deviceSeq (qo_body order)
       /\ held (qo_deviceSeq order) false w')) w.
Proof.
  intros Hf Hh. unfold admitted. destruct (qo_pending order) eqn:Ep; cbn [negb].
  2:{ eapply reach_more; [apply reaches_ret; [done|]|lia]. by exists order. }
  apply (reach_moves _ _ _ 4 1 (fun r w' => exists body, r = Some body /\
    d_deviceSeq body = d_deviceSeq (qo_body order) /\ held (qo_deviceSeq order) true w')).
  - apply reach_try. unfold request_admission.
    apply (reach_moves _ _ _ 1 3 (fun _ w' => held (qo_deviceSeq order) true w')).
    { destruct (qo_admissionNonce order).
      - eapply reach_more; [by apply reaches_ret | lia].
      - apply (reaches_pure _ _ _ true); [done|done| |done]. intros c w1 _. by eexists. }
    intros nonce w1 Hm1 Hh1. pose proof (mv_fresh _ _ _ Hm1) as Hf1.
    apply (reach_moves _ _ _ 1 2 (fun b w' => b = true /\ held (qo_deviceSeq order) true w')).
    { assert (Hop : reaches (call (PersistAdmissionNonce (qo_deviceSeq order) nonce)) 1
        (fun b w' => moves (qo_deviceSeq order) w1 w' /\ b = true /\ held (qo_deviceSeq order) true w') w1).
      { apply reaches_op; [done|]. intros c w2 Hc Har.
        pose proof (held_arrived _ _ _ _ Hf1 Har Hh1) as Hh2.
        destruct (held_pending _ _ Hh2) as [o Ho]. exists true.
        eexists. split; [cbn; unfold persistAdmissionNonce; by rewrite Ho|].
        apply pending_at_Some in Ho as [Ho Hp].
        assert (Hmv : moves (qo_deviceSeq order) w2
          (set_queue (<[qo_deviceSeq order := set_nonce o nonce]> (w_queue w2)) w2)).
        { apply moves_at; [apply (ar_fresh _ _ Har)|eauto|]. intros s' Hne. by rewrite lookup_insert_ne. }
        split; [|exact Hmv]. intros _. split; [done|].
        exists (set_nonce o nonce). split; [apply lookup_insert_eq | done]. }
      destruct (qo_admissionNonce order) as [[|x n]|]; [exact Hop | | exact Hop].
      eapply reach_more; [by apply reaches_ret | lia]. }
    intros b w2 Hm2 [-> Hh2]. cbn [negb]. cbv zeta. pose proof (mv_fresh _ _ _ Hm2) as Hf2.
    apply (reach_moves _ _ _ 1 1 (fun _ w' => held (qo_deviceSeq order) true w')).
    { apply (reaches_pure _ _ _ true); [done|done| |done]. intros c w3 _. by eexists. }
    intros reserved w3 Hm3 Hh3. pose proof (mv_fresh _ _ _ Hm3) as Hf3.
    apply (reach_moves _ _ _ 1 0 (fun _ w' => held (qo_deviceSeq order) true w')).
    { destruct reserved; [eapply reach_more; [by apply reaches_ret | lia]|].
      apply (reaches_pure _ _ _ true); [done|done| |done]. intros c w4 _. by eexists. }
    intros a w4 Hm4 Hh4. apply reaches_ret; [apply (mv_fresh _ _ _ Hm4)|]. by eexists.
  - intros r w1 Hm1 (body & -> & Hd & Hh1). pose proof (mv_fresh _ _ _ Hm1) as Hf1.
    apply (reach_moves _ _ _ 1 0 (fun b w' => b = true /\ held (qo_deviceSeq order) false w')).
    + apply reaches_op; [done|]. intros c w2 Hc Har.
      pose proof (held_arrived _ _ _ _ Hf1 Har Hh1) as Hh2.
      destruct (held_pending _ _ Hh2) as [o Ho]. exists true.
      eexists. split; [cbn; unfold attestQueuedOrder; by rewrite Ho|].
      apply pending_at_Some in Ho as [Ho Hp].
      assert (Hmv : moves (qo_deviceSeq order) w2
        (set_queue (<[qo_deviceSeq order := set_body o body]> (w_queue w2)) w2)).
      { apply moves_at; [apply (ar_fresh _ _ Har)|eauto|]. intros s' Hne. by rewrite lookup_insert_ne. }
      split; [|exact Hmv]. intros _. split; [done|].
      exists (set_body o body). split; [apply lookup_insert_eq | done].
    + intros b w2 Hm2 [-> Hh2]. apply reaches_ret; [apply (mv_fresh _ _ _ Hm2)|].
      exists (set_body order body). by repeat split.
Qed.

(** An outcome the store takes, whatever it holds. *)
Definition storable (outcome : StoredKioskOutcome) : Prop :=
  is_Some (putOutcome localeCompare outcome ∅).

Lemma storable_put outcome store : storable outcome -> exists store', putOutcome localeCompare outcome store = Some store'.
Proof.
  unfold storable, putOutcome. destruct (normalizedOwner _); [|by intros [? ?]]. cbn [mbind option_bind].
  destruct (idOf _ _); [|by intros [? ?]]. cbn [mbind option_bind].
  destruct (isStored _); cbn [negb]; [eauto | by intros [? ?]].
Qed.

Section Pass.
Context (registryOwner : option BoxRegistryCredentialOwner) (transport : bool)
  (kioskId : option jsstr) (owner : option OutcomeOwner).

(** The server's answers are objects, and the outcomes the pass makes of them are ones the
    store takes: their texts have the lengths and characters [isStored] asks for.  A line
    refused whose code ends in a control character makes one it does not take. *)
Definition answerable (order : QueuedOrder) : Prop :=
  forall t r, reading t -> reply r -> is_nullish r = false /\
    forall ow, owner = Some ow -> storable (answer_outcome ow order (toISOString t) r).

Lemma appendJournal_reaches e s p w :
  fresh w -> held s p w ->
  reaches (appendJournal e) 2 (fun _ w' => moves s w w' /\ held s p w' /\ je_deviceSeq e ∈ w_journalled w') w.
Proof.
  intros Hf Hh. unfold appendJournal.
  apply (reach_moves _ _ _ 1 1 (fun _ w' => held s p w' /\ je_deviceSeq e ∈ w_journalled w')).
  - apply reaches_op; [done|]. intros c w1 Hc Har. exists tt, (add_journal e w1). split; [done|].
    pose proof (held_arrived _ _ _ _ Hf Har Hh) as Hh1.
    assert (Hm : moves s w1 (add_journal e w1)).
    { apply moves_same; [apply (ar_fresh _ _ Har)|done..|cbn; set_solver]. }
    split; [|exact Hm]. intros _. split; [exact Hh1|]. cbn. set_solver.
  - intros _ w1 Hm1 [Hh1 Hj]. pose proof (mv_fresh _ _ _ Hm1) as Hf1.
    apply (reach_moves _ _ _ 1 0 (fun _ w' => held s p w' /\ je_deviceSeq e ∈ w_journalled w')).
    + apply reach_try. change 1%nat with (1 + 0)%nat.
      apply (reach_moves _ _ _ 1 0 (fun _ w' => held s p w' /\ je_deviceSeq e ∈ w_journalled w')).
      * apply reaches_op; [done|]. intros c w2 Hc Har. cbn [KioskQueue.effect attempted].
        assert (Hsame : w_queue (pruneJournal date_parse (je_at e) w2) = w_queue w2 /\
          w_journalled (pruneJournal date_parse (je_at e) w2) = w_journalled w2 /\
          w_filed (pruneJournal date_parse (je_at e) w2) = w_filed w2 /\
          w_nextSeq (pruneJournal date_parse (je_at e) w2) = w_nextSeq w2).
        { unfold pruneJournal. by destruct (date_parse (je_at e)). }
        destruct Hsame as (E1 & E2 & E3 & E4).
        eexists tt, _. split; [done|].
        assert (Hm : moves s w2 (pruneJournal date_parse (je_at e) w2)).
        { apply moves_same; [apply (ar_fresh _ _ Har)|done|done|by rewrite E3|by rewrite E2]. }
        split; [|exact Hm]. intros _. split.
        -- destruct (held_arrived _ _ _ _ Hf1 Har Hh1) as (o & Ho & Hp). exists o. by rewrite E1.
        -- rewrite E2. by rewrite (ar_journalled _ _ Har).
      * intros _ w2 Hm2 Hw2. apply reaches_ret; [apply (mv_fresh _ _ _ Hm2)|done].
    + intros _ w2 Hm2 Hw2. apply reaches_ret; [apply (mv_fresh _ _ _ Hm2)|done].
Qed.

Lemma record_answer_reaches order submitted result w :
  fresh w -> held (qo_deviceSeq order) false w -> answerable order -> reply result ->
  reaches (record_answer kioskId owner order submitted result) 4
    (fun _ w' => moves (qo_deviceSeq order) w w' /\ held (qo_deviceSeq order) false w'
                 /\ qo_deviceSeq order ∈ w_journalled w') w.
Proof.
  intros Hf Hh Ha Hr. unfold record_answer.
  apply (reach_moves _ _ _ 1 3 (fun t w' => reading t /\ held (qo_deviceSeq order) false w')).
  - apply reaches_op; [done|]. intros c w1 Hc Har. exists (c_time c), w1. split; [done|].
    split; [intros _; split; [apply Hc | by apply (held_arrived _ _ w)]|].
    apply moves_refl, (ar_fresh _ _ Har).
  - intros t w1 Hm1 [Ht Hh1]. pose proof (mv_fresh _ _ _ Hm1) as Hf1. cbv zeta.
    destruct (Ha t result Ht Hr) as [-> Hst].
    apply (reach_moves _ _ _ 1 2 (fun _ w' => held (qo_deviceSeq order) false w')).
    + destruct owner as [ow|] eqn:Eo; [|eapply reach_more; [by apply reaches_ret | lia]].
      apply reaches_op; [done|]. intros c w2 Hc Har. cbn [KioskQueue.effect attempted].
      destruct (storable_put _ (w_outcomes w2) (Hst ow eq_refl)) as [outcomes ->].
      exists tt, (set_outcomes outcomes w2). split; [done|].
      split; [intros _; exact (held_arrived _ _ _ _ Hf1 Har Hh1)|].
      by apply moves_same; [apply (ar_fresh _ _ Har)|..].
    + intros _ w2 Hm2 Hh2. apply (appendJournal_reaches (answer_entry kioskId order submitted (toISOString t) result)); [apply (mv_fresh _ _ _ Hm2)|done].
Qed.

Lemma one_order_reaches order d w :
  fresh w -> held (qo_deviceSeq order) (qo_pending order) w -> evidence_order order = false ->
  d_deviceSeq (qo_body order) = qo_deviceSeq order -> answerable order ->
  reaches (one_order registryOwner transport kioskId owner order d) 10
    (fun t w' => moves (qo_deviceSeq order) w w' /\ t = NextOrder true true /\
       held (qo_deviceSeq order) false w' /\
       qo_deviceSeq order ∈ w_filed w' /\ qo_deviceSeq order ∈ w_journalled w') w.
Proof.
  intros Hf Hh He Hd Ha. unfold one_order. apply reach_try. unfold deliver. cbv zeta.
  eapply (reach_moves _ _ _ 5 5).
  { apply reach_try. by apply admitted_reaches. }
  cbv beta. intros r w1 Hm1 (submitted & -> & Hes & Hds & Hh1). pose proof (mv_fresh _ _ _ Hm1) as Hf1.
  apply (reach_moves _ _ _ 0 5 (fun b w' => b = false /\ held (qo_deviceSeq order) false w')).
  { unfold reconcileEvidenceOrder. rewrite Hes, He. cbn [negb]. apply reach_try. by apply reaches_ret. }
  intros b w2 Hm2 [-> Hh2]. pose proof (mv_fresh _ _ _ Hm2) as Hf2.
  apply (reach_moves _ _ _ 1 4 (fun r w' => reply r /\ held (qo_deviceSeq order) false w'
                                 /\ qo_deviceSeq order ∈ w_filed w')).
  { apply reach_try, reaches_op; [done|]. intros c w3 Hc Har.
    set (s := d_deviceSeq (qo_body submitted)).
    exists (c_result c), (file_order s (send_order s w3)). split; [done|].
    split; [|apply moves_same; [apply (ar_fresh _ _ Har)|done..|cbn; set_solver|done]].
    intros _. split; [apply Hc|]. split; [exact (held_arrived _ _ _ _ Hf2 Har Hh2)|].
    unfold s. rewrite Hds, Hd. cbn. set_solver. }
  intros result w3 Hm3 (Hr & Hh3 & Hfl). pose proof (mv_fresh _ _ _ Hm3) as Hf3.
  apply (reach_moves _ _ _ 4 0 (fun _ w' => held (qo_deviceSeq order) false w'
     /\ qo_deviceSeq order ∈ w_journalled w' /\ qo_deviceSeq order ∈ w_filed w')).
  { apply reach_try. eapply reach_mono; [by apply record_answer_reaches|]. cbv beta.
    intros _ w' (Hm & Hh' & Hj). split; [done|]. split; [done|]. split; [done|].
    by apply (mv_filed _ _ _ Hm). }
  intros _ w4 Hm4 (Hh4 & Hj & Hfl4). apply reaches_ret; [apply (mv_fresh _ _ _ Hm4)|]. done.
Qed.

(** An order the pass can deliver. *)
Definition deliverable (order : QueuedOrder) (w : World) : Prop :=
  held (qo_deviceSeq order) (qo_pending order) w /\ evidence_order order = false
  /\ d_deviceSeq (qo_body order) = qo_deviceSeq order /\ answerable order.

Definition delivered_order (s : Z) (w : World) : Prop :=
  w_queue w !! s = None /\ s ∈ w_filed w /\ s ∈ w_journalled w.

Lemma held_moves s s' p w w' : moves s w w' -> s' <> s -> fresh w -> held s' p w -> held s' p w'.
Proof.
  intros Hm Hne Hf (o & Ho & Hp). exists o. split; [|done].
  rewrite (mv_others _ _ _ Hm); [done|done|]. apply Hf. eauto.
Qed.

Lemma delivered_moves s s' w w' :
  moves s w w' -> s' <> s -> s' < w_nextSeq w -> delivered_order s' w -> delivered_order s' w'.
Proof.
  intros Hm Hne Hn (H1 & H2 & H3). split; [by rewrite (mv_others _ _ _ Hm)|].
  split; [by apply (mv_filed _ _ _ Hm) | by apply (mv_journalled _ _ _ Hm)].
Qed.

(** The orders [before] are delivered, the rest is about to be. *)
Lemma drain_orders_reaches queued before d w :
  fresh w -> NoDup (before ++ map qo_deviceSeq queued) ->
  Forall (fun order => deliverable order w) queued ->
  (forall s, s ∈ before -> delivered_order s w /\ s < w_nextSeq w) ->
  reaches (drain_orders registryOwner transport kioskId owner queued d) (11 * length queued)
    (fun flags w' => flags = {| f_delivered := d || (0 <? length queued)%nat; f_unreachable := false |} /\
       forall s, s ∈ before ++ map qo_deviceSeq queued -> delivered_order s w') w.
Proof.
  revert before d w. induction queued as [|order rest IH]; intros before d w Hf Hnd Hq Hb.
  - cbn. apply reach_ret. split; [by rewrite orb_false_r|]. rewrite app_nil_r. intros s Hs. by apply Hb.
  - apply Forall_cons in Hq as [(Hh & He & Hd & Ha) Hq]. cbn [drain_orders].
    replace (11 * length (order :: rest))%nat with (10 + (1 + 11 * length rest))%nat by (cbn; lia).
    set (s := qo_deviceSeq order) in *.
    assert (Hlt : s < w_nextSeq w) by (apply Hf; destruct Hh as (o & ? & _); eauto).
    assert (Hne : forall order', order' ∈ rest -> qo_deviceSeq order' <> s).
    { intros order' Hin Heq. cbn in Hnd. apply NoDup_app in Hnd as (_ & _ & Hnd).
      apply NoDup_cons in Hnd as [Hnd _]. apply Hnd. fold s. rewrite <- Heq.
      apply list_elem_of_In, in_map, list_elem_of_In, Hin. }
    assert (Hneb : forall s', s' ∈ before -> s' <> s).
    { intros s' Hin ->. apply NoDup_app in Hnd as (_ & Hnd & _). apply (Hnd s Hin). left. }
    eapply reach_bind; [apply reach_try; by apply one_order_reaches|].
    cbv beta. intros t w1 (Hm1 & -> & Hh1 & Hfl & Hj). fold s in Hm1, Hh1, Hfl, Hj.
    pose proof (mv_fresh _ _ _ Hm1) as Hf1.
    eapply (reach_bind _ _ _ _ _ _ (fun _ w' => moves s w1 w' /\ delivered_order s w')).
    + apply reach_try. apply reaches_op; [done|]. intros c w2 Hc Har.
      exists tt, (set_queue (delete s (w_queue w2)) w2). split; [done|].
      destruct (held_arrived _ _ _ _ Hf1 Har Hh1) as (o & Ho & _).
      split.
      * intros Hm. split; [cbn; apply lookup_delete_eq|]. cbn.
        by rewrite (ar_filed _ _ Har), (ar_journalled _ _ Har).
      * apply moves_at; [apply (ar_fresh _ _ Har)|eauto|]. intros s' Hs'. by rewrite lookup_delete_ne.
    + intros _ w2 [Hm2 Hdel]. pose proof (moves_trans _ _ _ _ Hm1 Hm2) as Hm.
      pose proof (mv_next _ _ _ Hm) as Hn.
      eapply reach_mono; [apply (IH (before ++ [s]) true)|].
      * apply (mv_fresh _ _ _ Hm).
      * by rewrite <- app_assoc.
      * rewrite Forall_forall in Hq |- *. intros order' Hin. destruct (Hq order' Hin) as (H1 & H2).
        split; [|done]. eapply held_moves; [exact Hm|by apply Hne|done|done].
      * intros s' Hin. apply elem_of_app in Hin as [Hin|Hin];
          [|apply list_elem_of_singleton in Hin as ->; split; [done|lia]].
        destruct (Hb s' Hin) as [H1 H2]. split; [|lia].
        eapply delivered_moves; [exact Hm|by apply Hneb|done|done].
      * cbv beta. intros flags w3 [-> Hall]. split; [by rewrite orb_true_r|].
        intros s' Hs'. apply Hall. by rewrite <- app_assoc.
Qed.
End Pass.

(** ** A whole pass *)

Lemma fresh_custody w : custody w -> fresh w.
Proof.
  intros Hc s [o Ho]. destruct (cu_queue _ Hc _ _ Ho) as (_ & _ & o0 & Ha & _).
  exact (proj1 (cu_kept _ Hc _ _ Ha)).
Qed.

Lemma readConfig_same fresh_id w :
  let '(config, w1) := readConfig fresh_id w in
  w_queue w1 = w_queue w /\ w_nextSeq w1 = w_nextSeq w.
Proof.
  unfold readConfig. destruct (w_config w) as [c|]; [|done].
  destruct (kc_token c) as [[|x t]|]; try done. by destruct (credentialGenerationOf _).
Qed.

(** C3: On a device with any history, suppose that the servers answer a pass, that nothing
    fails and nothing happens before it has listed the queue, that no order in the queue carries evidence of a grant, and that the outcome
    of every order in the queue can be stored under any answer the server may give
    ([answerable]: which excludes the order of the finding on [codeTail], whose outcome
    the store refuses, so that it stays queued for ever).  Then the pass ends within two operations and
    eleven more for each order it finds, reports a delivery when there was an order and
    no outage, and every order that was in the queue when it listed it is answered, journalled and gone
    from it, whatever is queued while it runs. *)
Theorem undisturbed_pass_delivers (config : KioskConfig) (nextSeq : Z) (history : list activity)
    (registryOwner : option BoxRegistryCredentialOwner) (transport : bool)
    (c1 c2 : choice) (cs : list choice) :
  let w := live digest localeCompare date_parse history (paired_device config nextSeq) in
  let owner := (readConfig (c_uuid c1) w).1 ≫= outcomeOwnerOf in
  quiet c1 -> quiet c2 -> c_meanwhile c1 = [] -> c_meanwhile c2 = [] -> Forall quiet cs ->
  (forall s o, w_queue w !! s = Some o -> evidence_order o = false /\ answerable owner o) ->
  (11 * size (w_queue w) <= length cs)%nat ->
  exists rest w',
    run perform (drainOnce registryOwner transport) (c1 :: c2 :: cs) w
      = (Done {| f_delivered := (0 <? size (w_queue w))%nat; f_unreachable := false |}, rest, w') /\
    forall s, is_Some (w_queue w !! s) -> delivered_order s w'.
Proof.
  intros w owner [Ha1 Hf1 _ _ _] [Ha2 Hf2 _ _ _] Hm1 Hm2 Hcs Hq Hlen.
  destruct (live_ok digest localeCompare date_parse history _ (custody_paired config nextSeq)) as [Hc _].
  fold w in Hc. pose proof (readConfig_same (c_uuid c1) w) as Hsame.
  destruct (readConfig (c_uuid c1) w) as [cfg w1] eqn:Er. cbn [fst] in owner.
  destruct Hsame as [Hqs Hns].
  assert (Hp1 : perform _ ReadConfig c1 w = (Some (inl cfg), w1)).
  { unfold KioskQueue.perform. rewrite Hm1, Ha1, Hf1. cbn. by rewrite Er. }
  assert (Hp2 : perform _ ListQueue c2 w1 = (Some (inl (listQueue w)), w1)).
  { unfold KioskQueue.perform. rewrite Hm2, Ha2, Hf2. cbn. unfold listQueue. by rewrite Hqs. }
  unfold drainOnce. cbn [run bind try_catch throwing call call_as]. rewrite Hp1.
  cbn [run bind try_catch throwing call call_as]. rewrite Hp2. cbn [run bind try_catch].
  set (kiosk := cfg ≫= kc_kioskId).
  assert (Hfw : fresh w1).
  { intros s. rewrite Hqs, Hns. by apply (fresh_custody w). }
  pose proof (listQueue_ascending w Hc) as Hasc.
  assert (Hlq : length (listQueue w) = size (w_queue w)).
  { unfold listQueue. rewrite length_map, (Permutation_length (js_sort_perm _ _)). apply length_map_to_list. }
  pose proof (drain_orders_reaches registryOwner transport kiosk owner (listQueue w) [] false w1 Hfw) as Hr.
  cbn [app orb] in Hr. rewrite Hlq in Hr.
  destruct (reach_run (Y := Empty_set) perform quiet (try_catch (drain_orders registryOwner transport kiosk owner (listQueue w) false)
     (fun '(_, flags) => Ret flags)) (11 * size (w_queue w))
     (fun flags w' => flags = {| f_delivered := (0 <? size (w_queue w))%nat; f_unreachable := false |} /\
       forall s, s ∈ map qo_deviceSeq (listQueue w) -> delivered_order s w') w1 cs)
    as (flags & rest & w' & Hrun & -> & Hall); [|done|done|].
  - apply reach_try. apply Hr.
    + clear -Hasc. induction Hasc as [|o l Hl IH Ho]; cbn; constructor; [|done].
      intros (k & Hk & Hin%list_elem_of_In)%list_elem_of_In%in_map_iff.
      apply (proj1 (Forall_forall _ _)) with (x := k) in Ho; [lia|done].
    + apply Forall_forall. intros o Ho%listQueue_elem; [|done].
      destruct (Hq _ _ Ho) as [He Hans]. destruct (cu_queue _ Hc _ _ Ho) as (_ & Hd & _).
      split; [|done]. exists o. by rewrite Hqs.
    + intros s Hs. by apply not_elem_of_nil in Hs.
  - exists rest, w'. split; [exact Hrun|]. intros s [o Ho]. apply Hall.
    apply list_elem_of_In, in_map_iff. exists o. destruct (cu_queue _ Hc _ _ Ho) as (Hs & _).
    split; [done|]. apply list_elem_of_In, listQueue_elem; [done|]. by rewrite Hs.
Qed.
End Delivery.

(** ** A run *)

Definition sample_config : KioskConfig :=
  {| kc_serverUrl := js "https://m.example"; kc_token := Some (js "t");
     kc_kioskId := Some (js "11111111-1111-4111-8111-111111111111");
     kc_generation := Some (js "22222222-2222-4222-8222-222222222222") |}.

Definition sample_order (s : Z) (pending : bool) : QueuedOrder :=
  {| qo_deviceSeq := s; qo_employeeId := Some (js "33333333-3333-4333-8333-333333333333");
     qo_body := {| d_deviceSeq := s; d_badge := BadgeDigest (js "d"); d_reason := Buy;
                   d_writeoffReasonId := None; d_items := [js "km"]; d_boxes := None;
                   d_createdAt := Some (js "2026-01-01T00:00:00.000Z"); d_admissionNonce := None;
                   d_admissionProof := None |};
     qo_pending := pending; qo_admissionNonce := None; qo_estimatedBottleCount := None;
     qo_evidenceProtocol := false; qo_grantEvidence := None; qo_evidenceEnvelope := None |}.

Definition sample_result : value :=
  VObj [(js "orderNo", VStr (js "A-1")); (js "status", VStr (js "pending"));
        (js "itemCount", VNum (num 1)); (js "conflicts", VArr [])].

Definition sample_time : Z := 1767225600000.

Definition good_choice : choice :=
  {| c_meanwhile := []; c_death := Alive; c_fails := None; c_uuid := js "nonce"; c_time := sample_time;
     c_reservation := None; c_admission := {| ad_claimedAt := js "2026-01-01T00:00:00.000Z"; ad_proof := js "p" |};
     c_result := sample_result;
     c_receipt := {| rc_batchId := []; rc_quarantined := false; rc_status := []; rc_statusCode := None;
                     rc_result := VNull; rc_reason := None |} |}.

Definition failing_choice (e : failure) : choice :=
  {| c_meanwhile := []; c_death := Alive; c_fails := Some e; c_uuid := js "nonce"; c_time := sample_time;
     c_reservation := None; c_admission := c_admission good_choice; c_result := VNull;
     c_receipt := c_receipt good_choice |}.

(** An order is queued and the connection is lost while it is attested; a
    second one is queued, and the process dies right after its submission. *)
Definition sample_history : list activity :=
  [AShell (IEnqueue (sample_order 0 true));
   ADrain None false (replicate 5 good_choice ++ [failing_choice NetworkError]);
   AShell (IEnqueue (sample_order 1 false));
   ADrain None false (replicate 10 good_choice)].

Abbreviation sample_live :=
  (live (fun _ => []) InventoryScan.unit_compare (fun _ => None) sample_history (paired_device sample_config 0)).

Lemma no_overtaking_witness :
  exists queue, (0, queue) ∈ w_sent sample_live /\ size queue = 2%nat /\
    forall s' o', queue !! s' = Some o' -> s' < 0 -> evidence_order o' = true.
Proof.
  destruct (w_sent sample_live !! 0%nat) as [[s queue]|] eqn:E; [|vm_compute in E; discriminate].
  assert (Hs : (fun x => (x.1, size x.2)) <$> (w_sent sample_live !! 0%nat) = Some (0, 2%nat))
    by (vm_compute; reflexivity).
  rewrite E in Hs. cbn in Hs. injection Hs as -> Hsize.
  exists queue. assert (Hin : (0, queue) ∈ w_sent sample_live) by (by eapply list_elem_of_lookup_2).
  split; [exact Hin|]. split; [exact Hsize|].
  exact (no_overtaking (fun _ => []) InventoryScan.unit_compare (fun _ => None) sample_config 0
           sample_history 0 queue Hin).
Defined.

Lemma sample_quiet : quiet (fun t => t = sample_time) (fun r => r = sample_result) good_choice.
Proof. by split. Qed.

Lemma sample_queue_answerable s o :
  w_queue sample_live !! s = Some o ->
  evidence_order o = false /\
  answerable InventoryScan.unit_compare (fun t => t = sample_time) (fun r => r = sample_result)
    (Some sample_owner) o.
Proof.
  intros Ho%elem_of_map_to_list. set (l := map_to_list (w_queue sample_live)) in Ho. vm_compute in l. subst l.
  assert (H : evidence_order o = false /\
    is_Some (putOutcome InventoryScan.unit_compare
      (answer_outcome sample_owner o (toISOString sample_time) sample_result) ∅)).
  { repeat (apply elem_of_cons in Ho as [[= -> ->]|Ho];
      [split; [vm_compute; reflexivity|]; apply is_Some_alt; vm_compute; exact I|]).
    by apply not_elem_of_nil in Ho. }
  destruct H as [H1 H2]. split; [exact H1|]. intros t r -> ->. split; [reflexivity|].
  by intros ow <-%(inj Some).
Qed.

Lemma undisturbed_pass_delivers_witness :
  exists rest w',
    run (perform (fun _ => []) InventoryScan.unit_compare (fun _ => None))
      (drainOnce None false) (good_choice :: good_choice :: replicate 22 good_choice) sample_live
      = (Done {| f_delivered := true; f_unreachable := false |}, rest, w') /\
    delivered_order 0 w' /\ delivered_order 1 w'.
Proof.
  destruct (undisturbed_pass_delivers (fun _ => []) InventoryScan.unit_compare (fun _ => None)
    (fun t => t = sample_time) (fun r => r = sample_result) sample_config 0 sample_history None false
    good_choice good_choice (replicate 22 good_choice)) as (rest & w' & Hrun & Hall).
  - exact sample_quiet.
  - exact sample_quiet.
  - reflexivity.
  - reflexivity.
  - apply Forall_replicate, sample_quiet.
  - assert (Ho : (readConfig (c_uuid good_choice) sample_live).1 ≫= outcomeOwnerOf = Some sample_owner)
      by (vm_compute; reflexivity).
    rewrite Ho. exact sample_queue_answerable.
  - rewrite length_replicate. vm_compute. lia.
  - exists rest, w'. split.
    + rewrite Hrun. do 3 f_equal.
    + split; apply Hall; apply is_Some_alt; vm_compute; exact I.
Defined.
