(* ===== verification/KioskRetry.v ===== *)
(** * Whose turn it is to drain, and when to try again

    [flushQueue], [scheduleRetry], [resetRetry] and [cancelFlushRetry] of
    [apps/kiosk/src/sync/worker.ts], with the [finally] of [drainOnce].  The
    module's variables are the fields of [Flush]; the promises of the drains are
    numbered in the order of the calls, and the steps interleave the calls of
    the shell, the timer, and what the drains and the chain of promises do. *)

From stdpp Require Import base list relations.
From Stdlib Require Import ZArith Lia.
From S2P Require Import Prelude KioskQueue.

(** ** The module's variables *)

(** The promise of a call: chained behind the tail [on], inside [drainOnce]
    (entered at an epoch), returned from it, resolved. *)
Inductive drain_status :=
| Waiting (on : nat)
| Running (startedAt : nat)
| Finished
| Settled.

#[export] Instance drain_status_eq_dec : EqDecision drain_status.
Proof. solve_decision. Defined.

Record Flush := {
  drains : list drain_status; draining : option nat;
  retryDelayMs : Z; retryTimer : option Z; retryEpoch : nat
}.

Definition RETRY_BASE_MS : Z := 1000.
Definition RETRY_MAX_MS : Z := 60000.

Definition idle : Flush :=
  {| drains := []; draining := None; retryDelayMs := RETRY_BASE_MS; retryTimer := None; retryEpoch := 0 |}.

Definition resetRetry (st : Flush) : Flush :=
  {| drains := drains st; draining := draining st; retryDelayMs := RETRY_BASE_MS; retryTimer := None;
     retryEpoch := retryEpoch st |}.

Definition cancelFlushRetry (st : Flush) : Flush :=
  resetRetry {| drains := drains st; draining := draining st; retryDelayMs := retryDelayMs st;
                retryTimer := retryTimer st; retryEpoch := S (retryEpoch st) |}.

Definition scheduleRetry (st : Flush) : Flush :=
  match retryTimer st with
  | Some _ => st
  | None =>
      {| drains := drains st; draining := draining st;
         retryDelayMs := Z.min (retryDelayMs st * 2) RETRY_MAX_MS;
         retryTimer := Some (retryDelayMs st); retryEpoch := retryEpoch st |}
  end.

(** The [finally] of [drainOnce]. *)
Definition settle (startedAt : nat) (flags : Flags) (st : Flush) : Flush :=
  if (retryEpoch st =? startedAt)%nat then
    let st := if f_delivered flags then resetRetry st else st in
    if f_unreachable flags then scheduleRetry st else st
  else st.

Definition set_status (n : nat) (s : drain_status) (st : Flush) : Flush :=
  {| drains := <[n := s]> (drains st); draining := draining st; retryDelayMs := retryDelayMs st;
     retryTimer := retryTimer st; retryEpoch := retryEpoch st |}.

(** [flushQueue]: a drain of its own, at once when none is owed. *)
Definition flushQueue (st : Flush) : Flush :=
  {| drains := drains st ++ [match draining st with
       | None => Running (retryEpoch st) | Some tail => Waiting tail end];
     draining := Some (length (drains st));
     retryDelayMs := retryDelayMs st; retryTimer := retryTimer st; retryEpoch := retryEpoch st |}.

(** [if (draining === tail) draining = null]. *)
Definition settle_tail (n : nat) (st : Flush) : Flush :=
  {| drains := <[n := Settled]> (drains st);
     draining := if bool_decide (draining st = Some n) then None else draining st;
     retryDelayMs := retryDelayMs st; retryTimer := retryTimer st; retryEpoch := retryEpoch st |}.

(** What the drains do by themselves. *)
Inductive drain_step (st : Flush) : Flush -> Prop :=
| DFinish n startedAt flags :
    drains st !! n = Some (Running startedAt) ->
    drain_step st (set_status n Finished (settle startedAt flags st))
| DTail n :
    drains st !! n = Some Finished -> drain_step st (settle_tail n st)
| DStart n tail :
    drains st !! n = Some (Waiting tail) -> drains st !! tail = Some Settled ->
    drain_step st (set_status n (Running (retryEpoch st)) st).

Inductive flush_step (st : Flush) : Flush -> Prop :=
| FCall : flush_step st (flushQueue st)
| FTimer delay :
    retryTimer st = Some delay ->
    flush_step st (flushQueue
      {| drains := drains st; draining := draining st; retryDelayMs := retryDelayMs st;
         retryTimer := None; retryEpoch := retryEpoch st |})
| FCancel : flush_step st (cancelFlushRetry st)
| FDrain st' : drain_step st st' -> flush_step st st'.

(** ** The chain *)


Lemma settle_drains startedAt flags st :
  drains (settle startedAt flags st) = drains st /\ draining (settle startedAt flags st) = draining st
  /\ retryEpoch (settle startedAt flags st) = retryEpoch st.
Proof.
  unfold settle. destruct (_ =? _)%nat; [|done]. cbv zeta.
  destruct (f_delivered flags), (f_unreachable flags); unfold scheduleRetry, resetRetry; cbn;
    try (by destruct (retryTimer st)); done.
Qed.








(** ** Progress *)








(** ** The backoff *)

Definition backoff_ok (st : Flush) : Prop :=
  RETRY_BASE_MS <= retryDelayMs st <= RETRY_MAX_MS /\
  forall delay, retryTimer st = Some delay -> RETRY_BASE_MS <= delay <= RETRY_MAX_MS.

Lemma backoff_same st st' :
  retryDelayMs st' = retryDelayMs st -> (retryTimer st' = retryTimer st \/ retryTimer st' = None) ->
  backoff_ok st -> backoff_ok st'.
Proof.
  intros Hd Ht [H1 H2]. split; [by rewrite Hd|]. intros delay Hdl. apply H2.
  destruct Ht as [Ht|Ht]; congruence.
Qed.

Lemma backoff_reset st : backoff_ok (resetRetry st).
Proof. split; [change (1000 <= 1000 <= 60000); lia | done]. Qed.

Lemma backoff_schedule st : backoff_ok st -> backoff_ok (scheduleRetry st).
Proof.
  intros [H1 H2]. unfold scheduleRetry. destruct (retryTimer st) as [d|] eqn:Et.
  - by split; [|rewrite Et].
  - split; cbn [retryDelayMs retryTimer]; unfold RETRY_BASE_MS, RETRY_MAX_MS in *; [lia|].
    by intros delay [= <-].
Qed.

Lemma backoff_settle startedAt flags st : backoff_ok st -> backoff_ok (settle startedAt flags st).
Proof.
  intros H. unfold settle. destruct (_ =? _)%nat; [|done]. cbv zeta.
  destruct (f_delivered flags), (f_unreachable flags); auto using backoff_reset, backoff_schedule.
Qed.

Lemma backoff_step st st' : backoff_ok st -> flush_step st st' -> backoff_ok st'.
Proof.
  intros H [| delay Ht | | st'' [n e flags Hn|n Hn|n tail Hn Ht]].
  - eapply backoff_same; [..|exact H]; auto.
  - eapply backoff_same; [..|exact H]; auto.
  - apply backoff_reset.
  - eapply backoff_same; [..|by apply (backoff_settle e flags)]; auto.
  - eapply backoff_same; [..|exact H]; auto.
  - eapply backoff_same; [..|exact H]; auto.
Qed.

(** A pass that runs began at an epoch of the past. *)
Definition epochs_ok (st : Flush) : Prop :=
  forall n e, drains st !! n = Some (Running e) -> (e <= retryEpoch st)%nat.

Lemma epochs_set n s st :
  epochs_ok st -> (forall e, s = Running e -> (e <= retryEpoch st)%nat) -> epochs_ok (set_status n s st).
Proof.
  intros H Hs m e. cbn. intros [(_ & Heq & _)|[_ Hm]]%list_lookup_insert_Some; [by apply Hs|].
  by apply (H m).
Qed.

Lemma epochs_step st st' : epochs_ok st -> flush_step st st' -> epochs_ok st'.
Proof.
  intros H Hs.
  assert (Hcall : forall st1, drains st1 = drains st -> retryEpoch st1 = retryEpoch st ->
      epochs_ok (flushQueue st1)).
  { intros st1 Hd He n e. cbn. rewrite Hd, He. intros Hn. destruct (decide (n < length (drains st))%nat).
    - rewrite lookup_app_l in Hn by done. by apply (H n).
    - rewrite lookup_app_r in Hn by lia. destruct (n - length (drains st))%nat as [|k]; [|done].
      cbn in Hn. destruct (draining st1); [done|]. injection Hn as <-. done. }
  destruct Hs as [| delay Ht | | st'' [n e flags Hn|n Hn|n tail Hn Ht]].
  - by apply Hcall.
  - by apply Hcall.
  - intros n e Hn. specialize (H n e Hn). cbn. lia.
  - destruct (settle_drains e flags st) as (E1 & E2 & E3). apply epochs_set; [|done].
    intros m f. rewrite E1, E3. apply H.
  - intros m e. cbn. intros [(_ & Heq & _)|[_ Hm]]%list_lookup_insert_Some; [done|]. by apply (H m).
  - apply epochs_set; [done|]. by intros e [= <-].
Qed.

Lemma reachable_ind (P : Flush -> Prop) st :
  P idle -> (forall st1 st2, P st1 -> flush_step st1 st2 -> P st2) -> rtc flush_step idle st -> P st.
Proof. intros H0 Hs. apply rtc_ind_r; [done|]. intros st1 st2 _ Hstep H1. by eapply Hs. Qed.

(** At every moment the delay of the next retry and of the armed one lie
    between one second and one minute; a cancelled schedule is back at the
    base, and no pass that began before the cancellation arms it again; a pass
    that reaches no server while nothing is armed arms the next delay and
    doubles it up to the bound, and after a delivery it starts over. *)
Theorem retry_backoff (st : Flush) (n startedAt : nat) (flags : Flags)
    (Hreach : rtc flush_step idle st) (Hrun : drains st !! n = Some (Running startedAt)) :
  (RETRY_BASE_MS <= retryDelayMs st <= RETRY_MAX_MS) /\
  (forall delay, retryTimer st = Some delay -> RETRY_BASE_MS <= delay <= RETRY_MAX_MS) /\
  (let cancelled := cancelFlushRetry st in
   retryTimer cancelled = None /\ retryDelayMs cancelled = RETRY_BASE_MS /\
   settle startedAt flags cancelled = cancelled) /\
  (startedAt = retryEpoch st ->
   (f_delivered flags = false -> f_unreachable flags = true -> retryTimer st = None ->
    retryTimer (settle startedAt flags st) = Some (retryDelayMs st) /\
    retryDelayMs (settle startedAt flags st) = Z.min (2 * retryDelayMs st) RETRY_MAX_MS) /\
   (f_delivered flags = true ->
    retryTimer (settle startedAt flags st)
      = (if f_unreachable flags then Some RETRY_BASE_MS else None) /\
    retryDelayMs (settle startedAt flags st)
      = (if f_unreachable flags then 2 * RETRY_BASE_MS else RETRY_BASE_MS))).
Proof.
  assert (Hb : backoff_ok st).
  { apply (reachable_ind backoff_ok); [apply (backoff_reset idle)|exact backoff_step|done]. }
  assert (He : epochs_ok st).
  { apply (reachable_ind epochs_ok); [by intros m e Hm; destruct m|exact epochs_step|done]. }
  destruct Hb as [H1 H2]. split; [exact H1|]. split; [exact H2|]. split.
  - cbv zeta. split; [done|]. split; [done|]. unfold settle. cbn [retryEpoch cancelFlushRetry resetRetry].
    specialize (He _ _ Hrun). by destruct (Nat.eqb_spec (S (retryEpoch st)) startedAt); [lia|].
  - intros ->. unfold settle. rewrite Nat.eqb_refl. cbv zeta. split.
    + intros -> -> Ht. unfold scheduleRetry. rewrite Ht. cbn. split; [done | f_equal; lia].
    + intros ->. by destruct (f_unreachable flags).
Qed.

(** Two calls; the first pass reaches nothing and the timer is armed; it fires. *)
Definition sample_flush : Flush :=
  let unreachable := {| f_delivered := false; f_unreachable := true |} in
  let st := settle_tail 0 (set_status 0 Finished (settle 0 unreachable (flushQueue idle))) in
  flushQueue {| drains := drains st; draining := draining st; retryDelayMs := retryDelayMs st;
                retryTimer := None; retryEpoch := retryEpoch st |}.

Lemma retry_backoff_witness :
  rtc flush_step idle sample_flush /\ drains sample_flush !! 1%nat = Some (Running 0) /\
  retryTimer (settle 0 {| f_delivered := false; f_unreachable := true |} sample_flush) = Some 2000.
Proof.
  assert (Hr : rtc flush_step idle sample_flush).
  { eapply rtc_l; [apply FCall|]. eapply rtc_l.
    { apply FDrain, (DFinish _ 0 0 {| f_delivered := false; f_unreachable := true |}). reflexivity. }
    eapply rtc_l; [apply FDrain, (DTail _ 0); reflexivity|].
    eapply rtc_l; [by apply (FTimer _ 1000)|]. apply rtc_refl. }
  split; [exact Hr|]. split; [reflexivity|].
  pose proof (retry_backoff sample_flush 1 0 {| f_delivered := false; f_unreachable := true |} Hr eq_refl)
    as (_ & _ & _ & H).
  exact (proj1 (proj1 (H eq_refl) eq_refl eq_refl eq_refl)).
Defined.
