(* ===== verification/KioskRegistry.v ===== *)
(** * The offline box registry of a kiosk

    [apps/kiosk/src/store/box-registry.ts] and [writeConfig] of
    [store/config.ts].  A kiosk knows the contents of closed boxes from a
    registry it downloads in pages: the pages of one refresh are staged under a
    cut (whose credential, from which revision to which), and the last page
    activates them all in one transaction.

    The object stores are the fields of [Registry]; each operation is a function
    on them, and [None] is the exception or the aborted transaction that leaves
    them as they were.  [System] adds, for the theorems, what each refresh under
    way has been sent so far; [sys_step] is one transaction of one of them, or of
    the user interface, in any order.  The invariant: what is active is the
    server's registry at the revision the store names. *)

From stdpp Require Import base list strings gmap sorting relations.
From Stdlib Require Import ZArith QArith Lia.
From S2P Require Import Prelude Gs1 KioskApi KioskCart KioskQueue.

#[local] Open Scope Z_scope.

(** ** Data *)

(** What the registry says of one box. *)
Record BoxContent := {
  bx_boxId : jsstr; bx_productId : jsstr; bx_bottleCount : Z; bx_contentKeys : list jsstr;
  bx_updatedAt : jsstr
}.

#[export] Instance BoxContent_eq_dec : EqDecision BoxContent.
Proof. solve_decision. Defined.

Inductive KioskBoxRegistryChange :=
| Upsert (sscc : jsstr) (box : BoxContent)
| Remove (sscc updatedAt : jsstr).

#[export] Instance KioskBoxRegistryChange_eq_dec : EqDecision KioskBoxRegistryChange.
Proof. solve_decision. Defined.

Definition ch_sscc (change : KioskBoxRegistryChange) : jsstr :=
  match change with Upsert sscc _ | Remove sscc _ => sscc end.

Record BoxRegistryMeta := {
  bm_owner : BoxRegistryCredentialOwner; bm_version : jsstr; bm_generatedAt : jsstr
}.

Record BoxRegistryCut := {
  cut_credential : BoxRegistryCredentialOwner; cut_owner : jsstr; cut_since : option jsstr;
  cut_until : jsstr
}.

Record Registry := {
  rg_config : option KioskConfig;
  rg_active : gmap jsstr StoredBoxRegistryRow; rg_activeMeta : option BoxRegistryMeta;
  rg_staging : gmap jsstr KioskBoxRegistryChange; rg_stagingMeta : option BoxRegistryCut
}.

Definition MAX_REVISION : Z := 9223372036854775807.
Definition MAX_PAGE_ITEMS : nat := 500.
Definition MAX_CONTENT_KEYS : Z := 1000.
Definition MAX_STRING_BYTES : Z := 1024.
Definition MAX_PAGE_BYTES : Z := 1024 * 1024.

(** ** Checks *)

(** [/^(0|[1-9][0-9]{0,18})$/] and the bound on [BigInt(value)]. *)
Definition is_revision (s : jsstr) : bool :=
  match s with
  | [] => false
  | [48] => true
  | c :: rest => negb (c =? 48) && forallb is_digit s && (length rest <=? 18)%nat
  end && (digits_value s <=? MAX_REVISION).

Definition checkedCut (value : BoxRegistryCut) : option BoxRegistryCut :=
  credential ← owner_of_owner (cut_credential value);
  if (length (cut_owner value) =? 0)%nat || (128 <? length (cut_owner value))%nat then None
  else if negb (forallb is_revision (option_list (cut_since value))) then None
  else if negb (is_revision (cut_until value)) then None
  else match cut_since value with
       | Some since =>
           if digits_value (cut_until value) <? digits_value since then None
           else Some {| cut_credential := credential; cut_owner := cut_owner value;
                        cut_since := Some since; cut_until := cut_until value |}
       | None => Some {| cut_credential := credential; cut_owner := cut_owner value;
                         cut_since := None; cut_until := cut_until value |}
       end.

Definition sameCut (left : option BoxRegistryCut) (right : BoxRegistryCut) : bool :=
  match left with
  | None => false
  | Some candidate =>
      jseqb (cut_owner candidate) (cut_owner right)
      && bool_decide (cut_since candidate = cut_since right)
      && jseqb (cut_until candidate) (cut_until right)
      && sameBoxRegistryCredentialOwner (owner_of_owner (cut_credential candidate))
           (Some (cut_credential right))
  end.

Section Registry.
(** [Date.parse]; [None] is [NaN]. *)
Context (date_parse : jsstr -> option Z).

Definition readable_date (s : jsstr) : bool :=
  match date_parse s with Some _ => true | None => false end.

Definition checkedMeta (value : option BoxRegistryMeta) : option BoxRegistryMeta :=
  candidate ← value; owner ← owner_of_owner (bm_owner candidate);
  if negb (readable_date (bm_generatedAt candidate)) || negb (is_revision (bm_version candidate))
  then None
  else Some {| bm_owner := owner; bm_version := bm_version candidate;
               bm_generatedAt := bm_generatedAt candidate |}.

(** [count]: the running number of bytes, or its exception. *)
Definition count_bytes (v : value) (bytes : Z) : option Z :=
  match v with
  | VStr s =>
      if MAX_STRING_BYTES <? Z.of_nat (length s) then None
      else
        let size := Z.of_nat (length (utf8_encode s)) in
        if (MAX_STRING_BYTES <? size) || (MAX_PAGE_BYTES <? bytes + size) then None
        else Some (bytes + size)
  | _ => None
  end.

Fixpoint count_all (vs : list value) (bytes : Z) : option Z :=
  match vs with
  | [] => Some bytes
  | v :: vs' => bytes' ← count_bytes v bytes; count_all vs' bytes'
  end.

(** One turn of the loop of [preflightPage]: the bytes and content keys so far. *)
Definition preflight_change (v : value) (counts : Z * Z) : option (Z * Z) :=
  let '(bytes, contentKeyCount) := counts in
  if negb (is_object v) then None
  else
    bytes ← count_all [get (js "kind") v; get (js "sscc") v; get (js "updatedAt") v] bytes;
    if is_str (js "upsert") (get (js "kind") v) then
      bytes ← count_all [get (js "boxId") v; get (js "productId") v] bytes;
      match get (js "contentKeys") v with
      | VArr keys =>
          let contentKeyCount := contentKeyCount + Z.of_nat (length keys) in
          if MAX_CONTENT_KEYS <? contentKeyCount then None
          else bytes ← count_all keys bytes; Some (bytes, contentKeyCount)
      | _ => None
      end
    else Some (bytes, contentKeyCount).

Fixpoint preflight_changes (vs : list value) (counts : Z * Z) : option (Z * Z) :=
  match vs with
  | [] => Some counts
  | v :: vs' => counts' ← preflight_change v counts; preflight_changes vs' counts'
  end.

Definition preflightPage (values : value) : option (list value) :=
  match values with
  | VArr vs =>
      if (MAX_PAGE_ITEMS <? length vs)%nat then None
      else _ ← preflight_changes vs (0, 0); Some vs
  | _ => None
  end.

(** [Object.keys(v)]. *)
Definition object_keys (v : value) : list jsstr :=
  match v with VObj fields => map fst fields | _ => [] end.

Definition text_key (v : value) : option jsstr :=
  match v with VStr ((_ :: _) as key) => Some key | _ => None end.

Definition check_upsert (change : value) (sscc updatedAt : jsstr) : option KioskBoxRegistryChange :=
  match get (js "boxId") change, get (js "productId") change,
        integer_of (get (js "bottleCount") change), get (js "contentKeys") change with
  | VStr boxId, VStr productId, Some bottleCount, VArr rawKeys =>
      if negb (isUuid boxId) || negb (isUuid productId) then None
      else if (bottleCount <? 1) || (500 <? bottleCount) then None
      else if negb (Z.of_nat (length rawKeys) =? bottleCount) then None
      else
        contentKeys ← mapM text_key rawKeys;
        if negb (bool_decide (NoDup contentKeys)) then None
        else if existsb (fun key => negb (bool_decide (key ∈
                 [js "kind"; js "boxId"; js "sscc"; js "productId"; js "bottleCount"; js "contentKeys";
                  js "updatedAt"]))) (object_keys change) then None
        else Some (Upsert sscc {| bx_boxId := boxId; bx_productId := productId;
                                  bx_bottleCount := bottleCount; bx_contentKeys := contentKeys;
                                  bx_updatedAt := updatedAt |})
  | _, _, _, _ => None
  end.

Definition checkedChange (change : value) : option KioskBoxRegistryChange :=
  if negb (is_object change) then None
  else
    let kind := get (js "kind") change in
    if negb (is_str (js "upsert") kind || is_str (js "remove") kind) then None
    else match get (js "sscc") change, get (js "updatedAt") change with
    | VStr sscc, VStr updatedAt =>
        if negb (isValidSscc sscc) || negb (readable_date updatedAt) then None
        else if is_str (js "remove") kind then
          if existsb (fun key => negb (bool_decide (key ∈ [js "kind"; js "sscc"; js "updatedAt"])))
               (object_keys change) then None
          else Some (Remove sscc updatedAt)
        else check_upsert change sscc updatedAt
    | _, _ => None
    end.

Definition checkedChanges (values : value) : option (list KioskBoxRegistryChange) :=
  vs ← preflightPage values;
  result ← mapM checkedChange vs;
  if bool_decide (NoDup (map ch_sscc result)) then Some result else None.

(** ** Transactions *)

Definition with_active (rows : gmap jsstr StoredBoxRegistryRow) (meta : option BoxRegistryMeta)
    (st : Registry) : Registry :=
  {| rg_config := rg_config st; rg_active := rows; rg_activeMeta := meta;
     rg_staging := rg_staging st; rg_stagingMeta := rg_stagingMeta st |}.

Definition with_staging (changes : gmap jsstr KioskBoxRegistryChange) (cut : option BoxRegistryCut)
    (st : Registry) : Registry :=
  {| rg_config := rg_config st; rg_active := rg_active st; rg_activeMeta := rg_activeMeta st;
     rg_staging := changes; rg_stagingMeta := cut |}.

Definition clearRegistry (st : Registry) : Registry := with_active ∅ None (with_staging ∅ None st).

(** [currentCredentialOwner] of the stored configuration. *)
Definition currentOwner (st : Registry) : option BoxRegistryCredentialOwner :=
  credential_owner (rg_config st).

Definition readBoxRegistryMeta (bindingInput : BoxRegistryBinding) (st : Registry)
  : option BoxRegistryMeta * Registry :=
  match boxRegistryBindingOf (Some (serverUrl bindingInput)) (Some (kioskId bindingInput)) with
  | None => (None, st)
  | Some b =>
      if negb (sameBoxRegistryBinding (binding <$> currentOwner st) (Some b)) then (None, st)
      else match checkedMeta (rg_activeMeta st) with
      | None => (None, match rg_activeMeta st with Some _ => clearRegistry st | None => st end)
      | Some meta =>
          if negb (sameBoxRegistryCredentialOwner (Some (bm_owner meta)) (currentOwner st))
          then (None, clearRegistry st) else (Some meta, st)
      end
  end.

(** The record [lookupBox] rebuilds from a stored row, to check it again. *)
Definition raw_change (row : StoredBoxRegistryRow) : value :=
  VObj [(js "kind", VStr (js "upsert")); (js "boxId", VStr (br_boxId row)); (js "sscc", VStr (br_sscc row));
        (js "productId", VStr (br_productId row)); (js "bottleCount", VNum (num (br_bottleCount row)));
        (js "contentKeys", VArr (map VStr (br_contentKeys row)));
        (js "updatedAt", VStr (br_updatedAt row))].

Definition row_of (sscc version : jsstr) (box : BoxContent) : StoredBoxRegistryRow :=
  {| br_sscc := sscc; br_boxId := bx_boxId box; br_productId := bx_productId box;
     br_bottleCount := bx_bottleCount box; br_contentKeys := bx_contentKeys box;
     br_updatedAt := bx_updatedAt box; br_version := version |}.

Definition checked_row (found : StoredBoxRegistryRow) : option StoredBoxRegistryRow :=
  _ ← preflightPage (VArr [raw_change found]);
  change ← checkedChange (raw_change found);
  if negb (is_revision (br_version found)) then None
  else match change with
       | Upsert sscc box => Some (row_of sscc (br_version found) box)
       | Remove _ _ => None
       end.

Definition lookupBox (bindingInput : BoxRegistryBinding) (sscc : jsstr) (st : Registry)
  : option StoredBoxRegistryRow * Registry :=
  match boxRegistryBindingOf (Some (serverUrl bindingInput)) (Some (kioskId bindingInput)) with
  | None => (None, st)
  | Some b =>
      if negb (isValidSscc sscc) then (None, st)
      else if negb (sameBoxRegistryBinding (binding <$> currentOwner st) (Some b)) then (None, st)
      else match checkedMeta (rg_activeMeta st) with
      | None => (None, clearRegistry st)
      | Some meta =>
          if negb (sameBoxRegistryCredentialOwner (Some (bm_owner meta)) (currentOwner st))
          then (None, clearRegistry st)
          else (rg_active st !! sscc ≫= checked_row, st)
      end
  end.

Definition beginBoxRegistryStage (cutInput : BoxRegistryCut) (st : Registry) : option Registry :=
  cut ← checkedCut cutInput;
  if negb (sameBoxRegistryCredentialOwner (currentOwner st) (Some (cut_credential cut))) then None
  else Some (with_staging ∅ (Some cut) st).

Definition discardBoxRegistryStage (cutInput : BoxRegistryCut) (st : Registry) : option Registry :=
  cut ← checkedCut cutInput;
  if negb (sameBoxRegistryCredentialOwner (currentOwner st) (Some (cut_credential cut))) then Some st
  else if negb (sameCut (rg_stagingMeta st) cut) then Some st
  else Some (with_staging ∅ None st).

Definition stage_change (staging : gmap jsstr KioskBoxRegistryChange) (change : KioskBoxRegistryChange)
  : gmap jsstr KioskBoxRegistryChange := <[ch_sscc change := change]> staging.

Definition stageBoxRegistryPage (cutInput : BoxRegistryCut) (changes : value) (st : Registry)
  : option Registry :=
  cut ← checkedCut cutInput; safe ← checkedChanges changes;
  if negb (sameBoxRegistryCredentialOwner (currentOwner st) (Some (cut_credential cut))) then None
  else if negb (sameCut (rg_stagingMeta st) cut) then None
  else Some (with_staging (fold_left stage_change safe (rg_staging st)) (rg_stagingMeta st) st).

(** [getAll()] on the staging store: ascending by SSCC. *)
Definition staged_changes (st : Registry) : list KioskBoxRegistryChange :=
  map snd (js_sort (fun a b => js_leb a.1 b.1) (map_to_list (rg_staging st))).

Definition apply_change (until : jsstr) (rows : gmap jsstr StoredBoxRegistryRow)
    (change : KioskBoxRegistryChange) : gmap jsstr StoredBoxRegistryRow :=
  match change with
  | Remove sscc _ => delete sscc rows
  | Upsert sscc box => <[sscc := row_of sscc until box]> rows
  end.

Definition activateBoxRegistryPage (cutInput : BoxRegistryCut) (finalChanges : value)
    (generatedAt : jsstr) (st : Registry) : option Registry :=
  cut ← checkedCut cutInput;
  if negb (readable_date generatedAt) then None
  else
    final ← checkedChanges finalChanges;
    if negb (sameBoxRegistryCredentialOwner (currentOwner st) (Some (cut_credential cut))) then None
    else if negb (sameCut (rg_stagingMeta st) cut) then None
    else
      let activeMeta := checkedMeta (rg_activeMeta st) in
      match activeMeta with
      | Some m =>
          if negb (sameBoxRegistryCredentialOwner (Some (bm_owner m)) (Some (cut_credential cut))) then None
          else match cut_since cut with
          | None => if digits_value (cut_until cut) <=? digits_value (bm_version m) then None else Some tt
          | Some since => if jseqb (bm_version m) since then Some tt else None
          end
      | None => match cut_since cut with None => Some tt | Some _ => None end
      end ≫= fun _ =>
      let base := match cut_since cut with None => ∅ | Some _ => rg_active st end in
      Some (with_staging ∅ None (with_active
        (fold_left (apply_change (cut_until cut)) (staged_changes st ++ final) base)
        (Some {| bm_owner := cut_credential cut; bm_version := cut_until cut; bm_generatedAt := generatedAt |})
        st)).

(** [writeConfig]: what it stores, and the registry is cleared with a credential
    that changed.  The readiness of grants it clears too is not modelled. *)
Definition writeConfig (cfg : KioskConfig) (freshCredentialGeneration : jsstr) (st : Registry) : Registry :=
  let previous := rg_config st in
  let previousBinding := c ← previous; boxRegistryBindingOf (Some (kc_serverUrl c)) (kc_kioskId c) in
  let nextBinding := boxRegistryBindingOf (Some (kc_serverUrl cfg)) (kc_kioskId cfg) in
  let tokenRotated := negb (bool_decide ((kc_token <$> previous) = Some (kc_token cfg))) in
  let same := sameBoxRegistryBinding previousBinding nextBinding in
  let generation := match kc_token cfg with
    | None => None
    | Some _ =>
        if negb tokenRotated && same
        then Some (default freshCredentialGeneration
                     (c ← previous; credentialGenerationOf (kc_generation c)))
        else Some freshCredentialGeneration
    end in
  let stored := {| kc_serverUrl := kc_serverUrl cfg; kc_token := kc_token cfg;
                   kc_kioskId := kc_kioskId cfg; kc_generation := generation |} in
  let nextOwner := boxRegistryCredentialOwnerOf (Some (kc_serverUrl stored)) (kc_kioskId stored)
                     (kc_generation stored) in
  let mustClear :=
    bool_decide (kc_token cfg = None) || tokenRotated || bool_decide (nextBinding = None) || negb same
    || match rg_activeMeta st with
       | Some m => negb (sameBoxRegistryCredentialOwner (owner_of_owner (bm_owner m)) nextOwner)
       | None => false
       end in
  let st := if mustClear then clearRegistry st else st in
  {| rg_config := Some stored; rg_active := rg_active st; rg_activeMeta := rg_activeMeta st;
     rg_staging := rg_staging st; rg_stagingMeta := rg_stagingMeta st |}.
End Registry.

(** ** The refreshes under way *)

Definition row_content (row : StoredBoxRegistryRow) : BoxContent :=
  {| bx_boxId := br_boxId row; bx_productId := br_productId row; bx_bottleCount := br_bottleCount row;
     bx_contentKeys := br_contentKeys row; bx_updatedAt := br_updatedAt row |}.

(** What the active rows say, without the revision they came with. *)
Definition contents (rows : gmap jsstr StoredBoxRegistryRow) : gmap jsstr BoxContent :=
  row_content <$> rows.

Definition patch_change (m : gmap jsstr BoxContent) (change : KioskBoxRegistryChange)
  : gmap jsstr BoxContent :=
  match change with Upsert sscc box => <[sscc := box]> m | Remove sscc _ => delete sscc m end.

(** Changes applied to a registry in the order they were sent. *)
Definition patch (changes : list KioskBoxRegistryChange) (m : gmap jsstr BoxContent)
  : gmap jsstr BoxContent := fold_left patch_change changes m.

(** A refresh whose cut was begun and what its pages have brought so far, or one
    that is over or has failed. *)
Inductive refresh :=
| Open (cut : BoxRegistryCut) (received : list KioskBoxRegistryChange)
| Closed.

Record System := { sy_store : Registry; sy_refreshes : gmap jsstr refresh }.

Section System.
Context (date_parse : jsstr -> option Z).
(** The registry of each credential at each of its revisions, on the server;
    [None] for what was never a revision of it. *)
Context (server : BoxRegistryCredentialOwner -> jsstr -> option (gmap jsstr BoxContent)).

Definition on_store (f : Registry -> Registry) (s : System) : System :=
  {| sy_store := f (sy_store s); sy_refreshes := sy_refreshes s |}.

Definition set_refresh (id : jsstr) (r : refresh) (s : System) : System :=
  {| sy_store := sy_store s; sy_refreshes := <[id := r]> (sy_refreshes s) |}.

(** A transaction of the refresh [id]: whether it went through, and the refresh
    is closed when it did not. *)
Definition transact (id : jsstr) (result : option Registry) (r : refresh) (s : System) : bool * System :=
  match result with
  | Some st => (true, set_refresh id r {| sy_store := st; sy_refreshes := sy_refreshes s |})
  | None => (false, set_refresh id Closed s)
  end.

Definition sys_begin (cut : BoxRegistryCut) (s : System) : bool * System :=
  transact (cut_owner cut) (beginBoxRegistryStage cut (sy_store s))
    (match checkedCut cut with Some c => Open c [] | None => Closed end) s.

Definition sys_stage (cut : BoxRegistryCut) (items : value) (s : System) : bool * System :=
  transact (cut_owner cut) (stageBoxRegistryPage date_parse cut items (sy_store s))
    (match sy_refreshes s !! cut_owner cut, checkedChanges date_parse items with
     | Some (Open c received), Some new => Open c (received ++ new)
     | _, _ => Closed end) s.

Definition sys_activate (cut : BoxRegistryCut) (items : value) (generatedAt : jsstr) (s : System)
  : bool * System :=
  transact (cut_owner cut) (activateBoxRegistryPage date_parse cut items generatedAt (sy_store s)) Closed s.

Definition sys_discard (cut : BoxRegistryCut) (s : System) : bool * System :=
  transact (cut_owner cut) (discardBoxRegistryStage cut (sy_store s)) Closed s.

(** What changes since a revision are relative to: nothing, for a snapshot. *)
Definition registry_since (owner : BoxRegistryCredentialOwner) (since : option jsstr)
  : option (gmap jsstr BoxContent) :=
  match since with None => Some ∅ | Some since => server owner since end.

(** The changes of a refresh that was answered completely: they lead from the
    revision it started at to the one it was cut at. *)
Definition truthful (cut : BoxRegistryCut) (changes : list KioskBoxRegistryChange) : Prop :=
  forall base, registry_since (cut_credential cut) (cut_since cut) = Some base ->
  server (cut_credential cut) (cut_until cut) = Some (patch changes base).

(** One transaction, labelled with the refresh it belongs to: the names of
    refreshes are fresh, pages are staged only while the refresh is open, and a
    refresh activates what its server ended with. *)
Inductive sys_step : option jsstr -> System -> System -> Prop :=
| SWrite cfg fresh s : sys_step None s (on_store (writeConfig cfg fresh) s)
| SRead b s : sys_step None s (on_store (fun st => (readBoxRegistryMeta date_parse b st).2) s)
| SLookup b sscc s : sys_step None s (on_store (fun st => (lookupBox date_parse b sscc st).2) s)
| SBegin cut s :
    sy_refreshes s !! cut_owner cut = None ->
    sys_step (Some (cut_owner cut)) s (sys_begin cut s).2
| SStage cut c received items s :
    sy_refreshes s !! cut_owner cut = Some (Open c received) -> checkedCut cut = Some c ->
    sys_step (Some (cut_owner cut)) s (sys_stage cut items s).2
| SActivate cut c received items generatedAt s :
    sy_refreshes s !! cut_owner cut = Some (Open c received) -> checkedCut cut = Some c ->
    (forall new, checkedChanges date_parse items = Some new -> truthful c (received ++ new)) ->
    sys_step (Some (cut_owner cut)) s (sys_activate cut items generatedAt s).2
| SDiscard cut s : sys_step (Some (cut_owner cut)) s (sys_discard cut s).2.

(** ** Invariant *)

(** A change or a row that passes the checks of [lookupBox] again. *)
Definition change_fine (change : KioskBoxRegistryChange) : Prop :=
  match change with
  | Upsert sscc box =>
      forall version, is_revision version = true ->
        checked_row date_parse (row_of sscc version box) = Some (row_of sscc version box)
  | Remove _ _ => True
  end.

Definition row_fine (sscc : jsstr) (row : StoredBoxRegistryRow) : Prop :=
  br_sscc row = sscc /\ checked_row date_parse row = Some row.

Definition cut_fine (cut : BoxRegistryCut) : Prop :=
  is_revision (cut_until cut) = true /\
  match cut_since cut with
  | Some since => digits_value since <= digits_value (cut_until cut)
  | None => True
  end.

Record sys_inv (s : System) : Prop := {
  inv_active : forall m, rg_activeMeta (sy_store s) = Some m ->
    currentOwner (sy_store s) = Some (bm_owner m) /\ is_revision (bm_version m) = true
    /\ readable_date date_parse (bm_generatedAt m) = true
    /\ server (bm_owner m) (bm_version m) = Some (contents (rg_active (sy_store s)))
    /\ map_Forall row_fine (rg_active (sy_store s));
  inv_staging : forall cut, rg_stagingMeta (sy_store s) = Some cut ->
    currentOwner (sy_store s) = Some (cut_credential cut) /\
    match sy_refreshes s !! cut_owner cut with
    | Some (Open c received) => c = cut /\ rg_staging (sy_store s) = fold_left stage_change received ∅
    | Some Closed => True
    | None => False
    end;
  inv_open : forall id c received, sy_refreshes s !! id = Some (Open c received) ->
    cut_owner c = id /\ cut_fine c /\ Forall change_fine received
}.

(** *** Applying changes *)

(** The last change of a box. *)
Definition last_for (sscc : jsstr) (changes : list KioskBoxRegistryChange) : option KioskBoxRegistryChange :=
  last (filter (fun change => ch_sscc change = sscc) changes).

Lemma last_for_snoc sscc changes change :
  last_for sscc (changes ++ [change])
  = if decide (ch_sscc change = sscc) then Some change else last_for sscc changes.
Proof.
  unfold last_for. rewrite filter_app. cbn. destruct (decide (ch_sscc change = sscc)) as [E|E]; cbn.
  - by rewrite last_snoc.
  - by rewrite app_nil_r.
Qed.

Lemma patch_lookup changes m sscc :
  patch changes m !! sscc = match last_for sscc changes with
    | Some (Upsert _ box) => Some box | Some (Remove _ _) => None | None => m !! sscc end.
Proof.
  induction changes as [|change changes IH] using rev_ind; [done|].
  unfold patch in *. rewrite fold_left_app, last_for_snoc. cbn.
  destruct change as [s box|s at_]; cbn; destruct (decide (s = sscc)) as [->|Hn].
  - by rewrite lookup_insert_eq.
  - by rewrite lookup_insert_ne, IH.
  - by rewrite lookup_delete_eq.
  - by rewrite lookup_delete_ne, IH.
Qed.

Lemma staging_lookup changes staging sscc :
  fold_left stage_change changes staging !! sscc = match last_for sscc changes with
    | Some change => Some change | None => staging !! sscc end.
Proof.
  induction changes as [|change changes IH] using rev_ind; [done|].
  rewrite fold_left_app, last_for_snoc. cbn. unfold stage_change at 1.
  destruct (decide (ch_sscc change = sscc)) as [<-|Hn].
  - by rewrite lookup_insert_eq.
  - by rewrite lookup_insert_ne, IH.
Qed.

Lemma last_for_sscc sscc changes change :
  last_for sscc changes = Some change -> ch_sscc change = sscc /\ change ∈ changes.
Proof.
  unfold last_for. intros H. apply last_Some_elem_of in H.
  by apply list_elem_of_filter in H.
Qed.

Lemma last_for_elem changes change :
  NoDup (map ch_sscc changes) -> change ∈ changes -> last_for (ch_sscc change) changes = Some change.
Proof.
  induction changes as [|c changes IH] using rev_ind; intros Hnd Hin; [by apply elem_of_nil in Hin|].
  rewrite map_app in Hnd. apply NoDup_app in Hnd as (Hnd & Hnot & _). rewrite last_for_snoc.
  apply elem_of_app in Hin as [Hin|Hin%list_elem_of_singleton].
  - rewrite decide_False; [by apply IH|]. intros E. apply (Hnot (ch_sscc change)).
    + by apply list_elem_of_fmap_2.
    + rewrite <- E. by left.
  - subst. by rewrite decide_True.
Qed.

Lemma last_for_none sscc changes : sscc ∉ map ch_sscc changes -> last_for sscc changes = None.
Proof.
  intros Hn. destruct (last_for sscc changes) as [c|] eqn:E; [|done].
  apply last_for_sscc in E as [<- E]. destruct Hn. by apply list_elem_of_fmap_2.
Qed.

Lemma contents_apply until changes rows :
  contents (fold_left (apply_change until) changes rows) = patch changes (contents rows).
Proof.
  revert rows. induction changes as [|[s box|s at_] changes IH]; intros rows; [done|..]; cbn; rewrite IH.
  - unfold contents. rewrite fmap_insert. by destruct box.
  - unfold contents. by rewrite fmap_delete.
Qed.

(** Staging loses the order of the pages and what a later page overwrote, and
    nothing that matters. *)
Lemma patch_staged st received new m :
  rg_staging st = fold_left stage_change received ∅ ->
  patch (staged_changes st ++ new) m = patch (received ++ new) m.
Proof.
  intros Hst. unfold patch. rewrite !fold_left_app. f_equal. change (patch (staged_changes st) m = patch received m).
  apply map_eq. intros sscc. rewrite !patch_lookup. unfold staged_changes. set (M := rg_staging st) in *.
  assert (HM : forall k, M !! k = last_for k received).
  { intros k. rewrite Hst, staging_lookup, lookup_empty. by destruct (last_for k received). }
  set (l := js_sort (fun a b => js_leb a.1 b.1) (map_to_list M)).
  assert (Hl : l ≡ₚ map_to_list M) by apply js_sort_perm.
  assert (Hk : map ch_sscc (map snd l) = map fst l).
  { rewrite map_map. apply map_ext_in. intros [k c] Hin%list_elem_of_In. cbn.
    rewrite Hl in Hin. apply elem_of_map_to_list in Hin. rewrite HM in Hin. by apply last_for_sscc in Hin as [-> _]. }
  assert (Hnd : NoDup (map ch_sscc (map snd l))).
  { rewrite Hk, Hl. apply NoDup_fst_map_to_list. }
  replace (last_for sscc (map snd l)) with (last_for sscc received); [done|].
  rewrite <- HM. destruct (M !! sscc) as [c|] eqn:E.
  - assert (Hc : ch_sscc c = sscc) by (rewrite HM in E; by apply last_for_sscc in E as [-> _]).
    rewrite <- Hc at 1. symmetry. apply last_for_elem; [done|].
    apply (list_elem_of_fmap_2 snd l (sscc, c)). rewrite Hl. by apply elem_of_map_to_list.
  - symmetry. apply last_for_none. rewrite Hk, Hl. intros Hin. apply list_elem_of_fmap in Hin as ([k c] & -> & Hin).
    apply elem_of_map_to_list in Hin. cbn in E. congruence.
Qed.

(** *** What a page brings passes the checks of a look-up *)

Lemma count_bytes_less v bytes bytes' b :
  count_bytes v bytes = Some bytes' -> b <= bytes ->
  exists b', count_bytes v b = Some b' /\ b' <= bytes' /\ bytes <= bytes'.
Proof.
  unfold count_bytes. destruct v as [| | | |s| |]; try done. set (n := Z.of_nat (length (utf8_encode s))).
  destruct (MAX_STRING_BYTES <? Z.of_nat (length s)); [done|].
  destruct (Z.ltb_spec MAX_STRING_BYTES n) as [|Hn]; [done|]. cbn.
  destruct (Z.ltb_spec MAX_PAGE_BYTES (bytes + n)); [done|]. intros [= <-] Hb.
  destruct (Z.ltb_spec MAX_PAGE_BYTES (b + n)); [lia|]. eexists. split; [done|].
  assert (0 <= n) by (unfold n; lia). lia.
Qed.

Lemma count_all_less vs bytes bytes' b :
  count_all vs bytes = Some bytes' -> b <= bytes ->
  exists b', count_all vs b = Some b' /\ b' <= bytes' /\ bytes <= bytes'.
Proof.
  revert bytes b. induction vs as [|v vs IH]; intros bytes b.
  - intros [= <-] Hb. exists b. split; [done | lia].
  - cbn [count_all]. destruct (count_bytes v bytes) as [b1|] eqn:E; [|done]. cbn. intros Hall Hb.
    destruct (count_bytes_less _ _ _ _ E Hb) as (b2 & -> & H1 & H2). cbn.
    destruct (IH _ _ Hall H1) as (b' & -> & H3 & H4). exists b'. split; [done | lia].
Qed.

Lemma preflight_change_less v bytes keys bytes' keys' b k :
  preflight_change v (bytes, keys) = Some (bytes', keys') -> b <= bytes -> k <= keys ->
  exists b' k', preflight_change v (b, k) = Some (b', k')
    /\ b' <= bytes' /\ k' <= keys' /\ bytes <= bytes' /\ keys <= keys'.
Proof.
  unfold preflight_change. destruct (negb (is_object v)); [done|]. intros H Hb Hk.
  destruct (count_all _ bytes) as [b1|] eqn:E1; [|done]. cbn [mbind option_bind] in H.
  destruct (count_all_less _ _ _ _ E1 Hb) as (c1 & -> & H1 & H2). cbn [mbind option_bind].
  destruct (is_str (js "upsert") (get (js "kind") v)).
  - destruct (count_all _ b1) as [b2|] eqn:E2; [|done]. cbn [mbind option_bind] in H.
    destruct (count_all_less _ _ _ _ E2 H1) as (c2 & -> & H3 & H4). cbn [mbind option_bind].
    destruct (get (js "contentKeys") v) as [| | | | |l|]; try done.
    destruct (Z.ltb_spec MAX_CONTENT_KEYS (keys + Z.of_nat (length l))); [done|].
    destruct (count_all l b2) as [b3|] eqn:E3; [|done]. cbn [mbind option_bind] in H. injection H as <- <-.
    destruct (Z.ltb_spec MAX_CONTENT_KEYS (k + Z.of_nat (length l))); [lia|].
    destruct (count_all_less _ _ _ _ E3 H3) as (c3 & -> & H5 & H6). cbn [mbind option_bind]. eexists _, _. split; [done | lia].
  - injection H as <- <-. eexists _, _. split; [done | lia].
Qed.

Lemma preflight_each vs bytes keys counts v :
  preflight_changes vs (bytes, keys) = Some counts -> 0 <= bytes -> 0 <= keys -> v ∈ vs ->
  is_Some (preflight_change v (0, 0)).
Proof.
  revert bytes keys. induction vs as [|w vs IH]; intros bytes keys; [by intros _ _ _ ?%elem_of_nil|].
  cbn [preflight_changes]. destruct (preflight_change w (bytes, keys)) as [[b1 k1]|] eqn:E; [|done].
  cbn. intros Hrest Hb Hk [->|Hin]%elem_of_cons.
  - destruct (preflight_change_less _ _ _ _ _ _ _ E Hb Hk) as (b1' & k1' & Hw & _). eauto.
  - destruct (preflight_change_less _ _ _ _ _ _ _ E Hb Hk) as (b' & k' & _ & _ & _ & H1 & H2).
    by apply (IH b1 k1); [|lia..|].
Qed.

Lemma text_keys_inv raw keys :
  mapM text_key raw = Some keys -> raw = map VStr keys /\ mapM text_key (map VStr keys) = Some keys.
Proof.
  intros H. apply mapM_Some in H. enough (raw = map VStr keys) as <- by (by apply mapM_Some in H).
  induction H as [|v key raw keys Hv H IH]; [done|]. cbn. rewrite <- IH. f_equal.
  by destruct v as [| | | |[|c s]| |]; inversion Hv.
Qed.

Lemma is_str_inv s v : is_str s v = true -> v = VStr s.
Proof. destruct v; try done. cbn. by intros ->%jseqb_eq. Qed.

Lemma checkedChange_upsert v sscc box :
  checkedChange date_parse v = Some (Upsert sscc box) ->
  let raw := raw_change (row_of sscc [] box) in
  checkedChange date_parse raw = Some (Upsert sscc box)
  /\ (forall counts, preflight_change raw counts = preflight_change v counts).
Proof.
  intros H raw. unfold checkedChange in H.
  destruct (negb (is_object v)) eqn:Eo; [done|].
  destruct (negb _) eqn:Ek in H; [done|].
  destruct (get (js "sscc") v) as [| | | |s| |] eqn:Es; try done.
  destruct (get (js "updatedAt") v) as [| | | |u| |] eqn:Eu; try done.
  destruct (negb (isValidSscc s) || negb (readable_date date_parse u)) eqn:Ev; [done|].
  destruct (is_str (js "remove") (get (js "kind") v)) eqn:Er; [by destruct (existsb _ _) in H|].
  rewrite orb_false_r in Ek. apply negb_false_iff, is_str_inv in Ek as Ekind.
  unfold check_upsert in H.
  destruct (get (js "boxId") v) as [| | | |bid| |] eqn:Eb; try done.
  destruct (get (js "productId") v) as [| | | |pid| |] eqn:Ep; try done.
  destruct (integer_of _) as [n|] eqn:En; [|done].
  destruct (get (js "contentKeys") v) as [| | | | |raws|] eqn:Ec; try done.
  destruct (negb (isUuid bid) || negb (isUuid pid)) eqn:Eu2; [done|].
  destruct ((n <? 1) || (500 <? n)) eqn:En2; [done|].
  destruct (negb (Z.of_nat (length raws) =? n)) eqn:El; [done|].
  destruct (mapM text_key raws) as [keys|] eqn:Em; [|done]. cbn in H.
  destruct (negb (bool_decide (NoDup keys))) eqn:Ed; [done|].
  destruct (existsb _ _) in H; [done|]. injection H as <- <-.
  apply text_keys_inv in Em as [Em1 Em2]. subst raws. split.
  - unfold checkedChange. change (negb (is_object raw)) with false. cbv match.
    change (get (js "kind") raw) with (VStr (js "upsert")).
    change (get (js "sscc") raw) with (VStr s). change (get (js "updatedAt") raw) with (VStr u). cbv match.
    rewrite Ev. change (is_str (js "remove") (VStr (js "upsert"))) with false.
    change (is_str (js "upsert") (VStr (js "upsert"))) with true. cbv match beta delta [orb negb].
    unfold check_upsert. change (get (js "boxId") raw) with (VStr bid).
    change (get (js "productId") raw) with (VStr pid). change (get (js "bottleCount") raw) with (VNum (num n)).
    change (get (js "contentKeys") raw) with (VArr (map VStr keys)). cbn [integer_of].
    rewrite is_integer_num, int_value_num, Eu2, En2, El, Em2. cbn [mbind option_bind]. rewrite Ed. reflexivity.
  - intros [bytes k]. unfold preflight_change. rewrite Eo, Ekind, Es, Eu, Eb, Ep, Ec. reflexivity.
Qed.

Lemma checkedChanges_fine v changes :
  checkedChanges date_parse v = Some changes -> Forall change_fine changes.
Proof.
  unfold checkedChanges, preflightPage. intros H.
  destruct v as [| | | | |vs|]; try done. destruct (MAX_PAGE_ITEMS <? length vs)%nat; [done|].
  destruct (preflight_changes vs (0, 0)) as [counts|] eqn:Ep; [|done]. cbn in H.
  destruct (mapM (checkedChange date_parse) vs) as [result|] eqn:Em; [|done]. cbn in H.
  destruct (bool_decide _); [|done]. injection H as ->. apply mapM_Some in Em.
  apply Forall_forall. intros change Hin. destruct (list_elem_of_lookup_1 _ _ Hin) as [i Hi].
  destruct (Forall2_lookup_r _ _ _ _ _ Em Hi) as (w & Hw & Hc). destruct change as [sscc box|]; [|done].
  intros version Hv. destruct (checkedChange_upsert _ _ _ Hc) as (Hraw & Hpre).
  destruct (preflight_each vs 0 0 counts w Ep ltac:(done) ltac:(done) (list_elem_of_lookup_2 _ _ _ Hw)) as [c Hpf].
  unfold checked_row. change (raw_change (row_of sscc version box)) with (raw_change (row_of sscc [] box)).
  unfold preflightPage. cbn [length Nat.ltb Nat.leb preflight_changes]. rewrite Hpre, Hpf.
  cbn [mbind option_bind]. rewrite Hraw. cbn [mbind option_bind].
  change (br_version (row_of sscc version box)) with version. by rewrite Hv.
Qed.

(** *** Every transaction keeps the invariant *)

Lemma checkedCut_spec value c :
  checkedCut value = Some c -> cut_owner c = cut_owner value /\ cut_fine c.
Proof.
  unfold checkedCut. destruct (owner_of_owner _) as [o|]; [|done]. cbn [mbind option_bind].
  destruct (_ || _); [done|]. destruct (negb _); [done|].
  destruct (negb (is_revision (cut_until value))) eqn:Eu; [done|]. apply negb_false_iff in Eu.
  destruct (cut_since value) as [since|].
  - destruct (Z.ltb_spec (digits_value (cut_until value)) (digits_value since)); [done|].
    intros [= <-]. by repeat split.
  - intros [= <-]. by repeat split.
Qed.

Lemma checkedCut_fields value c :
  checkedCut value = Some c ->
  owner_of_owner (cut_credential value) = Some (cut_credential c)
  /\ cut_since c = cut_since value /\ cut_until c = cut_until value.
Proof.
  unfold checkedCut. destruct (owner_of_owner _) as [o|]; [|done]. cbn [mbind option_bind].
  destruct (_ || _); [done|]. destruct (negb _); [done|].
  destruct (negb (is_revision (cut_until value))); [done|].
  destruct (cut_since value); [destruct (_ <? _); [done|]|]; by intros [= <-].
Qed.

Lemma sameCut_spec left right :
  sameCut left right = true ->
  exists c, left = Some c /\ cut_owner c = cut_owner right.
Proof.
  unfold sameCut. destruct left as [c|]; [|done]. intros H. bool_hyps. by exists c.
Qed.

Lemma inv_clear s : sys_inv s -> sys_inv (on_store clearRegistry s).
Proof. intros [_ _ Ho]. by split. Qed.

Lemma inv_close id s : sys_inv s -> sys_inv (set_refresh id Closed s).
Proof.
  intros [Ha Hs Ho]. split; cbn; [exact Ha| |].
  - intros cut Hc. destruct (Hs cut Hc) as [Hcur Hr]. split; [exact Hcur|].
    destruct (decide (cut_owner cut = id)) as [->|Hn].
    + by rewrite lookup_insert_eq.
    + by rewrite lookup_insert_ne by done.
  - intros k c received. destruct (decide (k = id)) as [->|Hn].
    + by rewrite lookup_insert_eq.
    + rewrite lookup_insert_ne by done. apply Ho.
Qed.

Lemma currentOwner_kept (previous cfg : KioskConfig) g o fresh :
  credential_owner (Some previous) = Some o ->
  kc_token previous = kc_token cfg ->
  sameBoxRegistryBinding (boxRegistryBindingOf (Some (kc_serverUrl previous)) (kc_kioskId previous))
    (boxRegistryBindingOf (Some (kc_serverUrl cfg)) (kc_kioskId cfg)) = true ->
  g = default fresh (credentialGenerationOf (kc_generation previous)) ->
  credential_owner (Some {| kc_serverUrl := kc_serverUrl cfg; kc_token := kc_token cfg;
                            kc_kioskId := kc_kioskId cfg; kc_generation := Some g |}) = Some o.
Proof.
  unfold credential_owner. cbn [mbind option_bind kc_token kc_serverUrl kc_kioskId kc_generation].
  intros Ho Htok (b & Hb & Hb')%sameBinding_spec ->. rewrite Htok in Ho.
  destruct (kc_token cfg) as [[|t token]|]; [done| |done].
  unfold boxRegistryCredentialOwnerOf in *. rewrite Hb' in *. rewrite Hb in Ho.
  destruct (credentialGenerationOf (kc_generation previous)) as [g|] eqn:Eg; [|done]. change (default fresh (Some g)) with g.
  enough (credentialGenerationOf (Some g) = Some g) as -> by done. clear Ho.
  unfold credentialGenerationOf in *. destruct (kc_generation previous) as [h|]; [|done].
  destruct (isUuid h) eqn:Eh; [|done]. injection Eg as <-. unfold isUuid in *. by rewrite lower_lower, Eh.
Qed.

(** A configuration either keeps the credential of what is stored, or clears it. *)
Lemma inv_write cfg fresh s : sys_inv s -> sys_inv (on_store (writeConfig cfg fresh) s).
Proof.
  intros [Ha Hs Ho]. unfold on_store, writeConfig.
  destruct (bool_decide (kc_token cfg = None)) eqn:Et; cbn [orb]; [by split|].
  destruct (negb (bool_decide ((kc_token <$> rg_config (sy_store s)) = Some (kc_token cfg)))) eqn:Er;
    cbn [orb]; [by split|].
  apply negb_false_iff, bool_decide_eq_true in Er. apply fmap_Some in Er as (previous & Ep & Etok).
  rewrite Ep. cbn [mbind option_bind].
  destruct (bool_decide (boxRegistryBindingOf (Some (kc_serverUrl cfg)) (kc_kioskId cfg) = None));
    cbn [orb]; [by split|].
  destruct (sameBoxRegistryBinding _ _) eqn:Eb; cbn [negb orb]; [|by split].
  destruct (match rg_activeMeta (sy_store s) with Some _ => _ | None => _ end); [by split|].
  apply bool_decide_eq_false in Et.
  destruct (kc_token cfg) as [token|] eqn:Etc; [|done]. cbn [negb andb].
  assert (Hcur : forall o, currentOwner (sy_store s) = Some o ->
    credential_owner (Some {| kc_serverUrl := kc_serverUrl cfg; kc_token := kc_token cfg;
       kc_kioskId := kc_kioskId cfg;
       kc_generation := Some (default fresh (credentialGenerationOf (kc_generation previous))) |}) = Some o).
  { intros o Hc. unfold currentOwner in Hc. rewrite Ep in Hc.
    eapply currentOwner_kept; [exact Hc | congruence | exact Eb | done]. }
  rewrite Etc in Hcur. split; cbn.
  - intros m Hm. destruct (Ha m Hm) as (Hc & Hrest). split; [|exact Hrest]. by apply Hcur.
  - intros cut Hc. destruct (Hs cut Hc) as (Hc' & Hrest). split; [|exact Hrest]. by apply Hcur.
  - exact Ho.
Qed.

Lemma read_cases b st :
  (readBoxRegistryMeta date_parse b st).2 = st \/ (readBoxRegistryMeta date_parse b st).2 = clearRegistry st.
Proof.
  unfold readBoxRegistryMeta. destruct (boxRegistryBindingOf _ _); [|by left].
  destruct (negb _); [by left|]. destruct (checkedMeta _ _) as [m|].
  - destruct (negb _); [by right | by left].
  - destruct (rg_activeMeta st); [by right | by left].
Qed.

Lemma lookup_cases b sscc st :
  (lookupBox date_parse b sscc st).2 = st \/ (lookupBox date_parse b sscc st).2 = clearRegistry st.
Proof.
  unfold lookupBox. destruct (boxRegistryBindingOf _ _); [|by left].
  destruct (negb (isValidSscc sscc)); [by left|]. destruct (negb _); [by left|].
  destruct (checkedMeta _ _) as [m|]; [|by right]. destruct (negb _); [by right | by left].
Qed.

Lemma inv_begin cut s :
  sy_refreshes s !! cut_owner cut = None -> sys_inv s -> sys_inv (sys_begin cut s).2.
Proof.
  intros Hn Hi. unfold sys_begin, transact, beginBoxRegistryStage.
  destruct (checkedCut cut) as [c|] eqn:Ec; [|by apply inv_close]. cbn [mbind option_bind].
  destruct (negb (sameBoxRegistryCredentialOwner _ _)) eqn:Eo; [by apply inv_close|].
  apply negb_false_iff, sameOwner_spec in Eo as (o & Eo & [= <-]).
  apply checkedCut_spec in Ec as [Eid Hf]. rewrite <- Eid in *. destruct Hi as [Ha Hs Ho].
  split; cbn; [exact Ha| |].
  - intros c' [= <-]. split; [exact Eo|]. by rewrite lookup_insert_eq.
  - intros k c' received. destruct (decide (k = cut_owner c)) as [->|Hne].
    + rewrite lookup_insert_eq. intros [= <- <-]. by repeat split; try apply Hf.
    + rewrite lookup_insert_ne by done. apply Ho.
Qed.

(** The staging area of a refresh that is open. *)
Lemma staging_of cut c received s :
  sys_inv s -> sy_refreshes s !! cut_owner cut = Some (Open c received) -> checkedCut cut = Some c ->
  sameCut (rg_stagingMeta (sy_store s)) c = true ->
  rg_stagingMeta (sy_store s) = Some c
  /\ rg_staging (sy_store s) = fold_left stage_change received ∅.
Proof.
  intros [_ Hs _] Hr Hc (c' & Hc' & Eid)%sameCut_spec. destruct (Hs c' Hc') as [_ Hm].
  apply checkedCut_spec in Hc as [Eid' _]. rewrite Eid, Eid', Hr in Hm. by destruct Hm as [<- Hm].
Qed.

Lemma inv_stage cut c received items s :
  sy_refreshes s !! cut_owner cut = Some (Open c received) -> checkedCut cut = Some c ->
  sys_inv s -> sys_inv (sys_stage cut items s).2.
Proof.
  intros Hr Hc Hi. unfold sys_stage, transact, stageBoxRegistryPage. rewrite Hr, Hc. cbn [mbind option_bind].
  destruct (checkedChanges date_parse items) as [new|] eqn:En; [|by apply inv_close].
  cbn [mbind option_bind]. destruct (negb _) eqn:Eo; [by apply inv_close|].
  destruct (negb (sameCut _ _)) eqn:Es; [by apply inv_close|]. apply negb_false_iff in Es.
  destruct (staging_of _ _ _ _ Hi Hr Hc Es) as [Hm Hst].
  pose proof (checkedCut_spec _ _ Hc) as [Eid _]. destruct Hi as [Ha Hs Ho]. split; cbn; [exact Ha| |].
  - intros c' Hc'. rewrite Hm in Hc'. injection Hc' as <-. split; [apply (Hs c Hm)|].
    rewrite Eid, lookup_insert_eq, Hst. by rewrite fold_left_app.
  - intros k c' received'. destruct (decide (k = cut_owner cut)) as [->|Hne].
    + rewrite lookup_insert_eq. intros [= <- <-]. destruct (Ho _ _ _ Hr) as (? & ? & Hf).
      split; [done|]. split; [done|]. apply Forall_app. split; [done|]. by eapply checkedChanges_fine.
    + rewrite lookup_insert_ne by done. apply Ho.
Qed.

Lemma apply_fine until changes rows :
  is_revision until = true -> Forall change_fine changes -> map_Forall row_fine rows ->
  map_Forall row_fine (fold_left (apply_change until) changes rows).
Proof.
  intros Hu Hc. revert rows. induction Hc as [|change changes Hf Hc IH]; intros rows Hr; [done|].
  cbn [fold_left]. apply IH. destruct change as [sscc box|sscc at_]; cbn.
  - apply map_Forall_insert_2; [|done]. split; [done|]. by apply Hf.
  - by apply map_Forall_delete.
Qed.

Lemma staged_fine st received :
  rg_staging st = fold_left stage_change received ∅ -> Forall change_fine received ->
  Forall change_fine (staged_changes st).
Proof.
  intros Hst Hf. apply Forall_forall. intros change Hin. unfold staged_changes in Hin.
  apply list_elem_of_fmap in Hin as ([k c] & -> & Hin). rewrite js_sort_perm in Hin.
  apply elem_of_map_to_list in Hin. rewrite Hst, staging_lookup in Hin.
  destruct (last_for k received) as [c'|] eqn:E; [|by rewrite lookup_empty in Hin].
  injection Hin as ->. apply last_for_sscc in E as [_ E]. by apply (proj1 (Forall_forall _ _) Hf).
Qed.

(** What an activation has checked, and what it leaves behind. *)
Record activated (cut : BoxRegistryCut) (items : value) (generatedAt : jsstr) (st st' : Registry)
    (c : BoxRegistryCut) (final : list KioskBoxRegistryChange) : Prop := {
  ac_cut : checkedCut cut = Some c;
  ac_date : readable_date date_parse generatedAt = true;
  ac_final : checkedChanges date_parse items = Some final;
  ac_owner : currentOwner st = Some (cut_credential c);
  ac_staging : sameCut (rg_stagingMeta st) c = true;
  ac_meta : forall m, checkedMeta date_parse (rg_activeMeta st) = Some m ->
    bm_owner m = cut_credential c /\
    match cut_since c with
    | None => digits_value (bm_version m) < digits_value (cut_until c)
    | Some since => bm_version m = since
    end;
  ac_since : cut_since c <> None -> checkedMeta date_parse (rg_activeMeta st) <> None;
  ac_result : st' = with_staging ∅ None (with_active
    (fold_left (apply_change (cut_until c)) (staged_changes st ++ final)
       (match cut_since c with None => ∅ | Some _ => rg_active st end))
    (Some {| bm_owner := cut_credential c; bm_version := cut_until c; bm_generatedAt := generatedAt |}) st)
}.

Lemma activate_Some cut items generatedAt st st' :
  activateBoxRegistryPage date_parse cut items generatedAt st = Some st' ->
  exists c final, activated cut items generatedAt st st' c final.
Proof.
  unfold activateBoxRegistryPage. destruct (checkedCut cut) as [c|] eqn:Ec; [|done]. cbn [mbind option_bind].
  destruct (negb (readable_date _ _)) eqn:Ed; [done|]. apply negb_false_iff in Ed.
  destruct (checkedChanges date_parse items) as [final|] eqn:Ef; [|done]. cbn [mbind option_bind].
  destruct (negb _) eqn:Eo; [done|]. apply negb_false_iff, sameOwner_spec in Eo as (o & Eo & [= <-]).
  destruct (negb (sameCut _ _)) eqn:Es; [done|]. apply negb_false_iff in Es.
  intros H. exists c, final. destruct (checkedMeta date_parse (rg_activeMeta st)) as [m|] eqn:Em.
  - destruct (negb _) eqn:Eo' in H; [done|].
    apply negb_false_iff, sameOwner_spec in Eo' as (o' & [= Eo'] & [= <-]).
    destruct (cut_since c) as [since|] eqn:Esince.
    + destruct (jseqb (bm_version m) since) eqn:Ev; [|done]. apply jseqb_eq in Ev. injection H as <-.
      split; rewrite ?Em, ?Esince; try done. by intros m' [= <-].
    + destruct (Z.leb_spec (digits_value (cut_until c)) (digits_value (bm_version m))); [done|]. injection H as <-.
      split; rewrite ?Em, ?Esince; try done. by intros m' [= <-].
  - destruct (cut_since c) as [since|] eqn:Esince; [done|]. injection H as <-.
    split; rewrite ?Em, ?Esince; done.
Qed.

Lemma checkedMeta_spec meta m :
  checkedMeta date_parse meta = Some m ->
  exists stored, meta = Some stored /\ owner_of_owner (bm_owner stored) = Some (bm_owner m)
    /\ bm_version m = bm_version stored /\ bm_generatedAt m = bm_generatedAt stored.
Proof.
  unfold checkedMeta. destruct meta as [stored|]; [|done]. cbn [mbind option_bind].
  destruct (owner_of_owner _) as [o|] eqn:Eo; [|done]. cbn [mbind option_bind].
  destruct (_ || _); [done|]. intros [= <-]. by exists stored.
Qed.

Lemma inv_activate cut c received items generatedAt s :
  sy_refreshes s !! cut_owner cut = Some (Open c received) -> checkedCut cut = Some c ->
  (forall new, checkedChanges date_parse items = Some new -> truthful c (received ++ new)) ->
  sys_inv s -> sys_inv (sys_activate cut items generatedAt s).2.
Proof.
  intros Hr Hc Ht Hi. unfold sys_activate, transact.
  destruct (activateBoxRegistryPage _ _ _ _ _) as [st'|] eqn:E; [|by apply inv_close].
  apply activate_Some in E as (c' & final & A). pose proof (ac_cut _ _ _ _ _ _ _ A) as Hc'.
  rewrite Hc in Hc'. injection Hc' as <-.
  destruct (staging_of _ _ _ _ Hi Hr Hc (ac_staging _ _ _ _ _ _ _ A)) as [_ Hst].
  specialize (Ht final (ac_final _ _ _ _ _ _ _ A)). unfold truthful in Ht.
  assert (Hclosed := inv_close (cut_owner cut) s Hi).
  destruct Hi as [Ha Hs Ho]. destruct (Ho _ _ _ Hr) as (_ & [Hu _] & Hf).
  destruct A as [_ Hd Hfin Hcur _ Hmeta Hsince ->]. split; cbn.
  - intros m [= <-]. cbn [bm_owner bm_version bm_generatedAt]. split; [exact Hcur|]. split; [exact Hu|].
    split; [exact Hd|]. split.
    + rewrite contents_apply, (patch_staged _ received) by done. apply Ht.
      destruct (cut_since c) as [since|] eqn:Es; cbn; [|by unfold contents; rewrite fmap_empty].
      destruct (checkedMeta date_parse (rg_activeMeta (sy_store s))) as [m|] eqn:Em; [|by destruct Hsince].
      destruct (Hmeta m eq_refl) as [_ <-]. apply checkedMeta_spec in Em as (stored & Em & _ & -> & _).
      destruct (Ha stored Em) as (Hcur' & _ & _ & Hcont & _). rewrite Hcur in Hcur'. by injection Hcur' as ->.
    + apply apply_fine; [done| |].
      * apply Forall_app. split; [by eapply staged_fine | by eapply checkedChanges_fine].
      * destruct (cut_since c); [|apply map_Forall_empty].
        destruct (checkedMeta date_parse (rg_activeMeta (sy_store s))) as [m|] eqn:Em; [|by destruct Hsince].
        apply checkedMeta_spec in Em as (stored & Em & _). by destruct (Ha stored Em) as (_ & _ & _ & _ & ?).
  - done.
  - exact (inv_open _ Hclosed).
Qed.

Lemma inv_discard cut s : sys_inv s -> sys_inv (sys_discard cut s).2.
Proof.
  intros Hi. unfold sys_discard, transact, discardBoxRegistryStage.
  destruct (checkedCut cut) as [c|]; [|by apply inv_close]. cbn [mbind option_bind].
  assert (Hclosed := inv_close (cut_owner cut) s Hi).
  destruct (negb _); [exact Hclosed|]. destruct (negb _); [exact Hclosed|].
  destruct Hclosed as [Ha _ Ho]. by split.
Qed.

Lemma sys_step_inv l s s' : sys_step l s s' -> sys_inv s -> sys_inv s'.
Proof.
  intros Hstep Hi. destruct Hstep.
  - by apply inv_write.
  - unfold on_store. destruct (read_cases b (sy_store s)) as [-> | ->]; [by destruct s | by apply inv_clear].
  - unfold on_store. destruct (lookup_cases b sscc (sy_store s)) as [-> | ->]; [by destruct s | by apply inv_clear].
  - by apply inv_begin.
  - by eapply inv_stage.
  - by eapply inv_activate.
  - by apply inv_discard.
Qed.

(** ** The registry never goes back *)

(** What one transaction may do to the active registry: leave it as it is, clear
    it, or replace it by a later revision for the same credential. *)
Definition advances (st st' : Registry) : Prop :=
  forall m, rg_activeMeta st = Some m -> owner_of_owner (bm_owner m) <> None ->
  rg_activeMeta st' = None \/
  exists m', rg_activeMeta st' = Some m' /\ bm_owner m' = bm_owner m
    /\ digits_value (bm_version m) <= digits_value (bm_version m').

Lemma advances_same st st' : rg_activeMeta st' = rg_activeMeta st -> advances st st'.
Proof. intros H m Hm _. rewrite H. right. by exists m. Qed.

Lemma advances_clear st st' : rg_activeMeta st' = None -> advances st st'.
Proof. intros H m _ _. by left. Qed.

Lemma sys_step_advances l s s' : sys_step l s s' -> sys_inv s -> advances (sy_store s) (sy_store s').
Proof.
  intros Hstep Hi. destruct Hstep; cbn.
  - unfold writeConfig. match goal with |- context [if ?b then clearRegistry _ else _] => destruct b end;
      [by apply advances_clear | by apply advances_same].
  - destruct (read_cases b (sy_store s)) as [-> | ->]; [by apply advances_same | by apply advances_clear].
  - destruct (lookup_cases b sscc (sy_store s)) as [-> | ->]; [by apply advances_same | by apply advances_clear].
  - apply advances_same. unfold sys_begin, transact, beginBoxRegistryStage.
    destruct (checkedCut cut); [|done]. cbn [mbind option_bind]. by destruct (negb _).
  - apply advances_same. unfold sys_stage, transact, stageBoxRegistryPage.
    destruct (checkedCut cut); [|done]. cbn [mbind option_bind]. destruct (checkedChanges _ _); [|done].
    cbn [mbind option_bind]. destruct (negb _); [done|]. by destruct (negb _).
  - unfold sys_activate, transact.
    destruct (activateBoxRegistryPage _ _ _ _ _) as [st'|] eqn:E; [|by apply advances_same].
    apply activate_Some in E as (c' & final & [Hc' _ _ Hcur _ Hmeta _ ->]). cbn. intros m Hm Hown. right.
    eexists. split; [done|]. cbn [bm_owner bm_version].
    destruct (inv_active _ Hi m Hm) as (Hcm & Hrev & Hdate & _).
    split; [congruence|]. apply checkedCut_spec in Hc' as [_ [_ Hs]].
    assert (exists m', checkedMeta date_parse (rg_activeMeta (sy_store s)) = Some m'
      /\ bm_version m' = bm_version m) as (m' & Em' & <-).
    { rewrite Hm. unfold checkedMeta. cbn [mbind option_bind].
      destruct (owner_of_owner (bm_owner m)); [|done]. cbn [mbind option_bind]. rewrite Hrev, Hdate. cbn. eauto. }
    destruct (Hmeta m' Em') as [_ Hv]. destruct (cut_since c') as [since|]; [|lia]. by subst since.
  - apply advances_same. unfold sys_discard, transact, discardBoxRegistryStage.
    destruct (checkedCut cut); [|done]. cbn [mbind option_bind]. destruct (negb _); [done|]. by destruct (negb _).
Qed.

(** ** What is read *)

Lemma read_owner b st m :
  (readBoxRegistryMeta date_parse b st).1 = Some m -> currentOwner st = Some (bm_owner m).
Proof.
  unfold readBoxRegistryMeta. destruct (boxRegistryBindingOf _ _) as [b'|]; [|done].
  destruct (negb (sameBoxRegistryBinding _ _)); [done|].
  destruct (checkedMeta _ _) as [m'|]; [|by destruct (rg_activeMeta _)].
  destruct (negb _) eqn:Eo; [done|]. cbn. intros [= <-].
  by apply negb_false_iff, sameOwner_spec in Eo as (o & [= <-] & ->).
Qed.

(** A registry that is read for a credential is the server's, and a look-up in it
    answers what the server says of the box. *)
Lemma read_mirrors s b m :
  sys_inv s -> (readBoxRegistryMeta date_parse b (sy_store s)).1 = Some m ->
  server (bm_owner m) (bm_version m) = Some (contents (rg_active (sy_store s)))
  /\ forall sscc, isValidSscc sscc = true ->
     row_content <$> (lookupBox date_parse b sscc (sy_store s)).1 = contents (rg_active (sy_store s)) !! sscc.
Proof.
  intros Hi. unfold readBoxRegistryMeta, lookupBox. destruct (boxRegistryBindingOf _ _) as [b'|]; [|done].
  destruct (negb (sameBoxRegistryBinding _ _)); [done|].
  destruct (checkedMeta _ _) as [m'|] eqn:Em; [|by destruct (rg_activeMeta _)].
  destruct (negb _) eqn:Eo; [done|]. cbn. intros [= <-].
  apply negb_false_iff, sameOwner_spec in Eo as (o & [= Eo] & Eo').
  apply checkedMeta_spec in Em as (stored & Em & _ & -> & _).
  destruct (inv_active _ Hi stored Em) as (Hcur & _ & _ & Hcont & Hrows).
  assert (bm_owner m' = bm_owner stored) as -> by congruence. split; [exact Hcont|].
  intros sscc ->. cbn. unfold contents. rewrite lookup_fmap.
  destruct (rg_active (sy_store s) !! sscc) as [row|] eqn:Er; [|done]. cbn [mbind option_bind].
  by destruct (Hrows sscc row Er) as [_ ->].
Qed.
End System.
