(* ===== verification/KioskRefresh.v ===== *)
(** * Refreshing the box registry

    [refreshBoxRegistry] of [apps/kiosk/src/sync/worker.ts]: pages are fetched
    until one has no cursor, staged, and activated with the last; a snapshot the
    server has dropped is asked for again, from the revision the store then has.

    The program awaits the operations of [registry_op]; [perform] runs them on a
    [KioskRegistry.System].  A [choice] says what other refreshes and the user
    interface did meanwhile (any function that is made of their transactions),
    whether the operation fails or the process dies, which name [randomUUID]
    returns, and what the server sends.  Names are taken to be fresh: a run in
    which one repeats is cut short. *)

From stdpp Require Import base list strings gmap sorting relations.
From Stdlib Require Import ZArith QArith Lia.
From S2P Require Import Prelude Gs1 KioskApi KioskCart KioskQueue Effects KioskRegistry.

#[local] Open Scope Z_scope.

(** ** Operations *)

Record PageQuery := { pq_since : option jsstr; pq_until : option jsstr; pq_cursor : option jsstr }.

Inductive registry_op : Type -> Type :=
| ReadMeta (b : BoxRegistryBinding) : registry_op (option BoxRegistryMeta)
| BoxRegistryPage (q : PageQuery) : registry_op value
| FreshUuid : registry_op jsstr
| BeginStage (cut : BoxRegistryCut) : registry_op unit
| StagePage (cut : BoxRegistryCut) (items : value) : registry_op unit
| ActivatePage (cut : BoxRegistryCut) (items : value) (generatedAt : jsstr) : registry_op unit
| DiscardStage (cut : BoxRegistryCut) : registry_op unit
| Wait (milliseconds : Z) : registry_op unit.

(** ** The program *)

Definition BOX_REGISTRY_RESTARTS : nat := 3.

(** The page, when it has the shape of one: its [until], its items, its cursor. *)
Definition page_of (page : value) : option (jsstr * value * option jsstr) :=
  if negb (is_object page) then None
  else match get (js "until") page, get (js "items") page, get (js "nextCursor") page with
  | VStr until, VArr items, VUndefined =>
      if is_revision until then Some (until, VArr items, None) else None
  | VStr until, VArr items, VStr cursor =>
      if is_revision until && (0 <? length cursor)%nat && (length cursor <=? 1024)%nat
      then Some (until, VArr items, Some cursor) else None
  | _, _, _ => None
  end.

Section Program.
Context (registryOwner : BoxRegistryCredentialOwner) (generatedAt : jsstr) (maxPages : nat).

(** What a [catch] block sees: the rejection, and [cut] as assigned by then. *)
Abbreviation attempt := (prog registry_op failure (failure * option BoxRegistryCut)).

Definition throwing {A} (cut : option BoxRegistryCut) (q : prog registry_op failure failure A) : attempt A :=
  try_catch q (fun e => Raise (e, cut)).

(** The [do] loop; [n] is what is left of [maxPages]. *)
Fixpoint fetch_pages (n : nat) (since : option jsstr) (cut : option BoxRegistryCut)
    (cursor : option jsstr) (seenCursors : list jsstr) : attempt unit :=
  match n with
  | O => Raise (DeviceError, cut)
  | S n' =>
      let! page := throwing cut (call (BoxRegistryPage
        {| pq_since := since; pq_until := cut_until <$> cut; pq_cursor := cursor |})) in
      match page_of page with
      | None => Raise (DeviceError, cut)
      | Some (until, items, nextCursor) =>
          let! cut' := match cut with
            | None =>
                let! owner := throwing None (call FreshUuid) in
                let cut' := {| cut_credential := registryOwner; cut_owner := owner; cut_since := since;
                               cut_until := until |} in
                throwing (Some cut') (call (BeginStage cut')) ;; Ret cut'
            | Some c => if jseqb until (cut_until c) then Ret c else Raise (DeviceError, cut)
            end in
          match nextCursor with
          | None => throwing (Some cut') (call (ActivatePage cut' items generatedAt))
          | Some next =>
              if bool_decide (next ∈ seenCursors) then Raise (DeviceError, Some cut')
              else throwing (Some cut') (call (StagePage cut' items)) ;;
                   fetch_pages n' since (Some cut') (Some next) (next :: seenCursors)
          end
      end
  end.

Definition snapshot_changed (e : failure) : bool :=
  match e with
  | KioskApiError status _ code _ =>
      (status =? 409) && bool_decide (code = Some (js "registry_snapshot_changed"))
  | _ => false
  end.

(** The [for] loop, with [left] turns to go after the attempts already made. *)
Fixpoint refresh_attempts (left : nat) (attempts : nat) (since : option jsstr)
  : prog registry_op failure failure unit :=
  match left with
  | O => Ret tt
  | S left' =>
      try_catch (fetch_pages maxPages since None None []) (fun '(error, cut) =>
        match cut with
        | Some c => try_catch (call (DiscardStage c))
            (fun storeError => Raise (if isDeviceRevoked error then error else storeError))
        | None => Ret tt
        end ;;
        if snapshot_changed error && (S attempts <? BOX_REGISTRY_RESTARTS)%nat then
          let! meta := call (ReadMeta (binding registryOwner)) in
          call (Wait (250 * 2 ^ Z.of_nat attempts)) ;;
          refresh_attempts left' (S attempts) (bm_version <$> meta)
        else Raise error)
  end.

Definition refreshBoxRegistry : prog registry_op failure failure unit :=
  let! meta := call (ReadMeta (binding registryOwner)) in
  refresh_attempts BOX_REGISTRY_RESTARTS 0 (bm_version <$> meta).
End Program.

(** ** The environment *)

Record choice := {
  c_meanwhile : gset jsstr -> System -> System; c_death : death; c_fails : option failure;
  c_uuid : jsstr; c_page : PageQuery -> value
}.

(** What the user interface does with the registry by itself. *)
Inductive shell_op :=
| WriteConfig (cfg : KioskConfig) (fresh : jsstr)
| ReadRegistryMeta (b : BoxRegistryBinding)
| LookupBox (b : BoxRegistryBinding) (sscc : jsstr).

(** The device, with the refreshes this run has started and, for the theorems,
    how often it asked the server and how long it waited. *)
Record RWorld := {
  rw_system : System; rw_mine : gset jsstr; rw_requests : nat; rw_waits : list Z
}.

Definition on_system (s : System) (w : RWorld) : RWorld :=
  {| rw_system := s; rw_mine := rw_mine w; rw_requests := rw_requests w; rw_waits := rw_waits w |}.

Definition own (id : jsstr) (w : RWorld) : RWorld :=
  {| rw_system := rw_system w; rw_mine := {[id]} ∪ rw_mine w; rw_requests := rw_requests w;
     rw_waits := rw_waits w |}.

Definition requested (w : RWorld) : RWorld :=
  {| rw_system := rw_system w; rw_mine := rw_mine w; rw_requests := S (rw_requests w);
     rw_waits := rw_waits w |}.

Definition waited (ms : Z) (w : RWorld) : RWorld :=
  {| rw_system := rw_system w; rw_mine := rw_mine w; rw_requests := rw_requests w;
     rw_waits := rw_waits w ++ [ms] |}.

Section Environment.
Context (date_parse : jsstr -> option Z).
(** What the server may send to a query; anything else is no answer. *)
Context (answers : PageQuery -> value -> bool).

Definition transaction (r : bool * System) (w : RWorld) : (unit + failure) * RWorld :=
  (if r.1 then inl tt else inr DeviceError, on_system r.2 w).

Definition effect {R} (o : registry_op R) (c : choice) (w : RWorld) : (R + failure) * RWorld :=
  match o in registry_op R return (R + failure) * RWorld with
  | ReadMeta b =>
      let r := readBoxRegistryMeta date_parse b (sy_store (rw_system w)) in
      (inl r.1, on_system (on_store (fun st => (readBoxRegistryMeta date_parse b st).2) (rw_system w)) w)
  | BoxRegistryPage q =>
      (if answers q (c_page c q) then inl (c_page c q) else inr NetworkError, w)
  | FreshUuid => (inl (c_uuid c), own (c_uuid c) w)
  | BeginStage cut => transaction (sys_begin cut (rw_system w)) w
  | StagePage cut items => transaction (sys_stage date_parse cut items (rw_system w)) w
  | ActivatePage cut items generatedAt =>
      transaction (sys_activate date_parse cut items generatedAt (rw_system w)) w
  | DiscardStage cut => transaction (sys_discard cut (rw_system w)) w
  | Wait _ => (inl tt, w)
  end.

Definition infallible {R} (o : registry_op R) : bool :=
  match o with FreshUuid | Wait _ => true | _ => false end.

(** [randomUUID] returned a name that is in use. *)
Definition repeats {R} (o : registry_op R) (c : choice) (w : RWorld) : bool :=
  match o with
  | FreshUuid => bool_decide (is_Some (sy_refreshes (rw_system w) !! c_uuid c) \/ c_uuid c ∈ rw_mine w)
  | _ => false
  end.

Definition noted {R} (o : registry_op R) (w : RWorld) : RWorld :=
  match o with BoxRegistryPage _ => requested w | Wait ms => waited ms w | _ => w end.

Definition perform (R : Type) (o : registry_op R) (c : choice) (w : RWorld) : option (R + failure) * RWorld :=
  let w1 := noted o (on_system (c_meanwhile c (rw_mine w) (rw_system w)) w) in
  match c_death c with
  | DiesBefore => (None, w1)
  | d =>
      if repeats o c w1 then (None, w1)
      else
        let '(r, w2) := match c_fails c with
          | Some e => if infallible o then effect o c w1 else (inr e, w1)
          | None => effect o c w1 end in
        match d with Alive => (Some r, w2) | _ => (None, w2) end
  end.
End Environment.

Ltac unfold_perform := unfold perform.

(** ** The registry is the server's, whatever happens *)

Section Mirror.
Context (date_parse : jsstr -> option Z).
Context (server : BoxRegistryCredentialOwner -> jsstr -> option (gmap jsstr BoxContent)).
Context (answers : PageQuery -> value -> bool).

Abbreviation perform := (perform date_parse answers).
Abbreviation sys_inv := (sys_inv date_parse server).

(** A transaction that is not of the refreshes [mine]. *)
Definition other_step (mine : gset jsstr) (s s' : System) : Prop :=
  exists l, (forall id, l = Some id -> id ∉ mine) /\ sys_step date_parse server l s s'.

(** What happens meanwhile is made of such transactions. *)
Definition fair (c : choice) : Prop := forall mine s, rtc (other_step mine) s (c_meanwhile c mine s).

Lemma sys_step_others l s s' id :
  sys_step date_parse server l s s' -> l <> Some id -> sy_refreshes s' !! id = sy_refreshes s !! id.
Proof.
  destruct 1; intros Hn; try done; cbn; unfold sys_begin, sys_stage, sys_activate, sys_discard, transact;
    match goal with |- context [match ?r with Some _ => _ | None => _ end] => destruct r end;
    cbn; rewrite lookup_insert_ne; congruence.
Qed.

Lemma others_kept mine s s' :
  rtc (other_step mine) s s' -> sys_inv s ->
  sys_inv s' /\ forall id, id ∈ mine -> sy_refreshes s' !! id = sy_refreshes s !! id.
Proof.
  induction 1 as [s|s1 s2 s3 (l & Hl & Hs) Hr IH]; intros Hi; [done|].
  destruct (IH (sys_step_inv _ _ _ _ _ Hs Hi)) as [Hi' Hk]. split; [exact Hi'|]. intros id Hid.
  rewrite Hk by done. eapply sys_step_others; [exact Hs|]. intros ->. by apply (Hl id).
Qed.

(** The changes a series of answers brings, from a query on to the page without a
    cursor. *)
Inductive delivers (since : option jsstr) (until : jsstr) : PageQuery -> list KioskBoxRegistryChange -> Prop :=
| delivers_last q page items changes :
    answers q page = true -> page_of page = Some (until, items, None) ->
    checkedChanges date_parse items = Some changes -> delivers since until q changes
| delivers_more q page items cursor changes rest :
    answers q page = true -> page_of page = Some (until, items, Some cursor) ->
    checkedChanges date_parse items = Some changes ->
    delivers since until {| pq_since := since; pq_until := Some until; pq_cursor := Some cursor |} rest ->
    delivers since until q (changes ++ rest).

(** The promise of the server to the holder of a credential: a complete series
    of answers leads from the revision that was asked for to the one answered. *)
Definition server_law (owner : BoxRegistryCredentialOwner) : Prop :=
  forall since until changes base,
    registry_since server owner since = Some base ->
    delivers since until {| pq_since := since; pq_until := None; pq_cursor := None |} changes ->
    server owner until = Some (patch changes base).

Context (registryOwner : BoxRegistryCredentialOwner) (generatedAt : jsstr) (maxPages : nat).
Context (Hlaw : forall owner, owner_of_owner registryOwner = Some owner -> server_law owner).

Definition good (w : RWorld) : Prop := sys_inv (rw_system w).

(** The state of a refresh of this run, which nobody else changes. *)
Definition held (id : jsstr) (r : option refresh) (w : RWorld) : Prop :=
  id ∈ rw_mine w /\ sy_refreshes (rw_system w) !! id = r.

Abbreviation safely p Q w := (wp perform fair p Q (fun _ => good) good w).

(** One operation: what others did before it is arbitrary, and it may fail. *)
Lemma safely_call {Y R} (thrown : failure -> Y) (o : registry_op R) (Q : R -> RWorld -> Prop) w :
  good w ->
  (forall c w1, good w1 ->
     (forall id r, held id r w -> held id r w1) ->
     repeats o c w1 = false ->
     let '(r, w2) := effect date_parse answers o c w1 in
     good w2 /\ match r with inl a => Q a w2 | inr _ => True end) ->
  safely (call_as thrown o) Q w.
Proof.
  intros Hg Ho. apply wp_call; [done|]. intros c Hc. unfold_perform.
  set (w1 := noted o (on_system (c_meanwhile c (rw_mine w) (rw_system w)) w)).
  destruct (others_kept _ _ _ (Hc (rw_mine w) (rw_system w)) Hg) as [Hi Hk].
  assert (Hs1 : rw_system w1 = c_meanwhile c (rw_mine w) (rw_system w)) by (subst w1; by destruct o).
  assert (Hm1 : rw_mine w1 = rw_mine w) by (subst w1; by destruct o).
  assert (Hg1 : good w1) by (unfold good; by rewrite Hs1).
  assert (Hall : repeats o c w1 = false -> let '(r, w2) := effect date_parse answers o c w1 in
    good w2 /\ match r with inl a => Q a w2 | inr _ => True end).
  { apply Ho; [exact Hg1|].
    intros id r [Hid Ho']. split; [by rewrite Hm1 | by rewrite Hs1, Hk]. }
  clearbody w1. destruct (c_death c) eqn:Ed; [|exact Hg1|];
    (destruct (repeats o c w1); [exact Hg1|]); specialize (Hall eq_refl);
    destruct (effect date_parse answers o c w1) as [r w2]; destruct Hall as [Hg2 Hr];
    (destruct (c_fails c); [destruct (infallible o)|]); try done; by destruct r.
Qed.

Lemma safely_throwing {R} cut (o : registry_op R) (Q : R -> RWorld -> Prop) w :
  safely (call o) Q w -> safely (throwing cut (call o)) Q w.
Proof. intros H. apply wp_try. eapply wp_mono; [exact H | done..]. Qed.

(** What a refresh that ends well leaves behind. *)
Definition installed (w : RWorld) : Prop :=
  exists m, rg_activeMeta (sy_store (rw_system w)) = Some m /\ bm_generatedAt m = generatedAt
    /\ owner_of_owner registryOwner = Some (bm_owner m).

(** The state of the [do] loop: the cut has been begun, and whatever the server
    sends from here to the last page makes the whole truthful. *)
Definition fetching (since : option jsstr) (cut : option BoxRegistryCut) (cursor : option jsstr)
    (w : RWorld) : Prop :=
  match cut with
  | None => cursor = None
  | Some cut' => exists c received,
      checkedCut cut' = Some c /\ cut_credential cut' = registryOwner /\ cut_since cut' = since
      /\ held (cut_owner cut') (Some (Open c received)) w
      /\ forall rest,
           delivers since (cut_until cut')
             {| pq_since := since; pq_until := Some (cut_until cut'); pq_cursor := cursor |} rest ->
           truthful server c (received ++ rest)
  end.


Lemma good_step l w s' :
  good w -> sys_step date_parse server l (rw_system w) s' -> good (on_system s' w).
Proof. intros Hg Hs. unfold good. cbn. by eapply sys_step_inv. Qed.

Lemma safely_begin cut' (Q : unit -> RWorld -> Prop) w :
  good w -> held (cut_owner cut') None w ->
  (forall c w', good w' -> checkedCut cut' = Some c -> held (cut_owner cut') (Some (Open c [])) w' -> Q tt w') ->
  safely (call (BeginStage cut')) Q w.
Proof.
  intros Hg Hh HQ. apply safely_call; [done|]. intros ch w1 Hg1 Hk _. destruct (Hk _ _ Hh) as [Hm Hn].
  cbn. unfold transaction. pose proof (good_step _ _ _ Hg1 (SBegin _ _ _ _ Hn)) as Hg2.
  split; [exact Hg2|]. unfold sys_begin, transact in *.
  destruct (beginBoxRegistryStage _ _) as [st'|] eqn:Eb; [|done]. cbn in *.
  unfold beginBoxRegistryStage in Eb. destruct (checkedCut cut') as [c|]; [|done].
  eapply HQ; [exact Hg2 | done|]. split; [done|]. cbn. by rewrite lookup_insert_eq.
Qed.

Lemma safely_stage cut' c received items (Q : unit -> RWorld -> Prop) w :
  good w -> held (cut_owner cut') (Some (Open c received)) w -> checkedCut cut' = Some c ->
  (forall new w', good w' -> checkedChanges date_parse items = Some new ->
     held (cut_owner cut') (Some (Open c (received ++ new))) w' -> Q tt w') ->
  safely (call (StagePage cut' items)) Q w.
Proof.
  intros Hg Hh Hc HQ. apply safely_call; [done|]. intros ch w1 Hg1 Hk _. destruct (Hk _ _ Hh) as [Hm Hn].
  cbn. unfold transaction. pose proof (good_step _ _ _ Hg1 (SStage _ _ _ _ _ items _ Hn Hc)) as Hg2.
  split; [exact Hg2|]. unfold sys_stage, transact in *. rewrite Hn in *.
  destruct (stageBoxRegistryPage _ _ _ _) as [st'|] eqn:Eb; [|done]. cbn in *.
  unfold stageBoxRegistryPage in Eb. rewrite Hc in Eb. cbn [mbind option_bind] in Eb.
  destruct (checkedChanges date_parse items) as [new|]; [|done].
  eapply HQ; [exact Hg2 | done|]. split; [done|]. cbn. by rewrite lookup_insert_eq.
Qed.

Lemma safely_activate cut' c received items at_ (Q : unit -> RWorld -> Prop) w :
  good w -> held (cut_owner cut') (Some (Open c received)) w -> checkedCut cut' = Some c ->
  (forall new, checkedChanges date_parse items = Some new -> truthful server c (received ++ new)) ->
  (forall w' m, good w' -> rg_activeMeta (sy_store (rw_system w')) = Some m ->
     bm_owner m = cut_credential c -> bm_generatedAt m = at_ -> Q tt w') ->
  safely (call (ActivatePage cut' items at_)) Q w.
Proof.
  intros Hg Hh Hc Ht HQ. apply safely_call; [done|]. intros ch w1 Hg1 Hk _. destruct (Hk _ _ Hh) as [Hm Hn].
  cbn. unfold transaction. pose proof (good_step _ _ _ Hg1 (SActivate _ _ _ _ _ items at_ _ Hn Hc Ht)) as Hg2.
  split; [exact Hg2|]. unfold sys_activate, transact in *.
  destruct (activateBoxRegistryPage _ _ _ _ _) as [st'|] eqn:Eb; [|done]. cbn in *.
  apply activate_Some in Eb as (c' & final & [Hc' _ _ _ _ _ _ Hst]). rewrite Hc in Hc'. injection Hc' as <-.
  eapply HQ; [exact Hg2| | |]; cbn; [by rewrite Hst | done..].
Qed.

Lemma safely_discard cut' (Q : unit -> RWorld -> Prop) w :
  good w -> (forall w', good w' -> Q tt w') -> safely (call (DiscardStage cut')) Q w.
Proof.
  intros Hg HQ. apply safely_call; [done|]. intros ch w1 Hg1 Hk _. cbn. unfold transaction.
  pose proof (good_step _ _ _ Hg1 (SDiscard _ _ cut' _)) as Hg2. split; [exact Hg2|].
  destruct (sys_discard _ _).1; [by apply HQ | done].
Qed.

Lemma safely_meta b (Q : option BoxRegistryMeta -> RWorld -> Prop) w :
  good w -> (forall m w', good w' -> Q m w') -> safely (call (ReadMeta b)) Q w.
Proof.
  intros Hg HQ. apply safely_call; [done|]. intros ch w1 Hg1 Hk _. cbn.
  pose proof (good_step _ _ _ Hg1 (SRead date_parse server b (rw_system w1))) as Hg2.
  split; [exact Hg2 | by apply HQ].
Qed.

Lemma safely_page q (Q : value -> RWorld -> Prop) w :
  good w ->
  (forall page w', good w' -> answers q page = true -> (forall id r, held id r w -> held id r w') -> Q page w') ->
  safely (call (BoxRegistryPage q)) Q w.
Proof.
  intros Hg HQ. apply safely_call; [done|]. intros ch w1 Hg1 Hk _. cbn. split; [done|].
  destruct (answers q (c_page ch q)) eqn:Ea; [|done]. by apply HQ.
Qed.

Lemma safely_uuid (Q : jsstr -> RWorld -> Prop) w :
  good w -> (forall id w', good w' -> held id None w' -> Q id w') -> safely (call FreshUuid) Q w.
Proof.
  intros Hg HQ. apply safely_call; [done|]. intros ch w1 Hg1 Hk Hr. cbn. split; [done|].
  apply HQ; [done|]. cbn [repeats] in Hr. apply bool_decide_eq_false in Hr. split; cbn; [set_solver|].
  destruct (sy_refreshes (rw_system w1) !! c_uuid ch); [|done]. destruct Hr. by left.
Qed.

Lemma safely_wait ms (Q : unit -> RWorld -> Prop) w :
  good w -> (forall w', good w' -> Q tt w') -> safely (call (Wait ms)) Q w.
Proof. intros Hg HQ. apply safely_call; [done|]. intros ch w1 Hg1 Hk _. by split; [|apply HQ]. Qed.

Lemma fetching_kept since cut cursor w w' :
  (forall id r, held id r w -> held id r w') -> fetching since cut cursor w -> fetching since cut cursor w'.
Proof.
  intros Hk. destruct cut as [cut'|]; cbn; [|done]. intros (c & received & Hc & Ho & Hs & Hh & Hrest).
  exists c, received. auto 10.
Qed.

(** A page that fits the loop opens the cut, if it was not, and continues it. *)
Lemma begin_safe since cut cursor until page items next w (Q : BoxRegistryCut -> RWorld -> Prop) :
  good w -> fetching since cut cursor w ->
  answers {| pq_since := since; pq_until := cut_until <$> cut; pq_cursor := cursor |} page = true ->
  page_of page = Some (until, items, next) ->
  (forall cut' c received w', good w' -> checkedCut cut' = Some c ->
     cut_credential cut' = registryOwner -> cut_since cut' = since ->
     held (cut_owner cut') (Some (Open c received)) w' ->
     (forall new, checkedChanges date_parse items = Some new ->
        match next with
        | None => truthful server c (received ++ new)
        | Some cursor' => forall rest,
            delivers since (cut_until cut')
              {| pq_since := since; pq_until := Some (cut_until cut'); pq_cursor := Some cursor' |} rest ->
            truthful server c (received ++ new ++ rest)
        end) -> Q cut' w') ->
  safely (match cut with
    | None =>
        let! owner := throwing None (call FreshUuid) in
        let cut' := {| cut_credential := registryOwner; cut_owner := owner; cut_since := since;
                       cut_until := until |} in
        throwing (Some cut') (call (BeginStage cut')) ;; Ret cut'
    | Some c => if jseqb until (cut_until c) then Ret c else Raise (DeviceError, cut)
    end) Q w.
Proof.
  intros Hg Hf Ha Hp HQ. destruct cut as [cut'|].
  - destruct Hf as (c & received & Hc & Ho & Hs & Hh & Hrest).
    destruct (jseqb until (cut_until cut')) eqn:Eu; [|exact Hg]. apply jseqb_eq in Eu. subst until.
    cbn. eapply HQ; [done | exact Hc | done | done | exact Hh|]. intros new Hnew.
    destruct next as [cursor'|].
    + intros rest Hd. apply Hrest. by eapply delivers_more.
    + apply Hrest. by eapply delivers_last.
  - cbn in Hf. subst cursor. apply wp_bind, safely_throwing, safely_uuid; [done|].
    intros id w1 Hg1 Hh. set (cut' := {| cut_credential := registryOwner |}).
    apply wp_bind, safely_throwing, safely_begin; [done | exact Hh|]. intros c w2 Hg2 Hc Hh2. cbn.
    destruct (checkedCut_fields _ _ Hc) as (Ho & Hs & Hu). cbn in Ho, Hs, Hu.
    eapply HQ; [done | exact Hc | done | done | exact Hh2|]. intros new Hnew.
    unfold truthful. rewrite Hs, Hu. cbn [app]. destruct next as [cursor'|].
    + intros rest Hd base Hb. apply (Hlaw _ Ho _ _ _ _ Hb). by eapply delivers_more.
    + intros base Hb. apply (Hlaw _ Ho _ _ _ _ Hb). by eapply delivers_last.
Qed.

Lemma fetch_pages_safe n since cut cursor seen w :
  good w -> fetching since cut cursor w ->
  safely (fetch_pages registryOwner generatedAt n since cut cursor seen) (fun _ w => good w /\ installed w) w.
Proof.
  revert cut cursor seen w. induction n as [|n IH]; intros cut cursor seen w Hg Hf; [exact Hg|].
  cbn [fetch_pages]. apply wp_bind, safely_throwing, safely_page; [done|].
  intros page w1 Hg1 Ha Hk. apply (fetching_kept _ _ _ _ _ Hk) in Hf.
  destruct (page_of page) as [[[until items] next]|] eqn:Ep; [|exact Hg1].
  apply wp_bind. eapply begin_safe; [done | exact Hf | exact Ha | exact Ep|].
  intros cut' c received w2 Hg2 Hc Ho Hs Hh Hnext. destruct next as [cursor'|].
  - destruct (bool_decide (cursor' ∈ seen)); [exact Hg2|].
    apply wp_bind, safely_throwing. eapply safely_stage; [done | exact Hh | exact Hc|].
    intros new w3 Hg3 Hnew Hh3. apply IH; [done|]. exists c, (received ++ new).
    split; [done|]. split; [done|]. split; [done|]. split; [done|]. intros rest Hd.
    rewrite <- app_assoc. by apply Hnext.
  - apply safely_throwing. eapply safely_activate; [done | exact Hh | exact Hc | exact Hnext|].
    intros w3 m Hg3 Hm Hown Hat. split; [done|]. exists m. split; [done|]. split; [done|]. rewrite Hown.
    destruct (checkedCut_fields _ _ Hc) as (Hcr & _). congruence.
Qed.

Lemma refresh_attempts_safe left attempts since w :
  good w -> (0 < left)%nat -> (left + attempts = BOX_REGISTRY_RESTARTS)%nat ->
  safely (refresh_attempts registryOwner generatedAt maxPages left attempts since) (fun _ w => good w /\ installed w) w.
Proof.
  revert attempts since w. induction left as [|left IH]; intros attempts since w Hg Hl Hsum; [lia|].
  cbn [refresh_attempts]. apply wp_try.
  eapply wp_mono; [by apply fetch_pages_safe | done | |done].
  intros [error cut] w1 Hg1. apply wp_bind.
  assert (Hnext : forall w2, good w2 ->
    safely (if snapshot_changed error && (S attempts <? BOX_REGISTRY_RESTARTS)%nat then
              let! meta := call (ReadMeta (binding registryOwner)) in
              call (Wait (250 * 2 ^ Z.of_nat attempts)) ;;
              refresh_attempts registryOwner generatedAt maxPages left (S attempts) (bm_version <$> meta)
            else Raise error) (fun _ w => good w /\ installed w) w2).
  { intros w2 Hg2. destruct (snapshot_changed error); [|exact Hg2].
    destruct (Nat.ltb_spec (S attempts) BOX_REGISTRY_RESTARTS); [|exact Hg2]. cbn [andb].
    apply wp_bind, safely_meta; [done|]. intros m w3 Hg3. apply wp_bind, safely_wait; [done|].
    intros w4 Hg4. apply IH; [done|lia|lia]. }
  destruct cut as [cut'|]; [|by apply Hnext]. apply wp_try.
  eapply wp_mono; [by apply (safely_discard cut' (fun _ => good)) | | |].
  - intros [] w2 Hg2. by apply Hnext.
  - intros e w2 Hg2. by destruct (isDeviceRevoked error).
  - done.
Qed.

Lemma refreshBoxRegistry_safe w :
  good w -> safely (refreshBoxRegistry registryOwner generatedAt maxPages) (fun _ w => good w /\ installed w) w.
Proof.
  intros Hg. apply wp_bind, safely_meta; [done|]. intros m w1 Hg1.
  apply refresh_attempts_safe; [done | unfold BOX_REGISTRY_RESTARTS; lia | done].
Qed.
End Mirror.

(** ** The life of a device *)

Section Life.
Context (date_parse : jsstr -> option Z).
Context (server : BoxRegistryCredentialOwner -> jsstr -> option (gmap jsstr BoxContent)).
(** What the server may send to the holder of a credential. *)
Context (answers : BoxRegistryCredentialOwner -> PageQuery -> value -> bool).

Inductive activity :=
| ARefresh (registryOwner : BoxRegistryCredentialOwner) (generatedAt : jsstr) (maxPages : nat)
    (cs : list choice)
| AShell (o : shell_op).

Definition shell (o : shell_op) (st : Registry) : Registry :=
  match o with
  | WriteConfig cfg fresh => writeConfig cfg fresh st
  | ReadRegistryMeta b => (readBoxRegistryMeta date_parse b st).2
  | LookupBox b sscc => (lookupBox date_parse b sscc st).2
  end.

(** One after the other; what overlaps a refresh is in its choices. *)
Definition act (s : System) (a : activity) : System :=
  match a with
  | ARefresh registryOwner generatedAt maxPages cs =>
      rw_system (run (perform date_parse (answers registryOwner))
        (refreshBoxRegistry registryOwner generatedAt maxPages) cs
        {| rw_system := s; rw_mine := ∅; rw_requests := 0; rw_waits := [] |}).2
  | AShell o => on_store (shell o) s
  end.

Definition live (activities : list activity) (s : System) : System := fold_left act activities s.

(** A device before its first refresh. *)
Definition bare_device (config : option KioskConfig) : System :=
  {| sy_store := {| rg_config := config; rg_active := ∅; rg_activeMeta := None; rg_staging := ∅;
                    rg_stagingMeta := None |};
     sy_refreshes := ∅ |}.

Definition fair_activity (a : activity) : Prop :=
  match a with ARefresh _ _ _ cs => Forall (fair date_parse server) cs | AShell _ => True end.

Lemma bare_inv config : sys_inv date_parse server (bare_device config).
Proof. by split. Qed.

Context (Hlaw : forall registryOwner owner, owner_of_owner registryOwner = Some owner ->
  server_law date_parse server (answers registryOwner) owner).

Lemma act_inv s a :
  sys_inv date_parse server s -> fair_activity a -> sys_inv date_parse server (act s a).
Proof.
  intros Hi Hf. destruct a as [registryOwner generatedAt maxPages cs|o]; cbn [act].
  - pose proof (wp_sound _ _ _ _ _ _ _ cs (refreshBoxRegistry_safe date_parse server (answers registryOwner)
      registryOwner generatedAt maxPages (Hlaw registryOwner)
      {| rw_system := s; rw_mine := ∅; rw_requests := 0; rw_waits := [] |} Hi) Hf) as H.
    match goal with |- context [run ?pf ?p ?c ?w] => destruct (run pf p c w) as [[[[]|x|] cs'] w'] end;
      [apply H | exact H..].
  - destruct o; cbn [shell]; eapply sys_step_inv; (exact Hi || constructor).
Qed.

Lemma live_inv activities s :
  sys_inv date_parse server s -> Forall fair_activity activities ->
  sys_inv date_parse server (live activities s).
Proof.
  intros Hi Hf. revert s Hi. induction Hf as [|a activities Ha Hf IH]; intros s Hi; [done|].
  apply IH. by apply act_inv.
Qed.

(** Whatever refreshes run on a device, complete, fail, die or overlap, and
    whatever the configuration becomes meanwhile: when the registry can be read
    for an installation, its rows are exactly the registry of the credential in
    use at the revision the store names, and a look-up answers for every box what
    the server says of it at that revision.  The server is only assumed to answer
    a complete series of pages with the changes between the two revisions. *)
Theorem registry_mirrors_server (config : option KioskConfig) (activities : list activity)
    (b : BoxRegistryBinding) (m : BoxRegistryMeta) :
  Forall fair_activity activities ->
  let st := sy_store (live activities (bare_device config)) in
  (readBoxRegistryMeta date_parse b st).1 = Some m ->
  currentOwner st = Some (bm_owner m) /\
  server (bm_owner m) (bm_version m) = Some (contents (rg_active st)) /\
  forall sscc, isValidSscc sscc = true ->
    row_content <$> (lookupBox date_parse b sscc st).1 = contents (rg_active st) !! sscc.
Proof.
  intros Hf st Hread. pose proof (live_inv activities _ (bare_inv config) Hf) as Hi.
  split; [by eapply read_owner|]. by eapply read_mirrors.
Qed.
End Life.

(** ** How much a refresh may cost *)

Section Cost.
Context (date_parse : jsstr -> option Z) (answers : PageQuery -> value -> bool).
Context (registryOwner : BoxRegistryCredentialOwner) (generatedAt : jsstr) (maxPages : nat).

Abbreviation perform_op := (perform date_parse answers).

Definition asked {R} (o : registry_op R) : nat := match o with BoxRegistryPage _ => 1 | _ => 0 end.
Definition pause {R} (o : registry_op R) : list Z := match o with Wait ms => [ms] | _ => [] end.

(** At most [n] requests, and a beginning of the waits [ms]. *)
Definition spent (n : nat) (ms : list Z) (w : RWorld) : Prop :=
  (rw_requests w <= n)%nat /\ rw_waits w `prefix_of` ms.

(** [w'] is [w] after the operation [o], as far as its cost goes. *)
Definition charged {R} (o : registry_op R) (w w' : RWorld) : Prop :=
  rw_requests w' = (asked o + rw_requests w)%nat /\ rw_waits w' = rw_waits w ++ pause o.

Lemma effect_charged {R} (o : registry_op R) c w w1 :
  charged o w w1 -> charged o w (effect date_parse answers o c w1).2.
Proof. intros H. by destruct o. Qed.

Lemma noted_charged {R} (o : registry_op R) s w : charged o w (noted o (on_system s w)).
Proof. unfold charged. by destruct o; cbn; rewrite ?app_nil_r. Qed.

Lemma cost_call {Y R} (thrown : failure -> Y) (o : registry_op R) (Q : R -> RWorld -> Prop) (U : RWorld -> Prop) w :
  U w -> (forall w', charged o w w' -> U w') ->
  (forall c w0 w' a, charged o w w' -> effect date_parse answers o c w0 = (inl a, w') -> Q a w') ->
  wp perform_op (fun _ => True) (call_as thrown o) Q (fun _ => U) U w.
Proof.
  intros Hw Hs HQ. apply wp_call; [exact Hw|]. intros c _. unfold_perform.
  set (w1 := noted o (on_system (c_meanwhile c (rw_mine w) (rw_system w)) w)).
  assert (H1 : charged o w w1) by apply noted_charged. clearbody w1.
  pose proof (effect_charged o c w w1 H1) as H2.
  destruct (effect date_parse answers o c w1) as [r w2] eqn:Ee. cbn in H2.
  assert (Hr : match r with inl a => Q a w2 | inr e => U w2 end).
  { destruct r as [a|e]; [by eapply HQ | by apply Hs]. }
  destruct (c_death c); [|by apply Hs|]; (destruct (repeats o c w1); [by apply Hs|]);
    (destruct (c_fails c); [destruct (infallible o)|]); rewrite ?Ee; try (by apply Hs); by destruct r.
Qed.

Lemma cost_throwing {R} cut (o : registry_op R) (Q : R -> RWorld -> Prop) (U : RWorld -> Prop) w :
  wp perform_op (fun _ => True) (call o) Q (fun _ => U) U w ->
  wp perform_op (fun _ => True) (throwing cut (call o)) Q (fun _ => U) U w.
Proof. intros H. apply wp_try. eapply wp_mono; [exact H | done..]. Qed.

(** At most [n] requests so far, and no more waits than [ms]. *)
Definition exactly (n : nat) (ms : list Z) (w : RWorld) : Prop :=
  (rw_requests w <= n)%nat /\ rw_waits w = ms.

Lemma charged_exactly {R} (o : registry_op R) n ms w w' :
  charged o w w' -> pause o = [] -> exactly n ms w -> (asked o + rw_requests w <= n)%nat -> exactly n ms w'.
Proof. intros [Hr Hw] Hp [Hn Hm] Ha. split; [lia|]. by rewrite Hw, Hp, app_nil_r. Qed.

(** An activation that went through. *)
Definition installed_now (w : RWorld) : Prop :=
  exists m, rg_activeMeta (sy_store (rw_system w)) = Some m /\ bm_generatedAt m = generatedAt
    /\ owner_of_owner registryOwner = Some (bm_owner m).

Abbreviation costs p Q U w := (wp perform_op (fun _ => True) p Q (fun _ => U) U w).

(** An operation that is neither a request nor a wait costs nothing. *)
Lemma cost_free {R} cut (o : registry_op R) (Q : R -> RWorld -> Prop) n ms w :
  asked o = 0%nat -> pause o = [] -> exactly n ms w ->
  (forall c w0 w' a, exactly n ms w' -> rw_requests w' = rw_requests w ->
     effect date_parse answers o c w0 = (inl a, w') -> Q a w') ->
  costs (throwing cut (call o)) Q (exactly n ms) w.
Proof.
  intros Ha Hp Hw HQ. apply cost_throwing, cost_call; [exact Hw| |].
  - intros w' Hc. eapply charged_exactly; [exact Hc | done | exact Hw|]. rewrite Ha. by destruct Hw.
  - intros c w0 w' a Hc He. eapply HQ; [| |exact He].
    + eapply charged_exactly; [exact Hc | done | exact Hw|]. rewrite Ha. by destruct Hw.
    + destruct Hc as [Hc _]. by rewrite Hc, Ha.
Qed.

Lemma fetch_pages_cost k since cut cursor seen n ms w :
  (forall c, cut = Some c -> cut_credential c = registryOwner) ->
  exactly n ms w -> (rw_requests w + k <= n)%nat ->
  costs (fetch_pages registryOwner generatedAt k since cut cursor seen)
    (fun _ w' => exactly n ms w' /\ installed_now w') (exactly n ms) w.
Proof.
  revert cut cursor seen w. induction k as [|k IH]; intros cut cursor seen w Hcut Hw Hk; [exact Hw|].
  cbn [fetch_pages]. apply wp_bind, cost_throwing, cost_call; [exact Hw| |].
  { intros w' Hc. eapply charged_exactly; [exact Hc | done | exact Hw | cbn; lia]. }
  intros c w0 w1 page Hc _. assert (Hw1 : exactly n ms w1) by (eapply charged_exactly; [exact Hc|done|exact Hw|cbn; lia]).
  assert (Hr1 : (rw_requests w1 + k <= n)%nat) by (destruct Hc as [Hc _]; cbn in Hc; lia).
  destruct (page_of page) as [[[until items] next]|]; [|exact Hw1]. apply wp_bind.
  eapply (wp_mono _ _ _ (fun cut' w2 => exactly n ms w2 /\ (rw_requests w2 + k <= n)%nat
    /\ cut_credential cut' = registryOwner) _ (fun _ => exactly n ms) _ (exactly n ms)); [| |done|done].
  - destruct cut as [cut'|]; [destruct (jseqb until (cut_until cut')); [cbn; auto | exact Hw1]|].
    apply wp_bind, cost_free; [done..|]. intros c1 w2 w3 id Hw3 Hr3 _.
    apply wp_bind, cost_free; [done..|]. intros c2 w4 w5 [] Hw5 Hr5 _. cbn. split; [done|]. split; [lia | done].
  - intros cut' w2 (Hw2 & Hr2 & Hcred). destruct next as [cursor'|].
    + destruct (bool_decide (cursor' ∈ seen)); [exact Hw2|]. apply wp_bind.
      apply cost_free; [done..|]. intros c1 w3 w4 [] Hw4 Hr4 _. apply IH; [by intros ? [= <-] | done | lia].
    + apply cost_free; [done..|]. intros c' w' w3 [] Hw3 _ He. split; [exact Hw3|].
      cbn in He. unfold transaction in He. injection He as He <-. unfold sys_activate, transact in *.
      destruct (activateBoxRegistryPage _ _ _ _ _) as [st'|] eqn:Ea; [|done].
      apply activate_Some in Ea as (c'' & final & [Hc' _ _ _ _ _ _ Hst]).
      eexists. cbn. rewrite Hst. split; [done|]. split; [done|]. cbn [bm_owner].
      destruct (checkedCut_fields _ _ Hc') as (Ho & _). congruence.
Qed.

(** The waits of the attempts that are left. *)
Definition backoffs (left attempts : nat) : list Z :=
  map (fun i => 250 * 2 ^ Z.of_nat i) (seq attempts (left - 1)).

Lemma refresh_attempts_cost left attempts since n ms w :
  (0 < left)%nat -> (left + attempts = BOX_REGISTRY_RESTARTS)%nat ->
  rw_waits w = ms -> (rw_requests w + left * maxPages <= n)%nat ->
  costs (refresh_attempts registryOwner generatedAt maxPages left attempts since)
    (fun _ w' => spent n (ms ++ backoffs left attempts) w' /\ installed_now w')
    (spent n (ms ++ backoffs left attempts)) w.
Proof.
  revert attempts since ms w. induction left as [|left IH]; intros attempts since ms w Hl Hsum Hms Hn; [lia|].
  set (last := (rw_requests w + maxPages)%nat).
  assert (Hspent : forall w', exactly last ms w' -> spent n (ms ++ backoffs (S left) attempts) w').
  { intros w' [Hr' Hm']. split; [subst last; lia|]. rewrite Hm'. by apply prefix_app_r. }
  cbn [refresh_attempts]. apply wp_try.
  eapply wp_mono; [apply (fetch_pages_cost maxPages since None None [] last ms w); [done|by split; [lia|]|lia]
    | by intros [] w' [? ?]; auto | |exact Hspent].
  intros [error cut] w1 Hw1. apply wp_bind.
  assert (Hnext : forall w2, exactly last ms w2 ->
    costs (if snapshot_changed error && (S attempts <? BOX_REGISTRY_RESTARTS)%nat then
              let! meta := call (ReadMeta (binding registryOwner)) in
              call (Wait (250 * 2 ^ Z.of_nat attempts)) ;;
              refresh_attempts registryOwner generatedAt maxPages left (S attempts) (bm_version <$> meta)
            else Raise error)
      (fun _ w' => spent n (ms ++ backoffs (S left) attempts) w' /\ installed_now w')
      (spent n (ms ++ backoffs (S left) attempts)) w2).
  { intros w2 Hw2. destruct (snapshot_changed error); [|by apply Hspent].
    destruct (Nat.ltb_spec (S attempts) BOX_REGISTRY_RESTARTS) as [Hlt|]; [|by apply Hspent]. cbn [andb].
    assert (0 < left)%nat by lia.
    assert (Hb : ms ++ backoffs (S left) attempts
      = (ms ++ [250 * 2 ^ Z.of_nat attempts]) ++ backoffs left (S attempts)).
    { rewrite <- app_assoc. f_equal. unfold backoffs. destruct left as [|left]; [lia|].
      cbn [Nat.sub]. by rewrite Nat.sub_0_r. }
    apply wp_bind. apply cost_call; [by apply Hspent| |].
    { intros w' [Hr' Hm']. apply Hspent. destruct Hw2. split; [cbn in *; lia|].
      rewrite Hm'. cbn. by rewrite app_nil_r. }
    intros c w0 w3 m [Hr3 Hm3] _. destruct Hw2 as [Hr2 Hm2]. cbn in Hr3, Hm3. rewrite app_nil_r, Hm2 in Hm3.
    apply wp_bind. apply cost_call.
    { apply Hspent. split; [lia | done]. }
    { intros w' [Hr' Hm']. cbn in Hr', Hm'. split; [subst last; lia|].
      rewrite Hm', Hm3, Hb. by apply prefix_app_r. }
    intros c' w0' w4 [] [Hr4 Hm4] _. cbn in Hr4, Hm4. rewrite Hm3 in Hm4. rewrite Hb.
    apply IH; [done | lia | done | subst last; lia]. }
  destruct cut as [cut'|]; [|by apply Hnext]. apply wp_try.
  assert (Hd : forall w', charged (DiscardStage cut') w1 w' -> exactly last ms w').
  { intros w' Hc. eapply charged_exactly; [exact Hc | done | exact Hw1 | by destruct Hw1]. }
  eapply (wp_mono _ _ _ (fun _ => exactly last ms) _ (fun _ => exactly last ms) _ (exactly last ms));
    [apply cost_call; [exact Hw1 | exact Hd | by intros c w0 w' a Hc _; apply Hd] | | |exact Hspent].
  - intros [] w2 Hw2. by apply Hnext.
  - intros e w2 Hw2. by apply Hspent.
Qed.

Lemma refreshBoxRegistry_cost w :
  costs (refreshBoxRegistry registryOwner generatedAt maxPages)
    (fun _ w' => spent (rw_requests w + 3 * maxPages) (rw_waits w ++ [250; 500]) w' /\ installed_now w')
    (spent (rw_requests w + 3 * maxPages) (rw_waits w ++ [250; 500])) w.
Proof.
  apply wp_bind, cost_call.
  - split; [lia | by apply prefix_app_r].
  - intros w' [Hr Hm]. cbn in Hr, Hm. rewrite app_nil_r in Hm. split; [lia|]. rewrite Hm. by apply prefix_app_r.
  - intros c w0 w' m [Hr Hm] _. cbn in Hr, Hm. rewrite app_nil_r in Hm. rewrite <- Hm.
    apply (refresh_attempts_cost BOX_REGISTRY_RESTARTS 0); [unfold BOX_REGISTRY_RESTARTS; lia | done | done|].
    unfold BOX_REGISTRY_RESTARTS. lia.
Qed.

(** A refresh asks for at most three times the page limit and waits at most
    250 and then 500 milliseconds, whatever the server sends (cursors that cycle
    or never end included) and whatever fails; and it ends well only by leaving an
    active registry of its credential with the time it was generated at. *)
Theorem refresh_bounded (s : System) (cs : list choice) :
  let '(e, _, w) := run perform_op (refreshBoxRegistry registryOwner generatedAt maxPages) cs
    {| rw_system := s; rw_mine := ∅; rw_requests := 0; rw_waits := [] |} in
  (rw_requests w <= 3 * maxPages)%nat /\ rw_waits w `prefix_of` [250; 500] /\
  (e = Done tt -> exists m,
     rg_activeMeta (sy_store (rw_system w)) = Some m /\ bm_generatedAt m = generatedAt
     /\ owner_of_owner registryOwner = Some (bm_owner m)).
Proof.
  pose proof (wp_sound perform_op (fun _ => True) _ _ _ _ _ cs (refreshBoxRegistry_cost
    {| rw_system := s; rw_mine := ∅; rw_requests := 0; rw_waits := [] |})) as H.
  specialize (H ltac:(by apply Forall_forall)).
  destruct (run _ _ _ _) as [[[[]|x|] cs'] w'].
  - by destruct H as [[? ?] ?].
  - by destruct H as [? ?].
  - by destruct H as [? ?].
Qed.
End Cost.
