(* ===== verification/KioskRefreshDone.v ===== *)
(** * A refresh of the box registry that is not disturbed succeeds

    When nothing fails, nobody interferes and the server answers with a series
    of well-formed pages that ends within the page limit, [refreshBoxRegistry]
    ends within [2 n + 3] operations for [n] pages, and the active registry is
    the previous one (or the empty one, for a first refresh) with the changes of
    all pages applied in the order they were sent.  Also the sample runs for the
    theorems of [KioskRefresh]. *)

From stdpp Require Import base list strings gmap sorting relations.
From Stdlib Require Import ZArith QArith Lia.
From S2P Require Import Prelude Gs1 KioskApi KioskCart KioskQueue Effects KioskRegistry KioskRefresh.

#[local] Open Scope Z_scope.

Section Done.
Context (date_parse : jsstr -> option Z) (answers : PageQuery -> value -> bool).
Context (serve : PageQuery -> value).
Context (registryOwner : BoxRegistryCredentialOwner) (generatedAt : jsstr) (maxPages : nat).

(** The pages [serve] gives from a query on: how many, and what they bring; no
    cursor repeats. *)
Inductive serves (since : option jsstr) (until : jsstr)
  : nat -> list jsstr -> PageQuery -> list KioskBoxRegistryChange -> Prop :=
| serves_last seen q items changes :
    answers q (serve q) = true -> page_of (serve q) = Some (until, items, None) ->
    checkedChanges date_parse items = Some changes -> serves since until 1 seen q changes
| serves_more k seen q items cursor changes rest :
    answers q (serve q) = true -> page_of (serve q) = Some (until, items, Some cursor) ->
    checkedChanges date_parse items = Some changes -> cursor ∉ seen ->
    serves since until k (cursor :: seen)
      {| pq_since := since; pq_until := Some until; pq_cursor := Some cursor |} rest ->
    serves since until (S k) seen q (changes ++ rest).

(** A choice of the environment in which all goes well; the names in [used] are
    taken. *)
Record quiet (used : gset jsstr) (c : choice) : Prop := {
  quiet_meanwhile : forall mine s, c_meanwhile c mine s = s;
  quiet_death : c_death c = Alive;
  quiet_fails : c_fails c = None;
  quiet_uuid : (c_uuid c ∉ used) /\ ((0 < length (c_uuid c)) /\ (length (c_uuid c) <= 128))%nat;
  quiet_page : forall q, c_page c q = serve q
}.

Context (used : gset jsstr).
Abbreviation reaches p k Q w := (reach (perform date_parse answers) (quiet used) p k Q w).

Lemma reach_op {Y R} (thrown : failure -> Y) (o : registry_op R) (Q : R -> RWorld -> Prop) w :
  (forall c, quiet used c -> repeats o c (noted o w) = false
     /\ exists a w', effect date_parse answers o c (noted o w) = (inl a, w') /\ Q a w') ->
  reaches (call_as thrown o) 1 Q w.
Proof.
  intros Ho. apply reach_call. intros c Hc. destruct (Ho c Hc) as (Hr & a & w' & He & HQ).
  exists a, w'. split; [|exact HQ]. unfold perform. rewrite (quiet_meanwhile _ _ Hc), (quiet_death _ _ Hc).
  assert (on_system (rw_system w) w = w) as -> by (by destruct w).
  by rewrite Hr, (quiet_fails _ _ Hc), He.
Qed.

Lemma reach_throwing {R} cut (o : registry_op R) k Q w :
  reaches (call o) k Q w -> reaches (throwing cut (call o)) k Q w.
Proof. apply reach_try. Qed.

(** ** The loop *)

Context (rows : gmap jsstr StoredBoxRegistryRow) (meta : option BoxRegistryMeta).
Context (Hcanonical : owner_of_owner registryOwner = Some registryOwner).
Context (Hdate : readable_date date_parse generatedAt = true).

(** What the loop leaves alone until the last page. *)
Definition unchanged (w : RWorld) : Prop :=
  currentOwner (sy_store (rw_system w)) = Some registryOwner
  /\ rg_active (sy_store (rw_system w)) = rows /\ rg_activeMeta (sy_store (rw_system w)) = meta.

Definition staged (cut : BoxRegistryCut) (received : list KioskBoxRegistryChange) (w : RWorld) : Prop :=
  unchanged w /\ rg_stagingMeta (sy_store (rw_system w)) = Some cut
  /\ rg_staging (sy_store (rw_system w)) = fold_left stage_change received ∅.

Definition base (since : option jsstr) : gmap jsstr BoxContent :=
  match since with None => ∅ | Some _ => contents rows end.

(** The end: the changes applied, under the revision and the time they carry. *)
Definition refreshed (since : option jsstr) (until : jsstr) (changes : list KioskBoxRegistryChange)
    (w : RWorld) : Prop :=
  rg_activeMeta (sy_store (rw_system w))
    = Some {| bm_owner := registryOwner; bm_version := until; bm_generatedAt := generatedAt |}
  /\ contents (rg_active (sy_store (rw_system w))) = patch changes (base since).

(** The revisions fit: nothing is active yet, or what is active is the revision
    the refresh starts from. *)
Definition revisions_fit (since : option jsstr) (until : jsstr) : Prop :=
  is_revision until = true /\
  match since with
  | None => checkedMeta date_parse meta = None
  | Some v => is_revision v = true /\ (digits_value v <= digits_value until)
      /\ exists m, checkedMeta date_parse meta = Some m /\ bm_owner m = registryOwner /\ bm_version m = v
  end.

Definition cut_for (since : option jsstr) (until id : jsstr) : BoxRegistryCut :=
  {| cut_credential := registryOwner; cut_owner := id; cut_since := since; cut_until := until |}.

Lemma cut_for_checked since until id :
  revisions_fit since until -> (0 < length id <= 128)%nat ->
  checkedCut (cut_for since until id) = Some (cut_for since until id).
Proof.
  intros [Hu Hs] Hid. unfold checkedCut, cut_for. cbn [cut_credential cut_owner cut_since cut_until].
  rewrite Hcanonical. cbn [mbind option_bind].
  destruct (Nat.eqb_spec (length id) 0); [lia|]. destruct (Nat.ltb_spec 128 (length id)); [lia|]. cbn [orb].
  rewrite Hu. destruct since as [v|].
  - destruct Hs as (Hr & Hv & _). change (option_list (Some v)) with [v]. cbn [forallb]. rewrite Hr.
    cbn. by destruct (Z.ltb_spec (digits_value until) (digits_value v)); [lia|].
  - done.
Qed.

Lemma same_owner_refl : sameBoxRegistryCredentialOwner (Some registryOwner) (Some registryOwner) = true.
Proof. apply sameOwner_spec. eauto. Qed.

Lemma same_cut_refl since until id :
  sameCut (Some (cut_for since until id)) (cut_for since until id) = true.
Proof.
  unfold sameCut. cbn [cut_for cut_credential cut_owner cut_since cut_until].
  by rewrite !jseqb_refl, bool_decide_eq_true_2, Hcanonical, same_owner_refl by done.
Qed.

(** ** One operation at a time *)

Lemma reach_page q (Q : value -> RWorld -> Prop) w :
  answers q (serve q) = true ->
  (forall w', rw_system w' = rw_system w -> rw_mine w' = rw_mine w -> Q (serve q) w') ->
  reaches (call (BoxRegistryPage q)) 1 Q w.
Proof.
  intros Ha HQ. apply reach_op. intros c Hc. split; [done|]. exists (serve q). eexists.
  cbn [effect noted]. rewrite (quiet_page _ _ Hc), Ha. split; [done | by apply HQ].
Qed.

Lemma reach_page_same q w :
  answers q (serve q) = true ->
  reaches (call (BoxRegistryPage q)) 1
    (fun page w' => page = serve q /\ rw_system w' = rw_system w /\ rw_mine w' = rw_mine w) w.
Proof. intros Ha. by apply reach_page. Qed.

Lemma reach_uuid (Q : jsstr -> RWorld -> Prop) w :
  dom (sy_refreshes (rw_system w)) ⊆ used -> rw_mine w = ∅ ->
  (forall id w', (0 < length id <= 128)%nat -> rw_system w' = rw_system w -> Q id w') ->
  reaches (call FreshUuid) 1 Q w.
Proof.
  intros Hd Hm HQ. apply reach_op. intros c Hc. destruct (quiet_uuid _ _ Hc) as [Hf Hl]. split.
  - cbn. apply bool_decide_eq_false. rewrite Hm. intros [Hx|Hx]; [|set_solver].
    apply Hf, Hd. by apply elem_of_dom.
  - eexists _, _. split; [done|]. by apply HQ.
Qed.

Lemma reach_begin since until id (Q : unit -> RWorld -> Prop) w :
  revisions_fit since until -> (0 < length id <= 128)%nat -> unchanged w ->
  (forall w', staged (cut_for since until id) [] w' -> Q tt w') ->
  reaches (call (BeginStage (cut_for since until id))) 1 Q w.
Proof.
  intros Hf Hid (Ho & Hr & Hm) HQ. apply reach_op. intros c _. split; [done|]. exists tt. eexists.
  cbn. unfold transaction, sys_begin, transact, beginBoxRegistryStage.
  rewrite (cut_for_checked _ _ _ Hf Hid). cbn [mbind option_bind]. rewrite Ho.
  change (cut_credential (cut_for since until id)) with registryOwner. rewrite same_owner_refl.
  cbn. split; [done|]. apply HQ. by repeat split.
Qed.

Lemma reach_stage since until id received items changes (Q : unit -> RWorld -> Prop) w :
  revisions_fit since until -> (0 < length id <= 128)%nat ->
  staged (cut_for since until id) received w -> checkedChanges date_parse items = Some changes ->
  (forall w', staged (cut_for since until id) (received ++ changes) w' -> Q tt w') ->
  reaches (call (StagePage (cut_for since until id) items)) 1 Q w.
Proof.
  intros Hf Hid ((Ho & Hr & Hm) & Hc & Hs) Hch HQ. apply reach_op. intros c _. split; [done|]. exists tt. eexists.
  cbn. unfold transaction, sys_stage, transact, stageBoxRegistryPage.
  rewrite (cut_for_checked _ _ _ Hf Hid), Hch. cbn [mbind option_bind]. rewrite Ho.
  change (cut_credential (cut_for since until id)) with registryOwner. rewrite same_owner_refl, Hc, same_cut_refl.
  cbn. split; [done|]. apply HQ. split; [by repeat split|]. cbn. by rewrite Hs, fold_left_app.
Qed.

Lemma reach_activate since until id received items changes (Q : unit -> RWorld -> Prop) w :
  revisions_fit since until -> (0 < length id <= 128)%nat ->
  staged (cut_for since until id) received w -> checkedChanges date_parse items = Some changes ->
  (forall w', refreshed since until (received ++ changes) w' -> Q tt w') ->
  reaches (call (ActivatePage (cut_for since until id) items generatedAt)) 1 Q w.
Proof.
  intros Hf Hid ((Ho & Hr & Hm) & Hc & Hs) Hch HQ. apply reach_op. intros c _. split; [done|]. exists tt. eexists.
  cbn. unfold transaction, sys_activate, transact, activateBoxRegistryPage.
  rewrite (cut_for_checked _ _ _ Hf Hid). cbn [mbind option_bind]. rewrite Hdate, Hch. cbn [negb mbind option_bind].
  rewrite Ho. change (cut_credential (cut_for since until id)) with registryOwner.
  rewrite same_owner_refl, Hc, same_cut_refl. cbn [negb]. rewrite Hm, Hr.
  assert (Hok : match checkedMeta date_parse meta with
      | Some m =>
          if negb (sameBoxRegistryCredentialOwner (Some (bm_owner m)) (Some registryOwner)) then None
          else match since with
          | None => if digits_value until <=? digits_value (bm_version m) then None else Some tt
          | Some v => if jseqb (bm_version m) v then Some tt else None
          end
      | None => match since with None => Some tt | Some _ => None end
      end = Some tt).
  { destruct Hf as [_ Hf]. destruct since as [v|]; [|by rewrite Hf].
    destruct Hf as (_ & _ & m & -> & -> & ->). by rewrite same_owner_refl, jseqb_refl. }
  cbn [cut_since cut_until cut_for]. rewrite Hok. cbn. split; [done|]. apply HQ. split; [done|]. cbn.
  rewrite contents_apply, (patch_staged _ received) by done. f_equal. unfold base. destruct since; [done|].
  unfold contents. by rewrite fmap_empty.
Qed.

(** ** The loop and the refresh *)

Lemma staged_system cut received w w' :
  rw_system w' = rw_system w -> staged cut received w -> staged cut received w'.
Proof. unfold staged, unchanged. by intros ->. Qed.

(** The end of one turn: the page is staged, or activated when it is the last. *)
Lemma fetch_rest since until id k seen q changes :
  revisions_fit since until -> (0 < length id <= 128)%nat -> serves since until k seen q changes ->
  forall n received w, (k <= n)%nat -> pq_since q = since -> pq_until q = Some until ->
  staged (cut_for since until id) received w ->
  reaches (fetch_pages registryOwner generatedAt n since (Some (cut_for since until id)) (pq_cursor q) seen)
    (2 * k) (fun _ => refreshed since until (received ++ changes)) w.
Proof.
  intros Hf Hid. induction 1 as [seen q items changes Ha Hp Hc|k seen q items cursor changes rest Ha Hp Hc Hn Hs IH];
    intros n received w Hk Hq1 Hq2 Hst; (destruct n as [|n]; [lia|]); cbn [fetch_pages];
    (assert (Hq : {| pq_since := since; pq_until := cut_until <$> Some (cut_for since until id);
                     pq_cursor := pq_cursor q |} = q) by (destruct q; cbn in *; by subst));
    rewrite Hq.
  - change (2 * 1)%nat with (1 + 1)%nat. eapply reach_bind; [by apply reach_throwing, reach_page_same|].
    intros page w1 (-> & Hw1 & _). apply (staged_system _ _ _ _ Hw1) in Hst. rewrite Hp.
    cbn [cut_until cut_for]. rewrite jseqb_refl. cbn [bind].
    apply reach_throwing. eapply reach_activate; [done..|]. auto.
  - replace (2 * S k)%nat with (1 + (1 + 2 * k))%nat by lia.
    eapply reach_bind; [by apply reach_throwing, reach_page_same|].
    intros page w1 (-> & Hw1 & _). apply (staged_system _ _ _ _ Hw1) in Hst. rewrite Hp.
    cbn [cut_until cut_for]. rewrite jseqb_refl. cbn [bind]. rewrite bool_decide_eq_false_2 by done.
    eapply (reach_bind _ _ _ _ 1 _ (fun _ => staged (cut_for since until id) (received ++ changes))).
    + apply reach_throwing. by eapply reach_stage.
    + intros [] w2 Hst2. rewrite app_assoc. apply (IH n (received ++ changes) w2); [lia | done..].
Qed.

Lemma fetch_first since until k changes n w :
  revisions_fit since until ->
  serves since until k [] {| pq_since := since; pq_until := None; pq_cursor := None |} changes ->
  (k <= n)%nat -> unchanged w -> dom (sy_refreshes (rw_system w)) ⊆ used -> rw_mine w = ∅ ->
  reaches (fetch_pages registryOwner generatedAt n since None None [])
    (2 * k + 2) (fun _ => refreshed since until changes) w.
Proof.
  intros Hf Hs Hk Hu Hd Hm. destruct n as [|n]; [inversion Hs; lia|]. cbn [fetch_pages].
  change (cut_until <$> None) with (None (A:=jsstr)).
  set (q := {| pq_since := since; pq_until := None; pq_cursor := None |}) in *.
  replace (2 * k + 2)%nat with (1 + (2 + (2 * k - 1)))%nat by (inversion Hs; lia).
  eapply reach_bind; [apply reach_throwing, reach_page_same; by inversion Hs|].
  intros page w1 (-> & Hw1 & Hm1).
  assert (Hbegin : forall u, u = until -> reaches (
     let! owner := throwing None (call FreshUuid) in
     let cut' := {| cut_credential := registryOwner; cut_owner := owner; cut_since := since; cut_until := u |} in
     throwing (Some cut') (call (BeginStage cut')) ;; Ret cut') 2
     (fun cut' w2 => exists id, (0 < length id <= 128)%nat /\ cut' = cut_for since until id
                     /\ staged cut' [] w2) w1).
  { intros u ->. apply (reach_bind _ _ _ _ 1 1 (fun id w2 => (0 < length id <= 128)%nat /\ unchanged w2)).
    - apply reach_throwing, reach_uuid; [by rewrite Hw1 | by rewrite Hm1|].
      intros id w2 Hid Hw2. split; [done|]. unfold unchanged. by rewrite Hw2, Hw1.
    - intros id w2 [Hid Hu2]. apply (reach_bind _ _ _ _ 1 0 (fun _ => staged (cut_for since until id) [])).
      + apply reach_throwing. by eapply (reach_begin since until id).
      + intros [] w3 Hst. apply reach_ret. eauto. }
  inversion Hs as [seen' q' items changes' Ha Hp Hc|k' seen' q' items cursor changes' rest Ha Hp Hc Hn Hs']; subst;
    rewrite Hp; (eapply (reach_bind _ _ _ _ 2 _ _); [by apply Hbegin|]); intros cut' w2 (id & Hid & -> & Hst).
  - cbn. apply reach_throwing. eapply reach_activate; [done..|]. auto.
  - rewrite bool_decide_eq_false_2 by set_solver.
    replace (2 * S k' - 1)%nat with (1 + 2 * k')%nat by lia.
    eapply (reach_bind _ _ _ _ 1 _ (fun _ => staged (cut_for since until id) ([] ++ changes'))).
    + apply reach_throwing. by eapply reach_stage.
    + intros [] w3 Hst3. by apply (fetch_rest _ _ _ _ _ _ _ Hf Hid Hs' n changes' w3); [lia|..].
Qed.
End Done.

(** ** The whole refresh *)

Section Install.
Context (date_parse : jsstr -> option Z) (answers : PageQuery -> value -> bool).
Context (serve : PageQuery -> value).
Context (registryOwner : BoxRegistryCredentialOwner) (generatedAt : jsstr) (maxPages : nat).

Lemma canonical_binding :
  owner_of_owner registryOwner = Some registryOwner ->
  boxRegistryBindingOf (Some (serverUrl (binding registryOwner))) (Some (kioskId (binding registryOwner)))
  = Some (binding registryOwner).
Proof.
  unfold owner_of_owner, boxRegistryCredentialOwnerOf.
  destruct (boxRegistryBindingOf _ _) as [b|]; [|done].
  destruct (credentialGenerationOf _) as [g|]; [|done]. intros H. injection H as H. by rewrite <- H.
Qed.

(** Reading the meta of the owner in use: what it answers, and what it leaves. *)
Lemma read_current st :
  owner_of_owner registryOwner = Some registryOwner -> currentOwner st = Some registryOwner ->
  let '(found, st') := readBoxRegistryMeta date_parse (binding registryOwner) st in
  currentOwner st' = Some registryOwner
  /\ match found with
     | Some m => st' = st /\ checkedMeta date_parse (rg_activeMeta st) = Some m /\ bm_owner m = registryOwner
     | None => checkedMeta date_parse (rg_activeMeta st') = None
     end.
Proof.
  intros Hcan Hcur. unfold readBoxRegistryMeta. rewrite (canonical_binding Hcan), Hcur. cbn [fmap option_fmap option_map].
  rewrite (proj2 (sameBinding_spec _ _)) by eauto. cbn [negb].
  destruct (checkedMeta date_parse (rg_activeMeta st)) as [m|] eqn:Em.
  - destruct (negb _) eqn:Eo; [by split|]. apply negb_false_iff, sameOwner_spec in Eo as (o & [= <-] & [= Ho]).
    by repeat split.
  - by destruct (rg_activeMeta st) eqn:E; split; cbn; rewrite ?E.
Qed.

Lemma checkedMeta_revision meta m :
  checkedMeta date_parse meta = Some m -> is_revision (bm_version m) = true.
Proof.
  unfold checkedMeta. destruct meta as [stored|]; [|done]. cbn [mbind option_bind].
  destruct (owner_of_owner _); [|done]. cbn [mbind option_bind].
  destruct (negb (readable_date _ _) || negb (is_revision (bm_version stored))) eqn:E; [done|].
  intros [= <-]. apply orb_false_iff in E as [_ E]. by apply negb_false_iff.
Qed.

(** A refresh that nobody disturbs succeeds: when the server answers with
    [k] well-formed pages, [k] within the page limit, the refresh ends within
    [2 k + 3] operations, and the active registry is the previous one (the empty
    one when there was none) with the changes of all the pages applied in order,
    under the revision the pages were cut at. *)
Theorem refresh_installs (s : System) (cs : list choice) (k : nat) (until : jsstr)
    (changes : list KioskBoxRegistryChange) :
  let '(found, st) := readBoxRegistryMeta date_parse (binding registryOwner) (sy_store s) in
  owner_of_owner registryOwner = Some registryOwner -> readable_date date_parse generatedAt = true ->
  currentOwner (sy_store s) = Some registryOwner ->
  is_revision until = true -> (forall m, found = Some m -> digits_value (bm_version m) <= digits_value until) ->
  serves date_parse answers serve (bm_version <$> found) until k []
    {| pq_since := bm_version <$> found; pq_until := None; pq_cursor := None |} changes ->
  (k <= maxPages)%nat ->
  Forall (quiet serve (dom (sy_refreshes s))) cs -> (2 * k + 3 <= length cs)%nat ->
  exists rest w,
    run (perform date_parse answers) (refreshBoxRegistry registryOwner generatedAt maxPages) cs
      {| rw_system := s; rw_mine := ∅; rw_requests := 0; rw_waits := [] |} = (Done tt, rest, w)
    /\ rg_activeMeta (sy_store (rw_system w))
       = Some {| bm_owner := registryOwner; bm_version := until; bm_generatedAt := generatedAt |}
    /\ contents (rg_active (sy_store (rw_system w)))
       = patch changes (match found with None => ∅ | Some _ => contents (rg_active st) end).
Proof.
  destruct (readBoxRegistryMeta _ _ _) as [found st] eqn:Er. intros Hcan Hdate Hcur Hu Hle Hs Hk Hcs Hlen.
  pose proof (read_current (sy_store s) Hcan Hcur) as Hread. rewrite Er in Hread. destruct Hread as [Hcur' Hfound].
  set (w0 := {| rw_system := s; rw_mine := ∅; rw_requests := 0; rw_waits := [] |}).
  destruct (reach_run (perform date_parse answers) (quiet serve (dom (sy_refreshes s)))
    (refreshBoxRegistry registryOwner generatedAt maxPages) (2 * k + 3)
    (fun _ => refreshed registryOwner generatedAt (rg_active st) (bm_version <$> found) until changes) w0 cs)
    as ([] & rest & w & Hrun & Hm & Hc); [|done..|].
  - replace (2 * k + 3)%nat with (1 + (2 * k + 2))%nat by lia.
    apply (reach_bind _ _ _ _ 1 _ (fun m w => m = found /\ sy_store (rw_system w) = st
      /\ sy_refreshes (rw_system w) = sy_refreshes s /\ rw_mine w = ∅)).
    + apply (reach_op _ _ serve). intros c _. split; [done|]. eexists _, _. split; [done|]. cbn. by rewrite Er.
    + intros m w1 (-> & Hst & Hr & Hmine). cbn [refresh_attempts]. apply reach_try.
      apply (fetch_first _ _ serve _ _ _ (rg_active st) (rg_activeMeta st)); try done.
      * split; [done|]. destruct found as [m|]; [|exact Hfound]. destruct Hfound as (-> & Hm & Ho).
        split; [by eapply checkedMeta_revision|]. split; [by apply Hle | by exists m].
      * split; [by rewrite Hst|]. by rewrite Hst.
      * by rewrite Hr.
  - exists rest, w. split; [done|]. split; [done|]. rewrite Hc. by destruct found.
Qed.
End Install.

(** ** A run *)

Definition sample_registry_owner : BoxRegistryCredentialOwner :=
  {| binding := {| serverUrl := js "https://m.example"; kioskId := js "11111111-1111-4111-8111-111111111111" |};
     credentialGeneration := js "22222222-2222-4222-8222-222222222222" |}.

Definition sample_registry_config : KioskConfig :=
  {| kc_serverUrl := js "https://m.example/"; kc_token := Some (js "t");
     kc_kioskId := Some (js "11111111-1111-4111-8111-111111111111");
     kc_generation := Some (js "22222222-2222-4222-8222-222222222222") |}.

Definition sample_content (key : string) : BoxContent :=
  {| bx_boxId := js "33333333-3333-4333-8333-333333333333";
     bx_productId := js "44444444-4444-4444-8444-444444444444"; bx_bottleCount := 1;
     bx_contentKeys := [js key]; bx_updatedAt := js "2026-01-01T00:00:00.000Z" |}.

Definition sample_sscc_1 : jsstr := js "046000000000000015".
Definition sample_sscc_2 : jsstr := js "046000000000000022".

Definition sample_item (sscc : jsstr) (key : string) : value := raw_change (row_of sscc [] (sample_content key)).

(** Two pages: a box, and then another one. *)
Definition sample_serve (q : PageQuery) : value :=
  match pq_cursor q with
  | None => VObj [(js "until", VStr (js "5")); (js "items", VArr [sample_item sample_sscc_1 "a"]);
                  (js "nextCursor", VStr (js "p2"))]
  | Some _ => VObj [(js "until", VStr (js "5")); (js "items", VArr [sample_item sample_sscc_2 "b"])]
  end.

Definition sample_changes (q : PageQuery) : list KioskBoxRegistryChange :=
  match pq_cursor q with
  | None => [Upsert sample_sscc_1 (sample_content "a")]
  | Some _ => [Upsert sample_sscc_2 (sample_content "b")]
  end.

Abbreviation sample_parse := (fun _ : jsstr => Some 0).

Definition sample_answers (q : PageQuery) (page : value) : bool :=
  match page_of page with
  | Some (until, items, next) =>
      jseqb until (js "5")
      && bool_decide (next = match pq_cursor q with None => Some (js "p2") | Some _ => None end)
      && bool_decide (checkedChanges sample_parse items = Some (sample_changes q))
  | None => false
  end.

Definition sample_registry : gmap jsstr BoxContent :=
  <[sample_sscc_2 := sample_content "b"]> {[sample_sscc_1 := sample_content "a"]}.

Definition sample_server (_ : BoxRegistryCredentialOwner) (version : jsstr)
  : option (gmap jsstr BoxContent) :=
  if jseqb version (js "5") then Some sample_registry else None.

Lemma sample_answers_inv q page until items next :
  sample_answers q page = true -> page_of page = Some (until, items, next) ->
  until = js "5" /\ next = match pq_cursor q with None => Some (js "p2") | Some _ => None end
  /\ checkedChanges sample_parse items = Some (sample_changes q).
Proof.
  unfold sample_answers. intros H Hp. rewrite Hp in H. apply andb_true_iff in H as [H H3].
  apply andb_true_iff in H as [H1 H2]. apply jseqb_eq in H1. apply bool_decide_eq_true in H2, H3. done.
Qed.

Lemma sample_law owner : server_law sample_parse sample_server sample_answers owner.
Proof.
  intros since until changes base Hb H. inversion H as [q page items c Ha Hp Hc|q page items cursor c rest Ha Hp Hc Hd]; subst;
    destruct (sample_answers_inv _ _ _ _ _ Ha Hp) as (Hu & Hn & Hch); [done|].
  injection Hn as ->. rewrite Hch in Hc. injection Hc as <-.
  inversion Hd as [q' page' items' c' Ha' Hp' Hc'|q' page' items' cursor' c' rest' Ha' Hp' Hc' Hd']; subst;
    destruct (sample_answers_inv _ _ _ _ _ Ha' Hp') as (Hu' & Hn' & Hch'); [|done].
  rewrite Hch' in Hc'. injection Hc' as <-. unfold sample_server.
  assert (base = ∅ \/ base = sample_registry) as Hb'.
  { destruct since as [since|]; cbn in Hb; [|by left; injection Hb].
    unfold sample_server in Hb. destruct (jseqb since (js "5")); [|done]. right. by injection Hb. }
  clear -Hb'. destruct Hb' as [-> | ->]; vm_compute; reflexivity.
Qed.

Definition sample_refresh_choice : choice :=
  {| c_meanwhile := fun _ s => s; c_death := Alive; c_fails := None;
     c_uuid := js "55555555-5555-4555-8555-555555555555"; c_page := sample_serve |}.

Definition sample_refreshes : list activity :=
  [ARefresh sample_registry_owner (js "2026-01-02T00:00:00.000Z") 10 (replicate 7 sample_refresh_choice)].

Abbreviation sample_device :=
  (live sample_parse (fun _ => sample_answers) sample_refreshes (bare_device (Some sample_registry_config))).

Lemma registry_mirrors_server_witness :
  exists m, (readBoxRegistryMeta sample_parse (binding sample_registry_owner) (sy_store sample_device)).1 = Some m
  /\ sample_server (bm_owner m) (bm_version m) = Some (contents (rg_active (sy_store sample_device)))
  /\ size (rg_active (sy_store sample_device)) = 2%nat.
Proof.
  exists {| bm_owner := sample_registry_owner; bm_version := js "5";
            bm_generatedAt := js "2026-01-02T00:00:00.000Z" |}.
  assert (Hread : (readBoxRegistryMeta sample_parse (binding sample_registry_owner) (sy_store sample_device)).1
    = Some {| bm_owner := sample_registry_owner; bm_version := js "5";
              bm_generatedAt := js "2026-01-02T00:00:00.000Z" |}) by (vm_compute; reflexivity).
  split; [exact Hread|]. split; [|vm_compute; reflexivity].
  refine (proj1 (proj2 (registry_mirrors_server sample_parse sample_server (fun _ => sample_answers)
    (fun _ owner _ => sample_law owner) (Some sample_registry_config) sample_refreshes
    (binding sample_registry_owner) _ _ Hread))).
  repeat constructor.
Defined.

Lemma refresh_installs_witness :
  exists rest w,
    run (perform sample_parse sample_answers)
      (refreshBoxRegistry sample_registry_owner (js "2026-01-02T00:00:00.000Z") 10)
      (replicate 7 sample_refresh_choice)
      {| rw_system := bare_device (Some sample_registry_config); rw_mine := ∅; rw_requests := 0; rw_waits := [] |}
    = (Done tt, rest, w)
    /\ contents (rg_active (sy_store (rw_system w))) = sample_registry.
Proof.
  destruct (refresh_installs sample_parse sample_answers sample_serve sample_registry_owner
    (js "2026-01-02T00:00:00.000Z") 10 (bare_device (Some sample_registry_config))
    (replicate 7 sample_refresh_choice) 2 (js "5")
    (sample_changes {| pq_since := None; pq_until := None; pq_cursor := None |}
     ++ sample_changes {| pq_since := None; pq_until := Some (js "5"); pq_cursor := Some (js "p2") |}))
    as (rest & w & Hrun & _ & Hc).
  - vm_compute. reflexivity.
  - reflexivity.
  - vm_compute. reflexivity.
  - vm_compute. reflexivity.
  - by intros m [=].
  - eapply serves_more; [vm_compute; reflexivity | vm_compute; reflexivity | vm_compute; reflexivity | set_solver|].
    eapply serves_last; [vm_compute; reflexivity | vm_compute; reflexivity | vm_compute; reflexivity].
  - lia.
  - apply Forall_replicate. split; try done. split; [set_solver | split; apply Nat.leb_le; reflexivity].
  - rewrite length_replicate. lia.
  - exists rest, w. split; [exact Hrun|]. rewrite Hc. vm_compute. reflexivity.
Defined.
