(* ===== verification/BoxFacts.v ===== *)
(** * What the server knows about a box

    [apps/api/src/modules/kiosk/box-registry.service.ts], the part that the
    registry feed and the pickup orders share: the tables of one organization
    they read ([packages/db/src/schema]), the facts about the members of a box,
    and whether a box is one that can be handed out.  Queries are written as
    list comprehensions; an [id] compares as its text, an instant is its time
    value in milliseconds. *)

From stdpp Require Import base list strings gmap.
From Stdlib Require Import ZArith Lia.
From S2P Require Import Prelude Gs1 Km KioskApi.

#[local] Open Scope Z_scope.

Definition MAX_BOX_REGISTRY_MEMBERS : nat := 500.
Definition MAX_REGISTRY_PAGE_MEMBER_KEYS : nat := 1000.

(** ** Tables *)

Record ProductRow := {
  p_id : jsstr; p_gtin14 : jsstr; p_unitPrice : option jsstr; p_archived : bool
}.

Record ShiftRow := {
  s_id : jsstr; s_status : jsstr; s_productId : jsstr; s_productionDate : option jsstr;
  s_plannedDate : option jsstr
}.

Record PalletRow := {
  pl_id : jsstr; pl_shiftId : option jsstr; pl_terminalId : option jsstr; pl_productId : option jsstr;
  pl_sscc : option jsstr; pl_closedAt : option Z; pl_closureReceivedAt : option Z;
  pl_disassembledAt : option Z
}.

Record BoxRow := {
  b_id : jsstr; b_shiftId : jsstr; b_terminalId : option jsstr; b_deviceBoxId : jsstr; b_sscc : option jsstr;
  b_closedAt : option Z; b_closureReceivedAt : option Z; b_disassembledAt : option Z;
  b_palletId : option jsstr; b_registryVersion : Z; b_updatedAt : Z
}.

Record BoxItemRow := {
  bi_boxId : jsstr; bi_codeHash : jsstr; bi_addedAt : Z; bi_displacedAt : option Z;
  bi_removedAt : option Z
}.

Record CodeRegistryRow := {
  cr_codeHash : jsstr; cr_shiftId : jsstr; cr_terminalId : option jsstr; cr_scannedAt : Z;
  cr_updatedAt : Z
}.

Record CodeRow := {
  c_codeHash : jsstr; c_scannedAt : Z; c_canonicalRaw : jsstr; c_gtin14 : jsstr; c_serial : jsstr
}.

(** The tables of one organization that describe its boxes. *)
Record Stock := {
  products : list ProductRow; shifts : list ShiftRow; pallets : list PalletRow;
  boxes : list BoxRow; boxItems : list BoxItemRow; codeRegistry : list CodeRegistryRow;
  codes : list CodeRow
}.

(** ** Candidates and facts *)

Record BoxRegistryCandidate := {
  id : jsstr; shiftId : jsstr; terminalId : option jsstr; sscc : option jsstr;
  productId : jsstr; productGtin14 : jsstr; closedAt : option Z; closureReceivedAt : option Z;
  disassembledAt : option Z; palletId : option jsstr; palletSscc : option jsstr;
  palletDisassembledAt : option Z; productionDate : option jsstr; registryVersion : Z;
  updatedAt : Z
}.

Record BoxRegistryMemberFact := {
  f_boxId : jsstr; f_codeHash : jsstr; addedAt : Z; displacedAt : option Z; removedAt : option Z;
  registryShiftId : option jsstr; registryTerminalId : option jsstr;
  registryScannedAt : option Z; registryUpdatedAt : option Z;
  canonicalRaw : option jsstr; canonicalGtin14 : option jsstr; totalMembershipCount : nat
}.

Definition is_in (l : list jsstr) (s : jsstr) : bool := bool_decide (s ∈ l).

(** [counts.get(boxId) ?? 0]. *)
Definition count_of (counts : gmap jsstr nat) (boxId : jsstr) : nat := default 0%nat (counts !! boxId).

(** One row per box that has items: [least(count(all rows), 501)]. *)
Definition loadBoxRegistryMembershipCounts (db : Stock) (candidates : list BoxRegistryCandidate)
  : gmap jsstr nat :=
  match candidates with
  | [] => ∅
  | _ =>
      let rows := List.filter (fun item => is_in (map id candidates) (bi_boxId item)) (boxItems db) in
      list_to_map ((fun boxId =>
        (boxId, length (List.filter (fun item => jseqb (bi_boxId item) boxId) rows)
                  `min` S MAX_BOX_REGISTRY_MEMBERS)%nat) <$> remove_dups (map bi_boxId rows))
  end.

(** The rows of [left_rows] a [leftJoin] pairs a row with; the row alone when
    there are none. *)
Definition left_join {A} (rows : list A) : list (option A) :=
  match rows with [] => [None] | _ => map Some rows end.

(** [orderBy(boxId, codeHash)]. *)
Definition fact_leb (x y : BoxRegistryMemberFact) : bool :=
  js_ltb (f_boxId x) (f_boxId y)
  || (jseqb (f_boxId x) (f_boxId y) && js_leb (f_codeHash x) (f_codeHash y)).

(** The rows of the joins for one member. *)
Definition item_facts (db : Stock) (total : nat) (item : BoxItemRow) : list BoxRegistryMemberFact :=
  registry ← left_join (List.filter (fun r => jseqb (cr_codeHash r) (bi_codeHash item))
                          (codeRegistry db));
  code ← left_join (List.filter (fun c => jseqb (c_codeHash c) (bi_codeHash item)
             && bool_decide (Some (c_scannedAt c) = cr_scannedAt <$> registry)) (codes db));
  [{| f_boxId := bi_boxId item; f_codeHash := bi_codeHash item; addedAt := bi_addedAt item;
      displacedAt := bi_displacedAt item; removedAt := bi_removedAt item;
      registryShiftId := cr_shiftId <$> registry;
      registryTerminalId := r ← registry; cr_terminalId r;
      registryScannedAt := cr_scannedAt <$> registry;
      registryUpdatedAt := cr_updatedAt <$> registry;
      canonicalRaw := c_canonicalRaw <$> code; canonicalGtin14 := c_gtin14 <$> code;
      totalMembershipCount := total |}].

Definition member_rows (db : Stock) (boxIds : list jsstr) (total : jsstr -> nat)
  : list BoxRegistryMemberFact :=
  js_sort fact_leb
    (item ← List.filter (fun item => is_in boxIds (bi_boxId item)) (boxItems db);
     item_facts db (total (bi_boxId item)) item).

(** What stands for the members of a box that has too many. *)
Definition oversized (boxId : jsstr) (total : nat) : BoxRegistryMemberFact :=
  {| f_boxId := boxId; f_codeHash := []; addedAt := 0; displacedAt := None; removedAt := None;
     registryShiftId := None; registryTerminalId := None; registryScannedAt := None;
     registryUpdatedAt := None; canonicalRaw := None; canonicalGtin14 := None;
     totalMembershipCount := total |}.

(** The facts of each candidate's box, as [result.get(id) ?? []] reads them. *)
Definition resolveBoxRegistryFacts (db : Stock) (candidates : list BoxRegistryCandidate)
    (counts : gmap jsstr nat) (boxId : jsstr) : list BoxRegistryMemberFact :=
  let total := count_of counts in
  let boundedBoxIds := List.filter (fun boxId =>
    (0 <? total boxId)%nat && (total boxId <=? MAX_BOX_REGISTRY_MEMBERS)%nat) (map id candidates) in
  if negb (is_in (map id candidates) boxId) then []
  else if (MAX_BOX_REGISTRY_MEMBERS <? total boxId)%nat then [oversized boxId (total boxId)]
  else List.filter (fun fact => jseqb (f_boxId fact) boxId) (member_rows db boundedBoxIds total).

(** ** Eligibility *)

Inductive StationBoxRegistryChange :=
| StationUpsert (boxId sscc productId : jsstr) (bottleCount : Z) (contentKeys : list jsstr)
    (updatedAt : jsstr) (palletId palletSscc : option jsstr) (palletActive : bool)
    (closedAt : jsstr) (productionDate : option jsstr)
| StationRemove (sscc updatedAt : jsstr).

Definition ineligibleChange (candidate : BoxRegistryCandidate) (delta : bool)
  : option StationBoxRegistryChange :=
  s ← sscc candidate;
  if negb delta || negb (isValidSscc s) then None
  else Some (StationRemove s (toISOString (updatedAt candidate))).

(** [fact.removedAt !== null && fact.removedAt > closureReceivedAt]. *)
Definition after (at_ : option Z) (closure : Z) : bool :=
  match at_ with Some t => closure <? t | None => false end.

Definition active_fact (fact : BoxRegistryMemberFact) : bool :=
  match removedAt fact, displacedAt fact with None, None => true | _, _ => false end.

(** The first loop: the members still in the box, unless one left it after it
    was closed. *)
Fixpoint active_facts (closure : Z) (facts : list BoxRegistryMemberFact)
  : option (list BoxRegistryMemberFact) :=
  match facts with
  | [] => Some []
  | fact :: rest =>
      if after (removedAt fact) closure || after (displacedAt fact) closure then None
      else
        rest' ← active_facts closure rest;
        Some (if active_fact fact then fact :: rest' else rest')
  end.

(** The second loop: the key of each member, when all of them are owned by the
    box, of its product, and distinct. *)
Fixpoint member_keys (candidate : BoxRegistryCandidate) (closure : Z)
    (seenHashes seenKeys : list jsstr) (facts : list BoxRegistryMemberFact) : option (list jsstr) :=
  match facts with
  | [] => Some []
  | fact :: rest =>
      if is_in seenHashes (f_codeHash fact)
         || negb (bool_decide (registryShiftId fact = Some (shiftId candidate)))
         || negb (bool_decide (registryTerminalId fact = terminalId candidate))
      then None
      else
        scannedAt ← registryScannedAt fact;
        registryUpdated ← registryUpdatedAt fact;
        if negb (scannedAt =? addedAt fact) || (closure <? registryUpdated) then None
        else
          raw ← canonicalRaw fact;
          if negb (bool_decide (canonicalGtin14 fact = Some (productGtin14 candidate))) then None
          else match canonicalizeKm raw with
          | Throw _ => None
          | Ok parsed =>
              let key := kmKey parsed in
              if negb (jseqb (gtin14 parsed) (productGtin14 candidate)) || is_in seenKeys key then None
              else
                keys ← member_keys candidate closure (f_codeHash fact :: seenHashes)
                         (key :: seenKeys) rest;
                Some (key :: keys)
          end
  end.

Definition evaluateBoxRegistryCandidate (candidate : BoxRegistryCandidate)
    (facts : list BoxRegistryMemberFact) (delta : bool) : option StationBoxRegistryChange :=
  let ineligible := ineligibleChange candidate delta in
  match sscc candidate, closedAt candidate, closureReceivedAt candidate, disassembledAt candidate with
  | Some s, Some closed, Some closure, None =>
      if negb (isValidSscc s) then ineligible
      else
        let total := match facts with [] => 0%nat | fact :: _ => totalMembershipCount fact end in
        if (total =? 0)%nat || (MAX_BOX_REGISTRY_MEMBERS <? total)%nat
           || negb (length facts =? total)%nat
        then ineligible
        else match active_facts closure facts with
        | None | Some [] => ineligible
        | Some activeFacts =>
            match member_keys candidate closure [] [] activeFacts with
            | None => ineligible
            | Some keys =>
                Some (StationUpsert (id candidate) s (productId candidate)
                        (Z.of_nat (length activeFacts)) (js_sort js_leb keys)
                        (toISOString (updatedAt candidate)) (palletId candidate)
                        (palletSscc candidate)
                        (match palletId candidate, palletDisassembledAt candidate with
                         | Some _, None => true | _, _ => false end)
                        (toISOString closed) (productionDate candidate))
            end
        end
  | _, _, _, _ => ineligible
  end.

(** ** The members of an eligible box *)

(** The next guard of code whose result is known to be [Some]. *)
Ltac some_guard H :=
  match type of H with
  | (if ?g then None else _) = Some _ => destruct g eqn:?; [discriminate|]
  end.

Lemma elem_of_is_in l s : is_in l s = true <-> s ∈ l.
Proof. apply bool_decide_eq_true. Qed.

Lemma active_facts_filter closure facts active :
  active_facts closure facts = Some active -> active = List.filter active_fact facts.
Proof.
  revert active. induction facts as [|fact rest IH]; intros active; cbn; [congruence|].
  destruct (_ || _); [done|].
  destruct (active_facts closure rest) as [rest'|]; [|done]. cbn. intros [= <-].
  rewrite <- (IH rest' eq_refl). by destruct (active_fact fact).
Qed.

(** A member with its key, as [resolveOrderBoxes] reads it again. *)
Definition member_of (fact : BoxRegistryMemberFact) (km : ParsedKm) (raw : jsstr) : Prop :=
  canonicalRaw fact = Some raw /\ canonicalizeKm raw = Ok km.

Lemma member_keys_spec candidate closure hashes seen facts keys :
  member_keys candidate closure hashes seen facts = Some keys ->
  NoDup keys /\ (forall key, key ∈ keys -> key ∉ seen)
  /\ Forall2 (fun fact key => exists raw km, member_of fact km raw /\ kmKey km = key
       /\ gtin14 km = productGtin14 candidate) facts keys.
Proof.
  revert hashes seen keys. induction facts as [|fact rest IH]; intros hashes seen keys; cbn.
  { intros [= <-]. split; [constructor|]. split; [by intros ? ?%elem_of_nil | constructor]. }
  intros H. some_guard H.
  destruct (registryScannedAt fact) as [scanned|]; [|done].
  destruct (registryUpdatedAt fact) as [updated|]; [|done]. cbn in H. some_guard H.
  destruct (canonicalRaw fact) as [raw|] eqn:Er; [|done]. cbn in H. some_guard H.
  destruct (canonicalizeKm raw) as [km|] eqn:Ek; [|done]. some_guard H.
  destruct (member_keys _ _ _ (kmKey km :: seen) rest) as [keys'|] eqn:Em; [|done].
  cbn in H. injection H as <-. apply IH in Em as (Hn & Hs & Hf).
  repeat match goal with
  | H : (_ || _) = false |- _ => apply orb_false_iff in H as [? ?]
  | H : negb _ = false |- _ => apply negb_false_iff in H
  end.
  split; [|split].
  - constructor; [|done]. intros Hin. by apply (Hs _ Hin), list_elem_of_here.
  - intros key [->|Hin]%elem_of_cons.
    + rewrite <- elem_of_is_in. congruence.
    + intros Hk. apply (Hs _ Hin). by apply list_elem_of_further.
  - constructor; [|done]. exists raw, km. split_and!; [by split| done |].
    by apply jseqb_eq.
Qed.

(** What an eligible box is. *)
Lemma evaluate_upsert candidate facts delta boxId s product count keys at_ pallet psscc act closed day :
  evaluateBoxRegistryCandidate candidate facts delta
    = Some (StationUpsert boxId s product count keys at_ pallet psscc act closed day) ->
  let members := List.filter active_fact facts in
  boxId = id candidate /\ sscc candidate = Some s /\ isValidSscc s = true
  /\ product = productId candidate
  /\ count = Z.of_nat (length members) /\ (0 < length members <= MAX_BOX_REGISTRY_MEMBERS)%nat
  /\ exists unsorted, keys = js_sort js_leb unsorted /\ NoDup unsorted
     /\ Forall2 (fun fact key => exists raw km, member_of fact km raw /\ kmKey km = key
          /\ gtin14 km = productGtin14 candidate) members unsorted.
Proof.
  unfold evaluateBoxRegistryCandidate, ineligibleChange. intros H.
  destruct (sscc candidate) as [s'|] eqn:Es; cbn [mbind option_bind] in H; [|done].
  assert (Hno : (if negb delta || negb (isValidSscc s') then None
    else Some (StationRemove s' (toISOString (updatedAt candidate))))
    <> Some (StationUpsert boxId s product count keys at_ pallet psscc act closed day))
    by (by destruct (_ || _)).
  destruct (closedAt candidate) as [cl|]; [|done].
  destruct (closureReceivedAt candidate) as [closure|]; [|done].
  destruct (disassembledAt candidate); [done|].
  destruct (isValidSscc s') eqn:Ev; [|done]. cbn [negb] in H.
  destruct (_ || _ || _) eqn:Et in H; [done|].
  destruct (active_facts closure facts) as [[|f fs]|] eqn:Ea; [done| |done].
  pose proof (active_facts_filter _ _ _ Ea) as Hm.
  destruct (member_keys candidate closure [] [] (f :: fs)) as [ks|] eqn:Ek; [|done].
  apply member_keys_spec in Ek as (Hn & _ & Hf). rewrite <- Hm.
  injection H as <- <- <- <- <- <- <- <- <- <- <-.
  repeat match goal with H : (_ || _) = false |- _ => apply orb_false_iff in H as [? ?] end.
  split_and!; try done; [cbn; lia| |by exists ks].
  match goal with H : negb (_ =? _)%nat = false |- _ => apply negb_false_iff, Nat.eqb_eq in H end.
  match goal with H : (MAX_BOX_REGISTRY_MEMBERS <? _)%nat = false |- _ => apply Nat.ltb_ge in H end.
  rewrite Hm. etrans; [|eassumption]. etrans; [apply filter_length_le|]. lia.
Qed.

(** The members of an offered box were all read, and are no more than the feed
    takes. *)
Lemma evaluate_total candidate facts delta boxId s product count keys at_ pallet psscc act closed day :
  evaluateBoxRegistryCandidate candidate facts delta
    = Some (StationUpsert boxId s product count keys at_ pallet psscc act closed day) ->
  closedAt candidate <> None
  /\ length facts = match facts with [] => 0%nat | fact :: _ => totalMembershipCount fact end
  /\ (length facts <= MAX_BOX_REGISTRY_MEMBERS)%nat.
Proof.
  unfold evaluateBoxRegistryCandidate, ineligibleChange. intros H.
  destruct (sscc candidate) as [s'|]; cbn [mbind option_bind] in H; [|done].
  destruct (closedAt candidate) as [cl|]; [|by destruct (_ || _) in H].
  destruct (closureReceivedAt candidate) as [closure|]; [|by destruct (_ || _) in H].
  destruct (disassembledAt candidate); [by destruct (_ || _) in H|].
  destruct (negb (isValidSscc s')); [by rewrite orb_true_r in H|].
  destruct (_ || _ || _) eqn:Et in H; [by destruct (_ || _) in H|].
  repeat match goal with H : (_ || _) = false |- _ => apply orb_false_iff in H as [? ?] end.
  match goal with H : negb (_ =? _)%nat = false |- _ => apply negb_false_iff, Nat.eqb_eq in H; rewrite H end.
  match goal with H : (MAX_BOX_REGISTRY_MEMBERS <? _)%nat = false |- _ => apply Nat.ltb_ge in H end.
  by split_and!.
Qed.
