(* ===== verification/PickupLines.v ===== *)
(** * The lines of a pickup order

    [apps/api/src/modules/pickup-orders]: what [kiosk-admission-proof.ts],
    [document-source.ts] and [box-order-resolver.ts] compute, the pure steps of
    [pickup-orders.service.ts] (resolving the scanned codes, the refusals stored
    with an order), and [apps/api/src/pickup] (the order number, the total). *)

From stdpp Require Import base list strings gmap.
From Stdlib Require Import ZArith Lia.
From S2P Require Import Prelude Gs1 Km Dates KioskApi KioskCart BoxFacts.

#[local] Open Scope Z_scope.

(** ** document-source.ts *)

Inductive PickupDocumentSource :=
| KioskSource (kioskId : jsstr)
| HandheldSource (stationDeviceId : jsstr).

#[export] Instance PickupDocumentSource_eq_dec : EqDecision PickupDocumentSource.
Proof. solve_decision. Defined.

(** ** kiosk-admission-proof.ts *)

Record ProcessingLines := {
  pl_items : list jsstr; pl_boxes : list jsstr; vNext : bool
}.

Definition kioskOrderProcessingLines (dto : CreateOrderDto) : ProcessingLines :=
  match d_boxes dto with
  | None => {| pl_items := d_items dto; pl_boxes := []; vNext := false |}
  | Some requested =>
      {| pl_items := js_sort js_leb (d_items dto); pl_boxes := js_sort js_leb requested; vNext := true |}
  end.

Inductive KioskRejectionTerminalReason :=
| OrderRejected | UnknownBadge | WriteoffForbidden | WriteoffReasonRequired | UnknownReason.

#[export] Instance KioskRejectionTerminalReason_eq_dec : EqDecision KioskRejectionTerminalReason.
Proof. solve_decision. Defined.

Definition terminal_text (r : KioskRejectionTerminalReason) : jsstr :=
  match r with
  | OrderRejected => js "order_rejected"
  | UnknownBadge => js "unknown_badge"
  | WriteoffForbidden => js "writeoff_forbidden"
  | WriteoffReasonRequired => js "writeoff_reason_required"
  | UnknownReason => js "unknown_reason"
  end.

(** [isKioskRejectionTerminalReason], with the reason it recognises. *)
Definition terminal_reason (s : jsstr) : option KioskRejectionTerminalReason :=
  List.find (fun r => jseqb (terminal_text r) s)
    [OrderRejected; UnknownBadge; WriteoffForbidden; WriteoffReasonRequired; UnknownReason].

(** ** Refusals, as they are stored *)

Inductive StoredOrderConflict :=
| StoredLine (rawKm reason : jsstr)
| StoredBox (sscc : jsstr) (bottleCount : option Z) (reason : jsstr)
| StoredRequest (version : Z) (terminalReason : jsstr).

(** [kioskOrderRequestMarker]; [None] is [null]. *)
Definition kioskOrderRequestMarker (vnext : bool) (terminalReason : KioskRejectionTerminalReason)
  : option StoredOrderConflict :=
  if vnext then Some (StoredRequest 2 (terminal_text terminalReason)) else None.

Definition isOrderConflictReason (reason : jsstr) : bool :=
  is_in [js "not_km"; js "incomplete"; js "unknown_product"; js "not_allowed"; js "duplicate";
         js "over_limit"] reason.

Definition isBoxConflictReason (reason : jsstr) : bool :=
  is_in [js "unknown_box"; js "box_not_closed"; js "box_disassembled"; js "box_contents_changed";
         js "mixed_product_box"; js "duplicate"; js "over_limit"] reason.

Definition splitStoredConflicts (stored : list StoredOrderConflict)
  : list OrderConflict * list BoxConflict :=
  (omap (fun c => match c with
     | StoredLine rawKm reason =>
         if isOrderConflictReason reason then Some {| cf_rawKm := rawKm; cf_reason := reason |} else None
     | _ => None end) stored,
   omap (fun c => match c with
     | StoredBox s n reason =>
         if isBoxConflictReason reason
         then Some {| bc_sscc := s; bc_bottleCount := n; bc_reason := reason |} else None
     | _ => None end) stored).

Definition joinStoredConflicts (conflicts : list OrderConflict) (boxConflicts : list BoxConflict)
  : list StoredOrderConflict :=
  ((fun c => StoredLine (cf_rawKm c) (cf_reason c)) <$> conflicts)
  ++ ((fun c => StoredBox (bc_sscc c) (bc_bottleCount c) (bc_reason c)) <$> boxConflicts).

Definition auditSubmittedLines (dto : CreateOrderDto) (reason : KioskRejectionTerminalReason)
  : list StoredOrderConflict :=
  let processing := kioskOrderProcessingLines dto in
  let text := terminal_text reason in
  ((fun rawKm => StoredLine rawKm text) <$> pl_items processing)
  ++ ((fun s => StoredBox s None text) <$> pl_boxes processing)
  ++ option_list (kioskOrderRequestMarker (vNext processing) reason).

(** ** Scanned codes *)

Record ResolvedItem := {
  it_rawKm : jsstr; it_productId : jsstr; it_gtin14 : jsstr; it_serial : jsstr; it_kmKey : jsstr;
  it_unitPrice : option jsstr
}.

Record Allowed := { al_productId : jsstr; al_unitPrice : option jsstr }.

Inductive ParsedItem :=
| ParsedOk (rawKm gtin14 serial key : jsstr)
| ParsedBad (rawKm conflictReason : jsstr).

Definition parse_item (rawKm : jsstr) : ParsedItem :=
  match validatePickupKm rawKm true with
  | PickupNotKm _ => ParsedBad rawKm (js "not_km")
  | PickupIncomplete _ => ParsedBad rawKm (js "incomplete")
  | PickupOk km key => ParsedOk rawKm (gtin14 km) (serial km) key
  end.

Definition refused (rawKm reason : jsstr) : OrderConflict :=
  {| cf_rawKm := rawKm; cf_reason := reason |}.

Section Resolve.
(** The products of the source, by GTIN, and the GTINs of the catalogue. *)
Context (allowlist : gmap jsstr Allowed) (existingGtins : list jsstr).

Fixpoint resolve_parsed (seenKeys : list jsstr) (parsed : list ParsedItem)
  : list OrderConflict * list ResolvedItem :=
  match parsed with
  | [] => ([], [])
  | ParsedBad rawKm reason :: rest =>
      let '(conflicts, candidates) := resolve_parsed seenKeys rest in
      (refused rawKm reason :: conflicts, candidates)
  | ParsedOk rawKm gtin14 serial key :: rest =>
      match allowlist !! gtin14 with
      | None =>
          let '(conflicts, candidates) := resolve_parsed seenKeys rest in
          (refused rawKm (if is_in existingGtins gtin14 then js "not_allowed"
                          else js "unknown_product") :: conflicts, candidates)
      | Some allowed =>
          if is_in seenKeys key then
            let '(conflicts, candidates) := resolve_parsed seenKeys rest in
            (refused rawKm (js "duplicate") :: conflicts, candidates)
          else
            let '(conflicts, candidates) := resolve_parsed (key :: seenKeys) rest in
            (conflicts,
             {| it_rawKm := rawKm; it_productId := al_productId allowed; it_gtin14 := gtin14;
                it_serial := serial; it_kmKey := key; it_unitPrice := al_unitPrice allowed |}
             :: candidates)
      end
  end.
End Resolve.

(** [resolveItems]; [catalogue] lists the GTINs of the products of the tenant. *)
Definition resolveItems (allowlist : gmap jsstr Allowed) (catalogue : list jsstr)
    (items : list jsstr) : list OrderConflict * list ResolvedItem :=
  let parsed := parse_item <$> items in
  let gtinsToCheck := omap (fun p => match p with
    | ParsedOk _ gtin14 _ _ => if bool_decide (is_Some (allowlist !! gtin14)) then None else Some gtin14
    | ParsedBad _ _ => None end) parsed in
  let existingGtins := List.filter (is_in gtinsToCheck) catalogue in
  resolve_parsed allowlist existingGtins [] parsed.

(** ** box-order-resolver.ts *)

Record ResolvedOrderBoxMember := {
  om_rawKm : jsstr; om_kmKey : jsstr; om_gtin14 : jsstr; om_serial : jsstr
}.

Record ResolvedOrderBox := {
  ob_boxId : jsstr; ob_sscc : jsstr; ob_productId : jsstr; ob_bottleCount : Z;
  ob_unitPrice : option jsstr; ob_members : list ResolvedOrderBoxMember
}.

Definition assertOrderBoxMemberBudget (memberCount : nat) : result unit :=
  if (MAX_REGISTRY_PAGE_MEMBER_KEYS <? memberCount)%nat then throw "box_request_too_large" else Ok tt.

(** [[...new Set(l.filter(Boolean))]]. *)
Definition truthy_set (l : list (option jsstr)) : list jsstr :=
  remove_dups (List.filter (fun s => negb (length s =? 0)%nat) (omap Datatypes.id l)).

Definition ineligibleReason (candidate : BoxRegistryCandidate) (facts : list BoxRegistryMemberFact)
  : jsstr :=
  match closedAt candidate, closureReceivedAt candidate with
  | Some _, Some _ =>
      match disassembledAt candidate with
      | Some _ => js "box_disassembled"
      | None =>
          let gtins := truthy_set (canonicalGtin14 <$> List.filter active_fact facts) in
          if (1 <? length gtins)%nat
             || ((length gtins =? 1)%nat && negb (is_in gtins (productGtin14 candidate)))
          then js "mixed_product_box" else js "box_contents_changed"
      end
  | _, _ => js "box_not_closed"
  end.

(** The query: the boxes with these SSCCs, with the product of their shift, and
    its price. *)
Definition order_candidates (db : Stock) (ssccs : list jsstr)
  : list (BoxRegistryCandidate * option jsstr) :=
  js_sort (fun x y => js_leb (id x.1) (id y.1))
    (box ← List.filter (fun box => match b_sscc box with Some s => is_in ssccs s | None => false end)
             (boxes db);
     shift ← List.filter (fun shift => jseqb (s_id shift) (b_shiftId box)) (shifts db);
     product ← List.filter (fun product => jseqb (p_id product) (s_productId shift)) (products db);
     [({| id := b_id box; shiftId := b_shiftId box; terminalId := b_terminalId box;
          sscc := b_sscc box; productId := s_productId shift; productGtin14 := p_gtin14 product;
          closedAt := b_closedAt box; closureReceivedAt := b_closureReceivedAt box;
          disassembledAt := b_disassembledAt box; palletId := None; palletSscc := None;
          palletDisassembledAt := None; productionDate := None;
          registryVersion := b_registryVersion box; updatedAt := b_updatedAt box |},
       p_unitPrice product)]).

(** A member, from its code parsed again. *)
Definition resolve_member (fact : BoxRegistryMemberFact) : result ResolvedOrderBoxMember :=
  let raw := default [] (canonicalRaw fact) in
  parsed ← canonicalizeKm raw;
  Ok {| om_rawKm := raw; om_kmKey := kmKey parsed; om_gtin14 := gtin14 parsed;
        om_serial := serial parsed |}.

Section Boxes.
Context (candidatesBySscc : gmap jsstr (BoxRegistryCandidate * option jsstr)).
Context (counts : gmap jsstr nat) (factsOf : jsstr -> list BoxRegistryMemberFact).

(** One turn of the loop of [resolveOrderBoxes]. *)
Definition resolve_box (input : jsstr) : result (BoxConflict + ResolvedOrderBox) :=
  match candidatesBySscc !! input with
  | None => Ok (inl {| bc_sscc := input; bc_bottleCount := None; bc_reason := js "unknown_box" |})
  | Some (candidate, price) =>
      let facts := factsOf (id candidate) in
      match evaluateBoxRegistryCandidate candidate facts false with
      | Some (StationUpsert _ _ _ _ _ _ _ _ _ _ _) =>
          members ← mapM resolve_member (List.filter active_fact facts);
          Ok (inr {| ob_boxId := id candidate; ob_sscc := input; ob_productId := productId candidate;
                     ob_bottleCount := Z.of_nat (length members); ob_unitPrice := price;
                     ob_members := members |})
      | _ =>
          let count := count_of counts (id candidate) in
          Ok (inl {| bc_sscc := input;
                     bc_bottleCount := if (0 <? count)%nat && (count <=? MAX_BOX_REGISTRY_MEMBERS)%nat
                                       then Some (Z.of_nat count) else None;
                     bc_reason := ineligibleReason candidate facts |})
      end
  end.

Fixpoint resolve_boxes (inputs : list jsstr) : result (list ResolvedOrderBox * list BoxConflict) :=
  match inputs with
  | [] => Ok ([], [])
  | input :: rest =>
      r ← resolve_box input; rest' ← resolve_boxes rest;
      let '(boxes, conflicts) := rest' in
      Ok match r with
         | inl conflict => (boxes, conflict :: conflicts)
         | inr box => (box :: boxes, conflicts)
         end
  end.
End Boxes.

(** [new Map(rows.map((row) => [key(row), row]))]: a later row replaces an
    earlier one. *)
Definition map_of {A} (rows : list (jsstr * A)) : gmap jsstr A := list_to_map (reverse rows).

Definition resolveOrderBoxes (db : Stock) (inputs : list jsstr)
  : result (list ResolvedOrderBox * list BoxConflict) :=
  match inputs with
  | [] => Ok ([], [])
  | _ =>
      let rows := order_candidates db inputs in
      let candidates := fst <$> rows in
      let counts := loadBoxRegistryMembershipCounts db candidates in
      let aggregateMembers := map_fold (fun _ count total => (count + total)%nat) 0%nat counts in
      assertOrderBoxMemberBudget aggregateMembers ≫= fun _ =>
      let candidatesBySscc := map_of (omap (fun row => s ← sscc row.1; Some (s, row)) rows) in
      resolve_boxes candidatesBySscc counts (resolveBoxRegistryFacts db candidates counts) inputs
  end.

Definition member_keys_of (box : ResolvedOrderBox) : list jsstr := om_kmKey <$> ob_members box.

Definition box_refused (box : ResolvedOrderBox) (reason : jsstr) : BoxConflict :=
  {| bc_sscc := ob_sscc box; bc_bottleCount := Some (ob_bottleCount box); bc_reason := reason |}.

Fixpoint classifyResolvedBoxConflicts (claimedKeys : list jsstr) (boxes : list ResolvedOrderBox)
  : list ResolvedOrderBox * list BoxConflict :=
  match boxes with
  | [] => ([], [])
  | box :: rest =>
      if existsb (is_in claimedKeys) (member_keys_of box) then
        let '(accepted, conflicts) := classifyResolvedBoxConflicts claimedKeys rest in
        (accepted, box_refused box (js "duplicate") :: conflicts)
      else
        let '(accepted, conflicts) :=
          classifyResolvedBoxConflicts (member_keys_of box ++ claimedKeys) rest in
        (box :: accepted, conflicts)
  end.

Section Limit.
Context (dayLimit : Z) (limited : bool).

Fixpoint limit_loose (count : Z) (loose : list ResolvedItem)
  : Z * list ResolvedItem * list OrderConflict :=
  match loose with
  | [] => (count, [], [])
  | item :: rest =>
      if negb limited || (count <? dayLimit) then
        let '(count', accepted, conflicts) := limit_loose (count + 1) rest in
        (count', item :: accepted, conflicts)
      else
        let '(count', accepted, conflicts) := limit_loose count rest in
        (count', accepted, refused (it_rawKm item) (js "over_limit") :: conflicts)
  end.

Fixpoint limit_boxes (count : Z) (boxes : list ResolvedOrderBox)
  : Z * list ResolvedOrderBox * list BoxConflict :=
  match boxes with
  | [] => (count, [], [])
  | box :: rest =>
      if negb limited || (count + ob_bottleCount box <=? dayLimit) then
        let '(count', accepted, conflicts) := limit_boxes (count + ob_bottleCount box) rest in
        (count', box :: accepted, conflicts)
      else
        let '(count', accepted, conflicts) := limit_boxes count rest in
        (count', accepted, box_refused box (js "over_limit") :: conflicts)
  end.
End Limit.

Record Limited := {
  acceptedLoose : list ResolvedItem; looseConflicts : list OrderConflict;
  limitedBoxes : list ResolvedOrderBox; boxConflicts : list BoxConflict
}.

Definition applyOrderLineLimit (existingCount dayLimit : Z) (limited : bool)
    (loose : list ResolvedItem) (boxes : list ResolvedOrderBox) : Limited :=
  let '(count, acceptedLoose, looseConflicts) := limit_loose dayLimit limited existingCount loose in
  let '(_, acceptedBoxes, boxConflicts) := limit_boxes dayLimit limited count boxes in
  {| acceptedLoose := acceptedLoose; looseConflicts := looseConflicts;
     limitedBoxes := acceptedBoxes; boxConflicts := boxConflicts |}.

(** After a race: what is left to try, and what is refused for good. *)
Record Reclassified := {
  rc_loose : list ResolvedItem; rc_looseConflicts : list OrderConflict;
  rc_requestedBoxes : list jsstr; rc_boxConflicts : list BoxConflict
}.

(** The box of the attempt that was asked for, when the race is about one of its
    members. *)
Definition raced_box (attemptedBoxes : list ResolvedOrderBox) (conflictingKeys : list jsstr)
    (requested : jsstr) : option ResolvedOrderBox :=
  let attemptedBySscc := map_of ((fun box => (ob_sscc box, box)) <$> attemptedBoxes) in
  box ← attemptedBySscc !! requested;
  if existsb (is_in conflictingKeys) (member_keys_of box) then Some box else None.

Definition reclassifyOrderKmKeyRace (loose : list ResolvedItem) (requestedBoxes : list jsstr)
    (attemptedBoxes : list ResolvedOrderBox) (conflictingKeys : list jsstr) : Reclassified :=
  let conflicting item := is_in conflictingKeys (it_kmKey item) in
  let raced := raced_box attemptedBoxes conflictingKeys in
  {| rc_loose := List.filter (fun item => negb (conflicting item)) loose;
     rc_looseConflicts := (fun item => refused (it_rawKm item) (js "duplicate")) <$>
                          List.filter conflicting loose;
     rc_requestedBoxes := List.filter (fun s => match raced s with Some _ => false | None => true end)
                            requestedBoxes;
     rc_boxConflicts := (fun box => box_refused box (js "duplicate")) <$> omap raced requestedBoxes |}.

(** ** pickup/order-number.ts, pickup/total-price.ts *)

Definition formatOrderNo (seq : Z) (when : Z) : jsstr :=
  let yy := pad (Z.rem (year_from_day (when / DAY_MS)) 100) 2 in
  js "ORD-" ++ yy ++ js "-" ++ pad seq 4.

(** The loop of [computeTotalPrice]; its [toKopecks] is the text of the one in
    the kiosk's [money.ts]. *)
Fixpoint sum_prices (cents : Z) (items : list (option jsstr)) : option Z :=
  match items with
  | [] => Some cents
  | unitPrice :: rest =>
      price ← unitPrice; kopecks ← toKopecks price; sum_prices (cents + kopecks) rest
  end.

Definition computeTotalPrice (items : list (option jsstr)) : option jsstr :=
  match items with
  | [] => None
  | _ =>
      cents ← sum_prices 0 items;
      let sign := if cents <? 0 then js "-" else [] in
      let abs := Z.abs cents in
      Some (sign ++ js_of_Z (abs / 100) ++ js "." ++ pad (abs mod 100) 2)
  end.

(** ** Every scanned code is taken or refused *)

Definition parsed_raw (p : ParsedItem) : jsstr :=
  match p with ParsedOk rawKm _ _ _ | ParsedBad rawKm _ => rawKm end.

(** The texts a list of refusals and a list of accepted things answer. *)
Definition item_texts (items : list ResolvedItem) : list jsstr := it_rawKm <$> items.
Definition conflict_texts (conflicts : list OrderConflict) : list jsstr := cf_rawKm <$> conflicts.
Definition box_texts (boxes : list ResolvedOrderBox) : list jsstr := ob_sscc <$> boxes.
Definition box_conflict_texts (conflicts : list BoxConflict) : list jsstr := bc_sscc <$> conflicts.
Definition item_keys (items : list ResolvedItem) : list jsstr := it_kmKey <$> items.
Definition box_keys (boxes : list ResolvedOrderBox) : list jsstr := mjoin (member_keys_of <$> boxes).

Lemma conflict_texts_app l k : conflict_texts (l ++ k) = conflict_texts l ++ conflict_texts k.
Proof. apply fmap_app. Qed.
Lemma box_conflict_texts_app l k :
  box_conflict_texts (l ++ k) = box_conflict_texts l ++ box_conflict_texts k.
Proof. apply fmap_app. Qed.
Lemma box_keys_cons b l : box_keys (b :: l) = member_keys_of b ++ box_keys l.
Proof. done. Qed.

Lemma resolve_parsed_spec allowlist existing seen parsed :
  let '(conflicts, candidates) := resolve_parsed allowlist existing seen parsed in
  item_texts candidates ++ conflict_texts conflicts ≡ₚ parsed_raw <$> parsed
  /\ NoDup (item_keys candidates) /\ (forall key, key ∈ item_keys candidates -> key ∉ seen).
Proof.
  revert seen. induction parsed as [|p rest IH]; intros seen; cbn [resolve_parsed].
  { split; [done|]. split; [constructor | by intros ? ?%elem_of_nil]. }
  destruct p as [rawKm g s key|rawKm reason].
  - destruct (allowlist !! g) as [allowed|].
    2: { specialize (IH seen). destruct (resolve_parsed _ _ seen rest) as [conflicts candidates].
         destruct IH as (Hp & Hn & Hs). split; [|done]. cbn. by rewrite <- Permutation_middle, Hp. }
    destruct (is_in seen key) eqn:Ek.
    + specialize (IH seen). destruct (resolve_parsed _ _ seen rest) as [conflicts candidates].
      destruct IH as (Hp & Hn & Hs). split; [|done]. cbn. by rewrite <- Permutation_middle, Hp.
    + specialize (IH (key :: seen)).
      destruct (resolve_parsed _ _ (key :: seen) rest) as [conflicts candidates].
      destruct IH as (Hp & Hn & Hs). split_and!.
      * cbn. by rewrite Hp.
      * constructor; [|done]. intros Hin. by apply (Hs _ Hin), list_elem_of_here.
      * intros k [->|Hin]%elem_of_cons; [intros Hk%elem_of_is_in; cbn in Hk; congruence|].
        intros Hk. apply (Hs _ Hin). by apply list_elem_of_further.
  - specialize (IH seen). destruct (resolve_parsed _ _ seen rest) as [conflicts candidates].
    destruct IH as (Hp & Hn & Hs). split; [|done]. cbn. by rewrite <- Permutation_middle, Hp.
Qed.

Lemma parse_item_raw rawKm : parsed_raw (parse_item rawKm) = rawKm.
Proof. unfold parse_item. by destruct (validatePickupKm rawKm true). Qed.

Lemma resolveItems_spec allowlist catalogue items :
  let '(conflicts, candidates) := resolveItems allowlist catalogue items in
  item_texts candidates ++ conflict_texts conflicts ≡ₚ items /\ NoDup (item_keys candidates).
Proof.
  unfold resolveItems.
  set (existing := List.filter _ catalogue).
  pose proof (resolve_parsed_spec allowlist existing [] (parse_item <$> items)) as H.
  destruct (resolve_parsed _ _ _ _) as [conflicts candidates]. destruct H as (Hp & Hn & _).
  split; [|done]. rewrite Hp, <- list_fmap_compose.
  rewrite (list_fmap_ext (parsed_raw ∘ parse_item) Datatypes.id) by (intros; apply parse_item_raw).
  by rewrite list_fmap_id.
Qed.

(** ** Boxes *)

(** A box as the resolver leaves it: whole, of distinct members. *)
Definition wf_box (box : ResolvedOrderBox) : Prop :=
  NoDup (member_keys_of box) /\ ob_members box <> []
  /\ ob_bottleCount box = Z.of_nat (length (ob_members box))
  /\ (length (ob_members box) <= MAX_BOX_REGISTRY_MEMBERS)%nat.

Lemma resolve_member_ok fact km raw :
  member_of fact km raw ->
  resolve_member fact = Ok {| om_rawKm := raw; om_kmKey := kmKey km; om_gtin14 := gtin14 km;
                              om_serial := serial km |}.
Proof. intros [Hr Hk]. unfold resolve_member. rewrite Hr. cbn [default]. unfold Datatypes.id. by rewrite Hk. Qed.

Lemma resolve_members candidate facts keys :
  Forall2 (fun fact key => exists raw km, member_of fact km raw /\ kmKey km = key
    /\ gtin14 km = productGtin14 candidate) facts keys ->
  exists members, mapM resolve_member facts = Ok members /\ om_kmKey <$> members = keys
    /\ Forall (fun m => om_gtin14 m = productGtin14 candidate) members.
Proof.
  induction 1 as [|fact key facts keys (raw & km & Hr & <- & Hg) _ IH]; cbn [mapM].
  { exists []. by repeat constructor. }
  destruct IH as (members & Hm & Hks & Hgs). rewrite (resolve_member_ok _ _ _ Hr), bind_ok, Hm, bind_ok. eexists. split; [done|]. split; [by rewrite <- Hks|].
  by constructor.
Qed.

Lemma resolve_box_spec candidates counts factsOf input r :
  resolve_box candidates counts factsOf input = Ok r ->
  match r with
  | inl conflict => bc_sscc conflict = input
  | inr box => ob_sscc box = input /\ wf_box box
  end.
Proof.
  unfold resolve_box. destruct (candidates !! input) as [[candidate price]|]; [|by intros [= <-]].
  destruct (evaluateBoxRegistryCandidate _ _ false) as [[]|] eqn:Ee; [|by intros [= <-]..].
  apply evaluate_upsert in Ee as (_ & _ & _ & _ & _ & Hlen & keys & _ & Hn & Hf).
  pose proof (Forall2_length _ _ _ Hf) as Hl. apply resolve_members in Hf as (members & Hm & Hk & _).
  assert (Hml : length members = length keys) by (by rewrite <- Hk, length_fmap).
  rewrite Hm, bind_ok. intros [= <-]. split; [done|]. unfold wf_box, member_keys_of. cbn.
  rewrite Hk. split_and!; [done| |done|lia]. intros ->. cbn in Hml. lia.
Qed.

Lemma resolve_boxes_spec candidates counts factsOf inputs boxes conflicts :
  resolve_boxes candidates counts factsOf inputs = Ok (boxes, conflicts) ->
  box_texts boxes ++ box_conflict_texts conflicts ≡ₚ inputs /\ Forall wf_box boxes.
Proof.
  revert boxes conflicts. induction inputs as [|input rest IH]; intros boxes conflicts; cbn.
  { intros [= <- <-]. by split. }
  intros H. apply bind_ok_inv in H as (r & Hr & H). apply bind_ok_inv in H as ([bs cs] & Hb & H).
  destruct (IH _ _ Hb) as [Hp Hw]. apply resolve_box_spec in Hr.
  destruct r as [conflict|box]; injection H as <- <-.
  - split; [|done]. cbn. rewrite <- Permutation_middle, Hp. by rewrite Hr.
  - destruct Hr as [<- Hbox]. split; [|by constructor]. cbn. by rewrite Hp.
Qed.

Lemma resolveOrderBoxes_spec db inputs boxes conflicts :
  resolveOrderBoxes db inputs = Ok (boxes, conflicts) ->
  box_texts boxes ++ box_conflict_texts conflicts ≡ₚ inputs /\ Forall wf_box boxes.
Proof.
  unfold resolveOrderBoxes. destruct inputs as [|input rest]; [intros [= <- <-]; by split|].
  intros H. apply bind_ok_inv in H as ([] & _ & H). by apply resolve_boxes_spec in H.
Qed.

(** An offered box was read to be offered, so its members can be read again. *)
Lemma resolve_members_ok candidate (facts : list BoxRegistryMemberFact) keys :
  Forall2 (fun fact key => exists raw km, member_of fact km raw /\ kmKey km = key
    /\ gtin14 km = productGtin14 candidate) facts keys ->
  exists members, mapM resolve_member facts = Ok members.
Proof.
  induction 1 as [|fact key facts keys (raw & km & [Hr Hk] & _) _ [members IH]]; [by eexists|].
  exists ({| om_rawKm := raw; om_kmKey := kmKey km; om_gtin14 := gtin14 km; om_serial := serial km |} :: members).
  assert (E : resolve_member fact = Ok {| om_rawKm := raw; om_kmKey := kmKey km; om_gtin14 := gtin14 km;
      om_serial := serial km |}) by (unfold resolve_member; rewrite Hr; cbn; by rewrite Hk).
  cbn. rewrite E. cbn. by rewrite IH.
Qed.

Lemma resolve_boxes_ok candidates counts factsOf inputs :
  exists r, resolve_boxes candidates counts factsOf inputs = Ok r.
Proof.
  induction inputs as [|input rest [[bs cs] IH]]; [by eexists|]. cbn. rewrite IH.
  assert (Hr : exists r, resolve_box candidates counts factsOf input = Ok r).
  { unfold resolve_box. destruct (candidates !! input) as [[candidate price]|]; [|by eexists].
    destruct (evaluateBoxRegistryCandidate _ _ _) as [[]|] eqn:E; [|by eexists..].
    apply evaluate_upsert in E as (_ & _ & _ & _ & _ & _ & unsorted & _ & _ & Hf).
    destruct (resolve_members_ok _ _ _ Hf) as [members ->]. by eexists. }
  destruct Hr as [r ->]. by eexists.
Qed.

(** Only the number of members is refused. *)
Lemma resolveOrderBoxes_throws db inputs error :
  resolveOrderBoxes db inputs = Throw error -> error = DomainError "box_request_too_large".
Proof.
  unfold resolveOrderBoxes. destruct inputs as [|input rest]; [done|]. unfold assertOrderBoxMemberBudget.
  destruct (_ <? _)%nat; cbn [mbind result_bind]; [by intros [= <-]|].
  match goal with |- resolve_boxes ?c ?n ?f ?i = _ -> _ => destruct (resolve_boxes_ok c n f i) as [r ->] end. done.
Qed.

Lemma existsb_is_in claimed keys :
  existsb (is_in claimed) keys = false <-> forall key, key ∈ keys -> key ∉ claimed.
Proof.
  rewrite <- not_true_iff_false, existsb_exists. split.
  - intros H key Hk Hc. apply H. exists key. split; [by apply list_elem_of_In | by apply elem_of_is_in].
  - intros H (key & Hk%list_elem_of_In & Hc%elem_of_is_in). by apply (H key).
Qed.

Lemma classify_spec claimed boxes :
  let '(accepted, conflicts) := classifyResolvedBoxConflicts claimed boxes in
  box_texts accepted ++ box_conflict_texts conflicts ≡ₚ box_texts boxes
  /\ sublist accepted boxes
  /\ (Forall wf_box boxes -> NoDup (box_keys accepted) /\ forall key, key ∈ box_keys accepted -> key ∉ claimed).
Proof.
  revert claimed. induction boxes as [|box rest IH]; intros claimed; cbn [classifyResolvedBoxConflicts].
  { split; [done|]. split; [constructor|]. intros _. split; [constructor | by intros ? ?%elem_of_nil]. }
  destruct (existsb _ _) eqn:Ee.
  - specialize (IH claimed). destruct (classifyResolvedBoxConflicts claimed rest) as [acc conf].
    destruct IH as (Hp & Hs & Hk). split_and!.
    + cbn. rewrite <- Permutation_middle. by rewrite Hp.
    + by constructor.
    + by intros [_ Hw]%Forall_cons; auto.
  - specialize (IH (member_keys_of box ++ claimed)).
    destruct (classifyResolvedBoxConflicts _ rest) as [acc conf]. destruct IH as (Hp & Hs & Hk).
    rewrite existsb_is_in in Ee. split_and!.
    + cbn. by rewrite Hp.
    + by constructor.
    + intros [[Hbox _] Hw]%Forall_cons. destruct (Hk Hw) as [Hn Hc]. rewrite box_keys_cons. split.
      * apply NoDup_app. split_and!; [done| |done]. intros key Hin Hin'.
        apply (Hc key Hin'). set_solver.
      * intros key [Hin|Hin]%elem_of_app; [by apply Ee|].
        intros Hc'. apply (Hc key Hin). set_solver.
Qed.

(** ** The allowance *)

Definition bottles (boxes : list ResolvedOrderBox) : Z :=
  foldr (fun box total => ob_bottleCount box + total) 0 boxes.

Lemma bottles_members boxes : Forall wf_box boxes -> bottles boxes = Z.of_nat (length (box_keys boxes)).
Proof.
  induction 1 as [|box rest (_ & _ & Hb & _) _ IH]; [done|].
  rewrite box_keys_cons, length_app. cbn [bottles foldr]. fold (bottles rest). rewrite IH, Hb.
  unfold member_keys_of. rewrite length_fmap. lia.
Qed.

Lemma limit_loose_spec dayLimit limited count loose :
  let '(count', accepted, conflicts) := limit_loose dayLimit limited count loose in
  item_texts accepted ++ conflict_texts conflicts ≡ₚ item_texts loose /\ sublist accepted loose
  /\ count' = count + Z.of_nat (length accepted)
  /\ (limited = true -> count' <= Z.max count dayLimit).
Proof.
  revert count. induction loose as [|item rest IH]; intros count; cbn [limit_loose].
  { split_and!; [done | constructor | cbn; lia | lia]. }
  destruct (negb limited || (count <? dayLimit)) eqn:E.
  - specialize (IH (count + 1)).
    destruct (limit_loose dayLimit limited (count + 1) rest) as [[count' acc] conf].
    destruct IH as (Hp & Hs & Hc & Hl). split_and!.
    + cbn. by rewrite Hp.
    + by constructor.
    + cbn [length]. lia.
    + intros ->. specialize (Hl eq_refl). cbn in E. apply Z.ltb_lt in E. lia.
  - specialize (IH count). destruct (limit_loose dayLimit limited count rest) as [[count' acc] conf].
    destruct IH as (Hp & Hs & Hc & Hl). split_and!; [|by constructor | done..].
    cbn. rewrite <- Permutation_middle. by rewrite Hp.
Qed.

Lemma limit_boxes_spec dayLimit limited count boxes :
  let '(count', accepted, conflicts) := limit_boxes dayLimit limited count boxes in
  box_texts accepted ++ box_conflict_texts conflicts ≡ₚ box_texts boxes /\ sublist accepted boxes
  /\ count' = count + bottles accepted
  /\ (limited = true -> count' <= Z.max count dayLimit).
Proof.
  revert count. induction boxes as [|box rest IH]; intros count; cbn [limit_boxes].
  { split_and!; [done | constructor | cbn; lia | lia]. }
  destruct (negb limited || _) eqn:E.
  - specialize (IH (count + ob_bottleCount box)).
    destruct (limit_boxes dayLimit limited _ rest) as [[count' acc] conf].
    destruct IH as (Hp & Hs & Hc & Hl). split_and!.
    + cbn. by rewrite Hp.
    + by constructor.
    + cbn [bottles foldr]. fold (bottles acc). lia.
    + intros ->. specialize (Hl eq_refl). cbn in E. apply Z.leb_le in E. lia.
  - specialize (IH count). destruct (limit_boxes dayLimit limited count rest) as [[count' acc] conf].
    destruct IH as (Hp & Hs & Hc & Hl). split_and!; [|by constructor | done..].
    cbn. rewrite <- Permutation_middle. by rewrite Hp.
Qed.

Lemma applyOrderLineLimit_spec existing dayLimit limited loose boxes :
  let r := applyOrderLineLimit existing dayLimit limited loose boxes in
  item_texts (acceptedLoose r) ++ conflict_texts (looseConflicts r) ≡ₚ item_texts loose
  /\ box_texts (limitedBoxes r) ++ box_conflict_texts (boxConflicts r) ≡ₚ box_texts boxes
  /\ sublist (acceptedLoose r) loose /\ sublist (limitedBoxes r) boxes
  /\ (limited = true ->
      existing + Z.of_nat (length (acceptedLoose r)) + bottles (limitedBoxes r)
      <= Z.max existing dayLimit).
Proof.
  unfold applyOrderLineLimit. pose proof (limit_loose_spec dayLimit limited existing loose) as Hl.
  destruct (limit_loose dayLimit limited existing loose) as [[count acc] conf].
  pose proof (limit_boxes_spec dayLimit limited count boxes) as Hb.
  destruct (limit_boxes dayLimit limited count boxes) as [[count' accb] confb].
  destruct Hl as (Hp & Hs & Hc & Hle), Hb as (Hpb & Hsb & Hcb & Hleb).
  cbn [acceptedLoose looseConflicts limitedBoxes boxConflicts].
  split_and!; try done. intros ->. specialize (Hle eq_refl). specialize (Hleb eq_refl). lia.
Qed.

(** ** After a race *)

Lemma map_of_by_key {A} (key : A -> jsstr) (rows : list A) k a :
  map_of ((fun a => (key a, a)) <$> rows) !! k = Some a -> a ∈ rows /\ key a = k.
Proof.
  unfold map_of. intros H%elem_of_list_to_map_2. rewrite elem_of_reverse in H.
  apply list_elem_of_fmap in H as (a' & [= -> ->] & Ha). done.
Qed.

Lemma map_of_unique {A} (key : A -> jsstr) (rows : list A) a :
  NoDup (key <$> rows) -> a ∈ rows -> map_of ((fun a => (key a, a)) <$> rows) !! key a = Some a.
Proof.
  intros Hn Ha. unfold map_of. apply elem_of_list_to_map_1.
  - rewrite reverse_Permutation, <- list_fmap_compose. exact Hn.
  - apply elem_of_reverse, list_elem_of_fmap. eauto.
Qed.

Lemma filter_split {A} (f : A -> bool) (l : list A) :
  List.filter (fun a => negb (f a)) l ++ List.filter f l ≡ₚ l.
Proof.
  induction l as [|a l IH]; [done|]. cbn. destruct (f a); cbn.
  - rewrite <- Permutation_middle. by rewrite IH.
  - by rewrite IH.
Qed.

Lemma list_filter_sublist {A} (f : A -> bool) (l : list A) : sublist (List.filter f l) l.
Proof. induction l as [|a l IH]; cbn; [constructor|]. destruct (f a); by constructor. Qed.

Lemma filter_shorter {A} (f : A -> bool) (l : list A) a :
  a ∈ l -> f a = false -> (length (List.filter f l) < length l)%nat.
Proof.
  induction l as [|b l IH]; [by intros ?%elem_of_nil|]. intros [->|Hin]%elem_of_cons Hf; cbn.
  - rewrite Hf. apply Nat.lt_succ_r, filter_length_le.
  - destruct (f b); cbn; specialize (IH Hin Hf); lia.
Qed.

Lemma reclassify_spec loose requested attempted keys :
  let r := reclassifyOrderKmKeyRace loose requested attempted keys in
  item_texts (rc_loose r) ++ conflict_texts (rc_looseConflicts r) ≡ₚ item_texts loose
  /\ rc_requestedBoxes r ++ box_conflict_texts (rc_boxConflicts r) ≡ₚ requested
  /\ sublist (rc_loose r) loose.
Proof.
  unfold reclassifyOrderKmKeyRace. cbn. split_and!.
  - unfold item_texts, conflict_texts. rewrite <- list_fmap_compose.
    change (cf_rawKm ∘ _) with it_rawKm. rewrite <- fmap_app.
    apply fmap_Permutation, filter_split.
  - induction requested as [|s rest IH]; [done|].
    cbn. destruct (raced_box attempted keys s) as [box|] eqn:Er; cbn.
    + assert (ob_sscc box = s) as <-.
      { unfold raced_box in Er. destruct (map_of _ !! s) as [b|] eqn:Em; [|done]. cbn in Er.
        apply (map_of_by_key ob_sscc) in Em as [_ <-]. destruct (existsb _ _); congruence. }
      rewrite <- Permutation_middle. by rewrite IH.
    + by rewrite IH.
  - apply list_filter_sublist.
Qed.

(** The race is about a code of the attempt, which is not tried again. *)
Lemma reclassify_shrinks loose requested attempted keys key :
  key ∈ keys -> NoDup (box_texts attempted) -> box_texts attempted ⊆ requested ->
  key ∈ item_keys loose \/ key ∈ box_keys attempted ->
  let r := reclassifyOrderKmKeyRace loose requested attempted keys in
  (length (rc_loose r) + length (rc_requestedBoxes r) < length loose + length requested)%nat.
Proof.
  intros Hk Hn Hsub Hin. unfold reclassifyOrderKmKeyRace. cbn.
  match goal with |- (length ?a + length ?b < _)%nat =>
    assert (length a <= length loose)%nat by apply filter_length_le;
    assert (length b <= length requested)%nat by apply filter_length_le end.
  destruct Hin as [(item & -> & Hitem)%list_elem_of_fmap|Hbox].
  - apply Nat.add_lt_le_mono; [|done]. apply (filter_shorter _ _ item Hitem).
    by rewrite (proj2 (elem_of_is_in _ _) Hk).
  - apply Nat.add_le_lt_mono; [done|].
    apply list_elem_of_join in Hbox as (ks & Hks & (box & -> & Hbox)%list_elem_of_fmap).
    apply (filter_shorter _ _ (ob_sscc box)).
    { apply Hsub, list_elem_of_fmap. by exists box. }
    unfold raced_box. rewrite (map_of_unique ob_sscc) by done. cbn.
    assert (existsb (is_in keys) (member_keys_of box) = true) as ->; [|done].
    apply existsb_exists. exists key. split; [by apply list_elem_of_In | by apply elem_of_is_in].
Qed.

(** A refusal is stored under a reason that is read back. *)
Definition good_conflict (c : OrderConflict) : bool := isOrderConflictReason (cf_reason c).
Definition good_box_conflict (c : BoxConflict) : bool := isBoxConflictReason (bc_reason c).

Lemma split_join conflicts boxes :
  forallb good_conflict conflicts = true -> forallb good_box_conflict boxes = true ->
  splitStoredConflicts (joinStoredConflicts conflicts boxes) = (conflicts, boxes).
Proof.
  intros Hc Hb. unfold splitStoredConflicts, joinStoredConflicts. rewrite !omap_app. f_equal.
  - replace (omap _ (_ <$> boxes)) with (@nil OrderConflict) by (symmetry; clear; induction boxes; auto).
    rewrite app_nil_r. induction conflicts as [|[t r] rest IH]; [done|].
    cbn in Hc |- *. apply andb_true_iff in Hc as [Hr Hc]. unfold good_conflict in Hr. cbn in Hr.
    rewrite Hr. f_equal. by apply IH.
  - replace (omap _ (_ <$> conflicts)) with (@nil BoxConflict)
      by (symmetry; clear; induction conflicts; auto).
    cbn. induction boxes as [|[s n r] rest IH]; [done|].
    cbn in Hb |- *. apply andb_true_iff in Hb as [Hr Hb]. unfold good_box_conflict in Hr. cbn in Hr.
    rewrite Hr. f_equal. by apply IH.
Qed.

(** ** Reasons *)

Lemma forallb_app_true {A} (f : A -> bool) l k :
  forallb f l = true -> forallb f k = true -> forallb f (l ++ k) = true.
Proof. intros Hl Hk. by rewrite forallb_app, Hl, Hk. Qed.

Lemma forallb_map_const {A B} (f : B -> bool) (g : A -> B) l :
  (forall a, f (g a) = true) -> forallb f (g <$> l) = true.
Proof. intros H. induction l as [|a l IH]; [done|]. cbn. by rewrite H. Qed.

Lemma good_refused rawKm : good_conflict (refused rawKm (js "duplicate")) = true.
Proof. done. Qed.

Lemma good_box_refused box : good_box_conflict (box_refused box (js "duplicate")) = true.
Proof. done. Qed.

Lemma resolve_parsed_good allowlist existing seen items :
  forallb good_conflict (resolve_parsed allowlist existing seen (parse_item <$> items)).1 = true.
Proof.
  revert seen. induction items as [|raw rest IH]; intros seen; [done|]. cbn [fmap list_fmap resolve_parsed].
  pose proof (IH seen) as H. destruct (parse_item raw) as [r g s key|r reason] eqn:Ep; cbn [resolve_parsed].
  - destruct (allowlist !! g).
    + pose proof (IH (key :: seen)) as H'. destruct (is_in seen key).
      * destruct (resolve_parsed _ _ seen _) as [c1 c2]. exact H.
      * destruct (resolve_parsed _ _ (key :: seen) _) as [c1 c2]. exact H'.
    + destruct (resolve_parsed _ _ seen _) as [c1 c2]. cbn in H |- *. rewrite H, andb_true_r.
      by destruct (is_in existing g).
  - destruct (resolve_parsed _ _ seen _) as [c1 c2]. cbn in H |- *. rewrite H, andb_true_r.
    unfold parse_item in Ep. by destruct (validatePickupKm raw true); simplify_eq.
Qed.

Lemma resolveItems_good allowlist catalogue items :
  forallb good_conflict (resolveItems allowlist catalogue items).1 = true.
Proof. apply resolve_parsed_good. Qed.

Lemma resolve_boxes_good candidates counts factsOf inputs boxes conflicts :
  resolve_boxes candidates counts factsOf inputs = Ok (boxes, conflicts) ->
  forallb good_box_conflict conflicts = true.
Proof.
  revert boxes conflicts. induction inputs as [|input rest IH]; intros boxes conflicts; cbn.
  { by intros [= <- <-]. }
  intros H. apply bind_ok_inv in H as (r & Hr & H). apply bind_ok_inv in H as ([bs cs] & Hb & H).
  pose proof (IH _ _ Hb) as Hg. destruct r as [conflict|box]; injection H as <- <-; [|done].
  cbn. rewrite Hg, andb_true_r. unfold resolve_box in Hr.
  assert (Hi : forall candidate facts n, good_box_conflict
    {| bc_sscc := input; bc_bottleCount := n; bc_reason := ineligibleReason candidate facts |} = true).
  { intros candidate facts n. unfold good_box_conflict, ineligibleReason. cbn.
    destruct (closedAt candidate), (closureReceivedAt candidate); try done.
    destruct (disassembledAt candidate); [done|]. by destruct (_ || _). }
  destruct (candidates !! input) as [[candidate price]|]; [|by injection Hr as <-].
  destruct (evaluateBoxRegistryCandidate _ _ false) as [[]|]; [|injection Hr as <-; apply Hi..].
  by destruct (mapM _ _).
Qed.

(** ** Boxes that are taken together *)

(** The members of a box are a function of its id. *)
Definition members_from (factsOf : jsstr -> list BoxRegistryMemberFact) (box : ResolvedOrderBox) : Prop :=
  mapM resolve_member (List.filter active_fact (factsOf (ob_boxId box))) = Ok (ob_members box).

Lemma resolve_boxes_from candidates counts factsOf inputs boxes conflicts :
  resolve_boxes candidates counts factsOf inputs = Ok (boxes, conflicts) ->
  Forall (members_from factsOf) boxes.
Proof.
  revert boxes conflicts. induction inputs as [|input rest IH]; intros boxes conflicts; cbn.
  { by intros [= <- <-]. }
  intros H. apply bind_ok_inv in H as (r & Hr & H). apply bind_ok_inv in H as ([bs cs] & Hb & H).
  pose proof (IH _ _ Hb) as Hg. destruct r as [conflict|box]; injection H as <- <-; [done|].
  constructor; [|done]. unfold resolve_box in Hr.
  destruct (candidates !! input) as [[candidate price]|]; [|done].
  destruct (evaluateBoxRegistryCandidate _ _ false) as [[]|]; [|done..].
  apply bind_ok_inv in Hr as (members & Hm & Hr). by injection Hr as <-.
Qed.

(** So is a box a function of its SSCC. *)
Lemma resolve_boxes_named candidates counts factsOf inputs boxes conflicts :
  resolve_boxes candidates counts factsOf inputs = Ok (boxes, conflicts) ->
  Forall (fun box => resolve_box candidates counts factsOf (ob_sscc box) = Ok (inr box)) boxes.
Proof.
  revert boxes conflicts. induction inputs as [|input rest IH]; intros boxes conflicts; cbn.
  { by intros [= <- <-]. }
  intros H. apply bind_ok_inv in H as (r & Hr & H). apply bind_ok_inv in H as ([bs cs] & Hb & H).
  pose proof (IH _ _ Hb) as Hg. destruct r as [conflict|box]; injection H as <- <-; [done|].
  constructor; [|done]. pose proof (resolve_box_spec _ _ _ _ _ Hr) as [-> _]. done.
Qed.

(** Two boxes of one id, or of one SSCC, have the same members. *)
Definition coherent (boxes : list ResolvedOrderBox) : Prop :=
  forall b b', b ∈ boxes -> b' ∈ boxes -> ob_boxId b = ob_boxId b' \/ ob_sscc b = ob_sscc b' ->
  ob_members b = ob_members b'.

Lemma coherent_sublist l k : sublist l k -> coherent k -> coherent l.
Proof. intros Hs Hc b b' Hb Hb'. apply Hc; by eapply elem_of_sublist. Qed.

Lemma resolveOrderBoxes_more db inputs boxes conflicts :
  resolveOrderBoxes db inputs = Ok (boxes, conflicts) ->
  forallb good_box_conflict conflicts = true /\ coherent boxes.
Proof.
  unfold resolveOrderBoxes. destruct inputs as [|input rest].
  { intros [= <- <-]. split; [done|]. by intros b b' ?%elem_of_nil. }
  intros H. apply bind_ok_inv in H as ([] & _ & H). split; [by eapply resolve_boxes_good|].
  pose proof (resolve_boxes_from _ _ _ _ _ _ H) as Hf. pose proof (resolve_boxes_named _ _ _ _ _ _ H) as Hn.
  intros b b' Hb Hb' [He|He].
  - pose proof (proj1 (Forall_forall _ _) Hf _ Hb) as H1.
    pose proof (proj1 (Forall_forall _ _) Hf _ Hb') as H2. unfold members_from in *. congruence.
  - pose proof (proj1 (Forall_forall _ _) Hn _ Hb) as H1.
    pose proof (proj1 (Forall_forall _ _) Hn _ Hb') as H2. cbn in *. congruence.
Qed.

Lemma elem_of_box_keys key boxes :
  key ∈ box_keys boxes <-> exists box, box ∈ boxes /\ key ∈ member_keys_of box.
Proof.
  unfold box_keys. rewrite list_elem_of_join. split.
  - intros (ks & Hk & (box & -> & Hb)%list_elem_of_fmap). by exists box.
  - intros (box & Hb & Hk). exists (member_keys_of box). split; [done|]. by apply list_elem_of_fmap_2.
Qed.

(** Boxes of disjoint members are distinct, under any name the members fix. *)
Lemma distinct_boxes (name : ResolvedOrderBox -> jsstr) boxes :
  Forall wf_box boxes -> NoDup (box_keys boxes) ->
  (forall b b', b ∈ boxes -> b' ∈ boxes -> name b = name b' -> ob_members b = ob_members b') ->
  NoDup (name <$> boxes).
Proof.
  induction boxes as [|box rest IH]; intros Hw Hn Hname; [constructor|].
  apply Forall_cons in Hw as [(_ & Hne & _) Hw]. rewrite box_keys_cons in Hn.
  apply NoDup_app in Hn as (_ & Hdis & Hn). cbn. constructor.
  - intros (b & Hb & Hin)%list_elem_of_fmap.
    assert (Hm : ob_members box = ob_members b)
      by (apply Hname; [apply list_elem_of_here | by apply list_elem_of_further | done]).
    destruct (ob_members box) as [|m ms] eqn:Em; [done|].
    apply (Hdis (om_kmKey m)); [unfold member_keys_of; rewrite Em; apply list_elem_of_here|].
    apply elem_of_box_keys. exists b. split; [done|]. unfold member_keys_of. rewrite <- Hm.
    apply list_elem_of_here.
  - apply IH; [done..|]. intros b b' Hb Hb'. apply Hname; by apply list_elem_of_further.
Qed.

Lemma distinct_box_ids boxes :
  Forall wf_box boxes -> NoDup (box_keys boxes) -> coherent boxes ->
  NoDup (ob_boxId <$> boxes) /\ NoDup (box_texts boxes).
Proof. intros Hw Hn Hc. split; (apply distinct_boxes; [done..|]); eauto. Qed.
