(* ===== verification/PickupOrders.v ===== *)
(** * Filing a pickup order

    [createForDevice] of
    [apps/api/src/modules/pickup-orders/pickup-orders.service.ts] as a kiosk
    calls it ([createOrder] of [kiosk.controller.ts]), with what it calls, and
    the transitions of an order: [cancel], [resolve], [applyExternalStatus].

    The state is the tables of one organization: every query of the source is
    restricted to a tenant.  The rows of [pickup_order_boxes] and
    [pickup_order_items] are kept with the order they reference; an order box is
    named by its order and its box.

    The program awaits the operations of [sql].  A query or a commit sees what
    other transactions have committed by then; the writes of a transaction,
    which nothing reads before it commits, are one [Commit], and the indexes of
    [packages/db/src/schema/pickup.ts] decide whether it is accepted.  The locks
    a transaction holds ([for("update")], [pg_advisory_xact_lock]) are part of
    the world: what others may do meanwhile depends on them. *)

From stdpp Require Import base list strings gmap relations.
From Stdlib Require Import ZArith Lia.
From S2P Require Import Prelude Gs1 Km Dates KioskApi KioskCart Effects BoxFacts PickupLines.

#[local] Open Scope Z_scope.
#[local] Open Scope prog_scope.

(** ** Tables *)

Inductive PickupOrderStatus := Pending | Punched | Writtenoff | Cancelled.

#[export] Instance PickupOrderStatus_eq_dec : EqDecision PickupOrderStatus.
Proof. solve_decision. Defined.

Record PickupOrderItemRow := {
  oi_boxId : option jsstr; oi_productId : jsstr; oi_gtin14 : jsstr; oi_serial : jsstr;
  oi_rawKm : jsstr; oi_kmKey : jsstr; oi_unitPrice : option jsstr; oi_voided : bool;
  oi_scannedAt : Z
}.

Record PickupOrderBoxRow := {
  xb_boxId : jsstr; xb_sscc : jsstr; xb_productId : jsstr; xb_bottleCount : Z;
  xb_unitPrice : option jsstr
}.

Record PickupOrderRow := {
  o_id : jsstr; o_orderNo : jsstr; o_source : PickupDocumentSource; o_employeeId : jsstr;
  o_reason : Reason; o_writeoffReasonId : option jsstr; o_status : PickupOrderStatus;
  o_itemCount : Z; o_totalPrice : option jsstr; o_receiptNo : option jsstr; o_actNo : option jsstr;
  o_deviceSeq : option Z; o_syncConflicts : option (list StoredOrderConflict); o_createdAt : Z;
  o_resolvedAt : option Z; o_resolvedByUserId : option jsstr;
  o_boxes : list PickupOrderBoxRow; o_items : list PickupOrderItemRow
}.

Record PickupScanRejectionRow := {
  rj_source : PickupDocumentSource; rj_employeeId : option jsstr; rj_badgeCode : option jsstr;
  rj_orderId : option jsstr; rj_deviceSeq : Z; rj_codes : list StoredOrderConflict; rj_scannedAt : Z
}.

Record AdmissionRow := {
  ad_kioskId : jsstr; ad_deviceSeq : Z; ad_tokenHash : jsstr; ad_payloadDigest : jsstr;
  ad_claimedAt : Z
}.

Record BadgeRow := {
  bg_employeeId : jsstr; bg_badgeCode : jsstr; bg_badgeHash : option jsstr; bg_revokedAt : option Z
}.

Record EmployeePolicyRow := {
  ep_employeeId : jsstr; ep_limited : bool; ep_dayLimit : Z; ep_canWriteoff : bool
}.

(** [employees] with whether they are active; [reasons] with whether they are
    archived; [limitsEnabled] is [None] when the organization has no policy row;
    [counter] is 0 when it has no counter row. *)
Record Pickup := {
  stock : Stock; kioskProducts : list (jsstr * jsstr); badgeSalt : option jsstr;
  employees : list (jsstr * bool); badges : list BadgeRow; employeePolicies : list EmployeePolicyRow;
  limitsEnabled : option bool; reasons : list (jsstr * bool);
  orders : list PickupOrderRow; rejections : list PickupScanRejectionRow;
  admissions : list AdmissionRow; counter : Z
}.

Definition with_orders (f : list PickupOrderRow -> list PickupOrderRow) (s : Pickup) : Pickup :=
  {| stock := stock s; kioskProducts := kioskProducts s; badgeSalt := badgeSalt s;
     employees := employees s; badges := badges s; employeePolicies := employeePolicies s;
     limitsEnabled := limitsEnabled s; reasons := reasons s; orders := f (orders s);
     rejections := rejections s; admissions := admissions s; counter := counter s |}.

Definition with_rejections (f : list PickupScanRejectionRow -> list PickupScanRejectionRow)
    (s : Pickup) : Pickup :=
  {| stock := stock s; kioskProducts := kioskProducts s; badgeSalt := badgeSalt s;
     employees := employees s; badges := badges s; employeePolicies := employeePolicies s;
     limitsEnabled := limitsEnabled s; reasons := reasons s; orders := orders s;
     rejections := f (rejections s); admissions := admissions s; counter := counter s |}.

Definition with_admissions (f : list AdmissionRow -> list AdmissionRow) (s : Pickup) : Pickup :=
  {| stock := stock s; kioskProducts := kioskProducts s; badgeSalt := badgeSalt s;
     employees := employees s; badges := badges s; employeePolicies := employeePolicies s;
     limitsEnabled := limitsEnabled s; reasons := reasons s; orders := orders s;
     rejections := rejections s; admissions := f (admissions s); counter := counter s |}.

Definition with_counter (n : Z) (s : Pickup) : Pickup :=
  {| stock := stock s; kioskProducts := kioskProducts s; badgeSalt := badgeSalt s;
     employees := employees s; badges := badges s; employeePolicies := employeePolicies s;
     limitsEnabled := limitsEnabled s; reasons := reasons s; orders := orders s;
     rejections := rejections s; admissions := admissions s; counter := n |}.

(** ** What the database rejects with, and what the handler throws *)

Inductive constraint :=
| PrimaryKey | OrderNoUq | KioskDeviceSeqUq | HandheldDeviceSeqUq | OrderBoxUq | OrderKmKeyUq
| OpenKmKeyUq.

#[export] Instance constraint_eq_dec : EqDecision constraint.
Proof. solve_decision. Defined.

(** SQLSTATE 23505 with the index, or anything else. *)
Inductive db_error := UniqueViolation (index : constraint) | OtherDbError.

#[export] Instance db_error_eq_dec : EqDecision db_error.
Proof. solve_decision. Defined.

Inductive http_error :=
| SubscriptionReadOnly
| UnknownOrInactiveBadge
| WriteoffForbiddenError
| WriteoffReasonRequiredError
| UnknownWriteoffReason
| OrderRejectedError (conflicts : list OrderConflict) (boxConflicts : list BoxConflict)
| BoxRequestTooLarge
| PolicyNotConfigured
| RetryExhausted
| NotFound
| OnlyWhilePending
| InternalError.

Inductive thrown := Http (e : http_error) | Db (e : db_error).

(** ** Outcomes *)

Record KioskOrderOutcome := {
  orderNo : jsstr; itemCount : Z; conflicts : list OrderConflict; outcomeBoxConflicts : list BoxConflict;
  acceptedBoxes : list AcceptedBox; rejected : bool;
  terminalReason : option KioskRejectionTerminalReason; writeoffForbidden : bool
}.

(** [throwPersistedKioskRejection]. *)
Definition throwPersistedKioskRejection (outcome : KioskOrderOutcome) : http_error :=
  match terminalReason outcome with
  | Some UnknownBadge => UnknownOrInactiveBadge
  | Some WriteoffForbidden => WriteoffForbiddenError
  | Some WriteoffReasonRequired => WriteoffReasonRequiredError
  | Some UnknownReason => UnknownWriteoffReason
  | _ => OrderRejectedError (conflicts outcome) (outcomeBoxConflicts outcome)
  end.

Definition result_of (outcome : KioskOrderOutcome) : CreateOrderResultDto :=
  {| r_orderNo := orderNo outcome; r_itemCount := itemCount outcome; r_conflicts := conflicts outcome;
     r_boxConflicts := Some (outcomeBoxConflicts outcome);
     r_acceptedBoxes := Some (acceptedBoxes outcome) |}.

(** ** Queries *)

(** [left.sscc.localeCompare(right.sscc)] of codes of eighteen digits. *)
Definition by_sscc : list AcceptedBox -> list AcceptedBox :=
  js_sort (fun x y => js_leb (ab_sscc x) (ab_sscc y)).

Definition owned_by (source : PickupDocumentSource) (deviceSeq : Z) (order : PickupOrderRow) : bool :=
  bool_decide (o_source order = source /\ o_deviceSeq order = Some deviceSeq).

Definition outcome_of_order (order : PickupOrderRow) : KioskOrderOutcome :=
  let '(conflicts, boxConflicts) := splitStoredConflicts (default [] (o_syncConflicts order)) in
  {| orderNo := o_orderNo order; itemCount := o_itemCount order; conflicts := conflicts;
     outcomeBoxConflicts := boxConflicts;
     acceptedBoxes := by_sscc ((fun box => {| ab_sscc := xb_sscc box;
                                              ab_bottleCount := xb_bottleCount box |}) <$> o_boxes order);
     rejected := false; terminalReason := None; writeoffForbidden := false |}.

Definition findOrderOutcome (source : PickupDocumentSource) (deviceSeq : Z) (s : Pickup)
  : option KioskOrderOutcome :=
  outcome_of_order <$> List.find (owned_by source deviceSeq) (orders s).

Definition legacyBoxTerminalReason (reason : option jsstr) : option KioskRejectionTerminalReason :=
  r ← reason;
  match terminal_reason r with
  | Some t => if bool_decide (t = OrderRejected) then None else Some t
  | None => if isBoxConflictReason r then Some OrderRejected else None
  end.

(** The first request marker of version 2 with a reason that is recognised. *)
Definition marker_reason (codes : list StoredOrderConflict) : option KioskRejectionTerminalReason :=
  head (omap (fun c => match c with
    | StoredRequest version reason => if version =? 2 then terminal_reason reason else None
    | _ => None end) codes).

Definition outcome_of_codes (codes : list StoredOrderConflict) : option KioskOrderOutcome :=
  let storedBox := head (omap (fun c => match c with
    | StoredBox _ _ reason => Some reason | _ => None end) codes) in
  terminal ← match marker_reason codes with
             | Some reason => Some reason
             | None => legacyBoxTerminalReason storedBox
             end;
  let '(conflicts, boxConflicts) := splitStoredConflicts codes in
  Some {| orderNo := []; itemCount := 0; conflicts := conflicts; outcomeBoxConflicts := boxConflicts;
          acceptedBoxes := []; rejected := true; terminalReason := Some terminal;
          writeoffForbidden := false |}.

Definition rejection_of (source : PickupDocumentSource) (deviceSeq : Z)
    (row : PickupScanRejectionRow) : bool :=
  bool_decide (rj_source row = source /\ rj_deviceSeq row = deviceSeq).

Definition findRejectionOutcome (source : PickupDocumentSource) (deviceSeq : Z) (s : Pickup)
  : option KioskOrderOutcome :=
  rejection ← List.find (rejection_of source deviceSeq) (rejections s);
  outcome_of_codes (rj_codes rejection).

(** [resolveLivePickupPolicy]. *)
Definition resolveLivePickupPolicy (employeeId : jsstr) (s : Pickup)
  : option EffectivePickupPolicy :=
  policy ← List.find (fun p => jseqb (ep_employeeId p) employeeId) (employeePolicies s);
  enabled ← limitsEnabled s;
  Some {| limited := enabled && ep_limited policy; dayLimit := ep_dayLimit policy;
          canWriteoff := ep_canWriteoff policy |}.

Definition PHC_ITERATIONS : Z := 100000.

Definition formatPhc (iterations : Z) (saltB64 digestB64 : jsstr) : jsstr :=
  js "pbkdf2$sha256$" ++ js_of_Z iterations ++ js "$" ++ saltB64 ++ js "$" ++ digestB64.

Definition badgeHashFor (digestB64 : jsstr) (s : Pickup) : jsstr :=
  match badgeSalt s with None => [] | Some salt => formatPhc PHC_ITERATIONS salt digestB64 end.

(** Whether a badge row is the one the body names, given the hash of its digest. *)
Definition badge_matches (presented : BadgeIdentity) (hash : jsstr) (row : BadgeRow) : bool :=
  match presented with
  | BadgeDigest _ => bool_decide (bg_badgeHash row = Some hash)
  | BadgeCode code => jseqb (bg_badgeCode row) code
  end.

Inductive EmployeeLookup :=
| NoEmployee
| NotConfigured
| ActiveEmployee (employeeId : jsstr) (pickupPolicy : EffectivePickupPolicy).

(** The query of [resolveActiveEmployee] and the checks after it. *)
Definition resolveActiveEmployee (presented : BadgeIdentity) (hash : jsstr) (s : Pickup)
  : EmployeeLookup :=
  let active row :=
    badge_matches presented hash row && bool_decide (bg_revokedAt row = None)
    && existsb (fun e => jseqb e.1 (bg_employeeId row) && e.2) (employees s) in
  match List.find active (badges s) with
  | None => NoEmployee
  | Some badge =>
      match resolveLivePickupPolicy (bg_employeeId badge) s with
      | None => NotConfigured
      | Some policy => ActiveEmployee (bg_employeeId badge) policy
      end
  end.

Definition auditBadgeValue (presented : BadgeIdentity) (s : Pickup) : jsstr :=
  match presented with
  | BadgeCode code => code
  | BadgeDigest digest =>
      match List.find (badge_matches presented (badgeHashFor digest s)) (badges s) with
      | Some row => bg_badgeCode row
      | None => digest
      end
  end.

(** The row of a reason that is not archived. *)
Definition active_reason (writeoffReasonId : jsstr) (s : Pickup) : bool :=
  existsb (fun r => jseqb r.1 writeoffReasonId && negb r.2) (reasons s).

Definition kioskAllowlist (kioskId : jsstr) (s : Pickup) : gmap jsstr Allowed :=
  map_of (listing ← List.filter (fun k => jseqb k.1 kioskId) (kioskProducts s);
          product ← List.filter (fun p => jseqb (p_id p) listing.2 && negb (p_archived p))
                      (products (stock s));
          [(p_gtin14 product, {| al_productId := p_id product; al_unitPrice := p_unitPrice product |})]).

Definition catalogue_gtins (s : Pickup) : list jsstr := p_gtin14 <$> products (stock s).

Definition open_items (order : PickupOrderRow) : list PickupOrderItemRow :=
  List.filter (fun item => negb (oi_voided item)) (o_items order).

(** The codes that are in an order and not voided. *)
Definition open_keys (s : Pickup) : list jsstr := orders s ≫= fun order => oi_kmKey <$> open_items order.

Definition usedRows (keys : list jsstr) (s : Pickup) : list jsstr :=
  List.filter (is_in keys) (open_keys s).

Definition utc_day (when : Z) : Z := when / DAY_MS.

(** Whether the items of an order count against the allowance of that day. *)
Definition counts_today (employeeId : jsstr) (day : Z) (order : PickupOrderRow) : bool :=
  jseqb (o_employeeId order) employeeId && negb (bool_decide (o_status order = Cancelled))
  && negb (bool_decide (o_reason order = Writeoff)) && (utc_day (o_createdAt order) =? day).

Definition countTakenToday (employeeId : jsstr) (when : Z) (s : Pickup) : Z :=
  Z.of_nat (length (List.filter (counts_today employeeId (utc_day when)) (orders s) ≫= open_items)).

(** ** Writes *)

Definition recordScanRejection (row : PickupScanRejectionRow) (s : Pickup) : Pickup :=
  if existsb (rejection_of (rj_source row) (rj_deviceSeq row)) (rejections s) then s
  else with_rejections (fun rows => rows ++ [row]) s.

Definition consumeKioskAdmission (source : PickupDocumentSource) (deviceSeq : Z) (s : Pickup) : Pickup :=
  match source with
  | HandheldSource _ => s
  | KioskSource kioskId =>
      with_admissions (List.filter (fun row =>
        negb (jseqb (ad_kioskId row) kioskId && (ad_deviceSeq row =? deviceSeq)))) s
  end.

Definition MAX_PG_INTEGER : Z := 2147483647.

(** The counter of [nextOrderNo] after the increment. *)
Definition next_seq (s : Pickup) : option Z :=
  if counter s <? MAX_PG_INTEGER then Some (counter s + 1) else None.

Definition loose_row (when : Z) (item : ResolvedItem) : PickupOrderItemRow :=
  {| oi_boxId := None; oi_productId := it_productId item; oi_gtin14 := it_gtin14 item;
     oi_serial := it_serial item; oi_rawKm := it_rawKm item; oi_kmKey := it_kmKey item;
     oi_unitPrice := it_unitPrice item; oi_voided := false; oi_scannedAt := when |}.

Definition member_row (when : Z) (box : ResolvedOrderBox) (member : ResolvedOrderBoxMember)
  : PickupOrderItemRow :=
  {| oi_boxId := Some (ob_boxId box); oi_productId := ob_productId box;
     oi_gtin14 := om_gtin14 member; oi_serial := om_serial member; oi_rawKm := om_rawKm member;
     oi_kmKey := om_kmKey member; oi_unitPrice := ob_unitPrice box; oi_voided := false;
     oi_scannedAt := when |}.

Definition item_rows (when : Z) (loose : list ResolvedItem) (taken : list ResolvedOrderBox)
  : list PickupOrderItemRow :=
  (loose_row when <$> loose) ++ (box ← taken; member_row when box <$> ob_members box).

Definition box_row (box : ResolvedOrderBox) : PickupOrderBoxRow :=
  {| xb_boxId := ob_boxId box; xb_sscc := ob_sscc box; xb_productId := ob_productId box;
     xb_bottleCount := ob_bottleCount box; xb_unitPrice := ob_unitPrice box |}.

Definition prices (loose : list ResolvedItem) (taken : list ResolvedOrderBox) : list (option jsstr) :=
  (it_unitPrice <$> loose) ++ (box ← taken; (fun _ => ob_unitPrice box) <$> ob_members box).

Definition duplicated (l : list jsstr) : bool := negb (all_distinct l).

(** The order the writes of a filing insert. *)
Definition new_order (id orderNo : jsstr) (source : PickupDocumentSource) (employeeId : jsstr)
    (reason : Reason) (writeoffReasonId : option jsstr) (deviceSeq when : Z)
    (loose : list ResolvedItem) (taken : list ResolvedOrderBox) (stored : list StoredOrderConflict)
  : PickupOrderRow :=
  {| o_id := id; o_orderNo := orderNo; o_source := source; o_employeeId := employeeId;
     o_reason := reason; o_writeoffReasonId := writeoffReasonId; o_status := Pending;
     o_itemCount := Z.of_nat (length loose) + bottles taken;
     o_totalPrice := computeTotalPrice (prices loose taken); o_receiptNo := None; o_actNo := None;
     o_deviceSeq := Some deviceSeq;
     o_syncConflicts := match stored with [] => None | _ => Some stored end;
     o_createdAt := when; o_resolvedAt := None; o_resolvedByUserId := None;
     o_boxes := box_row <$> taken; o_items := item_rows when loose taken |}.

(** Inserting an order with its boxes and items: the first index it violates, if
    any. *)
Definition insert_order (order : PickupOrderRow) (s : Pickup) : Pickup + db_error :=
  let keys := oi_kmKey <$> o_items order in
  if existsb (fun o => jseqb (o_id o) (o_id order)) (orders s) then inr (UniqueViolation PrimaryKey)
  else if existsb (fun o => jseqb (o_orderNo o) (o_orderNo order)) (orders s)
  then inr (UniqueViolation OrderNoUq)
  else if match o_deviceSeq order with
          | Some deviceSeq => existsb (owned_by (o_source order) deviceSeq) (orders s)
          | None => false end
  then inr (UniqueViolation match o_source order with
                            | KioskSource _ => KioskDeviceSeqUq
                            | HandheldSource _ => HandheldDeviceSeqUq end)
  else if duplicated (xb_boxId <$> o_boxes order) then inr (UniqueViolation OrderBoxUq)
  else if existsb (fun box => xb_bottleCount box <=? 0) (o_boxes order) then inr OtherDbError
  else if duplicated keys then inr (UniqueViolation OrderKmKeyUq)
  else if existsb (is_in (open_keys s)) keys then inr (UniqueViolation OpenKmKeyUq)
  else inl (with_orders (fun rows => rows ++ [order]) s).

(** ** Operations *)

Inductive lock :=
| BoxRegistryRoot
| DayAllowance (employeeId : jsstr) (day : Z)
| DeviceRow (source : PickupDocumentSource).

#[export] Instance lock_eq_dec : EqDecision lock.
Proof. solve_decision. Defined.

(** What [resolveRecovery] finds: read-only access, with whether there is a
    subscription, or access to write. *)
Inductive access := ReadOnly (subscription : bool) | Writable.

(** [Commit] is given a fresh row id, and ends the transaction; so does
    [Rollback]. *)
Inductive sql : Type -> Type :=
| Query {R} (q : Pickup -> R) : sql R
| Commit {R} (f : jsstr -> Pickup -> R * Pickup + db_error) : sql R
| Lock (l : lock) : sql unit
| Rollback : sql unit
| Now : sql Z
| ResolveRecovery (now : Z) : sql access.

Abbreviation handler := (prog sql db_error thrown).

Definition query {R} (q : Pickup -> R) : handler R := call_as Db (Query q).

(** Writes that violate nothing. *)
Definition write (f : Pickup -> Pickup) : sql unit := Commit (fun _ s => inl (tt, f s)).

(** [db.transaction(body)]: a rejection rolls back, and is thrown on. *)
Definition transaction {X A} (body : prog sql db_error X A) : prog sql db_error X A :=
  try_catch body (fun e =>
    try_catch (call Rollback) (fun _ => Raise e) ;; Raise e).

(** ** One attempt at filing *)

(** What the lines become, given what was read under the locks. *)
Record Plan := {
  pn_loose : list ResolvedItem; pn_boxes : list ResolvedOrderBox;
  pn_conflicts : list OrderConflict; pn_boxConflicts : list BoxConflict
}.

Section Attempt.
Context (source : PickupDocumentSource) (employeeId : jsstr) (reason : Reason)
  (writeoffReasonId : option jsstr) (deviceSeq when : Z) (rawItems requestedBoxes : list jsstr)
  (vnext : bool).

Definition is_writeoff : bool := bool_decide (reason = Writeoff).

Section Turn.
Context (remaining : list ResolvedItem) (accumulatedConflicts : list OrderConflict)
  (remainingBoxes : list jsstr) (accumulatedBoxConflicts : list BoxConflict).

Definition make_plan (policy : EffectivePickupPolicy) (resolved : list ResolvedOrderBox * list BoxConflict)
    (usedKeys : list jsstr) (existingCount : Z) : Plan :=
  let used item := is_in usedKeys (it_kmKey item) in
  let uniqueLoose := List.filter (fun item => negb (used item)) remaining in
  let duplicateLooseConflicts :=
    (fun item => refused (it_rawKm item) (js "duplicate")) <$> List.filter used remaining in
  let '(deduped, dedupConflicts) :=
    classifyResolvedBoxConflicts ((it_kmKey <$> uniqueLoose) ++ usedKeys) resolved.1 in
  let limited := applyOrderLineLimit existingCount (dayLimit policy)
    (limited policy && negb is_writeoff) uniqueLoose deduped in
  {| pn_loose := acceptedLoose limited; pn_boxes := limitedBoxes limited;
     pn_conflicts := accumulatedConflicts ++ duplicateLooseConflicts ++ looseConflicts limited;
     pn_boxConflicts := accumulatedBoxConflicts ++ resolved.2 ++ dedupConflicts ++ boxConflicts limited |}.

Definition stored_of (plan : Plan) : list StoredOrderConflict :=
  joinStoredConflicts (pn_conflicts plan) (pn_boxConflicts plan).

Definition rejection_row (orderId : option jsstr) (codes : list StoredOrderConflict)
  : PickupScanRejectionRow :=
  {| rj_source := source; rj_employeeId := Some employeeId; rj_badgeCode := None;
     rj_orderId := orderId; rj_deviceSeq := deviceSeq; rj_codes := codes; rj_scannedAt := when |}.

(** The writes of an attempt that takes something: the number of the order. *)
Definition file_order (plan : Plan) (id : jsstr) (s : Pickup) : jsstr * Pickup + db_error :=
  match next_seq s with
  | None => inr OtherDbError
  | Some n =>
      let order := new_order id (formatOrderNo n when) source employeeId reason writeoffReasonId
        deviceSeq when (pn_loose plan) (pn_boxes plan) (stored_of plan) in
      match insert_order order s with
      | inr e => inr e
      | inl s' =>
          let s' := with_counter n s' in
          let s' := match stored_of plan with
                    | [] => s'
                    | stored => recordScanRejection (rejection_row (Some id) stored) s'
                    end in
          inl (o_orderNo order, consumeKioskAdmission source deviceSeq s')
      end
  end.

(** What the [catch] of the attempt reads: the codes it was about to insert. *)
Abbreviation attempt_t :=
  (prog sql db_error (thrown * (list ResolvedItem * list ResolvedOrderBox))).

Definition attempting {R} (attempted : list ResolvedItem * list ResolvedOrderBox) (o : sql R)
  : attempt_t R := call_as (fun e => (Db e, attempted)) o.

Definition refusal : KioskOrderOutcome :=
  {| orderNo := []; itemCount := 0; conflicts := []; outcomeBoxConflicts := []; acceptedBoxes := [];
     rejected := false; terminalReason := None; writeoffForbidden := true |}.

(** The tail of [apply]: the decision, and its writes. *)
Definition conclude (plan : Plan) : attempt_t KioskOrderOutcome :=
  let attempted := (pn_loose plan, pn_boxes plan) in
  let acceptedBottleCount := Z.of_nat (length (pn_loose plan)) + bottles (pn_boxes plan) in
  if (acceptedBottleCount =? 0) && (0 <? length rawItems + length requestedBoxes)%nat then
    attempting attempted (write (fun s =>
      consumeKioskAdmission source deviceSeq
        (recordScanRejection (rejection_row None
           (stored_of plan ++ option_list (kioskOrderRequestMarker vnext OrderRejected))) s))) ;;
    Ret {| orderNo := []; itemCount := 0; conflicts := pn_conflicts plan;
           outcomeBoxConflicts := pn_boxConflicts plan; acceptedBoxes := []; rejected := vnext;
           terminalReason := None; writeoffForbidden := false |}
  else
    let! number := attempting attempted (Commit (file_order plan)) in
    Ret {| orderNo := number; itemCount := acceptedBottleCount; conflicts := pn_conflicts plan;
           outcomeBoxConflicts := pn_boxConflicts plan;
           acceptedBoxes := by_sscc ((fun box => {| ab_sscc := ob_sscc box;
             ab_bottleCount := ob_bottleCount box |}) <$> pn_boxes plan);
           rejected := false; terminalReason := None; writeoffForbidden := false |}.

(** [findSerializedKioskWinner]. *)
Definition findSerializedKioskWinner (s : Pickup) : option KioskOrderOutcome :=
  match findOrderOutcome source deviceSeq s with
  | Some order => Some order
  | None => if vnext then findRejectionOutcome source deviceSeq s else None
  end.

(** What [recordScanRejection] keeps of lines refused by the policy. *)
Definition forbidden_codes : list StoredOrderConflict :=
  ((fun rawKm => StoredLine rawKm (js "writeoff_forbidden")) <$> rawItems)
  ++ ((fun s => StoredBox s None (js "writeoff_forbidden")) <$> requestedBoxes)
  ++ option_list (kioskOrderRequestMarker vnext WriteoffForbidden).

Definition lines_submitted : bool := (0 <? length rawItems + length requestedBoxes)%nat.

(** The answer to an exception of [resolveOrderBoxes]: the budget's own, or 500. *)
Definition resolve_error (error : js_error) : http_error :=
  if bool_decide (error = DomainError "box_request_too_large") then BoxRequestTooLarge else InternalError.

Definition apply_order : attempt_t KioskOrderOutcome :=
  let attempting0 {R} (o : sql R) : attempt_t R := attempting ([], []) o in
  let! winner := attempting0 (Query findSerializedKioskWinner) in
  match winner with
  | Some outcome =>
      attempting0 (write (consumeKioskAdmission source deviceSeq)) ;; Ret outcome
  | None =>
      let! livePolicy := attempting0 (Query (resolveLivePickupPolicy employeeId)) in
      match livePolicy with
      | None => Raise (Http PolicyNotConfigured, ([], []))
      | Some policy =>
          if is_writeoff && negb (canWriteoff policy) then
            attempting0 (write (fun s =>
              consumeKioskAdmission source deviceSeq
                (if lines_submitted
                 then recordScanRejection (rejection_row None forbidden_codes) s else s))) ;;
            Ret refusal
          else
            let! resolved := attempting0 (Query (fun s => resolveOrderBoxes (stock s) remainingBoxes)) in
            match resolved with
            | Throw error => Raise (Http (resolve_error error), ([], []))
            | Ok boxes =>
                let keysToCheck := remove_dups ((it_kmKey <$> remaining) ++ box_keys boxes.1) in
                let! usedKeys := match keysToCheck with
                  | [] => Ret []
                  | _ => attempting0 (Query (usedRows keysToCheck)) end in
                let! existingCount := if is_writeoff then Ret 0
                  else attempting0 (Query (countTakenToday employeeId when)) in
                conclude (make_plan policy boxes usedKeys existingCount)
            end
      end
  end.

Definition attempt : attempt_t KioskOrderOutcome :=
  transaction (
    attempting ([], []) (Lock BoxRegistryRoot) ;;
    attempting ([], []) (Lock (DayAllowance employeeId (utc_day when))) ;;
    attempting ([], []) (Lock (DeviceRow source)) ;;
    apply_order).
End Turn.

(** ** insertOrderWithRetry *)

Definition isDeviceSeqRace (e : thrown) : bool :=
  match e with Db (UniqueViolation KioskDeviceSeqUq) => true | _ => false end.
Definition isKmKeyRace (e : thrown) : bool :=
  match e with Db (UniqueViolation OpenKmKeyUq) => true | _ => false end.

Fixpoint retry (attempts : nat) (remaining : list ResolvedItem)
    (accumulatedConflicts : list OrderConflict) (remainingBoxes : list jsstr)
    (accumulatedBoxConflicts : list BoxConflict) : handler KioskOrderOutcome :=
  match attempts with
  | O => Raise (Http RetryExhausted)
  | S attempts' =>
      try_catch (attempt remaining accumulatedConflicts remainingBoxes accumulatedBoxConflicts)
        (fun '(error, (attemptedAccepted, attemptedBoxes)) =>
          if isDeviceSeqRace error then
            let! winner := query (findOrderOutcome source deviceSeq) in
            match winner with
            | None => Raise error
            | Some outcome =>
                call_as Db (write (consumeKioskAdmission source deviceSeq)) ;; Ret outcome
            end
          else if negb (isKmKeyRace error)
                  || ((length attemptedAccepted =? 0)%nat && (length attemptedBoxes =? 0)%nat)
          then Raise error
          else
            let! conflictingKeys :=
              query (usedRows ((it_kmKey <$> attemptedAccepted) ++ box_keys attemptedBoxes)) in
            match conflictingKeys with
            | [] => Raise error
            | _ =>
                let r := reclassifyOrderKmKeyRace remaining remainingBoxes attemptedBoxes conflictingKeys in
                retry attempts' (rc_loose r) (accumulatedConflicts ++ rc_looseConflicts r)
                  (rc_requestedBoxes r) (accumulatedBoxConflicts ++ rc_boxConflicts r)
            end)
  end.

Definition insertOrderWithRetry (items : list ResolvedItem) (conflicts : list OrderConflict)
  : handler KioskOrderOutcome :=
  retry (length items + length requestedBoxes + 1) items conflicts requestedBoxes [].

End Attempt.

(** ** createForDevice, for a kiosk *)

Record CanonicalOrderContent := {
  co_deviceSeq : Z; co_badge : BadgeIdentity; co_reason : Reason; co_writeoffReasonId : option jsstr;
  co_items : list jsstr; co_boxes : option (list jsstr)
}.

Definition canonicalKioskOrderContent (dto : CreateOrderDto) : CanonicalOrderContent :=
  let processing := kioskOrderProcessingLines dto in
  {| co_deviceSeq := d_deviceSeq dto; co_badge := d_badge dto; co_reason := d_reason dto;
     co_writeoffReasonId := d_writeoffReasonId dto;
     co_items := if vNext processing then pl_items processing else d_items dto;
     co_boxes := if vNext processing then Some (pl_boxes processing) else None |}.

Definition CLIENT_CLOCK_AHEAD_TOLERANCE_MS : Z := 5 * 60000.
Definition CLIENT_CLOCK_BEHIND_TOLERANCE_MS : Z := 7 * 24 * 60 * 60000.

Section Create.
(** [new Date(text).getTime()], [None] for NaN; the SHA-256 of a proof, and of the
    JSON text of an order. *)
Context (date_parse : jsstr -> option Z).
Context (kioskAdmissionTokenHash : jsstr -> jsstr).
Context (kioskOrderPayloadDigest : CanonicalOrderContent -> jsstr).

Definition resolveScanTime (createdAt : option jsstr) (now : Z) : Z :=
  match createdAt with
  | None => now
  | Some text =>
      match date_parse text with
      | None => now
      | Some claimed =>
          let skewMs := claimed - now in
          if (CLIENT_CLOCK_AHEAD_TOLERANCE_MS <? skewMs)
             || (CLIENT_CLOCK_BEHIND_TOLERANCE_MS <? - skewMs)
          then now else claimed
      end
  end.

(** The reservation a read-only organization's order has to present. *)
Definition admission_matches (kioskId : jsstr) (dto : CreateOrderDto) (proof : jsstr) (claimedAt : Z)
    (row : AdmissionRow) : bool :=
  jseqb (ad_kioskId row) kioskId && (ad_deviceSeq row =? d_deviceSeq dto)
  && jseqb (ad_tokenHash row) (kioskAdmissionTokenHash proof)
  && jseqb (ad_payloadDigest row) (kioskOrderPayloadDigest (canonicalKioskOrderContent dto))
  && (ad_claimedAt row =? claimedAt).

Section Request.
Context (kioskId : jsstr) (dto : CreateOrderDto).

Definition source : PickupDocumentSource := KioskSource kioskId.
Definition processing : ProcessingLines := kioskOrderProcessingLines dto.

(** Step 1b: the instant the request is filed under. *)
Definition filing_time : handler Z :=
  let! serverNow := call_as Db Now in
  let! recovered := call_as Db (ResolveRecovery serverNow) in
  match recovered with
  | Writable => Ret (resolveScanTime (d_createdAt dto) serverNow)
  | ReadOnly subscription =>
      match subscription, d_createdAt dto, d_admissionProof dto with
      | true, Some createdAt, Some proof =>
          match date_parse createdAt with
          | None => Raise (Http InternalError)
          | Some claimedAt =>
              let! admission := query (fun s =>
                List.find (admission_matches kioskId dto proof claimedAt) (admissions s)) in
              match admission with
              | None => Raise (Http SubscriptionReadOnly)
              | Some row => Ret (ad_claimedAt row)
              end
          end
      | _, _, _ => Raise (Http SubscriptionReadOnly)
      end
  end.

(** [persistLegacyEarlyRejection] and [persistSerializedEarlyRejection]. *)
Definition early_writes (hasLines : bool) (row : PickupScanRejectionRow) (s : Pickup) : Pickup :=
  consumeKioskAdmission source (d_deviceSeq dto) (if hasLines then recordScanRejection row s else s).

Definition persistLegacyEarlyRejection (hasLines : bool) (row : PickupScanRejectionRow)
  : handler (option KioskOrderOutcome) :=
  transaction (call_as Db (write (early_writes hasLines row)) ;; Ret None).

Definition persistSerializedEarlyRejection (hasLines : bool) (row : PickupScanRejectionRow)
  : handler (option KioskOrderOutcome) :=
  let consume := call_as Db (write (consumeKioskAdmission source (d_deviceSeq dto))) in
  transaction (
    call_as Db (Lock (DeviceRow source)) ;;
    let! order := query (findOrderOutcome source (d_deviceSeq dto)) in
    match order with
    | Some outcome => consume ;; Ret (Some outcome)
    | None =>
        let! rejection := query (findRejectionOutcome source (d_deviceSeq dto)) in
        match rejection with
        | Some outcome => consume ;; Ret (Some outcome)
        | None => call_as Db (write (early_writes hasLines row)) ;; Ret None
        end
    end).

(** [kioskResultFromOutcome]. *)
Definition kioskResultFromOutcome (outcome : KioskOrderOutcome) : handler CreateOrderResultDto :=
  if rejected outcome then Raise (Http (throwPersistedKioskRejection outcome))
  else Ret (result_of outcome).

(** Refusing the whole request for [terminal], unless it was answered before. *)
Definition reject_early (hasLines : bool) (employeeId badgeCode : option jsstr) (when : Z)
    (terminal : KioskRejectionTerminalReason) (error : thrown) : handler CreateOrderResultDto :=
  let row := {| rj_source := source; rj_employeeId := employeeId; rj_badgeCode := badgeCode;
                rj_orderId := None; rj_deviceSeq := d_deviceSeq dto;
                rj_codes := auditSubmittedLines dto terminal; rj_scannedAt := when |} in
  let! winner := if vNext processing then persistSerializedEarlyRejection hasLines row
                 else persistLegacyEarlyRejection hasLines row in
  match winner with
  | Some outcome => kioskResultFromOutcome outcome
  | None => Raise error
  end.

(** [resolveWriteoffReasonId]; the [catch] around it takes whatever is thrown, a
    failure of the database too, and refuses the request for it. *)
Definition writeoff_reason : handler (option jsstr + KioskRejectionTerminalReason * thrown) :=
  if negb (is_writeoff (d_reason dto)) then Ret (inl None)
  else match d_writeoffReasonId dto with
  | None | Some [] => Ret (inr (WriteoffReasonRequired, Http WriteoffReasonRequiredError))
  | Some id =>
      try_catch
        (let! found := query (active_reason id) in
         if found then Ret (inl (Some id)) else Raise (Http UnknownWriteoffReason))
        (fun error => Ret (inr (UnknownReason, error)))
  end.

(** Steps 4 to 7. *)
Definition file_lines (employeeId : jsstr) (writeoffReasonId : option jsstr) (when : Z)
  : handler CreateOrderResultDto :=
  let! allowlist := query (kioskAllowlist kioskId) in
  let! catalogue := query catalogue_gtins in
  let '(conflicts, candidates) := resolveItems allowlist catalogue (pl_items processing) in
  let! order := insertOrderWithRetry source employeeId (d_reason dto) writeoffReasonId
    (d_deviceSeq dto) when (pl_items processing) (pl_boxes processing) (vNext processing)
    candidates conflicts in
  if writeoffForbidden order then Raise (Http WriteoffForbiddenError)
  else kioskResultFromOutcome order.

Definition createForDevice : handler CreateOrderResultDto :=
  let! existing := query (findOrderOutcome source (d_deviceSeq dto)) in
  match existing with
  | Some outcome =>
      call_as Db (write (consumeKioskAdmission source (d_deviceSeq dto))) ;; Ret (result_of outcome)
  | None =>
      let! rejection := if vNext processing then query (findRejectionOutcome source (d_deviceSeq dto))
                        else Ret None in
      match rejection with
      | Some outcome => Raise (Http (throwPersistedKioskRejection outcome))
      | None =>
          let! when := filing_time in
          let! hash := match d_badge dto with
            | BadgeDigest digest => query (badgeHashFor digest)
            | BadgeCode _ => Ret [] end in
          let! employee := query (resolveActiveEmployee (d_badge dto) hash) in
          match employee with
          | NotConfigured => Raise (Http PolicyNotConfigured)
          | NoEmployee =>
              let hasLines := (0 <? length (pl_items processing) + length (pl_boxes processing))%nat in
              let! badgeCode := if hasLines
                then let! code := query (auditBadgeValue (d_badge dto)) in Ret (Some code)
                else Ret None in
              reject_early hasLines None badgeCode when UnknownBadge (Http UnknownOrInactiveBadge)
          | ActiveEmployee employeeId policy =>
              if is_writeoff (d_reason dto) && negb (canWriteoff policy) then
                reject_early true (Some employeeId) None when WriteoffForbidden
                  (Http WriteoffForbiddenError)
              else
                let! reasonId := writeoff_reason in
                match reasonId with
                | inr (terminal, error) => reject_early true (Some employeeId) None when terminal error
                | inl writeoffReasonId => file_lines employeeId writeoffReasonId when
                end
          end
      end
  end.
End Request.
End Create.

(** ** The transitions of an order *)

Definition find_order (id : jsstr) (s : Pickup) : option PickupOrderRow :=
  List.find (fun order => jseqb (o_id order) id) (orders s).

(** [update(pickupOrders).set(f).where(id, status = 'pending')]: whether a row
    was updated. *)
Definition update_pending (id : jsstr) (f : PickupOrderRow -> PickupOrderRow) (s : Pickup)
  : bool * Pickup :=
  let hit order := jseqb (o_id order) id && bool_decide (o_status order = Pending) in
  (existsb hit (orders s), with_orders (map (fun order => if hit order then f order else order)) s).

Definition with_status (status : PickupOrderStatus) (receiptNo actNo writeoffReasonId : option jsstr)
    (resolved : option (Z * option jsstr)) (order : PickupOrderRow) : PickupOrderRow :=
  {| o_id := o_id order; o_orderNo := o_orderNo order; o_source := o_source order;
     o_employeeId := o_employeeId order; o_reason := o_reason order;
     o_writeoffReasonId := writeoffReasonId; o_status := status; o_itemCount := o_itemCount order;
     o_totalPrice := o_totalPrice order; o_receiptNo := receiptNo; o_actNo := actNo;
     o_deviceSeq := o_deviceSeq order; o_syncConflicts := o_syncConflicts order;
     o_createdAt := o_createdAt order;
     o_resolvedAt := match resolved with Some r => Some r.1 | None => o_resolvedAt order end;
     o_resolvedByUserId := match resolved with Some r => r.2 | None => o_resolvedByUserId order end;
     o_boxes := o_boxes order; o_items := o_items order |}.

Definition void_item (item : PickupOrderItemRow) : PickupOrderItemRow :=
  {| oi_boxId := oi_boxId item; oi_productId := oi_productId item; oi_gtin14 := oi_gtin14 item;
     oi_serial := oi_serial item; oi_rawKm := oi_rawKm item; oi_kmKey := oi_kmKey item;
     oi_unitPrice := oi_unitPrice item; oi_voided := true; oi_scannedAt := oi_scannedAt item |}.

Definition with_items (f : PickupOrderItemRow -> PickupOrderItemRow) (order : PickupOrderRow)
  : PickupOrderRow :=
  {| o_id := o_id order; o_orderNo := o_orderNo order; o_source := o_source order;
     o_employeeId := o_employeeId order; o_reason := o_reason order;
     o_writeoffReasonId := o_writeoffReasonId order; o_status := o_status order;
     o_itemCount := o_itemCount order; o_totalPrice := o_totalPrice order;
     o_receiptNo := o_receiptNo order; o_actNo := o_actNo order; o_deviceSeq := o_deviceSeq order;
     o_syncConflicts := o_syncConflicts order; o_createdAt := o_createdAt order;
     o_resolvedAt := o_resolvedAt order; o_resolvedByUserId := o_resolvedByUserId order;
     o_boxes := o_boxes order; o_items := map f (o_items order) |}.

(** The update of [pickupOrderItems] where the order is [id]. *)
Definition void_items (id : jsstr) (s : Pickup) : Pickup :=
  with_orders (map (fun order => if jseqb (o_id order) id then with_items void_item order else order)) s.

Definition cancelled_row (order : PickupOrderRow) : PickupOrderRow :=
  with_status Cancelled (o_receiptNo order) (o_actNo order) (o_writeoffReasonId order) None order.

(** A guarded update, and whether it found its row. *)
Definition update (f : Pickup -> bool * Pickup) : handler bool :=
  call_as Db (Commit (fun _ s => inl (f s))).

(** The two updates of a cancellation, when the first finds the order pending. *)
Definition cancel_writes (id : jsstr) (s : Pickup) : bool * Pickup :=
  let '(hit, s') := update_pending id cancelled_row s in
  if hit then (true, void_items id s') else (false, s).

Definition status_of (id : jsstr) (s : Pickup) : option PickupOrderStatus :=
  o_status <$> find_order id s.

Definition cancel (id : jsstr) : handler unit :=
  transaction (
    let! current := query (status_of id) in
    match current with
    | None => Raise (Http NotFound)
    | Some status =>
        if negb (bool_decide (status = Pending)) then Raise (Http OnlyWhilePending)
        else
          let! hit := update (cancel_writes id) in
          if hit then Ret tt else Raise (Http OnlyWhilePending)
    end).

Inductive ResolveAction :=
| Punch (receiptNo : option jsstr)
| WriteOff (actNo writeoffReasonId : option jsstr).

Definition punched_row (receiptNo : option jsstr) (at_ : Z) (user : option jsstr)
    (order : PickupOrderRow) : PickupOrderRow :=
  with_status Punched receiptNo (o_actNo order) (o_writeoffReasonId order) (Some (at_, user)) order.

Definition resolve (id : jsstr) (action : ResolveAction) (userId : jsstr) : handler unit :=
  let! current := query (find_order id) in
  match current with
  | None => Raise (Http NotFound)
  | Some order =>
      if negb (bool_decide (o_status order = Pending)) then Raise (Http OnlyWhilePending)
      else
        let! resolvedAt := call_as Db Now in
        let! hit := match action with
          | Punch receiptNo =>
              update (update_pending id (punched_row receiptNo resolvedAt (Some userId)))
          | WriteOff actNo supplied =>
              match (match supplied with Some r => Some r | None => o_writeoffReasonId order end) with
              | None => Raise (Http WriteoffReasonRequiredError)
              | Some reasonId =>
                  let! fine := match supplied with Some r => query (active_reason r) | None => Ret true end in
                  if fine then
                    update (update_pending id (fun order =>
                      with_status Writtenoff (o_receiptNo order) actNo (Some reasonId)
                        (Some (resolvedAt, Some userId)) order))
                  else Raise (Http UnknownWriteoffReason)
              end
          end in
        if hit then Ret tt else Raise (Http OnlyWhilePending)
  end.

Inductive ApplyExternalStatusOutcome :=
| Applied | ExternalNotFound | NotPending (currentStatus : option PickupOrderStatus)
| MissingWriteoffReason.

(** [mappedStatus] is one of the three final statuses. *)
Definition applyExternalStatus (orderId : jsstr) (mappedStatus : PickupOrderStatus)
  : handler ApplyExternalStatusOutcome :=
  let! current := query (find_order orderId) in
  match current with
  | None => Ret ExternalNotFound
  | Some order =>
      if negb (bool_decide (o_status order = Pending)) then Ret (NotPending (Some (o_status order)))
      else if bool_decide (mappedStatus = Cancelled) then
        let! hit := transaction (update (cancel_writes orderId)) in
        Ret (if hit then Applied else NotPending None)
      else if bool_decide (mappedStatus = Writtenoff) && negb (bool_decide (is_Some (o_writeoffReasonId order)))
      then Ret MissingWriteoffReason
      else
        let! resolvedAt := call_as Db Now in
        let! hit := update (update_pending orderId (fun order =>
          if bool_decide (mappedStatus = Punched)
          then punched_row (o_receiptNo order) resolvedAt None order
          else with_status Writtenoff (o_receiptNo order) (o_actNo order) (o_writeoffReasonId order)
                 (Some (resolvedAt, None)) order)) in
        Ret (if hit then Applied else NotPending None)
  end.

(** [exportCodes]: the open codes of the orders, in the order they were taken. *)
Definition export_rows (orderIds : list jsstr) (s : Pickup) : list (jsstr * PickupOrderItemRow) :=
  js_sort (fun x y => js_ltb x.1 y.1 || (jseqb x.1 y.1 && (oi_scannedAt x.2 <=? oi_scannedAt y.2)))
    (order ← List.filter (fun order => is_in orderIds (o_id order)) (orders s);
     (fun item => (o_id order, item)) <$> open_items order).

Definition join_codes (codes : list jsstr) : jsstr :=
  match codes with [] => [] | code :: rest => code ++ (rest ≫= fun c => [10] ++ c) end.

Definition exportCodes (orderIds : list jsstr) : handler jsstr :=
  match orderIds with
  | [] => Ret []
  | _ => let! rows := query (export_rows orderIds) in Ret (join_codes ((fun r => oi_rawKm r.2) <$> rows))
  end.

(** ** The world *)

(** What becomes of an operation. *)
Inductive fate :=
| Served
| FailsBefore (e : db_error)
| FailsAfter
| DiesBefore
| DiesAfter.

(** [meanwhile]: what others commit before the operation, given the locks the
    run holds. *)
Record choice := {
  c_meanwhile : list lock -> Pickup -> Pickup; c_fate : fate; c_uuid : jsstr; c_now : Z;
  c_access : access
}.

(** A commit of this run: the locks held, the tables before and after. *)
Record committed := { lg_locks : list lock; lg_before : Pickup; lg_after : Pickup }.

Record World := { w_db : Pickup; w_locks : list lock; w_log : list committed }.

Definition effect {R} (o : sql R) (c : choice) (w : World) : (R + db_error) * World :=
  match o in sql R return (R + db_error) * World with
  | Query q => (inl (q (w_db w)), w)
  | Commit f =>
      match f (c_uuid c) (w_db w) with
      | inl (r, db') =>
          (inl r, {| w_db := db'; w_locks := [];
                     w_log := w_log w ++ [{| lg_locks := w_locks w; lg_before := w_db w;
                                             lg_after := db' |}] |})
      | inr e => (inr e, w)
      end
  | Lock l => (inl tt, {| w_db := w_db w; w_locks := l :: w_locks w; w_log := w_log w |})
  | Rollback => (inl tt, {| w_db := w_db w; w_locks := []; w_log := w_log w |})
  | Now => (inl (c_now c), w)
  | ResolveRecovery _ => (inl (c_access c), w)
  end.

Definition perform (R : Type) (o : sql R) (c : choice) (w : World) : option (R + db_error) * World :=
  let w1 := {| w_db := c_meanwhile c (w_locks w) (w_db w); w_locks := w_locks w; w_log := w_log w |} in
  match c_fate c with
  | DiesBefore => (None, w1)
  | FailsBefore e => (Some (inr e), w1)
  | _ =>
      let '(r, w2) := effect o c w1 in
      match c_fate c with
      | FailsAfter => (Some (inr OtherDbError), w2)
      | DiesAfter => (None, w2)
      | _ => (Some r, w2)
      end
  end.
