(* ===== verification/PickupSafety.v ===== *)
(** * What filing pickup orders guarantees

    Theorems about [PickupOrders]: the invariant of the tables, what each
    transaction may do to them given the locks it holds, that an answer is final,
    that every submitted line is accounted for, that the retries end. *)

From stdpp Require Import base list strings gmap relations.
From Stdlib Require Import ZArith Lia.
From S2P Require Import Prelude Gs1 Km Dates KioskApi KioskCart Effects BoxFacts PickupLines PickupOrders.

#[local] Open Scope Z_scope.
#[local] Open Scope prog_scope.

(** ** The plan of an attempt *)

Lemma item_keys_sublist l k : sublist l k -> sublist (item_keys l) (item_keys k).
Proof. intros H. induction H; cbn; by constructor. Qed.

Lemma box_keys_sublist l k : sublist l k -> sublist (box_keys l) (box_keys k).
Proof.
  intros H. induction H as [|b l k H IH|b l k H IH]; [constructor| |]; rewrite ?box_keys_cons.
  - by apply sublist_app.
  - by apply sublist_inserts_l.
Qed.

Lemma Forall_sublist {A} (P : A -> Prop) l k : sublist l k -> Forall P k -> Forall P l.
Proof. rewrite !Forall_forall. intros Hs H a Ha. apply H. by eapply elem_of_sublist. Qed.

Record plan_spec (reason : Reason) (remaining : list ResolvedItem) (accC : list OrderConflict)
    (accB : list BoxConflict) (policy : EffectivePickupPolicy)
    (resolved : list ResolvedOrderBox * list BoxConflict) (usedKeys : list jsstr) (existing : Z)
    (plan : Plan) : Prop := {
  ps_items : item_texts (pn_loose plan) ++ conflict_texts (pn_conflicts plan)
             ≡ₚ item_texts remaining ++ conflict_texts accC;
  ps_boxes : box_texts (pn_boxes plan) ++ box_conflict_texts (pn_boxConflicts plan)
             ≡ₚ (box_texts resolved.1 ++ box_conflict_texts resolved.2) ++ box_conflict_texts accB;
  ps_loose_sub : sublist (pn_loose plan) remaining;
  ps_boxes_sub : sublist (pn_boxes plan) resolved.1;
  ps_distinct : NoDup (item_keys (pn_loose plan) ++ box_keys (pn_boxes plan));
  ps_unused : forall key, key ∈ item_keys (pn_loose plan) ++ box_keys (pn_boxes plan) -> key ∉ usedKeys;
  ps_limit : limited policy = true -> reason <> Writeoff ->
    existing + Z.of_nat (length (pn_loose plan)) + bottles (pn_boxes plan)
    <= Z.max existing (dayLimit policy);
  ps_good : forallb good_conflict accC = true -> forallb good_conflict (pn_conflicts plan) = true;
  ps_good_boxes : forallb good_box_conflict accB = true -> forallb good_box_conflict resolved.2 = true ->
    forallb good_box_conflict (pn_boxConflicts plan) = true
}.

Lemma limit_loose_good dayLimit limited count loose :
  forallb good_conflict (limit_loose dayLimit limited count loose).2 = true.
Proof.
  revert count. induction loose as [|item rest IH]; intros count; [done|]. cbn [limit_loose].
  destruct (negb limited || _).
  - specialize (IH (count + 1)). by destruct (limit_loose _ _ _ rest) as [[c a] k].
  - specialize (IH count). by destruct (limit_loose _ _ _ rest) as [[c a] k].
Qed.

Lemma limit_boxes_good dayLimit limited count boxes :
  forallb good_box_conflict (limit_boxes dayLimit limited count boxes).2 = true.
Proof.
  revert count. induction boxes as [|box rest IH]; intros count; [done|]. cbn [limit_boxes].
  destruct (negb limited || _).
  - specialize (IH (count + ob_bottleCount box)). by destruct (limit_boxes _ _ _ rest) as [[c a] k].
  - specialize (IH count). by destruct (limit_boxes _ _ _ rest) as [[c a] k].
Qed.

Lemma applyOrderLineLimit_good existing dayLimit limited loose boxes :
  let r := applyOrderLineLimit existing dayLimit limited loose boxes in
  forallb good_conflict (looseConflicts r) = true /\ forallb good_box_conflict (boxConflicts r) = true.
Proof.
  unfold applyOrderLineLimit. pose proof (limit_loose_good dayLimit limited existing loose) as H.
  destruct (limit_loose _ _ _ loose) as [[c a] k].
  pose proof (limit_boxes_good dayLimit limited c boxes) as H'.
  by destruct (limit_boxes _ _ _ boxes) as [[c' a'] k'].
Qed.

Lemma classify_good claimed boxes :
  forallb good_box_conflict (classifyResolvedBoxConflicts claimed boxes).2 = true.
Proof.
  revert claimed. induction boxes as [|box rest IH]; intros claimed; [done|].
  cbn [classifyResolvedBoxConflicts]. destruct (existsb _ _).
  - specialize (IH claimed). by destruct (classifyResolvedBoxConflicts _ rest).
  - specialize (IH (member_keys_of box ++ claimed)). by destruct (classifyResolvedBoxConflicts _ rest).
Qed.

Lemma make_plan_spec reason remaining accC accB policy resolved usedKeys existing :
  NoDup (item_keys remaining) -> Forall wf_box resolved.1 ->
  plan_spec reason remaining accC accB policy resolved usedKeys existing
    (make_plan reason remaining accC accB policy resolved usedKeys existing).
Proof.
  intros Hn Hw. unfold make_plan.
  set (used item := is_in usedKeys (it_kmKey item)).
  set (unique := List.filter (fun item => negb (used item)) remaining).
  pose proof (classify_spec ((it_kmKey <$> unique) ++ usedKeys) resolved.1) as Hc.
  pose proof (classify_good ((it_kmKey <$> unique) ++ usedKeys) resolved.1) as Hcg.
  destruct (classifyResolvedBoxConflicts _ resolved.1) as [deduped dedupConflicts].
  destruct Hc as (Hcp & Hcs & Hck). destruct (Hck Hw) as [Hckn Hckd].
  set (lim := limited policy && negb (is_writeoff reason)).
  pose proof (applyOrderLineLimit_spec existing (dayLimit policy) lim unique deduped) as Hl.
  pose proof (applyOrderLineLimit_good existing (dayLimit policy) lim unique deduped) as [Hlg Hlgb].
  destruct (applyOrderLineLimit _ _ _ _ _) as [loose lc taken bc]; cbn in Hl, Hlg, Hlgb.
  destruct Hl as (Hli & Hlb & Hls & Hlbs & Hll).
  assert (Hu : sublist unique remaining) by apply list_filter_sublist.
  assert (Hlk : forall key, key ∈ item_keys loose -> key ∈ it_kmKey <$> unique)
    by (intros key Hk; eapply elem_of_sublist; [exact Hk | by apply item_keys_sublist]).
  assert (Hbk : forall key, key ∈ box_keys taken -> key ∉ (it_kmKey <$> unique) ++ usedKeys)
    by (intros key Hk; apply Hckd; eapply elem_of_sublist; [exact Hk | by apply box_keys_sublist]).
  split; cbn [pn_loose pn_boxes pn_conflicts pn_boxConflicts].
  - rewrite !conflict_texts_app.
    assert (Hsplit : item_texts unique ++ conflict_texts ((fun item => refused (it_rawKm item)
        (js "duplicate")) <$> List.filter used remaining) ≡ₚ item_texts remaining).
    { unfold item_texts, conflict_texts. rewrite <- list_fmap_compose, <- fmap_app.
      apply fmap_Permutation, filter_split. }
    rewrite <- Hsplit, <- Hli. solve_Permutation.
  - rewrite !box_conflict_texts_app, <- Hcp, <- Hlb. solve_Permutation.
  - by etrans.
  - by etrans.
  - apply NoDup_app. split_and!.
    + eapply sublist_NoDup; [exact Hn|]. apply item_keys_sublist. by etrans.
    + intros key Hk Hk'. apply (Hbk _ Hk'). apply elem_of_app. left. by apply Hlk.
    + eapply sublist_NoDup; [exact Hckn | by apply box_keys_sublist].
  - intros key [Hk|Hk]%elem_of_app.
    + apply Hlk in Hk. apply list_elem_of_fmap in Hk as (item & -> & Hin).
      apply list_elem_of_In, filter_In in Hin as [_ Hin]. unfold used in Hin.
      rewrite negb_true_iff in Hin. intros Hu'%elem_of_is_in. congruence.
    + intros Hu'. apply (Hbk _ Hk), elem_of_app. by right.
  - intros Hlim Hr. apply Hll. unfold lim, is_writeoff. rewrite Hlim. by rewrite bool_decide_eq_false_2.
  - intros Ha. repeat apply forallb_app_true; [done | | done]. by apply forallb_map_const.
  - intros Ha Hb. by repeat apply forallb_app_true.
Qed.

(** ** Order numbers *)

Lemma formatOrderNo_inj n m t u :
  0 <= n -> 0 <= m -> formatOrderNo n t = formatOrderNo m u -> n = m.
Proof.
  intros Hn Hm H. unfold formatOrderNo in H. rewrite !(app_assoc (js "ORD-")) in H. by apply dash_pad_inj in H.
Qed.

(** ** The invariant *)

Definition order_slot (o : PickupOrderRow) : option (PickupDocumentSource * Z) :=
  q ← o_deviceSeq o; Some (o_source o, q).

Definition rejection_slot (r : PickupScanRejectionRow) : PickupDocumentSource * Z :=
  (rj_source r, rj_deviceSeq r).

(** A rejection that answers a request sent again. *)
Definition marked (r : PickupScanRejectionRow) : Prop := is_Some (outcome_of_codes (rj_codes r)).

(** A whole order: its count, its boxes, its refusals; its codes are voided when,
    and only when, it is cancelled. *)
Record wf_order (o : PickupOrderRow) : Prop := {
  wo_count : o_itemCount o = Z.of_nat (length (o_items o));
  wo_voided : Forall (fun i => oi_voided i = bool_decide (o_status o = Cancelled)) (o_items o);
  wo_keys : NoDup (oi_kmKey <$> o_items o);
  wo_boxes : NoDup (xb_boxId <$> o_boxes o);
  wo_whole : Forall (fun b => 0 < xb_bottleCount b /\ Z.of_nat (length (List.filter (fun i =>
      bool_decide (oi_boxId i = Some (xb_boxId b))) (o_items o))) = xb_bottleCount b) (o_boxes o);
  wo_conflicts : exists c b, default [] (o_syncConflicts o) = joinStoredConflicts c b
    /\ forallb good_conflict c = true /\ forallb good_box_conflict b = true
}.

(** The policy of an employee with at most [D] a day, and what they have taken. *)
Definition capped (employeeId : jsstr) (D : Z) (s : Pickup) : Prop :=
  (forall p, resolveLivePickupPolicy employeeId s = Some p -> limited p = true /\ dayLimit p <= D)
  /\ forall when, countTakenToday employeeId when s <= D.

Section Invariant.
(** Which sequence numbers a device uses for requests with boxes, and how many
    codes a day an employee has at most, for those whose policy never allows
    more. *)
Context (modern : PickupDocumentSource -> Z -> bool) (cap : jsstr -> option Z).

Record inv (s : Pickup) : Prop := {
  i_ids : NoDup (o_id <$> orders s);
  i_counter : 0 <= counter s;
  i_numbers : Forall (fun o => exists n, 1 <= n <= counter s /\ o_orderNo o = formatOrderNo n (o_createdAt o))
                (orders s);
  i_distinct : NoDup (o_orderNo <$> orders s);
  i_slots : NoDup (omap order_slot (orders s));
  i_open : NoDup (open_keys s);
  i_orders : Forall wf_order (orders s);
  i_rejections : NoDup (rejection_slot <$> rejections s);
  i_modern : forall r, r ∈ rejections s -> modern (rj_source r) (rj_deviceSeq r) = true ->
    match rj_orderId r with
    | None => marked r /\ forall o, o ∈ orders s -> order_slot o <> Some (rejection_slot r)
    | Some _ => exists o, o ∈ orders s /\ order_slot o = Some (rejection_slot r)
    end;
  i_cap : forall e D, cap e = Some D -> capped e D s
}.

(** ** What a transaction does to the tables, given its locks *)

Definition item_kept (i i' : PickupOrderItemRow) : Prop := i' = i \/ i' = void_item i.

(** A later state of an order: a document does not change, its codes can only be
    voided, a status that is not pending is final. *)
Record same_document (o o' : PickupOrderRow) : Prop := {
  sd_id : o_id o' = o_id o;
  sd_number : o_orderNo o' = o_orderNo o;
  sd_source : o_source o' = o_source o;
  sd_employee : o_employeeId o' = o_employeeId o;
  sd_reason : o_reason o' = o_reason o;
  sd_count : o_itemCount o' = o_itemCount o;
  sd_seq : o_deviceSeq o' = o_deviceSeq o;
  sd_conflicts : o_syncConflicts o' = o_syncConflicts o;
  sd_created : o_createdAt o' = o_createdAt o;
  sd_boxes : o_boxes o' = o_boxes o;
  sd_items : Forall2 item_kept (o_items o) (o_items o');
  sd_status : o_status o <> Pending -> o_status o' = o_status o
}.

#[export] Instance item_kept_preorder : PreOrder item_kept.
Proof.
  split; [by left|]. intros i j k [->| ->] [->| ->]; [by left | by right | by right | by right].
Qed.

#[export] Instance same_document_preorder : PreOrder same_document.
Proof.
  split; [intros o; by split|]. intros o p q [] []. split; try congruence; [by etrans|].
  intros Hs. rewrite <- sd_status0 by done. apply sd_status1. by rewrite sd_status0.
Qed.

(** What a transaction that holds the locks [L] does. *)
Record step_ok (L : list lock) (s s' : Pickup) : Prop := {
  st_inv : inv s -> inv s';
  st_orders : exists kept added, orders s' = kept ++ added /\ Forall2 same_document (orders s) kept
    /\ Forall (fun o => BoxRegistryRoot ∈ L /\ DeviceRow (o_source o) ∈ L) added;
  st_rejections : exists new, rejections s' = rejections s ++ new
    /\ Forall (fun r => marked r -> DeviceRow (rj_source r) ∈ L) new;
  st_counter : BoxRegistryRoot ∈ L \/ counter s' = counter s
}.

(** A transaction of somebody else, who cannot hold what this run holds. *)
Definition other (L : list lock) (s s' : Pickup) : Prop :=
  exists L', (forall l, l ∈ L -> l ∉ L') /\ step_ok L' s s'.

(** What becomes of the tables while this run holds [L]. *)
Record evolves (L : list lock) (s s' : Pickup) : Prop := {
  ev_inv : inv s -> inv s';
  ev_orders : exists kept added, orders s' = kept ++ added /\ Forall2 same_document (orders s) kept
    /\ (BoxRegistryRoot ∈ L -> added = []) /\ Forall (fun o => DeviceRow (o_source o) ∉ L) added;
  ev_rejections : exists new, rejections s' = rejections s ++ new
    /\ Forall (fun r => marked r -> DeviceRow (rj_source r) ∉ L) new;
  ev_counter : BoxRegistryRoot ∈ L -> counter s' = counter s
}.

Lemma other_evolves L s s' : other L s s' -> evolves L s s'.
Proof.
  intros (L' & Hd & [Hi (kept & added & Ho & Hk & Ha) (new & Hr & Hn) Hc]). split; [done|..].
  - exists kept, added. split_and!; [done..| |].
    + intros Hl. destruct added as [|o added]; [done|]. apply Forall_cons in Ha as [[Hb _] _].
      by apply Hd in Hl.
    + eapply Forall_impl; [exact Ha|]. intros o [_ Hs] Hin. by apply (Hd _ Hin).
  - exists new. split; [done|]. eapply Forall_impl; [exact Hn|]. intros r Hm Hmr Hin.
    by apply (Hd _ Hin), Hm.
  - intros Hl. destruct Hc as [Hc|Hc]; [|done]. by apply Hd in Hl.
Qed.

Lemma evolves_same L s : evolves L s s.
Proof.
  split; [done | | | done].
  - exists (orders s), []. rewrite app_nil_r. split_and!; [done | reflexivity | done..].
  - exists []. by rewrite app_nil_r.
Qed.

Lemma evolves_more L s1 s2 s3 : evolves L s1 s2 -> evolves L s2 s3 -> evolves L s1 s3.
Proof.
  intros [Hi (k & a & Ho & Hk & Ha & Hd) (n & Hr & Hn) Hc] [Hi' (k' & a' & Ho' & Hk' & Ha' & Hd') (n' & Hr' & Hn') Hc'].
  split; [auto|..].
  - rewrite Ho in Hk'. apply Forall2_app_inv_l in Hk' as (k1 & k2 & Hk1 & Hk2 & ->).
    exists k1, (k2 ++ a'). rewrite Ho', <- app_assoc. split_and!; [done| | |].
    + by etrans.
    + intros Hl. specialize (Ha Hl). specialize (Ha' Hl). subst. by apply Forall2_nil_inv_l in Hk2 as ->.
    + apply Forall_app. split; [|done]. clear -Hk2 Hd. induction Hk2 as [|o o' l l' Ho _ IH]; [constructor|].
      apply Forall_cons in Hd as [? ?]. constructor; [by rewrite (sd_source _ _ Ho) | auto].
  - exists (n ++ n'). rewrite Hr', Hr, app_assoc. split; [done|]. by apply Forall_app.
  - intros Hl. rewrite Hc', Hc; auto.
Qed.

Lemma others_evolve L s s' : rtc (other L) s s' -> evolves L s s'.
Proof.
  induction 1 as [|s1 s2 s3 H _ IH]; [apply evolves_same|].
  eapply evolves_more; [by apply other_evolves | done].
Qed.

(** ** What stays *)

Lemma same_owned src q o o' : same_document o o' -> owned_by src q o' = owned_by src q o.
Proof. intros H. unfold owned_by. by rewrite (sd_source _ _ H), (sd_seq _ _ H). Qed.

Lemma same_outcome o o' : same_document o o' -> outcome_of_order o' = outcome_of_order o.
Proof.
  intros H. unfold outcome_of_order.
  by rewrite (sd_conflicts _ _ H), (sd_number _ _ H), (sd_count _ _ H), (sd_boxes _ _ H).
Qed.

Lemma find_app_some {A} (f : A -> bool) l k a : List.find f l = Some a -> List.find f (l ++ k) = Some a.
Proof. intros H. induction l as [|b l IH]; [done|]. cbn in *. destruct (f b); auto. Qed.

Lemma find_app_none {A} (f : A -> bool) l k : List.find f l = None -> List.find f (l ++ k) = List.find f k.
Proof. intros H. induction l as [|b l IH]; [done|]. cbn in *. destruct (f b); [done | auto]. Qed.

Lemma find_same src q l l' :
  Forall2 same_document l l' ->
  match List.find (owned_by src q) l with
  | Some o => exists o', List.find (owned_by src q) l' = Some o' /\ same_document o o'
  | None => List.find (owned_by src q) l' = None
  end.
Proof.
  induction 1 as [|o o' l l' Ho _ IH]; [done|]. cbn. rewrite (same_owned _ _ _ _ Ho).
  destruct (owned_by src q o); [by exists o' | done].
Qed.

Lemma order_stays L src q s s' out :
  evolves L s s' -> findOrderOutcome src q s = Some out -> findOrderOutcome src q s' = Some out.
Proof.
  intros [_ (kept & added & Ho & Hk & _) _ _]. unfold findOrderOutcome. rewrite Ho.
  pose proof (find_same src q _ _ Hk) as H. destruct (List.find _ (orders s)) as [o|]; [|done].
  destruct H as (o' & Hf & Hs). rewrite (find_app_some _ _ _ _ Hf). intros [= <-].
  change (Some (outcome_of_order o') = Some (outcome_of_order o)). f_equal. by apply same_outcome.
Qed.

Lemma no_order_stays L src q s s' :
  evolves L s s' -> BoxRegistryRoot ∈ L -> findOrderOutcome src q s = None ->
  findOrderOutcome src q s' = None.
Proof.
  intros [_ (kept & added & Ho & Hk & Ha & _) _ _] Hl. unfold findOrderOutcome.
  rewrite Ho, (Ha Hl), app_nil_r. pose proof (find_same src q _ _ Hk) as H.
  destruct (List.find _ (orders s)) as [o|]; [done|]. by rewrite H.
Qed.

(** Orders of a device are filed under the lock of its row. *)
Lemma no_order_stays_row L src q s s' :
  evolves L s s' -> DeviceRow src ∈ L -> findOrderOutcome src q s = None ->
  findOrderOutcome src q s' = None.
Proof.
  intros [_ (kept & added & Ho & Hk & _ & Hd) _ _] Hl. unfold findOrderOutcome. rewrite Ho.
  pose proof (find_same src q _ _ Hk) as H. destruct (List.find _ (orders s)) as [o|]; [done|].
  rewrite (find_app_none _ _ _ H). intros _.
  destruct (List.find _ added) as [o|] eqn:E; [|done]. apply List.find_some in E as [Hin Hof].
  apply bool_decide_eq_true in Hof as [Hs _]. apply list_elem_of_In in Hin.
  by destruct (proj1 (Forall_forall _ _) Hd o Hin); rewrite Hs.
Qed.

Lemma rejection_stays L src q s s' out :
  evolves L s s' -> findRejectionOutcome src q s = Some out -> findRejectionOutcome src q s' = Some out.
Proof.
  intros [_ _ (new & Hr & _) _]. unfold findRejectionOutcome. rewrite Hr.
  destruct (List.find _ (rejections s)) as [r|] eqn:E; [|done]. by rewrite (find_app_some _ _ _ _ E).
Qed.

Lemma no_rejection_stays L src q s s' :
  evolves L s s' -> DeviceRow src ∈ L -> findRejectionOutcome src q s = None ->
  findRejectionOutcome src q s' = None.
Proof.
  intros [_ _ (new & Hr & Hn) _] Hl. unfold findRejectionOutcome. rewrite Hr.
  destruct (List.find _ (rejections s)) as [r|] eqn:E; [by rewrite (find_app_some _ _ _ _ E)|].
  rewrite (find_app_none _ _ _ E). intros _.
  destruct (List.find _ new) as [r|] eqn:E'; [|done]. apply List.find_some in E' as [Hin Hm].
  apply bool_decide_eq_true in Hm as [Hsrc _]. cbn.
  destruct (outcome_of_codes (rj_codes r)) as [out|] eqn:Eo; [|done]. exfalso.
  apply list_elem_of_In in Hin. apply (proj1 (Forall_forall _ _) Hn r Hin); [|by rewrite Hsrc].
  unfold marked. by rewrite Eo.
Qed.

Lemma open_items_same o o' :
  same_document o o' -> sublist (oi_kmKey <$> open_items o') (oi_kmKey <$> open_items o).
Proof.
  intros [? ? ? ? ? ? ? ? ? ? Hi _]. unfold open_items.
  induction Hi as [|i i' l l' [->| ->] _ IH]; cbn; [constructor| |].
  - destruct (negb (oi_voided i)); cbn; [by constructor | done].
  - destruct (negb (oi_voided i)); cbn; [by constructor | done].
Qed.

Lemma open_keys_same s s' :
  Forall2 same_document (orders s) (orders s') -> sublist (open_keys s') (open_keys s).
Proof.
  unfold open_keys. generalize (orders s), (orders s'). intros l l'.
  induction 1 as [|o o' l l' Ho _ IH]; cbn; [constructor|].
  apply sublist_app; [by apply open_items_same | done].
Qed.

Lemma open_items_fewer o o' :
  same_document o o' -> (length (open_items o') <= length (open_items o))%nat.
Proof.
  intros H. pose proof (sublist_length _ _ (open_items_same _ _ H)) as Hl. by rewrite !length_fmap in Hl.
Qed.

(** An order counts against an allowance only if it did. *)
Lemma counts_today_same e d o o' :
  wf_order o -> same_document o o' -> counts_today e d o' = true ->
  counts_today e d o = true \/ open_items o = [].
Proof.
  intros wf H. unfold counts_today.
  rewrite (sd_employee _ _ H), (sd_reason _ _ H), (sd_created _ _ H).
  intros Hc. repeat (apply andb_true_iff in Hc as [Hc ?]).
  destruct (decide (o_status o = Cancelled)) as [Hs|Hs].
  - right. unfold open_items. pose proof (wo_voided _ wf) as Hv. rewrite Hs in Hv.
    induction Hv as [|i l Hi _ IH]; [done|]. cbn. rewrite Hi. done.
  - left. rewrite (bool_decide_eq_false_2 _ Hs). repeat (apply andb_true_iff; split); done.
Qed.

Lemma filter_bind_cons {A B} (f : A -> bool) (g : A -> list B) a l :
  length (List.filter f (a :: l) ≫= g) = ((if f a then length (g a) else 0) + length (List.filter f l ≫= g))%nat.
Proof. cbn. destruct (f a); cbn; [by rewrite length_app | done]. Qed.

Lemma count_same e when s s' :
  inv s -> Forall2 same_document (orders s) (orders s') ->
  countTakenToday e when s' <= countTakenToday e when s.
Proof.
  intros Hi Hf. pose proof (i_orders _ Hi) as Hw. unfold countTakenToday. apply Nat2Z.inj_le.
  revert Hf Hw. generalize (orders s), (orders s'). intros l l'.
  induction 1 as [|o o' l l' Ho _ IH]; intros Hw; [done|].
  apply Forall_cons in Hw as [Hwo Hw]. rewrite !filter_bind_cons. specialize (IH Hw).
  pose proof (open_items_fewer _ _ Ho).
  destruct (counts_today e (utc_day when) o') eqn:E; [|lia].
  destruct (counts_today_same _ _ _ _ Hwo Ho E) as [->|Hn]; [lia|].
  rewrite Hn in *. cbn in *. lia.
Qed.

(** ** A new order *)

(** What an attempt may insert. *)
Record insertable (loose : list ResolvedItem) (taken : list ResolvedOrderBox) : Prop := {
  in_distinct : NoDup (item_keys loose ++ box_keys taken);
  in_boxes : Forall wf_box taken;
  in_coherent : coherent taken
}.

Lemma item_rows_keys when loose taken :
  oi_kmKey <$> item_rows when loose taken = item_keys loose ++ box_keys taken.
Proof.
  unfold item_rows. rewrite fmap_app. f_equal; [by rewrite <- list_fmap_compose|].
  induction taken as [|box rest IH]; [done|]. rewrite box_keys_cons. cbn [mbind list_bind].
  rewrite fmap_app, IH.
  f_equal. unfold member_keys_of. by rewrite <- list_fmap_compose.
Qed.

Lemma item_rows_length when loose taken :
  Forall wf_box taken ->
  Z.of_nat (length (item_rows when loose taken)) = Z.of_nat (length loose) + bottles taken.
Proof.
  intros Hw. rewrite (bottles_members _ Hw).
  rewrite <- (length_fmap oi_kmKey), item_rows_keys, length_app. unfold item_keys. rewrite length_fmap. lia.
Qed.

Lemma filter_none {A} (f : A -> bool) l : Forall (fun a => f a = false) l -> List.filter f l = [].
Proof. induction 1 as [|a l Ha _ IH]; [done|]. cbn. by rewrite Ha. Qed.

Lemma filter_every {A} (f : A -> bool) l : Forall (fun a => f a = true) l -> List.filter f l = l.
Proof. induction 1 as [|a l Ha _ IH]; [done|]. cbn. by rewrite Ha, IH. Qed.

(** The rows of one box among those of all. *)
Lemma box_rows_found when taken box :
  NoDup (ob_boxId <$> taken) -> box ∈ taken ->
  length (List.filter (fun i => bool_decide (oi_boxId i = Some (ob_boxId box)))
    (b ← taken; member_row when b <$> ob_members b)) = length (ob_members box).
Proof.
  intros Hn Hin. induction taken as [|b rest IH]; [by apply elem_of_nil in Hin|].
  apply NoDup_cons in Hn as [Hb Hn]. cbn. rewrite List.filter_app, length_app.
  apply elem_of_cons in Hin as [->|Hin].
  - rewrite filter_every, filter_none, length_fmap; [cbn; lia| |].
    + apply Forall_forall. intros i Hi. apply bool_decide_eq_false_2. intros He. apply Hb.
      apply list_elem_of_bind in Hi as (b' & Hi & Hb'). apply list_elem_of_fmap in Hi as (m & -> & _).
      injection He as <-. by apply list_elem_of_fmap_2.
    + apply Forall_forall. intros i (m & -> & _)%list_elem_of_fmap. by apply bool_decide_eq_true_2.
  - rewrite filter_none; [by apply IH|].
    apply Forall_forall. intros i (m & -> & _)%list_elem_of_fmap. apply bool_decide_eq_false_2.
    intros [= He]. apply Hb. rewrite He. by apply list_elem_of_fmap_2.
Qed.

Section NewOrder.
Context (oid number : jsstr) (src : PickupDocumentSource) (employeeId : jsstr) (reason : Reason)
  (writeoffReasonId : option jsstr) (seq when : Z).
Context (plan : Plan).
Context (Hin : insertable (pn_loose plan) (pn_boxes plan)).
Context (Hgood : forallb good_conflict (pn_conflicts plan) = true).
Context (Hgoodb : forallb good_box_conflict (pn_boxConflicts plan) = true).

Definition filed_order : PickupOrderRow :=
  new_order oid number src employeeId reason writeoffReasonId seq when (pn_loose plan) (pn_boxes plan)
    (stored_of plan).

Lemma filed_order_conflicts : default [] (o_syncConflicts filed_order) = stored_of plan.
Proof. cbn. by destruct (stored_of plan). Qed.

Lemma filed_order_open : open_items filed_order = o_items filed_order.
Proof.
  apply filter_every. cbn. unfold item_rows. apply Forall_app. split; apply Forall_forall.
  - by intros i (x & -> & _)%list_elem_of_fmap.
  - intros i Hi. apply list_elem_of_bind in Hi as (b & Hi & _).
    by apply list_elem_of_fmap in Hi as (x & -> & _).
Qed.

Lemma filed_order_wf : wf_order filed_order.
Proof.
  destruct Hin as [Hd Hw Hc].
  pose proof (proj1 (proj2 (proj1 (NoDup_app _ _) Hd))) as _.
  pose proof (proj2 (proj2 (proj1 (NoDup_app _ _) Hd))) as Hbk.
  destruct (distinct_box_ids _ Hw Hbk Hc) as [Hids _].
  split.
  - symmetry. by apply item_rows_length.
  - rewrite <- filed_order_open. apply Forall_forall. intros i Hi. unfold open_items in Hi.
    apply list_elem_of_In, filter_In in Hi as [_ Hv]. by apply negb_true_iff in Hv as ->.
  - cbn [o_items filed_order new_order]. by rewrite item_rows_keys.
  - cbn [o_boxes filed_order new_order]. by rewrite <- list_fmap_compose.
  - cbn [o_boxes o_items filed_order new_order].
    apply Forall_forall. intros b (box & -> & Hbox)%list_elem_of_fmap. cbn [box_row xb_bottleCount xb_boxId].
    pose proof (proj1 (Forall_forall _ _) Hw _ Hbox) as (_ & Hne & -> & _). split.
    { destruct (ob_members box); [done | cbn; lia]. }
    unfold item_rows. rewrite List.filter_app, length_app, box_rows_found by done.
    rewrite filter_none; [cbn; lia|]. apply Forall_forall. by intros i (x & -> & _)%list_elem_of_fmap.
  - exists (pn_conflicts plan), (pn_boxConflicts plan). by rewrite filed_order_conflicts.
Qed.

(** What is answered when the order is found again. *)
Lemma filed_order_outcome :
  outcome_of_order filed_order =
    {| orderNo := number; itemCount := Z.of_nat (length (pn_loose plan)) + bottles (pn_boxes plan);
       conflicts := pn_conflicts plan; outcomeBoxConflicts := pn_boxConflicts plan;
       acceptedBoxes := by_sscc ((fun box => {| ab_sscc := ob_sscc box;
         ab_bottleCount := ob_bottleCount box |}) <$> pn_boxes plan);
       rejected := false; terminalReason := None; writeoffForbidden := false |}.
Proof.
  unfold outcome_of_order. rewrite filed_order_conflicts. unfold stored_of.
  rewrite split_join by done. cbn [o_orderNo o_itemCount o_boxes filed_order new_order].
  by rewrite <- list_fmap_compose.
Qed.
End NewOrder.

(** ** Filing keeps the invariant *)

Lemma existsb_false {A} (f : A -> bool) l : existsb f l = false <-> forall a, a ∈ l -> f a = false.
Proof.
  rewrite <- not_true_iff_false, existsb_exists. split.
  - intros H a Ha. destruct (f a) eqn:E; [|done]. exfalso. apply H. exists a. by rewrite <- list_elem_of_In.
  - intros H (a & Ha%list_elem_of_In & E). by rewrite (H a Ha) in E.
Qed.

Lemma find_none_iff {A} (f : A -> bool) l : List.find f l = None <-> forall a, a ∈ l -> f a = false.
Proof.
  split.
  - intros H a Ha%list_elem_of_In. by apply (List.find_none _ _ H).
  - intros H. destruct (List.find f l) as [a|] eqn:E; [|done].
    apply List.find_some in E as [Ha Hf]. by rewrite (H a) in Hf by by apply list_elem_of_In.
Qed.

Lemma NoDup_snoc {A} (l : list A) a : NoDup l -> a ∉ l -> NoDup (l ++ [a]).
Proof.
  intros Hn Ha. apply NoDup_app. split_and!; [done| |apply NoDup_singleton].
  intros x Hx ->%list_elem_of_singleton. done.
Qed.

Lemma no_order_slot src q s :
  findOrderOutcome src q s = None <-> forall o, o ∈ orders s -> order_slot o <> Some (src, q).
Proof.
  unfold findOrderOutcome. split.
  - intros H. destruct (List.find _ _) eqn:E; [done|]. intros o Ho Hs.
    apply (proj1 (find_none_iff _ _)) with (a := o) in E; [|done].
    apply bool_decide_eq_false in E. unfold order_slot in Hs. destruct (o_deviceSeq o) as [q'|] eqn:Eq; [|done].
    injection Hs as <- ->. by apply E.
  - intros H. replace (List.find _ (orders s)) with (@None PickupOrderRow); [done|]. symmetry.
    apply find_none_iff. intros o Ho. apply bool_decide_eq_false. intros [Hs Hq].
    apply (H o Ho). unfold order_slot. by rewrite Hq, <- Hs.
Qed.

Lemma open_keys_snoc l o s :
  open_keys (with_orders (fun _ => l ++ [o]) s) = open_keys (with_orders (fun _ => l) s) ++ (oi_kmKey <$> open_items o).
Proof. unfold open_keys. cbn. by rewrite bind_app, bind_singleton. Qed.

Lemma count_snoc e t s o s' :
  orders s' = orders s ++ [o] ->
  countTakenToday e t s' = countTakenToday e t s
    + (if counts_today e (utc_day t) o then Z.of_nat (length (open_items o)) else 0).
Proof.
  intros He. unfold countTakenToday. rewrite He, List.filter_app, bind_app, length_app. cbn [List.filter].
  destruct (counts_today e (utc_day t) o); [rewrite bind_singleton | cbn]; lia.
Qed.

Lemma count_day e t u s : utc_day t = utc_day u -> countTakenToday e t s = countTakenToday e u s.
Proof. unfold countTakenToday. by intros ->. Qed.

(** What [recordScanRejection] and [consumeKioskAdmission] leave alone. *)
Lemma record_rejections row s :
  rejections (recordScanRejection row s) =
    rejections s ++ (if existsb (rejection_of (rj_source row) (rj_deviceSeq row)) (rejections s) then [] else [row]).
Proof. unfold recordScanRejection. destruct (existsb _ _); cbn; by rewrite ?app_nil_r. Qed.

Lemma record_same {A} (get : Pickup -> A) row s :
  (forall f s, get (with_rejections f s) = get s) -> get (recordScanRejection row s) = get s.
Proof. intros H. unfold recordScanRejection. by destruct (existsb _ _). Qed.

Lemma consume_same {A} (get : Pickup -> A) src q s :
  (forall f s, get (with_admissions f s) = get s) -> get (consumeKioskAdmission src q s) = get s.
Proof. intros H. unfold consumeKioskAdmission. by destruct src. Qed.

(** The tables the invariant is about are those of [s]. *)
Record same_facts (s s' : Pickup) : Prop := {
  sf_orders : orders s' = orders s; sf_counter : counter s' = counter s;
  sf_policies : employeePolicies s' = employeePolicies s; sf_limits : limitsEnabled s' = limitsEnabled s
}.

Lemma same_facts_record row s : same_facts s (recordScanRejection row s).
Proof. split; by apply record_same. Qed.

Lemma same_facts_consume src q s : same_facts s (consumeKioskAdmission src q s).
Proof. split; by apply consume_same. Qed.

Lemma consume_rejections src q s : rejections (consumeKioskAdmission src q s) = rejections s.
Proof. by apply consume_same. Qed.

Lemma same_facts_trans s1 s2 s3 : same_facts s1 s2 -> same_facts s2 s3 -> same_facts s1 s3.
Proof. intros [] []. split; congruence. Qed.

Lemma policy_same e s s' :
  employeePolicies s' = employeePolicies s -> limitsEnabled s' = limitsEnabled s ->
  resolveLivePickupPolicy e s' = resolveLivePickupPolicy e s.
Proof. unfold resolveLivePickupPolicy. by intros -> ->. Qed.

Lemma capped_same e D s s' : same_facts s s' -> capped e D s -> capped e D s'.
Proof.
  intros [Ho _ Hp Hl] [Hc Hn]. split.
  - intros p. rewrite (policy_same _ _ _ Hp Hl). apply Hc.
  - intros t. unfold countTakenToday. rewrite Ho. apply Hn.
Qed.

Lemma rejection_rows_distinct row s :
  NoDup (rejection_slot <$> rejections s) -> NoDup (rejection_slot <$> rejections (recordScanRejection row s)).
Proof.
  intros Hn. rewrite record_rejections. destruct (existsb _ _) eqn:E; [by rewrite app_nil_r|].
  rewrite fmap_app. apply NoDup_snoc; [done|]. intros (r & Hr & Hin)%list_elem_of_fmap.
  apply (proj1 (existsb_false _ _)) with (a := r) in E; [|done]. apply bool_decide_eq_false in E.
  apply E. injection Hr as -> ->. done.
Qed.

Definition modern_rows (s : Pickup) : Prop :=
  forall r, r ∈ rejections s -> modern (rj_source r) (rj_deviceSeq r) = true ->
  match rj_orderId r with
  | None => marked r /\ forall o, o ∈ orders s -> order_slot o <> Some (rejection_slot r)
  | Some _ => exists o, o ∈ orders s /\ order_slot o = Some (rejection_slot r)
  end.

Lemma inv_facts s s' :
  same_facts s s' -> NoDup (rejection_slot <$> rejections s') -> modern_rows s' -> inv s -> inv s'.
Proof.
  intros Hf Hn Hm [Hi Hc Hnum Hd Hs Ho Hw _ _ Hcap]. pose proof Hf as [Eo Ec _ _].
  split; try (rewrite Eo); try (rewrite Ec); try done.
  - unfold open_keys. by rewrite Eo.
  - rewrite <- Eo. exact Hm.
  - intros e D HD. eapply capped_same; [exact Hf | by apply Hcap].
Qed.

Lemma orders_same s s' :
  orders s' = orders s ->
  exists kept added, orders s' = kept ++ added /\ Forall2 same_document (orders s) kept
    /\ Forall (fun o => False) added.
Proof. intros ->. exists (orders s), []. rewrite app_nil_r. split_and!; [done | reflexivity | done]. Qed.

Lemma quiet_step L s s' : same_facts s s' -> rejections s' = rejections s -> step_ok L s s'.
Proof.
  intros Hf Hr. pose proof Hf as [Eo Ec _ _]. split.
  - intros Hi. apply (inv_facts s); [done | rewrite Hr; apply Hi | | done].
    intros r. rewrite Hr, Eo. apply Hi.
  - destruct (orders_same _ _ Eo) as (k & a & ? & ? & Ha). exists k, a. split_and!; [done..|].
    eapply Forall_impl; [exact Ha | done].
  - exists []. by rewrite app_nil_r.
  - by right.
Qed.

(** A request refused as a whole. *)
Lemma refusal_step L row s s' :
  same_facts s s' -> rejections s' = rejections (recordScanRejection row s) ->
  rj_orderId row = None ->
  (modern (rj_source row) (rj_deviceSeq row) = true ->
   marked row /\ findOrderOutcome (rj_source row) (rj_deviceSeq row) s = None) ->
  (marked row -> DeviceRow (rj_source row) ∈ L) -> step_ok L s s'.
Proof.
  intros Hf Hr Hid Hm HL. pose proof Hf as [Eo Ec _ _]. split.
  - intros Hi. apply (inv_facts s); [done | | | done].
    + rewrite Hr. apply rejection_rows_distinct, Hi.
    + intros r. rewrite Hr, record_rejections, Eo. intros [Hin|Hin]%elem_of_app; [by apply Hi|].
      destruct (existsb _ _); [by apply elem_of_nil in Hin|]. apply list_elem_of_singleton in Hin as ->.
      rewrite Hid. intros [Hmk Hno]%Hm. split; [done|]. by apply no_order_slot.
  - destruct (orders_same _ _ Eo) as (k & a & ? & ? & Ha). exists k, a. split_and!; [done..|].
    eapply Forall_impl; [exact Ha | done].
  - eexists. split; [rewrite Hr; apply record_rejections|]. destruct (existsb _ _); [constructor|].
    by repeat constructor.
  - by right.
Qed.

Lemma next_number_fresh s when :
  inv s -> existsb (fun o => jseqb (o_orderNo o) (formatOrderNo (counter s + 1) when)) (orders s) = false.
Proof.
  intros Hi. apply existsb_false. intros o Ho. apply jseqb_neq. intros He.
  destruct (proj1 (Forall_forall _ _) (i_numbers _ Hi) _ Ho) as (n & Hn & Hno).
  rewrite Hno in He. apply formatOrderNo_inj in He; lia.
Qed.

Section Filing.
Context (L : list lock) (src : PickupDocumentSource) (emp : jsstr) (reason : Reason)
  (writeoffReasonId : option jsstr) (seq when : Z) (plan : Plan).
Context (Hroot : BoxRegistryRoot ∈ L) (Hrow : DeviceRow src ∈ L).
Context (Hin : insertable (pn_loose plan) (pn_boxes plan)).
Context (Hgood : forallb good_conflict (pn_conflicts plan) = true).
Context (Hgoodb : forallb good_box_conflict (pn_boxConflicts plan) = true).

Abbreviation the_order oid number :=
  (filed_order oid number src emp reason writeoffReasonId seq when plan).
Definition plan_total : Z := Z.of_nat (length (pn_loose plan)) + bottles (pn_boxes plan).

(** What the tables must be like for the writes to go through. *)
Record may_file (s : Pickup) : Prop := {
  mf_keys : forall key, key ∈ item_keys (pn_loose plan) ++ box_keys (pn_boxes plan) -> key ∉ open_keys s;
  mf_slot : findOrderOutcome src seq s = None;
  mf_modern : modern src seq = true -> forall r, r ∈ rejections s -> rejection_slot r <> (src, seq);
  mf_cap : reason <> Writeoff -> forall D, cap emp = Some D -> countTakenToday emp when s + plan_total <= D
}.

Lemma the_order_total oid number : Z.of_nat (length (open_items (the_order oid number))) = plan_total.
Proof. rewrite filed_order_open. cbn. apply item_rows_length, Hin. Qed.

Lemma the_order_keys oid number :
  oi_kmKey <$> open_items (the_order oid number) = item_keys (pn_loose plan) ++ box_keys (pn_boxes plan).
Proof. rewrite filed_order_open. apply item_rows_keys. Qed.

(** The tables after the writes. *)
Record filed_in (oid : jsstr) (s s' : Pickup) : Prop := {
  fi_orders : orders s' = orders s ++ [the_order oid (formatOrderNo (counter s + 1) when)];
  fi_counter : counter s' = counter s + 1;
  fi_policies : employeePolicies s' = employeePolicies s;
  fi_limits : limitsEnabled s' = limitsEnabled s;
  fi_rejections : NoDup (rejection_slot <$> rejections s) -> NoDup (rejection_slot <$> rejections s');
  fi_new : exists new, rejections s' = rejections s ++ new
    /\ Forall (fun r => rejection_slot r = (src, seq) /\ rj_orderId r = Some oid) new
}.

Lemma filed_in_step oid s s' :
  may_file s -> existsb (fun o => jseqb (o_id o) oid) (orders s) = false ->
  filed_in oid s s' -> step_ok L s s'.
Proof.
  intros [Hk Hslot Hmod Hcap] Hid [Eo Ec Ep El Hrn (new & Er & Hnew)].
  set (o := the_order oid _) in *.
  assert (Hos : order_slot o = Some (src, seq)) by done.
  split.
  - intros Hi. split; rewrite ?Eo, ?Ec.
    + rewrite fmap_app. apply NoDup_snoc; [apply Hi|]. intros (o' & He & Ho')%list_elem_of_fmap.
      apply (proj1 (existsb_false _ _)) with (a := o') in Hid; [|done]. apply jseqb_neq in Hid.
      by apply Hid.
    + pose proof (i_counter _ Hi). lia.
    + apply Forall_app. split.
      * eapply Forall_impl; [apply Hi|]. intros o' (n & Hn & Hno). exists n. split; [lia | done].
      * repeat constructor. exists (counter s + 1). pose proof (i_counter _ Hi). split; [lia | done].
    + rewrite fmap_app. apply NoDup_snoc; [apply Hi|]. intros (o' & He & Ho')%list_elem_of_fmap.
      pose proof (next_number_fresh s when Hi) as Hf.
      apply (proj1 (existsb_false _ _)) with (a := o') in Hf; [|done]. apply jseqb_neq in Hf. by apply Hf.
    + rewrite omap_app. cbn [omap list_omap]. rewrite Hos. apply NoDup_snoc; [apply Hi|].
      intros (o' & Ho' & He)%list_elem_of_omap. by apply (proj1 (no_order_slot src seq s) Hslot o').
    + unfold open_keys. rewrite Eo, bind_app, bind_singleton. subst o. rewrite the_order_keys.
      apply NoDup_app. split_and!; [apply Hi| |apply Hin]. intros key Hkey Hkey'. by apply (Hk key).
    + apply Forall_app. split; [apply Hi|]. repeat constructor; by apply filed_order_wf.
    + apply Hrn, Hi.
    + intros r Hr Hm. rewrite Er in Hr. apply elem_of_app in Hr as [Hr|Hr].
      * pose proof (i_modern _ Hi r Hr Hm) as H. destruct (rj_orderId r).
        -- destruct H as (o' & Ho' & Hs'). exists o'. split; [apply elem_of_app; by left | done].
        -- destruct H as [Hmk Hno]. split; [done|].
           intros o' [Ho'|Ho']%elem_of_app; [by apply Hno|]. apply list_elem_of_singleton in Ho' as ->.
           rewrite Hos. intros [= Hsrc Hseq]. rewrite <- Hsrc, <- Hseq in Hm.
           apply (Hmod Hm r Hr). unfold rejection_slot. congruence.
      * apply (proj1 (Forall_forall _ _) Hnew) in Hr as [Hs' Ho']. rewrite Ho'. exists o.
        split; [apply elem_of_app; right; apply list_elem_of_here | by rewrite Hs'].
    + intros e D HD. pose proof (i_cap _ Hi e D HD) as [Hc Hn]. split.
      { intros p. rewrite (policy_same _ _ _ Ep El). apply Hc. }
      intros t. rewrite (count_snoc _ _ _ _ _ Eo).
      destruct (counts_today e (utc_day t) o) eqn:Ect; [|rewrite Z.add_0_r; apply Hn].
      unfold counts_today in Ect. repeat (apply andb_true_iff in Ect as [Ect ?]).
      apply jseqb_eq in Ect. cbn in Ect. subst e. subst o. rewrite the_order_total.
      rewrite (count_day _ t when) by (symmetry; by apply Z.eqb_eq).
      apply Hcap; [|done]. intros ->. done.
  - exists (orders s), [o]. split_and!; [done | reflexivity | by repeat constructor].
  - exists new. split; [done|]. eapply Forall_impl; [exact Hnew|]. intros r [Hs' _] _.
    injection Hs' as -> _. done.
  - by left.
Qed.

Lemma file_order_ok oid s :
  inv s -> may_file s ->
  match file_order src emp reason writeoffReasonId seq when plan oid s with
  | inl (number, s') =>
      number = formatOrderNo (counter s + 1) when /\ filed_in oid s s' /\ step_ok L s s'
  | inr e => e = UniqueViolation PrimaryKey \/ e = OtherDbError
  end.
Proof.
  intros Hi Hmf. unfold file_order, next_seq. destruct (counter s <? MAX_PG_INTEGER); [|by right].
  fold (the_order oid (formatOrderNo (counter s + 1) when)). cbv zeta.
  set (o := the_order oid _). unfold insert_order.
  destruct (existsb (fun o' => jseqb (o_id o') (o_id o)) (orders s)) eqn:Eid; [by left|].
  change (o_orderNo o) with (formatOrderNo (counter s + 1) when).
  rewrite (next_number_fresh s when Hi).
  change (o_deviceSeq o) with (Some seq). change (o_source o) with src. cbv iota beta.
  assert (existsb (owned_by src seq) (orders s) = false) as ->.
  { apply existsb_false. apply find_none_iff. pose proof (mf_slot _ Hmf) as H. unfold findOrderOutcome in H.
    by destruct (List.find _ _). }
  pose proof (filed_order_wf oid (formatOrderNo (counter s + 1) when) src emp reason writeoffReasonId seq when
    plan Hin Hgood Hgoodb) as Hw. fold o in Hw.
  assert (duplicated (xb_boxId <$> o_boxes o) = false) as ->.
  { apply negb_false_iff, all_distinct_spec, Hw. }
  assert (existsb (fun box => xb_bottleCount box <=? 0) (o_boxes o) = false) as ->.
  { apply existsb_false. intros b Hb. apply (proj1 (Forall_forall _ _) (wo_whole _ Hw)) in Hb as [Hb _].
    apply Z.leb_gt. done. }
  assert (duplicated (oi_kmKey <$> o_items o) = false) as ->.
  { apply negb_false_iff, all_distinct_spec, Hw. }
  assert (existsb (is_in (open_keys s)) (oi_kmKey <$> o_items o) = false) as ->.
  { apply existsb_is_in. subst o. rewrite <- filed_order_open, the_order_keys. apply Hmf. }
  assert (Hf : filed_in oid s (consumeKioskAdmission src seq
    match stored_of plan with
    | [] => with_counter (counter s + 1) (with_orders (fun rows => rows ++ [o]) s)
    | stored => recordScanRejection (rejection_row src emp seq when (Some oid) stored)
        (with_counter (counter s + 1) (with_orders (fun rows => rows ++ [o]) s)) end)).
  { set (s1 := with_counter _ _).
    assert (Hs1 : rejections s1 = rejections s) by done.
    destruct (stored_of plan) as [|c cs] eqn:Es.
    - pose proof (same_facts_consume src seq s1) as [E1 E2 E3 E4].
      split; rewrite ?E1, ?E2, ?E3, ?E4, ?consume_rejections; try done.
      exists []. by rewrite app_nil_r.
    - set (row := rejection_row _ _ _ _ _ _).
      pose proof (same_facts_trans _ _ _ (same_facts_record row s1)
        (same_facts_consume src seq (recordScanRejection row s1))) as [E1 E2 E3 E4].
      split; rewrite ?E1, ?E2, ?E3, ?E4, ?consume_rejections; try done.
      + intros Hn. apply rejection_rows_distinct. by rewrite Hs1.
      + eexists. split; [apply (record_rejections row s1)|]. case_match; by repeat constructor. }
  split; [done|]. split; [exact Hf|]. by eapply filed_in_step.
Qed.
End Filing.

(** ** Operations, whatever happens meanwhile *)

(** What happens meanwhile is made of transactions of others, and the database
    never reports an index by mistake. *)
Definition honest (c : choice) : Prop :=
  (forall L s, rtc (other L) s (c_meanwhile c L s))
  /\ forall e, c_fate c = FailsBefore e -> e = OtherDbError.

(** The world an operation sees. *)
Record later (w w1 : World) : Prop := {
  lt_locks : w_locks w1 = w_locks w;
  lt_log : w_log w1 = w_log w;
  lt_db : evolves (w_locks w) (w_db w) (w_db w1)
}.

(** The world after a commit, or after a lock. *)
Definition after_commit (w : World) (db : Pickup) : World :=
  {| w_db := db; w_locks := [];
     w_log := w_log w ++ [{| lg_locks := w_locks w; lg_before := w_db w; lg_after := db |}] |}.

Definition with_locks (L : list lock) (w : World) : World :=
  {| w_db := w_db w; w_locks := L; w_log := w_log w |}.

Section Safely.
(** What each commit of the run is allowed to be, beyond a step. *)
Context (entry : Pickup -> Pickup -> Prop).

Definition entry_ok (e : committed) : Prop :=
  step_ok (lg_locks e) (lg_before e) (lg_after e) /\ entry (lg_before e) (lg_after e).

Definition good (w : World) : Prop := inv (w_db w) /\ Forall entry_ok (w_log w).

Abbreviation safely p Q X w := (wp perform honest p Q X good w).

Definition meanwhile (c : choice) (w : World) : World :=
  {| w_db := c_meanwhile c (w_locks w) (w_db w); w_locks := w_locks w; w_log := w_log w |}.

Lemma meanwhile_later c w : honest c -> good w -> later w (meanwhile c w) /\ good (meanwhile c w).
Proof.
  intros [Hc _] [Hi Hl]. pose proof (others_evolve _ _ _ (Hc (w_locks w) (w_db w))) as He.
  split; [by split|]. split; [by apply (ev_inv _ _ _ He) | done].
Qed.

Lemma good_commit w db :
  good w -> step_ok (w_locks w) (w_db w) db -> entry (w_db w) db -> good (after_commit w db).
Proof.
  intros [Hi Hl] Hs He. split; [by apply (st_inv _ _ _ Hs)|]. apply Forall_app. split; [done|].
  by apply Forall_singleton.
Qed.

Lemma safely_op {R X} (thrown : db_error -> X) (o : sql R) (Q : R -> World -> Prop) (E : X -> World -> Prop) w :
  good w ->
  (forall c w1, later w w1 -> good w1 ->
     E (thrown OtherDbError) w1 /\
     let '(r, w2) := effect o c w1 in
     good w2 /\ match r with inl a => Q a w2 /\ E (thrown OtherDbError) w2 | inr e => E (thrown e) w2
       /\ E (thrown OtherDbError) w2 end) ->
  safely (call_as thrown o) Q E w.
Proof.
  intros Hg Ho. apply wp_call; [done|]. intros c Hc.
  destruct (meanwhile_later c w Hc Hg) as [Hl Hg1]. specialize (Ho c _ Hl Hg1) as [He Ho].
  unfold perform. fold (meanwhile c w). destruct (c_fate c) as [|e| | |] eqn:Ef; try done.
  - destruct (effect o c (meanwhile c w)) as [[a|e] w2]; [apply Ho | apply Ho].
  - by rewrite (proj2 Hc e Ef).
  - destruct (effect o c (meanwhile c w)) as [[a|e] w2]; apply Ho.
  - destruct (effect o c (meanwhile c w)) as [r w2]. apply Ho.
Qed.

Lemma safely_query {R X} (thrown : db_error -> X) (q : Pickup -> R) (Q : R -> World -> Prop)
    (E : X -> World -> Prop) w :
  good w ->
  (forall w1, later w w1 -> good w1 -> Q (q (w_db w1)) w1 /\ E (thrown OtherDbError) w1) ->
  safely (call_as thrown (Query q)) Q E w.
Proof. intros Hg H. apply safely_op; [done|]. intros c w1 Hl Hg1. destruct (H w1 Hl Hg1). by split_and!. Qed.

Lemma safely_lock {X} (thrown : db_error -> X) l (Q : unit -> World -> Prop) (E : X -> World -> Prop) w :
  good w ->
  (forall w1, later w w1 -> good w1 -> Q tt (with_locks (l :: w_locks w1) w1)
     /\ E (thrown OtherDbError) w1 /\ E (thrown OtherDbError) (with_locks (l :: w_locks w1) w1)) ->
  safely (call_as thrown (Lock l)) Q E w.
Proof.
  intros Hg H. apply safely_op; [done|]. intros c w1 Hl Hg1. destruct (H w1 Hl Hg1) as (? & ? & ?).
  by split_and!; try apply Hg1.
Qed.

Lemma safely_commit {R X} (thrown : db_error -> X) (f : jsstr -> Pickup -> R * Pickup + db_error)
    (Q : R -> World -> Prop) (E : X -> World -> Prop) w :
  good w ->
  (forall w1 oid, later w w1 -> good w1 ->
     E (thrown OtherDbError) w1 /\
     match f oid (w_db w1) with
     | inl (r, db) => step_ok (w_locks w1) (w_db w1) db /\ entry (w_db w1) db
         /\ (good (after_commit w1 db) -> Q r (after_commit w1 db) /\ E (thrown OtherDbError) (after_commit w1 db))
     | inr e => E (thrown e) w1
     end) ->
  safely (call_as thrown (Commit f)) Q E w.
Proof.
  intros Hg H. apply safely_op; [done|]. intros c w1 Hl Hg1. destruct (H w1 (c_uuid c) Hl Hg1) as [He Hf].
  split; [done|]. cbn. destruct (f (c_uuid c) (w_db w1)) as [[r db]|e].
  - destruct Hf as (Hs & Hen & HQ). pose proof (good_commit _ _ Hg1 Hs Hen) as Hg2. by split; [|apply HQ].
  - by split_and!.
Qed.

Lemma safely_rollback {X} (thrown : db_error -> X) (Q : unit -> World -> Prop) (E : X -> World -> Prop) w :
  good w ->
  (forall w1, later w w1 -> good w1 -> Q tt (with_locks [] w1)
     /\ E (thrown OtherDbError) w1 /\ E (thrown OtherDbError) (with_locks [] w1)) ->
  safely (call_as thrown Rollback) Q E w.
Proof.
  intros Hg H. apply safely_op; [done|]. intros c w1 Hl Hg1. destruct (H w1 Hl Hg1) as (? & ? & ?).
  by split_and!; try apply Hg1.
Qed.

(** A transaction whose exceptions say nothing about the tables. *)
Lemma safely_transaction {X A} (body : prog sql db_error X A) (Q : A -> World -> Prop) (bad : X -> Prop) w :
  safely body Q (fun e w => good w /\ bad e) w ->
  safely (transaction body) Q (fun e w => good w /\ bad e) w.
Proof.
  intros H. apply wp_try. eapply wp_mono; [exact H | done | | done]. intros e w1 [Hg He].
  apply wp_bind, wp_try. apply safely_rollback; [done|]. intros w2 _ Hg2. by split_and!.
Qed.
End Safely.

(** ** Refusals that are kept *)

Definition not_request (c : StoredOrderConflict) : bool :=
  match c with StoredRequest _ _ => false | _ => true end.

Definition refusal_outcome (codes : list StoredOrderConflict) (t : KioskRejectionTerminalReason)
  : KioskOrderOutcome :=
  {| orderNo := []; itemCount := 0; conflicts := (splitStoredConflicts codes).1;
     outcomeBoxConflicts := (splitStoredConflicts codes).2; acceptedBoxes := []; rejected := true;
     terminalReason := Some t; writeoffForbidden := false |}.

Lemma terminal_reason_text t : terminal_reason (terminal_text t) = Some t.
Proof. by destruct t. Qed.

Lemma outcome_with_marker codes t :
  forallb not_request codes = true ->
  outcome_of_codes (codes ++ [StoredRequest 2 (terminal_text t)]) = Some (refusal_outcome codes t).
Proof.
  intros Hc. unfold outcome_of_codes.
  assert (marker_reason (codes ++ [StoredRequest 2 (terminal_text t)]) = Some t) as ->.
  { unfold marker_reason. rewrite omap_app.
    assert (omap (fun c => match c with
      | StoredRequest version reason => if version =? 2 then terminal_reason reason else None
      | _ => None end) codes = []) as ->.
    { clear t. induction codes as [|c codes IH]; [done|]. apply andb_true_iff in Hc as [Hc1 Hc].
      specialize (IH Hc). destruct c; [exact IH | exact IH | done]. }
    cbn [app omap list_omap Z.eqb Pos.eqb]. by rewrite terminal_reason_text. }
  cbn. unfold refusal_outcome, splitStoredConflicts. rewrite !omap_app. cbn. by rewrite !app_nil_r.
Qed.

Lemma join_not_request c b : forallb not_request (joinStoredConflicts c b) = true.
Proof. unfold joinStoredConflicts. rewrite forallb_app. by rewrite !forallb_map_const. Qed.

(** The requests lines of codes. *)
Definition line_texts (codes : list StoredOrderConflict) : list jsstr :=
  omap (fun c => match c with StoredLine rawKm _ => Some rawKm | _ => None end) codes.
Definition box_line_texts (codes : list StoredOrderConflict) : list jsstr :=
  omap (fun c => match c with StoredBox s _ _ => Some s | _ => None end) codes.

Lemma line_texts_lines reason l : line_texts ((fun rawKm => StoredLine rawKm reason) <$> l) = l.
Proof. induction l as [|t l IH]; [done|]. exact (f_equal (cons t) IH). Qed.
Lemma box_line_texts_boxes n reason l : box_line_texts ((fun s => StoredBox s n reason) <$> l) = l.
Proof. induction l as [|t l IH]; [done|]. exact (f_equal (cons t) IH). Qed.
Lemma line_texts_none {A} (f : A -> StoredOrderConflict) l :
  (forall a, line_texts [f a] = []) -> line_texts (f <$> l) = [].
Proof.
  intros H. induction l as [|a l IH]; [done|]. specialize (H a). cbn in *. by destruct (f a).
Qed.
Lemma box_line_texts_none {A} (f : A -> StoredOrderConflict) l :
  (forall a, box_line_texts [f a] = []) -> box_line_texts (f <$> l) = [].
Proof.
  intros H. induction l as [|a l IH]; [done|]. specialize (H a). cbn in *. by destruct (f a).
Qed.
Lemma line_texts_app l k : line_texts (l ++ k) = line_texts l ++ line_texts k.
Proof. apply omap_app. Qed.
Lemma box_line_texts_app l k : box_line_texts (l ++ k) = box_line_texts l ++ box_line_texts k.
Proof. apply omap_app. Qed.

Lemma line_texts_join c b : line_texts (joinStoredConflicts c b) = conflict_texts c.
Proof.
  unfold joinStoredConflicts. rewrite line_texts_app, (line_texts_none _ b) by done. rewrite app_nil_r.
  induction c as [|[t r] c IH]; [done|]. exact (f_equal (cons t) IH).
Qed.
Lemma box_line_texts_join c b : box_line_texts (joinStoredConflicts c b) = box_conflict_texts b.
Proof.
  unfold joinStoredConflicts. rewrite box_line_texts_app, (box_line_texts_none _ c) by done.
  induction b as [|[t n r] b IH]; [done|]. exact (f_equal (cons t) IH).
Qed.

Lemma line_texts_marker vn t : line_texts (option_list (kioskOrderRequestMarker vn t)) = [].
Proof. by destruct vn. Qed.
Lemma box_line_texts_marker vn t : box_line_texts (option_list (kioskOrderRequestMarker vn t)) = [].
Proof. by destruct vn. Qed.

(** An order, or a refusal, answers every line that was submitted. *)
Definition order_accounts (items requested : list jsstr) (o : PickupOrderRow) : Prop :=
  let stored := default [] (o_syncConflicts o) in
  (oi_rawKm <$> List.filter (fun i => bool_decide (oi_boxId i = None)) (o_items o)) ++ line_texts stored
    ≡ₚ items
  /\ (xb_sscc <$> o_boxes o) ++ box_line_texts stored ≡ₚ requested.

Definition rejection_accounts (items requested : list jsstr) (r : PickupScanRejectionRow) : Prop :=
  line_texts (rj_codes r) ≡ₚ items /\ box_line_texts (rj_codes r) ≡ₚ requested.

(** What a request that submits these lines under a sequence number may add. *)
Definition filing_entry (src : PickupDocumentSource) (seq : Z) (items requested : list jsstr)
    (s s' : Pickup) : Prop :=
  exists added new, orders s' = orders s ++ added
    /\ Forall (fun o => order_slot o = Some (src, seq) /\ order_accounts items requested o) added
    /\ rejections s' = rejections s ++ new
    /\ Forall (fun r => rejection_slot r = (src, seq)
                        /\ (rj_orderId r = None -> rejection_accounts items requested r)) new.

Lemma quiet_entry src seq items requested s s' :
  same_facts s s' -> rejections s' = rejections s -> filing_entry src seq items requested s s'.
Proof. intros [Eo _ _ _] Er. exists [], []. rewrite !app_nil_r. by split_and!. Qed.

Lemma refusal_entry src seq items requested row s s' :
  same_facts s s' -> rejections s' = rejections (recordScanRejection row s) ->
  rejection_slot row = (src, seq) -> rejection_accounts items requested row ->
  filing_entry src seq items requested s s'.
Proof.
  intros [Eo _ _ _] Er Hs Ha. rewrite record_rejections in Er. exists [].
  eexists. rewrite app_nil_r. split_and!; [done | done | exact Er |].
  case_match; [constructor|]. by apply Forall_singleton.
Qed.

Lemma filed_entry src emp reason wr seq when plan items requested oid s s' :
  insertable (pn_loose plan) (pn_boxes plan) ->
  item_texts (pn_loose plan) ++ conflict_texts (pn_conflicts plan) ≡ₚ items ->
  box_texts (pn_boxes plan) ++ box_conflict_texts (pn_boxConflicts plan) ≡ₚ requested ->
  filed_in src emp reason wr seq when plan oid s s' -> filing_entry src seq items requested s s'.
Proof.
  intros Hin Hi Hb [Eo _ _ _ _ (new & Er & Hn)]. do 2 eexists. split_and!; [exact Eo | | exact Er |].
  - apply Forall_singleton. split; [done|]. unfold order_accounts. rewrite filed_order_conflicts.
    unfold stored_of. rewrite line_texts_join, box_line_texts_join.
    cbn [o_items o_boxes filed_order new_order]. split; [|by rewrite <- list_fmap_compose].
    rewrite <- Hi. apply Permutation_app_tail. unfold item_rows.
    rewrite List.filter_app, (filter_none _ (_ ≫= _)), filter_every, app_nil_r.
    + by rewrite <- list_fmap_compose.
    + apply Forall_forall. intros i (x & -> & _)%list_elem_of_fmap. by apply bool_decide_eq_true_2.
    + apply Forall_forall. intros i Hx. apply list_elem_of_bind in Hx as (b & Hx & _).
      apply list_elem_of_fmap in Hx as (x & -> & _). by apply bool_decide_eq_false_2.
  - eapply Forall_impl; [exact Hn|]. intros r [Hs Ho]. split; [done | by rewrite Ho].
Qed.

(** ** One request *)

Lemma later_refl w : later w w.
Proof. split; [done | done | apply evolves_same]. Qed.

Lemma later_trans w1 w2 w3 : later w1 w2 -> later w2 w3 -> later w1 w3.
Proof.
  intros [Hl Hg He] [Hl' Hg' He']. split; [congruence..|]. rewrite Hl in He'. by eapply evolves_more.
Qed.

Section Request.
Context (src : PickupDocumentSource) (seq : Z) (items requested : list jsstr) (vn : bool).
Context (Hmodern : modern src seq = vn) (Hlines : (0 < length items + length requested)%nat).
(** A request without boxes has none. *)
Context (Hlegacy : vn = false -> requested = []).

Abbreviation entry := (filing_entry src seq items requested).
Abbreviation fine w := (good entry w).
Abbreviation safely p Q X w := (wp perform honest p Q X (good entry) w).

(** The request was refused, and always will be. *)
Definition refused_for_good (out : KioskOrderOutcome) (s : Pickup) : Prop :=
  findRejectionOutcome src seq s = Some out /\ findOrderOutcome src seq s = None.

Definition same_verdict (out : KioskOrderOutcome) (s : Pickup) : Prop :=
  exists out', refused_for_good out' s /\
  (rejected out = true /\ writeoffForbidden out = false
   /\ throwPersistedKioskRejection out' = throwPersistedKioskRejection out
   \/ rejected out = false /\ writeoffForbidden out = true
      /\ throwPersistedKioskRejection out' = WriteoffForbiddenError).

(** What an outcome says of the tables. *)
Definition answered (out : KioskOrderOutcome) (s : Pickup) : Prop :=
  (findOrderOutcome src seq s = Some out /\ rejected out = false /\ writeoffForbidden out = false)
  \/ (vn = true /\ same_verdict out s)
  \/ (vn = false /\ rejected out = false /\ (writeoffForbidden out = true \/ orderNo out = [])).

(** A rejection row of this request stands alone. *)
Lemma rejection_row_alone s r :
  inv s -> vn = true -> findOrderOutcome src seq s = None -> r ∈ rejections s ->
  rejection_slot r = (src, seq) -> marked r /\ rj_orderId r = None.
Proof.
  intros Hi -> Hno Hr [= Hsrc Hseq]. pose proof (i_modern _ Hi r Hr) as H. rewrite Hsrc, Hseq in H.
  specialize (H Hmodern). destruct (rj_orderId r); [|by destruct H].
  destruct H as (o & Ho & Hs). rewrite no_order_slot in Hno. destruct (Hno o Ho).
  rewrite Hs. unfold rejection_slot. by rewrite Hsrc, Hseq.
Qed.

Lemma no_row s :
  inv s -> vn = true -> findOrderOutcome src seq s = None -> findRejectionOutcome src seq s = None ->
  forall r, r ∈ rejections s -> rejection_slot r <> (src, seq).
Proof.
  intros Hi Hv Hno Hnr r Hr Hs. unfold findRejectionOutcome in Hnr.
  destruct (List.find _ (rejections s)) as [r'|] eqn:E.
  - apply List.find_some in E as [Hin Hof]. apply bool_decide_eq_true in Hof as [Hsrc Hseq].
    apply list_elem_of_In in Hin. cbn in Hnr.
    destruct (rejection_row_alone s r' Hi Hv Hno Hin) as [[out Ho] _]; [|congruence].
    unfold rejection_slot. congruence.
  - apply (proj1 (find_none_iff _ _)) with (a := r) in E; [|done]. apply bool_decide_eq_false in E.
    apply E. by injection Hs as -> ->.
Qed.

Lemma refused_stays L out s s' :
  evolves L s s' -> inv s -> vn = true -> refused_for_good out s -> refused_for_good out s'.
Proof.
  intros He Hi Hv [Hr Hno]. split; [by eapply rejection_stays|]. pose proof (ev_inv _ _ _ He Hi) as Hi'.
  unfold findRejectionOutcome in Hr. destruct (List.find _ (rejections s)) as [r|] eqn:E; [|done].
  apply List.find_some in E as [Hin Hof]. apply list_elem_of_In in Hin.
  apply bool_decide_eq_true in Hof as [Hsrc Hseq].
  destruct (rejection_row_alone s r Hi Hv Hno Hin) as [_ Hid]; [unfold rejection_slot; congruence|].
  destruct (ev_rejections _ _ _ He) as (new & Er & _).
  assert (Hin' : r ∈ rejections s') by (rewrite Er; apply elem_of_app; by left).
  pose proof (i_modern _ Hi' r Hin') as H. rewrite Hsrc, Hseq, Hid, Hmodern in H. specialize (H Hv) as [_ H].
  apply no_order_slot. intros o Ho. specialize (H o Ho). unfold rejection_slot in H. congruence.
Qed.

Lemma answered_stays L out s s' : evolves L s s' -> inv s -> answered out s -> answered out s'.
Proof.
  intros He Hi [(H & ?)|[(Hv & out' & Hr & H)|H]].
  - left. split; [by eapply order_stays | done].
  - right; left. split; [done|]. exists out'. split; [by eapply refused_stays | done].
  - by right; right.
Qed.

Lemma same_facts_finds s s' :
  same_facts s s' -> rejections s' = rejections s ->
  findOrderOutcome src seq s' = findOrderOutcome src seq s
  /\ findRejectionOutcome src seq s' = findRejectionOutcome src seq s.
Proof. intros [Eo _ _ _] Er. unfold findOrderOutcome, findRejectionOutcome. by rewrite Eo, Er. Qed.

Lemma answered_quiet out s s' :
  same_facts s s' -> rejections s' = rejections s -> answered out s -> answered out s'.
Proof.
  intros Hf Hr. destruct (same_facts_finds _ _ Hf Hr) as [Eo Er].
  unfold answered, same_verdict, refused_for_good. by rewrite Eo, Er.
Qed.

(** A refusal that was just written. *)
Lemma recorded_refusal row codes t s s' :
  inv s -> vn = true -> findOrderOutcome src seq s = None -> findRejectionOutcome src seq s = None ->
  rejection_slot row = (src, seq) -> rj_codes row = codes ++ [StoredRequest 2 (terminal_text t)] ->
  forallb not_request codes = true ->
  same_facts s s' -> rejections s' = rejections (recordScanRejection row s) ->
  refused_for_good (refusal_outcome codes t) s'.
Proof.
  intros Hi Hv Hno Hnr Hs Hc Hn [Eo _ _ _] Er.
  pose proof (no_row s Hi Hv Hno Hnr) as Hrow. injection Hs as Hsrc Hseq.
  assert (Hf : List.find (rejection_of src seq) (rejections s) = None).
  { apply find_none_iff. intros r Hr. apply bool_decide_eq_false. intros [H1 H2].
    apply (Hrow r Hr). unfold rejection_slot. congruence. }
  split; [|unfold findOrderOutcome; by rewrite Eo].
  unfold findRejectionOutcome. rewrite Er, record_rejections, Hsrc, Hseq, (find_app_none _ _ _ Hf).
  assert (existsb (rejection_of src seq) (rejections s) = false) as ->
    by by apply existsb_false, find_none_iff.
  cbn [List.find]. assert (rejection_of src seq row = true) as ->
    by by apply bool_decide_eq_true. cbn [mbind option_bind]. rewrite Hc. by apply outcome_with_marker.
Qed.

(** An exception that settles nothing. *)
Definition final_refusal (e : thrown) : bool :=
  match e with
  | Http (UnknownOrInactiveBadge | WriteoffForbiddenError | WriteoffReasonRequiredError
         | UnknownWriteoffReason | OrderRejectedError _ _) => true
  | _ => false
  end.

Definition plain (e : thrown) : Prop :=
  (forall index, e = Db (UniqueViolation index) -> index = PrimaryKey)
  /\ final_refusal e = false /\ e <> Http RetryExhausted.

Lemma plain_other : plain (Db OtherDbError).
Proof. by split_and!. Qed.
Lemma plain_http e : final_refusal (Http e) = false -> e <> RetryExhausted -> plain (Http e).
Proof. intros Hf He. split_and!; [done | done | by intros [= ->]]. Qed.
Lemma plain_pk : plain (Db (UniqueViolation PrimaryKey)).
Proof. split_and!; [by intros ? [= <-] | done..]. Qed.

(** Consuming the reservation changes nothing that matters. *)
Lemma safely_consume {X} (thrown_as : db_error -> X) (Q : unit -> World -> Prop) (E : X -> World -> Prop) w :
  fine w ->
  (forall w1, later w w1 -> fine w1 -> E (thrown_as OtherDbError) w1) ->
  (forall w1 w2, later w w1 -> fine w1 -> fine w2 -> same_facts (w_db w1) (w_db w2) ->
     rejections (w_db w2) = rejections (w_db w1) -> w_locks w2 = [] ->
     Q tt w2 /\ E (thrown_as OtherDbError) w2) ->
  safely (call_as thrown_as (write (consumeKioskAdmission src seq))) Q E w.
Proof.
  intros Hg HE HQ. apply safely_commit; [done|]. intros w1 oid Hl Hg1. split; [by apply HE|].
  pose proof (same_facts_consume src seq (w_db w1)) as Hf.
  pose proof (consume_rejections src seq (w_db w1)) as Hr.
  split_and!; [by apply quiet_step | by apply quiet_entry|].
  intros Hg2. by apply (HQ w1).
Qed.

(** ** One attempt *)

Section Attempting.
Context (emp : jsstr) (reason : Reason) (wr : option jsstr) (when : Z).

(** The state of the loop of retries. *)
Record turn (remaining : list ResolvedItem) (accC : list OrderConflict) (remBoxes : list jsstr)
    (accB : list BoxConflict) : Prop := {
  tu_items : item_texts remaining ++ conflict_texts accC ≡ₚ items;
  tu_boxes : remBoxes ++ box_conflict_texts accB ≡ₚ requested;
  tu_keys : NoDup (item_keys remaining);
  tu_good : forallb good_conflict accC = true;
  tu_good_boxes : forallb good_box_conflict accB = true
}.

Definition failing (e : thrown * (list ResolvedItem * list ResolvedOrderBox)) (w : World) : Prop :=
  fine w /\ plain e.1.

Definition locked (w : World) : Prop := BoxRegistryRoot ∈ w_locks w /\ DeviceRow src ∈ w_locks w.

Lemma locked_later w w1 : later w w1 -> locked w -> locked w1.
Proof. intros Hl. unfold locked. by rewrite (lt_locks _ _ Hl). Qed.

Lemma no_lines plan :
  Forall wf_box (pn_boxes plan) ->
  Z.of_nat (length (pn_loose plan)) + bottles (pn_boxes plan) = 0 -> pn_loose plan = [] /\ pn_boxes plan = [].
Proof.
  intros Hw H. rewrite (bottles_members _ Hw) in H. destruct (pn_loose plan); [|cbn in H; lia].
  split; [done|]. destruct (pn_boxes plan) as [|b bs]; [done|]. apply Forall_cons in Hw as [(_ & Hne & _) _].
  rewrite box_keys_cons, length_app in H. unfold member_keys_of in H. rewrite length_fmap in H.
  destruct (ob_members b); [done | cbn in H; lia].
Qed.

Section Concluding.
Context (plan : Plan).
Context (Hin : insertable (pn_loose plan) (pn_boxes plan)).
Context (Hgood : forallb good_conflict (pn_conflicts plan) = true).
Context (Hgoodb : forallb good_box_conflict (pn_boxConflicts plan) = true).
Context (Hitems : item_texts (pn_loose plan) ++ conflict_texts (pn_conflicts plan) ≡ₚ items).
Context (Hboxes : box_texts (pn_boxes plan) ++ box_conflict_texts (pn_boxConflicts plan) ≡ₚ requested).

Lemma conclude_fine w :
  fine w -> locked w ->
  (forall w1, later w w1 -> fine w1 -> may_file src emp reason seq when plan (w_db w1)) ->
  (vn = true -> forall w1, later w w1 -> fine w1 -> findRejectionOutcome src seq (w_db w1) = None) ->
  safely (conclude src emp reason wr seq when items requested vn plan)
    (fun out w1 => fine w1 /\ answered out (w_db w1)) failing w.
Proof.
  intros Hg Hl Hm Hnr. unfold conclude.
  destruct ((_ =? 0) && _) eqn:E.
  - apply andb_true_iff in E as [E _]. apply Z.eqb_eq in E.
    destruct (no_lines plan (in_boxes _ _ Hin) E) as [Hel Heb].
    set (codes := stored_of plan ++ option_list (kioskOrderRequestMarker vn OrderRejected)).
    apply wp_bind, safely_commit; [done|]. intros w1 oid Hl1 Hg1.
    pose proof (locked_later _ _ Hl1 Hl) as [Hroot Hrow].
    set (row := rejection_row src emp seq when None codes).
    pose proof (same_facts_trans _ _ _ (same_facts_record row (w_db w1))
      (same_facts_consume src seq (recordScanRejection row (w_db w1)))) as Hf.
    pose proof (consume_rejections src seq (recordScanRejection row (w_db w1))) as Hr.
    pose proof (mf_slot _ _ _ _ _ _ _ (Hm w1 Hl1 Hg1)) as Hno.
    assert (Hmark : vn = true -> codes = stored_of plan ++ [StoredRequest 2 (terminal_text OrderRejected)])
      by (intros Hv; unfold codes; by rewrite Hv).
    split; [by split; [|apply plain_other]|]. split_and!.
    + apply (refusal_step _ row); [exact Hf | exact Hr | done | | done].
      cbn. intros Hv. rewrite Hmodern in Hv. split; [|done]. unfold marked. cbn [rj_codes rejection_row row].
      rewrite (Hmark Hv), outcome_with_marker by apply join_not_request. done.
    + apply (refusal_entry _ _ _ _ row); [exact Hf | exact Hr | done |].
      unfold rejection_accounts. cbn [rj_codes rejection_row row]. unfold codes, stored_of.
      rewrite line_texts_app, box_line_texts_app, line_texts_join, box_line_texts_join,
        line_texts_marker, box_line_texts_marker, !app_nil_r.
      rewrite <- Hitems, <- Hboxes, Hel, Heb. done.
    + intros Hg2. split; [|by split; [|apply plain_other]]. split; [done|].
      destruct (decide (vn = true)) as [Hv|Hv%not_true_is_false]; [right; left | right; right];
        (split; [done|]); [|by split; [|right]].
      exists (refusal_outcome (stored_of plan) OrderRejected). split.
      * refine (recorded_refusal row (stored_of plan) OrderRejected (w_db w1) _ _ _ _ _ _ _ _ _ _);
          [apply Hg1 | done | done | by apply Hnr | done | by apply Hmark | apply join_not_request | done | done].
      * left. split; [done|]. split; [done|]. unfold throwPersistedKioskRejection, refusal_outcome.
        cbn [terminalReason conflicts outcomeBoxConflicts]. unfold stored_of. by rewrite split_join.
  - apply wp_bind, safely_commit; [done|]. intros w1 oid Hl1 Hg1.
    pose proof (locked_later _ _ Hl1 Hl) as [Hroot Hrow].
    pose proof (file_order_ok (w_locks w1) src emp reason wr seq when plan Hroot Hrow Hin Hgood Hgoodb oid
      (w_db w1) (proj1 Hg1) (Hm w1 Hl1 Hg1)) as Hfile.
    split; [by split; [|apply plain_other]|].
    destruct (file_order _ _ _ _ _ _ plan oid (w_db w1)) as [[number db]|e].
    + destruct Hfile as (-> & Hfi & Hstep). split_and!; [done | by eapply filed_entry|].
      intros Hg2. split; [|by split; [|apply plain_other]]. split; [done|]. left.
      split_and!; [|done..]. unfold findOrderOutcome. cbn [w_db after_commit]. rewrite (fi_orders _ _ _ _ _ _ _ _ _ _ Hfi).
      rewrite find_app_none.
      2: { pose proof (mf_slot _ _ _ _ _ _ _ (Hm w1 Hl1 Hg1)) as H. unfold findOrderOutcome in H.
           by destruct (List.find _ _). }
      cbn [List.find]. assert (owned_by src seq (filed_order oid (formatOrderNo (counter (w_db w1) + 1) when)
        src emp reason wr seq when plan) = true) as -> by by apply bool_decide_eq_true.
      rewrite <- (filed_order_outcome oid _ src emp reason wr seq when plan Hgood Hgoodb). done.
    + split; [done|]. destruct Hfile as [-> | ->]; [apply plain_pk | apply plain_other].
Qed.
End Concluding.

Lemma codes_rejected codes out : outcome_of_codes codes = Some out -> rejected out = true.
Proof.
  unfold outcome_of_codes. destruct (match marker_reason codes with Some _ => _ | None => _ end); [|done].
  cbn [mbind option_bind]. destruct (splitStoredConflicts codes). by intros [= <-].
Qed.

Lemma codes_not_forbidden codes out : outcome_of_codes codes = Some out -> writeoffForbidden out = false.
Proof.
  unfold outcome_of_codes. destruct (match marker_reason codes with Some _ => _ | None => _ end); [|done].
  cbn [mbind option_bind]. destruct (splitStoredConflicts codes). by intros [= <-].
Qed.

Lemma rejection_rejected s out : findRejectionOutcome src seq s = Some out -> rejected out = true.
Proof.
  unfold findRejectionOutcome. destruct (List.find _ _) as [row|]; [|done]. apply codes_rejected.
Qed.

Lemma rejection_not_forbidden s out :
  findRejectionOutcome src seq s = Some out -> writeoffForbidden out = false.
Proof.
  unfold findRejectionOutcome. destruct (List.find _ _) as [row|]; [|done]. apply codes_not_forbidden.
Qed.

Lemma order_accepted s out :
  findOrderOutcome src seq s = Some out -> rejected out = false /\ writeoffForbidden out = false.
Proof.
  unfold findOrderOutcome. destruct (List.find _ _) as [row|]; [|done]. intros [= <-].
  unfold outcome_of_order. by destruct (splitStoredConflicts _).
Qed.

(** A refused line of the whole request, kept with its marker. *)
Definition whole_codes (reason : jsstr) : list StoredOrderConflict :=
  ((fun rawKm => StoredLine rawKm reason) <$> items) ++ ((fun s => StoredBox s None reason) <$> requested).

Lemma whole_not_request r : forallb not_request (whole_codes r) = true.
Proof. unfold whole_codes. rewrite forallb_app. by rewrite !forallb_map_const. Qed.

Lemma legacy_unmarked r : vn = false -> outcome_of_codes (whole_codes r) = None.
Proof.
  intros Hv. unfold whole_codes. rewrite (Hlegacy Hv). cbn [fmap list_fmap]. rewrite app_nil_r.
  unfold outcome_of_codes, marker_reason. clear. 
  assert (forall (B : Type) (f : StoredOrderConflict -> option B), (forall t, f (StoredLine t r) = None) ->
    omap f ((fun rawKm => StoredLine rawKm r) <$> items) = []) as H.
  { intros B f Hf. induction items as [|t l IH]; [done|]. cbn. by rewrite Hf. }
  by rewrite !H.
Qed.

Lemma whole_lines r m :
  line_texts m = [] -> box_line_texts m = [] ->
  line_texts (whole_codes r ++ m) = items /\ box_line_texts (whole_codes r ++ m) = requested.
Proof.
  intros Hm Hbm. unfold whole_codes. rewrite !line_texts_app, !box_line_texts_app, Hm, Hbm, !app_nil_r.
  rewrite line_texts_lines, box_line_texts_boxes.
  by rewrite line_texts_none, box_line_texts_none, app_nil_r by done.
Qed.

(** Refusing the whole request under the lock of its device. *)
Lemma safely_refuse {X} (thrown_as : db_error -> X) row t (Q : unit -> World -> Prop)
    (E : X -> World -> Prop) w :
  fine w ->
  rejection_slot row = (src, seq) -> rj_orderId row = None ->
  rj_codes row = whole_codes (terminal_text t) ++ option_list (kioskOrderRequestMarker vn t) ->
  (forall w1, later w w1 -> fine w1 -> E (thrown_as OtherDbError) w1) ->
  (forall w1, later w w1 -> fine w1 -> vn = true ->
     DeviceRow src ∈ w_locks w1 /\ findOrderOutcome src seq (w_db w1) = None
     /\ findRejectionOutcome src seq (w_db w1) = None) ->
  (forall w2, fine w2 -> w_locks w2 = [] ->
     (vn = true -> refused_for_good (refusal_outcome (whole_codes (terminal_text t)) t) (w_db w2)) ->
     Q tt w2 /\ E (thrown_as OtherDbError) w2) ->
  safely (call_as thrown_as (write (fun s => consumeKioskAdmission src seq (recordScanRejection row s))))
    Q E w.
Proof.
  intros Hg Hslot Hid Hcodes HE Hheld HQ. apply safely_commit; [done|]. intros w1 oid Hl1 Hg1.
  split; [by apply HE|]. pose proof (same_facts_trans _ _ _ (same_facts_record row (w_db w1))
    (same_facts_consume src seq (recordScanRejection row (w_db w1)))) as Hf.
  pose proof (consume_rejections src seq (recordScanRejection row (w_db w1))) as Hr.
  injection Hslot as Hsrc Hseq.
  assert (Hun : vn = false -> ~ marked row).
  { intros Hv. unfold marked. rewrite Hcodes, Hv. cbn [kioskOrderRequestMarker option_list].
    rewrite app_nil_r. rewrite (legacy_unmarked _ Hv). by intros [out Ho]. }
  split_and!.
  - apply (refusal_step _ row); [exact Hf | exact Hr | done | |].
    + rewrite Hsrc, Hseq, Hmodern. intros Hv. destruct (Hheld w1 Hl1 Hg1 Hv) as (_ & Hno & _).
      split; [|done]. unfold marked. rewrite Hcodes, Hv.
      change (option_list _) with [StoredRequest 2 (terminal_text t)].
      rewrite outcome_with_marker by apply whole_not_request. done.
    + intros Hm. destruct (decide (vn = true)) as [Hv|Hv%not_true_is_false]; [|by destruct (Hun Hv)].
      rewrite Hsrc. by apply (Hheld w1).
  - apply (refusal_entry _ _ _ _ row); [exact Hf | exact Hr | by unfold rejection_slot; rewrite Hsrc, Hseq |].
    unfold rejection_accounts. rewrite Hcodes.
    destruct (whole_lines (terminal_text t) (option_list (kioskOrderRequestMarker vn t))) as [-> ->]; [| |done].
    + apply line_texts_marker.
    + apply box_line_texts_marker.
  - intros Hg2. apply HQ; [done | done|]. intros Hv. destruct (Hheld w1 Hl1 Hg1 Hv) as (_ & Hno & Hnr).
    eapply (recorded_refusal row); [apply Hg1 | done | exact Hno | exact Hnr | | | apply whole_not_request
      | exact Hf | exact Hr].
    + unfold rejection_slot. by rewrite Hsrc, Hseq.
    + by rewrite Hcodes, Hv.
Qed.

(** What [usedKeys] is, when it is read and when it need not be. *)
Lemma used_fine keys (Q : list jsstr -> World -> Prop) w :
  fine w ->
  (forall used w1, later w w1 -> fine w1 ->
     (forall key, key ∈ keys -> key ∈ open_keys (w_db w1) -> key ∈ used) -> Q used w1) ->
  safely (match remove_dups keys with
          | [] => Ret []
          | _ => attempting ([], []) (Query (usedRows (remove_dups keys))) end) Q failing w.
Proof.
  intros Hg HQ. destruct (remove_dups keys) as [|k ks] eqn:E.
  - apply HQ; [apply later_refl | done|]. intros key Hk. apply elem_of_remove_dups in Hk.
    rewrite E in Hk. by apply elem_of_nil in Hk.
  - apply safely_query; [done|]. intros w1 Hl Hg1. split; [|by split; [|apply plain_other]].
    apply HQ; [done..|]. intros key Hk Ho. rewrite <- elem_of_remove_dups, E in Hk.
    unfold usedRows. apply list_elem_of_In, filter_In. split; [by apply list_elem_of_In|].
    by apply elem_of_is_in.
Qed.

(** How much is taken already: what it is at most when the order is written. *)
Lemma count_fine (Q : Z -> World -> Prop) w :
  fine w ->
  (forall n w1, later w w1 -> fine w1 ->
     (reason <> Writeoff -> n = countTakenToday emp when (w_db w1)) -> Q n w1) ->
  safely (if is_writeoff reason then Ret 0
          else attempting ([], []) (Query (countTakenToday emp when))) Q failing w.
Proof.
  intros Hg HQ. unfold is_writeoff. case_bool_decide as Hr.
  - apply HQ; [apply later_refl | done | done].
  - apply safely_query; [done|]. intros w1 Hl Hg1. split; [|by split; [|apply plain_other]]. by apply HQ.
Qed.

Lemma evolves_locked w w1 :
  later w w1 -> BoxRegistryRoot ∈ w_locks w -> Forall2 same_document (orders (w_db w)) (orders (w_db w1)).
Proof.
  intros [_ _ He] Hl. destruct (ev_orders _ _ _ He) as (k & a & Ho & Hk & Ha & _).
  by rewrite Ho, (Ha Hl), app_nil_r.
Qed.

Section Turn.
Context (remaining : list ResolvedItem) (accC : list OrderConflict) (remBoxes : list jsstr)
  (accB : list BoxConflict).
Context (Hturn : turn remaining accC remBoxes accB).

Lemma plan_may_file policy resolved used n wp_ wk wn :
  inv (w_db wp_) -> resolveLivePickupPolicy emp (w_db wp_) = Some policy ->
  Forall wf_box resolved.1 ->
  (forall key, key ∈ item_keys remaining ++ box_keys resolved.1 -> key ∈ open_keys (w_db wk) -> key ∈ used) ->
  (reason <> Writeoff -> n = countTakenToday emp when (w_db wn)) ->
  later wk wn -> fine wn -> locked wk ->
  findOrderOutcome src seq (w_db wn) = None ->
  (vn = true -> findRejectionOutcome src seq (w_db wn) = None) ->
  let plan := make_plan reason remaining accC accB policy resolved used n in
  forall w1, later wn w1 -> fine w1 -> may_file src emp reason seq when plan (w_db w1).
Proof.
  intros Hip Hpol Hw Hused Hn Hkn Hgn Hlk Hno Hnr plan w1 Hl1 Hg1.
  pose proof (make_plan_spec reason remaining accC accB policy resolved used n (tu_keys _ _ _ _ Hturn) Hw) as Hp.
  fold plan in Hp. pose proof (locked_later _ _ Hkn Hlk) as [Hroot Hrow].
  pose proof (later_trans _ _ _ Hkn Hl1) as Hk1. split.
  - intros key Hkey Hopen. apply (ps_unused _ _ _ _ _ _ _ _ _ Hp key Hkey). apply Hused.
    + apply elem_of_app in Hkey as [Hkey|Hkey]; apply elem_of_app; [left | right].
      * eapply elem_of_sublist; [exact Hkey|]. apply item_keys_sublist, Hp.
      * eapply elem_of_sublist; [exact Hkey|]. apply box_keys_sublist, Hp.
    + eapply elem_of_sublist; [exact Hopen|]. apply open_keys_same, (evolves_locked _ _ Hk1), Hlk.
  - eapply no_order_stays; [apply Hl1 | done | done].
  - intros Hm. apply no_row; [apply Hg1 | congruence | |].
    + eapply no_order_stays; [apply Hl1 | done | done].
    + eapply no_rejection_stays; [apply Hl1 | done | apply Hnr; congruence].
  - intros Hr D HD. destruct (i_cap _ Hip emp D HD) as [Hlim _]. destruct (Hlim _ Hpol) as [Hli Hda].
    pose proof (ps_limit _ _ _ _ _ _ _ _ _ Hp Hli Hr) as Hle.
    pose proof (proj2 (i_cap _ (proj1 Hgn) emp D HD) when) as Hcn. rewrite <- (Hn Hr) in Hcn.
    pose proof (count_same emp when _ _ (proj1 Hgn) (evolves_locked _ _ Hl1 Hroot)) as Hc1.
    rewrite <- (Hn Hr) in Hc1. unfold plan_total. lia.
Qed.

Lemma apply_order_fine w :
  fine w -> locked w ->
  safely (apply_order src emp reason wr seq when items requested vn remaining accC remBoxes accB)
    (fun out w1 => fine w1 /\ answered out (w_db w1)) failing w.
Proof.
  intros Hg Hl. unfold apply_order. apply wp_bind, safely_query; [done|]. intros w1 Hl1 Hg1.
  split; [|by split; [|apply plain_other]]. pose proof (locked_later _ _ Hl1 Hl) as Hk1.
  destruct (findSerializedKioskWinner src seq vn (w_db w1)) as [out|] eqn:Ew.
  { apply wp_bind, safely_consume; [done | by split; [|apply plain_other]|].
    intros w2 w3 Hl2 Hg2 Hg3 Hf Hr _. split; [|by split; [|apply plain_other]]. split; [done|].
    apply (answered_quiet _ (w_db w2)); [done..|]. eapply answered_stays; [apply Hl2 | apply Hg1|].
    unfold findSerializedKioskWinner in Ew. destruct (findOrderOutcome src seq (w_db w1)) as [o|] eqn:Eo.
    - injection Ew as <-. left. by destruct (order_accepted _ _ Eo).
    - destruct (decide (vn = true)) as [Hv|Hv%not_true_is_false]; rewrite Hv in Ew; [|done].
      right; left. split; [done|]. exists out. split; [done|]. left.
      by split; [eapply rejection_rejected | split; [eapply rejection_not_forbidden|]]. }
  assert (Hno : findOrderOutcome src seq (w_db w1) = None /\
    (vn = true -> findRejectionOutcome src seq (w_db w1) = None)).
  { unfold findSerializedKioskWinner in Ew. destruct (findOrderOutcome src seq (w_db w1)); [done|].
    split; [done|]. by intros ->. }
  destruct Hno as [Hno Hnr].
  assert (Hstill : forall w', later w1 w' -> findOrderOutcome src seq (w_db w') = None /\
    (vn = true -> findRejectionOutcome src seq (w_db w') = None)).
  { intros w' Hl'. destruct Hk1 as [Hroot Hrow]. split; [by eapply no_order_stays; [apply Hl'|..]|].
    intros Hv. by eapply no_rejection_stays; [apply Hl' | | apply Hnr]. }
  apply wp_bind, safely_query; [done|]. intros w2 Hl2 Hg2. split; [|by split; [|apply plain_other]].
  destruct (resolveLivePickupPolicy emp (w_db w2)) as [policy|] eqn:Ep; [|by split; [|split_and!]].
  destruct (is_writeoff reason && negb (canWriteoff policy)).
  { unfold lines_submitted. rewrite (proj2 (Nat.ltb_lt _ _) Hlines).
    apply wp_bind, (safely_refuse _ _ WriteoffForbidden); [done | done | done | | | |].
    - cbn [rj_codes rejection_row]. unfold forbidden_codes, whole_codes. by rewrite <- app_assoc.
    - by split; [|apply plain_other].
    - intros w' Hl' _ Hv. pose proof (later_trans _ _ _ Hl2 Hl') as Hl1'.
      destruct (Hstill w' Hl1') as [Hno' Hnr']. split_and!; [|done | by apply Hnr'].
      by apply (locked_later _ _ Hl1' Hk1).
    - intros w' Hg' _ Hkeep. split; [|by split; [|apply plain_other]]. split; [done|].
      destruct (decide (vn = true)) as [Hv|Hv%not_true_is_false]; [right; left | right; right];
        (split; [done|]); [|by split; [|left]].
      eexists. split; [by apply Hkeep|]. by right. }
  apply wp_bind, safely_query; [done|]. intros w3 Hl3 Hg3. split; [|by split; [|apply plain_other]].
  destruct (resolveOrderBoxes (stock (w_db w3)) remBoxes) as [resolved|error] eqn:Eb.
  2: { apply resolveOrderBoxes_throws in Eb as ->. by split; [|split_and!]. }
  destruct resolved as [rboxes rconf]. pose proof (resolveOrderBoxes_spec _ _ _ _ Eb) as [Hbt Hbw].
  destruct (resolveOrderBoxes_more _ _ _ _ Eb) as [Hbg Hbc].
  apply wp_bind, used_fine; [done|]. intros used w4 Hl4 Hg4 Hused.
  apply wp_bind, count_fine; [done|]. intros n w5 Hl5 Hg5 Hn.
  pose proof (make_plan_spec reason remaining accC accB policy (rboxes, rconf) used n
    (tu_keys _ _ _ _ Hturn) Hbw) as Hp.
  pose proof (later_trans _ _ _ (later_trans _ _ _ Hl2 Hl3) Hl4) as Hl14.
  pose proof (later_trans _ _ _ Hl14 Hl5) as Hl15. destruct (Hstill _ Hl15) as [Hno5 Hnr5].
  apply conclude_fine; [| | | | |done| | |].
  - split; [apply Hp | eapply Forall_sublist; [apply Hp | done] | eapply coherent_sublist; [apply Hp | done]].
  - apply Hp, Hturn.
  - apply Hp; [apply Hturn | done].
  - rewrite (ps_items _ _ _ _ _ _ _ _ _ Hp). apply Hturn.
  - rewrite (ps_boxes _ _ _ _ _ _ _ _ _ Hp), Hbt. apply Hturn.
  - eapply locked_later; [exact Hl15 | done].
  - eapply (plan_may_file policy (rboxes, rconf) used n w2 w4 w5); try done.
    + apply Hg2.
    + eapply locked_later; [exact Hl14 | done].
  - intros Hv w6 Hl6 _. by apply (Hstill w6 (later_trans _ _ _ Hl15 Hl6)).
Qed.

Lemma attempt_fine w :
  fine w ->
  safely (attempt src emp reason wr seq when items requested vn remaining accC remBoxes accB)
    (fun out w1 => fine w1 /\ answered out (w_db w1)) failing w.
Proof.
  intros Hg. unfold attempt. eapply wp_mono.
  - apply (safely_transaction entry _ _ (fun e => plain e.1)).
    apply wp_bind, safely_lock; [done|]. intros w1 _ Hg1.
    split; [|by split; (split; [|apply plain_other])].
    apply wp_bind, safely_lock; [done|]. intros w2 Hl2 Hg2.
    split; [|by split; (split; [|apply plain_other])].
    apply wp_bind, safely_lock; [done|]. intros w3 Hl3 Hg3.
    split; [|by split; (split; [|apply plain_other])].
    apply apply_order_fine; [done|].
    split; cbn; rewrite (lt_locks _ _ Hl3); cbn; rewrite (lt_locks _ _ Hl2); cbn;
      rewrite !elem_of_cons; auto.
  - done.
  - done.
  - done.
Qed.
End Turn.

Lemma retry_fine n remaining accC remBoxes accB w :
  turn remaining accC remBoxes accB -> fine w ->
  safely (retry src emp reason wr seq when items requested vn (S n) remaining accC remBoxes accB)
    (fun out w1 => fine w1 /\ answered out (w_db w1)) (fun e w1 => fine w1 /\ plain e) w.
Proof.
  intros Ht Hg. cbn [retry]. apply wp_try. eapply wp_mono; [by apply attempt_fine | done | | done].
  intros [e [loose taken]] w1 [Hg1 He]. cbn [fst] in He.
  assert (isDeviceSeqRace e = false) as ->.
  { destruct e as [|[ix|]]; try done. destruct ix; try done. by specialize (proj1 He _ eq_refl). }
  assert (isKmKeyRace e = false) as ->.
  { destruct e as [|[ix|]]; try done. destruct ix; try done. by specialize (proj1 He _ eq_refl). }
  done.
Qed.
End Attempting.

(** An exception of the request: one that refuses it for good has been kept,
    unless an order was filed under its number meanwhile. *)
Definition settled_error (e : thrown) (w : World) : Prop :=
  fine w /\ (forall index, e = Db (UniqueViolation index) -> index = PrimaryKey)
  /\ e <> Http RetryExhausted
  /\ (vn = true -> final_refusal e = true -> findOrderOutcome src seq (w_db w) = None ->
      exists out, refused_for_good out (w_db w) /\ e = Http (throwPersistedKioskRejection out)).

Lemma plain_settled e w : fine w -> plain e -> settled_error e w.
Proof. intros Hg (Hu & Hf & Hr). split_and!; [done..|]. intros _. by rewrite Hf. Qed.

Lemma other_settled w : fine w -> settled_error (Db OtherDbError) w.
Proof. intros Hg. apply plain_settled; [done | apply plain_other]. Qed.

(** A result of the request: it is the stored order's. *)
Definition settled (r : CreateOrderResultDto) (w : World) : Prop :=
  fine w /\ ((exists out, findOrderOutcome src seq (w_db w) = Some out /\ r = result_of out)
             \/ vn = false /\ r_orderNo r = []).

Lemma persisted_not_retry out : throwPersistedKioskRejection out <> RetryExhausted.
Proof. unfold throwPersistedKioskRejection. by destruct (terminalReason out) as [[]|]. Qed.

Lemma result_fine out w :
  fine w -> answered out (w_db w) -> writeoffForbidden out = false ->
  safely (kioskResultFromOutcome out) settled settled_error w.
Proof.
  intros Hg Ha Hw. unfold kioskResultFromOutcome.
  destruct Ha as [(Ho & -> & _)|[(Hv & out' & Href & H)|(Hv & -> & H)]].
  - split; [done|]. left. by exists out.
  - destruct H as [(Hr & _ & Ht)|(_ & Hw' & _)]; [|congruence]. rewrite Hr.
    change (settled_error (Http (throwPersistedKioskRejection out)) w).
    split; [done|]. split; [done|]. split.
    + intros [= H]. by apply (persisted_not_retry out).
    + intros _ _ _. exists out'. by rewrite Ht.
  - split; [done|]. right. split; [done|]. by destruct H; [congruence|].
Qed.
End Request.

(** ** createForDevice *)

Section Create.
Context (date_parse : jsstr -> option Z) (kioskAdmissionTokenHash : jsstr -> jsstr)
  (kioskOrderPayloadDigest : CanonicalOrderContent -> jsstr).
Context (kioskId : jsstr) (dto : CreateOrderDto).

Abbreviation src := (source kioskId).
Abbreviation seq := (d_deviceSeq dto).
Abbreviation items := (pl_items (processing dto)).
Abbreviation requested := (pl_boxes (processing dto)).
Abbreviation vn := (vNext (processing dto)).
Abbreviation fine w := (good (filing_entry src seq items requested) w).
Abbreviation safely p Q X w := (wp perform honest p Q X (good (filing_entry src seq items requested)) w).
Abbreviation settled := (settled src seq items requested vn).
Abbreviation settled_error := (settled_error src seq items requested vn).

Context (Hmodern : modern src seq = vn) (Hlines : (0 < length items + length requested)%nat).

Lemma legacy_no_boxes : vn = false -> requested = [].
Proof. unfold processing, kioskOrderProcessingLines. by destruct (d_boxes dto). Qed.

Lemma audit_codes t :
  auditSubmittedLines dto t
  = whole_codes items requested (terminal_text t) ++ option_list (kioskOrderRequestMarker vn t).
Proof. unfold auditSubmittedLines, whole_codes. by rewrite <- app_assoc. Qed.

(** The error a whole refusal is answered with. *)
Definition error_of (t : KioskRejectionTerminalReason) : http_error :=
  throwPersistedKioskRejection (refusal_outcome [] t).

Lemma error_of_refusal codes t :
  t <> OrderRejected -> throwPersistedKioskRejection (refusal_outcome codes t) = error_of t.
Proof. by destruct t. Qed.

Definition early_error (t : KioskRejectionTerminalReason) (e : thrown) : Prop :=
  t <> OrderRejected /\ (e = Http (error_of t) \/ e = Db OtherDbError).

Lemma early_winner_fine out w :
  fine w -> answered src seq vn out (w_db w) -> writeoffForbidden out = false ->
  safely (call_as Db (write (consumeKioskAdmission src seq)) ;; Ret (Some out))
    (fun r w' => exists out, r = Some out /\ fine w' /\ answered src seq vn out (w_db w')
                             /\ writeoffForbidden out = false)
    (fun x w' => fine w' /\ plain x) w.
Proof.
  intros Hg Ha Hw. apply wp_bind, safely_consume; [done | by split; [|apply plain_other]|].
  intros w3 w4 Hl3 Hg3 Hg4 Hf Hr _. split; [|by split; [|apply plain_other]].
  exists out. split; [done|]. split; [done|]. split; [|done].
  eapply answered_quiet; [exact Hf | exact Hr|].
  eapply answered_stays; [exact Hmodern | exact legacy_no_boxes | apply Hl3 | apply Hg | exact Ha].
Qed.

Lemma reject_early_fine employeeId badgeCode when t e w :
  fine w -> early_error t e ->
  safely (reject_early kioskId dto true employeeId badgeCode when t e) settled settled_error w.
Proof.
  intros Hg [Ht He]. unfold reject_early. apply wp_bind.
  set (row := {| rj_source := src; rj_employeeId := employeeId; rj_badgeCode := badgeCode;
    rj_orderId := None; rj_deviceSeq := seq; rj_codes := auditSubmittedLines dto t; rj_scannedAt := when |}).
  set (Q r w' := (exists out, r = Some out /\ fine w' /\ answered src seq vn out (w_db w')
                              /\ writeoffForbidden out = false)
                 \/ r = None /\ settled_error e w').
  assert (Hlast : forall w', fine w' ->
    (vn = true -> refused_for_good src seq
       (refusal_outcome (whole_codes items requested (terminal_text t)) t) (w_db w')) ->
    settled_error e w').
  { intros w' Hg' Hk. destruct He as [-> | ->]; [|by apply other_settled].
    split; [done|]. split; [done|]. split; [by destruct t|]. intros Hv _ _. eexists. split; [by apply Hk|].
    by rewrite error_of_refusal. }
  eapply (wp_mono _ _ _ Q _ (fun x w' => fine w' /\ plain x));
    [ | intros r w' [(out & -> & Hg' & Ha & Hw)|[-> H]]; [by apply result_fine | exact H]
      | intros x w' [Hg' Hx]; by apply plain_settled | done].
  assert (Hwrite : forall w, fine w ->
    (forall w1, later w w1 -> fine w1 -> vn = true ->
       DeviceRow src ∈ w_locks w1 /\ findOrderOutcome src seq (w_db w1) = None
       /\ findRejectionOutcome src seq (w_db w1) = None) ->
    safely (call_as Db (write (early_writes kioskId dto true row)) ;; Ret None) Q
      (fun x w' => fine w' /\ plain x) w).
  { intros w0 Hg0 Hheld. apply wp_bind.
    apply (safely_refuse _ _ _ _ _ Hmodern legacy_no_boxes _ row t);
      [done | done | done | apply audit_codes | | done |].
    - by split; [|apply plain_other].
    - intros w2 Hg2 _ Hk. split; [|by split; [|apply plain_other]]. right. split; [done|]. by apply Hlast. }
  destruct (decide (vn = true)) as [Hv|Hv%not_true_is_false]; rewrite Hv.
  2: { apply (safely_transaction (filing_entry src seq items requested) _ _ plain), Hwrite; [done|].
       intros w1 _ _. congruence. }
  apply (safely_transaction (filing_entry src seq items requested) _ _ plain).
  apply wp_bind, safely_lock; [done|]. intros w1 _ Hg1.
  split; [|by split; (split; [|apply plain_other])].
  set (w1' := with_locks _ w1). assert (Hl : DeviceRow src ∈ w_locks w1') by apply list_elem_of_here.
  apply wp_bind, safely_query; [done|]. intros w2 Hl2 Hg2. split; [|by split; [|apply plain_other]].
  destruct (findOrderOutcome src seq (w_db w2)) as [out|] eqn:Eo.
  { eapply wp_mono; [apply (early_winner_fine out w2 Hg2) | by left | done | done].
    - left. by destruct (order_accepted _ _ _ _ Eo).
    - by destruct (order_accepted _ _ _ _ Eo). }
  apply wp_bind, safely_query; [done|]. intros w3 Hl3 Hg3. split; [|by split; [|apply plain_other]].
  destruct (findRejectionOutcome src seq (w_db w3)) as [out|] eqn:Er.
  { eapply wp_mono; [apply (early_winner_fine out w3 Hg3) | by left | done | done].
    - right; left. split; [done|]. exists out. split; [|by left; rewrite (rejection_rejected _ _ _ _ Er),
        (rejection_not_forbidden _ _ _ _ Er)].
      split; [done|]. eapply no_order_stays_row; [apply Hl3 | | exact Eo]. by rewrite (lt_locks _ _ Hl2).
    - by eapply rejection_not_forbidden. }
  apply Hwrite; [done|]. intros w4 Hl4 Hg4 _.
  pose proof (later_trans _ _ _ (later_trans _ _ _ Hl2 Hl3) Hl4) as Hl14.
  assert (Hd : DeviceRow src ∈ w_locks w4) by by rewrite (lt_locks _ _ Hl14).
  split; [done|]. split.
  - eapply (no_order_stays_row (w_locks w2)); [| | exact Eo].
    + by apply (lt_db _ _ (later_trans _ _ _ Hl3 Hl4)).
    + by rewrite (lt_locks _ _ Hl2).
  - eapply no_rejection_stays; [apply Hl4 | | exact Er]. by rewrite <- (lt_locks _ _ Hl4).
Qed.

Lemma filing_time_fine w :
  fine w ->
  safely (filing_time date_parse kioskAdmissionTokenHash kioskOrderPayloadDigest kioskId dto)
    (fun _ w' => fine w') (fun e w' => fine w' /\ plain e) w.
Proof.
  intros Hg. unfold filing_time. apply wp_bind, safely_op; [done|]. intros c1 w1 _ Hg1.
  split; [by split; [|apply plain_other]|]. split; [done|]. split; [|by split; [|apply plain_other]].
  apply wp_bind, safely_op; [done|]. intros c2 w2 _ Hg2.
  split; [by split; [|apply plain_other]|]. split; [done|]. split; [|by split; [|apply plain_other]].
  destruct (c_access c2) as [[]|]; [|by split; [|apply plain_http]|done].
  destruct (d_createdAt dto) as [createdAt|]; [|by split; [|apply plain_http]].
  destruct (d_admissionProof dto) as [proof|]; [|by split; [|apply plain_http]].
  destruct (date_parse createdAt) as [claimedAt|]; [|by split; [|apply plain_http]].
  apply wp_bind, safely_query; [done|]. intros w3 _ Hg3. split; [|by split; [|apply plain_other]].
  destruct (List.find _ _); [done | by split; [|apply plain_http]].
Qed.

Lemma writeoff_reason_fine w :
  fine w ->
  safely (writeoff_reason dto)
    (fun r w' => fine w' /\ match r with inl _ => True | inr (t, e) => early_error t e end)
    (fun e w' => fine w' /\ plain e) w.
Proof.
  intros Hg. unfold writeoff_reason. destruct (negb _); [done|].
  destruct (d_writeoffReasonId dto) as [[|c id]|]; [by split; [|split; [|left]] | | by split; [|split; [|left]]].
  apply wp_try, wp_bind, safely_query; [done|]. intros w1 _ Hg1.
  split; [|by split; [|split; [|right]]].
  destruct (active_reason _ _); [done|]. by split; [|split; [|left]].
Qed.

Lemma file_lines_fine employeeId reasonId when w :
  fine w -> safely (file_lines kioskId dto employeeId reasonId when) settled settled_error w.
Proof.
  intros Hg. unfold file_lines.
  apply wp_bind, safely_query; [done|]. intros w1 _ Hg1. split; [|by apply other_settled].
  apply wp_bind, safely_query; [done|]. intros w2 _ Hg2. split; [|by apply other_settled].
  pose proof (resolveItems_spec (kioskAllowlist kioskId (w_db w1)) (catalogue_gtins (w_db w2)) items) as Hs.
  pose proof (resolveItems_good (kioskAllowlist kioskId (w_db w1)) (catalogue_gtins (w_db w2)) items) as Hgd.
  destruct (resolveItems _ _ items) as [conf cand]. destruct Hs as [Hp Hn].
  apply wp_bind. unfold insertOrderWithRetry. rewrite Nat.add_1_r.
  eapply wp_mono.
  - apply (retry_fine src seq items requested vn Hmodern Hlines legacy_no_boxes); [|exact Hg2].
    split; [done | by rewrite app_nil_r | done..].
  - intros out w3 [Hg3 Ha]. cbv beta. destruct (writeoffForbidden out) eqn:Ew; [|by apply result_fine].
    destruct Ha as [(_ & _ & H)|[(Hv & out' & Hr & [(_ & H & _)|(_ & _ & Ht)])|(Hv & _)]]; [congruence|congruence| |].
    + split; [done|]. split; [done|]. split; [done|]. intros _ _ _. exists out'. by rewrite Ht.
    + split; [done|]. split; [done|]. split; [done|]. by rewrite Hv.
  - intros e w3 [Hg3 He]. by apply plain_settled.
  - done.
Qed.

Lemma order_settled out w w1 :
  later w w1 -> findOrderOutcome src seq (w_db w) = Some out -> fine w1 -> settled (result_of out) w1.
Proof.
  intros Hl Ho Hg. split; [done|]. left. exists out. split; [|done].
  eapply order_stays; [apply Hl | exact Ho].
Qed.

Lemma createForDevice_fine w :
  fine w ->
  safely (createForDevice date_parse kioskAdmissionTokenHash kioskOrderPayloadDigest kioskId dto)
    settled settled_error w.
Proof.
  intros Hg. unfold createForDevice.
  apply wp_bind, safely_query; [done|]. intros w1 _ Hg1. split; [|by apply other_settled].
  destruct (findOrderOutcome src seq (w_db w1)) as [out|] eqn:Eo.
  { apply wp_bind, safely_consume; [done | intros w2 _ Hg2; by apply other_settled|].
    intros w2 w3 Hl2 Hg2 Hg3 Hf Hr _. split; [|by apply other_settled]. split; [done|]. left.
    exists out. split; [|done]. rewrite (proj1 (same_facts_finds src seq _ _ Hf Hr)).
    eapply order_stays; [apply Hl2 | exact Eo]. }
  apply wp_bind.
  apply (wp_mono _ _ _ (fun r w' => fine w' /\ match r with
    | Some out => findRejectionOutcome src seq (w_db w') = Some out
    | None => True end) _ settled_error _ (good (filing_entry src seq items requested)));
    [ | | done | done].
  { destruct (vNext _); [|done]. apply safely_query; [done|]. intros w2 _ Hg2.
    split; [|by apply other_settled]. split; [done|]. by destruct (findRejectionOutcome _ _ _). }
  intros [out|] w2 [Hg2 H2].
  { split; [done|]. split; [done|]. split.
    - intros [= H]. by apply (persisted_not_retry out).
    - intros _ _ Hno. by exists out. }
  apply wp_bind. eapply wp_mono; [by apply filing_time_fine | | intros e w' [Hg' He]; by apply plain_settled | done].
  intros when w3 Hg3. apply wp_bind.
  apply (wp_mono _ _ _ (fun _ w' => fine w') _ settled_error _ (good (filing_entry src seq items requested)));
    [ | | done | done].
  { destruct (d_badge dto); [|done]. apply safely_query; [done|]. intros w4 _ Hg4.
    split; [done | by apply other_settled]. }
  intros hash w4 Hg4. apply wp_bind, safely_query; [done|]. intros w5 _ Hg5.
  split; [|by apply other_settled].
  destruct (resolveActiveEmployee _ _ _) as [| |employeeId policy].
  - rewrite (proj2 (Nat.ltb_lt _ _) Hlines). cbv zeta. apply wp_bind, wp_bind, safely_query; [done|].
    intros w6 _ Hg6. split; [|by apply other_settled]. apply reject_early_fine; [done|]. by split; [|left].
  - apply plain_settled; [done | by apply plain_http].
  - destruct (_ && _); [apply reject_early_fine; [done | by split; [|left]]|].
    apply wp_bind. eapply wp_mono; [by apply writeoff_reason_fine | |
      intros e w' [Hg' He]; by apply plain_settled | done].
    intros [reasonId|[t e]] w6 [Hg6 H6]; [by apply file_lines_fine | by apply reject_early_fine].
Qed.
End Create.
End Invariant.

