(* ===== verification/PickupTransitions.v ===== *)
(** * The transitions of a pickup order

    Theorems about [cancel], [resolve] and [applyExternalStatus] of
    [PickupOrders]: whatever fails or happens meanwhile, they are transactions of
    the kind [PickupSafety] lets run beside the filing of orders, they touch one
    order, and only while it is pending. *)

From stdpp Require Import base list strings gmap relations.
From Stdlib Require Import ZArith Lia.
From S2P Require Import Prelude Gs1 Km Dates KioskApi KioskCart Effects BoxFacts PickupLines PickupOrders.
From S2P Require Import PickupSafety.

#[local] Open Scope Z_scope.
#[local] Open Scope prog_scope.

Create HintDb pickup.

Section Transitions.
Context (modern : PickupDocumentSource -> Z -> bool) (cap : jsstr -> option Z).

(** ** Changing the orders one by one *)

Section Each.
Context (f : PickupOrderRow -> PickupOrderRow).
Context (Hsame : forall o, wf_order o -> same_document o (f o)).
Context (Hwf : forall o, wf_order o -> wf_order (f o)).

Lemma each_same l : Forall wf_order l -> Forall2 same_document l (map f l).
Proof. intros Hw. induction Hw as [|o l Ho _ IH]; [constructor|]. constructor; auto. Qed.

Lemma each_field {A} (get : PickupOrderRow -> A) l :
  (forall o o', same_document o o' -> get o' = get o) -> Forall wf_order l ->
  get <$> map f l = get <$> l.
Proof.
  intros Hg Hw. induction Hw as [|o l Ho _ IH]; [done|]. cbn. f_equal; [by apply Hg, Hsame | exact IH].
Qed.

Lemma same_slot o o' : same_document o o' -> order_slot o' = order_slot o.
Proof. intros H. unfold order_slot. by rewrite (sd_seq _ _ H), (sd_source _ _ H). Qed.

Lemma omap_fmap_eq {A B} (g : A -> option B) (l l' : list A) :
  g <$> l = g <$> l' -> omap g l = omap g l'.
Proof.
  revert l'. induction l as [|a l IH]; intros [|b l'] H; [done..|]. cbn in H. injection H as Hg H. cbn.
  rewrite Hg. by rewrite (IH _ H).
Qed.

Lemma each_inv s : inv modern cap s -> inv modern cap (with_orders (map f) s).
Proof.
  intros Hi. pose proof (i_orders _ _ _ Hi) as Hw. pose proof (each_same _ Hw) as Hf.
  split; cbn [orders counter rejections with_orders].
  - rewrite (each_field o_id _ sd_id Hw). apply Hi.
  - apply Hi.
  - pose proof (i_numbers _ _ _ Hi) as Hn. clear -Hn Hf. induction Hf as [|o o' l l' Ho _ IH]; [constructor|].
    apply Forall_cons in Hn as [Hn Hns]. constructor; [|auto].
    by rewrite (sd_number _ _ Ho), (sd_created _ _ Ho).
  - rewrite (each_field o_orderNo _ sd_number Hw). apply Hi.
  - rewrite (omap_fmap_eq order_slot _ (orders s)); [apply Hi|]. by apply (each_field order_slot _ same_slot).
  - eapply sublist_NoDup; [apply (i_open _ _ _ Hi)|]. by apply open_keys_same.
  - clear -Hw Hwf. induction Hw as [|o l Ho _ IH]; constructor; auto.
  - apply Hi.
  - intros r Hr Hm. pose proof (i_modern _ _ _ Hi r Hr Hm) as H. destruct (rj_orderId r).
    + destruct H as (o & Ho & Hs). exists (f o). split; [apply list_elem_of_In, in_map; by apply list_elem_of_In|].
      rewrite <- Hs. apply same_slot, Hsame. by apply (proj1 (Forall_forall _ _) Hw).
    + destruct H as [Hmk Hno]. split; [done|]. intros o' Ho'%list_elem_of_In.
      apply in_map_iff in Ho' as (o & <- & Ho%list_elem_of_In).
      rewrite (same_slot o); [by apply Hno|]. apply Hsame. by apply (proj1 (Forall_forall _ _) Hw).
  - intros e D HD. pose proof (i_cap _ _ _ Hi e D HD) as [Hp Hc]. split; [exact Hp|].
    intros when. etrans; [|apply (Hc when)]. by apply (count_same modern cap).
Qed.

Lemma each_step L s : inv modern cap s -> step_ok modern cap L s (with_orders (map f) s).
Proof.
  intros Hi. split.
  - apply each_inv.
  - exists (map f (orders s)), []. rewrite app_nil_r. split_and!; [done | apply each_same, Hi | done].
  - exists []. by rewrite app_nil_r.
  - by right.
Qed.
End Each.

(** ** The changes *)

Lemma with_status_same status receipt act wr resolved o :
  o_status o = Pending -> same_document o (with_status status receipt act wr resolved o).
Proof. intros Hs. split; try done; by destruct (o_status o). Qed.

(** A pending order gets a final status; a cancelled one loses its codes. *)
Lemma with_status_wf status receipt act wr resolved o :
  wf_order o -> o_status o = Pending -> status <> Cancelled ->
  wf_order (with_status status receipt act wr resolved o).
Proof.
  intros [Hn Hv Hk Hb Hw Hx] Hs Hc. split; try done. cbn. rewrite (bool_decide_eq_false_2 (status = Cancelled)) by done.
  rewrite Hs in Hv. exact Hv.
Qed.

Lemma void_same o : same_document o (with_items void_item o).
Proof.
  split; try done. cbn. induction (o_items o) as [|i l IH]; [constructor|]. constructor; [by right | exact IH].
Qed.

Lemma void_cancelled_wf o : wf_order o -> wf_order (with_items void_item (cancelled_row o)).
Proof.
  intros [Hn Hv Hk Hb Hw Hx]. split; cbn; rewrite ?length_map.
  - done.
  - apply Forall_forall. intros i Hi%list_elem_of_In. by apply in_map_iff in Hi as (j & <- & _).
  - change (map void_item (o_items o)) with (void_item <$> o_items o). by rewrite <- list_fmap_compose.
  - done.
  - eapply Forall_impl; [exact Hw|]. intros b [Hpos Hb2]. split; [exact Hpos|].
    rewrite <- Hb2. apply f_equal.
    clear. induction (o_items o) as [|i l IH]; [done|]. cbn. case_match; cbn; [by f_equal | done].
  - done.
Qed.

(** The order a change is about, while it is pending. *)
Definition hit (id : jsstr) (o : PickupOrderRow) : bool :=
  jseqb (o_id o) id && bool_decide (o_status o = Pending).

Lemma hit_pending id o : hit id o = true -> o_id o = id /\ o_status o = Pending.
Proof. intros [Hi%jseqb_eq Hs%bool_decide_eq_true]%andb_true_iff. done. Qed.

(** What a commit may be: one pending order gets a final status. *)
Definition transition_entry (id : jsstr) (s s' : Pickup) : Prop :=
  rejections s' = rejections s
  /\ Forall2 (fun o o' => o' = o \/ o_id o = id /\ o_status o = Pending /\ o_status o' <> Pending
                          /\ same_document o o') (orders s) (orders s').

Section Change.
Context (id : jsstr) (f : PickupOrderRow -> PickupOrderRow).
Context (Hsame : forall o, wf_order o -> o_status o = Pending -> same_document o (f o)).
Context (Hwf : forall o, wf_order o -> o_status o = Pending -> wf_order (f o)).
Context (Hfinal : forall o, o_status (f o) <> Pending).

Definition change (o : PickupOrderRow) : PickupOrderRow := if hit id o then f o else o.

Lemma change_step L s : inv modern cap s -> step_ok modern cap L s (with_orders (map change) s).
Proof.
  intros Hi. apply each_step; [| |done]; intros o Ho; unfold change;
    (destruct (hit id o) eqn:E; [apply hit_pending in E as [_ E]; auto | done]).
Qed.

Lemma change_entry s : inv modern cap s -> transition_entry id s (with_orders (map change) s).
Proof.
  intros Hi. split; [done|]. cbn. pose proof (i_orders _ _ _ Hi) as Hw.
  induction Hw as [|o l Ho _ IH]; [constructor|]. constructor; [|exact IH]. unfold change.
  destruct (hit id o) eqn:E; [|by left]. apply hit_pending in E as [E1 E2]. right. auto.
Qed.

(** The order afterwards. *)
Lemma change_find s o :
  find_order id s = Some o -> hit id o = true -> wf_order o ->
  find_order id (with_orders (map change) s) = Some (f o).
Proof.
  unfold find_order. cbn. intros Hf Hh Hw. induction (orders s) as [|p l IH]; [done|]. cbn in *.
  destruct (jseqb (o_id p) id) eqn:E.
  - injection Hf as ->. unfold change at 1. rewrite Hh. apply hit_pending in Hh as [_ Hs].
    rewrite (sd_id _ _ (Hsame o Hw Hs)), E. unfold change. unfold hit. rewrite E, Hs. done.
  - assert (change p = p) as -> by (unfold change, hit; by rewrite E). rewrite E. by apply IH.
Qed.
End Change.

(** ** The guarded updates *)

Lemma update_pending_eq id f s :
  update_pending id f s = (existsb (hit id) (orders s), with_orders (map (change id f)) s).
Proof. done. Qed.

Lemma change_none id f s : existsb (hit id) (orders s) = false -> orders (with_orders (map (change id f)) s) = orders s.
Proof.
  intros H. cbn. transitivity (map (fun o => o) (orders s)); [|apply map_id]. apply map_ext_in.
  intros o Ho%list_elem_of_In. unfold change. by rewrite (proj1 (existsb_false _ _) H o Ho).
Qed.

Definition cancelled_order (o : PickupOrderRow) : PickupOrderRow := with_items void_item (cancelled_row o).

Lemma cancelled_same o : wf_order o -> o_status o = Pending -> same_document o (cancelled_order o).
Proof. intros _ Hs. etrans; [by apply (with_status_same Cancelled) | apply void_same]. Qed.

Lemma cancel_writes_eq id s :
  inv modern cap s ->
  cancel_writes id s = if existsb (hit id) (orders s)
                       then (true, with_orders (map (change id cancelled_order)) s) else (false, s).
Proof.
  intros Hi. unfold cancel_writes. rewrite update_pending_eq. destruct (existsb (hit id) (orders s)) eqn:E; [|done].
  f_equal. unfold void_items, with_orders at 1 2. cbn. unfold with_orders. f_equal. rewrite map_map.
  apply existsb_exists in E as (o & Ho & Hh). apply list_elem_of_In in Ho.
  apply map_ext_in. intros p Hp%list_elem_of_In. unfold change. destruct (hit id p) eqn:Ep.
  - apply hit_pending in Ep as [<- _]. cbn. by rewrite jseqb_refl.
  - destruct (jseqb (o_id p) id) eqn:Eid; [|done]. apply jseqb_eq in Eid.
    apply hit_pending in Hh as [Hid Hs].
    assert (p = o) as ->; [|unfold hit in Ep; by rewrite Hid, jseqb_refl, Hs in Ep].
    destruct (proj1 (list_elem_of_lookup _ _) Hp) as [i Hlp], (proj1 (list_elem_of_lookup _ _) Ho) as [j Hlo].
    assert (i = j) as <-; [|congruence].
    apply (NoDup_lookup _ i j id (i_ids _ _ _ Hi)); rewrite list_lookup_fmap; [rewrite Hlp | rewrite Hlo];
      cbn; congruence.
Qed.

(** A code of one order is not an open code of another. *)
Lemma bind_disjoint {A B} (g : A -> list B) l a b x :
  NoDup (l ≫= g) -> a ∈ l -> b ∈ l -> x ∈ g a -> x ∈ g b -> a = b.
Proof.
  intros Hn Ha Hb Hxa Hxb. induction l as [|c l IH]; [by apply elem_of_nil in Ha|].
  cbn in Hn. apply NoDup_app in Hn as (_ & Hd & Hn).
  assert (Hin : forall d, d ∈ l -> x ∈ g d -> x ∈ l ≫= g)
    by (intros d ? ?; apply list_elem_of_bind; by exists d).
  apply elem_of_cons in Ha as [->|Ha], Hb as [->|Hb]; [done | | | by apply IH].
  - destruct (Hd x Hxa). by apply (Hin b).
  - destruct (Hd x Hxb). by apply (Hin a).
Qed.

Lemma pending_open o : wf_order o -> o_status o = Pending -> open_items o = o_items o.
Proof.
  intros Hw Hs. apply filter_every. eapply Forall_impl; [apply (wo_voided _ Hw)|].
  intros i ->. by rewrite Hs.
Qed.

Lemma voided_closed o : open_items (cancelled_order o) = [].
Proof.
  apply filter_none. cbn. apply Forall_forall. intros i Hi%list_elem_of_In.
  by apply in_map_iff in Hi as (j & <- & _).
Qed.

Lemma cancelled_frees id s o key :
  inv modern cap s -> o ∈ orders s -> hit id o = true -> key ∈ oi_kmKey <$> o_items o ->
  key ∉ open_keys (with_orders (map (change id cancelled_order)) s).
Proof.
  intros Hi Ho Hh Hk Hin. unfold open_keys in Hin. cbn in Hin.
  apply list_elem_of_bind in Hin as (p' & Hp' & Hin%list_elem_of_In).
  apply in_map_iff in Hin as (p & <- & Hp%list_elem_of_In). unfold change in Hp'.
  destruct (hit id p) eqn:E.
  - rewrite voided_closed in Hp'. by apply elem_of_nil in Hp'.
  - assert (Hwf := proj1 (Forall_forall _ _) (i_orders _ _ _ Hi) o Ho).
    apply hit_pending in Hh as Hh'. destruct Hh' as [_ Hs].
    assert (p = o) as ->; [|congruence].
    refine (bind_disjoint _ _ p o key (i_open _ _ _ Hi) Hp Ho Hp' _). by rewrite (pending_open o Hwf Hs).
Qed.

(** ** The programs *)

Section Order.
Context (id : jsstr).

Abbreviation fine w := (good modern cap (transition_entry id) w).
Abbreviation safely p Q X w :=
  (wp perform (honest modern cap) p Q X (good modern cap (transition_entry id)) w).

(** No commit changed an order. *)
Definition untouched (w : World) : Prop :=
  Forall (fun e => orders (lg_after e) = orders (lg_before e)) (w_log w).

Definition expected (h : http_error) : Prop :=
  h = NotFound \/ h = OnlyWhilePending \/ h = WriteoffReasonRequiredError \/ h = UnknownWriteoffReason.

Definition failed (e : thrown) (w : World) : Prop :=
  fine w /\ match e with Db d => d = OtherDbError | Http h => untouched w /\ expected h end.

Lemma failed_db w : fine w -> failed (Db OtherDbError) w.
Proof. done. Qed.

Lemma untouched_later w w1 : later modern cap w w1 -> untouched w -> untouched w1.
Proof. unfold untouched. intros H. by rewrite (lt_log _ _ _ _ H). Qed.

(** [f] makes the change [g] of the order while it is pending, or nothing. *)
Definition guarded (f : Pickup -> bool * Pickup) (g : PickupOrderRow -> PickupOrderRow) : Prop :=
  forall s, inv modern cap s ->
  if existsb (hit id) (orders s) then f s = (true, with_orders (map (change id g)) s)
  else exists s', f s = (false, s') /\ same_facts s s' /\ rejections s' = rejections s.

Lemma safely_update f g (P : Pickup -> Prop) (Q : bool -> World -> Prop) (E : thrown -> World -> Prop) w :
  (forall o, wf_order o -> o_status o = Pending -> same_document o (g o)) ->
  (forall o, wf_order o -> o_status o = Pending -> wf_order (g o)) ->
  (forall o, o_status (g o) <> Pending) ->
  guarded f g ->
  (forall s, inv modern cap s -> existsb (hit id) (orders s) = true ->
     P (with_orders (map (change id g)) s)) ->
  fine w -> untouched w ->
  (forall w2, fine w2 -> P (w_db w2) -> Q true w2) ->
  (forall w2, fine w2 -> untouched w2 -> Q false w2) ->
  (forall w2, fine w2 -> E (Db OtherDbError) w2) ->
  safely (update f) Q E w.
Proof.
  intros Hs Hw Hfin Hf HP Hg Hu HQt HQf HE. apply safely_commit; [done|]. intros w1 oid Hl Hg1.
  split; [by apply HE|]. pose proof (proj1 Hg1) as Hi. specialize (Hf (w_db w1) Hi).
  destruct (existsb (hit id) (orders (w_db w1))) eqn:Eh.
  - rewrite Hf. split_and!; [by apply change_step | by apply change_entry|]. intros Hg2.
    split; [|by apply HE]. apply HQt; [done|]. by apply HP.
  - destruct Hf as (s' & -> & Hsf & Hr). split_and!; [by apply quiet_step | |].
    + split; [done|]. rewrite (sf_orders _ _ Hsf). clear. induction (orders (w_db w1)); constructor; [by left | done].
    + intros Hg2. split; [|by apply HE]. apply HQf; [done|]. apply Forall_app.
      split; [by apply (untouched_later w)|]. apply Forall_singleton, Hsf.
Qed.

Lemma pending_update f : guarded (update_pending id f) f.
Proof.
  intros s Hi. rewrite update_pending_eq. destruct (existsb (hit id) (orders s)) eqn:E; [done|].
  eexists. split; [done|]. split; [|done]. split; [by apply change_none | done..].
Qed.

Lemma cancel_update : guarded (cancel_writes id) cancelled_order.
Proof.
  intros s Hi. rewrite cancel_writes_eq by done. destruct (existsb (hit id) (orders s)) eqn:E; [done|].
  by exists s.
Qed.

(** The order after a change. *)
Lemma changed_found g s :
  (forall o, wf_order o -> o_status o = Pending -> same_document o (g o)) ->
  inv modern cap s -> existsb (hit id) (orders s) = true ->
  exists o, o ∈ orders s /\ hit id o = true /\ find_order id (with_orders (map (change id g)) s) = Some (g o).
Proof.
  intros Hs Hi (o & Ho%list_elem_of_In & Hh)%existsb_exists. exists o. split_and!; [done..|].
  pose proof (proj1 (Forall_forall _ _) (i_orders _ _ _ Hi) o Ho) as Hw.
  apply change_find; [done | | done | done].
  unfold find_order. apply hit_pending in Hh as [Hid _].
  pose proof (i_ids _ _ _ Hi) as Hn. clear -Ho Hid Hn. induction (orders s) as [|p l IH]; [by apply elem_of_nil in Ho|].
  cbn. apply NoDup_cons in Hn as [Hp Hn]. destruct (jseqb (o_id p) id) eqn:E.
  - apply jseqb_eq in E. apply elem_of_cons in Ho as [->|Ho]; [done|]. destruct Hp. rewrite E, <- Hid.
    by apply list_elem_of_fmap_2.
  - apply jseqb_neq in E. apply elem_of_cons in Ho as [->|Ho]; [done | by apply IH].
Qed.

(** What a cancelled order leaves. *)
Definition cancelled_in (s : Pickup) : Prop :=
  exists o, find_order id s = Some o /\ o_status o = Cancelled
    /\ forall key, key ∈ oi_kmKey <$> o_items o -> key ∉ open_keys s.

Lemma cancelled_after s :
  inv modern cap s -> existsb (hit id) (orders s) = true ->
  cancelled_in (with_orders (map (change id cancelled_order)) s).
Proof.
  intros Hi Hh. destruct (changed_found _ s cancelled_same Hi Hh) as (o & Ho & Hho & Hf).
  exists (cancelled_order o). split_and!; [done..|]. intros key Hk.
  apply (cancelled_frees id s o key Hi Ho Hho). cbn in Hk.
  change (map void_item (o_items o)) with (void_item <$> o_items o) in Hk.
  by rewrite <- list_fmap_compose in Hk.
Qed.

Lemma cancel_update_safely (Q : bool -> World -> Prop) (E : thrown -> World -> Prop) w :
  fine w -> untouched w ->
  (forall w2, fine w2 -> cancelled_in (w_db w2) -> Q true w2) ->
  (forall w2, fine w2 -> untouched w2 -> Q false w2) ->
  (forall w2, fine w2 -> E (Db OtherDbError) w2) ->
  safely (update (cancel_writes id)) Q E w.
Proof.
  intros Hg Hu HQt HQf HE. apply (safely_update _ cancelled_order cancelled_in); try done.
  - apply cancelled_same.
  - intros o Hw _. by apply void_cancelled_wf.
  - exact cancel_update.
  - exact cancelled_after.
Qed.

Lemma cancel_fine w :
  fine w -> untouched w -> safely (cancel id) (fun _ w' => fine w' /\ cancelled_in (w_db w')) failed w.
Proof.
  intros Hg Hu. unfold cancel. apply wp_try.
  eapply (wp_mono _ _ _ (fun _ w' => fine w' /\ cancelled_in (w_db w')) _ failed);
    [ | done | | done].
  - apply wp_bind, safely_query; [done|]. intros w1 Hl1 Hg1. split; [|by apply failed_db].
    pose proof (untouched_later _ _ Hl1 Hu) as Hu1.
    destruct (status_of id (w_db w1)) as [st|]; [|split_and!; [done | done | by left]].
    destruct (negb _); [split_and!; [done | done | by right; left]|].
    apply wp_bind, cancel_update_safely; [done | done | done | | by apply failed_db].
    intros w2 Hg2 Hu2. split_and!; [done | done | by right; left].
  - intros e w1 [Hg1 He]. apply wp_bind, wp_try, safely_rollback; [done|]. intros w2 Hl2 Hg2.
    assert (Hf : forall w3, fine w3 -> w_log w3 = w_log w1 -> failed e w3).
    { intros w3 Hg3 Hlog. split; [done|]. destruct e; [|done]. unfold untouched. by rewrite Hlog. }
    pose proof (lt_log _ _ _ _ Hl2). split_and!; by apply Hf.
Qed.

(** A pending order that gets a final status other than a cancellation. *)
Lemma close_update_safely status receipt act wr resolved (f : PickupOrderRow -> PickupOrderRow)
    (P : PickupOrderRow -> Prop) (Q : bool -> World -> Prop) (E : thrown -> World -> Prop) w :
  (forall o, f o = with_status status (receipt o) (act o) (wr o) (resolved o) o) ->
  status <> Cancelled -> status <> Pending -> (forall o, P (f o)) ->
  fine w -> untouched w ->
  (forall w2, fine w2 -> (exists o, find_order id (w_db w2) = Some o /\ P o) -> Q true w2) ->
  (forall w2, fine w2 -> untouched w2 -> Q false w2) ->
  (forall w2, fine w2 -> E (Db OtherDbError) w2) ->
  safely (update (update_pending id f)) Q E w.
Proof.
  intros Hf Hc Hp HP Hg Hu HQt HQf HE.
  apply (safely_update _ f (fun s => exists o, find_order id s = Some o /\ P o)); try done.
  - intros o _ Hs. rewrite Hf. by apply with_status_same.
  - intros o Hw Hs. rewrite Hf. by apply with_status_wf.
  - intros o. by rewrite Hf.
  - apply pending_update.
  - intros s Hi Hh.
    assert (Hs : forall o, wf_order o -> o_status o = Pending -> same_document o (f o))
      by (intros o _ Hs; rewrite Hf; by apply with_status_same).
    destruct (changed_found f s Hs Hi Hh) as (o & _ & _ & Ho). by exists (f o).
Qed.

Definition resolved_as (action : ResolveAction) (userId : jsstr) (o : PickupOrderRow) : Prop :=
  o_resolvedByUserId o = Some userId /\
  match action with
  | Punch receiptNo => o_status o = Punched /\ o_receiptNo o = receiptNo
  | WriteOff actNo supplied => o_status o = Writtenoff /\ o_actNo o = actNo
      /\ is_Some (o_writeoffReasonId o) /\ (is_Some supplied -> o_writeoffReasonId o = supplied)
  end.

Lemma failed_http w h : fine w -> untouched w -> expected h -> failed (Http h) w.
Proof. done. Qed.

Lemma not_found_expected : expected NotFound.
Proof. by left. Qed.
Lemma only_pending_expected : expected OnlyWhilePending.
Proof. by right; left. Qed.
Lemma reason_required_expected : expected WriteoffReasonRequiredError.
Proof. by right; right; left. Qed.
Lemma unknown_reason_expected : expected UnknownWriteoffReason.
Proof. by right; right; right. Qed.
#[local] Hint Resolve not_found_expected only_pending_expected reason_required_expected
  unknown_reason_expected failed_http failed_db : pickup.

Lemma resolve_fine action userId w :
  fine w -> untouched w ->
  safely (resolve id action userId)
    (fun _ w' => fine w' /\ exists o, find_order id (w_db w') = Some o /\ resolved_as action userId o) failed w.
Proof.
  intros Hg Hu. unfold resolve. apply wp_bind, safely_query; [done|]. intros w1 Hl1 Hg1.
  split; [|by apply failed_db]. pose proof (untouched_later _ _ Hl1 Hu) as Hu1.
  destruct (find_order id (w_db w1)) as [order|]; [|apply failed_http; auto with pickup].
  destruct (negb _); [apply failed_http; auto with pickup|].
  apply wp_bind, safely_op; [done|]. intros c w2 Hl2 Hg2.
  pose proof (untouched_later _ _ Hl2 Hu1) as Hu2.
  split; [by apply failed_db|]. cbn [effect]. split; [done|]. split; [|by apply failed_db].
  set (Q (done_ : bool) w' := fine w' /\ if done_ then exists o, find_order id (w_db w') = Some o
    /\ resolved_as action userId o else untouched w').
  apply wp_bind, (wp_mono _ _ _ Q _ failed _ (good modern cap (transition_entry id)));
    [ | intros [|] w' [Hg' H]; [done | apply failed_http; auto with pickup] | done | done].
  destruct action as [receiptNo|actNo supplied].
  - eapply close_update_safely with (P := resolved_as (Punch receiptNo) userId) (status := Punched);
      [by intros o | done..|]. done.
  - destruct (match supplied with Some r => Some r | None => o_writeoffReasonId order end) as [reasonId|] eqn:Er;
      [|apply failed_http; auto with pickup].
    apply wp_bind, (wp_mono _ _ _ (fun _ w' => fine w' /\ untouched w') _ failed _
      (good modern cap (transition_entry id))); [ | | done | done].
    { destruct supplied; [|done]. apply safely_query; [done|]. intros w3 Hl3 Hg3. split; [|by apply failed_db].
      split; [done | by apply (untouched_later w2)]. }
    intros [|] w3 [Hg3 Hu3]; [|apply failed_http; auto with pickup].
    eapply close_update_safely with (P := resolved_as (WriteOff actNo supplied) userId) (status := Writtenoff);
      [by intros o | done | done | | done..].
    intros o. split_and!; try done. intros [r ->]. by injection Er as ->.
Qed.

Definition applied_as (status : PickupOrderStatus) (s : Pickup) : Prop :=
  (exists o, find_order id s = Some o /\ o_status o = status) /\ (status = Cancelled -> cancelled_in s).

Lemma applyExternalStatus_fine status w :
  fine w -> untouched w -> status <> Pending ->
  safely (applyExternalStatus id status)
    (fun r w' => fine w' /\ match r with Applied => applied_as status (w_db w') | _ => untouched w' end)
    failed w.
Proof.
  intros Hg Hu Hst. unfold applyExternalStatus. apply wp_bind, safely_query; [done|]. intros w1 Hl1 Hg1.
  split; [|by apply failed_db]. pose proof (untouched_later _ _ Hl1 Hu) as Hu1.
  destruct (find_order id (w_db w1)) as [order|]; [|done]. destruct (negb _); [done|].
  set (Q (done_ : bool) w' := fine w' /\ if done_ then applied_as status (w_db w') else untouched w').
  case_bool_decide as Hc.
  - apply wp_bind, (wp_mono _ _ _ Q _ failed _ (good modern cap (transition_entry id)));
      [ | by intros [|] w' H | done | done].
    apply wp_try. eapply (wp_mono _ _ _ Q _ (fun e w' => fine w' /\ e = Db OtherDbError));
      [ | done | | done].
    + apply cancel_update_safely; [done | done | | done | done]. intros w2 Hg2 H2. split; [done|].
      split; [|done]. destruct H2 as (o & Ho & Hs & _). exists o. by rewrite Hs.
    + intros e w2 [Hg2 ->]. apply wp_bind, wp_try, safely_rollback; [done|]. intros w3 _ Hg3. by split_and!.
  - destruct (_ && _); [done|]. apply wp_bind, safely_op; [done|]. intros c w2 Hl2 Hg2.
    pose proof (untouched_later _ _ Hl2 Hu1) as Hu2.
    split; [by apply failed_db|]. cbn [effect]. split; [done|]. split; [|by apply failed_db].
    apply wp_bind, (wp_mono _ _ _ Q _ failed _ (good modern cap (transition_entry id)));
      [ | by intros [|] w' H | done | done].
    assert (Hfin : forall w2, fine w2 ->
      (exists o, find_order id (w_db w2) = Some o /\ o_status o = status) -> Q true w2)
      by (intros w' Hg' H; by split; [|split]).
    destruct status; [done | | | done].
    + eapply close_update_safely with (P := fun o => o_status o = Punched) (status := Punched);
        [by intros o | done..].
    + eapply close_update_safely with (P := fun o => o_status o = Writtenoff) (status := Writtenoff);
        [by intros o | done..].
Qed.
End Order.

(** ** What the transitions guarantee *)

(** The programs that change the order [id], and what they promise of the tables
    when they return. *)
Inductive transition (id : jsstr) : forall A : Type, handler A -> (A -> Pickup -> Prop) -> Prop :=
| T_cancel : transition id unit (cancel id) (fun _ => cancelled_in id)
| T_resolve action userId :
    transition id unit (resolve id action userId)
      (fun _ s => exists o, find_order id s = Some o /\ resolved_as action userId o)
| T_external status :
    status <> Pending ->
    transition id ApplyExternalStatusOutcome (applyExternalStatus id status)
      (fun r s => match r with Applied => applied_as id status s | _ => True end).

Lemma transition_fine id A (p : handler A) Q w :
  transition id A p Q -> good modern cap (transition_entry id) w -> untouched w ->
  wp perform (honest modern cap) p
    (fun r w' => good modern cap (transition_entry id) w' /\ Q r (w_db w')) (failed id)
    (good modern cap (transition_entry id)) w.
Proof.
  intros [|action userId|status Hs] Hg Hu.
  - by apply cancel_fine.
  - by apply resolve_fine.
  - eapply wp_mono; [by apply applyExternalStatus_fine | | done | done]. intros [] w' [H1 H2]; by split.
Qed.

(** C18: whatever fails or happens meanwhile, cancelling an order, resolving it or
    taking the status of an accounting system leaves the tables in order: each
    commit gives at most one order a final status, the one named and only while it
    is pending; a refusal changes no order, and one that returns has done what it
    says (a cancelled order has no open code left). *)
Theorem transitions_one_order id A (p : handler A) Q w cs :
  transition id A p Q -> inv modern cap (w_db w) -> w_log w = [] -> Forall (honest modern cap) cs ->
  let '(answer, _, w') := run perform p cs w in
  inv modern cap (w_db w')
  /\ Forall (fun e => step_ok modern cap (lg_locks e) (lg_before e) (lg_after e)
       /\ transition_entry id (lg_before e) (lg_after e)) (w_log w')
  /\ match answer with
     | Done r => Q r (w_db w')
     | Failed (Http h) => expected h
         /\ Forall (fun e => orders (lg_after e) = orders (lg_before e)) (w_log w')
     | Failed (Db d) => d = OtherDbError
     | Died => True
     end.
Proof.
  intros Ht Hi Hl Hcs.
  assert (Hg : good modern cap (transition_entry id) w) by (split; [done | by rewrite Hl]).
  assert (Hu : untouched w) by (unfold untouched; by rewrite Hl).
  pose proof (wp_sound perform _ _ _ _ _ _ cs (transition_fine id A p Q w Ht Hg Hu) Hcs) as H.
  destruct (run perform p cs w) as [[[r|[h|d]|] cs'] w'].
  - destruct H as [[? ?] ?]. by split_and!.
  - destruct H as [[? ?] [? ?]]. by split_and!.
  - destruct H as [[? ?] ?]. by split_and!.
  - destruct H as [? ?]. by split_and!.
Qed.
End Transitions.
