(* ===== verification/PickupBound.v ===== *)
(** * Filing a pickup order ends

    However the database answers, fails, or changes meanwhile, [createForDevice]
    of [PickupOrders] ends within a number of operations that the size of the
    request bounds, and its retries are never exhausted: each one that is lost to
    another order gives up a code or a box.  Nothing is assumed here of the
    tables, or of what others do to them. *)

From stdpp Require Import base list strings gmap.
From Stdlib Require Import ZArith Lia.
From S2P Require Import Prelude Gs1 Km Dates KioskApi KioskCart Effects BoxFacts PickupLines PickupOrders.
From S2P Require Import PickupSafety.

#[local] Open Scope Z_scope.
#[local] Open Scope prog_scope.

(** ** Programs that end *)

(** The process lives. *)
Definition alive (c : choice) : Prop := c_fate c <> DiesBefore /\ c_fate c <> DiesAfter.

(** [p] ends within [n] operations, with a result that meets [Q] or an exception
    that meets [X]. *)
Definition ends {Y A} (p : prog sql db_error Y A) (n : nat) (Q : A -> Prop) (X : Y -> Prop) : Prop :=
  forall w m, twp perform alive p (n + m) (fun k a _ => (m <= k)%nat /\ Q a)
                (fun k e _ => (m <= k)%nat /\ X e) w.

Section Ends.
Context {X : Type}.

Lemma ends_ret {A} (a : A) (Q : A -> Prop) (E : X -> Prop) : Q a -> ends (Ret a) 0 Q E.
Proof. intros H w m. by split. Qed.

Lemma ends_raise {A} (e : X) (Q : A -> Prop) (E : X -> Prop) : E e -> ends (Raise e) 0 Q E.
Proof. intros H w m. by split. Qed.

Lemma ends_more {A} (p : prog sql db_error X A) n n' (Q : A -> Prop) (E : X -> Prop) :
  ends p n Q E -> (n <= n')%nat -> ends p n' Q E.
Proof.
  intros Hp Hn w m. replace (n' + m)%nat with (n + ((n' - n) + m))%nat by lia.
  eapply twp_mono; [apply Hp| |]; intros k a w' [? ?]; (split; [lia | done]).
Qed.

Lemma ends_mono {A} (p : prog sql db_error X A) n (Q Q' : A -> Prop) (E E' : X -> Prop) :
  ends p n Q E -> (forall a, Q a -> Q' a) -> (forall e, E e -> E' e) -> ends p n Q' E'.
Proof.
  intros Hp HQ HE w m. eapply twp_mono; [apply Hp| |]; intros k a w' [? ?]; auto.
Qed.

Lemma ends_bind {A B} (p : prog sql db_error X A) (f : A -> prog sql db_error X B) n n' P
    (Q : B -> Prop) (E : X -> Prop) :
  ends p n P E -> (forall a, P a -> ends (f a) n' Q E) -> ends (bind p f) (n + n') Q E.
Proof.
  intros Hp Hf w m. apply twp_bind. rewrite <- Nat.add_assoc.
  eapply twp_mono; [apply Hp| |].
  - intros k a w' [Hk Ha]. replace k with (n' + (k - n'))%nat by lia.
    eapply twp_mono; [apply Hf, Ha| |]; intros j b w'' [? ?]; (split; [lia | done]).
  - intros k e w' [? ?]. split; [lia | done].
Qed.

Lemma ends_try {Y A} (p : prog sql db_error X A) (h : X -> prog sql db_error Y A) n n'
    (P : X -> Prop) (Q : A -> Prop) (E : Y -> Prop) :
  ends p n Q P -> (forall e, P e -> ends (h e) n' Q E) -> ends (try_catch p h) (n + n') Q E.
Proof.
  intros Hp Hh w m. apply twp_try. rewrite <- Nat.add_assoc.
  eapply twp_mono; [apply Hp| |].
  - intros k a w' [? ?]. split; [lia | done].
  - intros k e w' [Hk He]. replace k with (n' + (k - n'))%nat by lia.
    eapply twp_mono; [apply Hh, He| |]; intros j b w'' [? ?]; (split; [lia | done]).
Qed.

Lemma ends_op {R} (thrown : db_error -> X) (o : sql R) (Q : R -> Prop) (E : X -> Prop) :
  (forall c w, match (effect o c w).1 with inl r => Q r | inr _ => True end) ->
  (forall e, E (thrown e)) -> ends (call_as thrown o) 1 Q E.
Proof.
  intros HQ HE w m. apply twp_call. intros c [H1 H2]. unfold perform.
  set (w1 := {| w_db := _; w_locks := _; w_log := _ |}). specialize (HQ c w1).
  destruct (c_fate c); try done; destruct (effect o c w1) as [[r|e] w2]; by split.
Qed.

Lemma ends_any {R} (thrown : db_error -> X) (o : sql R) (E : X -> Prop) :
  (forall e, E (thrown e)) -> ends (call_as thrown o) 1 (fun _ => True) E.
Proof. intros HE. apply ends_op; [|done]. intros c w. by destruct (effect o c w).1. Qed.

Lemma ends_query {R} (thrown : db_error -> X) (q : Pickup -> R) (Q : R -> Prop) (E : X -> Prop) :
  (forall s, Q (q s)) -> (forall e, E (thrown e)) -> ends (call_as thrown (Query q)) 1 Q E.
Proof. intros HQ HE. apply ends_op; [|done]. intros c w. apply HQ. Qed.

(** An operation, and the rest. *)
Lemma ends_then {A B} (p : prog sql db_error X A) (f : A -> prog sql db_error X B) n Q (E : X -> Prop) :
  ends p 1 (fun _ => True) E -> (forall a, ends (f a) n Q E) -> ends (bind p f) (S n) Q E.
Proof. intros Hp Hf. apply (ends_bind _ _ 1 n (fun _ => True)); [done | auto]. Qed.

Lemma ends_run {A} (p : prog sql db_error X A) n (Q : A -> Prop) (E : X -> Prop) cs w :
  ends p n Q E -> Forall alive cs -> (n <= length cs)%nat ->
  match (run perform p cs w).1.1 with Done a => Q a | Failed e => E e | Died => False end.
Proof.
  intros Hp Hcs Hn. pose proof (twp_sound perform alive p _ _ (n + 0) w cs (Hp w 0%nat) Hcs ltac:(lia)) as H.
  destruct (run perform p cs w) as [[[a|e|] cs'] w']; cbn; [| |done]; by destruct H as (k & _ & _ & H).
Qed.
End Ends.

Lemma ends_transaction {X A} (p : prog sql db_error X A) n (Q : A -> Prop) (E : X -> Prop) :
  ends p n Q E -> ends (transaction p) (n + 1) Q E.
Proof.
  intros Hp. apply (ends_try _ _ n 1 E); [done|]. intros e He.
  apply (ends_bind _ _ 1 0 (fun _ => True)); [|intros _ _; by apply ends_raise].
  apply (ends_try _ _ 1 0 (fun _ => True)); [by apply ends_any|]. intros _ _. by apply ends_raise.
Qed.

(** ** One attempt *)

Definition not_exhausted (e : thrown) : Prop := e <> Http RetryExhausted.

Section Attempt.
Context (src : PickupDocumentSource) (emp : jsstr) (reason : Reason) (wr : option jsstr) (seq when : Z)
  (rawItems requestedBoxes : list jsstr) (vn : bool).

Section Turn.
Context (remaining : list ResolvedItem) (accC : list OrderConflict) (remBoxes : list jsstr)
  (accB : list BoxConflict).
Context (Hkeys : NoDup (item_keys remaining)).

(** What an attempt was about to insert: lines that remain, each box once. *)
Definition among (e : thrown * (list ResolvedItem * list ResolvedOrderBox)) : Prop :=
  let '(error, (loose, taken)) := e in
  not_exhausted error /\ sublist loose remaining /\ NoDup (box_texts taken) /\ box_texts taken ⊆ remBoxes.

Lemma among_none error : not_exhausted error -> among (error, ([], [])).
Proof.
  intros He. split_and!; [done | apply sublist_nil_l | constructor | apply list_subseteq_nil].
Qed.

Lemma among_db e : among (Db e, ([], [])).
Proof. by apply among_none. Qed.

Lemma plan_among policy resolved used n error :
  not_exhausted error -> Forall wf_box resolved.1 -> coherent resolved.1 -> box_texts resolved.1 ⊆ remBoxes ->
  let plan := make_plan reason remaining accC accB policy resolved used n in
  among (error, (pn_loose plan, pn_boxes plan)).
Proof.
  intros He Hw Hc Hsub plan.
  pose proof (make_plan_spec reason remaining accC accB policy resolved used n Hkeys Hw) as Hp.
  fold plan in Hp. split_and!; [done | apply Hp | |].
  - apply distinct_box_ids.
    + eapply Forall_sublist; [apply Hp | done].
    + pose proof (ps_distinct _ _ _ _ _ _ _ _ _ Hp) as Hd. by apply NoDup_app in Hd as (_ & _ & Hd).
    + eapply coherent_sublist; [apply Hp | done].
  - intros t Ht. apply Hsub. apply list_elem_of_fmap in Ht as (b & -> & Hb). apply list_elem_of_fmap_2.
    eapply elem_of_sublist; [exact Hb | apply Hp].
Qed.

Lemma conclude_ends plan :
  (forall e, among (Db e, (pn_loose plan, pn_boxes plan))) ->
  ends (conclude src emp reason wr seq when rawItems requestedBoxes vn plan) 1 (fun _ => True) among.
Proof.
  intros Hp. unfold conclude. destruct (_ && _); (apply ends_then; [by apply ends_any|]);
    intros; by apply ends_ret.
Qed.

Lemma apply_ends :
  ends (apply_order src emp reason wr seq when rawItems requestedBoxes vn remaining accC remBoxes accB) 6
    (fun _ => True) among.
Proof.
  unfold apply_order. apply ends_then; [apply ends_any, among_db|]. intros [out|].
  { apply (ends_more _ 1); [|lia]. apply ends_then; [apply ends_any, among_db|]. intros; by apply ends_ret. }
  apply ends_then; [apply ends_any, among_db|]. intros [policy|].
  2: { apply (ends_more _ 0); [|lia]. apply ends_raise. by apply among_none. }
  destruct (_ && _).
  { apply (ends_more _ 1); [|lia]. apply ends_then; [apply ends_any, among_db|]. intros; by apply ends_ret. }
  apply (ends_bind _ _ 1 3 (fun r => exists s, r = resolveOrderBoxes s remBoxes)).
  { apply ends_query; [by eexists | apply among_db]. }
  intros [resolved|error] [s Hs]; [|symmetry in Hs; apply resolveOrderBoxes_throws in Hs as ->; apply (ends_more _ 0); [|lia]; apply ends_raise; by apply among_none].
  destruct resolved as [rboxes rconf]. symmetry in Hs.
  destruct (resolveOrderBoxes_spec _ _ _ _ Hs) as [Hperm Hw], (resolveOrderBoxes_more _ _ _ _ Hs) as [_ Hc].
  apply (ends_bind _ _ 1 2 (fun _ => True)).
  { case_match; [apply (ends_more _ 0); [by apply ends_ret | lia] | apply ends_any, among_db]. }
  intros used _. apply (ends_bind _ _ 1 1 (fun _ => True)).
  { destruct (is_writeoff reason); [apply (ends_more _ 0); [by apply ends_ret | lia] | apply ends_any, among_db]. }
  intros n _. apply conclude_ends. intros e.
  apply (plan_among policy (rboxes, rconf) used n); [done..|]. intros t Ht. rewrite <- Hperm.
  apply elem_of_app. by left.
Qed.

Lemma attempt_ends :
  ends (attempt src emp reason wr seq when rawItems requestedBoxes vn remaining accC remBoxes accB) 10
    (fun _ => True) among.
Proof.
  apply (ends_transaction _ 9). do 3 (apply ends_then; [apply ends_any, among_db|]; intros _). apply apply_ends.
Qed.
End Turn.

Lemma retry_ends n remaining accC remBoxes accB :
  NoDup (item_keys remaining) -> (length remaining + length remBoxes < n)%nat ->
  ends (retry src emp reason wr seq when rawItems requestedBoxes vn n remaining accC remBoxes accB)
    (11 * n + 1) (fun _ => True) not_exhausted.
Proof.
  revert remaining accC remBoxes accB. induction n as [|n IH]; intros remaining accC remBoxes accB Hk Hn; [lia|].
  cbn [retry]. apply (ends_more _ (10 + (11 * n + 2))); [|lia].
  apply (ends_try _ _ 10 (11 * n + 2) (among remaining remBoxes)); [by apply attempt_ends|].
  intros [error [loose taken]] (He & Hl & Hd & Hs). destruct (isDeviceSeqRace error).
  - apply (ends_more _ 2); [|lia]. apply ends_then; [by apply ends_any|]. intros [out|].
    + apply ends_then; [by apply ends_any|]. intros; by apply ends_ret.
    + apply (ends_more _ 0); [by apply ends_raise | lia].
  - destruct (_ || _); [apply (ends_more _ 0); [by apply ends_raise | lia]|].
    replace (11 * n + 2)%nat with (1 + (11 * n + 1))%nat by lia.
    apply (ends_bind _ _ 1 _ (fun keys => keys ⊆ (it_kmKey <$> loose) ++ box_keys taken)).
    { apply ends_query; [|done]. intros s key Hkey. unfold usedRows in Hkey.
      apply list_elem_of_In, filter_In in Hkey as [_ Hkey]. by apply elem_of_is_in. }
    intros [|key keys] Hsub; [apply (ends_more _ 0); [by apply ends_raise | lia]|].
    assert (Hin : key ∈ item_keys loose \/ key ∈ box_keys taken)
      by (apply elem_of_app, Hsub, list_elem_of_here).
    pose proof (reclassify_shrinks remaining remBoxes taken (key :: keys) key
      (list_elem_of_here _ _) Hd Hs) as Hless.
    apply IH.
    + eapply sublist_NoDup; [exact Hk|]. apply item_keys_sublist, reclassify_spec.
    + enough (length (rc_loose (reclassifyOrderKmKeyRace remaining remBoxes taken (key :: keys)))
        + length (rc_requestedBoxes (reclassifyOrderKmKeyRace remaining remBoxes taken (key :: keys)))
        < length remaining + length remBoxes)%nat by lia.
      apply Hless. destruct Hin as [Hin|Hin]; [left | by right].
      eapply elem_of_sublist; [exact Hin | by apply item_keys_sublist].
Qed.
End Attempt.

(** ** The whole request *)

Section Create.
Context (date_parse : jsstr -> option Z) (kioskAdmissionTokenHash : jsstr -> jsstr)
  (kioskOrderPayloadDigest : CanonicalOrderContent -> jsstr).
Context (kioskId : jsstr) (dto : CreateOrderDto).

Definition any {A} (a : A) : Prop := True.

Lemma persisted_ends out : ends (kioskResultFromOutcome out) 0 any not_exhausted.
Proof.
  unfold kioskResultFromOutcome. destruct (rejected out); [|by apply ends_ret]. apply ends_raise.
  intros [= H]. by apply (persisted_not_retry out).
Qed.

Lemma persist_ends b row :
  ends (if b : bool then persistSerializedEarlyRejection kioskId dto true row
        else persistLegacyEarlyRejection kioskId dto true row) 5 any not_exhausted.
Proof.
  destruct b.
  - apply (ends_transaction _ 4). do 2 (apply ends_then; [by apply ends_any|]; intros ?). case_match.
    + apply (ends_more _ 1); [|lia]. apply ends_then; [by apply ends_any|]. intros; by apply ends_ret.
    + apply ends_then; [by apply ends_any|]. intros ?.
      case_match; (apply ends_then; [by apply ends_any|]); intros; by apply ends_ret.
  - apply (ends_more _ 2); [|lia]. apply (ends_transaction _ 1). apply ends_then; [by apply ends_any|].
    intros; by apply ends_ret.
Qed.

Lemma reject_early_ends emp badge when t e :
  not_exhausted e -> ends (reject_early kioskId dto true emp badge when t e) 5 any not_exhausted.
Proof.
  intros He. apply (ends_bind _ _ 5 0 any); [apply persist_ends|]. intros [out|] _; [apply persisted_ends|].
  by apply ends_raise.
Qed.

Lemma filing_time_ends :
  ends (filing_time date_parse kioskAdmissionTokenHash kioskOrderPayloadDigest kioskId dto) 3 any not_exhausted.
Proof.
  unfold filing_time. do 2 (apply ends_then; [by apply ends_any|]; intros ?).
  repeat case_match; try (apply (ends_more _ 0); [by (apply ends_raise || apply ends_ret) | lia]).
  apply ends_then; [by apply ends_any|]. intros [row|]; by (apply ends_raise || apply ends_ret).
Qed.

Lemma file_lines_ends emp wr when :
  ends (file_lines kioskId dto emp wr when)
    (2 + (11 * (length (pl_items (processing dto)) + length (pl_boxes (processing dto)) + 1) + 1))
    any not_exhausted.
Proof.
  unfold file_lines. apply ends_then; [by apply ends_any|]. intros allowlist.
  apply ends_then; [by apply ends_any|]. intros catalogue.
  pose proof (resolveItems_spec allowlist catalogue (pl_items (processing dto))) as Hs.
  destruct (resolveItems _ _ _) as [conf cand]. destruct Hs as [Hp Hn].
  assert (Hlen : (length cand <= length (pl_items (processing dto)))%nat).
  { apply Permutation_length in Hp. rewrite length_app in Hp. unfold item_texts in Hp.
    rewrite length_fmap in Hp. lia. }
  apply (ends_more _ (11 * (length cand + length (pl_boxes (processing dto)) + 1) + 1 + 0)); [|lia].
  eapply ends_bind; [apply retry_ends; [done | lia]|]. intros out _. cbv beta.
  destruct (writeoffForbidden out); [by apply ends_raise | apply persisted_ends].
Qed.

Definition operations : nat :=
  (11 * (length (pl_items (processing dto)) + length (pl_boxes (processing dto)) + 1) + 11)%nat.

Lemma create_ends :
  (0 < length (pl_items (processing dto)) + length (pl_boxes (processing dto)))%nat ->
  ends (createForDevice date_parse kioskAdmissionTokenHash kioskOrderPayloadDigest kioskId dto) operations
    any not_exhausted.
Proof.
  intros Hlines. unfold createForDevice, operations.
  set (k := (11 * (length (pl_items (processing dto)) + length (pl_boxes (processing dto)) + 1))%nat).
  assert (Hk : (22 <= k)%nat) by (subst k; lia).
  apply (ends_more _ (S (1 + (k + 9)))); [|lia]. apply ends_then; [by apply ends_any|]. intros [out|].
  { apply (ends_more _ 1); [|lia]. apply ends_then; [by apply ends_any|]. intros; by apply ends_ret. }
  apply (ends_bind _ _ 1 (k + 9) any).
  { destruct (vNext _); [by apply ends_any | apply (ends_more _ 0); [by apply ends_ret | lia]]. }
  intros [out|] _.
  { apply (ends_more _ 0); [|lia]. apply ends_raise. intros [= H]. by apply (persisted_not_retry out). }
  apply (ends_more _ (3 + (k + 6))); [|lia]. apply (ends_bind _ _ 3 _ any); [apply filing_time_ends|].
  intros when _. apply (ends_more _ (1 + (k + 5))); [|lia]. apply (ends_bind _ _ 1 _ any).
  { destruct (d_badge dto); [by apply ends_any | apply (ends_more _ 0); [by apply ends_ret | lia]]. }
  intros hash _. apply (ends_more _ (S (k + 4))); [|lia]. apply ends_then; [by apply ends_any|].
  intros [| |emp policy].
  - rewrite (proj2 (Nat.ltb_lt _ _) Hlines). cbv zeta. apply (ends_more _ (1 + 5)); [|lia].
    apply (ends_bind _ _ 1 5 any).
    + apply ends_then; [by apply ends_any|]. intros; by apply ends_ret.
    + intros code _. by apply reject_early_ends.
  - apply (ends_more _ 0); [by apply ends_raise | lia].
  - destruct (_ && _); [apply (ends_more _ 5); [by apply reject_early_ends | lia]|].
    apply (ends_more _ (1 + (k + 3))); [|lia].
    apply (ends_bind _ _ 1 _ (fun r => match r with inr (_, e) => not_exhausted e | _ => True end)).
    + unfold writeoff_reason. destruct (negb _); [apply (ends_more _ 0); [by apply ends_ret | lia]|].
      destruct (d_writeoffReasonId dto) as [[|c l]|];
        try (apply (ends_more _ 0); [by apply ends_ret | lia]).
      apply (ends_try _ _ 1 0 not_exhausted); [|intros e He; by apply ends_ret].
      apply ends_then; [by apply ends_any|]. intros [|]; by (apply ends_raise || apply ends_ret).
    + intros [wr|[t e]] He; [apply (ends_more _ (2 + (k + 1))); [apply file_lines_ends | lia]|].
      apply (ends_more _ 5); [by apply reject_early_ends | lia].
Qed.

(** C16: whatever is in the tables and whatever others do to them, however often
    the database fails, a request to file an order that submits something ends
    within a number of operations proportional to its lines, and never because its
    retries are exhausted. *)
Theorem create_terminates cs w :
  (0 < length (pl_items (processing dto)) + length (pl_boxes (processing dto)))%nat ->
  Forall alive cs -> (operations <= length cs)%nat ->
  match (run perform (createForDevice date_parse kioskAdmissionTokenHash kioskOrderPayloadDigest kioskId dto)
           cs w).1.1 with
  | Done _ => True
  | Failed e => e <> Http RetryExhausted
  | Died => False
  end.
Proof. intros Hl Hcs Hn. exact (ends_run _ operations _ _ cs w (create_ends Hl) Hcs Hn). Qed.
End Create.
