(* ===== verification/PickupRuns.v ===== *)
(** * Whole requests to file a pickup order

    What [createForDevice] of [PickupOrders] guarantees whatever fails, dies or
    happens meanwhile, from [PickupSafety]; and what it does not, on runs that
    are computed. *)

From stdpp Require Import base list strings gmap relations.
From Stdlib Require Import ZArith Lia.
From S2P Require Import Prelude Gs1 Km Dates KioskApi KioskCart Effects BoxFacts PickupLines PickupOrders.
From S2P Require Import PickupSafety PickupTransitions PickupBound.

#[local] Open Scope Z_scope.
#[local] Open Scope prog_scope.

(** The next request: no lock is held, nothing is committed yet. *)
Definition next_request (w : World) : World := {| w_db := w_db w; w_locks := []; w_log := [] |}.

Section Runs.
Context (modern : PickupDocumentSource -> Z -> bool) (cap : jsstr -> option Z).
Context (date_parse : jsstr -> option Z) (kioskAdmissionTokenHash : jsstr -> jsstr)
  (kioskOrderPayloadDigest : CanonicalOrderContent -> jsstr).

Abbreviation create kioskId dto :=
  (createForDevice date_parse kioskAdmissionTokenHash kioskOrderPayloadDigest kioskId dto).

(** What a request starts from: the tables are in order, its number is one of
    the kind it uses, it submits something. *)
Record begins (kioskId : jsstr) (dto : CreateOrderDto) (w : World) : Prop := {
  bg_inv : inv modern cap (w_db w);
  bg_log : w_log w = [];
  bg_modern : modern (source kioskId) (d_deviceSeq dto) = vNext (processing dto);
  bg_lines : (0 < length (pl_items (processing dto)) + length (pl_boxes (processing dto)))%nat
}.

Lemma begins_good kioskId dto w entry : begins kioskId dto w -> good modern cap entry w.
Proof. intros []. split; [done|]. by rewrite bg_log0. Qed.

Abbreviation settled kioskId dto := (settled modern cap (source kioskId) (d_deviceSeq dto)
  (pl_items (processing dto)) (pl_boxes (processing dto)) (vNext (processing dto))).
Abbreviation settled_error kioskId dto := (settled_error modern cap (source kioskId) (d_deviceSeq dto)
  (pl_items (processing dto)) (pl_boxes (processing dto)) (vNext (processing dto))).
Abbreviation good_run kioskId dto := (good modern cap (filing_entry (source kioskId) (d_deviceSeq dto)
  (pl_items (processing dto)) (pl_boxes (processing dto)))).

Lemma create_run kioskId dto w cs :
  begins kioskId dto w -> Forall (honest modern cap) cs ->
  match run perform (create kioskId dto) cs w with
  | (Done r, _, w') => settled kioskId dto r w'
  | (Failed e, _, w') => settled_error kioskId dto e w'
  | (Died, _, w') => good_run kioskId dto w'
  end.
Proof.
  intros Hb Hcs. apply (wp_sound perform (honest modern cap)); [|done].
  apply createForDevice_fine; [apply Hb | apply Hb | by eapply begins_good].
Qed.

Lemma create_run_good kioskId dto w cs :
  begins kioskId dto w -> Forall (honest modern cap) cs ->
  good_run kioskId dto (run perform (create kioskId dto) cs w).2.
Proof.
  intros Hb Hcs. pose proof (create_run kioskId dto w cs Hb Hcs) as H.
  destruct (run _ _ cs w) as [[[r|e|] cs'] w']; [apply H | apply H | exact H].
Qed.

(** ** Asking again *)

(** What a request was told for good: the number of an order; or, in the protocol
    with boxes, a refusal that leaves no order. *)
Definition told_for_good (kioskId : jsstr) (dto : CreateOrderDto)
    (answer : ending thrown CreateOrderResultDto) (s : Pickup) : Prop :=
  match answer with
  | Done r => r_orderNo r <> []
  | Failed e => vNext (processing dto) = true /\ final_refusal e = true
      /\ findOrderOutcome (source kioskId) (d_deviceSeq dto) s = None
  | Died => False
  end.

(** The same answer again, or none. *)
Definition repeats (answer again : ending thrown CreateOrderResultDto) : Prop :=
  match again with Died | Failed (Db _) => True | _ => again = answer end.

Lemma answer_again_order kioskId dto out w :
  good_run kioskId dto w -> findOrderOutcome (source kioskId) (d_deviceSeq dto) (w_db w) = Some out ->
  wp perform (honest modern cap) (create kioskId dto) (fun r _ => r = result_of out)
    (fun e _ => exists d, e = Db d) (good_run kioskId dto) w.
Proof.
  intros Hg Ho. unfold createForDevice. apply wp_bind, safely_query; [done|]. intros w1 Hl1 Hg1.
  split; [|by eexists]. rewrite (order_stays _ _ _ _ _ _ _ _ (lt_db _ _ _ _ Hl1) Ho).
  apply wp_bind, safely_consume; [done | intros; by eexists |].
  intros w2 w3 _ _ _ _ _ _. split; [done | by eexists].
Qed.

Lemma answer_again_refusal kioskId dto out w :
  good_run kioskId dto w -> vNext (processing dto) = true ->
  modern (source kioskId) (d_deviceSeq dto) = true ->
  refused_for_good (source kioskId) (d_deviceSeq dto) out (w_db w) ->
  wp perform (honest modern cap) (create kioskId dto) (fun _ _ => False)
    (fun e _ => e = Http (throwPersistedKioskRejection out) \/ exists d, e = Db d)
    (good_run kioskId dto) w.
Proof.
  intros Hg Hv Hm Hr. unfold createForDevice.
  assert (Hstay : forall w1, good_run kioskId dto w1 -> later modern cap w w1 ->
    refused_for_good (source kioskId) (d_deviceSeq dto) out (w_db w1)).
  { intros w1 _ Hl. eapply (refused_stays _ _ _ _ [] true); [exact Hm | done | apply Hl | apply Hg | done | done]. }
  apply wp_bind, safely_query; [done|]. intros w1 Hl1 Hg1. split; [|right; by eexists].
  rewrite (proj2 (Hstay w1 Hg1 Hl1)). rewrite Hv.
  apply wp_bind, safely_query; [done|]. intros w2 Hl2 Hg2. split; [|right; by eexists].
  rewrite (proj1 (Hstay w2 Hg2 (later_trans _ _ _ _ _ Hl1 Hl2))). by left.
Qed.

Lemma told_again kioskId dto dto' cs1 cs2 w :
  begins kioskId dto w -> Forall (honest modern cap) cs1 -> Forall (honest modern cap) cs2 ->
  d_deviceSeq dto' = d_deviceSeq dto -> vNext (processing dto') = vNext (processing dto) ->
  let '(answer, _, w1) := run perform (create kioskId dto) cs1 w in
  told_for_good kioskId dto answer (w_db w1) ->
  repeats answer (run perform (create kioskId dto') cs2 (next_request w1)).1.1.
Proof.
  intros Hb Hc1 Hc2 Hs Hv. pose proof (create_run kioskId dto w cs1 Hb Hc1) as H.
  destruct (run perform (create kioskId dto) cs1 w) as [[[r|e|] cs'] w1]; cbn [told_for_good].
  - intros Hne. destruct H as [Hg H].
    destruct H as [(out & Ho & ->)|[_ Hn]]; [|by destruct Hne].
    assert (Hg' : good_run kioskId dto' (next_request w1)) by (split; [apply Hg | constructor]).
    rewrite <- Hs in Ho.
    pose proof (wp_sound perform _ _ _ _ _ _ cs2 (answer_again_order kioskId dto' out _ Hg' Ho) Hc2) as H.
    destruct (run _ _ cs2 _) as [[[r|e|] cs''] w2]; cbn; [by subst | by destruct H as [d ->] | done].
  - intros (Hvn & Hf & Hno). destruct H as (Hg & _ & _ & H). destruct (H Hvn Hf Hno) as (out & Hr & ->).
    assert (Hg' : good_run kioskId dto' (next_request w1)) by (split; [apply Hg | constructor]).
    rewrite <- Hs in Hr. pose proof (bg_modern _ _ _ Hb) as Hm. rewrite <- Hs, Hvn in Hm.
    pose proof (wp_sound perform _ _ _ _ _ _ cs2
      (answer_again_refusal kioskId dto' out _ Hg' (eq_trans Hv Hvn) Hm Hr) Hc2) as H'.
    destruct (run _ _ cs2 _) as [[[r|e|] cs''] w2]; cbn; [done | | done].
    by destruct H' as [->|[d ->]].
  - done.
Qed.
End Runs.

(** ** A small organization *)

Module Sample.
(** One product, one employee who may take five codes a day, one kiosk; two
    boxes of one code each are packed, of which the second is of a product that
    is archived and not offered by the kiosk. *)
Definition gtin : jsstr := js "04607047110905".
Definition old_gtin : jsstr := js "04600000000008".
Definition old_km : jsstr := js "010460000000000821OLD1" ++ [GS] ++ js "91KEY" ++ [GS] ++ js "92SIGNATURE".
Definition old_sscc : jsstr := js "046012345670000015".
Definition strange_sscc : jsstr := js "046012345670000022".

Definition stock : Stock := {|
  products := [{| p_id := js "p1"; p_gtin14 := gtin; p_unitPrice := Some (js "10.50"); p_archived := false |};
               {| p_id := js "p2"; p_gtin14 := old_gtin; p_unitPrice := None; p_archived := true |}];
  shifts := [{| s_id := js "s2"; s_status := js "closed"; s_productId := js "p2"; s_productionDate := None;
                s_plannedDate := None |}];
  pallets := [];
  boxes := [{| b_id := js "b2"; b_shiftId := js "s2"; b_terminalId := None; b_deviceBoxId := js "1"; b_sscc := Some old_sscc;
               b_closedAt := Some 50; b_closureReceivedAt := Some 60; b_disassembledAt := None;
               b_palletId := None; b_registryVersion := 1; b_updatedAt := 60 |}];
  boxItems := [{| bi_boxId := js "b2"; bi_codeHash := js "h2"; bi_addedAt := 10; bi_displacedAt := None;
                  bi_removedAt := None |}];
  codeRegistry := [{| cr_codeHash := js "h2"; cr_shiftId := js "s2"; cr_terminalId := None;
                      cr_scannedAt := 10; cr_updatedAt := 20 |}];
  codes := [{| c_codeHash := js "h2"; c_scannedAt := 10; c_canonicalRaw := old_km; c_gtin14 := old_gtin;
               c_serial := js "OLD1" |}]
|}.

Definition tables : Pickup := {|
  PickupOrders.stock := stock; kioskProducts := [(js "k1", js "p1")]; badgeSalt := Some (js "salt");
  employees := [(js "e1", true)];
  badges := [{| bg_employeeId := js "e1"; bg_badgeCode := js "B-1"; bg_badgeHash := None; bg_revokedAt := None |}];
  employeePolicies := [{| ep_employeeId := js "e1"; ep_limited := true; ep_dayLimit := 5; ep_canWriteoff := true |}];
  limitsEnabled := Some true; reasons := [(js "w1", false)]; orders := []; rejections := [];
  admissions := []; counter := 0
|}.

Definition world : World := {| w_db := tables; w_locks := []; w_log := [] |}.

Definition request (reason : Reason) (writeoffReasonId : option jsstr) (items boxes : list jsstr)
  : CreateOrderDto :=
  {| d_deviceSeq := 7; d_badge := BadgeCode (js "B-1"); d_reason := reason;
     d_writeoffReasonId := writeoffReasonId; d_items := items; d_boxes := Some boxes;
     d_createdAt := None; d_admissionNonce := None; d_admissionProof := None |}.

(** A code that can be taken and a box nobody knows. *)
Definition mixed : CreateOrderDto := request Buy None [sample_km] [strange_sscc].

Definition calm : choice := {| c_meanwhile := fun _ s => s; c_fate := Served; c_uuid := js "u1";
  c_now := 1000; c_access := Writable |}.

Definition handle (dto : CreateOrderDto) : handler CreateOrderResultDto :=
  createForDevice (fun _ => None) Datatypes.id (fun _ => []) (js "k1") dto.

Definition modern (src : PickupDocumentSource) (seq : Z) : bool := true.
Definition cap (employeeId : jsstr) : option Z := if jseqb employeeId (js "e1") then Some 5 else None.
End Sample.

(** ** What every request guarantees *)

Section Guarantees.
Context (modern : PickupDocumentSource -> Z -> bool) (cap : jsstr -> option Z).
Context (date_parse : jsstr -> option Z) (kioskAdmissionTokenHash : jsstr -> jsstr)
  (kioskOrderPayloadDigest : CanonicalOrderContent -> jsstr).
Context (kioskId : jsstr) (dto : CreateOrderDto).

Abbreviation create dto :=
  (createForDevice date_parse kioskAdmissionTokenHash kioskOrderPayloadDigest kioskId dto).

(** C13: whatever fails, dies or is done meanwhile by transactions that respect
    their locks, a request to file an order leaves the tables in order (numbers,
    device slots and open codes are distinct, orders are whole, a stored refusal
    answers its request), and each of its commits is such a transaction itself:
    documents only ever gain voids and a final status, orders are added under the
    lock of the box registry and of the device, answers that stand under the lock
    of the device. *)
Theorem create_keeps_tables cs w :
  begins modern cap kioskId dto w -> Forall (honest modern cap) cs ->
  let w' := (run perform (create dto) cs w).2 in
  inv modern cap (w_db w')
  /\ Forall (fun e => step_ok modern cap (lg_locks e) (lg_before e) (lg_after e)) (w_log w').
Proof.
  intros Hb Hcs. destruct (create_run_good modern cap date_parse kioskAdmissionTokenHash
    kioskOrderPayloadDigest kioskId dto w cs Hb Hcs) as [Hi Hl].
  split; [exact Hi|]. eapply Forall_impl; [exact Hl|]. by intros e [].
Qed.

(** C14: every commit of a request adds at most its own document and its own
    refusal, and what it adds answers each submitted code and each submitted box
    exactly once: taken or refused.  What the request returns is what the stored
    order says. *)
Theorem create_accounts cs w :
  begins modern cap kioskId dto w -> Forall (honest modern cap) cs ->
  let '(answer, _, w') := run perform (create dto) cs w in
  Forall (fun e => filing_entry (source kioskId) (d_deviceSeq dto) (pl_items (processing dto))
    (pl_boxes (processing dto)) (lg_before e) (lg_after e)) (w_log w')
  /\ match answer with
     | Done r =>
         (exists out, findOrderOutcome (source kioskId) (d_deviceSeq dto) (w_db w') = Some out
                      /\ r = result_of out)
         \/ vNext (processing dto) = false /\ r_orderNo r = []
     | Failed (Db (UniqueViolation index)) => index = PrimaryKey
     | _ => True
     end.
Proof.
  intros Hb Hcs. pose proof (create_run modern cap date_parse kioskAdmissionTokenHash
    kioskOrderPayloadDigest kioskId dto w cs Hb Hcs) as H.
  pose proof (create_run_good modern cap date_parse kioskAdmissionTokenHash
    kioskOrderPayloadDigest kioskId dto w cs Hb Hcs) as [_ Hl].
  destruct (run _ _ cs w) as [[answer cs'] w']. cbn [snd] in Hl. split.
  { eapply Forall_impl; [exact Hl|]. by intros e []. }
  destruct answer as [r|[h|[index|]]|]; [apply H | done | | done..].
  by apply (proj1 (proj2 H)).
Qed.

(** C15: an answer is final: once a request was told the number of an order, or, in
    the protocol with boxes, a refusal that leaves no order, every later request
    under its number is told the same, or meets a failure of the database. *)
Theorem create_final dto' cs1 cs2 w :
  begins modern cap kioskId dto w -> Forall (honest modern cap) cs1 -> Forall (honest modern cap) cs2 ->
  d_deviceSeq dto' = d_deviceSeq dto -> vNext (processing dto') = vNext (processing dto) ->
  let '(answer, _, w1) := run perform (create dto) cs1 w in
  told_for_good kioskId dto answer (w_db w1) ->
  repeats answer (run perform (create dto') cs2 (next_request w1)).1.1.
Proof. intros. by apply (told_again modern cap). Qed.

(** C17: the allowance of a day, as the policy counts it.  For an employee whose
    policy is always limited to [D] codes a day, the codes that count against the day,
    those of the open items of the orders filed for the employee on that day of UTC that
    are neither cancelled nor write-offs, are at most [D] after every request, whatever
    fails or competes.  Write-offs are neither limited nor counted, as the code means. *)
Theorem create_allowance employeeId D day cs w :
  begins modern cap kioskId dto w -> Forall (honest modern cap) cs -> cap employeeId = Some D ->
  countTakenToday employeeId day (w_db (run perform (create dto) cs w).2) <= D.
Proof.
  intros Hb Hcs HD. destruct (create_run_good modern cap date_parse kioskAdmissionTokenHash
    kioskOrderPayloadDigest kioskId dto w cs Hb Hcs) as [Hi _].
  by apply (i_cap _ _ _ Hi).
Qed.
End Guarantees.

(** ** The theorems on the small organization *)

Module Samples.
Import Sample.

Lemma tables_in_order : inv modern cap tables.
Proof.
  split; try apply NoDup_nil_2; try by constructor.
  - done.
  - by intros r Hr%elem_of_nil.
  - intros e D. unfold cap. destruct (jseqb e (js "e1")) eqn:E; [|done].
    apply jseqb_eq in E as ->. intros [= <-]. split.
    + intros p Hp. vm_compute in Hp. injection Hp as <-. by vm_compute.
    + intros when. by vm_compute.
Qed.

Lemma sample_begins dto :
  d_boxes dto <> None -> (0 < length (pl_items (processing dto)) + length (pl_boxes (processing dto)))%nat ->
  begins modern cap (js "k1") dto world.
Proof.
  intros Hb Hl. split; [apply tables_in_order | done | | done]. unfold modern, processing, kioskOrderProcessingLines.
  by destruct (d_boxes dto).
Qed.

Lemma calm_honest : honest modern cap calm.
Proof. split; [by constructor | done]. Qed.

Lemma calms_honest n : Forall (honest modern cap) (replicate n calm).
Proof. apply Forall_replicate, calm_honest. Qed.

(** The commit goes through, and its answer is lost: the order is filed, the
    kiosk is told of a failure. *)
Definition unheard : choice := {| c_meanwhile := fun _ s => s; c_fate := FailsAfter; c_uuid := js "u1";
  c_now := 1000; c_access := Writable |}.

Lemma unheard_honest : honest modern cap unheard.
Proof. split; [by constructor | done]. Qed.

Definition unlucky : list choice := replicate 15 calm ++ [unheard] ++ replicate 20 calm.

Lemma create_keeps_tables_witness :
  length (orders (w_db (run perform (handle mixed) (replicate 30 calm) world).2)) = 1%nat
  /\ let w' := (run perform (handle mixed) (replicate 30 calm) world).2 in
     inv modern cap (w_db w')
     /\ Forall (fun e => step_ok modern cap (lg_locks e) (lg_before e) (lg_after e)) (w_log w').
Proof.
  split; [by vm_compute|]. apply create_keeps_tables; [by apply sample_begins; vm_compute; [|lia] | apply calms_honest].
Defined.

Lemma create_accounts_witness :
  length (w_log (run perform (handle mixed) unlucky world).2) = 1%nat
  /\ let '(answer, _, w') := run perform (handle mixed) unlucky world in
  Forall (fun e => filing_entry (source (js "k1")) (d_deviceSeq mixed) (pl_items (processing mixed))
    (pl_boxes (processing mixed)) (lg_before e) (lg_after e)) (w_log w')
  /\ match answer with
     | Done r =>
         (exists out, findOrderOutcome (source (js "k1")) (d_deviceSeq mixed) (w_db w') = Some out
                      /\ r = result_of out)
         \/ vNext (processing mixed) = false /\ r_orderNo r = []
     | Failed (Db (UniqueViolation index)) => index = PrimaryKey
     | _ => True
     end.
Proof.
  split; [by vm_compute|]. apply (create_accounts modern cap); [by apply sample_begins; vm_compute; [|lia] |].
  unfold unlucky. repeat apply Forall_app_2; [apply calms_honest | | apply calms_honest].
  apply Forall_singleton, unheard_honest.
Defined.

Lemma create_final_witness :
  let '(answer, _, w1) := run perform (handle mixed) (replicate 30 calm) world in
  told_for_good (js "k1") mixed answer (w_db w1)
  /\ repeats answer (run perform (handle (request Writeoff None [] [old_sscc])) (replicate 30 calm)
       (next_request w1)).1.1.
Proof.
  pose proof (create_final modern cap (fun _ => None) Datatypes.id (fun _ => []) (js "k1") mixed
    (request Writeoff None [] [old_sscc]) (replicate 30 calm) (replicate 30 calm) world
    (sample_begins mixed ltac:(done) ltac:(vm_compute; lia)) (calms_honest 30) (calms_honest 30)
    eq_refl eq_refl) as H.
  fold (handle mixed) in H. fold (handle (request Writeoff None [] [old_sscc])) in H.
  destruct (run perform (handle mixed) (replicate 30 calm) world) as [[answer cs] w1] eqn:E.
  assert (Ht : told_for_good (js "k1") mixed answer (w_db w1)).
  { apply (f_equal (fun r => r.1.1)) in E. cbn [fst] in E. subst answer. by vm_compute. }
  split; [exact Ht | exact (H Ht)].
Defined.

Lemma create_allowance_witness :
  countTakenToday (js "e1") 1000 (w_db (run perform (handle mixed) (replicate 30 calm) world).2) = 1
  /\ countTakenToday (js "e1") 1000 (w_db (run perform (handle mixed) (replicate 30 calm) world).2) <= 5.
Proof.
  split; [by vm_compute|]. apply (create_allowance modern cap);
    [by apply sample_begins; vm_compute; [|lia] | apply calms_honest | done].
Defined.

(** The other request of the same order, as it is served while this one runs. *)
Definition meanwhile_filed : choice :=
  {| c_meanwhile := fun _ s => w_db (run perform (handle mixed) (replicate 30 calm)
       {| w_db := s; w_locks := []; w_log := [] |}).2;
     c_fate := Served; c_uuid := js "u1"; c_now := 1000; c_access := Writable |}.

(** A run: a request sent again while it is being served is told it is refused
    although its order is filed: the order is looked for first, the refusal after
    it, and the lines of the order that were not accepted are kept in the table of
    refusals, where a refused box reads as a refusal of the whole request. *)
Example refused_though_filed :
  exists codes boxes w',
    run perform (handle mixed) [calm; meanwhile_filed] world
      = (Failed (Http (OrderRejectedError codes boxes)), [], w')
    /\ exists out, findOrderOutcome (source (js "k1")) (d_deviceSeq mixed) (w_db w') = Some out
       /\ itemCount out = 1 /\ usedRows [js "01" ++ gtin ++ js "21SER1234"] (w_db w') <> [].
Proof.
  do 3 eexists. split; [by vm_compute|]. eexists. split; [by vm_compute|]. split; [done|]. by vm_compute.
Qed.

(** A failure of the database. *)
Definition broken : choice :=
  {| c_meanwhile := fun _ s => s; c_fate := FailsBefore OtherDbError; c_uuid := js "u1";
     c_now := 1000; c_access := Writable |}.

Definition writing_off : CreateOrderDto := request Writeoff (Some (js "w1")) [sample_km] [].

(** A run: a failure of the database while the reason of a write-off is looked up
    refuses the request: the [catch] takes it for an unknown reason and
    stores the refusal, and sent again, when the database answers, the request is
    refused as one whose reason does not exist; unharmed, it is filed. *)
Example transient_failure_refuses :
  let '(answer, _, w1) := run perform (handle writing_off) (replicate 5 calm ++ [broken] ++ replicate 20 calm)
                            world in
  answer = Failed (Db OtherDbError)
  /\ (run perform (handle writing_off) (replicate 30 calm) (next_request w1)).1.1
     = Failed (Http UnknownWriteoffReason)
  /\ active_reason (js "w1") (w_db w1) = true
  /\ match (run perform (handle writing_off) (replicate 30 calm) world).1.1 with
     | Done r => r_itemCount r = 1 | _ => False end.
Proof. by vm_compute. Qed.

(** Another order takes the code just before the commit. *)
Definition stolen : choice :=
  {| c_meanwhile := fun _ => with_orders (fun rows => rows ++
       [new_order (js "o9") (js "ORD-9") (KioskSource (js "k2")) (js "e2") Buy None 1 500
          [{| it_rawKm := sample_km; it_productId := js "p1"; it_gtin14 := gtin; it_serial := js "SER1234";
              it_kmKey := js "01" ++ gtin ++ js "21SER1234"; it_unitPrice := None |}] [] []]);
     c_fate := Served; c_uuid := js "u1"; c_now := 1000; c_access := Writable |}.

Lemma create_terminates_witness :
  let cs := replicate 15 calm ++ [stolen] ++ replicate 60 calm in
  (operations mixed <= length cs)%nat
  /\ match (run perform (handle mixed) cs world).1.1 with
     | Done _ => True
     | Failed e => e <> Http RetryExhausted
     | Died => False
     end.
Proof.
  split; [vm_compute; lia|].
  apply (create_terminates (fun _ => None) Datatypes.id (fun _ => []) (js "k1") mixed).
  - vm_compute; lia.
  - repeat apply Forall_app_2; [apply Forall_replicate | apply Forall_singleton | apply Forall_replicate]; by split.
  - vm_compute; lia.
Defined.

(** The order of the first request, cancelled, frees its code. *)
Definition filed_world : World := next_request (run perform (handle mixed) (replicate 30 calm) world).2.

Lemma filed_in_order : inv modern cap (w_db filed_world).
Proof.
  apply (create_run_good modern cap (fun _ => None) Datatypes.id (fun _ => []) (js "k1") mixed world
    (replicate 30 calm)); [by apply sample_begins; vm_compute; [|lia] | apply calms_honest].
Qed.

Lemma transitions_one_order_witness :
  let '(answer, _, w') := run perform (cancel (js "u1")) (replicate 5 calm) filed_world in
  answer = Done tt
  /\ inv modern cap (w_db w')
  /\ Forall (fun e => step_ok modern cap (lg_locks e) (lg_before e) (lg_after e)
       /\ transition_entry (js "u1") (lg_before e) (lg_after e)) (w_log w')
  /\ match answer with
     | Done r => cancelled_in (js "u1") (w_db w')
     | Failed (Http h) => expected h
         /\ Forall (fun e => orders (lg_after e) = orders (lg_before e)) (w_log w')
     | Failed (Db d) => d = OtherDbError
     | Died => True
     end.
Proof.
  pose proof (transitions_one_order modern cap (js "u1") unit (cancel (js "u1")) _ filed_world
    (replicate 5 calm) (T_cancel (js "u1")) filed_in_order eq_refl (calms_honest 5)) as H.
  destruct (run perform (cancel (js "u1")) (replicate 5 calm) filed_world) as [[answer cs] w'] eqn:E.
  split; [|exact H]. apply (f_equal (fun r => r.1.1)) in E. cbn [fst] in E. subst answer. by vm_compute.
Defined.

(** A box is filed although its product is archived and the kiosk does not offer
    it; a code of the same product is not. *)
Example archived_box_filed :
  let filed items boxes :=
    match (run perform (handle (request Buy None items boxes)) (replicate 30 calm) world).1.1 with
    | Done r => r_itemCount r | _ => 0 end in
  filed [] [old_sscc] = 1 /\ filed [old_km] [] = 0.
Proof. by vm_compute. Qed.
End Samples.
