(* ===== verification/BoxCursor.v ===== *)
(** * The cursor of the registry pages

    The first half of [apps/api/src/modules/kiosk/box-registry.dto.ts]: a cursor
    names the last box of a page and the bounds the page was cut at.  It travels
    as base64url over the UTF-8 of a JSON text, and is only accepted in the one
    spelling the server gives it.  [Buffer] and [toString] are written out here;
    the UUID check of Zod is a parameter. *)

From stdpp Require Import base list strings gmap.
From Stdlib Require Import ZArith QArith Lia.
From S2P Require Import Prelude Utf8 KioskApi Json KioskRegistry.

#[local] Open Scope Z_scope.

(** ** Buffer *)

Definition b64_char (d : Z) : Z :=
  if d <? 26 then 65 + d else if d <? 52 then 71 + d else if d <? 62 then d - 4
  else if d =? 62 then 45 else 95.

Definition b64_value (c : Z) : option Z :=
  if (65 <=? c) && (c <=? 90) then Some (c - 65)
  else if (97 <=? c) && (c <=? 122) then Some (c - 71)
  else if is_digit c then Some (c + 4)
  else if c =? 45 then Some 62
  else if c =? 95 then Some 63
  else None.

(** The groups of six bits of a sequence of bytes, the last one filled up with
    zeros. *)
Fixpoint sextets (bytes : list Z) : list Z :=
  match bytes with
  | b0 :: b1 :: b2 :: rest =>
      b0 / 4 :: b0 mod 4 * 16 + b1 / 16 :: b1 mod 16 * 4 + b2 / 64 :: b2 mod 64 :: sextets rest
  | [b0; b1] => [b0 / 4; b0 mod 4 * 16 + b1 / 16; b1 mod 16 * 4]
  | [b0] => [b0 / 4; b0 mod 4 * 16]
  | [] => []
  end.

(** [bytes.toString('base64url')]: no padding. *)
Definition base64url (bytes : list Z) : jsstr := map b64_char (sextets bytes).

(** [Buffer.from(s, 'base64url')] of characters of the alphabet: the bits that do
    not fill a byte are dropped. *)
Fixpoint bytes_of_sextets (ds : list Z) : list Z :=
  match ds with
  | d0 :: d1 :: d2 :: d3 :: rest =>
      d0 * 4 + d1 / 16 :: d1 mod 16 * 16 + d2 / 4 :: d2 mod 4 * 64 + d3 :: bytes_of_sextets rest
  | [d0; d1; d2] => [d0 * 4 + d1 / 16; d1 mod 16 * 16 + d2 / 4]
  | [d0; d1] => [d0 * 4 + d1 / 16]
  | _ => []
  end.

Definition base64url_decode (s : jsstr) : list Z :=
  bytes_of_sextets (map (fun c => default 0 (b64_value c)) s).

(** ** Revisions *)

Definition CURSOR_MAX_LENGTH : nat := 1024.
Definition MAX_PG_BIGINT : Z := 9223372036854775807.

(** [/^(0|[1-9][0-9]{0,18})$/] and the bound of a [bigint]. *)
Definition isCanonicalRevision (value : jsstr) : bool :=
  match value with
  | [] => false
  | c :: rest =>
      if c =? 48 then bool_decide (rest = [])
      else is_digit c && forallb is_digit rest && (length rest <=? 18)%nat
  end && (digits_value value <=? MAX_PG_BIGINT).

Definition boxRegistryRevisionSchema (value : jsstr) : bool := isCanonicalRevision value.

(** ** Cursors *)

Record BoxRegistryCursor := {
  cu_since : option jsstr; cu_until : jsstr; cu_registryVersion : jsstr; cu_id : jsstr
}.

#[export] Instance BoxRegistryCursor_eq_dec : EqDecision BoxRegistryCursor.
Proof. solve_decision. Defined.

Definition cursor_fields : list jsstr :=
  [js "v"; js "since"; js "until"; js "registryVersion"; js "id"].

(** The object, in the order of the fields of the schema. *)
Definition cursor_value (c : BoxRegistryCursor) : value :=
  VObj [(js "v", VNum (num 2));
        (js "since", match cu_since c with Some since => VStr since | None => VNull end);
        (js "until", VStr (cu_until c));
        (js "registryVersion", VStr (cu_registryVersion c)); (js "id", VStr (cu_id c))].

Section Cursor.
(** [z.string().uuid()]. *)
Context (zod_uuid : jsstr -> bool).

Definition valid_cursor (c : BoxRegistryCursor) : bool :=
  forallb boxRegistryRevisionSchema (option_list (cu_since c))
  && boxRegistryRevisionSchema (cu_until c) && boxRegistryRevisionSchema (cu_registryVersion c)
  && zod_uuid (cu_id c).

(** [cursorSchema.parse]; [None] is the [ZodError]. *)
Definition cursorSchema (v : value) : option BoxRegistryCursor :=
  match v with
  | VObj fields =>
      if negb (forallb (fun f => bool_decide (f.1 ∈ cursor_fields)) fields) then None
      else if negb (bool_decide (integer_of (get (js "v") v) = Some 2)) then None
      else
        since ← match get (js "since") v with
          | VNull => Some None | VStr since => Some (Some since) | _ => None end;
        match get (js "until") v, get (js "registryVersion") v, get (js "id") v with
        | VStr until, VStr registryVersion, VStr id =>
            let c := {| cu_since := since; cu_until := until; cu_registryVersion := registryVersion;
                        cu_id := id |} in
            if valid_cursor c then Some c else None
        | _, _, _ => None
        end
  | _ => None
  end.

(** [None] is the [ZodError] of the cursor that is not one. *)
Definition encodeBoxRegistryCursor (c : BoxRegistryCursor) : option jsstr :=
  if valid_cursor c then Some (base64url (utf8_encode (json_text (cursor_value c)))) else None.

Definition base64url_unit (c : Z) : bool :=
  match b64_value c with Some _ => true | None => false end.

(** [None] is [badCursor]. *)
Definition decodeBoxRegistryCursor (raw : jsstr) : option BoxRegistryCursor :=
  if (length raw =? 0)%nat || (CURSOR_MAX_LENGTH <? length raw)%nat || negb (forallb base64url_unit raw)
  then None
  else
    let bytes := base64url_decode raw in
    if negb (jseqb (base64url bytes) raw) then None
    else
      v ← JSON_parse (utf8_decode bytes); parsed ← cursorSchema v;
      if bool_decide (encodeBoxRegistryCursor parsed = Some raw) then Some parsed else None.
End Cursor.

(** ** Buffer reads back what it wrote *)

Definition is_byte (b : Z) : bool := (0 <=? b) && (b <? 256).

Lemma b64_value_char d : 0 <= d < 64 -> b64_value (b64_char d) = Some d.
Proof.
  intros H. assert (Hall : Forall (fun d => b64_value (b64_char d) = Some d) (seqZ 0 64))
    by (by repeat constructor).
  apply (proj1 (Forall_forall _ _) Hall), elem_of_seqZ. lia.
Qed.

Lemma three_ind {A} (P : list A -> Prop) :
  P [] -> (forall a, P [a]) -> (forall a b, P [a; b]) ->
  (forall a b c l, P l -> P (a :: b :: c :: l)) -> forall l, P l.
Proof.
  intros H0 H1 H2 H3. fix IH 1. intros [|a [|b [|c l]]]; [done..|]. apply H3, IH.
Qed.

Lemma high_bits k a b : 0 < a -> 0 <= k < a * b -> 0 <= k / a < b.
Proof. intros Ha H. split; [apply Z.div_pos; lia | apply Z.div_lt_upper_bound; lia]. Qed.

Lemma join_div a b k : 0 <= k < b -> 0 < b -> (a * b + k) / b = a.
Proof. intros Hk Hb. rewrite Z.div_add_l by lia. rewrite (Z.div_small k b) by lia. lia. Qed.

Lemma join_mod a b k : 0 <= k < b -> 0 < b -> (a * b + k) mod b = k.
Proof. intros Hk Hb. rewrite Z.add_comm, Z.mod_add by lia. by apply Z.mod_small. Qed.

(** The bits of three bytes, in one place. *)
Lemma sextets_bits b0 b1 b2 :
  is_byte b0 = true -> is_byte b1 = true -> is_byte b2 = true ->
  Forall (fun d => 0 <= d < 64) [b0 / 4; b0 mod 4 * 16 + b1 / 16; b1 mod 16 * 4 + b2 / 64; b2 mod 64]
  /\ b0 / 4 * 4 + (b0 mod 4 * 16 + b1 / 16) / 16 = b0
  /\ (b0 mod 4 * 16 + b1 / 16) mod 16 * 16 + (b1 mod 16 * 4 + b2 / 64) / 4 = b1
  /\ (b1 mod 16 * 4 + b2 / 64) mod 4 * 64 + b2 mod 64 = b2.
Proof.
  unfold is_byte. intros H0 H1 H2. bool_hyps.
  pose proof (high_bits b0 4 64 ltac:(lia) ltac:(lia)). pose proof (Z.mod_pos_bound b0 4 ltac:(lia)).
  pose proof (high_bits b1 16 16 ltac:(lia) ltac:(lia)). pose proof (Z.mod_pos_bound b1 16 ltac:(lia)).
  pose proof (high_bits b2 64 4 ltac:(lia) ltac:(lia)). pose proof (Z.mod_pos_bound b2 64 ltac:(lia)).
  rewrite !join_div, !join_mod by lia.
  pose proof (Z.div_mod b0 4). pose proof (Z.div_mod b1 16). pose proof (Z.div_mod b2 64).
  split; [repeat constructor; lia|]. lia.
Qed.

Lemma sextets_spec bytes :
  forallb is_byte bytes = true ->
  Forall (fun d => 0 <= d < 64) (sextets bytes) /\ bytes_of_sextets (sextets bytes) = bytes.
Proof.
  induction bytes as [|b0|b0 b1|b0 b1 b2 rest IH] using three_ind; cbn [forallb]; intros H; bool_hyps.
  - by split.
  - destruct (sextets_bits b0 0 0) as (Hf & E0 & _); [done..|]. cbn [sextets bytes_of_sextets].
    change (0 / 16) with 0 in *. rewrite Z.add_0_r in *.
    split; [exact (Forall_take _ 2 _ Hf) | by rewrite E0].
  - destruct (sextets_bits b0 b1 0) as (Hf & E0 & E1 & _); [done..|]. cbn [sextets bytes_of_sextets].
    change (0 / 64) with 0 in *. rewrite (Z.add_0_r (b1 mod 16 * 4)) in *.
    split; [exact (Forall_take _ 3 _ Hf) | by rewrite E0, E1].
  - destruct (sextets_bits b0 b1 b2) as (Hf & E0 & E1 & E2); [done..|].
    destruct IH as [IHf IH]; [done|]. cbn [sextets bytes_of_sextets]. rewrite E0, E1, E2, IH.
    split; [|done]. by apply (Forall_app_2 _ [_; _; _; _]).
Qed.

Lemma base64url_roundtrip bytes :
  forallb is_byte bytes = true ->
  base64url_decode (base64url bytes) = bytes /\ forallb base64url_unit (base64url bytes) = true.
Proof.
  intros H. destruct (sextets_spec bytes H) as [Hf Hb]. unfold base64url_decode, base64url. split.
  - rewrite map_map. rewrite <- Hb at 2. f_equal. clear Hb. induction Hf as [|d ds Hd Hf IH]; [done|].
    cbn [map]. by rewrite b64_value_char, IH.
  - clear Hb. induction Hf as [|d ds Hd Hf IH]; [done|]. cbn [map forallb]. unfold base64url_unit at 1.
    by rewrite b64_value_char.
Qed.

Lemma base64url_length bytes : (3 * length (base64url bytes) <= 4 * length bytes + 2)%nat.
Proof.
  unfold base64url. rewrite length_map.
  induction bytes as [|b0|b0 b1|b0 b1 b2 rest IH] using three_ind; cbn [sextets length]; lia.
Qed.

Definition is_ascii (c : Z) : bool := (0 <=? c) && (c <? 128).

Lemma utf8_ascii s :
  forallb is_ascii s = true -> utf8_encode s = s /\ utf8_decode s = s /\ forallb is_byte s = true.
Proof.
  unfold is_ascii. intros H. assert (Hb : forallb is_byte s = true).
  { induction s as [|c s IH]; [done|]. cbn [forallb] in *. bool_hyps. unfold is_byte at 1.
    rewrite IH by done. lia. }
  split; [|split; [|exact Hb]]; clear Hb; induction s as [|c s IH]; try done; cbn [forallb] in H; bool_hyps.
  - assert (E : is_high_surrogate c = false /\ is_low_surrogate c = false)
      by (unfold is_high_surrogate, is_low_surrogate; split; apply andb_false_iff; left; apply Z.leb_gt; lia).
    destruct E as [E1 E2]. cbn [utf8_encode]. rewrite E1, E2. unfold utf8_of_scalar.
    rewrite (proj2 (Z.ltb_lt c 128)) by lia. destruct s as [|d s]; [done|]. cbn [andb orb app].
    by rewrite IH.
  - cbn [utf8_decode]. rewrite (proj2 (Z.ltb_lt c 128)) by lia. by rewrite IH.
Qed.

(** ** Revisions *)

(** The server and the kiosk accept the same revisions. *)
Lemma isCanonicalRevision_is_revision s : isCanonicalRevision s = is_revision s.
Proof.
  unfold isCanonicalRevision, is_revision. f_equal. destruct s as [|c rest]; [done|].
  assert (Hm : forall x y : bool, (match c with 48 => y | _ => x end) = if c =? 48 then y else x).
  { intros x y. destruct c as [|p|p]; try done. do 6 (destruct p as [p|p|]; try done). }
  destruct (Z.eqb_spec c 48) as [->|Hc]; [by destruct rest|]. cbn [forallb].
  destruct rest as [|d rest]; [by rewrite Hm | by destruct c].
Qed.

Lemma is_revision_digits s :
  is_revision s = true -> forallb is_digit s = true /\ (1 <= length s <= 19)%nat.
Proof.
  rewrite <- isCanonicalRevision_is_revision. unfold isCanonicalRevision. intros [H _]%andb_true_iff.
  destruct s as [|c rest]; [done|]. cbn [forallb length]. destruct (Z.eqb_spec c 48) as [->|Hc].
  - apply bool_decide_eq_true in H as ->. split; [done | cbn; lia].
  - bool_hyps. split; [by apply andb_true_iff | lia].
Qed.

(** The text of a [bigint] of the counter is a revision. *)
Lemma js_of_Z_revision n : 0 <= n <= MAX_PG_BIGINT -> is_revision (js_of_Z n) = true.
Proof.
  intros Hn. rewrite js_of_Z_nonneg by lia. destruct (js_of_nonneg_spec n) as (Hd & Hv & Hl & Hb); [lia|].
  assert (Hlen : (length (js_of_nonneg n) <= 19)%nat)
    by (apply js_of_nonneg_length; unfold MAX_PG_BIGINT in Hn; lia).
  rewrite <- isCanonicalRevision_is_revision. unfold isCanonicalRevision. rewrite Hv.
  apply andb_true_iff. split; [|apply Z.leb_le; lia].
  destruct (js_of_nonneg n) as [|c rest]; [cbn in Hl; lia|]. cbn [forallb] in Hd. apply andb_true_iff in Hd as [Hc Hd].
  destruct (Z.eqb_spec c 48) as [->|_]; [|rewrite Hc, Hd; apply Nat.leb_le; cbn in Hlen; lia].
  destruct rest as [|d rest]; [done|]. exfalso. specialize (Hb ltac:(cbn; lia)).
  change (48 :: d :: rest) with ([48] ++ d :: rest) in Hv. rewrite digits_value_app in Hv.
  pose proof (digits_value_bound (d :: rest) Hd) as Hbound. change (digits_value [48]) with 0 in Hv.
  replace (Z.of_nat (length (48 :: d :: rest)) - 1) with (Z.of_nat (length (d :: rest))) in Hb by (cbn [length]; lia).
  lia.
Qed.

(** ** The text of a cursor *)

(** Characters that JSON leaves alone and UTF-8 writes in one byte. *)
Definition simple_char (c : Z) : bool := (48 <=? c) && (c <? 128) && negb (c =? 92) || (c =? 45).

Lemma simple_json_chars s :
  forallb simple_char s = true -> json_chars s = s /\ forallb is_unit s = true /\ forallb is_ascii s = true.
Proof.
  intros H. assert (Hc : forall c, simple_char c = true ->
    json_unit c = [c] /\ is_unit c = true /\ is_ascii c = true /\ is_high_surrogate c = false).
  { intros c Hc. assert (Hr : c = 45 \/ 48 <= c < 128 /\ c <> 92).
    { unfold simple_char in Hc. apply orb_true_iff in Hc as [Hc|Hc]; bool_hyps; lia. }
    clear Hc. assert (Hs : is_surrogate c = false /\ is_high_surrogate c = false).
    { unfold is_surrogate, is_high_surrogate, is_low_surrogate.
      rewrite (proj2 (Z.leb_gt 0xd800 c)), (proj2 (Z.leb_gt 0xdc00 c)) by lia. done. }
    destruct Hs as [Hs Hh]. unfold json_unit, is_unit, is_ascii. rewrite Hs, Hh.
    rewrite !(proj2 (Z.eqb_neq c _)) by lia. rewrite (proj2 (Z.ltb_ge c 32)) by lia.
    split; [done|]. split; [lia|]. split; [lia | done]. }
  induction s as [|c s IH]; [done|]. cbn [forallb] in *. apply andb_true_iff in H as [H1 H2].
  destruct (Hc c H1) as (Hu & Hi & Ha & Hh). destruct (IH H2) as (IHc & IHu & IHa).
  rewrite Hi, Ha, IHu, IHa. split; [|done]. destruct s as [|d s]; [done|].
  change (json_chars (c :: d :: s)) with (if is_high_surrogate c && is_low_surrogate d
    then c :: d :: json_chars s else json_unit c ++ json_chars (d :: s)).
  by rewrite Hh, Hu, IHc.
Qed.

Lemma digits_simple s : forallb is_digit s = true -> forallb simple_char s = true.
Proof.
  induction s as [|c s IH]; [done|]. cbn [forallb]. intros [Hc Hs]%andb_true_iff. rewrite IH by done.
  apply is_digit_spec in Hc. unfold simple_char. rewrite (proj2 (Z.leb_le 48 c)), (proj2 (Z.ltb_lt c 128)) by lia.
  by rewrite (proj2 (Z.eqb_neq c 92)) by lia.
Qed.

Section Roundtrip.
Context (zod_uuid : jsstr -> bool).
(** A UUID is 36 characters, hexadecimal digits and hyphens. *)
Context (zod_uuid_shape : forall s, zod_uuid s = true ->
  length s = 36%nat /\ forallb simple_char s = true).

Lemma valid_cursor_spec c :
  valid_cursor zod_uuid c = true ->
  Forall (fun s => forallb simple_char s = true /\ (length s <= 36)%nat)
    (option_list (cu_since c) ++ [cu_until c; cu_registryVersion c; cu_id c]).
Proof.
  unfold valid_cursor, boxRegistryRevisionSchema. intros H. bool_hyps.
  assert (Hr : forall s, isCanonicalRevision s = true -> forallb simple_char s = true /\ (length s <= 36)%nat).
  { intros s Hs. rewrite isCanonicalRevision_is_revision in Hs. apply is_revision_digits in Hs as [Hd Hl].
    split; [by apply digits_simple | lia]. }
  apply Forall_app. split.
  - destruct (cu_since c) as [s|]; cbn in *; [|constructor]. bool_hyps. constructor; auto.
  - destruct (zod_uuid_shape (cu_id c)) as [Hl Hs]; [done|].
    do 3 (apply Forall_cons; split; [auto|]); [|done]. split; [done | lia].
Qed.

Definition since_value (since : option jsstr) : value :=
  match since with Some since => VStr since | None => VNull end.

Lemma cursor_simple c :
  valid_cursor zod_uuid c = true ->
  forallb plain_field [(js "v", VNum (num 2)); (js "since", since_value (cu_since c));
    (js "until", VStr (cu_until c)); (js "registryVersion", VStr (cu_registryVersion c));
    (js "id", VStr (cu_id c))] = true
  /\ json_quote (cu_until c) = 34 :: cu_until c ++ [34]
  /\ json_quote (cu_registryVersion c) = 34 :: cu_registryVersion c ++ [34]
  /\ json_quote (cu_id c) = 34 :: cu_id c ++ [34]
  /\ json_text (since_value (cu_since c))
     = match cu_since c with Some since => 34 :: since ++ [34] | None => js "null" end.
Proof.
  intros H%valid_cursor_spec. apply Forall_app in H as [Hs H].
  apply Forall_cons in H as [[Hu _] H]. apply Forall_cons in H as [[Hv _] H].
  apply Forall_cons in H as [[Hi _] _].
  destruct (simple_json_chars _ Hu) as (Eu & Pu & _). destruct (simple_json_chars _ Hv) as (Ev & Pv & _).
  destruct (simple_json_chars _ Hi) as (Ei & Pi & _).
  assert (Hsince : plain_field (js "since", since_value (cu_since c)) = true
    /\ json_text (since_value (cu_since c))
       = match cu_since c with Some since => 34 :: since ++ [34] | None => js "null" end).
  { destruct (cu_since c) as [since|]; [|done]. apply Forall_cons in Hs as [[Hs _] _].
    apply simple_json_chars in Hs as (Es & Ps & _). unfold plain_field, since_value. cbn [fst snd json_plain].
    rewrite Ps. split; [done|]. cbn [json_text]. unfold json_quote. by rewrite Es. }
  destruct Hsince as [Hp Ht]. unfold json_quote. rewrite Eu, Ev, Ei. split_and!; try done.
  cbn [forallb]. rewrite Hp. unfold plain_field. cbn [fst snd json_plain]. by rewrite Pu, Pv, Pi.
Qed.

(** The text, spelled out: the field names of the schema around values that JSON
    and UTF-8 leave alone. *)
Lemma cursor_text c :
  valid_cursor zod_uuid c = true ->
  json_text (cursor_value c)
  = 123 :: (json_quote (js "v") ++ [58; 50]) ++ 44 :: (json_quote (js "since") ++ 58
      :: match cu_since c with Some since => 34 :: since ++ [34] | None => js "null" end)
    ++ 44 :: (json_quote (js "until") ++ 58 :: 34 :: cu_until c ++ [34])
    ++ 44 :: (json_quote (js "registryVersion") ++ 58 :: 34 :: cu_registryVersion c ++ [34])
    ++ 44 :: (json_quote (js "id") ++ 58 :: 34 :: cu_id c ++ [34]) ++ [125].
Proof.
  intros (Hp & Eu & Ev & Ei & Es)%cursor_simple. unfold cursor_value.
  change (match cu_since c with Some since => VStr since | None => VNull end) with (since_value (cu_since c)).
  rewrite json_object_text by exact Hp. cbn [map]. rewrite !commas_cons. unfold field_text. cbn [fst snd].
  rewrite Es. cbn [json_text]. rewrite Eu, Ev, Ei.
  change (json_number_text (num 2)) with [50]. unfold commas. cbn [join].
  repeat first [rewrite <- app_assoc | progress cbn [app]]. reflexivity.
Qed.

Lemma cursor_text_ascii c :
  valid_cursor zod_uuid c = true ->
  forallb is_ascii (json_text (cursor_value c)) = true /\ (length (json_text (cursor_value c)) <= 220)%nat.
Proof.
  intros Hv. rewrite (cursor_text c Hv). apply valid_cursor_spec, Forall_app in Hv as [Hs H].
  apply Forall_cons in H as [[Hu Lu] H]. apply Forall_cons in H as [[Hr Lr] H].
  apply Forall_cons in H as [[Hi Li] _].
  apply simple_json_chars in Hu as (_ & _ & Hu). apply simple_json_chars in Hr as (_ & _ & Hr).
  apply simple_json_chars in Hi as (_ & _ & Hi).
  set (s := match cu_since c with Some since => 34 :: since ++ [34] | None => js "null" end).
  assert (Hsince : forallb is_ascii s = true /\ (length s <= 38)%nat).
  { subst s. destruct (cu_since c) as [since|]; [|js_lits; split; [done | cbn; lia]].
    apply Forall_cons in Hs as [[Hs Ls] _]. apply simple_json_chars in Hs as (_ & _ & Hs).
    cbn [forallb length]. rewrite forallb_app, length_app, Hs. split; [done | cbn; lia]. }
  destruct Hsince as [Hsa Hsl]. clearbody s. split.
  - repeat (rewrite forallb_app || cbn [forallb]). by rewrite Hsa, Hu, Hr, Hi.
  - repeat (rewrite length_app || cbn [length]).
    repeat match goal with
    | |- context [length (json_quote (js ?k))] =>
        let n := eval vm_compute in (length (json_quote (js k))) in
        change (length (json_quote (js k))) with n
    end. lia.
Qed.

Lemma cursorSchema_value c :
  valid_cursor zod_uuid c = true -> cursorSchema zod_uuid (cursor_value c) = Some c.
Proof.
  intros Hv. destruct c as [since until version id].
  assert (Hget : forall key v, (key, v) ∈ [(js "v", VNum (num 2)); (js "since", since_value since);
      (js "until", VStr until); (js "registryVersion", VStr version); (js "id", VStr id)] ->
    get key (cursor_value {| cu_since := since; cu_until := until; cu_registryVersion := version; cu_id := id |}) = v).
  { intros key v. rewrite !elem_of_cons, elem_of_nil. intros [H|[H|[H|[H|[H|[]]]]]]; by injection H as -> ->. }
  unfold cursorSchema, cursor_value at 1.
  replace (forallb _ _) with true by (symmetry; by vm_compute). cbn [negb].
  rewrite !(Hget (js "v") (VNum (num 2))), (Hget (js "since") (since_value since)),
    (Hget (js "until") (VStr until)), (Hget (js "registryVersion") (VStr version)),
    (Hget (js "id") (VStr id)) by set_solver.
  cbn [integer_of]. rewrite is_integer_num, int_value_num, bool_decide_eq_true_2 by done. cbn [negb].
  replace (match since_value since with VNull => Some None | VStr since => Some (Some since) | _ => None end)
    with (Some since) by (by destruct since). cbn [mbind option_bind]. by rewrite Hv.
Qed.

Lemma cursor_decodes c raw :
  encodeBoxRegistryCursor zod_uuid c = Some raw -> decodeBoxRegistryCursor zod_uuid raw = Some c.
Proof.
  unfold encodeBoxRegistryCursor. destruct (valid_cursor zod_uuid c) eqn:Hv; [|done]. intros <-%(inj Some).
  destruct (cursor_text_ascii c Hv) as [Ha Hl]. destruct (utf8_ascii _ Ha) as (Ee & Ed & Hb). rewrite Ee.
  destruct (base64url_roundtrip _ Hb) as [Er Hu]. pose proof (base64url_length (json_text (cursor_value c))).
  unfold decodeBoxRegistryCursor. rewrite Hu.
  set (raw := base64url (json_text (cursor_value c))) in *.
  rewrite (proj2 (Nat.ltb_ge CURSOR_MAX_LENGTH (length raw))) by (unfold CURSOR_MAX_LENGTH; lia).
  assert (Hne : (length raw =? 0)%nat = false).
  { apply Nat.eqb_neq. subst raw. rewrite (cursor_text c Hv). by destruct (json_quote (js "v")) as [|? [|? ?]]. }
  rewrite Hne. cbn [orb negb]. rewrite Er. fold raw. rewrite jseqb_refl. cbn [negb]. rewrite Ed.
  destruct (cursor_simple c Hv) as (Hp & _). rewrite JSON_roundtrip.
  2: { unfold cursor_value. cbn [json_plain]. apply andb_true_iff. split; [exact Hp|].
       apply bool_decide_eq_true. cbn. js_lits. by apply (bool_decide_unpack _). }
  cbn [mbind option_bind]. rewrite cursorSchema_value by done. cbn [mbind option_bind].
  rewrite bool_decide_eq_true_2; [done|]. unfold encodeBoxRegistryCursor. by rewrite Hv, Ee.
Qed.

(** C21: A cursor is accepted exactly in the spelling the server gives it: decoding
    a text yields a cursor if and only if the text is what the server writes for
    that cursor.  So a client can hand back a cursor, and nothing else. *)
Theorem cursor_exact (raw : jsstr) (c : BoxRegistryCursor) :
  decodeBoxRegistryCursor zod_uuid raw = Some c <-> encodeBoxRegistryCursor zod_uuid c = Some raw.
Proof.
  split; [|apply cursor_decodes]. unfold decodeBoxRegistryCursor.
  destruct (_ || _ || _); [done|]. destruct (negb _); [done|].
  destruct (JSON_parse _) as [v|]; [|done]. cbn [mbind option_bind].
  destruct (cursorSchema zod_uuid v) as [parsed|]; [|done]. cbn [mbind option_bind].
  destruct (bool_decide _) eqn:E; [|done]. intros [= <-]. by apply bool_decide_eq_true in E.
Qed.
End Roundtrip.
