(* ===== verification/BoxFeed.v ===== *)
(** * The pages of the box registry

    The rest of [apps/api/src/modules/kiosk/box-registry.dto.ts] and
    [BoxRegistryService] of [box-registry.service.ts]: a kiosk asks for the boxes
    that changed since a revision, and is answered page by page.

    [listBoxRegistry] awaits the operations of [feed_op]; each reads the tables as
    one state of them ([FeedState]: the tenant's revision and its tables) at some
    time.  [history] is what the tables were, one state for each commit; time goes
    on between the operations by as much as a [choice] says, and any of them may
    fail or be the last. *)

From stdpp Require Import base list strings gmap.
From Stdlib Require Import ZArith QArith Lia.
From S2P Require Import Prelude Gs1 KioskApi Json Effects KioskRegistry KioskRefresh BoxFacts BoxCursor.

#[local] Open Scope Z_scope.
#[local] Open Scope prog_scope.

(** ** Requests and windows *)

Record BoxRegistryQueryDto := {
  q_since : option jsstr; q_until : option jsstr; q_cursor : option jsstr; q_limit : Z
}.

Definition boxRegistryQuerySchema (q : BoxRegistryQueryDto) : bool :=
  forallb boxRegistryRevisionSchema (option_list (q_since q))
  && forallb boxRegistryRevisionSchema (option_list (q_until q))
  && forallb (fun s => negb (length s =? 0)%nat && (length s <=? CURSOR_MAX_LENGTH)%nat)
       (option_list (q_cursor q))
  && (1 <=? q_limit q) && (q_limit q <=? 500).

Record ResolvedBoxRegistryWindow := {
  w_since : option jsstr; w_until : jsstr; w_afterRegistryVersion : option jsstr;
  w_afterId : option jsstr; w_limit : Z
}.

(** [BadRequestException], [ConflictException] and what becomes status 500. *)
Inductive feed_error := BadRequest | RegistrySnapshotChanged | InternalError.

(** [BigInt(s)] of a revision. *)
Definition BigInt (s : jsstr) : Z := digits_value s.

Section Window.
Context (zod_uuid : jsstr -> bool).

Definition resolveBoxRegistryWindow (query : BoxRegistryQueryDto) (committedVersion : jsstr)
  : feed_error + ResolvedBoxRegistryWindow :=
  if negb (boxRegistryQuerySchema query) || negb (boxRegistryRevisionSchema committedVersion)
  then inl InternalError
  else match q_cursor query with
  | None =>
      if bool_decide (is_Some (q_until query)) then inl BadRequest
      else if match q_since query with
              | Some since => BigInt committedVersion <? BigInt since | None => false end
      then inl BadRequest
      else inr {| w_since := q_since query; w_until := committedVersion;
                  w_afterRegistryVersion := None; w_afterId := None; w_limit := q_limit query |}
  | Some raw =>
      match decodeBoxRegistryCursor zod_uuid raw with
      | None => inl BadRequest
      | Some cursor =>
          if negb (bool_decide (q_until query = Some (cu_until cursor)))
             || negb (bool_decide (q_since query = cu_since cursor))
          then inl BadRequest
          else if (BigInt committedVersion <? BigInt (cu_until cursor))
                  || (BigInt (cu_until cursor) <? BigInt (cu_registryVersion cursor))
                  || match cu_since cursor with
                     | Some since => BigInt (cu_registryVersion cursor) <? BigInt since
                     | None => false end
          then inl BadRequest
          else inr {| w_since := cu_since cursor; w_until := cu_until cursor;
                      w_afterRegistryVersion := Some (cu_registryVersion cursor);
                      w_afterId := Some (cu_id cursor); w_limit := q_limit query |}
      end
  end.
End Window.

(** ** The two views of a change *)

(** Narrows a change to the seven fields a kiosk accepts. *)
Definition toKioskChange (change : StationBoxRegistryChange) : KioskBoxRegistryChange :=
  match change with
  | StationRemove sscc updatedAt => Remove sscc updatedAt
  | StationUpsert boxId sscc productId bottleCount contentKeys updatedAt _ _ _ _ _ =>
      Upsert sscc {| bx_boxId := boxId; bx_productId := productId; bx_bottleCount := bottleCount;
                     bx_contentKeys := contentKeys; bx_updatedAt := updatedAt |}
  end.

Record RegistryPage A := { page_until : jsstr; page_items : list A; page_nextCursor : option jsstr }.
Arguments page_until {A} _.
Arguments page_items {A} _.
Arguments page_nextCursor {A} _.

Definition toKioskPage (page : RegistryPage StationBoxRegistryChange)
  : RegistryPage KioskBoxRegistryChange :=
  {| page_until := page_until page; page_items := toKioskChange <$> page_items page;
     page_nextCursor := page_nextCursor page |}.

(** The body of the answer, as the kiosk's [fetch] yields it. *)
Definition change_value (change : KioskBoxRegistryChange) : value :=
  match change with
  | Upsert sscc box =>
      VObj [(js "kind", VStr (js "upsert")); (js "boxId", VStr (bx_boxId box)); (js "sscc", VStr sscc);
            (js "productId", VStr (bx_productId box)); (js "bottleCount", VNum (num (bx_bottleCount box)));
            (js "contentKeys", VArr (map VStr (bx_contentKeys box)));
            (js "updatedAt", VStr (bx_updatedAt box))]
  | Remove sscc updatedAt =>
      VObj [(js "kind", VStr (js "remove")); (js "sscc", VStr sscc); (js "updatedAt", VStr updatedAt)]
  end.

Definition page_value (page : RegistryPage KioskBoxRegistryChange) : value :=
  VObj ([(js "until", VStr (page_until page)); (js "items", VArr (map change_value (page_items page)))]
        ++ match page_nextCursor page with
           | Some next => [(js "nextCursor", VStr next)] | None => [] end).

(** ** Cutting a page *)

Record BoxRegistryCandidatePrefix := {
  px_candidates : list BoxRegistryCandidate; px_memberKeyBudget : nat; px_hasMoreCandidates : bool
}.

Definition member_cost (counts : gmap jsstr nat) (candidate : BoxRegistryCandidate) : nat :=
  let count := count_of counts (id candidate) in
  if (MAX_BOX_REGISTRY_MEMBERS <? count)%nat then 0%nat else count.

(** The loop, with what is selected so far ([some] of it) and its cost. *)
Fixpoint prefix_loop (counts : gmap jsstr nat) (some_ : bool) (budget : nat)
    (candidates : list BoxRegistryCandidate) : list BoxRegistryCandidate * nat :=
  match candidates with
  | [] => ([], budget)
  | candidate :: rest =>
      let cost := member_cost counts candidate in
      if some_ && (MAX_REGISTRY_PAGE_MEMBER_KEYS <? budget + cost)%nat then ([], budget)
      else
        let '(selected, total) := prefix_loop counts true (budget + cost) rest in
        (candidate :: selected, total)
  end.

Definition selectBoxRegistryCandidatePrefix (candidates : list BoxRegistryCandidate)
    (membershipCounts : gmap jsstr nat) (databaseHasMore : bool) : BoxRegistryCandidatePrefix :=
  let '(loop, memberKeyBudget) := prefix_loop membershipCounts false 0 candidates in
  let selected := match loop, candidates with [], first :: _ => [first] | _, _ => loop end in
  {| px_candidates := selected; px_memberKeyBudget := memberKeyBudget;
     px_hasMoreCandidates := databaseHasMore || (length selected <? length candidates)%nat |}.

Definition isRegistryRevisionInWindow (registryVersion : jsstr) (since : option jsstr) (until : jsstr)
  : bool :=
  let revision := BigInt registryVersion in
  (revision <=? BigInt until)
  && match since with None => true | Some since => BigInt since <? revision end.

(** [None] is the [ZodError] of a cursor that cannot be written. *)
Definition shapeBoxRegistryPage (zod_uuid : jsstr -> bool) (candidates : list BoxRegistryCandidate)
    (factsByBox : jsstr -> list BoxRegistryMemberFact) (window : ResolvedBoxRegistryWindow)
    (hasMoreCandidates : bool) : option (RegistryPage StationBoxRegistryChange) :=
  let delta := bool_decide (is_Some (w_since window)) in
  let items := omap (fun candidate =>
    evaluateBoxRegistryCandidate candidate (factsByBox (id candidate)) delta) candidates in
  nextCursor ← match hasMoreCandidates, last candidates with
    | true, Some last_ =>
        Some <$> encodeBoxRegistryCursor zod_uuid
          {| cu_since := w_since window; cu_until := w_until window;
             cu_registryVersion := js_of_Z (registryVersion last_); cu_id := id last_ |}
    | _, _ => Some None
    end;
  Some {| page_until := w_until window; page_items := items; page_nextCursor := nextCursor |}.

(** ** The tables *)

(** The counter of the tenant ([box_registry_versions], no row before its first
    revision) and the tables. *)
Record FeedState := { fs_version : option Z; fs_stock : Stock }.

(** [row?.currentVersion ?? 0n]. *)
Definition current (st : FeedState) : Z := default 0 (fs_version st).

(** The rows of the joins for one box. *)
Definition box_candidates (db : Stock) (box : BoxRow) : list BoxRegistryCandidate :=
  shift ← List.filter (fun shift => jseqb (s_id shift) (b_shiftId box)) (shifts db);
  product ← List.filter (fun product => jseqb (p_id product) (s_productId shift)) (products db);
  pallet ← left_join (List.filter (fun pallet => bool_decide (Some (pl_id pallet) = b_palletId box))
                        (pallets db));
  [{| id := b_id box; shiftId := b_shiftId box; terminalId := b_terminalId box; sscc := b_sscc box;
      productId := s_productId shift; productGtin14 := p_gtin14 product; closedAt := b_closedAt box;
      closureReceivedAt := b_closureReceivedAt box; disassembledAt := b_disassembledAt box;
      palletId := b_palletId box; palletSscc := (p ← pallet; pl_sscc p);
      palletDisassembledAt := (p ← pallet; pl_disassembledAt p);
      productionDate := match s_productionDate shift with Some d => Some d | None => s_plannedDate shift end;
      registryVersion := b_registryVersion box; updatedAt := b_updatedAt box |}].

(** Where the rows begin: after a position of the cursor, or after a revision. *)
Definition lower_bound (since : option Z) (afterRegistryVersion : option Z) (afterId : option jsstr)
    (version : Z) (id : jsstr) : bool :=
  match afterRegistryVersion, afterId with
  | Some afterVersion, Some afterId =>
      (afterVersion <? version) || ((version =? afterVersion) && js_ltb afterId id)
  | _, _ => match since with None => true | Some since => since <? version end
  end.

(** The order of the index: by revision, then by id. *)
Definition position_leb (x y : Z * jsstr) : bool :=
  (x.1 <? y.1) || ((x.1 =? y.1) && js_leb x.2 y.2).

Definition candidate_position (c : BoxRegistryCandidate) : Z * jsstr := (registryVersion c, id c).

Definition in_range (until : Z) (bound : Z -> jsstr -> bool) (box : BoxRow) : bool :=
  bool_decide (is_Some (b_sscc box)) && (b_registryVersion box <=? until)
  && bound (b_registryVersion box) (b_id box).

Definition candidate_rows (db : Stock) (until : Z) (bound : Z -> jsstr -> bool) (n : nat)
  : list BoxRegistryCandidate :=
  take n (js_sort (fun x y => position_leb (candidate_position x) (candidate_position y))
    (box ← List.filter (in_range until bound) (boxes db); box_candidates db box)).

(** ** The handler *)

(** What [list] awaits. *)
Inductive feed_op : Type -> Type :=
| CurrentVersion : feed_op jsstr
| CandidateRows (until : Z) (bound : Z -> jsstr -> bool) (limit : nat) : feed_op (list BoxRegistryCandidate)
| MembershipCounts (candidates : list BoxRegistryCandidate) : feed_op (gmap jsstr nat)
| Facts (candidates : list BoxRegistryCandidate) (counts : gmap jsstr nat)
  : feed_op (jsstr -> list BoxRegistryMemberFact).

Abbreviation feed := (prog feed_op unit feed_error).

Definition query {R} (o : feed_op R) : feed R := call_as (fun _ => InternalError) o.

Definition assertBoxRegistrySnapshotCurrent (current until : jsstr) : feed unit :=
  if jseqb current until then Ret tt else Raise RegistrySnapshotChanged.

Section List_.
Context (zod_uuid : jsstr -> bool).

Definition listStation (q : BoxRegistryQueryDto) : feed (RegistryPage StationBoxRegistryChange) :=
  let! initialVersion := query CurrentVersion in
  match resolveBoxRegistryWindow zod_uuid q initialVersion with
  | inl e => Raise e
  | inr window =>
      assertBoxRegistrySnapshotCurrent initialVersion (w_until window) ;;
      let bound := lower_bound (BigInt <$> w_since window) (BigInt <$> w_afterRegistryVersion window)
                     (w_afterId window) in
      let limit := Z.to_nat (w_limit window) in
      let! rows := query (CandidateRows (BigInt (w_until window)) bound (S limit)) in
      let candidateWindow := take limit rows in
      let! counts := query (MembershipCounts candidateWindow) in
      let prefix := selectBoxRegistryCandidatePrefix candidateWindow counts (limit <? length rows)%nat in
      let! facts := query (Facts (px_candidates prefix) counts) in
      let! finalVersion := query CurrentVersion in
      assertBoxRegistrySnapshotCurrent finalVersion (w_until window) ;;
      match shapeBoxRegistryPage zod_uuid (px_candidates prefix) facts window (px_hasMoreCandidates prefix) with
      | None => Raise InternalError
      | Some page => Ret page
      end
  end.

(** The view of a kiosk. *)
Definition listKiosk (q : BoxRegistryQueryDto) : feed (RegistryPage KioskBoxRegistryChange) :=
  let! page := listStation q in Ret (toKioskPage page).
End List_.

(** The request a kiosk sends: [BOX_REGISTRY_PAGE_LIMIT] of sync/worker.ts. *)
Definition BOX_REGISTRY_PAGE_LIMIT : Z := 250.

Definition kiosk_request (q : PageQuery) : BoxRegistryQueryDto :=
  {| q_since := pq_since q; q_until := pq_until q; q_cursor := pq_cursor q;
     q_limit := BOX_REGISTRY_PAGE_LIMIT |}.

(** ** The environment *)

(** What happens before an operation: commits, and a failure or the end of the
    process. *)
Inductive feed_fate := Answers | Fails | Dies.
Record feed_choice := { fc_commits : nat; fc_fate : feed_fate }.

Section Environment.
Context (history : list FeedState).

Definition state_at (time : nat) : option FeedState := history !! time.

Definition read {R} (o : feed_op R) (st : FeedState) : R :=
  match o in feed_op R return R with
  | CurrentVersion => js_of_Z (current st)
  | CandidateRows until bound limit => candidate_rows (fs_stock st) until bound limit
  | MembershipCounts candidates => loadBoxRegistryMembershipCounts (fs_stock st) candidates
  | Facts candidates counts => resolveBoxRegistryFacts (fs_stock st) candidates counts
  end.

(** After the last state of the history nothing is answered any more. *)
Definition feed_perform (R : Type) (o : feed_op R) (c : feed_choice) (time : nat)
  : option (R + unit) * nat :=
  let time' := (time + fc_commits c)%nat in
  match fc_fate c, state_at time' with
  | Answers, Some st => (Some (inl (read o st)), time')
  | Fails, _ => (Some (inr tt), time')
  | _, _ => (None, time')
  end.
End Environment.
