(* ===== verification/BoxVersions.v ===== *)
(** * The revisions of the box registry

    [apps/api/src/modules/boxes/box-registry-version.ts] and
    [modules/products/product-registry-invalidation.ts]: a transaction that
    changes what the registry says of boxes takes the next revision of the tenant
    and stamps these boxes with it.

    [within] is a transaction under way: writes that leave the stamps alone, and
    calls of the two functions above.  [commit] adds the contract of
    [advanceBoxRegistryVersion], "stamps exactly the changed boxes": a box it did
    not stamp looks ([sight]) as before.  The transactions are serialized on the
    counter's row, so a history is a list of states, one per commit.  What readers
    rely on follows ([follows], [chronicle_follows], [chronicle_agrees]): a box
    stamped no later than a revision looks now as it did when that revision was
    current. *)

From stdpp Require Import base list strings gmap.
From Stdlib Require Import ZArith Lia.
From S2P Require Import Prelude KioskApi BoxFacts BoxCursor BoxFeed.

#[local] Open Scope Z_scope.

(** ** Taking a revision *)

(** The next revision of the tenant; [None] when the counter's [bigint] ends. *)
Definition allocateBoxRegistryVersion (st : FeedState) : option (Z * FeedState) :=
  let next := match fs_version st with None => 1 | Some v => v + 1 end in
  if MAX_PG_BIGINT <? next then None
  else Some (next, {| fs_version := Some next; fs_stock := fs_stock st |}).

(** [GREATEST(clock_timestamp(), updated_at + interval '1 millisecond')]. *)
Definition stamp_box (version clock : Z) (box : BoxRow) : BoxRow :=
  {| b_id := b_id box; b_shiftId := b_shiftId box; b_terminalId := b_terminalId box; b_deviceBoxId := b_deviceBoxId box;
     b_sscc := b_sscc box; b_closedAt := b_closedAt box; b_closureReceivedAt := b_closureReceivedAt box;
     b_disassembledAt := b_disassembledAt box; b_palletId := b_palletId box;
     b_registryVersion := version; b_updatedAt := Z.max clock (b_updatedAt box + 1) |}.

Definition stamp_boxes (selected : BoxRow -> bool) (version clock : Z) (db : Stock) : Stock :=
  {| products := products db; shifts := shifts db; pallets := pallets db;
     boxes := (fun box => if selected box then stamp_box version clock box else box) <$> boxes db;
     boxItems := boxItems db; codeRegistry := codeRegistry db; codes := codes db |}.

Definition advanceBoxRegistryVersion (boxIds : list jsstr) (clock : Z) (st : FeedState)
  : option (option Z * FeedState) :=
  let changedBoxIds := js_sort js_leb (remove_dups boxIds) in
  match changedBoxIds with
  | [] => Some (None, st)
  | _ =>
      '(currentVersion, st') ← allocateBoxRegistryVersion st;
      Some (Some currentVersion,
            {| fs_version := fs_version st';
               fs_stock := stamp_boxes (fun box => is_in changedBoxIds (b_id box)) currentVersion clock
                             (fs_stock st') |})
  end.

Definition productGtinActuallyChanged (tenantBefore tenantAfter productBefore productAfter
    gtinBefore gtinAfter : jsstr) : bool :=
  jseqb tenantBefore tenantAfter && jseqb productBefore productAfter && negb (jseqb gtinBefore gtinAfter).

(** The boxes [buildProductRegistryStampSql] updates. *)
Definition depends_on_product (db : Stock) (productId : jsstr) (box : BoxRow) : bool :=
  existsb (fun shift => jseqb (s_id shift) (b_shiftId box) && jseqb (s_productId shift) productId) (shifts db)
  && bool_decide (is_Some (b_sscc box)) && bool_decide (is_Some (b_closedAt box)).

Definition invalidateProductGtinRegistry (productId : jsstr) (clock : Z) (st : FeedState)
  : option FeedState :=
  '(revision, st') ← allocateBoxRegistryVersion st;
  Some {| fs_version := fs_version st';
          fs_stock := stamp_boxes (depends_on_product (fs_stock st') productId) revision clock
                        (fs_stock st') |}.

(** ** What the registry can see of a box *)

(** A candidate without what a kiosk is not told, and without its stamp. *)
Definition kiosk_view (c : BoxRegistryCandidate) : BoxRegistryCandidate :=
  {| id := id c; shiftId := shiftId c; terminalId := terminalId c; sscc := sscc c;
     productId := productId c; productGtin14 := productGtin14 c; closedAt := closedAt c;
     closureReceivedAt := closureReceivedAt c; disassembledAt := disassembledAt c;
     palletId := None; palletSscc := None; palletDisassembledAt := None; productionDate := None;
     registryVersion := 0; updatedAt := updatedAt c |}.

(** How many members a box has, as far as the feed counts, and their facts: what
    [resolveBoxRegistryFacts] says of the box asked for alone. *)
Definition member_count (db : Stock) (boxId : jsstr) : nat :=
  (length (List.filter (fun item => jseqb (bi_boxId item) boxId) (boxItems db))
   `min` S MAX_BOX_REGISTRY_MEMBERS)%nat.

Definition box_facts (db : Stock) (boxId : jsstr) : list BoxRegistryMemberFact :=
  let total := member_count db boxId in
  if (MAX_BOX_REGISTRY_MEMBERS <? total)%nat then [oversized boxId total]
  else member_rows db [boxId] (member_count db).

(** A box whose members the feed looks at: closed, its closure received, whole. *)
Definition offerable (box : BoxRow) : bool :=
  match b_closedAt box, b_closureReceivedAt box, b_disassembledAt box with
  | Some _, Some _, None => true | _, _, _ => false
  end.

(** What is read of a member: of one that left the box, when it did; of one that is
    in it, also its owner and its code. *)
Definition seen_fact (fact : BoxRegistryMemberFact) : BoxRegistryMemberFact :=
  if active_fact fact then fact
  else {| f_boxId := f_boxId fact; f_codeHash := f_codeHash fact; addedAt := addedAt fact;
          displacedAt := displacedAt fact; removedAt := removedAt fact; registryShiftId := None;
          registryTerminalId := None; registryScannedAt := None; registryUpdatedAt := None;
          canonicalRaw := None; canonicalGtin14 := None; totalMembershipCount := totalMembershipCount fact |}.

(** What the registry reads of a box: of one that cannot be handed out, only its
    number and when it was touched. *)
Definition sight (db : Stock) (box : BoxRow)
  : option jsstr * Z * option (list BoxRegistryCandidate * nat * list BoxRegistryMemberFact) :=
  (b_sscc box, b_updatedAt box,
   if offerable box then
     Some (kiosk_view <$> box_candidates db box, member_count db (b_id box),
           seen_fact <$> box_facts db (b_id box))
   else None).

(** ** Transactions *)

Definition box_ids (db : Stock) : list jsstr := b_id <$> boxes db.

(** Other statements do not touch the stamps, and boxes are not deleted. *)
Definition leaves_stamps (db db' : Stock) : Prop :=
  (forall box', box' ∈ boxes db' ->
     (exists box, box ∈ boxes db /\ b_id box = b_id box' /\ b_registryVersion box = b_registryVersion box')
     \/ (b_id box' ∉ box_ids db) /\ b_registryVersion box' = 0)
  /\ forall i, i ∈ box_ids db -> i ∈ box_ids db'.

(** A transaction under way, and the boxes it has stamped. *)
Inductive within (start : FeedState) : list jsstr -> FeedState -> Prop :=
| Begins : within start [] start
| Writes ids st db' :
    within start ids st -> leaves_stamps (fs_stock st) db' -> NoDup (box_ids db') ->
    within start ids {| fs_version := fs_version st; fs_stock := db' |}
| Advances ids st boxIds clock v st' :
    within start ids st -> advanceBoxRegistryVersion boxIds clock st = Some (v, st') ->
    within start (List.filter (is_in boxIds) (box_ids (fs_stock st)) ++ ids) st'
| Invalidates ids st productId clock st' :
    within start ids st -> invalidateProductGtinRegistry productId clock st = Some st' ->
    within start ((b_id <$> List.filter (depends_on_product (fs_stock st) productId)
                              (boxes (fs_stock st))) ++ ids) st'.

(** What the keys of the tables guarantee: ids and SSCCs are unique, and a box has
    its shift, its product and at most one pallet. *)
Record constraints (db : Stock) : Prop := {
  key_id : NoDup (box_ids db);
  key_sscc : NoDup (omap b_sscc (boxes db));
  key_joins : forall box, box ∈ boxes db -> exists c, box_candidates db box = [c]
}.

(** A transaction that announces what it changes: a box it did not stamp is seen
    as before, and an SSCC stays with its box. *)
Definition announces (ids : list jsstr) (db db' : Stock) : Prop :=
  (forall box', box' ∈ boxes db' -> is_Some (b_sscc box') -> b_id box' ∉ ids ->
     exists box, box ∈ boxes db /\ b_id box = b_id box' /\ sight db box = sight db' box')
  /\ forall box, box ∈ boxes db -> is_Some (b_sscc box) ->
     exists box', box' ∈ boxes db' /\ b_id box' = b_id box /\ b_sscc box' = b_sscc box.

Definition commit (st st' : FeedState) : Prop :=
  exists ids, within st ids st' /\ announces ids (fs_stock st) (fs_stock st') /\ constraints (fs_stock st').

(** No stamp is ahead of the counter. *)
Definition stamped (st : FeedState) : Prop :=
  0 <= current st <= MAX_PG_BIGINT
  /\ forall box, box ∈ boxes (fs_stock st) -> 0 <= b_registryVersion box <= current st.

(** A history: it begins in order, and goes on by commits. *)
Definition chronicle (history : list FeedState) : Prop :=
  (forall st, history !! 0%nat = Some st -> stamped st /\ constraints (fs_stock st))
  /\ forall i st st', history !! i = Some st -> history !! S i = Some st' -> commit st st'.

(** ** Stamps *)

Lemma allocate_spec st v st' :
  allocateBoxRegistryVersion st = Some (v, st') -> 0 <= current st ->
  current st < v <= MAX_PG_BIGINT /\ current st' = v /\ fs_stock st' = fs_stock st.
Proof.
  unfold allocateBoxRegistryVersion, current. destruct (Z.ltb_spec MAX_PG_BIGINT
    match fs_version st with None => 1 | Some v => v + 1 end); [done|].
  intros [= <- <-]. destruct (fs_version st); cbn in *; (split; [lia | done]).
Qed.

Lemma stamp_boxes_elem selected version clock db box' :
  box' ∈ boxes (stamp_boxes selected version clock db) <->
  exists box, box ∈ boxes db /\ box' = if selected box then stamp_box version clock box else box.
Proof. cbn. rewrite list_elem_of_fmap. naive_solver. Qed.

Lemma stamp_box_ids selected version clock db :
  box_ids (stamp_boxes selected version clock db) = box_ids db.
Proof.
  unfold box_ids. cbn. rewrite <- list_fmap_compose. apply list_fmap_ext. intros i box _. cbn.
  by destruct (selected box).
Qed.

(** What holds at any point of a transaction. *)
Record progress (start : FeedState) (ids : list jsstr) (st : FeedState) : Prop := {
  pg_stamped : stamped st;
  pg_key : NoDup (box_ids (fs_stock st));
  pg_later : current start <= current st;
  pg_known : forall i, i ∈ ids -> i ∈ box_ids (fs_stock st);
  pg_new : forall box, box ∈ boxes (fs_stock st) -> b_id box ∈ ids -> current start < b_registryVersion box;
  pg_old : forall box, box ∈ boxes (fs_stock st) -> b_id box ∉ ids ->
    b_registryVersion box = 0 /\ (b_id box ∉ box_ids (fs_stock start))
    \/ exists box0, box0 ∈ boxes (fs_stock start) /\ b_id box0 = b_id box
       /\ b_registryVersion box0 = b_registryVersion box;
  pg_kept : forall i, i ∈ box_ids (fs_stock start) -> i ∈ box_ids (fs_stock st)
}.

(** Stamping with a fresh revision. *)
Lemma progress_stamp start ids st st' v selected clock stamped_ids :
  progress start ids st -> allocateBoxRegistryVersion st = Some (v, st') ->
  (forall box, box ∈ boxes (fs_stock st) -> selected box = true <-> b_id box ∈ stamped_ids) ->
  (forall i, i ∈ stamped_ids -> i ∈ box_ids (fs_stock st)) ->
  progress start (stamped_ids ++ ids)
    {| fs_version := fs_version st'; fs_stock := stamp_boxes selected v clock (fs_stock st') |}.
Proof.
  intros [[Hc Hs] Hkey Hl Hk Hn Ho Hkept] Ha Hsel Hin.
  destruct (allocate_spec _ _ _ Ha) as (Hv & Hcur & ->); [lia|].
  assert (Hcase : forall box', box' ∈ boxes (stamp_boxes selected v clock (fs_stock st)) ->
    (b_id box' ∈ stamped_ids) /\ b_registryVersion box' = v
    \/ (b_id box' ∉ stamped_ids) /\ box' ∈ boxes (fs_stock st)).
  { intros box' (box & Hbox & ->)%stamp_boxes_elem. destruct (selected box) eqn:E.
    - left. split; [|done]. by apply (Hsel box).
    - right. split; [|done]. rewrite <- Hsel by done. by rewrite E. }
  split; unfold stamped, current; cbn [fs_version fs_stock]; fold (current st') (current start); rewrite ?Hcur.
  - split; [lia|]. intros box' Hb'. destruct (Hcase _ Hb') as [[_ ->]|[_ Hb]]; [lia|].
    specialize (Hs _ Hb). lia.
  - by rewrite stamp_box_ids.
  - lia.
  - intros i Hi. rewrite stamp_box_ids. apply elem_of_app in Hi as [Hi|Hi]; auto.
  - intros box' Hb' Hi. destruct (Hcase _ Hb') as [[_ ->]|[Hno Hb]]; [lia|].
    apply elem_of_app in Hi as [Hi|Hi]; [done | by apply Hn].
  - intros box' Hb' Hi. apply not_elem_of_app in Hi as [Hi1 Hi2].
    destruct (Hcase _ Hb') as [[? _]|[_ Hb]]; [done | by apply Ho].
  - intros i Hi. rewrite stamp_box_ids. by apply Hkept.
Qed.

Lemma within_progress start ids st :
  stamped start -> NoDup (box_ids (fs_stock start)) -> within start ids st -> progress start ids st.
Proof.
  intros Hst Hkey Hw. induction Hw as [|ids st db' Hw IH Hl Hnd|ids st boxIds clock v st' Hw IH Ha
    |ids st productId clock st' Hw IH Ha].
  - split; [done | done | lia | by intros ? ?%elem_of_nil | by intros ? ? ?%elem_of_nil | | done].
    intros box Hb _. right. by exists box.
  - destruct IH as [[Hc Hs] _ Hle Hk Hn Ho Hkept], Hl as [Hl1 Hl2].
    split; unfold stamped, current; cbn [fs_version fs_stock]; fold (current st) (current start).
    + split; [done|]. intros box' Hb'. destruct (Hl1 _ Hb') as [(box & Hb & _ & <-)|[_ ->]]; [auto | lia].
    + done.
    + done.
    + auto.
    + intros box' Hb' Hi. destruct (Hl1 _ Hb') as [(box & Hb & Hid & <-)|[Hno _]].
      * apply Hn; [done | by rewrite Hid].
      * destruct Hno. by apply Hk.
    + intros box' Hb' Hi. destruct (Hl1 _ Hb') as [(box & Hb & Hid & <-)|[Hno E0]].
      * rewrite <- Hid in *. by apply Ho.
      * left. split; [done|]. intros Hin. by apply Hno, Hkept.
    + auto.
  - unfold advanceBoxRegistryVersion in Ha. remember (js_sort js_leb (remove_dups boxIds)) as l eqn:El.
    assert (Hl : forall i, i ∈ l <-> i ∈ boxIds) by (intros i; subst l; by rewrite elem_of_js_sort, elem_of_remove_dups).
    destruct l as [|i0 l].
    + injection Ha as _ <-. rewrite filter_nothing; [done|].
      intros i _. unfold is_in. apply bool_decide_eq_false. intros Hi%Hl. by apply elem_of_nil in Hi.
    + destruct (allocateBoxRegistryVersion st) as [[v' st'']|] eqn:E; [|done].
      cbn [mbind option_bind] in Ha. injection Ha as _ <-.
      apply (progress_stamp start ids st st'' v'); [done | done | |].
      * intros box Hb. rewrite elem_of_is_in, Hl, elem_of_filter_bool, elem_of_is_in.
        split; [|by intros [_ ?]]. split; [by apply list_elem_of_fmap_2 | done].
      * intros i. rewrite elem_of_filter_bool. by intros [? _].
  - unfold invalidateProductGtinRegistry in Ha.
    destruct (allocateBoxRegistryVersion st) as [[v' st'']|] eqn:E; [|done].
    cbn [mbind option_bind] in Ha. injection Ha as <-.
    assert (fs_stock st'' = fs_stock st) as Hdb by (destruct IH as [[[? _] _]]; by eapply allocate_spec).
    apply (progress_stamp start ids st st'' v'); [done | done | |]; rewrite ?Hdb.
    + intros box Hb. rewrite list_elem_of_fmap. split.
      * intros Hsel. exists box. by rewrite elem_of_filter_bool.
      * intros (box2 & Hid & [Hb2 Hsel]%elem_of_filter_bool). destruct IH as [_ Hn _ _ _ _ _].
        by rewrite (key_unique b_id _ box box2 Hn Hb Hb2 Hid).
    + intros i (box & -> & [Hb _]%elem_of_filter_bool)%list_elem_of_fmap. by apply list_elem_of_fmap_2.
Qed.

(** ** What a history guarantees *)

(** [box] and [box'] are the same box, with the same stamp, seen alike. *)
Definition unchanged (a b : FeedState) (box box' : BoxRow) : Prop :=
  b_id box = b_id box' /\ b_registryVersion box = b_registryVersion box'
  /\ sight (fs_stock a) box = sight (fs_stock b) box'.

Lemma unchanged_sscc a b box box' : unchanged a b box box' -> b_sscc box = b_sscc box'.
Proof. intros (_ & _ & H). by injection H. Qed.

(** What a later state keeps of an earlier one. *)
Record follows (a b : FeedState) : Prop := {
  fl_later : current a <= current b;
  fl_old : forall box', box' ∈ boxes (fs_stock b) -> is_Some (b_sscc box') ->
    b_registryVersion box' <= current a -> exists box, box ∈ boxes (fs_stock a) /\ unchanged a b box box';
  fl_kept : forall box, box ∈ boxes (fs_stock a) -> is_Some (b_sscc box) ->
    exists box', box' ∈ boxes (fs_stock b) /\ b_id box' = b_id box /\ b_sscc box' = b_sscc box
}.

#[export] Instance follows_preorder : PreOrder follows.
Proof.
  split.
  - intros a. split; [done | |]; intros box Hb; eauto. intros _ _. by exists box.
  - intros a b c [L1 O1 K1] [L2 O2 K2]. split; [lia | |].
    + intros box3 H3 Hs Hv. destruct (O2 box3 H3 Hs ltac:(lia)) as (box2 & H2 & U2).
      destruct (O1 box2 H2) as (box1 & H1 & U1).
      { by rewrite (unchanged_sscc _ _ _ _ U2). }
      { destruct U2 as (_ & -> & _). done. }
      exists box1. split; [done|]. unfold unchanged in *. intuition congruence.
    + intros box1 H1 Hs. destruct (K1 box1 H1 Hs) as (box2 & H2 & E & S2). rewrite <- S2 in Hs.
      destruct (K2 box2 H2 Hs) as (box3 & H3 & E' & S3). exists box3. split; [done|]. split; congruence.
Qed.

Lemma commit_follows st st' :
  stamped st -> constraints (fs_stock st) -> commit st st' -> stamped st' /\ follows st st'.
Proof.
  intros Hst Hc (ids & Hw & (Hsame & Hkept) & Hc').
  destruct (within_progress _ _ _ Hst (key_id _ Hc) Hw) as [Hst' _ Hle _ Hnew Hold _].
  split; [done|]. split; [done | | done].
  intros box' Hb' Hs Hv. assert (Hno : b_id box' ∉ ids) by (intros Hi; specialize (Hnew _ Hb' Hi); lia).
  destruct (Hsame _ Hb' Hs Hno) as (box & Hb & Hid & Hsight). exists box. split; [done|].
  split; [done|]. split; [|done].
  destruct (Hold _ Hb' Hno) as [[_ Hfresh]|(box0 & Hb0 & Hid0 & <-)].
  - destruct Hfresh. rewrite <- Hid. by apply list_elem_of_fmap_2.
  - by rewrite (key_unique b_id _ box box0 (key_id _ Hc) Hb Hb0) by congruence.
Qed.

Section Chronicle.
Context (history : list FeedState) (Hchronicle : chronicle history).

Lemma chronicle_state i st : history !! i = Some st -> stamped st /\ constraints (fs_stock st).
Proof.
  destruct Hchronicle as [H0 Hstep]. revert st. induction i as [|i IH]; intros st Hi; [auto|].
  destruct (history !! i) as [st0|] eqn:E.
  - destruct (IH st0 eq_refl) as [Hs Hc]. pose proof (Hstep i st0 st E Hi) as Hcm.
    destruct (commit_follows _ _ Hs Hc Hcm) as [Hs' _]. by destruct Hcm as (ids & _ & _ & ?).
  - apply lookup_ge_None in E. apply lookup_lt_Some in Hi. lia.
Qed.

Lemma chronicle_follows i j a b :
  (i <= j)%nat -> history !! i = Some a -> history !! j = Some b -> follows a b.
Proof.
  intros Hij Ha. revert b. induction Hij as [|j Hij IH]; intros b Hb.
  - rewrite Ha in Hb. injection Hb as ->. reflexivity.
  - destruct (history !! j) as [c|] eqn:E.
    + etransitivity; [by apply IH|]. destruct (chronicle_state j c E) as [Hs Hc].
      destruct Hchronicle as [_ Hstep]. by apply (commit_follows _ _ Hs Hc), (Hstep j).
    + apply lookup_ge_None in E. apply lookup_lt_Some in Hb. lia.
Qed.

(** Two states of the same revision say the same of every box with an SSCC. *)
Definition agrees (a b : FeedState) : Prop :=
  forall box, box ∈ boxes (fs_stock a) -> is_Some (b_sscc box) ->
  exists box', box' ∈ boxes (fs_stock b) /\ unchanged a b box box'.

Lemma follows_agrees a b :
  stamped b -> constraints (fs_stock a) -> follows a b -> current a = current b -> agrees a b /\ agrees b a.
Proof.
  intros [_ Hst] Hc [_ Hold Hkept] E.
  assert (Hba : forall box', box' ∈ boxes (fs_stock b) -> is_Some (b_sscc box') ->
    exists box, box ∈ boxes (fs_stock a) /\ unchanged a b box box').
  { intros box' Hb' Hs. apply Hold; [done..|]. specialize (Hst _ Hb'). lia. }
  split.
  - intros box Hb Hs. destruct (Hkept _ Hb Hs) as (box' & Hb' & Hid & Hs').
    destruct (Hba box' Hb') as (box0 & Hb0 & U); [by rewrite Hs'|]. exists box'. split; [done|].
    by rewrite (key_unique b_id _ box box0 (key_id _ Hc) Hb Hb0) by (destruct U; congruence).
  - intros box' Hb' Hs. destruct (Hba _ Hb' Hs) as (box & Hb & U). exists box. split; [done|].
    unfold unchanged in *. intuition congruence.
Qed.

Lemma chronicle_agrees i j a b :
  history !! i = Some a -> history !! j = Some b -> current a = current b -> agrees a b.
Proof.
  intros Ha Hb E. destruct (chronicle_state _ _ Ha) as [Hsa Hca], (chronicle_state _ _ Hb) as [Hsb Hcb].
  destruct (Nat.le_ge_cases i j) as [Hij|Hij].
  - by apply (follows_agrees a b Hsb Hca (chronicle_follows _ _ _ _ Hij Ha Hb)).
  - by apply (follows_agrees b a Hsa Hcb (chronicle_follows _ _ _ _ Hij Hb Ha)).
Qed.
End Chronicle.
