(* ===== verification/BoxBatch.v ===== *)
(** * The feed reads many boxes as if each alone

    [loadBoxRegistryMembershipCounts] and [resolveBoxRegistryFacts] read the
    members of all candidates of a page in one query each; what they say of a box
    is what they would say of it alone ([box_facts] of [BoxVersions]), and whether
    it is offered depends on nothing but what is seen of it ([box_change]). *)

From stdpp Require Import base list strings gmap sorting.
From Stdlib Require Import ZArith Lia.
From S2P Require Import Prelude Gs1 Km KioskApi KioskRegistry BoxFacts BoxFeed BoxVersions.

#[local] Open Scope Z_scope.

(** ** Sorting and filtering *)

(** By one key, then by another. *)
#[export] Instance comparator_lex {A} (first : A -> A -> bool) (second : A -> A -> bool)
    `{!Comparator first, !Comparator second} :
  Comparator (fun a b => (first a b && negb (first b a)) || (first a b && first b a && second a b)).
Proof.
  split.
  - intros a b. destruct (comparator_total (le := first) a b) as [H|H]; rewrite H;
      destruct (first a b), (first b a); cbn; auto; try discriminate; apply comparator_total.
  - intros a b c H1 H2.
    assert (Hf : first a b = true /\ first b c = true) by (destruct (first a b), (first b c); cbn in *; auto).
    destruct Hf as [F1 F2]. pose proof (comparator_trans (le := first) _ _ _ F1 F2) as F3.
    rewrite F1 in H1. rewrite F2 in H2. rewrite F3. cbn in *.
    destruct (first c a) eqn:F4; [|done]. cbn.
    pose proof (comparator_trans (le := first) _ _ _ F4 F1) as F5.
    pose proof (comparator_trans (le := first) _ _ _ F2 F4) as F6. rewrite F6 in H1. rewrite F5 in H2.
    cbn in *. by eapply comparator_trans.
Qed.

Lemma comparator_ext {A} (le le' : A -> A -> bool) :
  (forall a b, le a b = le' a b) -> Comparator le -> Comparator le'.
Proof.
  intros E [Ht Htr]. split; [intros a b; rewrite <- !E; auto | intros a b c; rewrite <- !E; apply Htr].
Qed.

#[export] Instance fact_leb_comparator : Comparator fact_leb.
Proof.
  eapply comparator_ext; [|apply (comparator_lex (fun x y => js_leb (f_boxId x) (f_boxId y))
    (fun x y => js_leb (f_codeHash x) (f_codeHash y)))].
  intros a b. unfold fact_leb, js_leb. destruct (js_ltb_total (f_boxId a) (f_boxId b)) as [H|[H|H]].
  - by rewrite H, (js_ltb_asym _ _ H).
  - rewrite H, js_ltb_irrefl, jseqb_refl. done.
  - rewrite H, (js_ltb_asym _ _ H). cbn. rewrite (proj2 (jseqb_neq _ _)); [done|].
    intros E. by rewrite E, js_ltb_irrefl in H.
Qed.

#[export] Instance position_leb_comparator : Comparator position_leb.
Proof.
  split.
  - intros [v i] [w j]. unfold position_leb. cbn.
    destruct (Z.lt_trichotomy v w) as [H|[->|H]]; [left|rewrite Z.ltb_irrefl, Z.eqb_refl; cbn; apply comparator_total|right];
      by rewrite (proj2 (Z.ltb_lt _ _) H).
  - intros [u h] [v i] [w j]. unfold position_leb. cbn. rewrite !orb_true_iff, !andb_true_iff, !Z.ltb_lt, !Z.eqb_eq.
    intros [H|[-> H]] [H'|[-> H']]; [left; lia | left; lia | left; lia|].
    right. split; [done|]. by eapply (comparator_trans (le := js_leb)).
Qed.

#[export] Instance position_leb_antisym : AntiSymm eq (fun x y => position_leb x y = true).
Proof.
  intros [v i] [w j]. unfold position_leb. cbn.
  rewrite !orb_true_iff, !andb_true_iff, !Z.ltb_lt, !Z.eqb_eq.
  intros [H|[-> H]] [H'|[E H']]; try lia. f_equal. by apply js_leb_antisym.
Qed.

Section Sort.
Context {A : Type} (le : A -> A -> bool) `{!Comparator le}.

Lemma sort_insert_filter p x l :
  Sorted.StronglySorted (fun a b => le a b = true) l ->
  List.filter p (sort_insert le x l)
  = if p x then sort_insert le x (List.filter p l) else List.filter p l.
Proof.
  induction 1 as [|y l Hl IH Hy]; cbn.
  - by destruct (p x).
  - destruct (le x y) eqn:E; cbn.
    + destruct (p x); [|done]. destruct (p y); cbn; [by rewrite E|].
      destruct (List.filter p l) as [|z r] eqn:Ef; [done|]. cbn.
      assert (Hz : z ∈ List.filter p l) by (rewrite Ef; left). apply elem_of_filter_bool in Hz as [Hz _].
      by rewrite (comparator_trans _ _ _ E (proj1 (Forall_forall _ _) Hy z Hz)).
    + rewrite IH. destruct (p y), (p x); cbn; try done. by rewrite E.
Qed.

(** What is selected of a sorted list is sorted the same. *)
Lemma js_sort_filter p l : List.filter p (js_sort le l) = js_sort le (List.filter p l).
Proof.
  induction l as [|x l IH]; [done|]. change (js_sort le (x :: l)) with (sort_insert le x (js_sort le l)).
  rewrite sort_insert_filter by apply (js_sort_sorted le). rewrite IH. cbn. by destruct (p x).
Qed.
End Sort.

(** A list sorts as its image does, when they compare alike. *)
Lemma js_sort_map {A B} (f : A -> B) (leA : A -> A -> bool) (leB : B -> B -> bool) l :
  (forall x y, x ∈ l -> y ∈ l -> leB (f x) (f y) = leA x y) ->
  js_sort leB (f <$> l) = f <$> js_sort leA l.
Proof.
  induction l as [|x l IH]; intros H; [done|].
  change (sort_insert leB (f x) (js_sort leB (f <$> l)) = f <$> sort_insert leA x (js_sort leA l)).
  rewrite IH by (intros y z Hy Hz; apply H; by right). clear IH.
  assert (Hx : forall y, y ∈ js_sort leA l -> leB (f x) (f y) = leA x y).
  { intros y Hy. rewrite elem_of_js_sort in Hy. apply H; [left | by right]. }
  clear H. induction (js_sort leA l) as [|y s IHs]; [done|]. rewrite fmap_cons. cbn [sort_insert].
  rewrite (Hx y) by left. destruct (leA x y); [done|]. rewrite fmap_cons. f_equal.
  apply IHs. intros z Hz. apply Hx. by right.
Qed.

Lemma filter_bind {A B} (p : B -> bool) (q : A -> bool) (f : A -> list B) l :
  (forall a b, b ∈ f a -> p b = q a) ->
  List.filter p (a ← l; f a) = (a ← List.filter q l; f a).
Proof.
  intros H. induction l as [|a l IH]; [done|]. rewrite bind_cons, List.filter_app, IH. cbn [List.filter].
  assert (E : List.filter p (f a) = if q a then f a else []).
  { assert (Hf : forall b, b ∈ f a -> p b = q a) by (intros b; apply H). clear -Hf.
    induction (f a) as [|b r IHr]; cbn; [by destruct (q a)|]. rewrite (Hf b) by left.
    rewrite IHr by (intros c Hc; apply Hf; by right). by destruct (q a). }
  rewrite E. destruct (q a); [by rewrite bind_cons | done].
Qed.

Lemma filter_keeps_all {A} (p : A -> bool) l : (forall x, x ∈ l -> p x = true) -> List.filter p l = l.
Proof.
  induction l as [|x l IH]; [done|]. intros H. cbn. rewrite (H x) by left.
  by rewrite IH by (intros y Hy; apply H; by right).
Qed.

(** ** Counting and reading in a batch *)

Lemma item_facts_box db total item fact : fact ∈ item_facts db total item -> f_boxId fact = bi_boxId item.
Proof.
  unfold item_facts. intros (r & H & _)%list_elem_of_bind.
  apply list_elem_of_bind in H as (c & H & _). by apply list_elem_of_singleton in H as ->.
Qed.

(** Every fact of a box carries the number of its members. *)
Lemma box_facts_total db boxId fact rest :
  box_facts db boxId = fact :: rest -> totalMembershipCount fact = member_count db boxId.
Proof.
  unfold box_facts. destruct (_ <? _)%nat; [by intros [= <- _]|]. intros H.
  assert (Hin : fact ∈ member_rows db [boxId] (member_count db)) by (rewrite H; left).
  unfold member_rows in Hin. rewrite elem_of_js_sort in Hin.
  apply list_elem_of_bind in Hin as (item & Hf & [_ Hb]%elem_of_filter_bool).
  apply elem_of_is_in, list_elem_of_singleton in Hb as <-. unfold item_facts in Hf.
  apply list_elem_of_bind in Hf as (r & Hf & _). apply list_elem_of_bind in Hf as (c & Hf & _).
  by apply list_elem_of_singleton in Hf as ->.
Qed.

Lemma counts_alone db candidates boxId :
  boxId ∈ map id candidates ->
  count_of (loadBoxRegistryMembershipCounts db candidates) boxId = member_count db boxId.
Proof.
  intros Hin. destruct candidates as [|c cs]; [by apply elem_of_nil in Hin|].
  unfold loadBoxRegistryMembershipCounts. remember (map id (c :: cs)) as ids. clear Heqids c cs.
  set (rows := List.filter (fun item => is_in ids (bi_boxId item)) (boxItems db)).
  assert (Hrows : List.filter (fun item => jseqb (bi_boxId item) boxId) rows
    = List.filter (fun item => jseqb (bi_boxId item) boxId) (boxItems db)).
  { subst rows. rewrite filter_filter. apply filter_same. intros item _.
    destruct (jseqb (bi_boxId item) boxId) eqn:E; [|by rewrite andb_false_r].
    apply jseqb_eq in E as ->. by rewrite (proj2 (elem_of_is_in _ _) Hin). }
  unfold count_of, member_count. rewrite <- Hrows.
  set (m := fun b : jsstr => (length (List.filter (fun item => jseqb (bi_boxId item) b) rows)
    `min` S MAX_BOX_REGISTRY_MEMBERS)%nat).
  destruct (decide (boxId ∈ map bi_boxId rows)) as [Hb|Hb].
  - rewrite (elem_of_list_to_map_1 _ boxId (m boxId)); [done | |].
    + rewrite <- list_fmap_compose. cbn. rewrite list_fmap_id. apply NoDup_remove_dups.
    + apply list_elem_of_fmap. exists boxId. split; [done|]. by apply elem_of_remove_dups.
  - rewrite not_elem_of_list_to_map_1.
    + cbn. rewrite filter_nothing; [done|]. intros item Hitem. apply jseqb_neq. intros <-.
      by apply Hb, list_elem_of_fmap_2.
    + rewrite <- list_fmap_compose. cbn. rewrite list_fmap_id. by rewrite elem_of_remove_dups.
Qed.

Lemma member_rows_box db ids total boxId :
  boxId ∈ ids -> total boxId = member_count db boxId ->
  List.filter (fun fact => jseqb (f_boxId fact) boxId) (member_rows db ids total)
  = member_rows db [boxId] (member_count db).
Proof.
  intros Hin Ht. unfold member_rows. rewrite js_sort_filter by apply _. f_equal.
  rewrite (filter_bind _ (fun item => jseqb (bi_boxId item) boxId)).
  2: { intros item fact ->%item_facts_box. done. }
  rewrite filter_filter.
  assert (E : List.filter (fun item => is_in ids (bi_boxId item) && jseqb (bi_boxId item) boxId) (boxItems db)
    = List.filter (fun item => is_in [boxId] (bi_boxId item)) (boxItems db)).
  { apply filter_same. intros item _. unfold is_in at 2.
    destruct (jseqb (bi_boxId item) boxId) eqn:E.
    - apply jseqb_eq in E as ->. rewrite (proj2 (elem_of_is_in _ _) Hin). cbn.
      symmetry. apply bool_decide_eq_true. by left.
    - rewrite andb_false_r. symmetry. apply bool_decide_eq_false. apply jseqb_neq in E.
      by intros ?%list_elem_of_singleton. }
  rewrite E. apply bind_same. intros item [_ Hitem]%elem_of_filter_bool.
  apply elem_of_is_in, list_elem_of_singleton in Hitem as ->. by rewrite Ht.
Qed.

Lemma facts_alone db candidates counts boxId :
  boxId ∈ map id candidates -> count_of counts boxId = member_count db boxId ->
  resolveBoxRegistryFacts db candidates counts boxId = box_facts db boxId.
Proof.
  intros Hin Hc. unfold resolveBoxRegistryFacts, box_facts. rewrite (proj2 (elem_of_is_in _ _) Hin), Hc.
  cbn [negb]. destruct (Nat.ltb_spec MAX_BOX_REGISTRY_MEMBERS (member_count db boxId)) as [|Hle]; [done|].
  destruct (member_count db boxId) as [|n] eqn:Em.
  - rewrite filter_nothing.
    + unfold member_rows. rewrite filter_nothing; [done|]. intros item Hitem. apply bool_decide_eq_false.
      intros E%list_elem_of_singleton. subst boxId. unfold member_count in Em.
      destruct (List.filter _ (boxItems db)) as [|x r] eqn:Ef; [|cbn in Em; lia].
      assert (Hx : item ∈ List.filter (fun it => jseqb (bi_boxId it) (bi_boxId item)) (boxItems db))
        by (apply elem_of_filter_bool; by rewrite jseqb_refl). rewrite Ef in Hx. by apply elem_of_nil in Hx.
    + intros fact Hf. apply jseqb_neq. intros E. unfold member_rows in Hf. rewrite elem_of_js_sort in Hf.
      apply list_elem_of_bind in Hf as (item & Hf & Hitem). apply item_facts_box in Hf.
      apply elem_of_filter_bool in Hitem as [_ Hi]. rewrite <- Hf, E in Hi.
      apply elem_of_is_in, elem_of_filter_bool in Hi as [_ Hi]. by rewrite Hc in Hi.
  - apply member_rows_box; [|by rewrite Hc, Em]. apply elem_of_filter_bool. split; [done|].
    rewrite Hc. apply Nat.leb_le in Hle. by rewrite Hle.
Qed.

(** ** What is offered depends on what is seen *)

Definition ineligible_change (c : BoxRegistryCandidate) (delta : bool) : option KioskBoxRegistryChange :=
  toKioskChange <$> ineligibleChange c delta.

Definition kiosk_change (c : BoxRegistryCandidate) (facts : list BoxRegistryMemberFact) (delta : bool)
  : option KioskBoxRegistryChange :=
  toKioskChange <$> evaluateBoxRegistryCandidate c facts delta.

(** The change the feed announces for a box, read by itself in one state. *)
Definition box_change (db : Stock) (delta : bool) (box : BoxRow) : option KioskBoxRegistryChange :=
  c ← head (box_candidates db box); kiosk_change c (box_facts db (b_id box)) delta.

Lemma member_keys_view c closure hashes seen facts :
  member_keys (kiosk_view c) closure hashes seen facts = member_keys c closure hashes seen facts.
Proof.
  revert hashes seen. induction facts as [|fact rest IH]; intros hashes seen; [done|]. cbn.
  destruct (_ || _ || _); [done|]. destruct (registryScannedAt fact); [|done]. cbn.
  destruct (registryUpdatedAt fact); [|done]. cbn. destruct (_ || _); [done|].
  destruct (canonicalRaw fact); [|done]. cbn. destruct (negb _); [done|].
  destruct (canonicalizeKm _); [|done]. destruct (_ || _); [done|]. by rewrite IH.
Qed.

Lemma kiosk_change_view c facts delta : kiosk_change c facts delta = kiosk_change (kiosk_view c) facts delta.
Proof.
  unfold kiosk_change, evaluateBoxRegistryCandidate.
  change (ineligibleChange (kiosk_view c) delta) with (ineligibleChange c delta).
  change (sscc (kiosk_view c)) with (sscc c). change (closedAt (kiosk_view c)) with (closedAt c).
  change (closureReceivedAt (kiosk_view c)) with (closureReceivedAt c).
  change (disassembledAt (kiosk_view c)) with (disassembledAt c).
  destruct (sscc c), (closedAt c), (closureReceivedAt c), (disassembledAt c); try done.
  destruct (negb _); [done|]. destruct (_ || _ || _); [done|].
  destruct (active_facts _ _) as [[|f fs]|]; try done. rewrite member_keys_view.
  by destruct (member_keys _ _ _ _ _).
Qed.

Lemma candidate_fields db box c :
  c ∈ box_candidates db box ->
  id c = b_id box /\ sscc c = b_sscc box /\ closedAt c = b_closedAt box /\ updatedAt c = b_updatedAt box
  /\ registryVersion c = b_registryVersion box.
Proof.
  unfold box_candidates. intros (? & H & _)%list_elem_of_bind.
  apply list_elem_of_bind in H as (? & H & _). apply list_elem_of_bind in H as (? & H & _).
  by apply list_elem_of_singleton in H as ->.
Qed.

(** C22: A page is read in a batch, two queries for all of its boxes: the counts of
    the whole window, and the members of what is selected of it.  What they say of
    a box is exactly what is read of that box alone (its members in the order of
    their hashes with their owner and code, nothing when it has none, the mark of a
    box with more than 500 in place of its members), so the page announces of each
    box what that box by itself announces, in the same order. *)
Theorem batch_reads_each_alone (db : Stock) (window : list BoxRegistryCandidate) (delta : bool)
    (l : list BoxRow) :
  constraints db -> (forall box, box ∈ l -> box ∈ boxes db) ->
  let candidates := box ← l; box_candidates db box in
  let facts := resolveBoxRegistryFacts db candidates (loadBoxRegistryMembershipCounts db window) in
  (forall c, c ∈ candidates -> id c ∈ map id window) ->
  (forall c, c ∈ candidates -> facts (id c) = box_facts db (id c))
  /\ omap (fun c => kiosk_change c (facts (id c)) delta) candidates = omap (box_change db delta) l.
Proof.
  intros Hdb Hl candidates facts Hwin.
  assert (Hfacts : forall c, c ∈ candidates -> facts (id c) = box_facts db (id c)).
  { intros c Hc. apply facts_alone; [by apply list_elem_of_fmap_2 | by apply counts_alone, Hwin]. }
  split; [done|]. clearbody facts. subst candidates. clear Hwin. induction l as [|box l IH]; [done|].
  rewrite bind_cons, omap_app in *. destruct (key_joins _ Hdb box) as [c Hc]; [apply Hl; by left|].
  rewrite IH; [|intros; apply Hl; by right | intros c' Hc'; apply Hfacts, elem_of_app; by right].
  rewrite Hc. cbn [omap list_omap]. unfold box_change at 2. rewrite Hc. cbn [head mbind option_bind].
  rewrite Hfacts by (rewrite Hc; apply elem_of_app; left; left).
  destruct (candidate_fields db box c) as (-> & _); [rewrite Hc; left|].
  by destruct (kiosk_change c _ delta).
Qed.

(** A box that cannot be handed out is not offered, whatever its members. *)
Lemma closed_change db box c facts delta :
  c ∈ box_candidates db box -> offerable box = false -> kiosk_change c facts delta = ineligible_change c delta.
Proof.
  intros Hc Ho. assert (E : closedAt c = b_closedAt box /\ closureReceivedAt c = b_closureReceivedAt box
    /\ disassembledAt c = b_disassembledAt box).
  { unfold box_candidates in Hc. apply list_elem_of_bind in Hc as (? & Hc & _).
    apply list_elem_of_bind in Hc as (? & Hc & _). apply list_elem_of_bind in Hc as (? & Hc & _).
    by apply list_elem_of_singleton in Hc as ->. }
  destruct E as (E1 & E2 & E3). unfold kiosk_change, evaluateBoxRegistryCandidate. rewrite E1, E2, E3.
  unfold offerable in Ho. destruct (sscc c), (b_closedAt box), (b_closureReceivedAt box), (b_disassembledAt box); done.
Qed.

(** Evaluation reads of a member what is seen of it. *)
Lemma seen_active fact : active_fact (seen_fact fact) = active_fact fact.
Proof. unfold seen_fact. destruct (active_fact fact) eqn:E; [done|]. exact E. Qed.

Lemma active_facts_seen closure facts : active_facts closure (seen_fact <$> facts) = active_facts closure facts.
Proof.
  induction facts as [|fact facts IH]; [done|]. rewrite fmap_cons. cbn [active_facts]. rewrite IH, seen_active.
  unfold seen_fact. destruct (active_fact fact) eqn:E; [done|]. cbn [removedAt displacedAt].
  destruct (_ || _); [done|]. by destruct (active_facts closure facts).
Qed.

Lemma kiosk_change_seen c facts delta : kiosk_change c (seen_fact <$> facts) delta = kiosk_change c facts delta.
Proof.
  unfold kiosk_change, evaluateBoxRegistryCandidate.
  assert (E : match seen_fact <$> facts with [] => 0%nat | fact :: _ => totalMembershipCount fact end
    = match facts with [] => 0%nat | fact :: _ => totalMembershipCount fact end).
  { destruct facts as [|fact facts]; [done|]. cbn. unfold seen_fact. by destruct (active_fact fact). }
  rewrite E, length_fmap. destruct (sscc c), (closedAt c), (closureReceivedAt c), (disassembledAt c); try done.
  by rewrite active_facts_seen.
Qed.

Lemma ineligible_fields c c' delta :
  sscc c = sscc c' -> updatedAt c = updatedAt c' -> ineligible_change c delta = ineligible_change c' delta.
Proof. intros Es Eu. unfold ineligible_change, ineligibleChange. by rewrite Es, Eu. Qed.

(** A candidate read in one state, with facts that are those of another of the
    same sight, gives the change of that state. *)
Lemma mixed_change a b box box' c facts delta :
  unchanged a b box box' -> box_candidates (fs_stock a) box = [c] ->
  (exists c', box_candidates (fs_stock b) box' = [c']) ->
  (offerable box' = true -> seen_fact <$> facts = seen_fact <$> box_facts (fs_stock b) (b_id box')) ->
  kiosk_change c facts delta = box_change (fs_stock b) delta box'.
Proof.
  intros (Hid & _ & Hsight) Hc (c' & Hc') Hf. unfold box_change. rewrite Hc'. cbn [head mbind option_bind].
  assert (Hin : c ∈ box_candidates (fs_stock a) box) by (rewrite Hc; left).
  assert (Hin' : c' ∈ box_candidates (fs_stock b) box') by (rewrite Hc'; left).
  destruct (candidate_fields _ _ _ Hin) as (Ei & Es & _ & Eu & _).
  destruct (candidate_fields _ _ _ Hin') as (Ei' & Es' & _ & Eu' & _).
  unfold sight in Hsight. rewrite Hc, Hc' in Hsight.
  destruct (offerable box) eqn:Eo, (offerable box') eqn:Eo'; try discriminate Hsight.
  - change (kiosk_view <$> [c]) with [kiosk_view c] in Hsight.
    change (kiosk_view <$> [c']) with [kiosk_view c'] in Hsight.
    assert (Hview : kiosk_view c = kiosk_view c') by congruence.
    rewrite <- (kiosk_change_seen c facts), (Hf eq_refl), kiosk_change_seen.
    by rewrite (kiosk_change_view c), (kiosk_change_view c'), Hview.
  - injection Hsight as Hs Hu. rewrite (closed_change _ _ _ _ _ Hin Eo), (closed_change _ _ _ _ _ Hin' Eo').
    apply ineligible_fields; congruence.
Qed.

Lemma unchanged_change a b box box' delta :
  constraints (fs_stock a) -> constraints (fs_stock b) -> box ∈ boxes (fs_stock a) -> box' ∈ boxes (fs_stock b) ->
  unchanged a b box box' -> box_change (fs_stock a) delta box = box_change (fs_stock b) delta box'.
Proof.
  intros Ha Hb Hin Hin' Hu. destruct (key_joins _ Ha _ Hin) as [c Hc].
  unfold box_change at 1. rewrite Hc. cbn [head mbind option_bind].
  apply (mixed_change a b box box'); [done | done | by apply key_joins|].
  intros Ho. destruct Hu as (Hid & _ & Hsight). unfold sight in Hsight. rewrite Ho in Hsight.
  destruct (offerable box); [|done]. congruence.
Qed.

(** The changes of a box are about its SSCC. *)
Lemma box_change_sscc db delta box change :
  box_change db delta box = Some change -> b_sscc box = Some (ch_sscc change).
Proof.
  unfold box_change. destruct (box_candidates db box) as [|c cs] eqn:Ec; [done|]. cbn [head mbind option_bind].
  destruct (candidate_fields db box c) as (_ & <- & _); [rewrite Ec; by left|].
  unfold kiosk_change. destruct (evaluateBoxRegistryCandidate _ _ _) as [ch|] eqn:E; [|done].
  cbn. intros [= <-]. destruct ch as [boxId s product count keys at_ pallet psscc act closed day|s at_].
  - by apply evaluate_upsert in E as (_ & -> & _).
  - assert (Hi : ineligibleChange c delta = Some (StationRemove s at_)).
    { unfold evaluateBoxRegistryCandidate in E. destruct (sscc c), (closedAt c), (closureReceivedAt c),
        (disassembledAt c); try exact E.
      destruct (negb _); [exact E|]. destruct (_ || _ || _); [exact E|].
      destruct (active_facts _ _) as [[|f fs]|]; try exact E. by destruct (member_keys _ _ _ _ _). }
    unfold ineligibleChange in Hi. destruct (sscc c); [|done]. cbn in Hi. destruct (_ || _); [done|].
    by injection Hi as ->.
Qed.

(** An announced box is announced alike in a snapshot and in a delta; what is
    removed in a delta is left out of a snapshot. *)
Definition entry_of (change : option KioskBoxRegistryChange) : option BoxContent :=
  match change with Some (Upsert _ box) => Some box | _ => None end.

Lemma box_change_entry db box delta :
  entry_of (box_change db delta box) = entry_of (box_change db false box).
Proof.
  unfold box_change. destruct (head (box_candidates db box)) as [c|]; [|done]. cbn [mbind option_bind].
  unfold kiosk_change, evaluateBoxRegistryCandidate, ineligibleChange.
  destruct (sscc c) as [s|]; [|done]. cbn [mbind option_bind].
  assert (Hi : forall d, entry_of (toKioskChange <$> (if negb d || negb (isValidSscc s) then None
    else Some (StationRemove s (toISOString (updatedAt c))))) = None) by (intros d; by destruct (_ || _)).
  destruct (closedAt c), (closureReceivedAt c), (disassembledAt c); rewrite ?Hi; try done.
  destruct (negb (isValidSscc s)) eqn:Ev; [by rewrite !orb_true_r|]. rewrite !orb_false_r.
  destruct (_ || _ || _); [by destruct delta|].
  destruct (active_facts _ _) as [[|f fs]|]; try by destruct delta.
  destruct (member_keys _ _ _ _ _); [done | by destruct delta].
Qed.

(** In a delta every box with a valid SSCC is announced one way or the other. *)
Lemma box_change_delta db box s :
  (exists c, box_candidates db box = [c]) -> b_sscc box = Some s -> isValidSscc s = true ->
  is_Some (box_change db true box).
Proof.
  intros [c Hc] Hs Hv. destruct (candidate_fields db box c) as (_ & Es & _); [rewrite Hc; by left|].
  unfold box_change, kiosk_change, evaluateBoxRegistryCandidate, ineligibleChange.
  rewrite Hc. cbn [head mbind option_bind]. rewrite Es, Hs. cbn [mbind option_bind]. rewrite Hv. cbn [negb orb].
  destruct (closedAt c), (closureReceivedAt c), (disassembledAt c); try (by eexists).
  destruct (_ || _ || _); [by eexists|]. destruct (active_facts _ _) as [[|f fs]|]; try (by eexists).
  destruct (member_keys _ _ _ _ _); by eexists.
Qed.

(** A box whose SSCC is not valid is never announced. *)
Lemma box_change_invalid db delta box s :
  b_sscc box = Some s -> isValidSscc s = false -> box_change db delta box = None.
Proof.
  intros Hs Hv. unfold box_change. destruct (box_candidates db box) as [|c cs] eqn:Ec; [done|].
  cbn [head mbind option_bind]. destruct (candidate_fields db box c) as (_ & Es & _); [rewrite Ec; by left|].
  unfold kiosk_change, evaluateBoxRegistryCandidate, ineligibleChange. rewrite Es, Hs.
  cbn [mbind option_bind]. rewrite Hv. cbn [negb]. rewrite orb_true_r.
  by destruct (closedAt c), (closureReceivedAt c), (disassembledAt c).
Qed.
