(* ===== verification/BoxFeedLaw.v ===== *)
(** * The pages a kiosk is sent are one registry

    However the pages of a refresh fall in time, each is cut from one revision of
    the tables ([served_page]), and a complete series of them carries exactly the
    changes between the revision asked for and the one answered ([pages_whole]):
    the promise the kiosk relies on. *)

From stdpp Require Import base list strings gmap sorting.
From Stdlib Require Import ZArith Lia.
From S2P Require Import Prelude Gs1 KioskApi Effects KioskRegistry KioskRefresh BoxFacts BoxCursor.
From S2P Require Import BoxFeed BoxVersions BoxBatch.

#[local] Open Scope Z_scope.

Section Feed.
Context (zod_uuid : jsstr -> bool).
(** A UUID is 36 characters, hexadecimal digits and hyphens. *)
Context (zod_uuid_shape : forall s, zod_uuid s = true ->
  length s = 36%nat /\ forallb simple_char s = true).
Context (history : list FeedState) (Hchronicle : chronicle history).

(** The server answers a kiosk's request with the page, at some time. *)
Definition serves (q : PageQuery) (page : RegistryPage KioskBoxRegistryChange) : Prop :=
  exists cs time,
    (run (feed_perform history) (listKiosk zod_uuid (kiosk_request q)) cs time).1.1 = Done page.

(** ** One page *)

(** The reads a page is made of, in the order of time. *)
Record page_read (q : BoxRegistryQueryDto) (page : RegistryPage StationBoxRegistryChange) : Prop :=
  Page_read {
    pr_reads : exists t0 t1 t2 t3 t4 first rows counts facts last_ window,
      (t0 <= t1 <= t2 /\ t2 <= t3 <= t4)%nat
      /\ history !! t0 = Some first /\ history !! t1 = Some rows /\ history !! t2 = Some counts
      /\ history !! t3 = Some facts /\ history !! t4 = Some last_
      /\ resolveBoxRegistryWindow zod_uuid q (js_of_Z (current first)) = inr window
      /\ js_of_Z (current first) = w_until window /\ js_of_Z (current last_) = w_until window
      /\ let bound := lower_bound (BigInt <$> w_since window) (BigInt <$> w_afterRegistryVersion window)
                        (w_afterId window) in
         let limit := Z.to_nat (w_limit window) in
         let all := candidate_rows (fs_stock rows) (BigInt (w_until window)) bound (S limit) in
         let ns := loadBoxRegistryMembershipCounts (fs_stock counts) (take limit all) in
         let prefix := selectBoxRegistryCandidatePrefix (take limit all) ns (limit <? length all)%nat in
         shapeBoxRegistryPage zod_uuid (px_candidates prefix)
           (resolveBoxRegistryFacts (fs_stock facts) (px_candidates prefix) ns) window
           (px_hasMoreCandidates prefix) = Some page
  }.

Abbreviation reads p Q t :=
  (wp (feed_perform history) (fun _ => True) p Q (fun _ _ => True) (fun _ => True) t).

Lemma reads_query {R} (o : feed_op R) (Q : R -> nat -> Prop) t :
  (forall t' st, (t <= t')%nat -> history !! t' = Some st -> Q (read o st) t') -> reads (query o) Q t.
Proof.
  intros H. apply wp_call; [done|]. intros c _. unfold feed_perform, state_at.
  destruct (fc_fate c); [|done|].
  2: by destruct (history !! (t + fc_commits c)%nat).
  destruct (history !! (t + fc_commits c)%nat) eqn:E; [|done]. apply H; [lia | done].
Qed.

Lemma reads_assert (current until : jsstr) (Q : unit -> nat -> Prop) t :
  (current = until -> Q tt t) -> reads (assertBoxRegistrySnapshotCurrent current until) Q t.
Proof.
  intros H. unfold assertBoxRegistrySnapshotCurrent. destruct (jseqb current until) eqn:E; [|done].
  apply H. by apply jseqb_eq.
Qed.

Lemma listStation_reads q t : reads (listStation zod_uuid q) (fun page _ => page_read q page) t.
Proof.
  unfold listStation. apply wp_bind, reads_query. intros t0 first _ H0.
  change (read CurrentVersion first) with (js_of_Z (current first)).
  destruct (resolveBoxRegistryWindow _ _ _) as [e|window] eqn:Ew; [done|].
  apply wp_bind, reads_assert. intros Hu. apply wp_bind, reads_query. intros t1 rows L1 H1.
  apply wp_bind, reads_query. intros t2 counts L2 H2. apply wp_bind, reads_query. intros t3 facts L3 H3.
  apply wp_bind, reads_query. intros t4 last_ L4 H4. apply wp_bind, reads_assert. intros Hu'.
  destruct (shapeBoxRegistryPage _ _ _ _ _) as [page|] eqn:Es; [|done]. cbn [wp]. constructor.
  exists t0, t1, t2, t3, t4, first, rows, counts, facts, last_, window. auto 20 with lia.
Qed.

Lemma serves_read q page :
  serves q page -> exists station, page_read (kiosk_request q) station /\ page = toKioskPage station.
Proof.
  intros (cs & time & H). pose proof (wp_sound (feed_perform history) (fun _ => True)
    (listKiosk zod_uuid (kiosk_request q))
    (fun page _ => exists station, page_read (kiosk_request q) station /\ page = toKioskPage station)
    (fun _ _ => True) (fun _ => True) time cs) as Hw.
  destruct (run _ _ cs time) as [[[p|x|] cs'] w']; cbn in H; simplify_eq. apply Hw; [|by apply Forall_forall].
  apply wp_bind. eapply wp_mono; [apply listStation_reads | | done | done]. intros station w Hs. by exists station.
Qed.

(** ** Revisions and times *)

Lemma current_nonneg i st : history !! i = Some st -> 0 <= current st <= MAX_PG_BIGINT.
Proof. intros H. by destruct (chronicle_state _ Hchronicle i st H) as [[? _] _]. Qed.

Lemma version_text i j a b :
  history !! i = Some a -> history !! j = Some b -> js_of_Z (current a) = js_of_Z (current b) ->
  current a = current b.
Proof.
  intros Ha%current_nonneg Hb%current_nonneg. rewrite !js_of_Z_nonneg by lia. apply js_of_nonneg_inj; lia.
Qed.

Lemma BigInt_version i st : history !! i = Some st -> BigInt (js_of_Z (current st)) = current st.
Proof.
  intros H%current_nonneg. rewrite js_of_Z_nonneg by lia. unfold BigInt.
  by destruct (js_of_nonneg_spec (current st)) as (_ & ? & _); [lia|].
Qed.

(** Between two times of one revision, it is that revision. *)
Lemma between i j k a b c :
  (i <= j <= k)%nat -> history !! i = Some a -> history !! j = Some b -> history !! k = Some c ->
  current a = current c -> current b = current a.
Proof.
  intros [H1 H2] Ha Hb Hc E. pose proof (fl_later _ _ (chronicle_follows _ Hchronicle _ _ _ _ H1 Ha Hb)).
  pose proof (fl_later _ _ (chronicle_follows _ Hchronicle _ _ _ _ H2 Hb Hc)). lia.
Qed.

(** ** Rows in order *)

Definition position (box : BoxRow) : Z * jsstr := (b_registryVersion box, b_id box).

(** The boxes a query reads, in the order it reads them. *)
Definition listed (db : Stock) (until : Z) (bound : Z -> jsstr -> bool) : list BoxRow :=
  js_sort (fun x y => position_leb (position x) (position y)) (List.filter (in_range until bound) (boxes db)).

Lemma elem_of_listed db until bound box :
  box ∈ listed db until bound <->
  box ∈ boxes db /\ is_Some (b_sscc box) /\ b_registryVersion box <= until
  /\ bound (b_registryVersion box) (b_id box) = true.
Proof.
  unfold listed. rewrite elem_of_js_sort, elem_of_filter_bool. unfold in_range.
  rewrite !andb_true_iff, bool_decide_eq_true, Z.leb_le. tauto.
Qed.

Definition the_candidate (db : Stock) (box : BoxRow) : BoxRegistryCandidate :=
  default {| id := []; shiftId := []; terminalId := None; sscc := None; productId := []; productGtin14 := [];
             closedAt := None; closureReceivedAt := None; disassembledAt := None; palletId := None;
             palletSscc := None; palletDisassembledAt := None; productionDate := None;
             registryVersion := 0; updatedAt := 0 |} (head (box_candidates db box)).

Lemma the_candidate_spec db box :
  constraints db -> box ∈ boxes db ->
  box_candidates db box = [the_candidate db box] /\ candidate_position (the_candidate db box) = position box.
Proof.
  intros Hc Hb. destruct (key_joins _ Hc _ Hb) as [c E]. unfold the_candidate. rewrite E. cbn. split; [done|].
  destruct (candidate_fields db box c) as (Hi & _ & _ & _ & Hv); [rewrite E; by left|].
  unfold candidate_position, position. by rewrite Hi, Hv.
Qed.

(** The rows of the query are the candidates of the listed boxes. *)
Lemma candidate_rows_listed db until bound n :
  constraints db -> candidate_rows db until bound n = take n (the_candidate db <$> listed db until bound).
Proof.
  intros Hc. unfold candidate_rows, listed. f_equal.
  set (l := List.filter (in_range until bound) (boxes db)).
  assert (Hl : forall box, box ∈ l -> box_candidates db box = [the_candidate db box]
    /\ candidate_position (the_candidate db box) = position box).
  { intros box [Hb _]%elem_of_filter_bool. by apply the_candidate_spec. }
  assert (E : (box ← l; box_candidates db box) = the_candidate db <$> l).
  { clearbody l. induction l as [|box l IH]; [done|]. rewrite bind_cons, fmap_cons.
    destruct (Hl box) as [-> _]; [by left|]. cbn. f_equal. apply IH. intros b Hb. apply Hl. by right. }
  rewrite E. apply (js_sort_map (the_candidate db)). intros x y [_ Hx]%Hl [_ Hy]%Hl. by rewrite Hx, Hy.
Qed.

(** Two tables of one revision list the same boxes, in the same order. *)
Lemma listed_agrees a b until bound :
  constraints (fs_stock a) -> constraints (fs_stock b) -> agrees a b -> agrees b a ->
  Forall2 (unchanged a b) (listed (fs_stock a) until bound) (listed (fs_stock b) until bound).
Proof.
  intros Ha Hb Hab Hba.
  assert (Hin : forall c d, agrees c d -> forall box, box ∈ listed (fs_stock c) until bound ->
    exists box', box' ∈ listed (fs_stock d) until bound /\ unchanged c d box box').
  { intros c d Hcd box (Hbox & Hs & Hv & Hbd)%elem_of_listed. destruct (Hcd _ Hbox Hs) as (box' & Hb' & U).
    exists box'. split; [|done]. rewrite elem_of_listed. rewrite <- (unchanged_sscc _ _ _ _ U).
    destruct U as (Ei & Ev & _). by rewrite <- Ei, <- Ev. }
  assert (E : position <$> listed (fs_stock a) until bound = position <$> listed (fs_stock b) until bound).
  { unfold listed. rewrite <- !(js_sort_map position _ position_leb) by done.
    assert (Hp : forall c d, agrees c d -> forall p,
      p ∈ position <$> List.filter (in_range until bound) (boxes (fs_stock c)) ->
      p ∈ position <$> List.filter (in_range until bound) (boxes (fs_stock d))).
    { intros c d Hcd p (box & -> & Hbox)%list_elem_of_fmap.
      destruct (Hin c d Hcd box) as (box' & Hb' & (Ei & Ev & _)).
      { unfold listed. by rewrite elem_of_js_sort. }
      unfold listed in Hb'. rewrite elem_of_js_sort in Hb'. apply list_elem_of_fmap. exists box'.
      split; [|done]. unfold position. by rewrite Ei, Ev. }
    assert (Hnd : forall c, constraints (fs_stock c) ->
      NoDup (position <$> List.filter (in_range until bound) (boxes (fs_stock c)))).
    { intros c Hc. apply (NoDup_fmap_1 snd). rewrite <- list_fmap_compose. change (snd ∘ position) with b_id.
      pose proof (key_id _ Hc) as Hk. unfold box_ids in Hk. eapply sublist_NoDup; [exact Hk | apply (fmap_sublist b_id), filter_bool_sublist]. }
    apply (StronglySorted_unique (fun x y => position_leb x y = true)).
    - apply (js_sort_sorted position_leb).
    - apply (js_sort_sorted position_leb).
    - rewrite !js_sort_perm. apply NoDup_Permutation; [by apply Hnd..|]. split; by apply Hp. }
  apply Forall2_same_length_lookup. split.
  { by rewrite <- (length_fmap position), E, length_fmap. }
  intros i x y Hx Hy. destruct (Hin a b Hab x) as (y' & Hy' & U); [by eapply list_elem_of_lookup_2|].
  assert (Exy : position x = position y).
  { assert (H : (position <$> listed (fs_stock a) until bound) !! i
      = (position <$> listed (fs_stock b) until bound) !! i) by (by rewrite E).
    rewrite !list_lookup_fmap, Hx, Hy in H. by apply (inj Some) in H. }
  assert (y = y') as ->; [|done].
  apply elem_of_listed in Hy' as [Hy' _]. apply list_elem_of_lookup_2, elem_of_listed in Hy as [Hy _].
  apply (key_unique b_id (boxes (fs_stock b)) y y'); [by apply key_id | done..|].
  destruct U as (Ei & _). injection Exy as _ Ei'. congruence.
Qed.

(** ** Cutting *)

Lemma prefix_loop_take counts candidates : forall some_ budget,
  exists k, (k <= length candidates)%nat /\ (prefix_loop counts some_ budget candidates).1 = take k candidates
    /\ (some_ = false -> candidates <> [] -> (0 < k)%nat).
Proof.
  induction candidates as [|c cs IH]; intros some_ budget; [by exists 0%nat|]. cbn [prefix_loop].
  destruct (some_ && _) eqn:E.
  - exists 0%nat. split; [lia|]. split; [done|]. intros ->. done.
  - destruct (IH true (budget + member_cost counts c)%nat) as (k & Hk & Ht & _).
    destruct (prefix_loop counts true _ cs) as [selected total]. cbn in Ht. exists (S k).
    split; [cbn; lia|]. split; [by rewrite firstn_cons, <- Ht | lia].
Qed.

(** What the boxes selected cost: never more than a page may hold. *)
Lemma prefix_loop_cost counts candidates : forall some_ budget,
  (budget <= MAX_REGISTRY_PAGE_MEMBER_KEYS)%nat -> (some_ = false -> budget = 0%nat) ->
  (budget + sum_list_with (member_cost counts) (prefix_loop counts some_ budget candidates).1
    <= MAX_REGISTRY_PAGE_MEMBER_KEYS)%nat.
Proof.
  induction candidates as [|c cs IH]; intros some_ budget Hb Hs; cbn [prefix_loop]; [cbn; lia|].
  destruct (some_ && _) eqn:E; [cbn; lia|].
  assert (Hc : (budget + member_cost counts c <= MAX_REGISTRY_PAGE_MEMBER_KEYS)%nat).
  { destruct some_; [by apply Nat.ltb_ge in E|]. rewrite Hs by done. unfold member_cost,
      MAX_BOX_REGISTRY_MEMBERS, MAX_REGISTRY_PAGE_MEMBER_KEYS in *. destruct (Nat.ltb_spec 500 (count_of counts (id c))); lia. }
  specialize (IH true (budget + member_cost counts c)%nat Hc ltac:(done)).
  destruct (prefix_loop counts true _ cs) as [selected total]. cbn in *. lia.
Qed.

(** What is selected is the beginning of what was read, and not nothing. *)
Lemma select_take counts candidates more :
  let prefix := selectBoxRegistryCandidatePrefix candidates counts more in
  exists k, (k <= length candidates)%nat /\ px_candidates prefix = take k candidates
    /\ (candidates <> [] -> (0 < k)%nat)
    /\ px_hasMoreCandidates prefix = more || (k <? length candidates)%nat
    /\ (sum_list_with (member_cost counts) (px_candidates prefix) <= MAX_REGISTRY_PAGE_MEMBER_KEYS)%nat.
Proof.
  unfold selectBoxRegistryCandidatePrefix.
  destruct (prefix_loop_take counts candidates false 0) as (k & Hk & Ht & Hpos).
  pose proof (prefix_loop_cost counts candidates false 0 ltac:(unfold MAX_REGISTRY_PAGE_MEMBER_KEYS; lia)
    ltac:(done)) as Hcost.
  destruct (prefix_loop counts false 0 candidates) as [loop total]. cbn in Ht, Hcost. subst loop. exists k.
  assert (E : match take k candidates, candidates with [], first :: _ => [first] | _, _ => take k candidates end
    = take k candidates).
  { destruct candidates as [|c cs]; [by destruct k|]. specialize (Hpos eq_refl ltac:(done)).
    by destruct k as [|k]; [lia|]. }
  cbn. rewrite E. split; [done|]. split; [done|]. split; [auto|].
  split; [by rewrite length_take, Nat.min_l by lia | exact Hcost].
Qed.

(** ** A served page *)

(** Where the rows of an answer begin. *)
Definition request_bound (q : PageQuery) : Z -> jsstr -> bool :=
  match c ← pq_cursor q; decodeBoxRegistryCursor zod_uuid c with
  | Some cursor =>
      lower_bound (BigInt <$> pq_since q) (Some (BigInt (cu_registryVersion cursor))) (Some (cu_id cursor))
  | None => lower_bound (BigInt <$> pq_since q) None None
  end.

Lemma resolve_window q version window :
  resolveBoxRegistryWindow zod_uuid (kiosk_request q) version = inr window ->
  w_since window = pq_since q /\ w_limit window = BOX_REGISTRY_PAGE_LIMIT
  /\ lower_bound (BigInt <$> w_since window) (BigInt <$> w_afterRegistryVersion window) (w_afterId window)
     = request_bound q
  /\ (pq_cursor q = None -> forall since, pq_since q = Some since -> BigInt since <= BigInt version)
  /\ boxRegistryQuerySchema (kiosk_request q) = true.
Proof.
  unfold resolveBoxRegistryWindow, request_bound. cbn [q_cursor q_until q_since kiosk_request q_limit].
  destruct (_ || _) eqn:Es; [done|]. apply orb_false_iff in Es as [Es _]. apply negb_false_iff in Es.
  destruct (pq_cursor q) as [raw|] eqn:Ec; cbn [mbind option_bind].
  - destruct (decodeBoxRegistryCursor zod_uuid raw) as [cursor|]; [|done].
    destruct (_ || _) eqn:E1; [done|]. destruct (_ || _ || _); [done|]. intros [= <-]. cbn.
    apply orb_false_iff in E1 as [_ E1]. apply negb_false_iff, bool_decide_eq_true in E1. by rewrite E1.
  - destruct (bool_decide _); [done|]. destruct (match pq_since q with Some _ => _ | None => _ end) eqn:E2; [done|].
    intros [= <-]. cbn. split_and!; try done. intros _ since Hs. rewrite Hs in E2. by apply Z.ltb_ge in E2.
Qed.

Lemma sight_offerable a b box box' : unchanged a b box box' -> offerable box = offerable box'.
Proof. intros (_ & _ & H). unfold sight in H. by destruct (offerable box), (offerable box'). Qed.

Lemma sight_members a b box box' :
  unchanged a b box box' -> offerable box' = true ->
  member_count (fs_stock a) (b_id box) = member_count (fs_stock b) (b_id box')
  /\ seen_fact <$> box_facts (fs_stock a) (b_id box) = seen_fact <$> box_facts (fs_stock b) (b_id box').
Proof.
  intros Hu Ho. pose proof (sight_offerable _ _ _ _ Hu) as E. destruct Hu as (_ & _ & H).
  unfold sight in H. rewrite E, Ho in H. split; congruence.
Qed.

Lemma fmap_omap_list {A B C} (f : A -> option B) (g : B -> C) (l : list A) :
  g <$> omap f l = omap (fun x => g <$> f x) l.
Proof. induction l as [|x l IH]; [done|]. cbn. destruct (f x); cbn; by rewrite ?IH. Qed.

(** What the counts and the facts of two states say together of a box that the
    reference state has. *)
Lemma facts_between counts facts st candidates window box' :
  agrees st counts -> agrees st facts -> box' ∈ boxes (fs_stock st) -> is_Some (b_sscc box') ->
  offerable box' = true -> b_id box' ∈ map id candidates -> b_id box' ∈ map id window ->
  seen_fact <$> resolveBoxRegistryFacts (fs_stock facts) candidates
                  (loadBoxRegistryMembershipCounts (fs_stock counts) window) (b_id box')
  = seen_fact <$> box_facts (fs_stock st) (b_id box').
Proof.
  intros Hc Hf Hb Hs Ho Hin Hw. destruct (Hc _ Hb Hs) as (bc & _ & Uc), (Hf _ Hb Hs) as (bf & _ & Uf).
  pose proof (sight_offerable _ _ _ _ Uc) as Eoc. pose proof (sight_offerable _ _ _ _ Uf) as Eof.
  destruct (sight_members _ _ _ _ Uc ltac:(congruence)) as [Em _].
  destruct (sight_members _ _ _ _ Uf ltac:(congruence)) as [Em' Ef].
  destruct Uc as (Eic & _), Uf as (Eif & _). rewrite <- Eic in Em. rewrite <- Eif in Em', Ef.
  rewrite facts_alone; [done | done|]. rewrite counts_alone by done. congruence.
Qed.

(** How many content keys a change carries. *)
Definition key_count (change : KioskBoxRegistryChange) : nat :=
  match change with Upsert _ box => length (bx_contentKeys box) | Remove _ _ => 0%nat end.

(** What a page of kiosk changes is, read in one state of its revision: the
    changes of the first [k] listed boxes, as many as a page may hold, and a cursor
    to the last of them when there are more. *)
Record page_of_state (q : PageQuery) (st : FeedState) (page : RegistryPage KioskBoxRegistryChange)
    (k : nat) : Prop := {
  ps_length : (k <= length (listed (fs_stock st) (current st) (request_bound q)))%nat;
  ps_limit : (k <= Z.to_nat BOX_REGISTRY_PAGE_LIMIT)%nat;
  ps_some : listed (fs_stock st) (current st) (request_bound q) <> [] -> (0 < k)%nat;
  ps_items : page_items page = omap (box_change (fs_stock st) (bool_decide (is_Some (pq_since q))))
    (take k (listed (fs_stock st) (current st) (request_bound q)));
  ps_keys : (sum_list_with key_count (page_items page) <= MAX_REGISTRY_PAGE_MEMBER_KEYS)%nat;
  ps_cursor : match page_nextCursor page with
    | None => k = length (listed (fs_stock st) (current st) (request_bound q))
    | Some raw =>
        (k < length (listed (fs_stock st) (current st) (request_bound q)))%nat
        /\ exists box, last (take k (listed (fs_stock st) (current st) (request_bound q))) = Some box
           /\ encodeBoxRegistryCursor zod_uuid
                {| cu_since := pq_since q; cu_until := page_until page;
                   cu_registryVersion := js_of_Z (b_registryVersion box); cu_id := b_id box |} = Some raw
    end
}.

(** The changes of candidates read in one state, with the counts and the facts of
    two others. *)
Lemma cut_items st rows counts facts delta window lr l :
  constraints (fs_stock rows) -> constraints (fs_stock st) -> agrees st counts -> agrees st facts ->
  Forall2 (unchanged rows st) lr l ->
  (forall box, box ∈ lr -> box ∈ boxes (fs_stock rows)) ->
  (forall box, box ∈ l -> box ∈ boxes (fs_stock st) /\ is_Some (b_sscc box)) ->
  (forall c, c ∈ the_candidate (fs_stock rows) <$> lr -> id c ∈ map id window) ->
  let facts_of := resolveBoxRegistryFacts (fs_stock facts) (the_candidate (fs_stock rows) <$> lr)
                    (loadBoxRegistryMembershipCounts (fs_stock counts) window) in
  toKioskChange <$> omap (fun c => evaluateBoxRegistryCandidate c (facts_of (id c)) delta)
                      (the_candidate (fs_stock rows) <$> lr)
  = omap (box_change (fs_stock st) delta) l.
Proof.
  intros Hr Hst Hcounts Hfacts HF Hlr Hl Hwin facts_of. rewrite fmap_omap_list.
  apply list_omap_ext, Forall2_fmap_l, Forall2_same_length_lookup. split; [by eapply Forall2_length|].
  intros i b b' Hb Hb'. pose proof (Forall2_lookup_lr _ _ _ _ _ _ HF Hb Hb') as U.
  apply list_elem_of_lookup_2 in Hb, Hb'. destruct (Hl _ Hb') as [Hin' Hs'].
  destruct (the_candidate_spec _ _ Hr (Hlr _ Hb)) as [Hc Hpos]. injection Hpos as _ Hid.
  assert (Hid' : id (the_candidate (fs_stock rows) b) = b_id b') by (destruct U; congruence).
  assert (Hmem : the_candidate (fs_stock rows) b ∈ the_candidate (fs_stock rows) <$> lr)
    by by apply list_elem_of_fmap_2.
  apply (mixed_change rows st b b'); [done | done | by apply key_joins|].
  intros Hcl. rewrite Hid'. apply facts_between; [done..| |]; rewrite <- Hid'.
  - by apply list_elem_of_fmap_2.
  - by apply Hwin.
Qed.

(** A box that is offered has as many members as it has keys, at most. *)
Lemma offered_count db delta box s content :
  box_change db delta box = Some (Upsert s content) ->
  offerable box = true
  /\ (length (bx_contentKeys content) <= member_count db (b_id box) <= MAX_BOX_REGISTRY_MEMBERS)%nat.
Proof.
  unfold box_change. destruct (box_candidates db box) as [|c cs] eqn:Ec; [done|]. cbn [head mbind option_bind].
  assert (Hin : c ∈ box_candidates db box) by (rewrite Ec; left). clear Ec. intros Hch.
  assert (Ho : offerable box = true).
  { destruct (offerable box) eqn:Eo; [done|]. rewrite (closed_change _ _ _ _ _ Hin Eo) in Hch.
    unfold ineligible_change, ineligibleChange in Hch. destruct (sscc c); [|done]. cbn in Hch. by destruct (_ || _). }
  unfold kiosk_change in Hch. destruct (evaluateBoxRegistryCandidate _ _ _) as [change|] eqn:E; [|done].
  destruct change as [boxId s' product count keys at_ pallet psscc act closed day|s' at_]; [|done].
  injection Hch as -> <-. cbn [bx_contentKeys]. pose proof (evaluate_total _ _ _ _ _ _ _ _ _ _ _ _ _ _ E) as (_ & Ht & Hle).
  apply evaluate_upsert in E as (_ & _ & _ & _ & _ & Hpos & unsorted & -> & _ & HF).
  split; [done|]. rewrite (Permutation_length (js_sort_perm _ _)), <- (Forall2_length _ _ _ HF).
  assert (Hlen : length (box_facts db (b_id box)) = member_count db (b_id box)).
  { destruct (box_facts db (b_id box)) as [|f fs] eqn:Ef; [cbn in Hpos; lia|].
    rewrite Ht. by eapply box_facts_total. }
  rewrite <- Hlen. split; [apply filter_length_le | exact Hle].
Qed.

(** What the boxes of a page carry, and what they were said to cost. *)
Lemma cut_keys st rows counts delta window lr l :
  constraints (fs_stock rows) -> agrees st counts -> Forall2 (unchanged rows st) lr l ->
  (forall box, box ∈ lr -> box ∈ boxes (fs_stock rows)) ->
  (forall box, box ∈ l -> box ∈ boxes (fs_stock st) /\ is_Some (b_sscc box)) ->
  (forall c, c ∈ the_candidate (fs_stock rows) <$> lr -> id c ∈ map id window) ->
  (sum_list_with key_count (omap (box_change (fs_stock st) delta) l)
   <= sum_list_with (member_cost (loadBoxRegistryMembershipCounts (fs_stock counts) window))
        (the_candidate (fs_stock rows) <$> lr))%nat.
Proof.
  intros Hr Hcounts HF. induction HF as [|b b' lr l U HF IH]; intros Hlr Hl Hwin; [done|].
  rewrite fmap_cons. cbn [omap list_omap sum_list_with].
  specialize (IH ltac:(intros; apply Hlr; by right) ltac:(intros; apply Hl; by right)
    ltac:(intros; apply Hwin; by right)).
  destruct (box_change (fs_stock st) delta b') as [[s content|s at_]|] eqn:E; cbn [sum_list_with key_count]; [|lia..].
  apply offered_count in E as [Ho Hn]. destruct (Hl b') as [Hb' Hs]; [by left|].
  destruct (Hcounts _ Hb' Hs) as (bc & _ & Uc).
  pose proof (sight_offerable _ _ _ _ Uc) as Eo.
  destruct (sight_members _ _ _ _ Uc ltac:(congruence)) as [Em _].
  destruct (the_candidate_spec _ _ Hr (Hlr b (list_elem_of_here _ _))) as [_ Hpos]. injection Hpos as _ Hid.
  enough (Hcost : member_cost (loadBoxRegistryMembershipCounts (fs_stock counts) window)
    (the_candidate (fs_stock rows) b) = member_count (fs_stock st) (b_id b')) by lia.
  assert (Hin : id (the_candidate (fs_stock rows) b) ∈ map id window) by (apply Hwin; by left).
  unfold member_cost. rewrite counts_alone by done. rewrite Hid.
  assert (member_count (fs_stock counts) (b_id b) = member_count (fs_stock st) (b_id b')) as ->
    by (destruct U as (Ei & _), Uc as (Ei' & _); congruence).
  destruct (Nat.ltb_spec MAX_BOX_REGISTRY_MEMBERS (member_count (fs_stock st) (b_id b'))); [lia | done].
Qed.

(** The last candidate of a page is of the last box. *)
Lemma cut_last st rows lr l c :
  constraints (fs_stock rows) -> Forall2 (unchanged rows st) lr l ->
  (forall box, box ∈ lr -> box ∈ boxes (fs_stock rows)) ->
  last (the_candidate (fs_stock rows) <$> lr) = Some c ->
  exists box, last l = Some box /\ registryVersion c = b_registryVersion box /\ id c = b_id box.
Proof.
  intros Hc HF Hlr Hcl. rewrite fmap_last in Hcl. destruct (last lr) as [b|] eqn:Eb; [|done].
  injection Hcl as <-. destruct (the_candidate_spec _ _ Hc (Hlr _ (last_Some_elem_of _ _ Eb))) as [_ Epos].
  injection Epos as Ev Ei. rewrite last_lookup in Eb. rewrite (Forall2_length _ _ _ HF) in Eb.
  destruct (Forall2_lookup_l _ _ _ _ _ HF Eb) as (box & Hbox & (Ei' & Ev' & _)).
  exists box. rewrite last_lookup. split; [done|]. by rewrite Ev, Ei, Ei', Ev'.
Qed.

Lemma take_listed db until bound k box :
  box ∈ take k (listed db until bound) ->
  box ∈ boxes db /\ is_Some (b_sscc box) /\ b_registryVersion box <= until
  /\ bound (b_registryVersion box) (b_id box) = true.
Proof.
  intros (i & Hb & _)%elem_of_take. by apply list_elem_of_lookup_2, elem_of_listed in Hb.
Qed.

(** The cursor of a page points at its last box. *)
Lemma cut_cursor st rows since until lr l k next :
  constraints (fs_stock rows) -> Forall2 (unchanged rows st) lr l ->
  (forall box, box ∈ take k lr -> box ∈ boxes (fs_stock rows)) ->
  (k <= length l)%nat -> (l <> [] -> (0 < k)%nat) ->
  match (k <? length l)%nat, last (take k (the_candidate (fs_stock rows) <$> lr)) with
  | true, Some last_ =>
      Some <$> encodeBoxRegistryCursor zod_uuid
        {| cu_since := since; cu_until := until; cu_registryVersion := js_of_Z (registryVersion last_);
           cu_id := id last_ |}
  | _, _ => Some None
  end = Some next ->
  match next with
  | None => k = length l
  | Some raw => (k < length l)%nat /\ exists box, last (take k l) = Some box
      /\ encodeBoxRegistryCursor zod_uuid
           {| cu_since := since; cu_until := until; cu_registryVersion := js_of_Z (b_registryVersion box);
              cu_id := b_id box |} = Some raw
  end.
Proof.
  intros Hc HF Hlr Hk Hpos En. destruct (Nat.ltb_spec k (length l)) as [Hlt|Hge]; [|injection En as <-; lia].
  rewrite <- fmap_take in En. destruct (last (the_candidate (fs_stock rows) <$> take k lr)) as [c|] eqn:El.
  - destruct (encodeBoxRegistryCursor _ _) as [raw|] eqn:Ee; [|done]. injection En as <-.
    destruct (cut_last st rows (take k lr) (take k l) c Hc) as (box & Hb & Ev & Ei); [by apply Forall2_take | done..|].
    split; [done|]. exists box. split; [done|]. by rewrite <- Ev, <- Ei, <- Ee.
  - exfalso. apply last_None, (f_equal length) in El. rewrite length_fmap, length_take in El. cbn in El.
    apply Forall2_length in HF. destruct l as [|x l]; [cbn in Hlt; lia|]. specialize (Hpos ltac:(done)).
    cbn in HF, Hlt. lia.
Qed.

(** Cutting at the same place in two lists that correspond. *)
Lemma cut_page q st rows counts facts window page :
  constraints (fs_stock rows) -> agrees st counts -> agrees st facts ->
  constraints (fs_stock st) ->
  Forall2 (unchanged rows st) (listed (fs_stock rows) (current st) (request_bound q))
    (listed (fs_stock st) (current st) (request_bound q)) ->
  w_since window = pq_since q -> w_limit window = BOX_REGISTRY_PAGE_LIMIT ->
  let limit := Z.to_nat (w_limit window) in
  let all := candidate_rows (fs_stock rows) (current st) (request_bound q) (S limit) in
  let ns := loadBoxRegistryMembershipCounts (fs_stock counts) (take limit all) in
  let prefix := selectBoxRegistryCandidatePrefix (take limit all) ns (limit <? length all)%nat in
  shapeBoxRegistryPage zod_uuid (px_candidates prefix)
    (resolveBoxRegistryFacts (fs_stock facts) (px_candidates prefix) ns) window
    (px_hasMoreCandidates prefix) = Some page ->
  page_until page = w_until window /\ exists k, page_of_state q st (toKioskPage page) k.
Proof.
  intros Hc Hcounts Hfacts Hst HF Hsince Hlimit limit all ns prefix Hshape.
  set (LR := listed (fs_stock rows) (current st) (request_bound q)) in *.
  set (L := listed (fs_stock st) (current st) (request_bound q)) in *.
  set (C := the_candidate (fs_stock rows) <$> LR).
  assert (Hlim : (0 < limit)%nat) by (unfold limit; rewrite Hlimit; unfold BOX_REGISTRY_PAGE_LIMIT; lia).
  assert (Hall : all = take (S limit) C) by (apply candidate_rows_listed; done).
  assert (Hwin : take limit all = take limit C) by (rewrite Hall, take_take; f_equal; lia).
  assert (HlenC : length C = length L) by (unfold C; rewrite length_fmap; by eapply Forall2_length).
  destruct (select_take ns (take limit all) (limit <? length all)%nat) as (k & Hk & Hpx & Hpos & Hmore & Hcost).
  fold prefix in Hpx, Hmore, Hcost. rewrite Hwin in Hk, Hpx, Hpos, Hmore. rewrite length_take in Hk, Hmore.
  rewrite take_take, Nat.min_l in Hpx by lia. rewrite Hpx in Hshape, Hcost.
  assert (Hhas : px_hasMoreCandidates prefix = (k <? length L)%nat).
  { rewrite Hmore, Hall, length_take, <- HlenC. destruct (Nat.ltb_spec limit (S limit `min` length C)),
      (Nat.ltb_spec k (limit `min` length C)), (Nat.ltb_spec k (length C)); cbn; try done; lia. }
  rewrite Hhas in Hshape. unfold shapeBoxRegistryPage in Hshape. rewrite Hsince in Hshape.
  set (delta := bool_decide (is_Some (pq_since q))) in *.
  assert (HFk : Forall2 (unchanged rows st) (take k LR) (take k L)) by by apply Forall2_take.
  assert (Htake : take k C = the_candidate (fs_stock rows) <$> take k LR) by (unfold C; by rewrite fmap_take).
  assert (Hlr : forall box, box ∈ take k LR -> box ∈ boxes (fs_stock rows)) by (intros ? H; by apply take_listed in H as [? _]).
  assert (Hl : forall box, box ∈ take k L -> box ∈ boxes (fs_stock st) /\ is_Some (b_sscc box))
    by (intros ? H; by apply take_listed in H as (? & ? & _)).
  assert (Hin : forall c, c ∈ the_candidate (fs_stock rows) <$> take k LR -> id c ∈ map id (take limit all)).
  { intros c Hcin. rewrite <- Htake in Hcin. rewrite Hwin. apply list_elem_of_fmap_2.
    apply elem_of_take in Hcin as (i & Hi & Hik). apply elem_of_take. exists i. split; [done | lia]. }
  destruct (match (k <? length L)%nat, last (take k C) with
    | true, Some last_ => _ | _, _ => _ end) as [next|] eqn:En; [|done].
  cbn [mbind option_bind] in Hshape. injection Hshape as <-. split; [done|]. exists k.
  assert (Hsome : L <> [] -> (0 < k)%nat).
  { intros Hne. apply Hpos. intros E. apply (f_equal length) in E. rewrite length_take in E. cbn in E.
    destruct L; [done|]. cbn in HlenC. lia. }
  assert (Hitems := cut_items st rows counts facts delta (take limit all) (take k LR) (take k L)
    Hc Hst Hcounts Hfacts HFk Hlr Hl Hin). rewrite <- Htake in Hitems. fold ns in Hitems.
  split; cbn [toKioskPage page_items page_nextCursor page_until]; fold L.
  - lia.
  - rewrite <- Hlimit. fold limit. lia.
  - exact Hsome.
  - exact Hitems.
  - rewrite Hitems. etrans; [|exact Hcost]. rewrite Htake. by apply cut_keys.
  - eapply (cut_cursor st rows _ _ LR L k); try done. lia.
Qed.
Lemma served_page q page :
  serves q page ->
  (exists i st, history !! i = Some st /\ page_until page = js_of_Z (current st)
     /\ (pq_cursor q = None -> forall since, pq_since q = Some since -> BigInt since <= current st))
  /\ forall j st, history !! j = Some st -> page_until page = js_of_Z (current st) ->
       exists k, page_of_state q st page k.
Proof.
  intros (station & [H] & ->)%serves_read.
  destruct H as (t0 & t1 & t2 & t3 & t4 & first & rows & counts & facts & last_ & window
    & [Hle Hle'] & H0 & H1 & H2 & H3 & H4 & Hw & Hu & Hu' & Hshape).
  destruct (resolve_window _ _ _ Hw) as (Hsince & Hlimit & Hbound & Hold & _).
  assert (E : current first = current last_) by (eapply version_text; [done | done | congruence]).
  assert (E1 : current rows = current first) by (eapply (between t0 t1 t4); eauto; lia).
  assert (E2 : current counts = current first) by (eapply (between t0 t2 t4); eauto; lia).
  assert (E3 : current facts = current first) by (eapply (between t0 t3 t4); eauto; lia).
  rewrite Hbound in Hshape.
  assert (EB : BigInt (w_until window) = current first) by (rewrite <- Hu; by eapply BigInt_version).
  rewrite EB in Hshape.
  assert (Hcut : forall j st, history !! j = Some st -> current st = current first ->
    page_until station = w_until window /\ exists k, page_of_state q st (toKioskPage station) k).
  { intros j st Hj Est. assert (Hag : forall i x, history !! i = Some x -> current x = current first ->
      agrees st x /\ agrees x st).
    { intros i x Hx Ex. split; eapply (chronicle_agrees history Hchronicle); eauto; congruence. }
    destruct (chronicle_state _ Hchronicle _ _ H1) as [_ Hr].
    destruct (chronicle_state _ Hchronicle _ _ Hj) as [_ Hst].
    destruct (Hag _ _ H1 E1) as [Ha Hb]. rewrite <- Est in Hshape.
    eapply (cut_page q st rows counts facts window); try done.
    - by eapply Hag.
    - by eapply Hag.
    - by apply listed_agrees.
  }
  destruct (Hcut t0 first H0 eq_refl) as [Hpu _]. change (page_until (toKioskPage station)) with (page_until station).
  rewrite Hpu, <- Hu. split.
  - exists t0, first. split; [done|]. split; [done|]. intros Hn since Hs. rewrite <- (BigInt_version _ _ H0).
    by apply Hold.
  - intros j st Hj Ej. apply (Hcut j st Hj). symmetry. by eapply version_text.
Qed.

(** ** The next page goes on where the last ended *)

Lemma sorted_around {A} (R : A -> A -> Prop) l1 x l2 :
  Sorted.StronglySorted R (l1 ++ x :: l2) -> (forall y, y ∈ l1 -> R y x) /\ (forall y, y ∈ l2 -> R x y).
Proof.
  induction l1 as [|z l1 IH]; cbn; intros H; inversion H as [|? ? Hs Hf]; subst.
  - split; [by intros ? ?%elem_of_nil|]. by apply Forall_forall.
  - destruct (IH Hs) as [H1 H2]. split; [|done]. intros y [->|Hy]%elem_of_cons; [|auto].
    apply (proj1 (Forall_forall _ _) Hf). apply elem_of_app. right. by left.
Qed.

Definition after_box (box : BoxRow) : Z -> jsstr -> bool :=
  lower_bound None (Some (b_registryVersion box)) (Some (b_id box)).

Lemma after_box_spec box x : after_box box (b_registryVersion x) (b_id x) = negb (position_leb (position x) (position box)).
Proof.
  unfold after_box, lower_bound, position_leb, position, js_leb. cbn.
  destruct (Z.ltb_spec (b_registryVersion box) (b_registryVersion x)).
  - rewrite (proj2 (Z.ltb_ge (b_registryVersion x) (b_registryVersion box))), (proj2 (Z.eqb_neq _ _)) by lia. done.
  - destruct (Z.eqb_spec (b_registryVersion x) (b_registryVersion box)) as [->|].
    + rewrite Z.ltb_irrefl. cbn. by rewrite negb_involutive.
    + by rewrite (proj2 (Z.ltb_lt (b_registryVersion x) (b_registryVersion box))) by lia.
Qed.

(** A bound that holds of a position holds of the later ones. *)
Definition upward (bound : Z -> jsstr -> bool) : Prop :=
  forall x y, bound (b_registryVersion x) (b_id x) = true -> position_leb (position x) (position y) = true ->
  bound (b_registryVersion y) (b_id y) = true.

Lemma lower_bound_upward since version id : upward (lower_bound since version id).
Proof.
  intros x y. unfold lower_bound, position_leb, position. cbn. intros Hx.
  rewrite orb_true_iff, andb_true_iff, Z.ltb_lt, Z.eqb_eq. intros Hle.
  destruct version as [v|], id as [i|]; try (destruct since; [apply Z.ltb_lt in Hx; apply Z.ltb_lt; destruct Hle; lia | done]).
  rewrite !orb_true_iff, !andb_true_iff, !Z.ltb_lt, !Z.eqb_eq in *.
  destruct Hle as [Hlt|[E Hid]]; [left; destruct Hx; lia|]. destruct Hx as [Hx|[Ex Hx]]; [left; lia|].
  right. split; [lia|]. apply js_leb_spec in Hid as [Hid|<-]; [by eapply js_ltb_trans | done].
Qed.

Lemma listed_sorted db until bound :
  Sorted.StronglySorted (fun x y => position_leb (position x) (position y) = true) (listed db until bound).
Proof. apply (js_sort_sorted (fun x y => position_leb (position x) (position y))). Qed.

Lemma listed_nodup db until bound : constraints db -> NoDup (listed db until bound).
Proof.
  intros Hc. unfold listed. rewrite js_sort_perm. apply (NoDup_fmap_1 b_id).
  eapply sublist_NoDup; [exact (key_id _ Hc) | apply (fmap_sublist b_id), filter_bool_sublist].
Qed.

Lemma listed_after db until bound l1 box l2 :
  constraints db -> upward bound -> listed db until bound = l1 ++ box :: l2 ->
  listed db until (after_box box) = l2.
Proof.
  intros Hc Hup HL. set (L := listed db until bound) in *.
  assert (Hbox : box ∈ L) by (rewrite HL; apply elem_of_app; right; by left).
  apply elem_of_listed in Hbox as (_ & _ & _ & Hbound).
  assert (E : listed db until (after_box box)
    = List.filter (fun x => after_box box (b_registryVersion x) (b_id x)) L).
  { subst L. unfold listed. rewrite js_sort_filter by apply _. f_equal. rewrite filter_filter.
    apply filter_same. intros x _. unfold in_range.
    destruct (after_box box (b_registryVersion x) (b_id x)) eqn:Ea; [|by rewrite !andb_false_r].
    rewrite !andb_true_r. rewrite (Hup box x Hbound); [by rewrite andb_true_r|].
    rewrite after_box_spec in Ea. apply negb_true_iff in Ea.
    by destruct (comparator_total (le := position_leb) (position x) (position box)) as [?|?]; [congruence|]. }
  pose proof (listed_sorted db until bound) as Hs. pose proof (listed_nodup db until bound Hc) as Hn.
  fold L in Hs, Hn. rewrite HL in Hs, Hn. destruct (sorted_around _ _ _ _ Hs) as [H1 H2].
  rewrite E, HL, List.filter_app. cbn [List.filter]. rewrite after_box_spec, comparator_refl by apply _.
  cbn [negb]. rewrite filter_nothing.
  - cbn [app]. apply filter_keeps_all. intros x Hx. rewrite after_box_spec. apply negb_true_iff.
    destruct (position_leb (position x) (position box)) eqn:Ex; [|done]. exfalso.
    pose proof (position_leb_antisym (position x) (position box) Ex (H2 x Hx)) as Epos. injection Epos as _ Ei.
    apply NoDup_app in Hn as (_ & _ & [Hn _]%NoDup_cons).
    assert (HxL : x ∈ L) by (rewrite HL; apply elem_of_app; right; by right).
    assert (HbL : box ∈ L) by (rewrite HL; apply elem_of_app; right; by left).
    apply elem_of_listed in HxL as [HxL _]. apply elem_of_listed in HbL as [HbL _].
    by rewrite (key_unique b_id _ x box (key_id _ Hc) HxL HbL Ei) in Hx.
  - intros x Hx. rewrite after_box_spec. by rewrite (H1 x Hx).
Qed.
(** ** What arrives at the kiosk *)

Lemma page_of_value page until items next :
  page_of (page_value page) = Some (until, items, next) ->
  until = page_until page /\ items = VArr (map change_value (page_items page)) /\ next = page_nextCursor page.
Proof.
  unfold page_of, page_value. destruct page as [u is_ n]. cbn [page_until page_items page_nextCursor].
  change (is_object _) with true. cbn [negb].
  change (get (js "until") _) with (VStr u). change (get (js "items") _) with (VArr (map change_value is_)).
  cbn iota. destruct n as [n|].
  - change (get (js "nextCursor") _) with (VStr n). cbn iota. destruct (_ && _); [|done]. by intros [= <- <- <-].
  - change (get (js "nextCursor") _) with VUndefined. cbn iota. destruct (is_revision u); [|done].
    by intros [= <- <- <-].
Qed.

Lemma mapM_inverse {A B} (f : B -> option A) (g : A -> B) l r :
  (forall x y, f (g x) = Some y -> y = x) -> mapM f (map g l) = Some r -> r = l.
Proof.
  intros H. revert r. induction l as [|x l IH]; intros r; cbn; [by intros [= <-]|].
  destruct (f (g x)) as [y|] eqn:E; [|done]. cbn. destruct (mapM f (map g l)) as [r'|]; [|done].
  cbn. intros [= <-]. by rewrite (H _ _ E), (IH r').
Qed.

Lemma checked_change date_parse change change' :
  checkedChange date_parse (change_value change) = Some change' -> change' = change.
Proof.
  unfold checkedChange. destruct change as [s [boxId productId count keys at_]|s at_]; cbn [change_value].
  - change (is_object _) with true. cbn [negb]. cbv zeta. change (is_str (js "upsert") _) with true.
    change (is_str (js "remove") _) with false. cbn [orb negb].
    change (get (js "sscc") _) with (VStr s). change (get (js "updatedAt") _) with (VStr at_). cbn iota.
    destruct (_ || _); [done|]. unfold check_upsert.
    change (get (js "boxId") _) with (VStr boxId). change (get (js "productId") _) with (VStr productId).
    change (get (js "bottleCount") _) with (VNum (num count)). change (get (js "contentKeys") _) with (VArr (map VStr keys)).
    cbn [integer_of]. rewrite is_integer_num, int_value_num. cbn iota.
    destruct (_ || _); [done|]. destruct (_ || _); [done|]. destruct (negb _); [done|].
    destruct (mapM text_key (map VStr keys)) as [keys'|] eqn:E; [|done]. cbn [mbind option_bind].
    apply mapM_inverse in E as ->; [|by intros [|c x] y [= <-]].
    destruct (negb _); [done|]. destruct (existsb _ _); [done|]. by intros [= <-].
  - change (is_object _) with true. cbn [negb]. cbv zeta. change (is_str (js "upsert") _) with false.
    change (is_str (js "remove") _) with true. cbn [orb negb].
    change (get (js "sscc") _) with (VStr s). change (get (js "updatedAt") _) with (VStr at_). cbn iota.
    destruct (_ || _); [done|]. destruct (existsb _ _); [done|]. by intros [= <-].
Qed.

Lemma checked_changes date_parse changes r :
  checkedChanges date_parse (VArr (map change_value changes)) = Some r -> r = changes.
Proof.
  unfold checkedChanges, preflightPage. destruct (_ <? _)%nat; [done|].
  destruct (preflight_changes _ _); [|done]. cbn [mbind option_bind].
  destruct (mapM _ _) as [l|] eqn:E; [|done]. cbn [mbind option_bind]. destruct (bool_decide _); [|done].
  intros [= <-]. eapply mapM_inverse; [|exact E]. intros x y. apply checked_change.
Qed.

Lemma request_bound_upward q : upward (request_bound q).
Proof. unfold request_bound. destruct (c ← pq_cursor q; _) as [cursor|]; apply lower_bound_upward. Qed.

(** The request for the page after this one, and what is listed for it. *)
Definition next_request (since : option jsstr) (until raw : jsstr) : PageQuery :=
  {| pq_since := since; pq_until := Some until; pq_cursor := Some raw |}.

Lemma next_bound q st page k raw j :
  history !! j = Some st -> page_of_state q st page k -> page_nextCursor page = Some raw ->
  listed (fs_stock st) (current st) (request_bound (next_request (pq_since q) (page_until page) raw))
  = drop k (listed (fs_stock st) (current st) (request_bound q)).
Proof.
  intros Hst [_ _ _ _ _ Hcur] Hnext. rewrite Hnext in Hcur. destruct Hcur as (Hlt & box & Hlast & Henc).
  destruct (chronicle_state _ Hchronicle _ _ Hst) as [[_ Hstamps] Hc].
  set (L := listed (fs_stock st) (current st) (request_bound q)) in *.
  apply last_Some in Hlast as (l1 & Hl1). pose proof (take_drop k L) as HL.
  assert (Hafter : listed (fs_stock st) (current st) (after_box box) = drop k L).
  { apply (listed_after _ _ (request_bound q) l1); [done | apply request_bound_upward|]. fold L.
    rewrite <- HL at 1. by rewrite Hl1, <- app_assoc. }
  assert (Hbox : box ∈ L) by (rewrite <- HL, Hl1; rewrite !elem_of_app, list_elem_of_singleton; auto).
  apply elem_of_listed in Hbox as [Hbox _]. rewrite <- Hafter. f_equal.
  unfold request_bound, next_request. cbn [pq_cursor mbind option_bind pq_since].
  rewrite (cursor_decodes zod_uuid zod_uuid_shape _ _ Henc). cbn [cu_registryVersion cu_id].
  assert (BigInt (js_of_Z (b_registryVersion box)) = b_registryVersion box) as ->; [|done].
  specialize (Hstamps _ Hbox). rewrite js_of_Z_nonneg by lia.
  by destruct (js_of_nonneg_spec (b_registryVersion box)) as (_ & ? & _); [lia|].
Qed.

Section Answers.
Context (date_parse : jsstr -> option Z) (answers : PageQuery -> value -> bool).
(** What the kiosk is answered is what the server sends. *)
Context (Hanswers : forall q v, answers q v = true -> exists page, serves q page /\ v = page_value page).

(** A complete series of pages brings the changes of all boxes that were asked for,
    as the state of its revision has them, in the order of their stamps. *)
Lemma pages_whole since until q changes j st :
  delivers date_parse answers since until q changes -> pq_since q = since ->
  history !! j = Some st -> until = js_of_Z (current st) ->
  changes = omap (box_change (fs_stock st) (bool_decide (is_Some since)))
              (listed (fs_stock st) (current st) (request_bound q)).
Proof.
  intros Hd Hq Hst Hu.
  induction Hd as [q v items changes Ha Hp Hch|q v items raw changes rest Ha Hp Hch Hd IH];
    destruct (Hanswers _ _ Ha) as (page & Hs & ->); apply page_of_value in Hp as (Eu & -> & En);
    apply checked_changes in Hch as ->; rewrite Hu in Eu;
    destruct (served_page _ _ Hs) as [_ Hpage]; destruct (Hpage _ _ Hst (eq_sym Eu)) as (k & Hk);
    pose proof (ps_items _ _ _ _ Hk) as Hitems; rewrite Hitems, Hq.
  - pose proof (ps_cursor _ _ _ _ Hk) as Hcur. rewrite <- En in Hcur. subst k. by rewrite firstn_all.
  - pose proof (next_bound _ _ _ _ raw _ Hst Hk (eq_sym En)) as Hnext.
    rewrite Hq, <- Eu, <- Hu in Hnext. unfold next_request in Hnext.
    rewrite (IH eq_refl), Hnext, <- omap_app. by rewrite take_drop.
Qed.
End Answers.
End Feed.
