(* ===== verification/BoxMirror.v ===== *)
(** * The kiosk's registry is the server's

    The promise that [KioskRefresh] asks of the server ([server_law]), kept by the
    program of [BoxFeed] over any history of [BoxVersions]: so the registry a kiosk
    reads is the one the server's tables gave at a revision they had
    ([kiosk_mirrors_tables]). *)

From stdpp Require Import base list strings gmap sorting.
From Stdlib Require Import ZArith Lia.
From S2P Require Import Prelude Gs1 KioskApi KioskQueue KioskRegistry Effects KioskRefresh BoxFacts BoxCursor.
From S2P Require Import BoxFeed BoxVersions BoxBatch BoxFeedLaw.

#[local] Open Scope Z_scope.

(** ** The registry of a state of the tables *)

(** What a snapshot of the state offers of a box. *)
Definition box_entry (db : Stock) (box : BoxRow) : option (jsstr * BoxContent) :=
  s ← b_sscc box; content ← entry_of (box_change db false box); Some (s, content).

(** The boxes that can be handed out, by SSCC. *)
Definition registry (db : Stock) : gmap jsstr BoxContent := list_to_map (omap (box_entry db) (boxes db)).

(** The registry at a revision the tables had. *)
Definition revision (history : list FeedState) (until : jsstr) : option (gmap jsstr BoxContent) :=
  st ← List.find (fun st => jseqb (js_of_Z (current st)) until) history; Some (registry (fs_stock st)).

(** ** Look-ups *)

Lemma sscc_unique db box box' :
  constraints db -> box ∈ boxes db -> box' ∈ boxes db -> is_Some (b_sscc box) -> b_sscc box = b_sscc box' ->
  box = box'.
Proof.
  intros Hc. pose proof (key_sscc _ Hc) as Hn. revert Hn. generalize (boxes db). intros l.
  induction l as [|x l IH]; cbn; intros Hn Hb Hb' [s Hs] E; [by apply elem_of_nil in Hb|].
  assert (Hx : forall y, y ∈ l -> b_sscc y = Some s -> b_sscc x = Some s -> False).
  { intros y Hy Ey Ex. rewrite Ex in Hn. apply NoDup_cons in Hn as [Hn _]. apply Hn.
    apply list_elem_of_omap. by exists y. }
  assert (Hn' : NoDup (omap b_sscc l)) by (destruct (b_sscc x); [by apply NoDup_cons in Hn as [_ ?] | done]).
  apply elem_of_cons in Hb as [->|Hb], Hb' as [->|Hb']; auto.
  - exfalso. apply (Hx box'); congruence.
  - exfalso. apply (Hx box); congruence.
Qed.

Lemma box_entry_key db l s : s ∈ (omap (box_entry db) l).*1 -> s ∈ omap b_sscc l.
Proof.
  intros ([s' c] & -> & H)%list_elem_of_fmap. apply list_elem_of_omap in H as (box & Hb & H).
  apply list_elem_of_omap. exists box. split; [done|]. unfold box_entry in H.
  destruct (b_sscc box); [|done]. cbn in H. destruct (entry_of _); [|done]. by injection H as -> _.
Qed.

Lemma box_entry_nodup db l : NoDup (omap b_sscc l) -> NoDup (omap (box_entry db) l).*1.
Proof.
  induction l as [|box l IH]; cbn; intros Hn; [constructor|].
  assert (Hn' : NoDup (omap b_sscc l)) by (destruct (b_sscc box); [by apply NoDup_cons in Hn as [_ ?] | done]).
  destruct (box_entry db box) as [[s c]|] eqn:E; [|auto]. cbn. constructor; [|auto].
  intros Hin%box_entry_key. unfold box_entry in E. destruct (b_sscc box) as [s'|]; [|done]. cbn in E.
  destruct (entry_of _); [|done]. injection E as -> _. by apply NoDup_cons in Hn as [Hn _].
Qed.

Lemma registry_box db box s :
  constraints db -> box ∈ boxes db -> b_sscc box = Some s ->
  registry db !! s = entry_of (box_change db false box).
Proof.
  intros Hc Hb Hs. unfold registry. pose proof (box_entry_nodup db _ (key_sscc _ Hc)) as Hn.
  destruct (entry_of (box_change db false box)) as [c|] eqn:E.
  - apply elem_of_list_to_map_1; [done|]. apply list_elem_of_omap. exists box. split; [done|].
    unfold box_entry. by rewrite Hs, E.
  - apply not_elem_of_list_to_map_1. intros ([s' c] & Es & H)%list_elem_of_fmap. cbn in Es. subst s'.
    apply list_elem_of_omap in H as (box' & Hb' & H). unfold box_entry in H.
    destruct (b_sscc box') as [s'|] eqn:Es'; [|done]. cbn in H.
    destruct (entry_of (box_change db false box')) as [c'|] eqn:E'; [|done]. injection H as -> _.
    rewrite (sscc_unique db box box' Hc Hb Hb') in E; [congruence | by rewrite Hs | congruence].
Qed.

Lemma registry_none db s : (forall box, box ∈ boxes db -> b_sscc box <> Some s) -> registry db !! s = None.
Proof.
  intros H. apply not_elem_of_list_to_map_1. intros Hin%box_entry_key.
  apply list_elem_of_omap in Hin as (box & Hb & Hs). by apply (H box).
Qed.

(** ** Changes lead from one revision to the next *)

Section Law.
Context (zod_uuid : jsstr -> bool).
Context (zod_uuid_shape : forall s, zod_uuid s = true ->
  length s = 36%nat /\ forallb simple_char s = true).
Context (history : list FeedState) (Hchronicle : chronicle history).

(** A state of an older revision, whichever came first in time when they are the
    same. *)
Lemma older_state i j a b :
  history !! i = Some a -> history !! j = Some b -> current a <= current b ->
  (forall box', box' ∈ boxes (fs_stock b) -> is_Some (b_sscc box') -> b_registryVersion box' <= current a ->
     exists box, box ∈ boxes (fs_stock a) /\ unchanged a b box box')
  /\ forall box, box ∈ boxes (fs_stock a) -> is_Some (b_sscc box) ->
     exists box', box' ∈ boxes (fs_stock b) /\ b_sscc box' = b_sscc box.
Proof.
  intros Ha Hb Hle. destruct (Nat.le_ge_cases i j) as [Hij|Hij].
  - destruct (chronicle_follows _ Hchronicle _ _ _ _ Hij Ha Hb) as [_ Hold Hkept]. split; [done|].
    intros box Hbox Hs. destruct (Hkept box Hbox Hs) as (box' & ? & _ & ?). eauto.
  - assert (E : current a = current b)
      by (pose proof (fl_later _ _ (chronicle_follows _ Hchronicle _ _ _ _ Hij Hb Ha)); lia).
    split.
    + intros box' Hb' Hs _. destruct (chronicle_agrees _ Hchronicle _ _ _ _ Hb Ha (eq_sym E) box' Hb' Hs)
        as (box & Hbox & (H1 & H2 & H3)). exists box. by split.
    + intros box Hbox Hs. destruct (chronicle_agrees _ Hchronicle _ _ _ _ Ha Hb E box Hbox Hs)
        as (box' & Hb' & U). exists box'. split; [done|]. symmetry. by eapply unchanged_sscc.
Qed.

Lemma changes_nodup db delta l :
  NoDup (omap b_sscc l) -> NoDup (map ch_sscc (omap (box_change db delta) l)).
Proof.
  intros Hn. eapply sublist_NoDup; [exact Hn|]. clear Hn. induction l as [|box l IH]; cbn; [constructor|].
  destruct (box_change db delta box) as [change|] eqn:E.
  - rewrite (box_change_sscc _ _ _ _ E). cbn. by constructor.
  - destruct (b_sscc box); [by constructor | done].
Qed.

Lemma listed_ssccs db until bound : constraints db -> NoDup (omap b_sscc (listed db until bound)).
Proof.
  intros Hc. unfold listed. rewrite js_sort_perm. eapply sublist_NoDup; [exact (key_sscc _ Hc)|].
  generalize (boxes db). intros l. induction l as [|box l IH]; cbn; [constructor|].
  destruct (in_range until bound box); cbn; destruct (b_sscc box); by try constructor.
Qed.

Lemma box_with db s :
  (exists box, box ∈ boxes db /\ b_sscc box = Some s) \/ forall box, box ∈ boxes db -> b_sscc box <> Some s.
Proof.
  destruct (decide (Exists (fun box => b_sscc box = Some s) (boxes db))) as [H|H].
  - left. by apply Exists_exists in H.
  - right. intros box Hb Hs. apply H, Exists_exists. eauto.
Qed.

(** Every box the changes leave out is as it was. *)
Lemma patch_registry since base i st :
  history !! i = Some st ->
  match since with
  | None => base = ∅
  | Some since => exists j a, history !! j = Some a /\ BigInt since = current a /\ current a <= current st
      /\ base = registry (fs_stock a)
  end ->
  patch (omap (box_change (fs_stock st) (bool_decide (is_Some since)))
           (listed (fs_stock st) (current st) (lower_bound (BigInt <$> since) None None))) base
  = registry (fs_stock st).
Proof.
  intros Hst Hbase. destruct (chronicle_state _ Hchronicle _ _ Hst) as [[_ Hstamps] Hc].
  set (L := listed (fs_stock st) (current st) (lower_bound (BigInt <$> since) None None)).
  set (delta := bool_decide (is_Some since)).
  pose proof (changes_nodup (fs_stock st) delta L (listed_ssccs _ _ _ Hc)) as Hn.
  apply map_eq. intros s. rewrite patch_lookup.
  destruct (last_for s (omap (box_change (fs_stock st) delta) L)) as [change|] eqn:El.
  - (* the box was announced *)
    apply last_for_sscc in El as [Es Hin]. apply list_elem_of_omap in Hin as (box & Hbox & Hch).
    apply elem_of_listed in Hbox as [Hbox _]. pose proof (box_change_sscc _ _ _ _ Hch) as Hsscc.
    rewrite Es in Hsscc. rewrite (registry_box _ box) by done.
    rewrite <- (box_change_entry _ _ delta), Hch. by destruct change.
  - (* it was not *)
    assert (Hleft : forall box, box ∈ boxes (fs_stock st) -> b_sscc box = Some s ->
      box_change (fs_stock st) delta box = None \/ box ∉ L).
    { intros box Hbox Hs. destruct (box_change (fs_stock st) delta box) as [change|] eqn:Ech; [|by left].
      right. intros HL. pose proof (box_change_sscc _ _ _ _ Ech) as Hcs. rewrite Hs in Hcs. injection Hcs as ->.
      rewrite (last_for_elem _ change Hn) in El; [done|]. apply list_elem_of_omap. eauto. }
    destruct since as [since|].
    + destruct Hbase as (j & a & Ha & Ev & Hle & ->). destruct (older_state j i a st Ha Hst Hle) as [Hold Hkept].
      destruct (chronicle_state _ Hchronicle _ _ Ha) as [_ Hca].
      destruct (box_with (fs_stock st) s) as [(box & Hbox & Hs)|Hno].
      2: { rewrite !registry_none; [done | done|]. intros box Hbox Hs.
           destruct (Hkept box Hbox) as (box' & Hb' & Es); [by rewrite Hs|]. apply (Hno box' Hb'). congruence. }
      rewrite (registry_box (fs_stock st) box) by done.
      destruct (Z.le_gt_cases (b_registryVersion box) (current a)) as [Hv|Hv].
      * destruct (Hold box Hbox) as (box0 & Hb0 & U); [by rewrite Hs | done|].
        rewrite (registry_box (fs_stock a) box0); [|done|done|by rewrite (unchanged_sscc _ _ _ _ U)].
        by rewrite (unchanged_change a st box0 box).
      * destruct (Hleft box Hbox Hs) as [Hnone|HnL].
        -- rewrite <- (box_change_entry _ _ delta), Hnone. cbn.
           destruct (isValidSscc s) eqn:Evs.
           { destruct (box_change_delta (fs_stock st) box s) as [? Hsome]; [by apply key_joins | done..|].
             change delta with true in Hnone. congruence. }
           destruct (box_with (fs_stock a) s) as [(box0 & Hb0 & Hs0)|Hno]; [|by apply registry_none].
           by rewrite (registry_box (fs_stock a) box0), (box_change_invalid _ _ _ s).
        -- destruct HnL. apply elem_of_listed. split; [done|]. split; [by rewrite Hs|].
           split; [by apply Hstamps|]. cbn. rewrite Ev. by apply Z.ltb_lt.
    + subst base. rewrite lookup_empty. symmetry.
      destruct (box_with (fs_stock st) s) as [(box & Hbox & Hs)|Hno]; [|by apply registry_none].
      rewrite (registry_box (fs_stock st) box) by done. destruct (Hleft box Hbox Hs) as [Hnone|HnL].
      * change delta with false in Hnone. by rewrite Hnone.
      * destruct HnL. apply elem_of_listed. split; [done|]. split; [by rewrite Hs|]. split; [by apply Hstamps | done].
Qed.

(** ** The promise of the server *)

Context (date_parse : jsstr -> option Z) (answers : PageQuery -> value -> bool).
Context (Hanswers : forall q v, answers q v = true ->
  exists page, serves zod_uuid history q page /\ v = page_value page).

Lemma revision_state until m :
  revision history until = Some m ->
  exists i st, history !! i = Some st /\ until = js_of_Z (current st) /\ m = registry (fs_stock st).
Proof.
  unfold revision. destruct (List.find _ history) as [st|] eqn:E; [|done]. cbn. intros [= <-].
  apply List.find_some in E as [Hin Hu%jseqb_eq]. apply list_elem_of_In, list_elem_of_lookup in Hin as [i Hi].
  by exists i, st.
Qed.

Lemma state_revision i st :
  history !! i = Some st ->
  exists j st', history !! j = Some st' /\ current st' = current st
    /\ revision history (js_of_Z (current st)) = Some (registry (fs_stock st')).
Proof.
  intros Hi. unfold revision. destruct (List.find _ history) as [st'|] eqn:E.
  - apply List.find_some in E as [Hin Hu%jseqb_eq]. apply list_elem_of_In, list_elem_of_lookup in Hin as [j Hj].
    exists j, st'. split; [done|]. split; [|done]. by eapply version_text.
  - exfalso. pose proof (List.find_none _ _ E st) as H. cbn in H. rewrite jseqb_refl in H.
    discriminate H. apply list_elem_of_In. by eapply list_elem_of_lookup_2.
Qed.

(** The first page of a series is of a state the history had, no older than what was
    asked for. *)
Lemma first_page since until changes :
  delivers date_parse answers since until {| pq_since := since; pq_until := None; pq_cursor := None |} changes ->
  exists i st, history !! i = Some st /\ until = js_of_Z (current st)
    /\ forall s, since = Some s -> BigInt s <= current st.
Proof.
  intros Hd. assert (exists v items next,
    answers {| pq_since := since; pq_until := None; pq_cursor := None |} v = true
    /\ page_of v = Some (until, items, next)) as (v & items & next & Ha & Hp) by (destruct Hd; eauto 10).
  destruct (Hanswers _ _ Ha) as (page & Hs & ->). apply page_of_value in Hp as (-> & _).
  destruct (served_page _ _ Hchronicle _ _ Hs) as [(i & st & Hi & Hu & Hold) _].
  exists i, st. split; [done|]. split; [done|]. intros s Es. by apply Hold.
Qed.

(** The law. *)
Lemma feed_law since until changes base :
  match since with None => Some ∅ | Some since => revision history since end = Some base ->
  delivers date_parse answers since until {| pq_since := since; pq_until := None; pq_cursor := None |} changes ->
  revision history until = Some (patch changes base).
Proof.
  intros Hbase Hd. destruct (first_page _ _ _ Hd) as (i & st & Hi & Hu & Hold).
  destruct (state_revision _ _ Hi) as (j & st' & Hj & Ecur & Hrev). rewrite Hu, Hrev. f_equal. symmetry.
  rewrite <- Ecur in Hu.
  rewrite (pages_whole _ zod_uuid_shape _ Hchronicle _ _ Hanswers _ _ _ _ _ _ Hd eq_refl Hj Hu).
  eapply patch_registry; [exact Hj|]. destruct since as [since|]; [|by injection Hbase as <-].
  apply revision_state in Hbase as (k & a & Ha & -> & ->). specialize (Hold _ eq_refl).
  rewrite (BigInt_version _ Hchronicle _ _ Ha) in *. exists k, a. rewrite Ecur. auto.
Qed.
End Law.

(** ** The kiosk and the server *)

Section Mirror.
Context (zod_uuid : jsstr -> bool) (date_parse : jsstr -> option Z).
Context (zod_uuid_shape : forall s, zod_uuid s = true ->
  length s = 36%nat /\ forallb simple_char s = true).
(** What the tables of the tenant of a credential were, and what the server may
    answer to its holder: pages it served at some time. *)
Context (history : BoxRegistryCredentialOwner -> list FeedState).
Context (Hchronicle : forall owner, chronicle (history owner)).
Context (answers : BoxRegistryCredentialOwner -> PageQuery -> value -> bool).
Context (Hanswers : forall registryOwner owner q v,
  owner_of_owner registryOwner = Some owner -> answers registryOwner q v = true ->
  exists page, serves zod_uuid (history owner) q page /\ v = page_value page).

Definition tables_server (owner : BoxRegistryCredentialOwner) : jsstr -> option (gmap jsstr BoxContent) :=
  revision (history owner).

Lemma tables_law registryOwner owner :
  owner_of_owner registryOwner = Some owner -> server_law date_parse tables_server (answers registryOwner) owner.
Proof.
  intros Ho since until changes base Hb Hd.
  apply (feed_law _ zod_uuid_shape _ (Hchronicle owner) date_parse (answers registryOwner)
    (fun q v => Hanswers registryOwner owner q v Ho) since); [by destruct since | exact Hd].
Qed.

(** C4: From the tables to the screen.  Transactions commit as they please, pages
    are cut at any time between them, any request or page may fail, refreshes on
    the device complete, fail, die or overlap, and its configuration changes: when
    the registry can be read for an installation, the tables of the tenant had the
    revision the store names, the rows of the store are exactly the boxes that
    could be handed out then, with their contents, and a look-up answers for every
    SSCC what the tables said of it. *)
Theorem kiosk_mirrors_tables (config : option KioskConfig) (activities : list activity)
    (b : BoxRegistryBinding) (m : BoxRegistryMeta) :
  Forall (fair_activity date_parse tables_server) activities ->
  let st := sy_store (live date_parse answers activities (bare_device config)) in
  (readBoxRegistryMeta date_parse b st).1 = Some m ->
  currentOwner st = Some (bm_owner m) /\
  exists i tables, history (bm_owner m) !! i = Some tables
    /\ bm_version m = js_of_Z (current tables)
    /\ contents (rg_active st) = registry (fs_stock tables)
    /\ forall sscc, isValidSscc sscc = true ->
         row_content <$> (lookupBox date_parse b sscc st).1 = registry (fs_stock tables) !! sscc.
Proof.
  intros Hf st Hread.
  pose proof (live_inv date_parse tables_server answers tables_law activities _
    (bare_inv date_parse tables_server config) Hf) as Hi.
  split; [by eapply read_owner|]. destruct (read_mirrors _ _ _ _ _ Hi Hread) as [Hrev Hlook].
  apply revision_state in Hrev as (i & tables & Ht & Hv & Hc). exists i, tables.
  split; [done|]. split; [done|]. split; [done|]. intros sscc Hs. rewrite <- Hc. by apply Hlook.
Qed.
End Mirror.
