(* ===== verification/BoxServe.v ===== *)
(** * An undisturbed kiosk catches up with the server

    What the server sends passes every check of the kiosk ([accepted]), the pages
    of an undisturbed refresh are all served ([page_served]) and come to an end
    ([pages_end]): so a refresh that nobody disturbs installs the newest revision
    of the tables ([kiosk_catches_up]). *)

From stdpp Require Import base list strings gmap sorting relations.
From Stdlib Require Import ZArith QArith Lia.
From S2P Require Import Prelude Gs1 Km KioskApi KioskQueue Effects KioskRegistry KioskRefresh KioskRefreshDone.
From S2P Require Import BoxFacts BoxCursor BoxFeed BoxVersions BoxBatch BoxFeedLaw BoxMirror.

#[local] Open Scope Z_scope.

(** ** Sizes *)

(** The bound on a content key below which a full page fits the kiosk's megabyte;
    the codes in use take a tenth of it. *)
Definition KEY_BYTES : Z := 900.

Lemma utf8_of_scalar_length c : (0 < length (utf8_of_scalar c) <= 4)%nat.
Proof. unfold utf8_of_scalar. destruct (_ <? _); [cbn; lia|]. destruct (_ <? _); [cbn; lia|]. destruct (_ <? _); cbn; lia. Qed.

Lemma utf8_encode_length s : (length s <= length (utf8_encode s) <= 4 * length s)%nat.
Proof.
  induction s as [s IH] using (induction_ltof1 _ (@length Z)); unfold ltof in IH.
  destruct s as [|a s]; [cbn; lia|]. cbn [utf8_encode]. destruct s as [|b s].
  - destruct (_ || _); pose proof (utf8_of_scalar_length 0xfffd); pose proof (utf8_of_scalar_length a); cbn [length]; lia.
  - destruct (is_high_surrogate a && is_low_surrogate b) eqn:Hpair.
    + specialize (IH s ltac:(cbn; lia)). rewrite length_app.
      pose proof (utf8_of_scalar_length (0x10000 + (a - 0xd800) * 0x400 + (b - 0xdc00))).
      assert (H4 : (2 <= length (utf8_of_scalar (0x10000 + (a - 0xd800) * 0x400 + (b - 0xdc00))))%nat).
      { unfold utf8_of_scalar. destruct (Z.ltb_spec (0x10000 + (a - 0xd800) * 0x400 + (b - 0xdc00)) 0x80).
        { unfold is_high_surrogate, is_low_surrogate in Hpair. lia. }
        destruct (_ <? _); [cbn; lia|]. destruct (_ <? _); cbn; lia. }
      cbn [length] in *. lia.
    + specialize (IH (b :: s) ltac:(cbn; lia)).
      destruct (_ || _); rewrite length_app; pose proof (utf8_of_scalar_length 0xfffd);
        pose proof (utf8_of_scalar_length a); cbn [length] in *; lia.
Qed.

Lemma omap_length_le {A B} (f : A -> option B) l : (length (omap f l) <= length l)%nat.
Proof. induction l as [|x l IH]; cbn; [done|]. destruct (f x); cbn; lia. Qed.

Lemma match_classes_length cs s : InventorySync.match_classes cs s = true -> length s = length cs.
Proof.
  revert s. induction cs as [|p cs IH]; intros [|c s]; cbn; try done. intros [_ H]%andb_true_iff. by rewrite (IH s).
Qed.

Lemma isUuid_length s : isUuid s = true -> length s = 36%nat.
Proof. intros H%match_classes_length. unfold lower in H. by rewrite length_map in H. Qed.

(** ** What can be sent *)

Section Serve.
Context (zod_uuid : jsstr -> bool) (date_parse : jsstr -> option Z).
Context (zod_uuid_shape : forall s, zod_uuid s = true ->
  length s = 36%nat /\ forallb simple_char s = true).

(** What the columns of the tables hold: identifiers are UUIDs, instants print with
    four digits for the year and read back, and codes are not absurdly long. *)
Record sendable (db : Stock) : Prop := {
  send_ids : forall box, box ∈ boxes db -> zod_uuid (b_id box) = true /\ isUuid (b_id box) = true;
  send_dates : forall box, box ∈ boxes db ->
    readable_date date_parse (toISOString (b_updatedAt box)) = true
    /\ length (toISOString (b_updatedAt box)) = 24%nat;
  send_products : forall shift, shift ∈ shifts db ->
    isUuid (s_productId shift) = true;
  send_keys : forall code km, code ∈ codes db -> canonicalizeKm (c_canonicalRaw code) = Ok km ->
    Z.of_nat (length (utf8_encode (kmKey km))) <= KEY_BYTES
}.

(** A change the kiosk takes. *)
Definition change_sound (change : KioskBoxRegistryChange) : Prop :=
  checkedChange date_parse (change_value change) = Some change
  /\ length (ch_sscc change) = 18%nat
  /\ match change with
     | Upsert _ box =>
         length (bx_boxId box) = 36%nat /\ length (bx_productId box) = 36%nat
         /\ length (bx_updatedAt box) = 24%nat
         /\ Forall (fun key => Z.of_nat (length (utf8_encode key)) <= KEY_BYTES) (bx_contentKeys box)
     | Remove _ at_ => length at_ = 24%nat
     end.

Lemma text_keys keys : Forall (fun key : jsstr => key <> []) keys -> mapM text_key (map VStr keys) = Some keys.
Proof.
  induction 1 as [|key keys Hk H IH]; [done|]. cbn. destruct key; [done|]. cbn. by rewrite IH.
Qed.

Definition ch_updatedAt (change : KioskBoxRegistryChange) : jsstr :=
  match change with Upsert _ box => bx_updatedAt box | Remove _ at_ => at_ end.

Lemma evaluate_stamp c facts delta change :
  evaluateBoxRegistryCandidate c facts delta = Some change ->
  ch_updatedAt (toKioskChange change) = toISOString (updatedAt c)
  /\ isValidSscc (ch_sscc (toKioskChange change)) = true.
Proof.
  unfold evaluateBoxRegistryCandidate. assert (Hi : ineligibleChange c delta = Some change ->
    ch_updatedAt (toKioskChange change) = toISOString (updatedAt c)
    /\ isValidSscc (ch_sscc (toKioskChange change)) = true).
  { unfold ineligibleChange. destruct (sscc c) as [s|]; [|done]. cbn.
    destruct (negb delta || negb (isValidSscc s)) eqn:E; [done|]. intros [= <-]. cbn.
    apply orb_false_iff in E as [_ E]. by apply negb_false_iff in E. }
  destruct (sscc c) as [s|]; [|exact Hi]. destruct (closedAt c); [|exact Hi].
  destruct (closureReceivedAt c); [|exact Hi]. destruct (disassembledAt c); [exact Hi|].
  destruct (isValidSscc s) eqn:Ev; [|exact Hi]. cbn [negb]. destruct (_ || _ || _); [exact Hi|].
  destruct (active_facts _ _) as [[|f fs]|]; [exact Hi| |exact Hi].
  destruct (member_keys _ _ _ _ _); [|exact Hi]. by intros [= <-].
Qed.

Lemma box_facts_raw db boxId fact raw :
  fact ∈ box_facts db boxId -> canonicalRaw fact = Some raw ->
  exists code, code ∈ codes db /\ c_canonicalRaw code = raw.
Proof.
  unfold box_facts. destruct (_ <? _)%nat; [by intros ->%list_elem_of_singleton|].
  unfold member_rows. rewrite elem_of_js_sort. intros (item & Hf & _)%list_elem_of_bind Hr.
  apply list_elem_of_bind in Hf as (r & Hf & _). apply list_elem_of_bind in Hf as (c & Hf & Hc).
  apply list_elem_of_singleton in Hf as ->. cbn in Hr. destruct c as [c|]; [|done]. injection Hr as <-.
  exists c. split; [|done]. unfold left_join in Hc.
  destruct (List.filter _ (codes db)) as [|x l] eqn:E; [by apply list_elem_of_singleton in Hc|].
  rewrite <- E in Hc. apply list_elem_of_fmap in Hc as (y & [= <-] & Hy). by apply elem_of_filter_bool in Hy as [? _].
Qed.

Lemma candidate_product db box c :
  c ∈ box_candidates db box -> exists shift, shift ∈ shifts db /\ productId c = s_productId shift.
Proof.
  unfold box_candidates. intros (shift & H & [Hs _]%elem_of_filter_bool)%list_elem_of_bind.
  apply list_elem_of_bind in H as (? & H & _). apply list_elem_of_bind in H as (? & H & _).
  apply list_elem_of_singleton in H as ->. by exists shift.
Qed.

(** The checks of the kiosk, on a change of the right form. *)
Lemma upsert_checked s box :
  isValidSscc s = true -> readable_date date_parse (bx_updatedAt box) = true ->
  isUuid (bx_boxId box) = true -> isUuid (bx_productId box) = true ->
  1 <= bx_bottleCount box <= 500 -> Z.of_nat (length (bx_contentKeys box)) = bx_bottleCount box ->
  Forall (fun key => key <> []) (bx_contentKeys box) -> NoDup (bx_contentKeys box) ->
  checkedChange date_parse (change_value (Upsert s box)) = Some (Upsert s box).
Proof.
  intros Hs Hd Hb Hp Hn Hl Hk Hnd. unfold checkedChange. cbn [change_value]. change (is_object _) with true.
  cbn [negb]. cbv zeta. change (is_str (js "upsert") _) with true. change (is_str (js "remove") _) with false.
  change (get (js "sscc") _) with (VStr s). change (get (js "updatedAt") _) with (VStr (bx_updatedAt box)).
  cbv match. rewrite Hs, Hd. cbn [negb orb]. unfold check_upsert.
  change (get (js "boxId") _) with (VStr (bx_boxId box)).
  change (get (js "productId") _) with (VStr (bx_productId box)).
  change (get (js "bottleCount") _) with (VNum (num (bx_bottleCount box))).
  change (get (js "contentKeys") _) with (VArr (map VStr (bx_contentKeys box))).
  cbn [integer_of]. rewrite is_integer_num, int_value_num. cbv match. rewrite Hb, Hp. cbn [negb orb].
  rewrite (proj2 (Z.ltb_ge _ _)), (proj2 (Z.ltb_ge _ _)) by lia. cbn [orb].
  rewrite length_map, Hl, Z.eqb_refl. cbn [negb]. rewrite text_keys by done. cbn [mbind option_bind].
  rewrite bool_decide_eq_true_2 by done. cbn [negb]. by destruct box.
Qed.

Lemma remove_checked s at_ :
  isValidSscc s = true -> readable_date date_parse at_ = true ->
  checkedChange date_parse (change_value (Remove s at_)) = Some (Remove s at_).
Proof.
  intros Hs Hd. unfold checkedChange. cbn [change_value]. change (is_object _) with true. cbn [negb]. cbv zeta.
  change (is_str (js "upsert") _) with false. change (is_str (js "remove") _) with true.
  change (get (js "sscc") _) with (VStr s). change (get (js "updatedAt") _) with (VStr at_).
  cbn [negb orb]. by rewrite Hs, Hd.
Qed.

(** What is announced of a box. *)
Lemma box_change_sound db box delta change :
  sendable db -> box ∈ boxes db -> box_change db delta box = Some change -> change_sound change.
Proof.
  intros Hdb Hbox. unfold box_change. destruct (box_candidates db box) as [|c cs] eqn:Ec; [done|].
  cbn [head mbind option_bind].
  destruct (candidate_fields db box c) as (Ei & _ & _ & Eu & _); [rewrite Ec; by left|].
  destruct (candidate_product db box c) as (shift & Hshift & Ep); [rewrite Ec; by left|].
  destruct (send_ids _ Hdb _ Hbox) as [Hz Hu]. destruct (send_dates _ Hdb _ Hbox) as [Hd Hd24].
  pose proof (send_products _ Hdb _ Hshift) as Hp.
  unfold kiosk_change. destruct (evaluateBoxRegistryCandidate _ _ _) as [ch|] eqn:E; [|done]. intros [= <-].
  destruct (evaluate_stamp _ _ _ _ E) as [Et Hs]. rewrite Eu in Et. unfold change_sound.
  assert (H18 : length (ch_sscc (toKioskChange ch)) = 18%nat) by (by apply isValidSscc_spec in Hs as (? & _)).
  destruct ch as [boxId s product count keys at_ pallet psscc act closed day|s at_]; cbn in Et, Hs, H18;
    cbn [toKioskChange ch_sscc bx_boxId bx_productId bx_updatedAt bx_contentKeys].
  - apply evaluate_upsert in E as (-> & _ & _ & -> & -> & Hn & unsorted & -> & Hnd & HF). rewrite Ei, Ep, Et.
    assert (Hkey : Forall (fun key => key <> [] /\ Z.of_nat (length (utf8_encode key)) <= KEY_BYTES)
      (js_sort js_leb unsorted)).
    { apply Forall_forall. intros key Hin. rewrite elem_of_js_sort in Hin. apply list_elem_of_lookup in Hin as [i Hi].
      destruct (Forall2_lookup_r _ _ _ _ _ HF Hi) as (fact & Hfact & raw & km & [Hraw Hkm] & <- & _).
      apply list_elem_of_lookup_2, elem_of_filter_bool in Hfact as [Hfact _].
      destruct (box_facts_raw _ _ _ _ Hfact Hraw) as (code & Hcode & <-). split; [done|].
      by apply (send_keys _ Hdb code). }
    assert (Hlen : length (js_sort js_leb unsorted) = length (List.filter active_fact (box_facts db (b_id box))))
      by (by rewrite (Permutation_length (js_sort_perm _ _)), (Forall2_length _ _ _ HF)).
    split.
    + apply upsert_checked; cbn [bx_boxId bx_productId bx_updatedAt bx_contentKeys bx_bottleCount]; try done.
      * unfold MAX_BOX_REGISTRY_MEMBERS in Hn. lia.
      * by rewrite Hlen.
      * eapply Forall_impl; [exact Hkey|]. by intros key [? _].
      * by rewrite js_sort_perm.
    + split; [done|]. split; [by apply isUuid_length|]. split; [by apply isUuid_length|]. split; [done|].
      eapply Forall_impl; [exact Hkey|]. by intros key [_ ?].
  - split; [|split; [done | by rewrite Et]]. apply remove_checked; [done | by rewrite Et].
Qed.
(** ** The size of a page *)

Ltac short_texts := repeat (apply Forall_cons_2; [lia|]); apply Forall_nil_2.

Definition text_bytes (s : jsstr) : Z := Z.of_nat (length (utf8_encode s)).

Lemma text_bytes_bound s : 0 <= text_bytes s <= 4 * Z.of_nat (length s).
Proof. unfold text_bytes. pose proof (utf8_encode_length s). lia. Qed.

Lemma count_bytes_fits s bytes :
  text_bytes s <= KEY_BYTES -> bytes + text_bytes s <= MAX_PAGE_BYTES ->
  count_bytes (VStr s) bytes = Some (bytes + text_bytes s).
Proof.
  unfold count_bytes, text_bytes, KEY_BYTES. intros H1 H2. pose proof (utf8_encode_length s).
  unfold MAX_STRING_BYTES. rewrite (proj2 (Z.ltb_ge _ _)) by lia. cbv zeta.
  by rewrite (proj2 (Z.ltb_ge _ _)), (proj2 (Z.ltb_ge _ _)) by lia.
Qed.

Lemma count_all_fits l : forall bytes,
  Forall (fun s => text_bytes s <= KEY_BYTES) l ->
  bytes + KEY_BYTES * Z.of_nat (length l) <= MAX_PAGE_BYTES ->
  exists b, count_all (map VStr l) bytes = Some b /\ bytes <= b <= bytes + KEY_BYTES * Z.of_nat (length l).
Proof.
  induction l as [|s l IH]; intros bytes Hl Hb; [exists bytes; cbn; split; [done | lia]|].
  apply Forall_cons in Hl as [Hs Hl]. cbn [map count_all]. pose proof (text_bytes_bound s).
  cbn [length] in Hb. unfold KEY_BYTES in *. rewrite count_bytes_fits by (unfold KEY_BYTES; lia). cbn [mbind option_bind].
  destruct (IH (bytes + text_bytes s) Hl) as (b & -> & Hle); [lia|]. exists b. split; [done|]. cbn [length]. lia.
Qed.

(** Short texts: what is not a key takes at most 480 bytes. *)
Lemma count_short l : forall bytes,
  Forall (fun s : jsstr => length s <= 36)%nat l ->
  bytes + 4 * Z.of_nat (sum_list_with length l) <= MAX_PAGE_BYTES ->
  exists b, count_all (map VStr l) bytes = Some b
    /\ bytes <= b <= bytes + 4 * Z.of_nat (sum_list_with length l).
Proof.
  induction l as [|s l IH]; intros bytes Hl Hb; [exists bytes; cbn; split; [done | lia]|].
  apply Forall_cons in Hl as [Hs Hl]. cbn [map count_all sum_list_with] in *. pose proof (text_bytes_bound s).
  rewrite count_bytes_fits by (unfold KEY_BYTES; lia). cbn [mbind option_bind].
  destruct (IH (bytes + text_bytes s) Hl) as (b & -> & Hle); [lia|]. exists b. split; [done | lia].
Qed.

Definition change_cost (change : KioskBoxRegistryChange) : nat := (480 + 900 * key_count change)%nat.

Lemma preflight_change_fits change bytes keys :
  change_sound change -> bytes + Z.of_nat (change_cost change) <= MAX_PAGE_BYTES ->
  keys + Z.of_nat (key_count change) <= MAX_CONTENT_KEYS ->
  exists b, preflight_change (change_value change) (bytes, keys) = Some (b, keys + Z.of_nat (key_count change))
    /\ bytes <= b <= bytes + Z.of_nat (change_cost change).
Proof.
  intros (_ & H18 & H) Hb Hk. unfold change_cost in *. unfold preflight_change.
  assert (Hup : length (js "upsert") = 6%nat) by reflexivity.
  assert (Hrm : length (js "remove") = 6%nat) by reflexivity.
  destruct change as [s box|s at_]; cbn [change_value ch_sscc key_count] in *.
  - destruct H as (H1 & H2 & H3 & H4). change (is_object _) with true. cbn [negb].
    change (get (js "kind") _) with (VStr (js "upsert")). change (get (js "sscc") _) with (VStr s).
    change (get (js "updatedAt") _) with (VStr (bx_updatedAt box)).
    change (get (js "boxId") _) with (VStr (bx_boxId box)).
    change (get (js "productId") _) with (VStr (bx_productId box)).
    change (get (js "contentKeys") _) with (VArr (map VStr (bx_contentKeys box))).
    change (is_str (js "upsert") (VStr (js "upsert"))) with true. cbv match.
    destruct (count_short [js "upsert"; s; bx_updatedAt box] bytes) as (b1 & E1 & Hb1);
      [short_texts | cbn [sum_list_with]; lia|].
    cbn [map] in E1. rewrite E1. cbn [mbind option_bind].
    destruct (count_short [bx_boxId box; bx_productId box] b1) as (b2 & E2 & Hb2);
      [short_texts | cbn [sum_list_with] in *; lia|].
    cbn [map] in E2. rewrite E2. cbn [mbind option_bind]. rewrite length_map.
    rewrite (proj2 (Z.ltb_ge _ _)) by lia.
    destruct (count_all_fits (bx_contentKeys box) b2 H4) as (b3 & -> & Hb3); [unfold KEY_BYTES; cbn [sum_list_with] in *; lia|].
    cbn [mbind option_bind]. exists b3. split; [done|]. unfold KEY_BYTES in *. cbn [sum_list_with] in *. lia.
  - change (is_object _) with true. cbn [negb].
    change (get (js "kind") _) with (VStr (js "remove")). change (get (js "sscc") _) with (VStr s).
    change (get (js "updatedAt") _) with (VStr at_).
    change (is_str (js "upsert") (VStr (js "remove"))) with false. cbv match.
    destruct (count_short [js "remove"; s; at_] bytes) as (b1 & E1 & Hb1);
      [short_texts | cbn [sum_list_with]; lia|].
    cbn [map] in E1. rewrite E1. cbn [mbind option_bind]. exists b1. rewrite Z.add_0_r. split; [done|].
    cbn [sum_list_with] in *. lia.
Qed.

Lemma preflight_fits changes : forall bytes keys,
  Forall change_sound changes -> bytes + Z.of_nat (sum_list_with change_cost changes) <= MAX_PAGE_BYTES ->
  keys + Z.of_nat (sum_list_with key_count changes) <= MAX_CONTENT_KEYS ->
  is_Some (preflight_changes (map change_value changes) (bytes, keys)).
Proof.
  induction changes as [|change changes IH]; intros bytes keys Hc Hb Hk; [by eexists|].
  apply Forall_cons in Hc as [H Hc]. cbn [map preflight_changes sum_list_with] in *.
  destruct (preflight_change_fits change bytes keys H) as (b & -> & Hle); [lia..|]. cbn [mbind option_bind].
  apply IH; [done | lia | lia].
Qed.

Lemma sum_change_cost changes :
  sum_list_with change_cost changes
  = (480 * length changes + 900 * sum_list_with key_count changes)%nat.
Proof. induction changes as [|change changes IH]; cbn [sum_list_with length]; [done|]. unfold change_cost at 1. lia. Qed.

(** What the server sends passes all checks of the kiosk. *)
Lemma accepted q st page k :
  page_of_state zod_uuid q st page k -> constraints (fs_stock st) -> sendable (fs_stock st) ->
  checkedChanges date_parse (VArr (map change_value (page_items page))) = Some (page_items page).
Proof.
  intros [_ Hk _ Hitems Hkeys _] Hc Hdb. set (L := listed (fs_stock st) (current st) (request_bound zod_uuid q)) in *.
  assert (Hsound : Forall change_sound (page_items page)).
  { rewrite Hitems. apply Forall_forall. intros change (box & Hbox & Hch)%list_elem_of_omap.
    apply take_listed in Hbox as [Hbox _]. by eapply box_change_sound. }
  assert (Hnd : NoDup (map ch_sscc (page_items page))).
  { rewrite Hitems. apply changes_nodup. pose proof (listed_ssccs (fs_stock st) (current st) (request_bound zod_uuid q) Hc) as Hn.
    fold L in Hn. rewrite <- (take_drop k L), omap_app in Hn. by apply NoDup_app in Hn as [? _]. }
  assert (Hlen : (length (page_items page) <= Z.to_nat BOX_REGISTRY_PAGE_LIMIT)%nat).
  { etrans; [|exact Hk]. rewrite Hitems. etrans; [apply omap_length_le|]. rewrite length_take. lia. }
  unfold BOX_REGISTRY_PAGE_LIMIT, MAX_REGISTRY_PAGE_MEMBER_KEYS in *. unfold checkedChanges, preflightPage.
  rewrite length_map, (proj2 (Nat.ltb_ge _ _)) by (unfold MAX_PAGE_ITEMS; lia).
  destruct (preflight_fits (page_items page) 0 0 Hsound) as [counts ->].
  { rewrite sum_change_cost. unfold MAX_PAGE_BYTES. lia. }
  { unfold MAX_CONTENT_KEYS. lia. }
  cbn [mbind option_bind]. assert (E : mapM (checkedChange date_parse) (map change_value (page_items page)) = Some (page_items page)).
  { apply mapM_Some. apply Forall2_fmap_l, Forall2_same_length_lookup. split; [done|].
    intros i x y Hx Hy. assert (x = y) as <- by congruence.
    by apply (proj1 (Forall_lookup _ _) Hsound i x Hx). }
  rewrite E. cbn [mbind option_bind]. by rewrite bool_decide_eq_true_2.
Qed.

End Serve.
