(* ===== verification/BoxCatchUp.v ===== *)
(** * An undisturbed kiosk catches up with the server

    While the tables stay as they are, every page of a refresh is served
    ([page_served]) and the pages come to an end ([pages_end]); by [BoxServe] the
    kiosk takes them.  So a refresh that nobody disturbs installs the newest
    revision of the tables, whatever the kiosk had before ([kiosk_catches_up]). *)

From stdpp Require Import base list strings gmap sorting relations.
From Stdlib Require Import ZArith QArith Lia.
From S2P Require Import Prelude Gs1 KioskApi KioskQueue Effects KioskRegistry KioskRefresh KioskRefreshDone.
From S2P Require Import BoxFacts BoxCursor BoxFeed BoxVersions BoxBatch BoxFeedLaw BoxMirror BoxServe.

#[local] Open Scope Z_scope.

Section CatchUp.
Context (zod_uuid : jsstr -> bool) (date_parse : jsstr -> option Z).
Context (zod_uuid_shape : forall s, zod_uuid s = true ->
  length s = 36%nat /\ forallb simple_char s = true).
Context (history : list FeedState) (Hchronicle : chronicle history).

(** Nothing is committed and nothing fails while a page is read. *)
Definition calm (c : feed_choice) : Prop := fc_commits c = 0%nat /\ fc_fate c = Answers.

Definition calm_choices : list feed_choice := replicate 5 {| fc_commits := 0; fc_fate := Answers |}.

(** The page a request is then answered with. *)
Definition page_at (time : nat) (q : PageQuery) : option (RegistryPage KioskBoxRegistryChange) :=
  match (run (feed_perform history) (listKiosk zod_uuid (kiosk_request q)) calm_choices time).1.1 with
  | Done page => Some page | _ => None end.

Definition answer_at (time : nat) (q : PageQuery) : value :=
  match page_at time q with Some page => page_value page | None => VNull end.

Context (now : nat) (st : FeedState) (Hnow : history !! now = Some st).
Context (Hdb : sendable zod_uuid date_parse (fs_stock st)).

Abbreviation until := (js_of_Z (current st)).
Abbreviation wanted q := (listed (fs_stock st) (current st) (request_bound zod_uuid q)).

(** The position of a box, as a page ends with it. *)
Definition cursor_of (since : option jsstr) (box : BoxRow) : BoxRegistryCursor :=
  {| cu_since := since; cu_until := until; cu_registryVersion := js_of_Z (b_registryVersion box);
     cu_id := b_id box |}.

Definition not_before (since : option jsstr) (version : Z) : Prop :=
  match since with None => True | Some s => BigInt s <= version end.

(** The requests of a refresh of this state. *)
Record asks (since : option jsstr) (q : PageQuery) : Prop := {
  asks_since : pq_since q = since;
  asks_old : forallb is_revision (option_list since) = true /\ not_before since (current st);
  asks_from : match pq_cursor q with
    | None => pq_until q = None
    | Some raw => pq_until q = Some until /\ exists box, box ∈ boxes (fs_stock st)
        /\ decodeBoxRegistryCursor zod_uuid raw = Some (cursor_of since box)
        /\ not_before since (b_registryVersion box)
    end
}.

Lemma state_facts :
  0 <= current st <= MAX_PG_BIGINT /\ constraints (fs_stock st)
  /\ forall box, box ∈ boxes (fs_stock st) -> 0 <= b_registryVersion box <= current st.
Proof. by destruct (chronicle_state _ Hchronicle _ _ Hnow) as [[? ?] ?]. Qed.

Lemma BigInt_js n : 0 <= n -> BigInt (js_of_Z n) = n.
Proof. intros H. rewrite js_of_Z_nonneg by done. by destruct (js_of_nonneg_spec n H) as (_ & ? & _). Qed.

Lemma decode_length raw c :
  decodeBoxRegistryCursor zod_uuid raw = Some c -> (0 < length raw <= CURSOR_MAX_LENGTH)%nat.
Proof.
  unfold decodeBoxRegistryCursor. destruct (_ || _ || _) eqn:E; [done|]. intros _.
  apply orb_false_iff in E as [[E1 E2]%orb_false_iff _]. apply Nat.eqb_neq in E1. apply Nat.ltb_ge in E2. lia.
Qed.

Lemma asks_window since q :
  asks since q -> exists window,
    resolveBoxRegistryWindow zod_uuid (kiosk_request q) until = inr window
    /\ w_since window = since /\ w_until window = until.
Proof.
  intros [Hs [Hr Hold] Hfrom]. destruct state_facts as (Hcur & _ & Hstamps).
  pose proof (js_of_Z_revision _ Hcur) as Hu.
  unfold resolveBoxRegistryWindow, boxRegistryQuerySchema, boxRegistryRevisionSchema.
  cbn [kiosk_request q_since q_until q_cursor q_limit]. rewrite Hs.
  assert (Hsc : forallb isCanonicalRevision (option_list since) = true).
  { destruct since as [s|]; [|done]. cbn in *. by rewrite isCanonicalRevision_is_revision. }
  rewrite isCanonicalRevision_is_revision, Hu. change (forallb _ (option_list since)) with (forallb isCanonicalRevision (option_list since)).
  rewrite Hsc. destruct (pq_cursor q) as [raw|].
  - destruct Hfrom as (-> & box & Hbox & Hdec & Hb). pose proof (decode_length _ _ Hdec).
    change (option_list (Some until)) with [until]. change (option_list (Some raw)) with [raw]. cbn [forallb].
    rewrite isCanonicalRevision_is_revision, Hu.
    assert (negb (length raw =? 0)%nat && (length raw <=? CURSOR_MAX_LENGTH)%nat = true) as ->
      by (apply andb_true_iff; split; [apply negb_true_iff, Nat.eqb_neq; lia | apply Nat.leb_le; lia]).
    cbn. rewrite Hdec. cbn [cursor_of cu_until cu_since cu_registryVersion cu_id].
    rewrite !bool_decide_eq_true_2 by done. cbn. specialize (Hstamps _ Hbox).
    rewrite !BigInt_js by lia. rewrite Z.ltb_irrefl, (proj2 (Z.ltb_ge _ _)) by lia. cbn.
    destruct since as [s|]; [|by eexists]. cbn in Hb. rewrite (proj2 (Z.ltb_ge _ _)) by lia. by eexists.
  - rewrite Hfrom. cbn. rewrite BigInt_js by lia.
    destruct since as [s|]; [|by eexists]. cbn in Hold. rewrite (proj2 (Z.ltb_ge _ _)) by lia. by eexists.
Qed.
(** ** A page is served *)

Abbreviation answered p k Q := (reach (feed_perform history) calm p k Q now).

Lemma answered_query {R} (o : feed_op R) : answered (query o) 1 (fun r t => r = read o st /\ t = now).
Proof.
  apply reach_call. intros c [Hc Hf]. unfold feed_perform, state_at. rewrite Hc, Hf, Nat.add_0_r, Hnow. eauto.
Qed.

Lemma answered_bind {R A} (o : feed_op R) (f : R -> feed A) k Q :
  answered (f (read o st)) k Q -> answered (bind (query o) f) (1 + k) Q.
Proof.
  intros H. eapply reach_bind; [apply answered_query|]. by intros r t [-> ->].
Qed.

(** What a page ends with can be written as a cursor. *)
Lemma shape_some window counts facts bound n :
  forallb is_revision (option_list (w_since window)) = true -> w_until window = until ->
  let all := candidate_rows (fs_stock st) (BigInt until) bound n in
  let prefix := selectBoxRegistryCandidatePrefix (take (Z.to_nat (w_limit window)) all) counts
                  (Z.to_nat (w_limit window) <? length all)%nat in
  exists page,
    shapeBoxRegistryPage zod_uuid (px_candidates prefix) facts window (px_hasMoreCandidates prefix) = Some page
    /\ page_until page = until.
Proof.
  intros Hs Hu all prefix. destruct state_facts as (Hcur & Hc & Hstamps).
  destruct (select_take counts (take (Z.to_nat (w_limit window)) all) (Z.to_nat (w_limit window) <? length all)%nat)
    as (k & _ & Hpx & _). fold prefix in Hpx.
  assert (Hcand : forall c, c ∈ px_candidates prefix -> exists box, box ∈ boxes (fs_stock st)
    /\ id c = b_id box /\ registryVersion c = b_registryVersion box).
  { intros c Hin. rewrite Hpx in Hin. apply elem_of_take in Hin as (i & Hin & _).
    apply list_elem_of_lookup_2, elem_of_take in Hin as (j & Hin & _). apply list_elem_of_lookup_2 in Hin.
    unfold all, candidate_rows in Hin. apply elem_of_take in Hin as (l & Hin & _). apply list_elem_of_lookup_2 in Hin.
    rewrite elem_of_js_sort in Hin. apply list_elem_of_bind in Hin as (box & Hcb & [Hb _]%elem_of_filter_bool).
    exists box. split; [done|]. by apply candidate_fields in Hcb as (? & _ & _ & _ & ?). }
  unfold shapeBoxRegistryPage. destruct (px_hasMoreCandidates prefix); [|by eexists].
  destruct (last (px_candidates prefix)) as [c|] eqn:El; [|by eexists].
  destruct (Hcand c (last_Some_elem_of _ _ El)) as (box & Hb & -> & ->).
  unfold encodeBoxRegistryCursor, valid_cursor, boxRegistryRevisionSchema.
  cbn [cu_since cu_until cu_registryVersion cu_id]. rewrite Hu, !isCanonicalRevision_is_revision.
  specialize (Hstamps _ Hb). rewrite !js_of_Z_revision by lia. rewrite (proj1 (send_ids _ _ _ Hdb _ Hb)).
  assert (forallb isCanonicalRevision (option_list (w_since window)) = true) as Hsc.
  { destruct (w_since window) as [v|]; [|done]. cbn in *. by rewrite isCanonicalRevision_is_revision. }
  change (forallb _ (option_list (w_since window))) with (forallb isCanonicalRevision (option_list (w_since window))).
  rewrite Hsc. cbn [andb fmap option_fmap option_map mbind option_bind]. by eexists.
Qed.

Lemma listKiosk_answered since q :
  asks since q -> answered (listKiosk zod_uuid (kiosk_request q)) 5 (fun page _ => page_until page = until).
Proof.
  intros Hq. destruct (asks_window since q Hq) as (window & Hw & Hs & Hu).
  change 5%nat with (5 + 0)%nat. eapply (reach_bind _ _ _ _ 5 0 (fun page _ => page_until page = until)).
  2: { intros page t H. by apply reach_ret. }
  unfold listStation. apply (answered_bind CurrentVersion _ 4). change (read CurrentVersion st) with until. rewrite Hw.
  unfold assertBoxRegistrySnapshotCurrent. rewrite Hu, jseqb_refl. cbn [bind].
  apply (answered_bind _ _ 3), (answered_bind _ _ 2), (answered_bind _ _ 1), (answered_bind CurrentVersion _ 0).
  change (read CurrentVersion st) with until. rewrite jseqb_refl. cbn [bind read].
  match goal with |- context [shapeBoxRegistryPage _ ?c ?f ?w ?m] =>
    assert (exists page, shapeBoxRegistryPage zod_uuid c f w m = Some page /\ page_until page = until)
      as (page & -> & Hpu) end; [|by apply reach_ret].
  apply shape_some; [|done]. rewrite Hs. apply Hq.
Qed.

Lemma page_served since q :
  asks since q -> exists page k, page_at now q = Some page /\ page_of_state zod_uuid q st page k
    /\ page_until page = until.
Proof.
  intros Hq.
  destruct (reach_run _ _ _ _ _ now calm_choices (listKiosk_answered since q Hq)) as (page & rest & t & Hrun & Hu);
    [by repeat constructor | done|].
  assert (Hserves : serves zod_uuid history q page) by (exists calm_choices, now; by rewrite Hrun).
  destruct (served_page _ _ Hchronicle _ _ Hserves) as [_ Hpage].
  destruct (Hpage now st Hnow Hu) as [k Hk]. exists page, k. unfold page_at. by rewrite Hrun.
Qed.

(** ** The pages come to an end *)

Lemma bound_not_before since q box :
  asks since q -> request_bound zod_uuid q (b_registryVersion box) (b_id box) = true ->
  not_before since (b_registryVersion box).
Proof.
  intros [Hs [_ Hold] Hfrom]. unfold request_bound. rewrite Hs. destruct state_facts as (_ & _ & Hstamps).
  destruct (pq_cursor q) as [raw|]; cbn [mbind option_bind].
  - destruct Hfrom as (_ & box0 & Hb0 & -> & H0). cbn [cu_registryVersion cu_id cursor_of].
    specialize (Hstamps _ Hb0). rewrite BigInt_js by lia. unfold lower_bound.
    rewrite orb_true_iff, andb_true_iff, Z.ltb_lt, Z.eqb_eq. destruct since; [|done]. cbn in *. lia.
  - destruct since as [s|]; [|done]. cbn. rewrite Z.ltb_lt. lia.
Qed.

Lemma asks_next since q page k raw :
  asks since q -> page_of_state zod_uuid q st page k -> page_until page = until ->
  page_nextCursor page = Some raw ->
  asks since (next_request since until raw)
  /\ exists box, box ∈ take k (wanted q) /\ decodeBoxRegistryCursor zod_uuid raw = Some (cursor_of since box).
Proof.
  intros Hq Hk Hu Hnext. pose proof (ps_cursor _ _ _ _ _ Hk) as Hcur. rewrite Hnext, Hu in Hcur.
  destruct Hcur as (_ & box & Hlast & Henc). apply last_Some_elem_of in Hlast.
  rewrite (asks_since _ _ Hq) in Henc. apply (cursor_decodes _ zod_uuid_shape) in Henc.
  split; [|by exists box]. split; [done | apply Hq|]. cbn [next_request pq_cursor pq_until].
  split; [done|]. exists box. apply take_listed in Hlast as (Hb & _ & _ & Hbd).
  split; [done|]. split; [done|]. by eapply bound_not_before.
Qed.

(** The rows wanted next come after the box of the cursor, which is never named
    again. *)
Definition behind since (seen : list jsstr) q : Prop :=
  forall raw, raw ∈ seen -> exists box, box ∈ boxes (fs_stock st) /\ (box ∉ wanted q)
    /\ decodeBoxRegistryCursor zod_uuid raw = Some (cursor_of since box).

Lemma cursor_new since seen q box raw :
  behind since seen q -> box ∈ wanted q -> decodeBoxRegistryCursor zod_uuid raw = Some (cursor_of since box) ->
  raw ∉ seen.
Proof.
  intros Hseen Hbox Hdec Hin. destruct (Hseen _ Hin) as (box' & Hb' & Hn & Hdec'). rewrite Hdec in Hdec'.
  injection Hdec' as _ Hid. destruct state_facts as (_ & Hc & _). pose proof Hbox as Hw.
  apply elem_of_listed in Hbox as [Hb _].
  by rewrite (key_unique b_id _ box box' (key_id _ Hc) Hb Hb' Hid) in Hw.
Qed.

Context (answers : PageQuery -> value -> bool).
Context (Hanswers : forall q page, page_at now q = Some page -> answers q (page_value page) = true).

Lemma page_of_page since q page k :
  asks since q -> page_of_state zod_uuid q st page k -> page_until page = until ->
  page_of (page_value page) = Some (until, VArr (map change_value (page_items page)), page_nextCursor page).
Proof.
  intros Hq Hk Hu. destruct state_facts as (Hcur & _). pose proof (js_of_Z_revision _ Hcur) as Hr.
  unfold page_of, page_value. change (is_object _) with true. cbn [negb]. rewrite Hu.
  change (get (js "until") _) with (VStr until).
  change (get (js "items") _) with (VArr (map change_value (page_items page))). cbv match.
  destruct (page_nextCursor page) as [raw|] eqn:En.
  - destruct (asks_next _ _ _ _ _ Hq Hk Hu En) as (_ & box & _ & Hdec). pose proof (decode_length _ _ Hdec) as Hl.
    unfold CURSOR_MAX_LENGTH in Hl. change (get (js "nextCursor") _) with (VStr raw). cbv match. rewrite Hr.
    by rewrite (proj2 (Nat.ltb_lt _ _)), (proj2 (Nat.leb_le _ _)) by lia.
  - change (get (js "nextCursor") _) with VUndefined. cbv match. by rewrite Hr.
Qed.

Abbreviation changes since q := (omap (box_change (fs_stock st) (bool_decide (is_Some since))) (wanted q)).
Abbreviation delivered := (KioskRefreshDone.serves date_parse answers (answer_at now)).

(** The last page of a series. *)
Lemma last_page since q seen page k :
  asks since q -> page_at now q = Some page -> page_of_state zod_uuid q st page k -> page_until page = until ->
  page_nextCursor page = None -> delivered since until 1 seen q (changes since q).
Proof.
  intros Hq Hat Hk Hu En. destruct state_facts as (_ & Hc & _).
  assert (Hserve : answer_at now q = page_value page) by (unfold answer_at; by rewrite Hat).
  pose proof (page_of_page _ _ _ _ Hq Hk Hu) as Hpage. rewrite En in Hpage.
  pose proof (ps_cursor _ _ _ _ _ Hk) as Hcur. rewrite En in Hcur.
  pose proof (ps_items _ _ _ _ _ Hk) as Ei. rewrite (asks_since _ _ Hq), Hcur, firstn_all in Ei. rewrite <- Ei.
  eapply serves_last; rewrite ?Hserve; [by apply Hanswers | done | by eapply accepted].
Qed.

(** A page that is not the last, before the pages of the rest. *)
Lemma more_pages since q seen page k raw m :
  asks since q -> page_at now q = Some page -> page_of_state zod_uuid q st page k -> page_until page = until ->
  page_nextCursor page = Some raw -> raw ∉ seen ->
  delivered since until m (raw :: seen) (next_request since until raw)
    (changes since (next_request since until raw)) ->
  delivered since until (S m) seen q (changes since q).
Proof.
  intros Hq Hat Hk Hu En Hnew Hs. destruct state_facts as (_ & Hc & _).
  assert (Hserve : answer_at now q = page_value page) by (unfold answer_at; by rewrite Hat).
  pose proof (page_of_page _ _ _ _ Hq Hk Hu) as Hpage. rewrite En in Hpage.
  pose proof (next_bound _ zod_uuid_shape _ Hchronicle _ _ _ _ _ _ Hnow Hk En) as Hnext.
  rewrite (asks_since _ _ Hq), Hu in Hnext. rewrite Hnext in Hs.
  pose proof (ps_items _ _ _ _ _ Hk) as Ei. rewrite (asks_since _ _ Hq) in Ei.
  replace (changes since q) with (page_items page
      ++ omap (box_change (fs_stock st) (bool_decide (is_Some since))) (drop k (wanted q)))
    by (by rewrite Ei, <- omap_app, take_drop).
  eapply serves_more; rewrite ?Hserve; [by apply Hanswers | done | by eapply accepted | done | exact Hs].
Qed.

Lemma behind_next since seen q page k raw :
  asks since q -> page_of_state zod_uuid q st page k -> page_until page = until ->
  page_nextCursor page = Some raw -> behind since seen q ->
  (raw ∉ seen) /\ behind since (raw :: seen) (next_request since until raw).
Proof.
  intros Hq Hk Hu En Hseen. destruct state_facts as (_ & Hc & _).
  destruct (asks_next _ _ _ _ _ Hq Hk Hu En) as (_ & box & Hbox & Hdec).
  pose proof (next_bound _ zod_uuid_shape _ Hchronicle _ _ _ _ _ _ Hnow Hk En) as Hnext.
  rewrite (asks_since _ _ Hq), Hu in Hnext.
  assert (Hboxw : box ∈ wanted q) by (rewrite <- (take_drop k (wanted q)); apply elem_of_app; by left).
  pose proof (listed_nodup (fs_stock st) (current st) (request_bound zod_uuid q) Hc) as Hnd.
  rewrite <- (take_drop k (wanted q)) in Hnd. apply NoDup_app in Hnd as (_ & Hdis & _).
  split; [by eapply cursor_new|]. intros raw' [->|Hin]%elem_of_cons; rewrite Hnext.
  - exists box. split; [by apply elem_of_listed in Hboxw as [? _]|]. split; [by apply Hdis | done].
  - destruct (Hseen _ Hin) as (box' & Hb' & Hno & Hdec'). exists box'. split; [done|]. split; [|done].
    intros Hd. apply Hno. rewrite <- (take_drop k (wanted q)). apply elem_of_app. by right.
Qed.

(** Every page takes at least one box, so there is one page more than boxes, at most. *)
Lemma pages_end since n : forall q seen,
  (length (wanted q) <= n)%nat -> asks since q -> behind since seen q ->
  exists k, (0 < k <= S n)%nat /\ delivered since until k seen q (changes since q).
Proof.
  induction n as [|n IH]; intros q seen Hn Hq Hseen;
    destruct (page_served _ _ Hq) as (page & k & Hat & Hk & Hu);
    pose proof (ps_cursor _ _ _ _ _ Hk) as Hcur; destruct (page_nextCursor page) as [raw|] eqn:En;
    try (exists 1%nat; split; [lia | by eapply last_page]); destruct Hcur as [Hlt _]; [lia|].
  assert (Hne : wanted q <> []) by (intros E; rewrite E in Hlt; cbn in Hlt; lia).
  pose proof (ps_some _ _ _ _ _ Hk Hne). destruct (behind_next _ _ _ _ _ _ Hq Hk Hu En Hseen) as [Hnew Hb].
  destruct (IH (next_request since until raw) (raw :: seen)) as (m & Hm & Hs);
    [| by eapply asks_next | done | exists (S m); split; [lia | by eapply more_pages]].
  pose proof (next_bound _ zod_uuid_shape _ Hchronicle _ _ _ _ _ _ Hnow Hk En) as Hnext.
  rewrite (asks_since _ _ Hq), Hu in Hnext. rewrite Hnext, length_drop. lia.
Qed.
End CatchUp.

(** ** Catching up *)

Section Kiosk.
Context (zod_uuid : jsstr -> bool) (date_parse : jsstr -> option Z).
Context (zod_uuid_shape : forall s, zod_uuid s = true ->
  length s = 36%nat /\ forallb simple_char s = true).
Context (history : BoxRegistryCredentialOwner -> list FeedState).
Context (Hchronicle : forall owner, chronicle (history owner)).
Context (answers : BoxRegistryCredentialOwner -> PageQuery -> value -> bool).
Context (Hanswers : forall registryOwner owner q v,
  owner_of_owner registryOwner = Some owner -> answers registryOwner q v = true ->
  exists page, serves zod_uuid (history owner) q page /\ v = page_value page).

Lemma listed_length db until bound : (length (listed db until bound) <= length (boxes db))%nat.
Proof. unfold listed. rewrite (Permutation_length (js_sort_perm _ _)). apply filter_length_le. Qed.

(** What a device holds is some revision of the tables, no newer than the newest. *)
Lemma held_revision owner m rows st :
  last (history owner) = Some st -> tables_server history owner m = Some rows ->
  exists i a, history owner !! i = Some a /\ m = js_of_Z (current a) /\ rows = registry (fs_stock a)
    /\ BigInt m = current a /\ current a <= current st.
Proof.
  intros Hlast (i & a & Ha & -> & ->)%revision_state. exists i, a. split_and!; try done.
  - by eapply BigInt_version.
  - rewrite last_lookup in Hlast. pose proof (lookup_lt_Some _ _ _ Ha).
    exact (fl_later _ _ (chronicle_follows _ (Hchronicle owner) _ _ _ _ (Nat.lt_le_pred _ _ H) Ha Hlast)).
Qed.

(** C5: Take newest tables whose boxes are fewer than the page limit and whose values fit
    a page ([sendable]: the ids of boxes and products are UUIDs, instants print in 24
    characters and read back, and no key of a code has more than 900 bytes; with longer
    keys a page can exceed the kiosk's limit of one MiB and is refused, see the
    findings), and let them stay as they are.  Then whatever a kiosk of that pairing went through before, in fair
    activities, and whatever registry it holds: a refresh that nobody disturbs ends within
    [2 n + 5] operations for [n] boxes and leaves in the store exactly the boxes those
    tables offer, under their revision.  So under these conditions no page is refused by
    the server or by the checks of the kiosk, and the pages come to an end. *)
Theorem kiosk_catches_up (config : option KioskConfig) (activities : list activity)
    (registryOwner : BoxRegistryCredentialOwner) (generatedAt : jsstr) (maxPages : nat)
    (st : FeedState) (cs : list choice) :
  let s := live date_parse answers activities (bare_device config) in
  let now := pred (length (history registryOwner)) in
  Forall (fair_activity date_parse (tables_server history)) activities ->
  owner_of_owner registryOwner = Some registryOwner -> currentOwner (sy_store s) = Some registryOwner ->
  readable_date date_parse generatedAt = true ->
  last (history registryOwner) = Some st -> sendable zod_uuid date_parse (fs_stock st) ->
  (forall q page, page_at zod_uuid (history registryOwner) now q = Some page ->
     answers registryOwner q (page_value page) = true) ->
  (length (boxes (fs_stock st)) < maxPages)%nat ->
  Forall (quiet (answer_at zod_uuid (history registryOwner) now) (dom (sy_refreshes s))) cs ->
  (2 * length (boxes (fs_stock st)) + 5 <= length cs)%nat ->
  exists rest w,
    run (perform date_parse (answers registryOwner)) (refreshBoxRegistry registryOwner generatedAt maxPages) cs
      {| rw_system := s; rw_mine := ∅; rw_requests := 0; rw_waits := [] |} = (Done tt, rest, w)
    /\ rg_activeMeta (sy_store (rw_system w))
       = Some {| bm_owner := registryOwner; bm_version := js_of_Z (current st); bm_generatedAt := generatedAt |}
    /\ contents (rg_active (sy_store (rw_system w))) = registry (fs_stock st).
Proof.
  intros s now Hf Hcan Hcur Hdate Hlast Hdb Hans Hmax Hcs Hlen.
  assert (Hnow : history registryOwner !! now = Some st) by (by rewrite <- Hlast, last_lookup).
  assert (Hi : sys_inv date_parse (tables_server history) s).
  { apply (live_inv _ _ _ (tables_law _ _ zod_uuid_shape _ Hchronicle _ Hanswers)), Hf; apply bare_inv. }
  destruct (chronicle_state _ (Hchronicle registryOwner) _ _ Hnow) as [[Hc _] _].
  pose proof (refresh_installs date_parse (answers registryOwner) (answer_at zod_uuid (history registryOwner) now)
    registryOwner generatedAt maxPages s cs) as H.
  pose proof (read_current date_parse registryOwner (sy_store s) Hcan Hcur) as Hread.
  pose proof (fun m => read_mirrors _ _ s (binding registryOwner) m Hi) as Hmirror.
  destruct (readBoxRegistryMeta date_parse (binding registryOwner) (sy_store s)) as [found store'].
  cbn [fst] in Hmirror. destruct Hread as [_ Hfound].
  assert (Hbase : match bm_version <$> found with
    | None => match found with None => ∅ | Some _ => contents (rg_active store') end = ∅
    | Some since => is_revision since = true /\ BigInt since <= current st
        /\ exists i a, history registryOwner !! i = Some a /\ BigInt since = current a /\ current a <= current st
             /\ match found with None => ∅ | Some _ => contents (rg_active store') end = registry (fs_stock a)
    end).
  { destruct found as [m|]; [|done]. destruct Hfound as (-> & Hm & Ho). destruct (Hmirror m eq_refl) as [Hrev _].
    rewrite Ho in Hrev. destruct (held_revision _ _ _ _ Hlast Hrev) as (i & a & Ha & Hv & Hrows & Hb & Hle).
    cbn. split; [by eapply checkedMeta_revision|]. split; [lia|]. by exists i, a. }
  set (since := bm_version <$> found) in *.
  set (q := {| pq_since := since; pq_until := None; pq_cursor := None |}) in *.
  assert (Hq : asks zod_uuid st since q).
  { split; [done| |done]. destruct since as [v|]; [|done]. destruct Hbase as (Hr & Hle & _). cbn. by rewrite Hr. }
  destruct (pages_end zod_uuid date_parse zod_uuid_shape _ (Hchronicle registryOwner) now st Hnow Hdb
    (answers registryOwner) Hans since (length (boxes (fs_stock st))) q []) as (k & Hk & Hs);
    [apply listed_length | done | by intros ? ?%elem_of_nil|].
  assert (Hle : forall m, found = Some m -> digits_value (bm_version m) <= digits_value (js_of_Z (current st))).
  { intros m E. subst since. rewrite E in Hbase. destruct Hbase as (_ & Hle & _).
    change (BigInt (bm_version m) <= BigInt (js_of_Z (current st))). by rewrite BigInt_js by lia. }
  destruct (H k _ _ Hcan Hdate Hcur (js_of_Z_revision _ Hc) Hle Hs) as (rest & w & Hrun & Hmeta & Hcont);
    [lia | done | lia|].
  exists rest, w. split; [done|]. split; [done|]. rewrite Hcont.
  apply (patch_registry _ (Hchronicle registryOwner) since _ now st Hnow).
  destruct since as [v|]; [|exact Hbase]. by destruct Hbase as (_ & _ & ?).
Qed.
End Kiosk.
