(* ===== verification/BoxSample.v ===== *)
(** * A small history of a registry

    Two boxes, of which one is taken apart; a kiosk that refreshes before and
    after.  The inputs of the witnesses of [BoxCursor], [BoxBatch],
    [BoxMirror] and [BoxCatchUp]. *)

From stdpp Require Import base list strings gmap sorting.
From Stdlib Require Import ZArith QArith Lia.
From S2P Require Import Prelude Gs1 Km KioskApi KioskQueue Effects KioskRegistry KioskRefresh KioskRefreshDone BoxFacts BoxCursor.
From S2P Require Import BoxFeed BoxVersions BoxBatch BoxFeedLaw BoxMirror BoxServe BoxCatchUp.

#[local] Open Scope Z_scope.

(** ** Comparing answers *)

Definition jsnum_eqb (a b : jsnum) : bool :=
  match a, b with
  | JFinite p, JFinite q => (Qnum p =? Qnum q) && Pos.eqb (Qden p) (Qden q)
  | JInfinite x, JInfinite y => Bool.eqb x y
  | JNaN, JNaN => true
  | _, _ => false
  end.

Fixpoint value_eqb (a b : value) {struct a} : bool :=
  match a, b with
  | VUndefined, VUndefined | VNull, VNull => true
  | VBool x, VBool y => Bool.eqb x y
  | VNum x, VNum y => jsnum_eqb x y
  | VStr x, VStr y => jseqb x y
  | VArr l, VArr r =>
      (fix all l r := match l, r with
        | [], [] => true | x :: l', y :: r' => value_eqb x y && all l' r' | _, _ => false end) l r
  | VObj l, VObj r =>
      (fix all l r := match l, r with
        | [], [] => true
        | (k, x) :: l', (k', y) :: r' => jseqb k k' && value_eqb x y && all l' r'
        | _, _ => false end) l r
  | _, _ => false
  end.

Lemma jsnum_eqb_eq a b : jsnum_eqb a b = true -> a = b.
Proof.
  destruct a as [[n d]|x|], b as [[n' d']|y|]; cbn; try done.
  - rewrite andb_true_iff, Z.eqb_eq, Pos.eqb_eq. by intros [-> ->].
  - by intros ->%Bool.eqb_prop.
Qed.

Lemma value_eqb_eq : forall a b, value_eqb a b = true -> a = b.
Proof.
  fix IH 1. intros [| |x|x|x|l|l] [| |y|y|y|r|r]; try done; cbn.
  - by intros ->%Bool.eqb_prop.
  - by intros ->%jsnum_eqb_eq.
  - by intros ->%jseqb_eq.
  - intros H. f_equal. revert r H. induction l as [|x l IHl]; intros [|y r]; try done.
    intros [Hx Hl]%andb_true_iff. f_equal; [by apply IH | by apply IHl].
  - intros H. f_equal. revert r H. induction l as [|[k x] l IHl]; intros [|[k' y] r]; try done.
    intros [[Hk Hx]%andb_true_iff Hl]%andb_true_iff. apply jseqb_eq in Hk as ->.
    f_equal; [by rewrite (IH _ _ Hx) | by apply IHl].
Qed.

Lemma value_eqb_refl : forall a, value_eqb a a = true.
Proof.
  fix IH 1. intros [| |x|x|x|l|l]; cbn [value_eqb].
  - reflexivity.
  - reflexivity.
  - apply Bool.eqb_reflx.
  - destruct x as [[n d]|b|]; cbn; [by rewrite Z.eqb_refl, Pos.eqb_refl | apply Bool.eqb_reflx | done].
  - apply jseqb_refl.
  - induction l as [|x l IHl]; [reflexivity|]. rewrite IH. exact IHl.
  - induction l as [|[k x] l IHl]; [reflexivity|]. rewrite jseqb_refl, IH. exact IHl.
Qed.

Module Sample.
(** ** Tables *)

Definition gtin : jsstr := js "04607047110905".
Definition km (serial : string) : jsstr := js "0104607047110905" ++ js "21" ++ js serial ++ [GS] ++ js "91KEY" ++ [GS] ++ js "92SIGNATURE".
Definition box_id_1 : jsstr := js "33333333-3333-4333-8333-333333333333".
Definition box_id_2 : jsstr := js "33333333-3333-4333-8333-444444444444".

Definition box (id sscc : jsstr) (apart : option Z) (version updated : Z) : BoxRow :=
  {| b_id := id; b_shiftId := js "s1"; b_terminalId := None; b_deviceBoxId := id; b_sscc := Some sscc;
     b_closedAt := Some 50; b_closureReceivedAt := Some 60; b_disassembledAt := apart;
     b_palletId := None; b_registryVersion := version; b_updatedAt := updated |}.

Definition item (id hash : jsstr) : BoxItemRow :=
  {| bi_boxId := id; bi_codeHash := hash; bi_addedAt := 10; bi_displacedAt := None; bi_removedAt := None |}.

Definition code (hash : jsstr) (serial : string) : CodeRow :=
  {| c_codeHash := hash; c_scannedAt := 10; c_canonicalRaw := km serial; c_gtin14 := gtin; c_serial := js serial |}.

Definition owned (hash : jsstr) : CodeRegistryRow :=
  {| cr_codeHash := hash; cr_shiftId := js "s1"; cr_terminalId := None; cr_scannedAt := 10; cr_updatedAt := 20 |}.

Definition tables (boxes : list BoxRow) : Stock := {|
  products := [{| p_id := js "44444444-4444-4444-8444-444444444444"; p_gtin14 := gtin; p_unitPrice := None;
                  p_archived := false |}];
  shifts := [{| s_id := js "s1"; s_status := js "closed"; s_productId := js "44444444-4444-4444-8444-444444444444";
                s_productionDate := None; s_plannedDate := None |}];
  pallets := []; BoxFacts.boxes := boxes;
  boxItems := [item box_id_1 (js "h1"); item box_id_2 (js "h2")];
  codeRegistry := [owned (js "h1"); owned (js "h2")];
  codes := [code (js "h1") "SER1"; code (js "h2") "SER2"]
|}.

(** Both boxes are whole; then the second is taken apart. *)
Definition whole : FeedState :=
  {| fs_version := Some 1; fs_stock := tables [box box_id_1 sample_sscc_1 None 1 60; box box_id_2 sample_sscc_2 None 1 61] |}.

Definition taken_apart : FeedState :=
  {| fs_version := Some 2;
     fs_stock := tables [box box_id_1 sample_sscc_1 None 1 60; box box_id_2 sample_sscc_2 (Some 70) 2 71] |}.

Definition history : list FeedState := [whole; taken_apart].

(** ** Requests *)

Definition uuid (s : jsstr) : bool := (length s =? 36)%nat && forallb simple_char s.

Definition is_page (time : nat) (q : PageQuery) (v : value) : bool :=
  match page_at uuid history time q with Some page => value_eqb v (page_value page) | None => false end.

Definition answers (_ : BoxRegistryCredentialOwner) (q : PageQuery) (v : value) : bool :=
  is_page 0 q v || is_page 1 q v.

(** A refresh that is served at the time. *)
Definition served (time : nat) : choice :=
  {| c_meanwhile := fun _ s => s; c_death := Alive; c_fails := None;
     c_uuid := match time with O => js "55555555-5555-4555-8555-555555555555"
       | _ => js "66666666-6666-4666-8666-666666666666" end;
     c_page := answer_at uuid history time |}.

Definition before : list activity :=
  [ARefresh sample_registry_owner (js "2026-01-02T00:00:00.000Z") 10 (replicate 7 (served 0))].

Definition refreshes : list activity :=
  before ++ [ARefresh sample_registry_owner (js "2026-01-03T00:00:00.000Z") 10 (replicate 7 (served 1))].

Abbreviation device :=
  (live sample_parse answers refreshes (bare_device (Some sample_registry_config))).

Lemma uuid_shape s : uuid s = true -> length s = 36%nat /\ forallb simple_char s = true.
Proof. unfold uuid. by rewrite andb_true_iff, Nat.eqb_eq. Qed.

Lemma is_page_serves time q v :
  is_page time q v = true -> exists page, serves uuid history q page /\ v = page_value page.
Proof.
  unfold is_page. destruct (page_at uuid history time q) as [page|] eqn:E; [|done]. intros H%value_eqb_eq.
  exists page. split; [|done]. unfold page_at in E. unfold serves. exists calm_choices, time.
  destruct (run _ _ _ _).1.1; [|done|done]. by injection E as ->.
Qed.

Lemma page_answered time q page : page_at uuid history time q = Some page -> is_page time q (page_value page) = true.
Proof. unfold is_page. intros ->. apply value_eqb_refl. Qed.

Lemma answers_serve registryOwner owner q v :
  owner_of_owner registryOwner = Some owner -> answers registryOwner q v = true ->
  exists page, serves uuid history q page /\ v = page_value page.
Proof. intros _ [H|H]%orb_true_iff; by eapply is_page_serves. Qed.

(** ** The history is lawful *)

Lemma tables_constraints st : st ∈ history -> constraints (fs_stock st).
Proof.
  assert (H : forall l, NoDup (b_id <$> l) -> NoDup (omap b_sscc l) ->
    Forall (fun b => b_shiftId b = js "s1" /\ b_palletId b = None) l -> constraints (tables l)).
  { intros l H1 H2 H3. split; [done..|]. intros b Hb. destruct (proj1 (Forall_forall _ _) H3 b Hb) as [Es Ep].
    unfold box_candidates. rewrite Es, Ep. eexists. reflexivity. }
  intros [->|[->|Hn]%elem_of_cons]%elem_of_cons; [| |by apply elem_of_nil in Hn]; apply H;
    try (repeat constructor; done); refine (bool_decide_unpack _ _); vm_compute; exact I.
Qed.

Lemma tables_leave l l' :
  Forall2 (fun b b' => b_id b = b_id b' /\ b_registryVersion b = b_registryVersion b') l l' ->
  leaves_stamps (tables l) (tables l').
Proof.
  intros H. split.
  - intros b' Hb'. left. cbn in *. apply list_elem_of_lookup_1 in Hb' as [i Hi].
    destruct (Forall2_lookup_r _ _ _ _ _ H Hi) as (b & Hb & E). exists b.
    split; [by eapply list_elem_of_lookup_2 | exact E].
  - intros i. unfold box_ids. cbn. assert (E : b_id <$> l = b_id <$> l'); [|by rewrite E].
    induction H as [|b b' l l' [Hb _] H IH]; [done|]. by rewrite !fmap_cons, Hb, IH.
Qed.

(** Taking the second box apart, in one transaction. *)
Definition touched : FeedState :=
  {| fs_version := Some 1;
     fs_stock := tables [box box_id_1 sample_sscc_1 None 1 60; box box_id_2 sample_sscc_2 (Some 70) 1 61] |}.

Lemma apart_within : within whole [box_id_2] taken_apart.
Proof.
  assert (E : [box_id_2] = List.filter (is_in [box_id_2]) (box_ids (fs_stock touched)) ++ [])
    by (vm_compute; reflexivity).
  assert (Ha : advanceBoxRegistryVersion [box_id_2] 71 touched = Some (Some 2, taken_apart))
    by (vm_compute; reflexivity).
  rewrite E. refine (Advances whole [] touched [box_id_2] 71 (Some 2) taken_apart _ Ha).
  refine (Writes whole [] whole (fs_stock touched) (Begins whole) _ _).
  - apply tables_leave. do 2 (apply Forall2_cons_2; [split; vm_compute; reflexivity|]). apply Forall2_nil_2.
  - refine (bool_decide_unpack _ _). vm_compute. exact I.
Qed.

Lemma apart_announces : announces [box_id_2] (fs_stock whole) (fs_stock taken_apart).
Proof.
  split.
  - intros b [->|[->|H]%elem_of_cons]%elem_of_cons _ Hn; [| |by apply elem_of_nil in H].
    + exists (box box_id_1 sample_sscc_1 None 1 60). split; [left|]. split; [done|]. vm_compute. reflexivity.
    + destruct Hn. left.
  - intros b [->|[->|H]%elem_of_cons]%elem_of_cons _; [| |by apply elem_of_nil in H].
    + exists (box box_id_1 sample_sscc_1 None 1 60). split; [left | split; vm_compute; reflexivity].
    + exists (box box_id_2 sample_sscc_2 (Some 70) 2 71). split; [right; left | split; vm_compute; reflexivity].
Qed.

Lemma apart_commits : commit whole taken_apart.
Proof.
  exists [box_id_2]. split; [exact apart_within|]. split; [exact apart_announces|].
  apply tables_constraints. right; left.
Qed.

Lemma history_chronicle : chronicle history.
Proof.
  split.
  - intros st [= <-]. split; [|apply tables_constraints; left]. split; [split; apply Z.leb_le; vm_compute; reflexivity|].
    intros b [->|[->|H]%elem_of_cons]%elem_of_cons; [| |by apply elem_of_nil in H];
      split; apply Z.leb_le; vm_compute; reflexivity.
  - intros [|[|i]] st st' H H'; [|done|by destruct i]. injection H as <-. injection H' as <-. apply apart_commits.
Qed.
End Sample.

(** ** Witnesses *)

Import Sample.

(** The first refresh brings both boxes, the second takes one away. *)
Lemma kiosk_mirrors_tables_witness :
  exists m, (readBoxRegistryMeta sample_parse (binding sample_registry_owner) (sy_store device)).1 = Some m
  /\ bm_version m = js "2" /\ size (rg_active (sy_store device)) = 1%nat
  /\ exists i tables, history !! i = Some tables /\ bm_version m = js_of_Z (current tables)
     /\ contents (rg_active (sy_store device)) = registry (fs_stock tables).
Proof.
  exists {| bm_owner := sample_registry_owner; bm_version := js "2";
            bm_generatedAt := js "2026-01-03T00:00:00.000Z" |}.
  assert (Hread : (readBoxRegistryMeta sample_parse (binding sample_registry_owner) (sy_store device)).1
    = Some {| bm_owner := sample_registry_owner; bm_version := js "2";
              bm_generatedAt := js "2026-01-03T00:00:00.000Z" |}) by (vm_compute; reflexivity).
  split; [exact Hread|]. split; [done|]. split; [vm_compute; reflexivity|].
  destruct (kiosk_mirrors_tables uuid sample_parse uuid_shape (fun _ => history) (fun _ => history_chronicle)
    answers answers_serve
    (Some sample_registry_config) refreshes (binding sample_registry_owner) _
    ltac:(repeat constructor) Hread) as (_ & i & tables & Ht & Hv & Hc & _).
  exists i, tables. split; [exact Ht|]. split; [exact Hv | exact Hc].
Defined.

(** A position of the feed, as it is sent to a kiosk. *)
Definition sample_cursor : BoxRegistryCursor :=
  {| cu_since := Some (js "7"); cu_until := js "9"; cu_registryVersion := js "8"; cu_id := box_id_1 |}.

Lemma cursor_exact_witness :
  exists raw, encodeBoxRegistryCursor uuid sample_cursor = Some raw
  /\ decodeBoxRegistryCursor uuid raw = Some sample_cursor.
Proof.
  assert (Hs : is_Some (encodeBoxRegistryCursor uuid sample_cursor)) by (vm_compute; eauto).
  destruct Hs as [raw Hraw]. exists raw. split; [exact Hraw|].
  by apply (cursor_exact uuid uuid_shape raw sample_cursor).
Defined.

Lemma batch_reads_each_alone_witness :
  let l := boxes (fs_stock whole) in
  let candidates := box ← l; box_candidates (fs_stock whole) box in
  length (omap (box_change (fs_stock whole) true) l) = 2%nat
  /\ omap (fun c => kiosk_change c (resolveBoxRegistryFacts (fs_stock whole) candidates
         (loadBoxRegistryMembershipCounts (fs_stock whole) candidates) (id c)) true) candidates
     = omap (box_change (fs_stock whole) true) l.
Proof.
  intros l candidates. split; [vm_compute; reflexivity|].
  apply (proj2 (batch_reads_each_alone (fs_stock whole) candidates true l
    (tables_constraints whole (list_elem_of_here _ _)) (fun _ H => H) (fun c => list_elem_of_fmap_2 id candidates c))).
Defined.

(** What the second refresh finds. *)
Lemma sample_sendable : sendable uuid sample_parse (fs_stock taken_apart).
Proof.
  split.
  - intros b [->|[->|H]%elem_of_cons]%elem_of_cons; [| |by apply elem_of_nil in H]; by vm_compute.
  - intros b [->|[->|H]%elem_of_cons]%elem_of_cons; [| |by apply elem_of_nil in H]; by vm_compute.
  - intros shift ->%list_elem_of_singleton. by vm_compute.
  - assert (H : forallb (fun code => match canonicalizeKm (c_canonicalRaw code) with
        | Ok k => Z.of_nat (length (utf8_encode (kmKey k))) <=? KEY_BYTES | Throw _ => true end)
      (codes (fs_stock taken_apart)) = true) by (vm_compute; reflexivity).
    intros code k Hin Hk. rewrite forallb_forall in H. specialize (H code ltac:(by apply list_elem_of_In)).
    rewrite Hk in H. by apply Z.leb_le.
Qed.

(** The kiosk has both boxes; undisturbed, it learns that one was taken apart. *)
Lemma kiosk_catches_up_witness :
  let s := live sample_parse answers before (bare_device (Some sample_registry_config)) in
  size (rg_active (sy_store s)) = 2%nat
  /\ exists rest w,
       run (perform sample_parse (answers sample_registry_owner))
         (refreshBoxRegistry sample_registry_owner (js "2026-01-03T00:00:00.000Z") 10) (replicate 9 (served 1))
         {| rw_system := s; rw_mine := ∅; rw_requests := 0; rw_waits := [] |} = (Done tt, rest, w)
       /\ contents (rg_active (sy_store (rw_system w))) = registry (fs_stock taken_apart).
Proof.
  intros s. split; [vm_compute; reflexivity|].
  destruct (kiosk_catches_up uuid sample_parse uuid_shape (fun _ => history) (fun _ => history_chronicle)
    answers answers_serve (Some sample_registry_config) before sample_registry_owner
    (js "2026-01-03T00:00:00.000Z") 10 taken_apart (replicate 9 (served 1))) as (rest & w & Hrun & _ & Hc).
  - repeat constructor.
  - vm_compute. reflexivity.
  - vm_compute. reflexivity.
  - reflexivity.
  - reflexivity.
  - apply sample_sendable.
  - intros q page H. apply orb_true_iff. right. by apply page_answered.
  - apply Nat.ltb_lt. vm_compute. reflexivity.
  - apply Forall_replicate. constructor; [reflexivity.. | | reflexivity].
    split; [refine (bool_decide_unpack _ _); vm_compute; exact I|].
    split; apply Nat.leb_le; vm_compute; reflexivity.
  - apply Nat.leb_le. vm_compute. reflexivity.
  - exists rest, w. split; [exact Hrun | exact Hc].
Defined.
