(* ===== verification/Disaggregation.v ===== *)
(** * Documents that take boxes and pallets apart

    [apps/api/src/modules/disaggregation]: disaggregation.service.ts,
    line-validation.ts and doc-number.ts.  An operator lists boxes and pallets in a
    draft; applying the document takes all of them apart, or none.

    Each operation is one transaction, so it is a function of the tables ([Warehouse])
    to what it answers and the tables it leaves; an exception leaves them as they were.
    Applying holds the lock of the tenant's registry and of the document's row, and
    derives everything again under them.  Adding lines holds the row only: what it reads
    of the boxes is one moment of them, and no theorem relies on the statuses it
    stores.  [importLines] is several transactions, as in the source.  What the database
    and the process give an operation (instants, identifiers, the user) is a [Call]. *)

From stdpp Require Import base list strings gmap.
From Stdlib Require Import ZArith Lia.
From S2P Require Import Prelude Gs1 Dates Wrap KioskApi BoxFacts PickupLines PickupOrders BoxCursor BoxFeed BoxVersions.

#[local] Open Scope Z_scope.

(** ** Tables *)

Inductive LineStatus :=
| LineOk | LineNotFound | NotClosed | ShiftOpen | AlreadyDisassembled | WrittenOff | Duplicate.

#[export] Instance LineStatus_eq_dec : EqDecision LineStatus.
Proof. solve_decision. Defined.

Inductive DocumentStatus := Draft | Applied | DocCancelled.

#[export] Instance DocumentStatus_eq_dec : EqDecision DocumentStatus.
Proof. solve_decision. Defined.

Inductive DocumentSource := Manual | Import.

Record DocumentRow := {
  dd_id : jsstr; dd_docNo : jsstr; dd_status : DocumentStatus; dd_reasonId : option jsstr;
  dd_comment : option jsstr; dd_source : DocumentSource; dd_createdByUserId : jsstr;
  dd_appliedAt : option Z; dd_appliedByUserId : option jsstr; dd_cancelledAt : option Z;
  dd_updatedAt : Z
}.

Record LineRow := {
  dl_id : jsstr; dl_documentId : jsstr; dl_ssccInput : jsstr; dl_sscc : option jsstr;
  dl_boxId : option jsstr; dl_palletId : option jsstr; dl_status : LineStatus;
  dl_productId : option jsstr; dl_codeCount : nat; dl_validatedAt : Z
}.

(** A row of [box_exceptions] or [pallet_exceptions] of kind [disassemble]. *)
Record ExceptionRow := {
  ex_targetId : jsstr; ex_shiftId : option jsstr; ex_terminalId : option jsstr; ex_reason : jsstr;
  ex_occurredAt : Z; ex_documentId : jsstr
}.

Record AuditRow := {
  au_actorUserId : jsstr; au_action : string; au_targetId : jsstr;
  au_after : option (list jsstr * list jsstr)
}.

(** [disaggregation_reasons] with their names; the counter is 0 when the tenant has no
    row of [disaggregation_doc_counters]; the orders are those of [PickupOrders]. *)
Record Warehouse := {
  d_feed : FeedState; d_documents : list DocumentRow; d_lines : list LineRow;
  d_reasons : list (jsstr * jsstr); d_counter : Z; d_orders : list PickupOrderRow;
  d_boxExceptions : list ExceptionRow; d_palletExceptions : list ExceptionRow; d_audit : list AuditRow
}.

Definition tables (w : Warehouse) : Stock := fs_stock (d_feed w).

(** [now()] of the transaction, [clock_timestamp()], [new Date()], the generated
    identifiers in order, and the signed-in user. *)
Record Call := {
  c_now : Z; c_clock : Z; c_date : Z; c_uuid : nat -> jsstr; c_userId : jsstr
}.

Inductive document_error :=
| DocumentNotFound | LineMissing | NotDraft | ReasonRequired | NoLines | InvalidLines | UnknownReason
| DatabaseError.

Definition with_feed (f : FeedState) (w : Warehouse) : Warehouse :=
  {| d_feed := f; d_documents := d_documents w; d_lines := d_lines w; d_reasons := d_reasons w;
     d_counter := d_counter w; d_orders := d_orders w; d_boxExceptions := d_boxExceptions w;
     d_palletExceptions := d_palletExceptions w; d_audit := d_audit w |}.

Definition with_documents (f : list DocumentRow -> list DocumentRow) (w : Warehouse) : Warehouse :=
  {| d_feed := d_feed w; d_documents := f (d_documents w); d_lines := d_lines w; d_reasons := d_reasons w;
     d_counter := d_counter w; d_orders := d_orders w; d_boxExceptions := d_boxExceptions w;
     d_palletExceptions := d_palletExceptions w; d_audit := d_audit w |}.

Definition with_doc_lines (f : list LineRow -> list LineRow) (w : Warehouse) : Warehouse :=
  {| d_feed := d_feed w; d_documents := d_documents w; d_lines := f (d_lines w); d_reasons := d_reasons w;
     d_counter := d_counter w; d_orders := d_orders w; d_boxExceptions := d_boxExceptions w;
     d_palletExceptions := d_palletExceptions w; d_audit := d_audit w |}.

Definition with_doc_counter (n : Z) (w : Warehouse) : Warehouse :=
  {| d_feed := d_feed w; d_documents := d_documents w; d_lines := d_lines w; d_reasons := d_reasons w;
     d_counter := n; d_orders := d_orders w; d_boxExceptions := d_boxExceptions w;
     d_palletExceptions := d_palletExceptions w; d_audit := d_audit w |}.

Definition with_box_exceptions (new : list ExceptionRow) (w : Warehouse) : Warehouse :=
  {| d_feed := d_feed w; d_documents := d_documents w; d_lines := d_lines w; d_reasons := d_reasons w;
     d_counter := d_counter w; d_orders := d_orders w; d_boxExceptions := d_boxExceptions w ++ new;
     d_palletExceptions := d_palletExceptions w; d_audit := d_audit w |}.

Definition with_pallet_exceptions (new : list ExceptionRow) (w : Warehouse) : Warehouse :=
  {| d_feed := d_feed w; d_documents := d_documents w; d_lines := d_lines w; d_reasons := d_reasons w;
     d_counter := d_counter w; d_orders := d_orders w; d_boxExceptions := d_boxExceptions w;
     d_palletExceptions := d_palletExceptions w ++ new; d_audit := d_audit w |}.

Definition audited (c : Call) (action : string) (id : jsstr) (after : option (list jsstr * list jsstr))
    (w : Warehouse) : Warehouse :=
  {| d_feed := d_feed w; d_documents := d_documents w; d_lines := d_lines w; d_reasons := d_reasons w;
     d_counter := d_counter w; d_orders := d_orders w; d_boxExceptions := d_boxExceptions w;
     d_palletExceptions := d_palletExceptions w;
     d_audit := d_audit w ++ [{| au_actorUserId := c_userId c; au_action := action; au_targetId := id;
                             au_after := after |}] |}.

(** ** What a line names *)

Record LineTarget := {
  lt_status : LineStatus; lt_productId : option jsstr; lt_codeCount : nat; lt_boxId : option jsstr;
  lt_palletId : option jsstr
}.

Definition active_item (item : BoxItemRow) : bool :=
  match bi_displacedAt item, bi_removedAt item with None, None => true | _, _ => false end.

(** [count(...) filter (where displaced_at is null and removed_at is null)]. *)
Definition codeCount (db : Stock) (boxId : jsstr) : nat :=
  length (List.filter (fun item => jseqb (bi_boxId item) boxId && active_item item) (boxItems db)).

(** Is the box in an order that was not cancelled? *)
Definition inActiveOrder (w : Warehouse) (boxId : jsstr) : bool :=
  existsb (fun order => negb (bool_decide (o_status order = Cancelled))
    && existsb (fun box => jseqb (xb_boxId box) boxId) (o_boxes order)) (d_orders w).

(** Is a code of the box an item of an order that is not voided? *)
Definition locked_box (w : Warehouse) (boxId : jsstr) : bool :=
  existsb (fun item => jseqb (bi_boxId item) boxId && active_item item
    && existsb (fun code => jseqb (c_codeHash code) (bi_codeHash item)
       && existsb (fun order => existsb (fun taken => negb (oi_voided taken)
            && jseqb (oi_kmKey taken) (js "01" ++ c_gtin14 code ++ js "21" ++ c_serial code)) (o_items order))
          (d_orders w))
       (codes (tables w))) (boxItems (tables w)).

(** [result.set] for each row that has a SSCC. *)
Definition enter_targets (rows : list (option jsstr * LineTarget)) : gmap jsstr LineTarget :=
  fold_left (fun result '(sscc, target) =>
    match sscc with None => result | Some sscc => <[sscc := target]> result end) rows ∅.

(** [validateBoxCandidates]: the rows of the inner join. *)
Definition box_status (w : Warehouse) (box : BoxRow) (shift : ShiftRow) : LineStatus :=
  if bool_decide (b_closedAt box = None) || bool_decide (b_closureReceivedAt box = None) then NotClosed
  else if negb (jseqb (s_status shift) (js "closed")) then ShiftOpen
  else if bool_decide (is_Some (b_disassembledAt box)) then AlreadyDisassembled
  else if inActiveOrder w (b_id box) || locked_box w (b_id box) then WrittenOff
  else LineOk.

Definition validateBoxCandidates (w : Warehouse) (ssccs : list jsstr) : gmap jsstr LineTarget :=
  enter_targets
    (box ← List.filter (fun box => match b_sscc box with Some sscc => is_in ssccs sscc | None => false end)
             (boxes (tables w));
     shift ← List.filter (fun shift => jseqb (s_id shift) (b_shiftId box)) (shifts (tables w));
     [(b_sscc box, {| lt_status := box_status w box shift; lt_productId := Some (s_productId shift);
                      lt_codeCount := codeCount (tables w) (b_id box); lt_boxId := Some (b_id box);
                      lt_palletId := None |})]).

(** [validatePalletCandidates]; a pallet of the warehouse has no shift. *)
Definition pallet_status (pallet : PalletRow) (shift : option ShiftRow) : LineStatus :=
  if bool_decide (pl_closedAt pallet = None) || bool_decide (pl_closureReceivedAt pallet = None) then NotClosed
  else if bool_decide (is_Some (pl_shiftId pallet))
          && negb (bool_decide (s_status <$> shift = Some (js "closed"))) then ShiftOpen
  else if bool_decide (is_Some (pl_disassembledAt pallet)) then AlreadyDisassembled
  else LineOk.

Definition on_pallet (palletId : jsstr) (box : BoxRow) : bool := bool_decide (b_palletId box = Some palletId).

Definition validatePalletCandidates (w : Warehouse) (ssccs : list jsstr) : gmap jsstr LineTarget :=
  enter_targets
    (pallet ← List.filter (fun pallet => match pl_sscc pallet with Some sscc => is_in ssccs sscc | None => false end)
                (pallets (tables w));
     shift ← left_join (List.filter (fun shift => bool_decide (Some (s_id shift) = pl_shiftId pallet))
                          (shifts (tables w)));
     [(pl_sscc pallet, {| lt_status := pallet_status pallet shift;
                          lt_productId := match pl_productId pallet with
                            | Some p => Some p | None => s_productId <$> shift end;
                          lt_codeCount := sum_list_with (fun box => codeCount (tables w) (b_id box))
                            (List.filter (on_pallet (pl_id pallet)) (boxes (tables w)));
                          lt_boxId := None; lt_palletId := Some (pl_id pallet) |})]).

(** Boxes first; what names no box is looked up among pallets. *)
Definition resolveLineTargets (w : Warehouse) (ssccs : list jsstr) : gmap jsstr LineTarget :=
  let boxCandidates := validateBoxCandidates w ssccs in
  let remaining := List.filter (fun sscc => bool_decide (boxCandidates !! sscc = None)) ssccs in
  match remaining with
  | [] => boxCandidates
  | _ => validatePalletCandidates w remaining ∪ boxCandidates
  end.

(** ** Drafts *)

Definition formatDocNo (seq when : Z) : jsstr :=
  js "DSG-" ++ pad (year_from_day (when / DAY_MS) mod 100) 2 ++ js "-" ++ pad seq 4.

Definition find_document (id : jsstr) (w : Warehouse) : option DocumentRow :=
  List.find (fun doc => jseqb (dd_id doc) id) (d_documents w).

Definition reason_exists (id : jsstr) (w : Warehouse) : bool :=
  existsb (fun reason => jseqb reason.1 id) (d_reasons w).

Definition update_document (id : jsstr) (f : DocumentRow -> DocumentRow) : Warehouse -> Warehouse :=
  with_documents (map (fun doc => if jseqb (dd_id doc) id then f doc else doc)).

(** The columns an update may set. *)
Definition set_document (status : DocumentStatus) (reasonId comment : option jsstr) (source : DocumentSource)
    (appliedAt : option Z) (appliedBy : option jsstr) (cancelledAt : option Z) (updatedAt : Z)
    (doc : DocumentRow) : DocumentRow :=
  {| dd_id := dd_id doc; dd_docNo := dd_docNo doc; dd_status := status; dd_reasonId := reasonId;
     dd_comment := comment; dd_source := source; dd_createdByUserId := dd_createdByUserId doc;
     dd_appliedAt := appliedAt; dd_appliedByUserId := appliedBy; dd_cancelledAt := cancelledAt;
     dd_updatedAt := updatedAt |}.

Definition touch (now : Z) (doc : DocumentRow) : DocumentRow :=
  set_document (dd_status doc) (dd_reasonId doc) (dd_comment doc) (dd_source doc) (dd_appliedAt doc)
    (dd_appliedByUserId doc) (dd_cancelledAt doc) now doc.

(** What an operation answers, and the tables after it. *)
Definition outcome : Type := option document_error * Warehouse.

Definition MAX_PG_INTEGER : Z := 2 ^ 31 - 1.

(** The row fails to be entered when its id or its number is taken. *)
Definition insert_document (doc : DocumentRow) (w : Warehouse) : option Warehouse :=
  if existsb (fun other => jseqb (dd_id other) (dd_id doc) || jseqb (dd_docNo other) (dd_docNo doc)) (d_documents w)
  then None else Some (with_documents (fun docs => docs ++ [doc]) w).

Definition createDocument (c : Call) (reasonId comment : option jsstr) (w : Warehouse) : outcome :=
  if match reasonId with Some id => negb (reason_exists id w) | None => false end then (Some UnknownReason, w)
  else
    let seq := d_counter w + 1 in
    if MAX_PG_INTEGER <? seq then (Some DatabaseError, w)
    else
      let doc := {| dd_id := c_uuid c 0; dd_docNo := formatDocNo seq (c_date c); dd_status := Draft;
                    dd_reasonId := reasonId; dd_comment := comment; dd_source := Manual;
                    dd_createdByUserId := c_userId c; dd_appliedAt := None; dd_appliedByUserId := None;
                    dd_cancelledAt := None; dd_updatedAt := c_now c |} in
      match insert_document doc (with_doc_counter seq w) with
      | None => (Some DatabaseError, w)
      | Some w' => (None, audited c "disaggregation.document.created" (c_uuid c 0) None w')
      end.

(** The reason and the comment may each be absent, or given ([null] or a value). *)
Definition updateDocument (c : Call) (id : jsstr) (reasonId comment : option (option jsstr)) (w : Warehouse)
  : outcome :=
  match find_document id w with
  | None => (Some DocumentNotFound, w)
  | Some doc =>
      if match reasonId with Some (Some r) => negb (reason_exists r w) | _ => false end
      then (Some UnknownReason, w)
      else if negb (bool_decide (dd_status doc = Draft)) then (Some NotDraft, w)
      else (None, update_document id (fun doc =>
        set_document (dd_status doc) (default (dd_reasonId doc) reasonId) (default (dd_comment doc) comment)
          (dd_source doc) (dd_appliedAt doc) (dd_appliedByUserId doc) (dd_cancelledAt doc) (c_now c) doc) w)
  end.

Definition cancelDocument (c : Call) (id : jsstr) (w : Warehouse) : outcome :=
  match find_document id w with
  | None => (Some DocumentNotFound, w)
  | Some doc =>
      if negb (bool_decide (dd_status doc = Draft)) then (Some NotDraft, w)
      else (None, audited c "disaggregation.document.cancelled" id None (update_document id (fun doc =>
        set_document DocCancelled (dd_reasonId doc) (dd_comment doc) (dd_source doc) (dd_appliedAt doc)
          (dd_appliedByUserId doc) (Some (c_now c)) (c_now c) doc) w))
  end.

Definition lines_of (id : jsstr) (w : Warehouse) : list LineRow :=
  List.filter (fun line => jseqb (dl_documentId line) id) (d_lines w).

(** The loop of [addLines]; [n] numbers the new rows. *)
Fixpoint new_lines (c : Call) (documentId : jsstr) (candidates : gmap jsstr LineTarget) (n : nat)
    (existing : list jsstr) (parsed : list (jsstr * option jsstr)) : list LineRow :=
  let marker input status :=
    {| dl_id := c_uuid c n; dl_documentId := documentId; dl_ssccInput := input; dl_sscc := None;
       dl_boxId := None; dl_palletId := None; dl_status := status; dl_productId := None;
       dl_codeCount := 0; dl_validatedAt := c_now c |} in
  match parsed with
  | [] => []
  | (input, None) :: rest =>
      marker input LineNotFound :: new_lines c documentId candidates (S n) existing rest
  | (input, Some sscc) :: rest =>
      if is_in existing sscc then
        marker input Duplicate :: new_lines c documentId candidates (S n) existing rest
      else
        let candidate := candidates !! sscc in
        {| dl_id := c_uuid c n; dl_documentId := documentId; dl_ssccInput := input; dl_sscc := Some sscc;
           dl_boxId := (t ← candidate; lt_boxId t); dl_palletId := (t ← candidate; lt_palletId t);
           dl_status := match candidate with Some t => lt_status t | None => LineNotFound end;
           dl_productId := (t ← candidate; lt_productId t);
           dl_codeCount := match candidate with Some t => lt_codeCount t | None => 0%nat end;
           dl_validatedAt := c_now c |}
        :: new_lines c documentId candidates (S n) (sscc :: existing) rest
  end.

(** The rows fail to be entered when an id is taken, or a SSCC of the document. *)
Definition insert_lines (values : list LineRow) (w : Warehouse) : option Warehouse :=
  let lines := d_lines w ++ values in
  if bool_decide (NoDup (dl_id <$> lines))
     && bool_decide (NoDup (omap (fun line => sscc ← dl_sscc line; Some (dl_documentId line, sscc)) lines))
  then Some (with_doc_lines (fun _ => lines) w) else None.

Definition addLines (c : Call) (id : jsstr) (ssccs : list jsstr) (w : Warehouse) : outcome :=
  match find_document id w with
  | None => (Some DocumentNotFound, w)
  | Some doc =>
      if negb (bool_decide (dd_status doc = Draft)) then (Some NotDraft, w)
      else
        let parsed := (fun input => (input, parseScannedSscc (trim input) false)) <$> ssccs in
        let candidates := resolveLineTargets w (remove_dups (omap snd parsed)) in
        let values := new_lines c id candidates 0 (omap dl_sscc (lines_of id w)) parsed in
        match values with
        | [] => (None, w)
        | _ =>
            match insert_lines values w with
            | None => (Some DatabaseError, w)
            | Some w' => (None, update_document id (touch (c_now c)) w')
            end
        end
  end.

(** [text.split(/[\r\n;,]+/)], trimmed, without what is empty. *)
Definition MAX_IMPORT_LINES : nat := Z.to_nat 10000.

Definition parseSsccImport (text : jsstr) : option (list jsstr) :=
  let tokens := List.filter (fun token => negb (jseqb token []))
    (trim <$> split_by (fun u => (u =? 13) || (u =? 10) || (u =? 59) || (u =? 44)) text) in
  if (MAX_IMPORT_LINES <? length tokens)%nat then None else Some tokens.

(** One call of [addLines] for each slice of 500 tokens, each its own transaction. *)
Fixpoint add_chunks (calls : nat -> Call) (id : jsstr) (chunks : list (list jsstr)) (i : nat) (w : Warehouse)
  : outcome :=
  match chunks with
  | [] => (None, w)
  | chunk :: rest =>
      let '(error, w') := addLines (calls i) id chunk w in
      match error with Some e => (Some e, w') | None => add_chunks calls id rest (S i) w' end
  end.

Definition slices (n : nat) (tokens : list jsstr) : list (list jsstr) :=
  (fun i => take n (drop (n * i) tokens)) <$> seq 0 ((length tokens + n - 1) / n).

(** The last update of [importLines], which does not look at the status. *)
Definition imported (c : Call) (doc : DocumentRow) : DocumentRow :=
  set_document (dd_status doc) (dd_reasonId doc) (dd_comment doc) Import (dd_appliedAt doc)
    (dd_appliedByUserId doc) (dd_cancelledAt doc) (c_now c) doc.

Definition mark_import (c : Call) (id : jsstr) : Warehouse -> Warehouse := update_document id (imported c).

Definition importLines (calls : nat -> Call) (c : Call) (id : jsstr) (tokens : list jsstr) (w : Warehouse)
  : outcome :=
  let '(error, w') := add_chunks calls id (slices 500 tokens) 0 w in
  match error with Some e => (Some e, w') | None => (None, mark_import c id w') end.

Definition removeLine (c : Call) (id lineId : jsstr) (w : Warehouse) : outcome :=
  match find_document id w with
  | None => (Some DocumentNotFound, w)
  | Some doc =>
      if negb (bool_decide (dd_status doc = Draft)) then (Some NotDraft, w)
      else
        let removed line := jseqb (dl_documentId line) id && jseqb (dl_id line) lineId in
        if negb (existsb removed (d_lines w)) then (Some LineMissing, w)
        else (None, update_document id (touch (c_now c))
                      (with_doc_lines (List.filter (fun line => negb (removed line))) w))
  end.

(** ** Taking apart *)

(** The row of [code_registry] of a member of the boxes, when it is still theirs. *)
Definition released (db : Stock) (boxIds : list jsstr) (row : CodeRegistryRow) : bool :=
  existsb (fun item => active_item item && jseqb (bi_codeHash item) (cr_codeHash row)
    && (bi_addedAt item =? cr_scannedAt row)
    && existsb (fun box => jseqb (b_id box) (bi_boxId item) && is_in boxIds (b_id box)
         && jseqb (b_shiftId box) (cr_shiftId row)
         && bool_decide (b_terminalId box = cr_terminalId row)) (boxes db)) (boxItems db).

Definition take_box_apart (now : Z) (box : BoxRow) : BoxRow :=
  {| b_id := b_id box; b_shiftId := b_shiftId box; b_terminalId := b_terminalId box; b_deviceBoxId := b_deviceBoxId box; b_sscc := b_sscc box;
     b_closedAt := b_closedAt box; b_closureReceivedAt := b_closureReceivedAt box;
     b_disassembledAt := Some now; b_palletId := b_palletId box;
     b_registryVersion := b_registryVersion box; b_updatedAt := b_updatedAt box |}.

Definition remove_item (now : Z) (item : BoxItemRow) : BoxItemRow :=
  {| bi_boxId := bi_boxId item; bi_codeHash := bi_codeHash item; bi_addedAt := bi_addedAt item;
     bi_displacedAt := bi_displacedAt item; bi_removedAt := Some now |}.

(** The codes of the boxes are released, the boxes marked, their members removed. *)
Definition disassemble_boxes (now : Z) (boxIds : list jsstr) (db : Stock) : Stock :=
  {| products := products db; shifts := shifts db; pallets := pallets db;
     boxes := (fun box => if is_in boxIds (b_id box) then take_box_apart now box else box) <$> boxes db;
     boxItems := (fun item => if is_in boxIds (bi_boxId item) && active_item item
                              then remove_item now item else item) <$> boxItems db;
     codeRegistry := List.filter (fun row => negb (released db boxIds row)) (codeRegistry db);
     codes := codes db |}.

Definition take_pallet_apart (now : Z) (pallet : PalletRow) : PalletRow :=
  {| pl_id := pl_id pallet; pl_sscc := pl_sscc pallet; pl_closedAt := pl_closedAt pallet;
     pl_closureReceivedAt := pl_closureReceivedAt pallet; pl_shiftId := pl_shiftId pallet;
     pl_terminalId := pl_terminalId pallet; pl_productId := pl_productId pallet;
     pl_disassembledAt := Some now |}.

Definition disassemble_pallets (now : Z) (palletIds : list jsstr) (db : Stock) : Stock :=
  {| products := products db; shifts := shifts db;
     pallets := (fun pallet => if is_in palletIds (pl_id pallet) then take_pallet_apart now pallet else pallet)
                  <$> pallets db;
     boxes := boxes db; boxItems := boxItems db; codeRegistry := codeRegistry db; codes := codes db |}.

Definition box_exception (c : Call) (reason documentId : jsstr) (box : BoxRow) : ExceptionRow :=
  {| ex_targetId := b_id box; ex_shiftId := Some (b_shiftId box); ex_terminalId := b_terminalId box;
     ex_reason := take 500 reason; ex_occurredAt := c_date c; ex_documentId := documentId |}.

Definition pallet_exception (c : Call) (reason documentId : jsstr) (pallet : PalletRow) : ExceptionRow :=
  {| ex_targetId := pl_id pallet; ex_shiftId := pl_shiftId pallet; ex_terminalId := pl_terminalId pallet;
     ex_reason := take 500 reason; ex_occurredAt := c_date c; ex_documentId := documentId |}.

(** The part of the transaction for boxes; [None] when the counter ends. *)
Definition apply_boxes (c : Call) (reason documentId : jsstr) (boxIds : list jsstr) (w : Warehouse)
  : option Warehouse :=
  match boxIds with
  | [] => Some w
  | _ =>
      let boxRows := List.filter (fun box => is_in boxIds (b_id box)) (boxes (tables w)) in
      let marked := {| fs_version := fs_version (d_feed w);
                       fs_stock := disassemble_boxes (c_now c) boxIds (tables w) |} in
      '(_, feed') ← advanceBoxRegistryVersion boxIds (c_clock c) marked;
      Some (with_feed feed' (with_box_exceptions (map (box_exception c reason documentId) boxRows) w))
  end.

Definition apply_pallets (c : Call) (reason documentId : jsstr) (palletIds : list jsstr) (w : Warehouse)
  : option Warehouse :=
  match palletIds with
  | [] => Some w
  | _ =>
      let palletRows := List.filter (fun pallet => is_in palletIds (pl_id pallet)) (pallets (tables w)) in
      let marked := {| fs_version := fs_version (d_feed w);
                       fs_stock := disassemble_pallets (c_now c) palletIds (tables w) |} in
      let memberBoxes := List.filter (fun box => match b_palletId box with
        | Some palletId => is_in palletIds palletId | None => false end) (boxes (fs_stock marked)) in
      '(_, feed') ← advanceBoxRegistryVersion (map b_id memberBoxes) (c_clock c) marked;
      Some (with_feed feed' (with_pallet_exceptions (map (pallet_exception c reason documentId) palletRows) w))
  end.

Definition applied_document (c : Call) (doc : DocumentRow) : DocumentRow :=
  set_document Applied (dd_reasonId doc) (dd_comment doc) (dd_source doc) (Some (c_now c)) (Some (c_userId c))
    (dd_cancelledAt doc) (c_now c) doc.

(** A line as it is found under the lock; one that never named anything keeps its
    status. *)
Definition revalidate (c : Call) (candidates : gmap jsstr LineTarget) (line : LineRow) : LineRow :=
  match dl_sscc line with
  | None => line
  | Some sscc =>
      let candidate := candidates !! sscc in
      {| dl_id := dl_id line; dl_documentId := dl_documentId line; dl_ssccInput := dl_ssccInput line;
         dl_sscc := dl_sscc line; dl_boxId := (t ← candidate; lt_boxId t);
         dl_palletId := (t ← candidate; lt_palletId t);
         dl_status := match candidate with Some t => lt_status t | None => LineNotFound end;
         dl_productId := dl_productId line;
         dl_codeCount := match candidate with Some t => lt_codeCount t | None => 0%nat end;
         dl_validatedAt := c_now c |}
  end.

Definition revalidate_lines (c : Call) (id : jsstr) (w : Warehouse) : Warehouse :=
  let candidates := resolveLineTargets w (omap dl_sscc (lines_of id w)) in
  with_doc_lines (map (fun line =>
    if jseqb (dl_documentId line) id then revalidate c candidates line else line)) w.

Definition all_ok (id : jsstr) (w : Warehouse) : bool :=
  forallb (fun line => bool_decide (dl_status line = LineOk)) (lines_of id w).

(** The targets of the lines, as they are found under the lock. *)
Definition document_targets (id : jsstr) (w : Warehouse) : list LineTarget :=
  let ssccs := omap dl_sscc (lines_of id w) in
  omap (fun sscc => resolveLineTargets w ssccs !! sscc) ssccs.

Definition document_boxes (id : jsstr) (w : Warehouse) : list jsstr := omap lt_boxId (document_targets id w).

Definition document_pallets (id : jsstr) (w : Warehouse) : list jsstr :=
  omap (fun t => match lt_boxId t with Some _ => None | None => lt_palletId t end) (document_targets id w).

Definition reason_text (name : jsstr) (comment : option jsstr) : jsstr :=
  match comment with
  | Some comment => if jseqb comment [] then name else name ++ js ": " ++ comment
  | None => name
  end.

(** What an application writes when all lines are fit; [None] when the counter of
    revisions ends. *)
Definition apply_lines (c : Call) (id reasonText : jsstr) (boxIds palletIds : list jsstr) (w : Warehouse)
  : option Warehouse :=
  w' ← apply_boxes c reasonText id boxIds w;
  w'' ← apply_pallets c reasonText id palletIds w';
  Some (audited c "disaggregation.document.applied" id (Some (boxIds, palletIds))
          (update_document id (applied_document c) w'')).

Definition applyDocument (c : Call) (id : jsstr) (w : Warehouse) : outcome :=
  match find_document id w with
  | None => (Some DocumentNotFound, w)
  | Some doc =>
      if negb (bool_decide (dd_status doc = Draft)) then (Some NotDraft, w)
      else match dd_reasonId doc with
      | None => (Some ReasonRequired, w)
      | Some reasonId =>
          match lines_of id w with
          | [] => (Some NoLines, w)
          | _ =>
              let w1 := revalidate_lines c id w in
              if negb (all_ok id w1) then (Some InvalidLines, w1)
              else match List.find (fun reason => jseqb reason.1 reasonId) (d_reasons w) with
              | None => (Some ReasonRequired, w)
              | Some reason =>
                  match apply_lines c id (reason_text reason.2 (dd_comment doc)) (document_boxes id w)
                          (document_pallets id w) w1 with
                  | None => (Some DatabaseError, w)
                  | Some w' => (None, w')
                  end
              end
          end
      end
  end.

(** ** Requests *)

(** What the cabinet asks for, one transaction each. *)
Inductive DocumentRequest :=
| Create (reasonId comment : option jsstr)
| Update (id : jsstr) (reasonId comment : option (option jsstr))
| Cancel (id : jsstr)
| AddLines (id : jsstr) (ssccs : list jsstr)
| MarkImport (id : jsstr)
| RemoveLine (id lineId : jsstr)
| Apply (id : jsstr).

Definition handle (c : Call) (request : DocumentRequest) (w : Warehouse) : outcome :=
  match request with
  | Create reasonId comment => createDocument c reasonId comment w
  | Update id reasonId comment => updateDocument c id reasonId comment w
  | Cancel id => cancelDocument c id w
  | AddLines id ssccs => addLines c id ssccs w
  | MarkImport id => (None, mark_import c id w)
  | RemoveLine id lineId => removeLine c id lineId w
  | Apply id => applyDocument c id w
  end.
