(* ===== verification/DisaggregationFeed.v ===== *)
(** * Applying a document is a lawful change of the registry

    The writes of [applyDocument] keep the promise that the readers of the registry
    rely on ([commit] of [BoxVersions]): every box that looks different afterwards has
    a new stamp.  The other operations do not touch the boxes.  What an application
    takes from the registry, and what it leaves there, follows. *)

From stdpp Require Import base list strings gmap sorting.
From Stdlib Require Import ZArith Lia.
From S2P Require Import Prelude Gs1 KioskApi KioskRegistry BoxFacts PickupOrders BoxCursor BoxFeed.
From S2P Require Import BoxVersions BoxBatch BoxMirror Disaggregation.

#[local] Open Scope Z_scope.

(** ** Transactions one after another *)

Lemma within_trans a b c ids ids' : within a ids b -> within b ids' c -> within a (ids' ++ ids) c.
Proof.
  intros Hab Hbc. induction Hbc as [|ids' st db' Hw IH Hl Hn|ids' st boxIds clock v st' Hw IH Ha
    |ids' st productId clock st' Hw IH Ha].
  - exact Hab.
  - by apply Writes.
  - rewrite <- app_assoc. by eapply Advances.
  - rewrite <- app_assoc. by eapply Invalidates.
Qed.

Lemma sight_sscc db db' box box' : sight db box = sight db' box' -> b_sscc box = b_sscc box'.
Proof. intros H. by injection H. Qed.

Lemma announces_trans ids ids' a b c : announces ids a b -> announces ids' b c -> announces (ids' ++ ids) a c.
Proof.
  intros [S1 K1] [S2 K2]. split.
  - intros z Hz Hs [Hn' Hn]%not_elem_of_app. destruct (S2 z Hz Hs Hn') as (y & Hy & Ey & E).
    rewrite <- (sight_sscc _ _ _ _ E) in Hs. rewrite <- Ey in Hn.
    destruct (S1 y Hy Hs Hn) as (x & Hx & Ex & E'). exists x. split; [done|]. split; congruence.
  - intros x Hx Hs. destruct (K1 x Hx Hs) as (y & Hy & Ey & Es). rewrite <- Es in Hs.
    destruct (K2 y Hy Hs) as (z & Hz & Ez & Es'). exists z. split; [done|]. split; congruence.
Qed.

Lemma commit_refl st : constraints (fs_stock st) -> commit st st.
Proof.
  intros Hc. exists []. split; [constructor|]. split; [|done]. split.
  - intros box Hb _ _. by exists box.
  - intros box Hb _. by exists box.
Qed.

Lemma commit_trans a b c : commit a b -> commit b c -> commit a c.
Proof.
  intros (ids & Hw & Ha & _) (ids' & Hw' & Ha' & Hc). exists (ids' ++ ids).
  split; [by eapply within_trans|]. split; [by eapply announces_trans | done].
Qed.

(** ** Writes that are announced *)

Lemma advance_spec boxIds clock st v st' :
  advanceBoxRegistryVersion boxIds clock st = Some (v, st') ->
  exists version, fs_stock st' = stamp_boxes (fun box => is_in boxIds (b_id box)) version clock (fs_stock st).
Proof.
  unfold advanceBoxRegistryVersion, allocateBoxRegistryVersion. remember (js_sort js_leb (remove_dups boxIds)) as l eqn:El.
  assert (Hl : forall i, is_in l i = is_in boxIds i).
  { intros i. apply bool_decide_ext. subst l. by rewrite elem_of_js_sort, elem_of_remove_dups. }
  assert (Hst : forall version, stamp_boxes (fun box => is_in l (b_id box)) version clock (fs_stock st)
    = stamp_boxes (fun box => is_in boxIds (b_id box)) version clock (fs_stock st)).
  { intros version. unfold stamp_boxes. f_equal. apply list_fmap_ext. intros _ box _. by rewrite Hl. }
  destruct l as [|i l].
  - intros [= _ <-]. exists 0. rewrite <- Hst. destruct (fs_stock st) as [ps ss pls bs its crs cs].
    unfold stamp_boxes. cbn [boxes products shifts pallets boxItems codeRegistry codes]. f_equal.
    clear. induction bs as [|box bs IH]; [done|]. by rewrite fmap_cons, <- IH.
  - destruct (_ <? _); [done|]. cbn [mbind option_bind]. intros [= _ <-]. eexists. apply Hst.
Qed.

Lemma bind_length {A B C} (f : A -> list B) (g : A -> list C) l :
  (forall a, length (f a) = length (g a)) -> length (a ← l; f a) = length (a ← l; g a).
Proof. intros H. induction l as [|a l IH]; [done|]. by rewrite !bind_cons, !length_app, H, IH. Qed.

(** How many candidates a box gives is a matter of its shift and its pallet. *)
Lemma candidates_length db box box' :
  b_shiftId box = b_shiftId box' -> b_palletId box = b_palletId box' ->
  length (box_candidates db box) = length (box_candidates db box').
Proof.
  intros Es Ep. unfold box_candidates. rewrite Es, Ep.
  by repeat (apply bind_length; intros).
Qed.

Lemma omap_rewritten {A} (key : A -> option jsstr) (f : A -> A) (l : list A) :
  (forall x, key (f x) = key x) -> omap key (f <$> l) = omap key l.
Proof. intros H. induction l as [|x l IH]; [done|]. rewrite fmap_cons. cbn. by rewrite H, IH. Qed.

Section Announced.
(** The boxes are rewritten by [f] and other tables are written; what changes the
    sight of a box is announced. *)
Context (st : FeedState) (db : Stock) (f : BoxRow -> BoxRow) (boxIds : list jsstr).
Context (Hboxes : boxes db = f <$> boxes (fs_stock st)).
Context (Hid : forall box, b_id (f box) = b_id box) (Hsscc : forall box, b_sscc (f box) = b_sscc box).
Context (Hversion : forall box, b_registryVersion (f box) = b_registryVersion box).
Context (Hjoins : forall box, length (box_candidates db (f box)) = length (box_candidates (fs_stock st) box)).
Context (Hsight : forall box, box ∈ boxes (fs_stock st) -> b_id box ∉ boxIds ->
  sight db (f box) = sight (fs_stock st) box).

Lemma rewritten_ids : box_ids db = box_ids (fs_stock st).
Proof. unfold box_ids. rewrite Hboxes, <- list_fmap_compose. apply list_fmap_ext. intros _ box _. apply Hid. Qed.

Lemma rewritten_ssccs : omap b_sscc (boxes db) = omap b_sscc (boxes (fs_stock st)).
Proof. rewrite Hboxes. by apply omap_rewritten. Qed.

Lemma announced_commit clock v st' :
  constraints (fs_stock st) ->
  advanceBoxRegistryVersion boxIds clock {| fs_version := fs_version st; fs_stock := db |} = Some (v, st') ->
  commit st st'.
Proof.
  intros Hc Ha. destruct (advance_spec _ _ _ _ _ Ha) as (version & Hst'). cbn [fs_stock] in Hst'.
  eexists. split; [|split].
  - eapply Advances; [|exact Ha]. eapply Writes; [constructor | | rewrite rewritten_ids; apply Hc].
    split; [|by rewrite rewritten_ids]. rewrite Hboxes. intros box' (box & -> & Hb)%list_elem_of_fmap.
    left. exists box. by rewrite Hid, Hversion.
  - cbn [fs_stock]. rewrite app_nil_r, Hst', rewritten_ids. split.
    + intros box' (box & Hb & ->)%stamp_boxes_elem Hs Hn. rewrite Hboxes in Hb.
      apply list_elem_of_fmap in Hb as (box0 & -> & Hb). exists box0. split; [done|].
      destruct (is_in boxIds (b_id (f box0))) eqn:E.
      * destruct Hn. apply elem_of_filter_bool. cbn [b_id stamp_box]. rewrite Hid in E |- *.
        split; [by apply (list_elem_of_fmap_2 b_id) | done].
      * split; [by rewrite Hid|]. symmetry. apply Hsight; [done|]. rewrite <- Hid, <- elem_of_is_in. congruence.
    + intros box Hb _. exists (if is_in boxIds (b_id (f box)) then stamp_box version clock (f box) else f box).
      split; [apply stamp_boxes_elem; exists (f box); split; [|done]; rewrite Hboxes; by apply (list_elem_of_fmap_2 f)|].
      destruct (is_in boxIds (b_id (f box))); cbn; by rewrite Hid, Hsscc.
  - rewrite Hst'. split.
    + rewrite stamp_box_ids, rewritten_ids. apply Hc.
    + cbn [boxes stamp_boxes]. rewrite omap_rewritten, rewritten_ssccs; [apply Hc|].
      intros box. by destruct (is_in _ _).
    + intros box' (box & Hb & ->)%stamp_boxes_elem. rewrite Hboxes in Hb.
      apply list_elem_of_fmap in Hb as (box0 & -> & Hb). destruct (key_joins _ Hc _ Hb) as [c0 Hc0].
      assert (Hone : forall l : list BoxRegistryCandidate, length l = 1%nat -> exists c, l = [c])
        by (intros [|c1 [|? ?]] ?; [done | by exists c1 | done]).
      apply Hone. transitivity (length (box_candidates db (f box0))); [|by rewrite Hjoins, Hc0].
      transitivity (length (box_candidates db (if is_in boxIds (b_id (f box0)) then stamp_box version clock (f box0) else f box0)));
        [done|]. apply candidates_length; by destruct (is_in _ _).
Qed.
End Announced.

(** ** Taking boxes apart *)

(** What the keys of the tables of codes guarantee, and what holds of their members:
    a code is in one box at a time. *)
Record homes (db : Stock) : Prop := {
  key_registry : NoDup (cr_codeHash <$> codeRegistry db);
  key_codes : NoDup ((fun c => (c_codeHash c, c_scannedAt c)) <$> codes db);
  one_home : forall item other, item ∈ boxItems db -> other ∈ boxItems db ->
    active_item item = true -> active_item other = true -> bi_codeHash item = bi_codeHash other ->
    bi_boxId item = bi_boxId other
}.

Lemma fmap_of_bind {A B C} (f : B -> C) (g : A -> list B) l : f <$> (a ← l; g a) = (a ← l; f <$> g a).
Proof. induction l as [|a l IH]; [done|]. by rewrite !bind_cons, fmap_app, IH. Qed.

Lemma seen_idle db total item :
  NoDup (cr_codeHash <$> codeRegistry db) -> NoDup ((fun c => (c_codeHash c, c_scannedAt c)) <$> codes db) ->
  active_item item = false ->
  seen_fact <$> item_facts db total item =
    [{| f_boxId := bi_boxId item; f_codeHash := bi_codeHash item; addedAt := bi_addedAt item;
        displacedAt := bi_displacedAt item; removedAt := bi_removedAt item; registryShiftId := None;
        registryTerminalId := None; registryScannedAt := None; registryUpdatedAt := None;
        canonicalRaw := None; canonicalGtin14 := None; totalMembershipCount := total |}].
Proof.
  intros Hr Hc Hi. unfold item_facts.
  assert (Hseen : forall fact, displacedAt fact = bi_displacedAt item -> removedAt fact = bi_removedAt item ->
    active_fact fact = false).
  { intros fact Hd Hm. unfold active_fact, active_item in *. rewrite Hd, Hm. by destruct (bi_displacedAt item), (bi_removedAt item). }
  assert (Hcodes : forall registry : option CodeRegistryRow, exists code, left_join (List.filter (fun c =>
    jseqb (c_codeHash c) (bi_codeHash item) && bool_decide (Some (c_scannedAt c) = cr_scannedAt <$> registry)) (codes db))
    = [code]).
  { intros registry. destruct registry as [r|].
    - destruct (filter_key _ (fun c => jseqb (c_codeHash c) (bi_codeHash item)
        && bool_decide (Some (c_scannedAt c) = cr_scannedAt <$> Some r)) _ (bi_codeHash item, cr_scannedAt r) Hc)
        as [->|[code ->]]; [|by exists None | by exists (Some code)].
      intros c [->%jseqb_eq Hs%bool_decide_eq_true]%andb_true_iff. by injection Hs as ->.
    - exists None. rewrite filter_nothing; [done|]. intros c _. by rewrite andb_false_r. }
  assert (Hone : exists registry, left_join (List.filter (fun r => jseqb (cr_codeHash r) (bi_codeHash item)) (codeRegistry db))
    = [registry]).
  { destruct (filter_key _ (fun r => jseqb (cr_codeHash r) (bi_codeHash item)) _ (bi_codeHash item) Hr)
      as [->|[r ->]]; [|by exists None | by exists (Some r)]. by intros r ->%jseqb_eq. }
  destruct Hone as [registry ->]. cbn. destruct (Hcodes registry) as [code ->]. cbn.
  unfold seen_fact. by rewrite Hseen.
Qed.

Section Apart.
Context (now : Z) (boxIds : list jsstr) (db : Stock) (Hhomes : homes db).
Abbreviation db' := (disassemble_boxes now boxIds db).

Lemma apart_items b :
  b ∉ boxIds ->
  List.filter (fun item => jseqb (bi_boxId item) b) (boxItems db')
  = List.filter (fun item => jseqb (bi_boxId item) b) (boxItems db).
Proof.
  intros Hb. apply filter_kept.
  - intros item. by destruct (_ && _).
  - intros item <-%jseqb_eq. destruct (is_in boxIds (bi_boxId item)) eqn:E; [|done].
    by apply elem_of_is_in in E.
Qed.

Lemma released_spec row :
  released db boxIds row = true ->
  exists item, item ∈ boxItems db /\ active_item item = true /\ bi_codeHash item = cr_codeHash row
    /\ bi_boxId item ∈ boxIds.
Proof.
  unfold released. intros (item & Hin & H)%existsb_exists. apply andb_true_iff in H as [H Hbox].
  apply andb_true_iff in H as [[Ha Hh%jseqb_eq]%andb_true_iff _].
  apply existsb_exists in Hbox as (box & _ & Hbox). rewrite !andb_true_iff in Hbox.
  destruct Hbox as [[[Hid%jseqb_eq Hb%elem_of_is_in] _] _]. exists item. rewrite <- Hid.
  split; [by apply list_elem_of_In|]. auto.
Qed.

Lemma apart_item_facts total item :
  item ∈ boxItems db -> bi_boxId item ∉ boxIds ->
  seen_fact <$> item_facts db' total item = seen_fact <$> item_facts db total item.
Proof.
  intros Hin Hb. destruct Hhomes as [Hr Hc Hone]. destruct (active_item item) eqn:Ha.
  - unfold item_facts. cbn [codeRegistry disassemble_boxes codes]. rewrite filter_filter.
    rewrite (filter_same _ (fun r => jseqb (cr_codeHash r) (bi_codeHash item))); [done|].
    intros row _. destruct (released db boxIds row) eqn:E; [|done]. cbn.
    apply released_spec in E as (other & Hother & Ho & Hh & Hbox). destruct (jseqb _ _) eqn:Er; [|done].
    apply jseqb_eq in Er. destruct Hb. rewrite (Hone item other); [done..|congruence].
  - rewrite !seen_idle; try done. eapply sublist_NoDup; [exact Hr | apply (fmap_sublist cr_codeHash), filter_bool_sublist].
Qed.

Lemma apart_facts b : b ∉ boxIds -> seen_fact <$> box_facts db' b = seen_fact <$> box_facts db b.
Proof.
  intros Hb. unfold box_facts.
  assert (E : member_count db' b = member_count db b) by (unfold member_count; by rewrite apart_items).
  rewrite E. destruct (_ <? _)%nat; [done|]. unfold member_rows.
  rewrite <- !(js_sort_map seen_fact fact_leb fact_leb) by (intros x y _ _; unfold seen_fact, fact_leb;
    destruct (active_fact x), (active_fact y); done).
  f_equal. rewrite !fmap_of_bind.
  assert (Ef : List.filter (fun item => is_in [b] (bi_boxId item)) (boxItems db')
    = List.filter (fun item => is_in [b] (bi_boxId item)) (boxItems db)).
  { apply filter_kept; [intros item; by destruct (_ && _)|]. intros item Hi. apply elem_of_is_in in Hi.
    apply list_elem_of_singleton in Hi as Hi. destruct (is_in boxIds (bi_boxId item)) eqn:Ein; [|done].
    apply elem_of_is_in in Ein. congruence. }
  rewrite Ef. apply bind_same. intros item [Hin Hi]%elem_of_filter_bool.
  apply elem_of_is_in, list_elem_of_singleton in Hi.
  rewrite apart_item_facts; [|done|congruence]. rewrite Hi. by rewrite E.
Qed.

Lemma apart_sight box : b_id box ∉ boxIds -> sight db' box = sight db box.
Proof.
  intros Hb. unfold sight. destruct (offerable box); [|done]. rewrite apart_facts by done.
  unfold member_count. by rewrite apart_items.
Qed.
End Apart.

(** A pallet taken apart leaves its boxes as a kiosk sees them. *)
Lemma left_join_rewritten {A} (g : A -> A) (l : list A) : left_join (g <$> l) = option_map g <$> left_join l.
Proof. destruct l as [|x l]; [done|]. cbn. f_equal. induction l as [|y l IH]; [done|]. cbn. by rewrite <- IH. Qed.

Lemma stack_views now palletIds db box :
  kiosk_view <$> box_candidates (disassemble_pallets now palletIds db) box = kiosk_view <$> box_candidates db box.
Proof.
  unfold box_candidates. rewrite !fmap_of_bind. apply bind_same. intros shift _. rewrite !fmap_of_bind.
  apply bind_same. intros product _. rewrite !fmap_of_bind. cbn [pallets disassemble_pallets].
  rewrite filter_rewritten by (intros pallet; by destruct (is_in _ _)).
  rewrite left_join_rewritten. generalize (left_join (List.filter
    (fun pallet => bool_decide (Some (pl_id pallet) = b_palletId box)) (pallets db))). intros l.
  induction l as [|[pallet|] l IH]; [done| |]; rewrite fmap_cons, !bind_cons, IH; [|done].
  cbn. by destruct (is_in _ _).
Qed.

Lemma stack_sight now palletIds db box :
  sight (disassemble_pallets now palletIds db) box = sight db box.
Proof. unfold sight. by rewrite stack_views. Qed.

Lemma stack_joins now palletIds db box :
  length (box_candidates (disassemble_pallets now palletIds db) box) = length (box_candidates db box).
Proof. by rewrite <- (length_fmap kiosk_view), stack_views, length_fmap. Qed.

(** ** The transactions *)

Lemma apply_boxes_commit c reason id boxIds w w' :
  constraints (tables w) -> homes (tables w) -> apply_boxes c reason id boxIds w = Some w' ->
  commit (d_feed w) (d_feed w').
Proof.
  intros Hc Hh. unfold apply_boxes. destruct boxIds as [|i l]; [intros [= <-]; by apply commit_refl|].
  set (boxIds := i :: l). destruct (advanceBoxRegistryVersion _ _ _) as [[v st']|] eqn:Ha; [|done].
  cbn [mbind option_bind]. intros [= <-]. cbn [d_feed with_feed].
  eapply (announced_commit (d_feed w) (disassemble_boxes (c_now c) boxIds (tables w))
    (fun box => if is_in boxIds (b_id box) then take_box_apart (c_now c) box else box) boxIds);
    [reflexivity|..|exact Hc|exact Ha]; try (intros box; by destruct (is_in _ _)).
  - intros box. transitivity (length (box_candidates (tables w) (if is_in boxIds (b_id box) then take_box_apart (c_now c) box else box)));
      [done|]. apply candidates_length; by destruct (is_in _ _).
  - intros box Hb Hn. destruct (is_in boxIds (b_id box)) eqn:E; [by apply elem_of_is_in in E|]. by apply apart_sight.
Qed.

Lemma apply_pallets_commit c reason id palletIds w w' :
  constraints (tables w) -> apply_pallets c reason id palletIds w = Some w' -> commit (d_feed w) (d_feed w').
Proof.
  intros Hc. unfold apply_pallets. destruct palletIds as [|i l]; [intros [= <-]; by apply commit_refl|].
  destruct (advanceBoxRegistryVersion _ _ _) as [[v st']|] eqn:Ha; [|done].
  cbn [mbind option_bind]. intros [= <-]. cbn [d_feed with_feed].
  eapply (announced_commit (d_feed w) (disassemble_pallets (c_now c) (i :: l) (tables w)) (fun box => box));
    [|done|done|done|..|exact Hc|exact Ha].
  - cbn. by rewrite list_fmap_id.
  - intros box. apply stack_joins.
  - intros box _ _. apply stack_sight.
Qed.

(** How [applyDocument] ends. *)
Lemma applied_done c id w w' :
  applyDocument c id w = (None, w') ->
  exists doc name, find_document id w = Some doc /\ dd_status doc = Draft
    /\ lines_of id w <> [] /\ all_ok id (revalidate_lines c id w) = true
    /\ apply_lines c id (reason_text name (dd_comment doc)) (document_boxes id w) (document_pallets id w)
         (revalidate_lines c id w) = Some w'.
Proof.
  unfold applyDocument. destruct (find_document id w) as [doc|] eqn:Ed; [|done].
  destruct (bool_decide _) eqn:Es; [|done]. destruct (dd_reasonId doc) as [r|]; [|done].
  destruct (lines_of id w) as [|line lines] eqn:El; [done|]. destruct (all_ok _ _) eqn:Eo; [|done].
  destruct (List.find _ _) as [reason|]; [|done]. cbn [negb].
  destruct (apply_lines _ _ _ _ _ _) as [w''|] eqn:Ea; [|done]. intros [= <-].
  exists doc, reason.2. split_and!; try done. by apply bool_decide_eq_true in Es.
Qed.

Lemma applied_not c id w e w' :
  applyDocument c id w = (Some e, w') ->
  w' = w \/ w' = revalidate_lines c id w /\ exists doc, find_document id w = Some doc /\ dd_status doc = Draft.
Proof.
  unfold applyDocument. destruct (find_document id w) as [doc|]; [|intros [= _ <-]; by left].
  destruct (bool_decide _) eqn:Es; [|intros [= _ <-]; by left]. apply bool_decide_eq_true in Es.
  destruct (dd_reasonId doc) as [r|]; [|intros [= _ <-]; by left].
  destruct (lines_of id w); [intros [= _ <-]; by left|]. destruct (negb (all_ok _ _)).
  { intros [= _ <-]. right. split; [done|]. by exists doc. }
  destruct (List.find _ _); [|intros [= _ <-]; by left].
  destruct (apply_lines _ _ _ _ _ _); [done|intros [= _ <-]; by left].
Qed.

Lemma apply_lines_commit c id reason boxIds palletIds w w' :
  stamped (d_feed w) -> constraints (tables w) -> homes (tables w) ->
  apply_lines c id reason boxIds palletIds w = Some w' -> commit (d_feed w) (d_feed w').
Proof.
  intros Hst Hc Hh. unfold apply_lines.
  destruct (apply_boxes c reason id boxIds w) as [w1|] eqn:E1; [|done]. cbn [mbind option_bind].
  destruct (apply_pallets c reason id palletIds w1) as [w2|] eqn:E2; [|done]. cbn [mbind option_bind]. intros [= <-].
  pose proof (apply_boxes_commit _ _ _ _ _ _ Hc Hh E1) as H1. pose proof H1 as (_ & _ & _ & Hc1).
  exact (commit_trans _ _ _ H1 (apply_pallets_commit _ _ _ _ _ _ Hc1 E2)).
Qed.

(** Nothing else that is asked for touches the boxes. *)
Definition is_apply (request : DocumentRequest) : bool := match request with Apply _ => true | _ => false end.

Lemma other_feed c request w : is_apply request = false -> d_feed (handle c request w).2 = d_feed w.
Proof.
  intros Hn. destruct request as [reasonId comment|id reasonId comment|id|id ssccs|id|id lineId|id]; cbn [handle];
    [..|discriminate Hn].
  - unfold createDocument, insert_document. destruct (match reasonId with Some _ => _ | None => _ end); [done|].
    destruct (_ <? _); [done|]. by destruct (existsb _ _).
  - unfold updateDocument. destruct (find_document id w); [|done].
    destruct (match reasonId with Some (Some _) => _ | _ => _ end); [done|]. by destruct (negb _).
  - unfold cancelDocument. destruct (find_document id w); [|done]. by destruct (negb _).
  - unfold addLines, insert_lines. destruct (find_document id w); [|done]. destruct (negb _); [done|].
    cbv zeta. destruct (new_lines _ _ _ _ _ _); [done|]. by destruct (_ && _).
  - done.
  - unfold removeLine. destruct (find_document id w); [|done]. destruct (negb _); [done|]. cbv zeta. by destruct (negb _).
Qed.

(** C8: Every request about documents leaves the tables as they were for the readers
    of the registry, or is a lawful change of them: boxes that look different have a
    new stamp, and no SSCC leaves its box. *)
Theorem requests_announce c request w :
  stamped (d_feed w) -> constraints (tables w) -> homes (tables w) ->
  commit (d_feed w) (d_feed (handle c request w).2).
Proof.
  intros Hst Hc Hh. destruct (is_apply request) eqn:Hn.
  - destruct request as [| | | | | |id]; try discriminate Hn. cbn [handle]. destruct (applyDocument c id w) as [[e|] w'] eqn:E; cbn [snd].
    + apply applied_not in E as [->|[-> _]]; by apply commit_refl.
    + apply applied_done in E as (doc & name & _ & _ & _ & _ & Ha). by eapply apply_lines_commit in Ha.
  - rewrite other_feed; [by apply commit_refl | exact Hn].
Qed.
