(* ===== verification/DisaggregationEffect.v ===== *)
(** * What an applied document takes from the kiosks

    The registry of the tables ([registry] of [BoxMirror]) after [applyDocument]: the
    boxes of the document are gone, the boxes of its pallets stay under a newer instant,
    and all other boxes are as they were. *)

From stdpp Require Import base list strings gmap sorting.
From Stdlib Require Import ZArith Lia.
From S2P Require Import Prelude Gs1 Km KioskApi KioskRegistry BoxFacts PickupOrders BoxCursor BoxFeed.
From S2P Require Import BoxVersions BoxBatch BoxMirror Disaggregation DisaggregationFeed.

#[local] Open Scope Z_scope.

(** ** A box that is only stamped *)

(** The box was stamped at this instant. *)
Definition retouched (at_ : Z) (content : BoxContent) : BoxContent :=
  {| bx_boxId := bx_boxId content; bx_productId := bx_productId content;
     bx_bottleCount := bx_bottleCount content; bx_contentKeys := bx_contentKeys content;
     bx_updatedAt := toISOString at_ |}.

Definition restamped (version at_ : Z) (c : BoxRegistryCandidate) : BoxRegistryCandidate :=
  {| id := id c; shiftId := shiftId c; terminalId := terminalId c; sscc := sscc c;
     productId := productId c; productGtin14 := productGtin14 c; closedAt := closedAt c;
     closureReceivedAt := closureReceivedAt c; disassembledAt := disassembledAt c;
     palletId := palletId c; palletSscc := palletSscc c; palletDisassembledAt := palletDisassembledAt c;
     productionDate := productionDate c; registryVersion := version; updatedAt := at_ |}.

Lemma stamped_candidates db version clock box :
  box_candidates db (stamp_box version clock box)
  = restamped version (Z.max clock (b_updatedAt box + 1)) <$> box_candidates db box.
Proof.
  unfold box_candidates. rewrite fmap_of_bind. apply bind_same. intros shift _.
  rewrite fmap_of_bind. apply bind_same. intros product _. rewrite fmap_of_bind. by apply bind_same.
Qed.

Lemma member_keys_restamped version at_ c closure hashes seen facts :
  member_keys (restamped version at_ c) closure hashes seen facts = member_keys c closure hashes seen facts.
Proof.
  rewrite <- (member_keys_view c), <- (member_keys_view (restamped version at_ c)).
  revert hashes seen. induction facts as [|fact rest IH]; intros hashes seen; [done|]. cbn.
  destruct (_ || _ || _); [done|]. destruct (registryScannedAt fact); [|done]. cbn.
  destruct (registryUpdatedAt fact); [|done]. cbn. destruct (_ || _); [done|].
  destruct (canonicalRaw fact); [|done]. cbn. destruct (negb _); [done|].
  destruct (canonicalizeKm _); [|done]. destruct (_ || _); [done|]. by rewrite IH.
Qed.

Lemma restamped_entry version at_ c facts :
  entry_of (kiosk_change (restamped version at_ c) facts false)
  = retouched at_ <$> entry_of (kiosk_change c facts false).
Proof.
  unfold kiosk_change, evaluateBoxRegistryCandidate, ineligibleChange.
  change (sscc (restamped version at_ c)) with (sscc c). change (closedAt (restamped version at_ c)) with (closedAt c).
  change (closureReceivedAt (restamped version at_ c)) with (closureReceivedAt c).
  change (disassembledAt (restamped version at_ c)) with (disassembledAt c).
  destruct (sscc c) as [s|]; [|done]. cbn [mbind option_bind negb orb].
  destruct (closedAt c), (closureReceivedAt c), (disassembledAt c); try done.
  destruct (negb _); [done|]. destruct (_ || _ || _); [done|].
  destruct (active_facts _ _) as [[|f fs]|]; try done. rewrite member_keys_restamped.
  by destruct (member_keys _ _ _ _ _).
Qed.

Lemma stamped_entry db version clock box :
  entry_of (box_change db false (stamp_box version clock box))
  = retouched (Z.max clock (b_updatedAt box + 1)) <$> entry_of (box_change db false box).
Proof.
  unfold box_change. rewrite stamped_candidates. destruct (box_candidates db box) as [|c l]; [done|].
  apply restamped_entry.
Qed.

(** ** Boxes that look alike are offered alike *)

Lemma sight_entry db db' box :
  constraints db -> constraints db' -> box ∈ boxes db -> box ∈ boxes db' -> sight db box = sight db' box ->
  box_change db false box = box_change db' false box.
Proof.
  intros Hc Hc' Hb Hb' Hs.
  by apply (unchanged_change {| fs_version := None; fs_stock := db |} {| fs_version := None; fs_stock := db' |}).
Qed.

(** A box that is not whole is not offered. *)
Lemma apart_entry db box : is_Some (b_disassembledAt box) -> entry_of (box_change db false box) = None.
Proof.
  intros [at_ Ha]. unfold box_change. destruct (box_candidates db box) as [|c l] eqn:E; [done|].
  cbn [head mbind option_bind]. rewrite (closed_change db box); [|rewrite E; by left|].
  - unfold ineligible_change, ineligibleChange. by destruct (sscc c).
  - unfold offerable. rewrite Ha. by destruct (b_closedAt box), (b_closureReceivedAt box).
Qed.

(** ** The two parts of an application *)

Lemma apply_boxes_stock c reason id boxIds w w' :
  apply_boxes c reason id boxIds w = Some w' -> boxIds <> [] ->
  exists version, tables w' = stamp_boxes (fun box => is_in boxIds (b_id box)) version (c_clock c)
    (disassemble_boxes (c_now c) boxIds (tables w)).
Proof.
  unfold apply_boxes. destruct boxIds as [|i l]; [done|]. intros H _.
  destruct (advanceBoxRegistryVersion _ _ _) as [[v st']|] eqn:Ha; [|done]. cbn [mbind option_bind] in H.
  injection H as <-. by apply advance_spec in Ha.
Qed.

(** The pallet of the box is one of these. *)
Definition on_pallets (palletIds : list jsstr) (box : BoxRow) : bool :=
  match b_palletId box with Some palletId => is_in palletIds palletId | None => false end.

Lemma apply_pallets_stock c reason id palletIds w w' :
  constraints (tables w) -> apply_pallets c reason id palletIds w = Some w' -> palletIds <> [] ->
  exists version, tables w' = stamp_boxes (on_pallets palletIds) version (c_clock c)
    (disassemble_pallets (c_now c) palletIds (tables w)).
Proof.
  intros Hc. unfold apply_pallets. destruct palletIds as [|i l]; [done|]. intros H _. set (palletIds := i :: l) in *.
  destruct (advanceBoxRegistryVersion _ _ _) as [[v st']|] eqn:Ha; [|done]. cbn [mbind option_bind] in H.
  injection H as <-. apply advance_spec in Ha as [version E]. exists version.
  change (tables (with_feed st' _)) with (fs_stock st'). rewrite E. unfold stamp_boxes. f_equal.
  cbn [fs_stock boxes disassemble_pallets]. apply list_fmap_ext. intros k box Hbox.
  assert (Eb : is_in (map b_id (List.filter (on_pallets palletIds) (boxes (tables w)))) (b_id box) = on_pallets palletIds box).
  { apply eq_true_iff_eq. rewrite elem_of_is_in. apply list_elem_of_lookup_2 in Hbox. split.
    - intros (other & Eid & [Hin Hp]%elem_of_filter_bool)%list_elem_of_fmap.
      by rewrite (key_unique b_id _ box other (key_id _ Hc) Hbox Hin Eid).
    - intros Hp. apply list_elem_of_fmap_2, elem_of_filter_bool. by split. }
  unfold on_pallets in Eb at 1. by rewrite Eb.
Qed.

Lemma apply_boxes_registry c reason id boxIds w w' box s :
  constraints (tables w) -> homes (tables w) -> apply_boxes c reason id boxIds w = Some w' ->
  box ∈ boxes (tables w) -> b_sscc box = Some s ->
  if is_in boxIds (b_id box)
  then registry (tables w') !! s = None
  else registry (tables w') !! s = registry (tables w) !! s /\ box ∈ boxes (tables w').
Proof.
  intros Hc Hh Ha Hb Hs. pose proof (apply_boxes_commit _ _ _ _ _ _ Hc Hh Ha) as (_ & _ & _ & Hc').
  destruct boxIds as [|i l]; [cbn in Ha; injection Ha as <-; done|].
  destruct (apply_boxes_stock _ _ _ _ _ _ Ha) as [version E]; [done|]. set (boxIds := i :: l) in *.
  change (fs_stock (d_feed w')) with (tables w') in Hc'.
  assert (Hin : (if is_in boxIds (b_id box) then stamp_box version (c_clock c) (take_box_apart (c_now c) box) else box)
    ∈ boxes (tables w')).
  { rewrite E. apply stamp_boxes_elem. exists (if is_in boxIds (b_id box) then take_box_apart (c_now c) box else box).
    split; [by apply (list_elem_of_fmap_2 (fun box => if is_in boxIds (b_id box) then take_box_apart (c_now c) box else box))|].
    destruct (is_in boxIds (b_id box)) eqn:Ei; [|by rewrite Ei]. change (b_id (take_box_apart _ _)) with (b_id box).
    by rewrite Ei. }
  destruct (is_in boxIds (b_id box)) eqn:Ei.
  - rewrite (registry_box _ _ _ Hc' Hin) by done. by apply apart_entry.
  - split; [|done]. rewrite (registry_box _ box _ Hc' Hin), (registry_box _ box) by done. f_equal. symmetry.
    apply sight_entry; try done. rewrite E. symmetry. apply apart_sight; [done|].
    intros Hbox%elem_of_is_in. congruence.
Qed.

Lemma apply_pallets_registry c reason id palletIds w w' box s :
  constraints (tables w) -> apply_pallets c reason id palletIds w = Some w' ->
  box ∈ boxes (tables w) -> b_sscc box = Some s ->
  registry (tables w') !! s
  = (if on_pallets palletIds box then retouched (Z.max (c_clock c) (b_updatedAt box + 1)) else fun content => content)
    <$> registry (tables w) !! s.
Proof.
  intros Hc Ha Hb Hs. pose proof (apply_pallets_commit _ _ _ _ _ _ Hc Ha) as (_ & _ & _ & Hc').
  assert (Hsame : forall o : option BoxContent, (fun content => content) <$> o = o) by by intros [?|].
  destruct palletIds as [|i l].
  { cbn in Ha. injection Ha as <-. unfold on_pallets. by destruct (b_palletId box). }
  destruct (apply_pallets_stock _ _ _ _ _ _ Hc Ha) as [version E]; [done|]. set (palletIds := i :: l) in *.
  change (fs_stock (d_feed w')) with (tables w') in Hc'.
  assert (Hin : (if on_pallets palletIds box then stamp_box version (c_clock c) box else box) ∈ boxes (tables w'))
    by (rewrite E; apply stamp_boxes_elem; by exists box).
  rewrite (registry_box (tables w) box) by done.
  assert (Hentry : box_change (tables w) false box = box_change (disassemble_pallets (c_now c) palletIds (tables w)) false box).
  { apply sight_entry; try done; [|by rewrite stack_sight]. split; [apply Hc | apply Hc|].
    intros other Ho. destruct (key_joins _ Hc other Ho) as [c0 Hc0].
    pose proof (stack_joins (c_now c) palletIds (tables w) other) as Hlen. rewrite Hc0 in Hlen.
    destruct (box_candidates (disassemble_pallets _ _ _) other) as [|c1 [|]]; [done | by exists c1 | done]. }
  destruct (on_pallets palletIds box) eqn:Ep; rewrite (registry_box _ _ _ Hc' Hin) by done.
  - rewrite Hentry, E. apply (stamped_entry (disassemble_pallets (c_now c) palletIds (tables w))).
  - rewrite Hsame, Hentry, E. done.
Qed.

(** ** An application *)

(** The registry after the document was applied. *)
Definition registry_applied (c : Call) (id : jsstr) (w : Warehouse) (s : jsstr) : option BoxContent :=
  box ← List.find (fun box => bool_decide (b_sscc box = Some s)) (boxes (tables w));
  if is_in (document_boxes id w) (b_id box) then None
  else (if on_pallets (document_pallets id w) box then retouched (Z.max (c_clock c) (b_updatedAt box + 1))
        else fun content => content) <$> registry (tables w) !! s.

(** No box gets a SSCC. *)
Lemma apply_boxes_ssccs c reason id boxIds w w' :
  apply_boxes c reason id boxIds w = Some w' -> omap b_sscc (boxes (tables w')) = omap b_sscc (boxes (tables w)).
Proof.
  intros Ha. destruct boxIds as [|i l]; [by injection Ha as <-|].
  destruct (apply_boxes_stock _ _ _ _ _ _ Ha) as [version ->]; [done|]. cbn [boxes stamp_boxes disassemble_boxes].
  rewrite !omap_rewritten; [done | |]; intros box; by destruct (is_in _ _).
Qed.

Lemma apply_pallets_ssccs c reason id palletIds w w' :
  constraints (tables w) -> apply_pallets c reason id palletIds w = Some w' ->
  omap b_sscc (boxes (tables w')) = omap b_sscc (boxes (tables w)).
Proof.
  intros Hc Ha. destruct palletIds as [|i l]; [by injection Ha as <-|].
  destruct (apply_pallets_stock _ _ _ _ _ _ Hc Ha) as [version ->]; [done|]. cbn [boxes stamp_boxes disassemble_pallets].
  rewrite omap_rewritten; [done|]. intros box. by destruct (on_pallets _ _).
Qed.

Lemma apply_lines_registry c reason id boxIds palletIds w w' s :
  constraints (tables w) -> homes (tables w) -> apply_lines c id reason boxIds palletIds w = Some w' ->
  registry (tables w') !! s =
    (box ← List.find (fun box => bool_decide (b_sscc box = Some s)) (boxes (tables w));
     if is_in boxIds (b_id box) then None
     else (if on_pallets palletIds box then retouched (Z.max (c_clock c) (b_updatedAt box + 1))
           else fun content => content) <$> registry (tables w) !! s).
Proof.
  intros Hc Hh. unfold apply_lines. destruct (apply_boxes c reason id boxIds w) as [w1|] eqn:E1; [|done].
  cbn [mbind option_bind]. destruct (apply_pallets c reason id palletIds w1) as [w2|] eqn:E2; [|done].
  cbn [mbind option_bind]. intros [= <-]. change (tables (audited _ _ _ _ _)) with (tables w2).
  pose proof (apply_boxes_commit _ _ _ _ _ _ Hc Hh E1) as (_ & _ & _ & Hc1).
  change (fs_stock (d_feed w1)) with (tables w1) in Hc1.
  pose proof (apply_boxes_ssccs _ _ _ _ _ _ E1) as S1. pose proof (apply_pallets_ssccs _ _ _ _ _ _ Hc1 E2) as S2.
  destruct (List.find _ _) as [box|] eqn:Ef; cbn [mbind option_bind].
  - apply List.find_some in Ef as [Hb%list_elem_of_In Hs%bool_decide_eq_true].
    pose proof (apply_boxes_registry _ _ _ _ _ _ box s Hc Hh E1 Hb Hs) as H1.
    destruct (is_in boxIds (b_id box)).
    + assert (exists box1, box1 ∈ boxes (tables w1) /\ b_sscc box1 = Some s) as (box1 & Hb1 & Hs1).
      { apply list_elem_of_omap. rewrite S1. apply list_elem_of_omap. by exists box. }
      by rewrite (apply_pallets_registry _ _ _ _ _ _ box1 s Hc1 E2 Hb1 Hs1), H1.
    + destruct H1 as [H1 Hb1]. by rewrite (apply_pallets_registry _ _ _ _ _ _ box s Hc1 E2 Hb1 Hs), H1.
  - apply registry_none. intros box Hb Hs. assert (Hin : s ∈ omap b_sscc (boxes (tables w2)))
      by (apply list_elem_of_omap; by exists box).
    rewrite S2, S1 in Hin. apply list_elem_of_omap in Hin as (box0 & Hb0 & Hs0).
    pose proof (List.find_none _ _ Ef box0 ltac:(by apply list_elem_of_In)) as Hn. cbn in Hn.
    by rewrite bool_decide_eq_true_2 in Hn.
Qed.

(** C9: What kiosks are told of after a document was applied: nothing of the boxes it
    took apart; the boxes of the pallets it took apart as before, under a newer instant;
    and everything else as it was. *)
Theorem applied_registry c id w w' s :
  constraints (tables w) -> homes (tables w) -> applyDocument c id w = (None, w') ->
  registry (tables w') !! s = registry_applied c id w s.
Proof.
  intros Hc Hh (doc & name & _ & _ & _ & _ & Ha)%applied_done.
  by apply (apply_lines_registry _ _ _ _ _ _ _ s) in Ha.
Qed.
