(* ===== verification/DisaggregationApply.v ===== *)
(** * What an application takes apart

    What the lines of a document resolve to, which boxes and pallets [applyDocument]
    may take apart, and what it writes. *)

From stdpp Require Import base list strings gmap sorting relations.
From Stdlib Require Import ZArith Lia.
From S2P Require Import Prelude Gs1 Dates BoxFacts PickupOrders BoxCursor BoxFeed BoxVersions BoxBatch.
From S2P Require Import Disaggregation DisaggregationFeed.

#[local] Open Scope Z_scope.

(** ** What a line resolves to *)

Lemma entered rows s t : enter_targets rows !! s = Some t -> (Some s, t) ∈ rows.
Proof.
  unfold enter_targets. assert (H : forall (m : gmap jsstr LineTarget), (forall s t, m !! s = Some t -> (Some s, t) ∈ rows) ->
    forall l, (forall x, x ∈ l -> x ∈ rows) -> fold_left (fun (result : gmap jsstr LineTarget) '(sscc, target) =>
      match sscc with None => result | Some sscc => <[sscc := target]> result end) l m !! s = Some t -> (Some s, t) ∈ rows).
  2: { apply H; [|done]. intros s' t' Hm. by rewrite lookup_empty in Hm. }
  intros m Hm l. revert m Hm. induction l as [|[[k|] v] l IH]; intros m Hm Hl; cbn [fold_left].
  - apply Hm.
  - apply IH; [|intros x Hx; apply Hl; by right]. intros s' t'. destruct (decide (k = s')) as [->|Hne].
    + rewrite lookup_insert_eq. intros [= <-]. apply Hl. by left.
    + rewrite lookup_insert_ne by done. apply Hm.
  - apply IH; [done|]. intros x Hx. apply Hl. by right.
Qed.

Lemma box_candidate w ssccs s t :
  validateBoxCandidates w ssccs !! s = Some t ->
  exists box shift, box ∈ boxes (tables w) /\ shift ∈ shifts (tables w) /\ s_id shift = b_shiftId box
    /\ b_sscc box = Some s /\ s ∈ ssccs /\ lt_boxId t = Some (b_id box) /\ lt_palletId t = None
    /\ lt_status t = box_status w box shift.
Proof.
  intros H%entered. apply list_elem_of_bind in H as (box & H & [Hb Hf]%elem_of_filter_bool).
  apply list_elem_of_bind in H as (shift & H & [Hsh Hid%jseqb_eq]%elem_of_filter_bool).
  apply list_elem_of_singleton in H as [= Hs ->]. rewrite <- Hs in Hf. apply elem_of_is_in in Hf.
  exists box, shift. by split_and!.
Qed.

Lemma pallet_candidate w ssccs s t :
  validatePalletCandidates w ssccs !! s = Some t ->
  exists pallet shift, pallet ∈ pallets (tables w)
    /\ match shift with Some shift => shift ∈ shifts (tables w) /\ Some (s_id shift) = pl_shiftId pallet | None => True end
    /\ pl_sscc pallet = Some s /\ s ∈ ssccs /\ lt_boxId t = None /\ lt_palletId t = Some (pl_id pallet)
    /\ lt_status t = pallet_status pallet shift.
Proof.
  intros H%entered. apply list_elem_of_bind in H as (pallet & H & [Hp Hf]%elem_of_filter_bool).
  apply list_elem_of_bind in H as (shift & H & Hsh).
  apply list_elem_of_singleton in H as [= Hs ->]. rewrite <- Hs in Hf. apply elem_of_is_in in Hf.
  exists pallet, shift. split; [done|]. split; [|by split_and!].
  destruct shift as [shift|]; [|done]. unfold left_join in Hsh.
  destruct (List.filter _ _) as [|x l] eqn:E; [by apply list_elem_of_singleton in Hsh|].
  rewrite <- E in Hsh. apply list_elem_of_In, List.in_map_iff in Hsh as (y & [= ->] & Hy%list_elem_of_In).
  by apply elem_of_filter_bool in Hy as [? ?%bool_decide_eq_true].
Qed.

(** A target is a box, or a pallet. *)
Lemma resolved w ssccs s t :
  resolveLineTargets w ssccs !! s = Some t ->
  validateBoxCandidates w ssccs !! s = Some t
  \/ exists rest, validatePalletCandidates w rest !! s = Some t /\ forall k, k ∈ rest -> k ∈ ssccs.
Proof.
  unfold resolveLineTargets. destruct (List.filter _ ssccs) as [|x rest] eqn:E; [by left|].
  intros [H|[_ H]]%lookup_union_Some_raw; [|by left]. right. exists (x :: rest). split; [done|].
  intros k Hk. rewrite <- E in Hk. by apply elem_of_filter_bool in Hk as [? _].
Qed.

Lemma lines_revalidated c id w :
  lines_of id (revalidate_lines c id w)
  = revalidate c (resolveLineTargets w (omap dl_sscc (lines_of id w))) <$> lines_of id w.
Proof.
  unfold lines_of at 1, revalidate_lines. generalize (resolveLineTargets w (omap dl_sscc (lines_of id w))). intros m.
  unfold lines_of. cbn [d_lines with_doc_lines]. induction (d_lines w) as [|line l IH]; [done|].
  cbn. destruct (jseqb (dl_documentId line) id) eqn:E.
  - assert (Ei : jseqb (dl_documentId (revalidate c m line)) id = true)
      by (unfold revalidate; by destruct (dl_sscc line)).
    rewrite Ei, IH. cbn. done.
  - by rewrite E, IH.
Qed.

(** What the lines of a fit document resolve to is fit. *)
Lemma fit_target c id w t :
  all_ok id (revalidate_lines c id w) = true -> t ∈ document_targets id w ->
  exists line s, line ∈ lines_of id w /\ dl_sscc line = Some s
    /\ resolveLineTargets w (omap dl_sscc (lines_of id w)) !! s = Some t /\ lt_status t = LineOk.
Proof.
  unfold all_ok. rewrite lines_revalidated. intros Hok Ht. unfold document_targets in Ht.
  apply list_elem_of_omap in Ht as (s & Hs & Ht). apply list_elem_of_omap in Hs as (line & Hline & Hs).
  exists line, s. split_and!; try done. rewrite forallb_forall in Hok. set (m := resolveLineTargets _ _) in *.
  assert (Hin : In (revalidate c m line) (revalidate c m <$> lines_of id w))
    by by apply list_elem_of_In, list_elem_of_fmap_2.
  specialize (Hok _ Hin). unfold revalidate in Hok. rewrite Hs in Hok. cbn in Hok. rewrite Ht in Hok.
  by apply bool_decide_eq_true in Hok.
Qed.

(** Every line of a fit document is taken apart. *)
Lemma line_taken c id w line s :
  all_ok id (revalidate_lines c id w) = true -> line ∈ lines_of id w -> dl_sscc line = Some s ->
  (exists box, box ∈ boxes (tables w) /\ b_sscc box = Some s /\ b_id box ∈ document_boxes id w)
  \/ exists pallet, pallet ∈ pallets (tables w) /\ pl_sscc pallet = Some s /\ pl_id pallet ∈ document_pallets id w.
Proof.
  intros Hok Hline Hs. unfold all_ok in Hok. rewrite lines_revalidated, forallb_forall in Hok.
  set (m := resolveLineTargets w (omap dl_sscc (lines_of id w))) in *.
  specialize (Hok (revalidate c m line) ltac:(by apply list_elem_of_In, list_elem_of_fmap_2)).
  unfold revalidate in Hok. rewrite Hs in Hok. cbn in Hok.
  destruct (m !! s) as [t|] eqn:E; [|by apply bool_decide_eq_true in Hok].
  assert (Ht : t ∈ document_targets id w).
  { apply list_elem_of_omap. exists s. split; [|exact E]. apply list_elem_of_omap. by exists line. }
  apply resolved in E as [E|(rest & E & _)].
  - left. apply box_candidate in E as (box & shift & Hb & _ & _ & Es & _ & Eid & _). exists box. split_and!; try done.
    apply list_elem_of_omap. by exists t.
  - right. apply pallet_candidate in E as (pallet & shift & Hp & _ & Es & _ & Eb & Eid & _). exists pallet.
    split_and!; try done. apply list_elem_of_omap. exists t. by rewrite Eb.
Qed.

Lemma box_status_ok w box shift :
  box_status w box shift = LineOk ->
  is_Some (b_closedAt box) /\ is_Some (b_closureReceivedAt box) /\ s_status shift = js "closed"
  /\ b_disassembledAt box = None /\ inActiveOrder w (b_id box) = false /\ locked_box w (b_id box) = false.
Proof.
  unfold box_status. destruct (b_closedAt box), (b_closureReceivedAt box); cbn; try discriminate.
  destruct (jseqb _ _) eqn:E; [|discriminate]. apply jseqb_eq in E. cbn.
  destruct (b_disassembledAt box); cbn; [discriminate|].
  destruct (_ || _) eqn:Eo; [discriminate|]. apply orb_false_iff in Eo as [? ?]. intros _. by split_and!.
Qed.

Lemma pallet_status_ok pallet shift :
  pallet_status pallet shift = LineOk ->
  is_Some (pl_closedAt pallet) /\ is_Some (pl_closureReceivedAt pallet) /\ pl_disassembledAt pallet = None
  /\ (is_Some (pl_shiftId pallet) -> s_status <$> shift = Some (js "closed")).
Proof.
  unfold pallet_status. destruct (pl_closedAt pallet), (pl_closureReceivedAt pallet); cbn; try discriminate.
  destruct (_ && _) eqn:E; [discriminate|]. destruct (pl_disassembledAt pallet); cbn; [discriminate|].
  intros _. split_and!; try done. intros Hs. rewrite bool_decide_eq_true_2 in E by done.
  by apply negb_false_iff, bool_decide_eq_true in E.
Qed.

(** ** What an application writes *)

(** Boxes and pallets, and when each was taken apart. *)
Definition parts (db : Stock) : list (jsstr * option Z) := (fun box => (b_id box, b_disassembledAt box)) <$> boxes db.
Definition stacks (db : Stock) : list (jsstr * option Z) :=
  (fun pallet => (pl_id pallet, pl_disassembledAt pallet)) <$> pallets db.

(** These were taken apart now. *)
Definition marked (now : Z) (ids : list jsstr) (l : list (jsstr * option Z)) : list (jsstr * option Z) :=
  (fun x => if is_in ids x.1 then (x.1, Some now) else x) <$> l.

Lemma marked_none now l : marked now [] l = l.
Proof. unfold marked. rewrite <- (list_fmap_id l) at 2. by apply list_fmap_ext. Qed.

Lemma stamped_parts selected version clock db : parts (stamp_boxes selected version clock db) = parts db.
Proof.
  unfold parts. cbn [boxes stamp_boxes]. rewrite <- list_fmap_compose. apply list_fmap_ext. intros _ box _. cbn.
  by destruct (selected box).
Qed.

(** What the tables of exceptions and of documents hold is not the boxes'. *)
Lemma apply_boxes_writes c reason id boxIds w w' :
  apply_boxes c reason id boxIds w = Some w' ->
  parts (tables w') = marked (c_now c) boxIds (parts (tables w)) /\ stacks (tables w') = stacks (tables w)
  /\ d_documents w' = d_documents w /\ d_lines w' = d_lines w /\ d_counter w' = d_counter w
  /\ d_palletExceptions w' = d_palletExceptions w
  /\ d_boxExceptions w' = d_boxExceptions w
       ++ map (box_exception c reason id) (List.filter (fun box => is_in boxIds (b_id box)) (boxes (tables w))).
Proof.
  unfold apply_boxes. destruct boxIds as [|i l].
  { intros [= <-]. rewrite marked_none, filter_nothing by done. by rewrite app_nil_r. }
  set (boxIds := i :: l). destruct (advanceBoxRegistryVersion _ _ _) as [[v st']|] eqn:Ha; [|done].
  cbn [mbind option_bind]. intros [= <-]. apply advance_spec in Ha as [version E].
  change (tables (with_feed st' _)) with (fs_stock st'). rewrite E, stamped_parts. cbn [fs_stock]. split; [|done].
  unfold parts, marked. cbn [boxes disassemble_boxes]. rewrite <- !list_fmap_compose. apply list_fmap_ext.
  intros _ box _. cbn. by destruct (is_in boxIds (b_id box)).
Qed.

Lemma apply_pallets_writes c reason id palletIds w w' :
  apply_pallets c reason id palletIds w = Some w' ->
  stacks (tables w') = marked (c_now c) palletIds (stacks (tables w)) /\ parts (tables w') = parts (tables w)
  /\ d_documents w' = d_documents w /\ d_lines w' = d_lines w /\ d_counter w' = d_counter w
  /\ d_boxExceptions w' = d_boxExceptions w
  /\ d_palletExceptions w' = d_palletExceptions w
       ++ map (pallet_exception c reason id) (List.filter (fun pallet => is_in palletIds (pl_id pallet)) (pallets (tables w))).
Proof.
  unfold apply_pallets. destruct palletIds as [|i l].
  { intros [= <-]. rewrite marked_none, filter_nothing by done. by rewrite app_nil_r. }
  set (palletIds := i :: l). destruct (advanceBoxRegistryVersion _ _ _) as [[v st']|] eqn:Ha; [|done].
  cbn [mbind option_bind]. intros [= <-]. apply advance_spec in Ha as [version E].
  change (tables (with_feed st' _)) with (fs_stock st'). rewrite E, stamped_parts. cbn [fs_stock]. split; [|done].
  unfold stacks, marked. cbn [pallets disassemble_pallets stamp_boxes]. rewrite <- !list_fmap_compose. apply list_fmap_ext.
  intros _ pallet _. cbn. by destruct (is_in palletIds (pl_id pallet)).
Qed.

Record applies (c : Call) (id reason : jsstr) (boxIds palletIds : list jsstr) (w w' : Warehouse) : Prop := {
  ap_parts : parts (tables w') = marked (c_now c) boxIds (parts (tables w));
  ap_stacks : stacks (tables w') = marked (c_now c) palletIds (stacks (tables w));
  ap_documents : d_documents w' = map (fun doc => if jseqb (dd_id doc) id then applied_document c doc else doc) (d_documents w);
  ap_lines : d_lines w' = d_lines w;
  ap_counter : d_counter w' = d_counter w;
  ap_boxes : d_boxExceptions w' = d_boxExceptions w
    ++ map (box_exception c reason id) (List.filter (fun box => is_in boxIds (b_id box)) (boxes (tables w)));
  ap_pallets : d_palletExceptions w' = d_palletExceptions w
    ++ map (pallet_exception c reason id) (List.filter (fun pallet => is_in palletIds (pl_id pallet)) (pallets (tables w)))
}.

Lemma apply_boxes_pallets c reason id boxIds w w' :
  apply_boxes c reason id boxIds w = Some w' -> pallets (tables w') = pallets (tables w).
Proof.
  unfold apply_boxes. destruct boxIds as [|i l]; [by intros [= <-]|].
  destruct (advanceBoxRegistryVersion _ _ _) as [[v st']|] eqn:Ha; [|done]. cbn [mbind option_bind]. intros [= <-].
  apply advance_spec in Ha as [version E]. change (tables (with_feed st' _)) with (fs_stock st'). by rewrite E.
Qed.

Lemma apply_lines_writes c id reason boxIds palletIds w w' :
  apply_lines c id reason boxIds palletIds w = Some w' -> applies c id reason boxIds palletIds w w'.
Proof.
  unfold apply_lines. destruct (apply_boxes c reason id boxIds w) as [w1|] eqn:E1; [|done]. cbn [mbind option_bind].
  destruct (apply_pallets c reason id palletIds w1) as [w2|] eqn:E2; [|done]. cbn [mbind option_bind]. intros [= <-].
  pose proof (apply_boxes_pallets _ _ _ _ _ _ E1) as Ep.
  apply apply_boxes_writes in E1 as (P1 & S1 & D1 & L1 & C1 & X1 & B1).
  apply apply_pallets_writes in E2 as (S2 & P2 & D2 & L2 & C2 & B2 & X2).
  split; cbn [d_documents d_lines d_counter d_boxExceptions d_palletExceptions audited update_document with_documents].
  - change (tables (audited _ _ _ _ _)) with (tables w2). congruence.
  - change (tables (audited _ _ _ _ _)) with (tables w2). congruence.
  - by rewrite D2, D1.
  - congruence.
  - congruence.
  - congruence.
  - by rewrite X2, X1, Ep.
Qed.

(** C10: Applying a document takes apart the boxes and pallets it lists, and no others;
    each of its boxes was closed, its closure received and its shift closed, was whole,
    in no order that was not cancelled, and no code of it was in an order; its pallets
    were closed and whole. *)
Theorem applied_targets_fit c id w w' :
  applyDocument c id w = (None, w') ->
  parts (tables w') = marked (c_now c) (document_boxes id w) (parts (tables w)) /\
  stacks (tables w') = marked (c_now c) (document_pallets id w) (stacks (tables w)) /\
  (forall boxId, boxId ∈ document_boxes id w ->
     exists line box shift, line ∈ lines_of id w /\ box ∈ boxes (tables w) /\ shift ∈ shifts (tables w)
       /\ b_id box = boxId /\ s_id shift = b_shiftId box
       /\ is_Some (dl_sscc line) /\ dl_sscc line = b_sscc box
       /\ is_Some (b_closedAt box) /\ is_Some (b_closureReceivedAt box) /\ s_status shift = js "closed"
       /\ b_disassembledAt box = None /\ inActiveOrder w boxId = false /\ locked_box w boxId = false)
  /\ (forall line s, line ∈ lines_of id w -> dl_sscc line = Some s ->
     (exists box, box ∈ boxes (tables w) /\ b_sscc box = Some s /\ b_id box ∈ document_boxes id w)
     \/ exists pallet, pallet ∈ pallets (tables w) /\ pl_sscc pallet = Some s /\ pl_id pallet ∈ document_pallets id w)
  /\ forall palletId, palletId ∈ document_pallets id w ->
     exists line pallet, line ∈ lines_of id w /\ pallet ∈ pallets (tables w) /\ pl_id pallet = palletId
       /\ is_Some (dl_sscc line) /\ dl_sscc line = pl_sscc pallet
       /\ is_Some (pl_closedAt pallet) /\ is_Some (pl_closureReceivedAt pallet) /\ pl_disassembledAt pallet = None
       /\ (forall shiftId, pl_shiftId pallet = Some shiftId ->
             exists shift, shift ∈ shifts (tables w) /\ s_id shift = shiftId /\ s_status shift = js "closed").
Proof.
  intros (doc & name & _ & _ & _ & Hok & Ha)%applied_done. apply apply_lines_writes in Ha as [Hparts Hstacks _ _ _ _ _].
  split; [exact Hparts|]. split; [exact Hstacks|]. split; [|split].
  - intros boxId (t & Ht & Hid)%list_elem_of_omap.
    destruct (fit_target _ _ _ _ Hok Ht) as (line & s & Hline & Hs & Hr & Hst).
    apply resolved in Hr as [Hr|(rest & Hr & _)].
    + apply box_candidate in Hr as (box & shift & Hb & Hsh & Esh & Es & _ & Eid & _ & Est).
      rewrite Est in Hst. apply box_status_ok in Hst as (? & ? & ? & ? & ? & ?).
      assert (boxId = b_id box) as -> by congruence. exists line, box, shift. rewrite Hs, Es. by split_and!.
    + apply pallet_candidate in Hr as (pallet & shift & _ & _ & _ & _ & Eid & _). congruence.
  - intros line s. by apply line_taken with (c := c).
  - intros palletId (t & Ht & Hid)%list_elem_of_omap.
    destruct (fit_target _ _ _ _ Hok Ht) as (line & s & Hline & Hs & Hr & Hst).
    apply resolved in Hr as [Hr|(rest & Hr & _)].
    + apply box_candidate in Hr as (box & shift & _ & _ & _ & _ & _ & Eid & _). rewrite Eid in Hid. done.
    + apply pallet_candidate in Hr as (pallet & shift & Hp & Hsh & Es & _ & Eid & Epid & Est).
      rewrite Est in Hst. apply pallet_status_ok in Hst as (? & ? & ? & Hclosed). rewrite Eid in Hid.
      assert (palletId = pl_id pallet) as -> by congruence. exists line, pallet. rewrite Hs, Es. split_and!; try done.
      intros shiftId E. rewrite E in *. specialize (Hclosed ltac:(done)).
      destruct shift as [shift|]; [|done]. exists shift. cbn in *. destruct Hsh. split_and!; congruence.
Qed.
