(* ===== verification/DisaggregationLife.v ===== *)
(** * The life of documents

    What holds of the documents, their lines and what they took apart, whatever is
    asked for in whatever order, and whatever else happens to the tables in between
    (stations, orders, other parts of the cabinet): a document that was applied or
    cancelled is final, and nothing is taken apart by two documents. *)

From stdpp Require Import base list strings gmap sorting relations.
From Stdlib Require Import ZArith Lia.
From S2P Require Import Prelude Gs1 Dates BoxFacts PickupOrders BoxCursor BoxFeed BoxVersions BoxBatch.
From S2P Require Import Disaggregation DisaggregationFeed DisaggregationApply.

#[local] Open Scope Z_scope.

(** ** Histories *)

(** What others do to the tables: what was taken apart stays apart. *)
Record elsewhere (w w' : Warehouse) : Prop := {
  el_documents : d_documents w' = d_documents w;
  el_lines : d_lines w' = d_lines w;
  el_counter : d_counter w' = d_counter w;
  el_boxExceptions : d_boxExceptions w' = d_boxExceptions w;
  el_palletExceptions : d_palletExceptions w' = d_palletExceptions w;
  el_boxes : NoDup (parts (tables w')).*1;
  el_pallets : NoDup (stacks (tables w')).*1;
  el_parts : forall i t, (i, Some t) ∈ parts (tables w) -> exists t', (i, Some t') ∈ parts (tables w');
  el_stacks : forall i t, (i, Some t) ∈ stacks (tables w) -> exists t', (i, Some t') ∈ stacks (tables w')
}.

Inductive happens : Warehouse -> Warehouse -> Prop :=
| Asked c request w : happens w (handle c request w).2
| Elsewhere w w' : elsewhere w w' -> happens w w'.

(** Before the first document. *)
Record unused (w : Warehouse) : Prop := {
  un_documents : d_documents w = [];
  un_lines : d_lines w = [];
  un_counter : d_counter w = 0;
  un_boxExceptions : d_boxExceptions w = [];
  un_palletExceptions : d_palletExceptions w = [];
  un_boxes : NoDup (parts (tables w)).*1;
  un_pallets : NoDup (stacks (tables w)).*1
}.

(** ** The invariant *)

Definition line_key (line : LineRow) : option (jsstr * jsstr) :=
  sscc ← dl_sscc line; Some (dl_documentId line, sscc).

(** A line that names nothing is a marker, and a line names a box or a pallet. *)
Definition line_ok (line : LineRow) : Prop :=
  (dl_sscc line = None -> dl_status line = LineNotFound \/ dl_status line = Duplicate)
  /\ (dl_boxId line = None \/ dl_palletId line = None).

(** An exception is of a document that was applied, and its target is apart. *)
Definition exception_ok (docs : list DocumentRow) (targets : list (jsstr * option Z)) (row : ExceptionRow) : Prop :=
  (exists doc, doc ∈ docs /\ dd_id doc = ex_documentId row /\ dd_status doc = Applied)
  /\ exists t, (ex_targetId row, Some t) ∈ targets.

Record documents_ok (n : Z) (docs : list DocumentRow) : Prop := {
  do_ids : NoDup (dd_id <$> docs);
  do_numbers : Forall (fun doc => exists k when, 1 <= k <= n /\ dd_docNo doc = formatDocNo k when) docs;
  do_distinct : NoDup (dd_docNo <$> docs);
  do_applied : Forall (fun doc => dd_status doc = Applied <-> is_Some (dd_appliedAt doc)) docs
}.

Record lines_ok (lines : list LineRow) : Prop := {
  lo_ids : NoDup (dl_id <$> lines);
  lo_ssccs : NoDup (omap line_key lines);
  lo_line : Forall line_ok lines
}.

Record exceptions_ok (docs : list DocumentRow) (targets : list (jsstr * option Z)) (rows : list ExceptionRow) : Prop := {
  eo_once : NoDup (ex_targetId <$> rows);
  eo_rows : Forall (exception_ok docs targets) rows;
  eo_targets : NoDup targets.*1
}.

Record in_order (w : Warehouse) : Prop := {
  io_counter : 0 <= d_counter w <= MAX_PG_INTEGER;
  io_documents : documents_ok (d_counter w) (d_documents w);
  io_lines : lines_ok (d_lines w);
  io_boxes : exceptions_ok (d_documents w) (parts (tables w)) (d_boxExceptions w);
  io_pallets : exceptions_ok (d_documents w) (stacks (tables w)) (d_palletExceptions w)
}.

Lemma formatDocNo_inj n m t u : 0 <= n -> 0 <= m -> formatDocNo n t = formatDocNo m u -> n = m.
Proof.
  intros Hn Hm H. unfold formatDocNo in H. rewrite !(app_assoc (js "DSG-")) in H. by apply dash_pad_inj in H.
Qed.

(** ** Documents *)

(** What an edit of a document keeps. *)
Record same_document (doc doc' : DocumentRow) : Prop := {
  sd_id : dd_id doc' = dd_id doc;
  sd_docNo : dd_docNo doc' = dd_docNo doc;
  sd_applied : (dd_status doc = Applied <-> is_Some (dd_appliedAt doc)) ->
    (dd_status doc' = Applied <-> is_Some (dd_appliedAt doc'));
  sd_stays : dd_status doc = Applied -> dd_status doc' = Applied
}.

Lemma same_document_refl doc : same_document doc doc.
Proof. by split. Qed.

Lemma fmap_key {A} (key : A -> jsstr) (g : A -> A) (l : list A) :
  (forall x, x ∈ l -> key (g x) = key x) -> key <$> (g <$> l) = key <$> l.
Proof.
  intros H. rewrite <- list_fmap_compose. apply list_fmap_ext. intros i x Hx.
  by apply H, (list_elem_of_lookup_2 _ i).
Qed.

Lemma edited_documents n docs g :
  documents_ok n docs -> (forall doc, doc ∈ docs -> same_document doc (g doc)) -> documents_ok n (g <$> docs).
Proof.
  intros [Hi Hn Hd Ha] Hg. split.
  - rewrite fmap_key; [done | by intros; apply Hg].
  - apply Forall_fmap, Forall_forall. intros doc Hdoc. cbn. rewrite (sd_docNo _ _ (Hg doc Hdoc)).
    by apply (proj1 (Forall_forall _ _) Hn).
  - rewrite fmap_key; [done | by intros; apply Hg].
  - apply Forall_fmap, Forall_forall. intros doc Hdoc. cbn.
    by apply (sd_applied _ _ (Hg doc Hdoc)), (proj1 (Forall_forall _ _) Ha).
Qed.

(** The documents that were applied stay so. *)
Definition keep_applied (docs docs' : list DocumentRow) : Prop :=
  forall doc, doc ∈ docs -> dd_status doc = Applied ->
  exists doc', doc' ∈ docs' /\ dd_id doc' = dd_id doc /\ dd_status doc' = Applied.

Lemma edited_keep docs g : (forall doc, doc ∈ docs -> same_document doc (g doc)) -> keep_applied docs (g <$> docs).
Proof.
  intros Hg doc Hdoc Ha. exists (g doc). split; [by apply list_elem_of_fmap_2|].
  destruct (Hg doc Hdoc) as [Hi _ _ Hs]. auto.
Qed.

(** The edits of one document, while it is a draft. *)
Lemma edit_one n docs id doc f :
  documents_ok n docs -> List.find (fun doc => jseqb (dd_id doc) id) docs = Some doc -> same_document doc (f doc) ->
  forall other, other ∈ docs -> same_document other (if jseqb (dd_id other) id then f other else other).
Proof.
  intros Hd [Hin%list_elem_of_In Hid%jseqb_eq]%List.find_some Hf other Ho.
  destruct (jseqb (dd_id other) id) eqn:E; [|apply same_document_refl]. apply jseqb_eq in E.
  by rewrite (key_unique dd_id docs other doc (do_ids _ _ Hd) Ho Hin) by congruence.
Qed.

(** ** Exceptions *)

Lemma exceptions_keep docs docs' targets targets' rows :
  exceptions_ok docs targets rows -> keep_applied docs docs' -> NoDup targets'.*1 ->
  (forall i t, (i, Some t) ∈ targets -> exists t', (i, Some t') ∈ targets') -> exceptions_ok docs' targets' rows.
Proof.
  intros [Ho Hr _] Hk Hn Ht. split; [done| |done]. eapply Forall_impl; [exact Hr|].
  intros row [(doc & Hd & Hid & Ha) [t Hin]]. split; [|by eapply Ht].
  destruct (Hk doc Hd Ha) as (doc' & ? & ? & ?). exists doc'. split_and!; congruence.
Qed.

Lemma marked_fst now ids l : (marked now ids l).*1 = l.*1.
Proof. unfold marked. rewrite <- list_fmap_compose. apply list_fmap_ext. intros _ [i t] _. cbn. by destruct (is_in ids i). Qed.

Lemma marked_apart now ids l i t : (i, Some t) ∈ l -> exists t', (i, Some t') ∈ marked now ids l.
Proof.
  intros H. exists (if is_in ids i then now else t). apply list_elem_of_fmap. exists (i, Some t). split; [|done].
  cbn. by destruct (is_in ids i).
Qed.

(** The exceptions of an application. *)
Lemma exceptions_added docs docs' targets rows now ids new doc :
  exceptions_ok docs targets rows -> keep_applied docs docs' -> doc ∈ docs' -> dd_status doc = Applied ->
  (forall i, i ∈ ids -> (i, None) ∈ targets) ->
  ex_targetId <$> new = List.filter (is_in ids) targets.*1 -> Forall (fun row => ex_documentId row = dd_id doc) new ->
  exceptions_ok docs' (marked now ids targets) (rows ++ new).
Proof.
  intros Hok Hk Hdoc Happ Hwhole Hnew Hids.
  assert (Hnew' : forall row, row ∈ new -> ex_targetId row ∈ targets.*1 /\ is_in ids (ex_targetId row) = true).
  { intros row Hrow. apply elem_of_filter_bool. rewrite <- Hnew. by apply list_elem_of_fmap_2. }
  pose proof (exceptions_keep _ docs' _ (marked now ids targets) _ Hok Hk) as Hkeep.
  destruct Hkeep as [Ho Hr Hm]; [rewrite marked_fst; exact (eo_targets _ _ _ Hok) | by intros; eapply marked_apart|].
  split; [|apply Forall_app; split; [done|]|done].
  - rewrite fmap_app. apply NoDup_app. split; [done|]. split.
    + intros i (row & -> & Hrow)%list_elem_of_fmap Hi. apply list_elem_of_fmap in Hi as (row' & Ei & Hrow').
      destruct (Hnew' row' Hrow') as [_ Hin%elem_of_is_in]. rewrite <- Ei in Hin. apply Hwhole in Hin.
      destruct (proj1 (Forall_forall _ _) (eo_rows _ _ _ Hok) row Hrow) as [_ [t Ht]].
      by pose proof (key_unique fst _ _ _ (eo_targets _ _ _ Hok) Hin Ht eq_refl).
    + rewrite Hnew. eapply sublist_NoDup; [exact (eo_targets _ _ _ Hok) | apply filter_bool_sublist].
  - apply Forall_forall. intros row Hrow. destruct (Hnew' row Hrow) as [Hin Hi]. split.
    + exists doc. split_and!; [done| |done]. symmetry. by apply (proj1 (Forall_forall _ _) Hids).
    + exists now. apply list_elem_of_fmap in Hin as ([i t] & Ei & Hin). apply list_elem_of_fmap. exists (i, t).
      cbn [fst] in *. split; [|done]. rewrite <- Ei. by rewrite Hi.
Qed.

(** ** Lines *)

Lemma target_one w ssccs s t :
  resolveLineTargets w ssccs !! s = Some t -> lt_boxId t = None \/ lt_palletId t = None.
Proof.
  intros [H|(rest & H & _)]%resolved.
  - apply box_candidate in H as (box & shift & _ & _ & _ & _ & _ & _ & H & _). by right.
  - apply pallet_candidate in H as (pallet & shift & _ & _ & _ & _ & H & _). by left.
Qed.

Lemma new_lines_ok c id w ssccs n existing parsed :
  Forall line_ok (new_lines c id (resolveLineTargets w ssccs) n existing parsed).
Proof.
  revert n existing. induction parsed as [|[input [s|]] parsed IH]; intros n existing; cbn [new_lines]; [constructor| |].
  - destruct (is_in existing s); (constructor; [|apply IH]).
    + split; [by right | by left].
    + split; [done|]. cbn. destruct (resolveLineTargets w ssccs !! s) as [t|] eqn:E; [|by left].
      by apply target_one in E.
  - constructor; [|apply IH]. split; [by left | by left].
Qed.

Lemma inserted_lines values w w' :
  insert_lines values w = Some w' -> w' = with_doc_lines (fun _ => d_lines w ++ values) w
  /\ NoDup (dl_id <$> d_lines w ++ values) /\ NoDup (omap line_key (d_lines w ++ values)).
Proof.
  unfold insert_lines. destruct (_ && _) eqn:E; [|done]. intros [= <-].
  apply andb_true_iff in E as [?%bool_decide_eq_true ?%bool_decide_eq_true]. by split_and!.
Qed.

Lemma sublist_lines l l' : sublist l l' -> lines_ok l' -> lines_ok l.
Proof.
  intros Hs [Hi Hk Hl]. split.
  - eapply sublist_NoDup; [exact Hi | by apply (fmap_sublist dl_id)].
  - eapply sublist_NoDup; [exact Hk|]. clear -Hs. induction Hs; cbn; [done| |]; destruct (line_key _); by try constructor.
  - apply Forall_forall. intros line Hline. apply (proj1 (Forall_forall _ _) Hl). by eapply elem_of_sublist.
Qed.

Lemma revalidated_lines c w ssccs id l :
  lines_ok l ->
  lines_ok (map (fun line => if jseqb (dl_documentId line) id then revalidate c (resolveLineTargets w ssccs) line else line) l).
Proof.
  intros [Hi Hk Hl]. set (g := fun line : LineRow => _).
  assert (Hg : forall line, dl_id (g line) = dl_id line /\ line_key (g line) = line_key line /\ (line_ok line -> line_ok (g line))).
  { intros line. subst g. cbn beta. destruct (jseqb _ _); [|done]. unfold revalidate.
    destruct (dl_sscc line) as [s|] eqn:Es; [|done]. split; [done|]. split; [by unfold line_key; rewrite Es|].
    intros _. split; [cbn; congruence|]. cbn. destruct (_ !! s) as [t|] eqn:E; [|by left]. by apply target_one in E. }
  change (map g l) with (g <$> l). split.
  - rewrite fmap_key; [done|]. intros line _. by apply Hg.
  - assert (E : omap line_key (g <$> l) = omap line_key l); [|by rewrite E].
    clear -Hg. induction l as [|line l IH]; [done|]. rewrite fmap_cons. cbn. destruct (Hg line) as (_ & -> & _). by rewrite IH.
  - apply Forall_fmap. eapply Forall_impl; [exact Hl|]. intros line. apply Hg.
Qed.

(** ** Requests *)

(** The request edited documents and lines only. *)
Record edits (w w' : Warehouse) (g : DocumentRow -> DocumentRow) : Prop := {
  ed_documents : d_documents w' = g <$> d_documents w;
  ed_counter : d_counter w' = d_counter w;
  ed_tables : tables w' = tables w;
  ed_boxes : d_boxExceptions w' = d_boxExceptions w;
  ed_pallets : d_palletExceptions w' = d_palletExceptions w
}.

Lemma edited_in_order w w' g :
  in_order w -> edits w w' g -> (forall doc, doc ∈ d_documents w -> same_document doc (g doc)) ->
  lines_ok (d_lines w') -> in_order w'.
Proof.
  intros [Hc Hd _ Hb Hp] [Ed Ec Et Eb Ep] Hg Hl. pose proof (edited_keep _ _ Hg) as Hk.
  split; rewrite ?Ed, ?Ec, ?Et, ?Eb, ?Ep; [done | by apply edited_documents | done | |].
  - apply (exceptions_keep _ _ _ _ _ Hb Hk (eo_targets _ _ _ Hb)). eauto.
  - apply (exceptions_keep _ _ _ _ _ Hp Hk (eo_targets _ _ _ Hp)). eauto.
Qed.

(** An edit of a draft that leaves it a draft, or cancels it. *)
Lemma draft_edit doc f :
  dd_status doc = Draft -> (dd_status doc = Applied <-> is_Some (dd_appliedAt doc)) ->
  dd_id (f doc) = dd_id doc -> dd_docNo (f doc) = dd_docNo doc -> dd_appliedAt (f doc) = dd_appliedAt doc ->
  dd_status (f doc) <> Applied -> same_document doc (f doc).
Proof.
  intros Hs Ha Hi Hn Hat Hf. split; [done | done | | congruence].
  intros _. split; [done|]. rewrite Hat, <- Ha. congruence.
Qed.

Lemma found_draft w id doc :
  in_order w -> find_document id w = Some doc ->
  dd_id doc = id /\ doc ∈ d_documents w /\ (dd_status doc = Applied <-> is_Some (dd_appliedAt doc)).
Proof.
  intros Hw [Hin%list_elem_of_In Hid%jseqb_eq]%List.find_some. split; [done|]. split; [done|].
  by apply (proj1 (Forall_forall _ _) (do_applied _ _ (io_documents _ Hw))).
Qed.

Lemma draft_in_order w w' id doc f :
  in_order w -> find_document id w = Some doc -> dd_status doc = Draft ->
  edits w w' (fun doc => if jseqb (dd_id doc) id then f doc else doc) ->
  dd_id (f doc) = dd_id doc -> dd_docNo (f doc) = dd_docNo doc -> dd_appliedAt (f doc) = dd_appliedAt doc ->
  dd_status (f doc) <> Applied -> lines_ok (d_lines w') -> in_order w'.
Proof.
  intros Hw Hf Hs He Hi Hn Ha Hst Hl. eapply edited_in_order; [done | exact He | | done].
  eapply edit_one; [apply Hw | exact Hf|]. destruct (found_draft _ _ _ Hw Hf) as (_ & _ & ?). by apply draft_edit.
Qed.

(** The number of a new document is not taken. *)
Lemma number_fresh n docs when :
  documents_ok n docs -> 0 <= n -> forall doc, doc ∈ docs -> dd_docNo doc <> formatDocNo (n + 1) when.
Proof.
  intros Hd Hn doc Hdoc E. destruct (proj1 (Forall_forall _ _) (do_numbers _ _ Hd) doc Hdoc) as (k & t & Hk & Ek).
  rewrite Ek in E. apply formatDocNo_inj in E; lia.
Qed.

Lemma created_in_order c reasonId comment w : in_order w -> in_order (createDocument c reasonId comment w).2.
Proof.
  intros Hw. unfold createDocument. destruct (match reasonId with Some _ => _ | None => _ end); [done|].
  destruct (MAX_PG_INTEGER <? d_counter w + 1) eqn:Emax; [done|]. apply Z.ltb_ge in Emax.
  set (doc := {| dd_id := c_uuid c 0 |}). unfold insert_document.
  destruct (existsb _ _) eqn:Ex; [done|]. cbn [snd]. destruct Hw as [Hc Hd Hl Hb Hp].
  assert (Hnew : dd_id doc ∉ dd_id <$> d_documents w).
  { intros (other & Eid & Ho)%list_elem_of_fmap. assert (H : existsb (fun other => jseqb (dd_id other) (dd_id doc)
      || jseqb (dd_docNo other) (dd_docNo doc)) (d_documents w) = true).
    { apply existsb_exists. exists other. split; [by apply list_elem_of_In|]. by rewrite Eid, jseqb_refl. }
    cbn [d_documents with_doc_counter] in Ex. congruence. }
  assert (Hk : keep_applied (d_documents w) (d_documents w ++ [doc])).
  { intros other Ho Ha. exists other. split; [apply elem_of_app; by left | done]. }
  split; cbn [d_counter d_documents d_lines audited with_documents with_doc_counter d_boxExceptions d_palletExceptions].
  - lia.
  - destruct Hd as [Hi Hn Hdn Ha]. split.
    + rewrite fmap_app. apply NoDup_app. split; [done|]. split; [|apply NoDup_singleton].
      by intros i Hi' ->%list_elem_of_singleton.
    + apply Forall_app. split.
      * eapply Forall_impl; [exact Hn|]. intros other (k & t & Hk' & E). exists k, t. split; [lia | done].
      * repeat constructor. exists (d_counter w + 1), (c_date c). split; [lia | done].
    + rewrite fmap_app. apply NoDup_app. split; [done|]. split; [|apply NoDup_singleton].
      intros i (other & -> & Ho)%list_elem_of_fmap E%list_elem_of_singleton.
      by apply (number_fresh (d_counter w) (d_documents w) (c_date c) ltac:(by split) ltac:(lia) other Ho).
    + apply Forall_app. split; [done|]. repeat constructor; cbn; [discriminate | by intros [? ?]].
  - done.
  - apply (exceptions_keep _ _ _ _ _ Hb Hk (eo_targets _ _ _ Hb)). eauto.
  - apply (exceptions_keep _ _ _ _ _ Hp Hk (eo_targets _ _ _ Hp)). eauto.
Qed.

Lemma filter_fst {A B} (row : A -> B) (target : B -> jsstr) (key : A -> jsstr) (at_ : A -> option Z) ids (l : list A) :
  (forall x, target (row x) = key x) ->
  target <$> map row (List.filter (fun x => is_in ids (key x)) l)
  = List.filter (is_in ids) ((fun x => (key x, at_ x)) <$> l).*1.
Proof.
  intros H. induction l as [|x l IH]; [done|]. rewrite !fmap_cons. cbn [List.filter fst].
  destruct (is_in ids (key x)); [|exact IH]. cbn [map]. by rewrite fmap_cons, IH, H.
Qed.

Lemma map_each {A} (P : A -> Prop) {B} (f : B -> A) l : (forall x, P (f x)) -> Forall P (map f l).
Proof. intros H. induction l; cbn; by constructor. Qed.

Lemma applied_in_order c id w : in_order w -> in_order (applyDocument c id w).2.
Proof.
  intros Hw. destruct (applyDocument c id w) as [[e|] w'] eqn:E; cbn [snd].
  - apply applied_not in E as [->|[-> _]]; [done|]. destruct Hw as [Hc Hd Hl Hb Hp]. split; try done.
    by apply revalidated_lines.
  - pose proof (applied_targets_fit _ _ _ _ E) as (_ & _ & Hboxes & _ & Hpallets).
    apply applied_done in E as (doc & name & Hf & Hs & _ & _ & Ha).
    apply apply_lines_writes in Ha as [Hparts Hstacks Hdocs Hlines Hcounter Hxb Hxp].
    destruct (found_draft _ _ _ Hw Hf) as (Hid & Hin & Happ). destruct Hw as [Hc Hd Hl Hb Hp].
    cbn [d_documents d_lines d_counter d_boxExceptions d_palletExceptions with_doc_lines revalidate_lines] in *.
    set (g := fun doc => if jseqb (dd_id doc) id then applied_document c doc else doc) in *.
    change (map g (d_documents w)) with (g <$> d_documents w) in Hdocs.
    assert (Hg : forall other, other ∈ d_documents w -> same_document other (g other)).
    { apply (edit_one _ _ id doc (applied_document c) Hd Hf). split; [done | done | done | done]. }
    assert (Hdoc : applied_document c doc ∈ g <$> d_documents w).
    { apply list_elem_of_fmap. exists doc. split; [|done]. subst g. cbn beta. by rewrite Hid, jseqb_refl. }
    pose proof (edited_keep _ _ Hg) as Hk. change (tables (revalidate_lines c id w)) with (tables w) in *.
    split; rewrite ?Hdocs, ?Hcounter, ?Hlines, ?Hparts, ?Hstacks, ?Hxb, ?Hxp.
    + done.
    + by apply edited_documents.
    + by apply revalidated_lines.
    + apply (exceptions_added (d_documents w) _ _ _ _ _ _ (applied_document c doc)); try done.
      * intros i (line & box & shift & _ & Hbox & _ & <- & _ & _ & _ & _ & _ & _ & <- & _)%Hboxes.
        by apply (list_elem_of_fmap_2 (fun box => (b_id box, b_disassembledAt box))).
      * by apply filter_fst.
      * by apply map_each.
    + apply (exceptions_added (d_documents w) _ _ _ _ _ _ (applied_document c doc)); try done.
      * intros i (line & pallet & _ & Hpallet & <- & _ & _ & _ & _ & <- & _)%Hpallets.
        by apply (list_elem_of_fmap_2 (fun pallet => (pl_id pallet, pl_disassembledAt pallet))).
      * by apply filter_fst.
      * by apply map_each.
Qed.

Lemma handled_in_order c request w : in_order w -> in_order (handle c request w).2.
Proof.
  intros Hw. pose proof (io_lines _ Hw) as Hl.
  destruct request as [reasonId comment|id reasonId comment|id|id ssccs|id|id lineId|id]; cbn [handle].
  - by apply created_in_order.
  - unfold updateDocument. destruct (find_document id w) as [doc|] eqn:Hf; [|done].
    destruct (match reasonId with Some (Some _) => _ | _ => _ end); [done|].
    destruct (bool_decide _) eqn:Hs; [|done]. apply bool_decide_eq_true in Hs.
    eapply draft_in_order; try done. unfold set_document. cbn. by rewrite Hs.
  - unfold cancelDocument. destruct (find_document id w) as [doc|] eqn:Hf; [|done].
    destruct (bool_decide _) eqn:Hs; [|done]. apply bool_decide_eq_true in Hs.
    by eapply draft_in_order.
  - unfold addLines. destruct (find_document id w) as [doc|] eqn:Hf; [|done].
    destruct (bool_decide _) eqn:Hs; [|done]. apply bool_decide_eq_true in Hs. cbn [negb].
    destruct (new_lines _ _ _ _ _ _) as [|x l] eqn:En; [done|].
    destruct (insert_lines _ w) as [w'|] eqn:Ei; [|done]. apply inserted_lines in Ei as (-> & H1 & H2).
    assert (Hx : Forall line_ok (x :: l)) by (rewrite <- En; apply new_lines_ok).
    cbn [snd]. eapply draft_in_order; try done; cbn; [by rewrite Hs|]. split; [done | done|].
    apply Forall_app. split; [apply Hl | done].
  - apply (edited_in_order w _ (fun doc => if jseqb (dd_id doc) id then imported c doc else doc)); try done.
    intros doc _. by destruct (jseqb (dd_id doc) id).
  - unfold removeLine. destruct (find_document id w) as [doc|] eqn:Hf; [|done].
    destruct (bool_decide _) eqn:Hs; [|done]. apply bool_decide_eq_true in Hs. cbn [negb]. cbv zeta.
    destruct (negb _); [done|]. cbn [snd]. eapply draft_in_order; try done; cbn; [by rewrite Hs|].
    eapply sublist_lines; [apply filter_bool_sublist | done].
  - by apply applied_in_order.
Qed.

(** ** Every history *)

Lemma unused_in_order w : unused w -> in_order w.
Proof.
  intros [Hd Hl Hc Hb Hp H1 H2]. split; rewrite ?Hd, ?Hl, ?Hc, ?Hb, ?Hp.
  - done.
  - split; cbn; constructor.
  - split; cbn; constructor.
  - split; [constructor | constructor | exact H1].
  - split; [constructor | constructor | exact H2].
Qed.

Lemma elsewhere_in_order w w' : in_order w -> elsewhere w w' -> in_order w'.
Proof.
  intros [Hc Hd Hl Hb Hp] [Ed El Ec Eb Ep Nb Np Hparts Hstacks].
  assert (Hk : keep_applied (d_documents w) (d_documents w)) by (intros doc ? ?; by exists doc).
  split; rewrite ?Ed, ?El, ?Ec, ?Eb, ?Ep; try done; by eapply exceptions_keep.
Qed.

Lemma happens_in_order w w' : in_order w -> happens w w' -> in_order w'.
Proof. intros Hw H. revert Hw. destruct H; intros Hw; [by apply handled_in_order | by eapply elsewhere_in_order]. Qed.

Lemma history_in_order w0 w : in_order w0 -> rtc happens w0 w -> in_order w.
Proof. intros Hw H. revert Hw. induction H as [|w0 w1 w2 H _ IH]; intros Hw; [done|]. by apply IH, (happens_in_order w0). Qed.

(** An import is a series of requests. *)
Lemma added_chunks calls id chunks i w : rtc happens w (add_chunks calls id chunks i w).2.
Proof.
  revert i w. induction chunks as [|chunk chunks IH]; intros i w; cbn [add_chunks]; [apply rtc_refl|].
  destruct (addLines (calls i) id chunk w) as [[e|] w'] eqn:E; cbn [snd].
  - eapply rtc_l; [apply (Asked (calls i) (AddLines id chunk))|]. cbn [handle]. rewrite E. apply rtc_refl.
  - eapply rtc_l; [apply (Asked (calls i) (AddLines id chunk))|]. cbn [handle]. rewrite E. apply IH.
Qed.

Lemma importLines_happens calls c id tokens w : rtc happens w (importLines calls c id tokens w).2.
Proof.
  unfold importLines. pose proof (added_chunks calls id (slices 500 tokens) 0 w) as H.
  destruct (add_chunks _ _ _ _ _) as [[e|] w']; cbn [snd] in *; [exact H|].
  eapply rtc_r; [exact H | apply (Asked c (MarkImport id))].
Qed.

(** Every token is in a slice. *)
Lemma slices_whole n tokens : (0 < n)%nat -> concat (slices n tokens) = tokens.
Proof.
  intros Hn. unfold slices.
  assert (H : forall k, concat ((fun i => take n (drop (n * i) tokens)) <$> seq 0 k) = take (n * k) tokens).
  { induction k as [|k IH]; [by rewrite Nat.mul_0_r|]. rewrite seq_S, fmap_app, concat_app, IH. cbn.
    rewrite app_nil_r, Nat.mul_succ_r. rewrite <- (take_take_drop tokens (n * k) n). done. }
  rewrite H. apply take_ge. pose proof (Nat.div_mod (length tokens + n - 1) n ltac:(lia)).
  pose proof (Nat.mod_upper_bound (length tokens + n - 1) n ltac:(lia)). lia.
Qed.

(** C11: Whatever was asked for, and whatever happened in between: documents have their
    own numbers, those counted so far; a document has an instant of application exactly
    when it was applied; a line of a document names a SSCC that no other line of it
    names, and a box or a pallet; a box or a pallet is taken apart by one document at
    most, which was applied, and stays apart. *)
Theorem documents_in_order w0 w : unused w0 -> rtc happens w0 w -> in_order w.
Proof. intros Hw%unused_in_order. by apply history_in_order. Qed.

(** ** Documents that were applied or cancelled *)

(** All of a document but where its lines came from and when it was last touched. *)
Definition settled (doc : DocumentRow)
  : jsstr * jsstr * DocumentStatus * option jsstr * option jsstr * jsstr * option Z * option jsstr * option Z :=
  (dd_id doc, dd_docNo doc, dd_status doc, dd_reasonId doc, dd_comment doc, dd_createdByUserId doc,
   dd_appliedAt doc, dd_appliedByUserId doc, dd_cancelledAt doc).

(** What a document took apart. *)
Definition taken (id : jsstr) (w : Warehouse) : list ExceptionRow * list ExceptionRow :=
  let of_document row := jseqb (ex_documentId row) id in
  (List.filter of_document (d_boxExceptions w), List.filter of_document (d_palletExceptions w)).

Record final (doc : DocumentRow) (w w' : Warehouse) : Prop := {
  fi_document : exists doc', doc' ∈ d_documents w' /\ settled doc' = settled doc;
  fi_lines : lines_of (dd_id doc) w' = lines_of (dd_id doc) w;
  fi_taken : taken (dd_id doc) w' = taken (dd_id doc) w
}.

Lemma final_refl doc w : doc ∈ d_documents w -> final doc w w.
Proof. intros H. split; [by exists doc | done | done]. Qed.

(** An edit of another document, or of what is not settled. *)
Lemma final_edit doc w w' id f :
  d_documents w' = map (fun doc => if jseqb (dd_id doc) id then f doc else doc) (d_documents w) ->
  doc ∈ d_documents w -> jseqb (dd_id doc) id = false \/ settled (f doc) = settled doc ->
  lines_of (dd_id doc) w' = lines_of (dd_id doc) w -> taken (dd_id doc) w' = taken (dd_id doc) w -> final doc w w'.
Proof.
  intros Hd H Hg Hl Ht. split; [|done|done]. exists (if jseqb (dd_id doc) id then f doc else doc). rewrite Hd.
  split; [by apply (list_elem_of_fmap_2 (fun doc => if jseqb (dd_id doc) id then f doc else doc))|].
  destruct (jseqb (dd_id doc) id); [by destruct Hg | done].
Qed.

(** A draft is another document. *)
Lemma draft_other w id draft doc :
  in_order w -> find_document id w = Some draft -> dd_status draft = Draft ->
  doc ∈ d_documents w -> dd_status doc <> Draft -> jseqb (dd_id doc) id = false.
Proof.
  intros Hw Hf Hs Hdoc Hn. destruct (found_draft _ _ _ Hw Hf) as (Hid & Hin & _).
  apply jseqb_neq. intros E. destruct Hn. rewrite <- Hs. f_equal.
  apply (key_unique dd_id _ _ _ (do_ids _ _ (io_documents _ Hw)) Hdoc Hin). congruence.
Qed.

Lemma jseqb_other a b x : jseqb a b = false -> jseqb x a = true -> jseqb x b = false.
Proof. intros H%jseqb_neq E%jseqb_eq. apply jseqb_neq. congruence. Qed.

Lemma new_lines_of c id m n existing parsed other :
  jseqb other id = false -> List.filter (fun line => jseqb (dl_documentId line) other) (new_lines c id m n existing parsed) = [].
Proof.
  intros Ho. assert (E : jseqb id other = false) by (apply jseqb_neq; apply jseqb_neq in Ho; congruence).
  revert n existing. induction parsed as [|[input [s|]] parsed IH]; intros n existing; cbn [new_lines]; [done| |].
  - destruct (is_in existing s); cbn; by rewrite E, IH.
  - cbn. by rewrite E, IH.
Qed.

Lemma revalidated_other c id w other :
  jseqb other id = false -> lines_of other (revalidate_lines c id w) = lines_of other w.
Proof.
  intros Ho. unfold lines_of at 1. cbn [d_lines revalidate_lines with_doc_lines]. set (m := resolveLineTargets _ _).
  apply filter_kept.
  - intros line. destruct (jseqb (dl_documentId line) id); [|done]. unfold revalidate. by destruct (dl_sscc line).
  - intros line E%jseqb_eq. by rewrite E, Ho.
Qed.

Lemma exceptions_other {A} (row : A -> ExceptionRow) id other old l :
  (forall x, ex_documentId (row x) = id) -> jseqb other id = false ->
  List.filter (fun r => jseqb (ex_documentId r) other) (old ++ map row l)
  = List.filter (fun r => jseqb (ex_documentId r) other) old.
Proof.
  intros Hid Ho. rewrite List.filter_app, (filter_nothing _ (map row l)); [by rewrite app_nil_r|].
  intros r (x & <- & _)%list_elem_of_In%List.in_map_iff. rewrite Hid. apply jseqb_neq. apply jseqb_neq in Ho. congruence.
Qed.

Lemma applied_final c id doc w :
  in_order w -> doc ∈ d_documents w -> dd_status doc <> Draft -> final doc w (applyDocument c id w).2.
Proof.
  intros Hw Hdoc Hn. destruct (applyDocument c id w) as [[e|] w'] eqn:Ea; cbn [snd].
  - apply applied_not in Ea as [->|(-> & draft & Hf & Hs)]; [by apply final_refl|].
    pose proof (draft_other _ _ _ _ Hw Hf Hs Hdoc Hn) as E.
    split; [by exists doc | by apply revalidated_other | done].
  - apply applied_done in Ea as (draft & name & Hf & Hs & _ & _ & Ha).
    pose proof (draft_other _ _ _ _ Hw Hf Hs Hdoc Hn) as E.
    apply apply_lines_writes in Ha as [_ _ Hdocs Hlines _ Hxb Hxp].
    eapply final_edit; [exact Hdocs | done | by left | |].
    + unfold lines_of at 1. rewrite Hlines. by apply revalidated_other.
    + unfold taken. rewrite Hxb, Hxp. by rewrite !(exceptions_other _ id) by done.
Qed.

Lemma handled_final c request doc w :
  in_order w -> doc ∈ d_documents w -> dd_status doc <> Draft -> final doc w (handle c request w).2.
Proof.
  intros Hw Hdoc Hn. pose proof (final_refl doc w Hdoc) as Hsame.
  destruct request as [reasonId comment|id reasonId comment|id|id ssccs|id|id lineId|id]; cbn [handle].
  - unfold createDocument, insert_document. destruct (match reasonId with Some _ => _ | None => _ end); [done|].
    destruct (_ <? _); [done|]. cbv zeta. destruct (existsb _ _); [done|]. split; [|done|done].
    exists doc. split; [|done]. apply elem_of_app. by left.
  - unfold updateDocument. destruct (find_document id w) as [draft|] eqn:Hf; [|done].
    destruct (match reasonId with Some (Some _) => _ | _ => _ end); [done|].
    destruct (bool_decide _) eqn:Hs; [|done]. apply bool_decide_eq_true in Hs.
    pose proof (draft_other _ _ _ _ Hw Hf Hs Hdoc Hn) as E. eapply final_edit; [reflexivity | done | by left | done | done].
  - unfold cancelDocument. destruct (find_document id w) as [draft|] eqn:Hf; [|done].
    destruct (bool_decide _) eqn:Hs; [|done]. apply bool_decide_eq_true in Hs.
    pose proof (draft_other _ _ _ _ Hw Hf Hs Hdoc Hn) as E. eapply final_edit; [reflexivity | done | by left | done | done].
  - unfold addLines. destruct (find_document id w) as [draft|] eqn:Hf; [|done].
    destruct (bool_decide _) eqn:Hs; [|done]. apply bool_decide_eq_true in Hs. cbn [negb]. cbv zeta.
    pose proof (draft_other _ _ _ _ Hw Hf Hs Hdoc Hn) as E.
    destruct (new_lines _ _ _ _ _ _) as [|x l] eqn:En; [done|]. rewrite <- En.
    destruct (insert_lines _ w) as [w'|] eqn:Ei; [|done]. apply inserted_lines in Ei as (-> & _ & _).
    eapply final_edit; [reflexivity | done | by left | | done].
    unfold lines_of. cbn. rewrite List.filter_app, new_lines_of by done. by rewrite app_nil_r.
  - eapply final_edit; [reflexivity | done | by right | done | done].
  - unfold removeLine. destruct (find_document id w) as [draft|] eqn:Hf; [|done].
    destruct (bool_decide _) eqn:Hs; [|done]. apply bool_decide_eq_true in Hs. cbn [negb]. cbv zeta.
    pose proof (draft_other _ _ _ _ Hw Hf Hs Hdoc Hn) as E. destruct (negb _); [done|].
    eapply final_edit; [reflexivity | done | by left | | done]. unfold lines_of. cbn. rewrite filter_filter.
    apply filter_same. intros line _. destruct (jseqb (dl_documentId line) (dd_id doc)) eqn:El; [|by rewrite andb_false_r].
    by rewrite (jseqb_other _ _ _ E El).
  - by apply applied_final.
Qed.

Lemma happens_final doc w w' :
  in_order w -> doc ∈ d_documents w -> dd_status doc <> Draft -> happens w w' -> final doc w w'.
Proof.
  intros Hw Hdoc Hn H. revert Hw Hdoc. destruct H as [c request w|w w' [Ed El _ Eb Ep _ _ _ _]]; intros Hw Hdoc.
  - by apply handled_final.
  - split; [exists doc; by rewrite Ed | unfold lines_of; by rewrite El | unfold taken; by rewrite Eb, Ep].
Qed.

(** C12: A document that was applied or cancelled is final: whatever is asked for after,
    and whatever happens in between, its number, status, reason, comment, people and
    instants stay, its lines stay, and so does the record of what it took apart.  (The
    origin of its lines and the instant of its last change are not among these: the end
    of an import writes them whatever the status.) *)
Theorem documents_final w0 w w' doc :
  unused w0 -> rtc happens w0 w -> doc ∈ d_documents w -> dd_status doc <> Draft -> rtc happens w w' -> final doc w w'.
Proof.
  intros Hw%unused_in_order H0 Hdoc Hn H. pose proof (history_in_order _ _ Hw H0) as Hi. clear H0 Hw.
  revert doc Hdoc Hn Hi. induction H as [|w w1 w2 H _ IH]; intros doc Hdoc Hn Hi; [by apply final_refl|].
  destruct (happens_final _ _ _ Hi Hdoc Hn H) as [(doc1 & Hdoc1 & E) Hl Ht].
  assert (Ei : dd_id doc1 = dd_id doc) by (unfold settled in E; congruence).
  destruct (IH doc1 Hdoc1) as [(doc2 & Hdoc2 & E2) Hl2 Ht2]; [unfold settled in E; congruence | by eapply happens_in_order|].
  rewrite Ei in *. split; [exists doc2 | |]; split_and?; congruence.
Qed.
