(* ===== verification/DisaggregationSample.v ===== *)
(** * A document over a small warehouse

    Two boxes of [BoxSample], the second on a pallet; a document lists the first box and
    the pallet.  Witnesses of the theorems on documents. *)

From stdpp Require Import base list strings gmap relations.
From Stdlib Require Import ZArith Lia.
From S2P Require Import Prelude Gs1 KioskApi KioskRegistry KioskRefresh BoxFacts PickupOrders BoxCursor BoxFeed.
From S2P Require Import BoxVersions BoxBatch BoxMirror BoxSample KioskRefreshDone Disaggregation DisaggregationFeed.
From S2P Require Import DisaggregationEffect DisaggregationApply DisaggregationLife.

#[local] Open Scope Z_scope.

Module Papers.
Definition pallet_sscc : jsstr := js "046012345670000039".

Definition pallet : PalletRow :=
  {| pl_id := js "p1"; pl_shiftId := None; pl_terminalId := None;
     pl_productId := Some (js "44444444-4444-4444-8444-444444444444"); pl_sscc := Some pallet_sscc;
     pl_closedAt := Some 55; pl_closureReceivedAt := Some 62; pl_disassembledAt := None |}.

Definition standing (box : BoxRow) : BoxRow :=
  {| b_id := b_id box; b_shiftId := b_shiftId box; b_terminalId := b_terminalId box; b_deviceBoxId := b_deviceBoxId box; b_sscc := b_sscc box;
     b_closedAt := b_closedAt box; b_closureReceivedAt := b_closureReceivedAt box;
     b_disassembledAt := b_disassembledAt box; b_palletId := Some (js "p1");
     b_registryVersion := b_registryVersion box; b_updatedAt := b_updatedAt box |}.

Definition box_1 : BoxRow := Sample.box Sample.box_id_1 sample_sscc_1 None 1 60.
Definition box_2 : BoxRow := standing (Sample.box Sample.box_id_2 sample_sscc_2 None 1 61).

Definition stock : Stock :=
  let db := Sample.tables [box_1; box_2] in
  {| products := products db; shifts := shifts db; pallets := [pallet]; boxes := boxes db;
     boxItems := boxItems db; codeRegistry := codeRegistry db; codes := codes db |}.

Definition start : Warehouse :=
  {| d_feed := {| fs_version := Some 1; fs_stock := stock |}; d_documents := []; d_lines := [];
     d_reasons := [(js "r1", js "Damaged")]; d_counter := 0; d_orders := []; d_boxExceptions := [];
     d_palletExceptions := []; d_audit := [] |}.

(** Identifiers are given by their number. *)
Definition call (prefix : jsstr) (now : Z) : Call :=
  {| c_now := now; c_clock := now; c_date := now; c_uuid := fun i => prefix ++ js_of_Z (Z.of_nat i); c_userId := js "u1" |}.

Definition document : jsstr := js "d0".
Definition create : DocumentRequest := Create (Some (js "r1")) (Some (js "wet")).
Definition lines : DocumentRequest := AddLines document [sample_sscc_1; js "(00)" ++ pallet_sscc].

Definition drafted : Warehouse := (handle (call (js "d") 100) create start).2.
Definition ready : Warehouse := (handle (call (js "l") 110) lines drafted).2.
Definition done_ : outcome := applyDocument (call (js "x") 120) document ready.

Lemma answered_well : done_ = (None, done_.2).
Proof. vm_compute. reflexivity. Qed.

Lemma start_unused : unused start.
Proof. split; try reflexivity; refine (bool_decide_unpack _ _); vm_compute; exact I. Qed.

Lemma ready_happens : rtc happens start ready.
Proof.
  eapply rtc_l; [apply (Asked (call (js "d") 100) create)|]. eapply rtc_l; [apply (Asked (call (js "l") 110) lines)|].
  apply rtc_refl.
Qed.

Lemma ready_tables : tables ready = stock.
Proof. vm_compute. reflexivity. Qed.

Lemma stock_constraints : constraints stock.
Proof.
  split; try (refine (bool_decide_unpack _ _); vm_compute; exact I).
  intros b [->|[->|H]%elem_of_cons]%elem_of_cons; [| |by apply elem_of_nil in H]; eexists; vm_compute; reflexivity.
Qed.

Lemma stock_homes : homes stock.
Proof.
  split; try (refine (bool_decide_unpack _ _); vm_compute; exact I).
  assert (H : forallb (fun item => forallb (fun other => negb (jseqb (bi_codeHash item) (bi_codeHash other))
      || jseqb (bi_boxId item) (bi_boxId other)) (boxItems stock)) (boxItems stock) = true) by (vm_compute; reflexivity).
  intros item other Hi Ho _ _ E. rewrite forallb_forall in H. specialize (H item ltac:(by apply list_elem_of_In)).
  rewrite forallb_forall in H. specialize (H other ltac:(by apply list_elem_of_In)).
  rewrite E, jseqb_refl in H. by apply jseqb_eq in H.
Qed.

Lemma ready_stamped : stamped (d_feed ready).
Proof.
  change (d_feed ready) with (d_feed start). split; [split; apply Z.leb_le; vm_compute; reflexivity|].
  intros b [->|[->|H]%elem_of_cons]%elem_of_cons; [| |by apply elem_of_nil in H]; split; apply Z.leb_le; vm_compute; reflexivity.
Qed.
End Papers.

Import Papers.

(** ** Witnesses *)

Lemma requests_announce_witness :
  stamped (d_feed ready) /\ commit (d_feed ready) (d_feed done_.2) /\ current (d_feed done_.2) = 3.
Proof.
  split; [exact ready_stamped|]. split; [|vm_compute; reflexivity].
  apply (requests_announce (call (js "x") 120) (Apply document) ready ready_stamped);
    rewrite ready_tables; [exact stock_constraints | exact stock_homes].
Defined.

(** The first box is gone, the second is told of again. *)
Lemma applied_registry_witness :
  registry (tables done_.2) !! sample_sscc_1 = None
  /\ registry (tables done_.2) !! sample_sscc_2 = retouched 120 <$> registry stock !! sample_sscc_2
  /\ is_Some (registry stock !! sample_sscc_2).
Proof.
  assert (H : forall s, registry (tables done_.2) !! s = registry_applied (call (js "x") 120) document ready s)
    by (intros s; apply (applied_registry (call (js "x") 120) document ready done_.2 s);
        [rewrite ready_tables; exact stock_constraints | rewrite ready_tables; exact stock_homes | exact answered_well]).
  split; [rewrite H; vm_compute; reflexivity|]. split; [rewrite H; vm_compute; reflexivity|].
  refine (bool_decide_unpack _ _). vm_compute. exact I.
Defined.

Lemma applied_targets_fit_witness :
  document_boxes document ready = [Sample.box_id_1] /\ document_pallets document ready = [js "p1"]
  /\ parts (tables done_.2) = [(Sample.box_id_1, Some 120); (Sample.box_id_2, None)]
  /\ stacks (tables done_.2) = [(js "p1", Some 120)]
  /\ locked_box ready Sample.box_id_1 = false.
Proof.
  destruct (applied_targets_fit (call (js "x") 120) document ready done_.2 answered_well) as (Hp & Hs & Hb & _).
  split; [vm_compute; reflexivity|]. split; [vm_compute; reflexivity|].
  split; [rewrite Hp; vm_compute; reflexivity|]. split; [rewrite Hs; vm_compute; reflexivity|].
  destruct (Hb Sample.box_id_1) as (line & box & shift & H).
  - refine (bool_decide_unpack _ _). vm_compute. exact I.
  - apply H.
Defined.

Lemma documents_in_order_witness :
  length (d_boxExceptions done_.2) = 1%nat /\ length (d_palletExceptions done_.2) = 1%nat /\ in_order done_.2.
Proof.
  split; [vm_compute; reflexivity|]. split; [vm_compute; reflexivity|].
  apply (documents_in_order start done_.2 start_unused).
  eapply rtc_r; [exact ready_happens | apply (Asked (call (js "x") 120) (Apply document))].
Defined.

(** The applied document, after somebody asks to cancel it, to change it and to import
    into it. *)
Definition asked_again : Warehouse :=
  (handle (call (js "z") 150) (MarkImport document)
     (handle (call (js "y") 140) (Update document (Some None) None)
        (handle (call (js "x") 130) (Cancel document) done_.2).2).2).2.

Lemma documents_final_witness :
  exists doc, doc ∈ d_documents done_.2 /\ dd_status doc = Applied /\ final doc done_.2 asked_again.
Proof.
  assert (H : exists doc, d_documents done_.2 = [doc] /\ dd_status doc = Applied) by (eexists; vm_compute; split; reflexivity).
  destruct H as (doc & Hdocs & Hs). exists doc.
  assert (Hdoc : doc ∈ d_documents done_.2) by (rewrite Hdocs; left). split; [exact Hdoc|]. split; [exact Hs|].
  apply (documents_final start done_.2 asked_again doc start_unused); [|exact Hdoc|rewrite Hs; discriminate|].
  - eapply rtc_r; [exact ready_happens | apply (Asked (call (js "x") 120) (Apply document))].
  - do 3 (eapply rtc_l; [apply Asked|]). apply rtc_refl.
Defined.
