(* ===== verification/ScanOwnership.v ===== *)
(** * Who owns a scanned code

    [apps/api/src/modules/station-scans/conflict-resolution.ts] and the part of
    [StationScansService.applyBatch] (station-scans.service.ts) that decides it: the
    earliest scan of a code owns it, whatever the order in which the stations deliver
    their batches, and every scan that does not is put on record.

    A batch takes the tenant's registry lock and the lock of every code it names before
    it reads a row, so the statements of one batch are a function of the rows it found.
    A [Map] that is only read is a function; [new Date(s)] is the time value of the
    instant. *)

From stdpp Require Import base list strings gmap.
From Stdlib Require Import ZArith Lia.
From S2P Require Import Prelude KioskApi BoxFacts.

#[local] Open Scope Z_scope.

(** ** Scans *)

(** A scan as it competes for its code: where, by which terminal, when. *)
Record Side := { sd_shiftId : jsstr; sd_terminalId : option jsstr; sd_scannedAt : Z }.

#[export] Instance Side_eq_dec : EqDecision Side.
Proof. solve_decision. Defined.

Record ClaimItem := { cl_codeHash : jsstr; cl_side : Side }.

#[export] Instance ClaimItem_eq_dec : EqDecision ClaimItem.
Proof. solve_decision. Defined.

Record ConflictRow := { cf_codeHash : jsstr; cf_losing : Side; cf_winning : Side }.

Definition sameScan (a b : Side) : bool :=
  jseqb (sd_shiftId a) (sd_shiftId b) && bool_decide (sd_terminalId a = sd_terminalId b)
  && (sd_scannedAt a =? sd_scannedAt b).

(** ** One claim for each code of a batch *)

(** [groups.get(item.codeHash)], pushed to or set. *)
Fixpoint add_to_group (item : ClaimItem) (groups : list (jsstr * list ClaimItem))
  : list (jsstr * list ClaimItem) :=
  match groups with
  | [] => [(cl_codeHash item, [item])]
  | (hash, group) :: rest =>
      if jseqb hash (cl_codeHash item) then (hash, group ++ [item]) :: rest
      else (hash, group) :: add_to_group item rest
  end.

Definition group_claims (items : list ClaimItem) : list (jsstr * list ClaimItem) :=
  fold_left (fun groups item => add_to_group item groups) items [].

(** The earliest scan of a group, the first of them on a tie. *)
Definition earliest (group : list ClaimItem) : option ClaimItem :=
  match group with
  | [] => None
  | first :: _ =>
      Some (fold_left (fun winner candidate =>
        if sd_scannedAt (cl_side candidate) <? sd_scannedAt (cl_side winner) then candidate else winner)
        group first)
  end.

Definition collapseClaims (items : list ClaimItem) : list ClaimItem :=
  omap (fun group => earliest group.2) (group_claims items).

(** ** Conflicts *)

Definition conflictsAgainstOwner (items : list ClaimItem) (ownerByHash : jsstr -> option Side)
  : list ConflictRow :=
  omap (fun item =>
    owner ← ownerByHash (cl_codeHash item);
    if sameScan (cl_side item) owner then None
    else Some {| cf_codeHash := cl_codeHash item; cf_losing := cl_side item; cf_winning := owner |}) items.

Definition displacedIncumbents (claims : list ClaimItem) (wonHashes : list jsstr)
    (priorByHash : jsstr -> option Side) : list ConflictRow :=
  omap (fun claim =>
    if negb (is_in wonHashes (cl_codeHash claim)) then None
    else
      prior ← priorByHash (cl_codeHash claim);
      if sameScan prior (cl_side claim) then None
      else Some {| cf_codeHash := cl_codeHash claim; cf_losing := prior; cf_winning := cl_side claim |}) claims.

(** ** The rows of [code_registry] *)

Definition rows_of (hash : jsstr) (registry : list CodeRegistryRow) : list CodeRegistryRow :=
  List.filter (fun row => jseqb (cr_codeHash row) hash) registry.

Definition row_side (row : CodeRegistryRow) : Side :=
  {| sd_shiftId := cr_shiftId row; sd_terminalId := cr_terminalId row; sd_scannedAt := cr_scannedAt row |}.

Definition owner_of (registry : list CodeRegistryRow) (hash : jsstr) : option Side :=
  row_side <$> head (rows_of hash registry).

Definition claim_row (now : Z) (claim : ClaimItem) : CodeRegistryRow :=
  {| cr_codeHash := cl_codeHash claim; cr_shiftId := sd_shiftId (cl_side claim);
     cr_terminalId := sd_terminalId (cl_side claim); cr_scannedAt := sd_scannedAt (cl_side claim);
     cr_updatedAt := now |}.

(** [insert ... on conflict do nothing returning code_hash]. *)
Fixpoint insert_claims (now : Z) (claims : list ClaimItem) (registry : list CodeRegistryRow)
  : list jsstr * list CodeRegistryRow :=
  match claims with
  | [] => ([], registry)
  | claim :: rest =>
      match rows_of (cl_codeHash claim) registry with
      | [] =>
          let '(fresh, registry') := insert_claims now rest (registry ++ [claim_row now claim]) in
          (cl_codeHash claim :: fresh, registry')
      | _ => insert_claims now rest registry
      end
  end.

(** [setWhere: excluded.scanned_at < code_registry.scanned_at]. *)
Definition takes (claim : ClaimItem) (row : CodeRegistryRow) : bool :=
  jseqb (cr_codeHash row) (cl_codeHash claim) && (sd_scannedAt (cl_side claim) <? cr_scannedAt row).

(** [insert ... on conflict do update ... returning code_hash]. *)
Fixpoint upsert_claims (now : Z) (claims : list ClaimItem) (registry : list CodeRegistryRow)
  : list jsstr * list CodeRegistryRow :=
  match claims with
  | [] => ([], registry)
  | claim :: rest =>
      let written := match rows_of (cl_codeHash claim) registry with
        | [] => registry ++ [claim_row now claim]
        | _ => (fun row => if takes claim row then claim_row now claim else row) <$> registry
        end in
      let '(won, registry') := upsert_claims now rest written in
      (match rows_of (cl_codeHash claim) registry with
       | [] => [cl_codeHash claim]
       | _ => if existsb (takes claim) registry then [cl_codeHash claim] else []
       end ++ won, registry')
  end.

(** ** The claims of a batch *)

Record ClaimOutcome := {
  cm_hashes : list jsstr; cm_registry : list CodeRegistryRow; cm_ownerByHash : jsstr -> option Side;
  cm_ownLosses : list ConflictRow; cm_displaced : list ConflictRow
}.

Definition claim_codes (now : Z) (claimItems : list ClaimItem) (registry : list CodeRegistryRow)
  : ClaimOutcome :=
  let hashes := js_sort js_leb (remove_dups (map cl_codeHash claimItems)) in
  let claimsByHash hash := List.find (fun claim => jseqb (cl_codeHash claim) hash) (collapseClaims claimItems) in
  let claims := omap claimsByHash hashes in
  let '(freshHashes, placed) := insert_claims now claims registry in
  let priorByHash hash := if is_in hashes hash then owner_of placed hash else None in
  let '(won, registry') := upsert_claims now claims placed in
  let wonHashes := freshHashes ++ won in
  let ownerByHash hash :=
    if negb (is_in hashes hash) then None
    else if is_in wonHashes hash then cl_side <$> claimsByHash hash else priorByHash hash in
  {| cm_hashes := hashes; cm_registry := registry'; cm_ownerByHash := ownerByHash;
     cm_ownLosses := conflictsAgainstOwner claimItems ownerByHash;
     cm_displaced := displacedIncumbents claims wonHashes priorByHash |}.

(** ** The ledger *)

(** A row of [code_conflicts]; [cc_conflict] its two scans. *)
Record CodeConflictRow := { cc_conflict : ConflictRow; cc_detectedAt : Z }.

Record Ledger := { lg_registry : list CodeRegistryRow; lg_conflicts : list CodeConflictRow }.

(** What the station is told of its own losses. *)
Record BatchConflictDto := {
  bc_codeHash : jsstr; bc_winningTerminalId : option jsstr; bc_winningScannedAt : jsstr
}.

Definition echo (c : ConflictRow) : BatchConflictDto :=
  {| bc_codeHash := cf_codeHash c; bc_winningTerminalId := sd_terminalId (cf_winning c);
     bc_winningScannedAt := toISOString (sd_scannedAt (cf_winning c)) |}.

(** The claims of a batch, at the instant of its transaction. *)
Definition claim_batch (now : Z) (claimItems : list ClaimItem) (ledger : Ledger)
  : list BatchConflictDto * Ledger :=
  match claimItems with
  | [] => ([], ledger)
  | _ =>
      let out := claim_codes now claimItems (lg_registry ledger) in
      let allConflicts := cm_ownLosses out ++ cm_displaced out in
      (map echo (cm_ownLosses out),
       {| lg_registry := cm_registry out;
          lg_conflicts := lg_conflicts ledger
            ++ map (fun c => {| cc_conflict := c; cc_detectedAt := now |}) allConflicts |})
  end.

(** The scan gives its code back, if it still holds it. *)
Definition releaseCode (hash : jsstr) (scan : Side) (ledger : Ledger) : Ledger :=
  {| lg_registry := List.filter (fun row =>
       negb (jseqb (cr_codeHash row) hash && sameScan (row_side row) scan)) (lg_registry ledger);
     lg_conflicts := lg_conflicts ledger |}.

(** What a tenant's stations do about codes, in the order of the lock. *)
Inductive CodeEvent :=
| Claims (now : Z) (claimItems : list ClaimItem)
| Releases (hash : jsstr) (scan : Side).

Definition code_step (ledger : Ledger) (event : CodeEvent) : Ledger :=
  match event with
  | Claims now claimItems => (claim_batch now claimItems ledger).2
  | Releases hash scan => releaseCode hash scan ledger
  end.

Definition code_run (events : list CodeEvent) (ledger : Ledger) : Ledger := fold_left code_step events ledger.

(** ** What a batch still holds after its own exceptions *)

Inductive ExceptionKind := Undo | Clear | Disassemble | Reprint.

#[export] Instance ExceptionKind_eq_dec : EqDecision ExceptionKind.
Proof. solve_decision. Defined.

Record BatchScan := { bs_claim : ClaimItem; bs_boxId : option jsstr }.

Record ReleaseFact := {
  rf_kind : ExceptionKind; rf_boxId : jsstr; rf_shiftId : jsstr; rf_codeHash : option jsstr;
  rf_targetScannedAt : option Z; rf_occurredAt : Z
}.

Definition bs_hash (scan : BatchScan) : jsstr := cl_codeHash (bs_claim scan).
Definition bs_at (scan : BatchScan) : Z := sd_scannedAt (cl_side (bs_claim scan)).

Definition releases (exception : ReleaseFact) (scan : BatchScan) : bool :=
  if negb (bool_decide (bs_boxId scan = Some (rf_boxId exception))) then false
  else if negb (jseqb (rf_shiftId exception) (sd_shiftId (cl_side (bs_claim scan)))) then false
  else match rf_kind exception with
  | Disassemble => true
  | Clear => bs_at scan <=? rf_occurredAt exception
  | Undo => bool_decide (rf_codeHash exception = Some (bs_hash scan))
            && bool_decide (rf_targetScannedAt exception = Some (bs_at scan))
  | Reprint => false
  end.

(** [heldScans(scans, exceptions).get(hash)]; no entry is []. *)
Definition heldScans (scans : list BatchScan) (exceptions : list ReleaseFact) (hash : jsstr) : list BatchScan :=
  js_sort (fun a b => bs_at a <=? bs_at b)
    (List.filter (fun scan => negb (existsb (fun exception => releases exception scan) exceptions)
       && jseqb (bs_hash scan) hash) scans).

(** ** The reference: scans one at a time *)

(** A scan is held against the owner so far. *)
Definition hold (owner : option Side) (scan : Side) : option Side :=
  match owner with
  | None => Some scan
  | Some held => Some (if sd_scannedAt scan <? sd_scannedAt held then scan else held)
  end.

Definition hold_all (owner : option Side) (scans : list Side) : option Side := fold_left hold scans owner.

(** The scans of one code. *)
Definition sides (hash : jsstr) (items : list ClaimItem) : list Side :=
  cl_side <$> List.filter (fun item => jseqb (cl_codeHash item) hash) items.

Lemma sameScan_eq a b : sameScan a b = true <-> a = b.
Proof.
  unfold sameScan. rewrite !andb_true_iff, jseqb_eq, bool_decide_eq_true, Z.eqb_eq.
  destruct a, b; cbn. split; [by intros [[-> ->] ->] | by intros [= -> -> ->]].
Qed.

Lemma sameScan_refl a : sameScan a a = true.
Proof. by apply sameScan_eq. Qed.

Lemma sides_app hash items more : sides hash (items ++ more) = sides hash items ++ sides hash more.
Proof. unfold sides. by rewrite List.filter_app, fmap_app. Qed.

Lemma elem_of_sides hash items side :
  side ∈ sides hash items <-> {| cl_codeHash := hash; cl_side := side |} ∈ items.
Proof.
  unfold sides. rewrite list_elem_of_fmap. split.
  - intros (item & -> & [Hin E%jseqb_eq]%elem_of_filter_bool). rewrite <- E. by destruct item.
  - intros Hin. eexists. split; [|apply elem_of_filter_bool; split; [exact Hin|]]; [done|]. by apply jseqb_eq.
Qed.

Lemma settle_app owner scans more : hold_all owner (scans ++ more) = hold_all (hold_all owner scans) more.
Proof. apply fold_left_app. Qed.

Lemma hold_some owner scan : is_Some (hold owner scan).
Proof. destruct owner; by eexists. Qed.

(** Holding the earliest of some scans is holding each of them. *)
Lemma settle_once owner scans :
  hold_all owner scans = match hold_all None scans with None => owner | Some scan => hold owner scan end.
Proof.
  induction scans as [|x l IH] using rev_ind; [done|]. rewrite !settle_app. cbn. rewrite IH.
  destruct (hold_all None l) as [s|]; [|done]. destruct owner as [o|]; [|done]. cbn. f_equal.
  destruct (Z.ltb_spec (sd_scannedAt s) (sd_scannedAt o)), (Z.ltb_spec (sd_scannedAt x) (sd_scannedAt s));
    destruct (Z.ltb_spec (sd_scannedAt x) (sd_scannedAt o)); try done; try lia; destruct (Z.ltb_spec (sd_scannedAt s) (sd_scannedAt o)); done || lia.
Qed.

(** What comes out was there, and nothing that was there is earlier. *)
Lemma settle_earliest owner scans held :
  hold_all owner scans = Some held ->
  (owner = Some held \/ held ∈ scans)
  /\ (forall scan, scan ∈ scans -> sd_scannedAt held <= sd_scannedAt scan)
  /\ (forall o, owner = Some o -> sd_scannedAt held <= sd_scannedAt o).
Proof.
  revert held. induction scans as [|x l IH] using rev_ind; intros held.
  - cbn. intros ->. split; [by left|]. split; [by intros ? ?%elem_of_nil|]. intros o [= ->]. lia.
  - rewrite settle_app. cbn. destruct (hold_all owner l) as [s|] eqn:E.
    + cbn. intros [= <-]. destruct (IH s eq_refl) as (Hw & Hs & Ho).
      assert (Hx : sd_scannedAt (if sd_scannedAt x <? sd_scannedAt s then x else s) <= sd_scannedAt s
        /\ sd_scannedAt (if sd_scannedAt x <? sd_scannedAt s then x else s) <= sd_scannedAt x)
        by (destruct (Z.ltb_spec (sd_scannedAt x) (sd_scannedAt s)); lia).
      split; [|split].
      * destruct (_ <? _); [right | destruct Hw; [by left | right]]; set_solver.
      * intros scan [Hin| ->%list_elem_of_singleton]%elem_of_app; [specialize (Hs _ Hin)|]; lia.
      * intros o Ho'. specialize (Ho o Ho'). lia.
    + intros [= <-]. assert (owner = None /\ l = []) as [-> ->].
      { rewrite settle_once in E. destruct owner as [o|].
        - by destruct (hold_all None l).
        - destruct l as [|y l _] using rev_ind; [done|]. rewrite settle_app in E.
          change (hold_all (hold_all None l) [y]) with (hold (hold_all None l) y) in E.
            destruct (hold_some (hold_all None l) y) as [? E']. by rewrite E' in E. }
      split; [right; set_solver|]. split; [|done]. intros scan [->|H%elem_of_nil]%elem_of_cons; [lia | done].
Qed.

(** ** One claim for each code *)

Lemma earliest_from group winner :
  Some (cl_side (fold_left (fun winner candidate =>
    if sd_scannedAt (cl_side candidate) <? sd_scannedAt (cl_side winner) then candidate else winner) group winner))
  = hold_all (Some (cl_side winner)) (cl_side <$> group).
Proof.
  revert winner. induction group as [|c l IH]; intros winner; [done|]. cbn. rewrite IH. f_equal. cbn.
  by destruct (_ <? _).
Qed.

Lemma earliest_settle group : cl_side <$> earliest group = hold_all None (cl_side <$> group).
Proof.
  destruct group as [|first rest]; [done|]. unfold earliest. cbn [fold_left fmap list_fmap option_fmap option_map].
  rewrite Z.ltb_irrefl. apply earliest_from.
Qed.

Lemma earliest_elem group claim : earliest group = Some claim -> claim ∈ group.
Proof.
  destruct group as [|first rest]; [done|]. unfold earliest. intros [= <-].
  assert (H : forall l w, w ∈ first :: rest -> l ⊆ first :: rest ->
    fold_left (fun winner candidate => if sd_scannedAt (cl_side candidate) <? sd_scannedAt (cl_side winner)
      then candidate else winner) l w ∈ first :: rest).
  { induction l as [|x l IH]; intros w Hw Hl; [done|].
    apply IH; [destruct (_ <? _); [apply Hl; left | done] | intros y Hy; apply Hl; by right]. }
  apply (H (first :: rest) first); [left | done].
Qed.

(** The group of a code. *)
Definition group_of (hash : jsstr) (groups : list (jsstr * list ClaimItem)) : list ClaimItem :=
  match List.find (fun group => jseqb group.1 hash) groups with Some group => group.2 | None => [] end.

Lemma add_to_group_of hash item groups :
  group_of hash (add_to_group item groups)
  = group_of hash groups ++ List.filter (fun item => jseqb (cl_codeHash item) hash) [item].
Proof.
  unfold group_of. cbn [List.filter]. induction groups as [|[h g] rest IH]; cbn.
  - by destruct (jseqb (cl_codeHash item) hash).
  - destruct (jseqb h (cl_codeHash item)) eqn:E; cbn.
    + apply jseqb_eq in E as ->. destruct (jseqb (cl_codeHash item) hash); [done | by rewrite app_nil_r].
    + destruct (jseqb h hash) eqn:E'; [|exact IH]. apply jseqb_eq in E' as ->. apply jseqb_neq in E.
      destruct (jseqb (cl_codeHash item) hash) eqn:E''; [by apply jseqb_eq in E'' | by rewrite app_nil_r].
Qed.

Lemma group_claims_of hash items :
  group_of hash (group_claims items) = List.filter (fun item => jseqb (cl_codeHash item) hash) items.
Proof.
  unfold group_claims. induction items as [|item l IH] using rev_ind; [done|].
  rewrite fold_left_app. cbn [fold_left]. by rewrite add_to_group_of, IH, List.filter_app.
Qed.

(** The groups are not empty, and hold the scans of their code. *)
Definition groups_ok (groups : list (jsstr * list ClaimItem)) : Prop :=
  Forall (fun group => group.2 <> [] /\ Forall (fun item => cl_codeHash item = group.1) group.2) groups.

Lemma group_claims_ok items : groups_ok (group_claims items).
Proof.
  unfold group_claims. induction items as [|item l IH] using rev_ind; [constructor|].
  rewrite fold_left_app. cbn [fold_left]. revert IH. generalize (fold_left (fun groups item => add_to_group item groups) l []).
  intros groups. unfold groups_ok. induction 1 as [|[h g] rest [Hne Hg] Hrest IH]; cbn.
  - repeat constructor. done.
  - destruct (jseqb h (cl_codeHash item)) eqn:E; constructor; try done. apply jseqb_eq in E as ->. cbn.
    split; [by destruct g|]. apply Forall_app. by repeat constructor.
Qed.

Lemma find_omap_earliest hash groups :
  groups_ok groups ->
  List.find (fun claim => jseqb (cl_codeHash claim) hash) (omap (fun group => earliest group.2) groups)
  = earliest (group_of hash groups).
Proof.
  unfold group_of. induction 1 as [|[h g] rest [Hne Hg] Hrest IH]; [done|]. cbn [omap list_omap fst snd List.find] in *.
  destruct (earliest g) as [claim|] eqn:E; [|by destruct g].
  assert (Hh : cl_codeHash claim = h) by (by eapply Forall_forall in Hg; [|by apply earliest_elem]).
  cbn [List.find]. rewrite Hh. by destruct (jseqb h hash).
Qed.

(** The claim of a code is the earliest of its scans. *)
Lemma collapse_find hash items :
  cl_side <$> List.find (fun claim => jseqb (cl_codeHash claim) hash) (collapseClaims items)
  = hold_all None (sides hash items).
Proof.
  unfold collapseClaims. rewrite find_omap_earliest by apply group_claims_ok.
  by rewrite group_claims_of, earliest_settle.
Qed.

(** ** The statements, one code at a time *)

Definition unique_codes (registry : list CodeRegistryRow) : Prop := NoDup (cr_codeHash <$> registry).

Definition claims_of (hash : jsstr) (claims : list ClaimItem) : list ClaimItem :=
  List.filter (fun claim => jseqb (cl_codeHash claim) hash) claims.

Lemma rows_of_code hash registry row : row ∈ rows_of hash registry <-> row ∈ registry /\ cr_codeHash row = hash.
Proof. unfold rows_of. by rewrite elem_of_filter_bool, jseqb_eq. Qed.

Lemma rows_of_one hash registry :
  unique_codes registry -> rows_of hash registry = [] \/ exists row, rows_of hash registry = [row].
Proof. intros H. apply (filter_key cr_codeHash _ _ hash); [done|]. by intros row ?%jseqb_eq. Qed.

Lemma rows_of_none hash registry : rows_of hash registry = [] <-> hash ∉ cr_codeHash <$> registry.
Proof.
  split.
  - intros H (row & -> & Hin)%list_elem_of_fmap.
    assert (Hr : row ∈ rows_of (cr_codeHash row) registry) by (by apply rows_of_code). rewrite H in Hr.
    by apply elem_of_nil in Hr.
  - intros H. apply filter_nothing. intros row Hin. apply jseqb_neq. intros <-. by apply H, list_elem_of_fmap_2.
Qed.

Lemma rows_of_app hash registry more : rows_of hash (registry ++ more) = rows_of hash registry ++ rows_of hash more.
Proof. apply List.filter_app. Qed.

Lemma claims_of_none hash claims : claims_of hash claims = [] <-> hash ∉ cl_codeHash <$> claims.
Proof.
  split.
  - intros H (claim & -> & Hin)%list_elem_of_fmap.
    assert (Hr : claim ∈ claims_of (cl_codeHash claim) claims)
      by (apply elem_of_filter_bool; split; [done | by apply jseqb_eq]).
    rewrite H in Hr. by apply elem_of_nil in Hr.
  - intros H. apply filter_nothing. intros claim Hin. apply jseqb_neq. intros <-. by apply H, list_elem_of_fmap_2.
Qed.

Lemma unique_codes_snoc now claim registry :
  unique_codes registry -> rows_of (cl_codeHash claim) registry = [] -> unique_codes (registry ++ [claim_row now claim]).
Proof.
  unfold unique_codes. intros Hu Hn%rows_of_none. rewrite fmap_app, NoDup_app. split; [done|].
  split; [|apply NoDup_singleton]. by intros h Hh ->%list_elem_of_singleton.
Qed.

(** The row a new claim leaves for a code, and for the others. *)
Lemma rows_of_snoc now claim registry hash :
  rows_of hash (registry ++ [claim_row now claim])
  = rows_of hash registry ++ (if jseqb (cl_codeHash claim) hash then [claim_row now claim] else []).
Proof. rewrite rows_of_app. f_equal. Qed.

Lemma insert_claims_spec now claims registry fresh registry' :
  insert_claims now claims registry = (fresh, registry') -> NoDup (cl_codeHash <$> claims) ->
  unique_codes registry ->
  unique_codes registry' /\ forall hash,
    rows_of hash registry' = match rows_of hash registry with
                             | [] => claim_row now <$> claims_of hash claims | rows => rows end
    /\ (hash ∈ fresh <-> rows_of hash registry = [] /\ hash ∈ cl_codeHash <$> claims).
Proof.
  revert registry fresh. induction claims as [|claim rest IH]; intros registry fresh; cbn [insert_claims].
  { intros [= <- <-] _ Hu. split; [done|]. intros hash. split; [by destruct (rows_of hash registry)|].
    split; [by intros ?%elem_of_nil | by intros [_ ?%elem_of_nil]]. }
  rewrite fmap_cons. intros H [Hk Hnd]%NoDup_cons Hu. apply claims_of_none in Hk as Hko.
  destruct (rows_of (cl_codeHash claim) registry) as [|row rows] eqn:Er.
  - destruct (insert_claims now rest _) as [fresh' r'] eqn:E. injection H as <- <-.
    destruct (IH _ _ E Hnd (unique_codes_snoc now _ _ Hu Er)) as [Hu' Hr]. split; [done|]. intros hash.
    destruct (Hr hash) as [-> Hf]. rewrite rows_of_snoc in Hf |- *. rewrite !elem_of_cons, Hf. cbn [claims_of List.filter].
    fold (claims_of hash rest). destruct (jseqb (cl_codeHash claim) hash) eqn:Eh.
    + apply jseqb_eq in Eh as <-. rewrite Er, Hko. cbn [app]. split; [done|]. naive_solver.
    + apply jseqb_neq in Eh. rewrite app_nil_r. split; [done|]. naive_solver.
  - destruct (IH _ _ H Hnd Hu) as [Hu' Hr]. split; [done|]. intros hash. destruct (Hr hash) as [-> Hf].
    rewrite elem_of_cons, Hf. cbn [claims_of List.filter]. fold (claims_of hash rest).
    destruct (jseqb (cl_codeHash claim) hash) eqn:Eh.
    + apply jseqb_eq in Eh as <-. rewrite Er. split; [done|]. naive_solver.
    + apply jseqb_neq in Eh. split; [done|]. naive_solver.
Qed.

(** What the update leaves of a row. *)
Definition retaken (now : Z) (claim : ClaimItem) (row : CodeRegistryRow) : CodeRegistryRow :=
  if takes claim row then claim_row now claim else row.

Lemma retaken_code now claim row : cr_codeHash (retaken now claim row) = cr_codeHash row.
Proof. unfold retaken, takes. destruct (jseqb _ _) eqn:E; [|done]. apply jseqb_eq in E. by destruct (_ <? _). Qed.

Lemma rows_of_retaken now claim registry hash :
  rows_of hash (retaken now claim <$> registry) = retaken now claim <$> rows_of hash registry.
Proof. apply filter_rewritten. intros row. by rewrite retaken_code. Qed.

Lemma retaken_others now claim registry hash :
  cl_codeHash claim <> hash -> retaken now claim <$> rows_of hash registry = rows_of hash registry.
Proof.
  intros Hne. rewrite <- (list_fmap_id (rows_of hash registry)) at 2. apply list_fmap_ext. intros i row Hi%list_elem_of_lookup_2.
  apply rows_of_code in Hi as [_ Hh]. unfold retaken, takes. destruct (jseqb (cr_codeHash row) _) eqn:E; [|done].
  apply jseqb_eq in E. congruence.
Qed.

Definition taken_from (claim : ClaimItem) (rows : list CodeRegistryRow) : Prop :=
  rows = [] \/ exists row, row ∈ rows /\ takes claim row = true.

Lemma upsert_claims_spec now claims registry won registry' :
  upsert_claims now claims registry = (won, registry') -> NoDup (cl_codeHash <$> claims) ->
  unique_codes registry ->
  unique_codes registry' /\ forall hash,
    rows_of hash registry' = match rows_of hash registry, claims_of hash claims with
      | [], claims => claim_row now <$> claims
      | rows, [] => rows
      | rows, claim :: _ => retaken now claim <$> rows end
    /\ (hash ∈ won <-> exists claim, claim ∈ claims_of hash claims /\ taken_from claim (rows_of hash registry)).
Proof.
  revert registry won. induction claims as [|claim rest IH]; intros registry won; cbn [upsert_claims].
  { intros [= <- <-] _ Hu. split; [done|]. intros hash. split; [by destruct (rows_of hash registry)|].
    split; [by intros ?%elem_of_nil | by intros (? & ?%elem_of_nil & _)]. }
  rewrite fmap_cons. intros H [Hk Hnd]%NoDup_cons Hu. apply claims_of_none in Hk as Hko.
  destruct (upsert_claims now rest _) as [won' r'] eqn:E. injection H as <- <-.
  assert (Hw : forall hash, hash ∈ match rows_of (cl_codeHash claim) registry with
      | [] => [cl_codeHash claim] | _ => if existsb (takes claim) registry then [cl_codeHash claim] else [] end
    <-> hash = cl_codeHash claim /\ taken_from claim (rows_of hash registry)).
  { intros hash. unfold taken_from. destruct (rows_of (cl_codeHash claim) registry) as [|row rows] eqn:Er.
    - rewrite list_elem_of_singleton. naive_solver.
    - destruct (existsb (takes claim) registry) eqn:Ex.
      + rewrite list_elem_of_singleton. apply existsb_exists in Ex as (row' & Hin & Ht). split; [|by intros [-> _]].
        intros ->. split; [done|]. right. exists row'. split; [|done]. apply rows_of_code. split; [by apply list_elem_of_In|].
        apply andb_true_iff in Ht as [?%jseqb_eq _]. done.
      + split; [by intros ?%elem_of_nil|]. intros [-> [H|(row' & [Hin _]%rows_of_code & Ht)]]; [congruence|].
        assert (existsb (takes claim) registry = true) by (apply existsb_exists; exists row'; by rewrite <- list_elem_of_In).
        congruence. }
  assert (Hstep : exists written, upsert_claims now rest written = (won', r') /\ unique_codes written
    /\ forall hash, rows_of hash written = if jseqb (cl_codeHash claim) hash
      then match rows_of hash registry with [] => [claim_row now claim] | rows => retaken now claim <$> rows end
      else rows_of hash registry).
  { destruct (rows_of (cl_codeHash claim) registry) as [|row rows] eqn:Er; eexists; (split; [exact E|]).
    - split; [by apply unique_codes_snoc|]. intros hash. rewrite rows_of_snoc.
      destruct (jseqb _ hash) eqn:Eh; [|by rewrite app_nil_r]. apply jseqb_eq in Eh as <-. by rewrite Er.
    - fold (retaken now claim). split.
      + unfold unique_codes. rewrite <- list_fmap_compose.
        rewrite (list_fmap_ext _ cr_codeHash) by (intros ? row' _; apply retaken_code). exact Hu.
      + intros hash. rewrite rows_of_retaken. destruct (jseqb _ hash) eqn:Eh.
        * apply jseqb_eq in Eh as <-. by rewrite Er.
        * apply retaken_others. by apply jseqb_neq. }
  destruct Hstep as (written & Ew & Huw & Hrw). destruct (IH _ _ Ew Hnd Huw) as [Hu' Hr]. split; [done|].
  intros hash. destruct (Hr hash) as [-> Hf]. rewrite elem_of_app, Hw, Hf, Hrw. cbn [claims_of List.filter].
  fold (claims_of hash rest). destruct (jseqb (cl_codeHash claim) hash) eqn:Eh.
  - apply jseqb_eq in Eh as <-. rewrite Hko. split.
    + by destruct (rows_of (cl_codeHash claim) registry).
    + setoid_rewrite list_elem_of_singleton. setoid_rewrite elem_of_nil. naive_solver.
  - apply jseqb_neq in Eh. split; [done|]. naive_solver.
Qed.

(** ** The claims of a batch, one code at a time *)

Section Claims.
Context (items : list ClaimItem).
Abbreviation hashes := (js_sort js_leb (remove_dups (map cl_codeHash items))).
Abbreviation claimsByHash := (fun hash =>
  List.find (fun claim => jseqb (cl_codeHash claim) hash) (collapseClaims items)).

Lemma claim_found hash claim : claimsByHash hash = Some claim -> cl_codeHash claim = hash.
Proof. intros [_ H]%List.find_some. by apply jseqb_eq. Qed.

Lemma elem_of_hashes hash : hash ∈ hashes <-> sides hash items <> [].
Proof.
  rewrite elem_of_js_sort, elem_of_remove_dups. split.
  - intros (item & -> & Hin)%list_elem_of_fmap H.
    assert (Hs : cl_side item ∈ sides (cl_codeHash item) items) by (apply elem_of_sides; by destruct item).
    rewrite H in Hs. by apply elem_of_nil in Hs.
  - intros H. destruct (sides hash items) as [|s l] eqn:E; [done|].
    assert (Hs : s ∈ sides hash items) by (rewrite E; left). apply elem_of_sides in Hs.
    by apply (list_elem_of_fmap_2 cl_codeHash) in Hs.
Qed.

Lemma claim_of_hash hash : hash ∈ hashes <-> is_Some (claimsByHash hash).
Proof.
  rewrite elem_of_hashes. pose proof (collapse_find hash items) as H. cbn beta.
  destruct (sides hash items) as [|s l] eqn:E.
  - split; [done|]. intros [claim Hc]. by rewrite Hc in H.
  - split; [|done]. intros _. destruct (List.find _ _) as [claim|]; [by eexists|]. exfalso.
    rewrite settle_once in H. destruct l as [|y l _] using rev_ind; [done|].
    change (s :: l ++ [y]) with ((s :: l) ++ [y]) in H. rewrite settle_app in H.
    change (hold_all (hold_all None (s :: l)) [y]) with (hold (hold_all None (s :: l)) y) in H.
    by destruct (hold_some (hold_all None (s :: l)) y) as [? E']; rewrite E' in H.
Qed.

Lemma hashes_unique : NoDup hashes.
Proof. rewrite (js_sort_perm js_leb). apply NoDup_remove_dups. Qed.

Lemma claims_keys : cl_codeHash <$> omap claimsByHash hashes = hashes.
Proof.
  assert (H : forall hash, hash ∈ hashes -> is_Some (claimsByHash hash)) by (intros hash; apply claim_of_hash).
  revert H. generalize hashes. intros l. induction l as [|h l IH]; [done|]. intros H. cbn [omap list_omap].
  destruct (H h ltac:(by left)) as [claim Hc]. rewrite Hc, fmap_cons. f_equal; [by apply claim_found|].
  apply IH. intros h' Hh'. apply H. by right.
Qed.

Lemma claims_of_hash hash :
  claims_of hash (omap claimsByHash hashes) = match claimsByHash hash with Some claim => [claim] | None => [] end.
Proof.
  destruct (claimsByHash hash) as [claim|] eqn:Ec.
  - assert (Hin : claim ∈ omap claimsByHash hashes).
    { apply list_elem_of_omap. exists hash. split; [by apply claim_of_hash; rewrite Ec | done]. }
    assert (Hnd : NoDup (cl_codeHash <$> omap claimsByHash hashes)) by (rewrite claims_keys; apply hashes_unique).
    apply claim_found in Ec as Hh.
    assert (Hf : claim ∈ claims_of hash (omap claimsByHash hashes))
      by (apply elem_of_filter_bool; split; [done | by apply jseqb_eq]).
    destruct (filter_key cl_codeHash (fun claim => jseqb (cl_codeHash claim) hash) _ hash Hnd) as [E|[other E]].
    { by intros x ?%jseqb_eq. }
    + unfold claims_of in Hf. rewrite E in Hf. by apply elem_of_nil in Hf.
    + unfold claims_of in *. rewrite E in *. by apply list_elem_of_singleton in Hf as ->.
  - apply claims_of_none. rewrite claims_keys. rewrite claim_of_hash, Ec. by intros [? ?].
Qed.

(** What a batch does for one code, whatever else it carries. *)
Record claimed (registry registry' : list CodeRegistryRow) (out : ClaimOutcome) (hash : jsstr) : Prop := {
  cd_owner : owner_of registry' hash = hold_all (owner_of registry hash) (sides hash items);
  cd_kept : owner_of registry' hash = owner_of registry hash -> rows_of hash registry' = rows_of hash registry;
  cd_known : cm_ownerByHash out hash = if is_in (cm_hashes out) hash then owner_of registry' hash else None;
  cd_displaced : forall losing winning,
    {| cf_codeHash := hash; cf_losing := losing; cf_winning := winning |} ∈ cm_displaced out
    <-> owner_of registry hash = Some losing /\ owner_of registry' hash = Some winning /\ losing <> winning
}.

Lemma elem_of_displaced claims wonHashes priorByHash hash losing winning :
  {| cf_codeHash := hash; cf_losing := losing; cf_winning := winning |}
    ∈ displacedIncumbents claims wonHashes priorByHash
  <-> {| cl_codeHash := hash; cl_side := winning |} ∈ claims /\ hash ∈ wonHashes
      /\ priorByHash hash = Some losing /\ losing <> winning.
Proof.
  unfold displacedIncumbents. rewrite list_elem_of_omap. split.
  - intros (claim & Hin & H). destruct (is_in wonHashes (cl_codeHash claim)) eqn:Ew; [|done]. cbn in H.
    destruct (priorByHash (cl_codeHash claim)) as [prior|] eqn:Ep; [|done]. cbn in H.
    destruct (sameScan prior (cl_side claim)) eqn:Es; [done|]. injection H as <- <- <-.
    split; [by destruct claim|]. split; [by apply elem_of_is_in|]. split; [done|]. intros E.
    apply sameScan_eq in E. congruence.
  - intros (Hin & Hw & Hp & Hne). eexists. split; [exact Hin|]. cbn [cl_codeHash cl_side].
    apply elem_of_is_in in Hw as ->. cbn. rewrite Hp. cbn. destruct (sameScan losing winning) eqn:Es; [|done].
    by apply sameScan_eq in Es.
Qed.

Lemma claim_listed hash winning :
  {| cl_codeHash := hash; cl_side := winning |} ∈ omap claimsByHash hashes
  <-> cl_side <$> claimsByHash hash = Some winning.
Proof.
  transitivity ({| cl_codeHash := hash; cl_side := winning |} ∈ claims_of hash (omap claimsByHash hashes)).
  - unfold claims_of. rewrite elem_of_filter_bool. cbn. rewrite jseqb_refl. naive_solver.
  - rewrite claims_of_hash. cbn beta. destruct (List.find _ _) as [claim|] eqn:E; [|rewrite elem_of_nil; naive_solver].
    rewrite list_elem_of_singleton. apply claim_found in E as Hh. cbn. split; [by intros <-|].
    intros [= <-]. by destruct claim; cbn in *; subst.
Qed.

Lemma claim_row_side now claim : row_side (claim_row now claim) = cl_side claim.
Proof. by destruct claim as [? []]. Qed.

Lemma takes_later claim row :
  cl_codeHash claim = cr_codeHash row ->
  takes claim row = (sd_scannedAt (cl_side claim) <? sd_scannedAt (row_side row)).
Proof. intros E. unfold takes. by rewrite E, jseqb_refl. Qed.

(** The row of a code before a claim, as it is locked, and after; does the claim win? *)
Inductive settled_rows (now : Z) (claim : ClaimItem)
  : list CodeRegistryRow -> list CodeRegistryRow -> list CodeRegistryRow -> Prop -> Prop :=
| New wins : wins -> settled_rows now claim [] [claim_row now claim] [claim_row now claim] wins
| Earlier row wins :
    sd_scannedAt (cl_side claim) < sd_scannedAt (row_side row) -> wins ->
    settled_rows now claim [row] [row] [claim_row now claim] wins
| Later row wins :
    sd_scannedAt (row_side row) <= sd_scannedAt (cl_side claim) -> ~ wins ->
    settled_rows now claim [row] [row] [row] wins.

Section Statements.
Context (now : Z) (registry placed registry' : list CodeRegistryRow) (fresh won : list jsstr).
Context (Hu : unique_codes registry).
Context (Ei : insert_claims now (omap claimsByHash hashes) registry = (fresh, placed)).
Context (Eu : upsert_claims now (omap claimsByHash hashes) placed = (won, registry')).

Lemma statements_unclaimed hash :
  claimsByHash hash = None ->
  rows_of hash placed = rows_of hash registry /\ rows_of hash registry' = rows_of hash registry.
Proof.
  intros Ec. assert (Hnd : NoDup (cl_codeHash <$> omap claimsByHash hashes)) by (rewrite claims_keys; apply hashes_unique).
  destruct (insert_claims_spec _ _ _ _ _ Ei Hnd Hu) as [Hup Hi].
  destruct (upsert_claims_spec _ _ _ _ _ Eu Hnd Hup) as [_ Hw].
  destruct (Hi hash) as [Hip _], (Hw hash) as [Hwp _]. rewrite claims_of_hash in Hip, Hwp. cbn beta in *.
  rewrite Ec in *. rewrite Hip in Hwp. destruct (rows_of hash registry); by rewrite Hip, Hwp.
Qed.

Lemma statements_claimed hash claim :
  claimsByHash hash = Some claim ->
  settled_rows now claim (rows_of hash registry) (rows_of hash placed) (rows_of hash registry')
    (hash ∈ fresh \/ hash ∈ won).
Proof.
  intros Ec. assert (Hnd : NoDup (cl_codeHash <$> omap claimsByHash hashes)) by (rewrite claims_keys; apply hashes_unique).
  destruct (insert_claims_spec _ _ _ _ _ Ei Hnd Hu) as [Hup Hi].
  destruct (upsert_claims_spec _ _ _ _ _ Eu Hnd Hup) as [_ Hw].
  destruct (Hi hash) as [Hip Hif], (Hw hash) as [Hwp Hwf]. rewrite claims_of_hash in Hip, Hwp, Hwf. cbn beta in *.
  apply claim_found in Ec as Hc. assert (Hh : hash ∈ hashes) by (apply claim_of_hash; by eexists).
  rewrite claims_keys in Hif. rewrite Ec in *. rewrite Hip in Hwp, Hwf.
  setoid_rewrite list_elem_of_singleton in Hwf. unfold taken_from in Hwf.
  destruct (rows_of_one hash registry Hu) as [Er|[row Er]]; rewrite Er in *.
  - cbn in Hip, Hwp. rewrite Hip, Hwp. unfold retaken at 1. rewrite takes_later by done.
    rewrite claim_row_side, Z.ltb_irrefl. apply New. left. by apply Hif.
  - cbn in Hip, Hwp. assert (Hr : cr_codeHash row = hash) by (apply (rows_of_code hash registry row); rewrite Er; left).
    assert (Ht : takes claim row = (sd_scannedAt (cl_side claim) <? sd_scannedAt (row_side row)))
      by (apply takes_later; congruence).
    rewrite Hip, Hwp. unfold retaken. rewrite Ht.
    destruct (Z.ltb_spec (sd_scannedAt (cl_side claim)) (sd_scannedAt (row_side row))).
    + apply Earlier; [done|]. right. apply Hwf. exists claim. split; [done|]. right. exists row.
      by rewrite list_elem_of_singleton.
    + apply Later; [done|]. intros [[? _]%Hif|(? & -> & [?|(? & ->%list_elem_of_singleton & ?)])%Hwf]; congruence.
Qed.
End Statements.

Lemma unknown_hash hash : claimsByHash hash = None -> is_in hashes hash = false.
Proof.
  intros Ec. destruct (is_in hashes hash) eqn:E; [|done]. apply elem_of_is_in, claim_of_hash in E as [claim E].
  congruence.
Qed.

(** The rows and the answers for one code, from those before. *)
Lemma claimed_code now registry hash :
  unique_codes registry ->
  let out := claim_codes now items registry in
  claimed registry (cm_registry out) out hash.
Proof.
  intros Hu. unfold claim_codes. destruct (insert_claims now _ registry) as [fresh placed] eqn:Ei.
  destruct (upsert_claims now _ placed) as [won registry'] eqn:Eu. cbn [cm_hashes cm_registry].
  pose proof (collapse_find hash items) as Hbest.
  pose proof (settle_once (owner_of registry hash) (sides hash items)) as Honce. rewrite <- Hbest in Honce.
  cbn beta in Honce. destruct (claimsByHash hash) as [claim|] eqn:Ec; cbn in Honce.
  - pose proof (statements_claimed _ _ _ _ _ _ Hu Ei Eu hash claim Ec) as Hs.
    assert (Hh : is_in hashes hash = true) by (apply elem_of_is_in, claim_of_hash; by eexists).
    assert (Hwon : is_in (fresh ++ won) hash = true <-> hash ∈ fresh \/ hash ∈ won) by by rewrite elem_of_is_in, elem_of_app.
    split; cbn [cm_ownerByHash cm_displaced cm_hashes];
      [..|intros losing winning; rewrite elem_of_displaced, claim_listed, elem_of_app; cbn beta];
      cbn beta in Ec; rewrite ?Hh, ?Ec, ?Honce; cbn [negb]; unfold owner_of;
      inversion Hs as [wins Hyes E1 E2 E3|row wins Hlt Hyes E1 E2 E3|row wins Hle Hno E1 E2 E3]; cbn;
      rewrite ?claim_row_side.
    all: try (cbn in Hlt; by rewrite (proj2 (Z.ltb_lt _ _) Hlt)).
    all: try (cbn in Hle; by rewrite (proj2 (Z.ltb_ge _ _) Hle)).
    all: try done.
    all: try (destruct (is_in (fresh ++ won) hash); naive_solver).
    all: try naive_solver.
    intros [= E]. rewrite E in Hlt. lia.
  - destruct (statements_unclaimed _ _ _ _ _ _ Hu Ei Eu hash Ec) as [Hp Hr].
    assert (Ho : owner_of registry' hash = owner_of registry hash) by (unfold owner_of; by rewrite Hr).
    split; cbn [cm_ownerByHash cm_displaced cm_hashes]; [by rewrite Honce | done | by rewrite unknown_hash|].
    intros losing winning. rewrite elem_of_displaced, claim_listed. cbn beta. rewrite Ec, Ho. naive_solver congruence.
Qed.

Lemma claim_codes_unique now registry :
  unique_codes registry -> unique_codes (cm_registry (claim_codes now items registry)).
Proof.
  intros Hu. unfold claim_codes. destruct (insert_claims now _ registry) as [fresh placed] eqn:Ei.
  destruct (upsert_claims now _ placed) as [won registry'] eqn:Eu. cbn [cm_registry].
  assert (Hnd : NoDup (cl_codeHash <$> omap claimsByHash hashes)) by (rewrite claims_keys; apply hashes_unique).
  destruct (insert_claims_spec _ _ _ _ _ Ei Hnd Hu) as [Hup _].
  by destruct (upsert_claims_spec _ _ _ _ _ Eu Hnd Hup).
Qed.
End Claims.

(** ** Every history *)

Definition event_items (event : CodeEvent) : list ClaimItem :=
  match event with Claims _ claimItems => claimItems | Releases _ _ => [] end.

(** All scans that were delivered. *)
Definition delivered (events : list CodeEvent) : list ClaimItem := event ← events; event_items event.

Lemma delivered_app events more : delivered (events ++ more) = delivered events ++ delivered more.
Proof. apply bind_app. Qed.

Lemma delivered_snoc events event : delivered (events ++ [event]) = delivered events ++ event_items event.
Proof. rewrite delivered_app. f_equal. apply app_nil_r. Qed.

Lemma code_run_snoc events event ledger :
  code_run (events ++ [event]) ledger = code_step (code_run events ledger) event.
Proof. apply fold_left_app. Qed.

(** The claims of a batch, empty ones included. *)
Lemma claim_batch_spec now items ledger :
  unique_codes (lg_registry ledger) ->
  let ledger' := (claim_batch now items ledger).2 in
  unique_codes (lg_registry ledger')
  /\ forall hash, owner_of (lg_registry ledger') hash = hold_all (owner_of (lg_registry ledger) hash) (sides hash items).
Proof.
  intros Hu. unfold claim_batch. destruct items as [|item rest]; [done|]. cbn [snd lg_registry].
  split; [by apply claim_codes_unique|]. intros hash. exact (cd_owner _ _ _ _ _ (claimed_code _ now _ hash Hu)).
Qed.

Lemma releaseCode_unique hash scan ledger :
  unique_codes (lg_registry ledger) -> unique_codes (lg_registry (releaseCode hash scan ledger)).
Proof. intros Hu. eapply sublist_NoDup; [exact Hu|]. apply (fmap_sublist cr_codeHash), filter_bool_sublist. Qed.

(** A release takes a code from the scan it names, and from no other. *)
Lemma releaseCode_owner hash scan ledger other :
  unique_codes (lg_registry ledger) ->
  owner_of (lg_registry (releaseCode hash scan ledger)) other
  = if jseqb hash other && bool_decide (owner_of (lg_registry ledger) other = Some scan) then None
    else owner_of (lg_registry ledger) other.
Proof.
  intros Hu. unfold owner_of.
  assert (E : rows_of other (lg_registry (releaseCode hash scan ledger))
    = List.filter (fun row => negb (jseqb hash other && sameScan (row_side row) scan)) (rows_of other (lg_registry ledger))).
  { unfold rows_of, releaseCode. cbn [lg_registry]. rewrite !filter_filter. apply filter_same. intros row _.
    destruct (jseqb (cr_codeHash row) other) eqn:Eo; [|by rewrite andb_false_r]. apply jseqb_eq in Eo as ->.
    rewrite andb_true_r. cbn [andb]. f_equal. f_equal. apply bool_decide_ext. naive_solver. }
  rewrite E. destruct (rows_of_one other _ Hu) as [->|[row ->]]; cbn.
  { by rewrite andb_comm. }
  destruct (jseqb hash other); [|done]. cbn.
  destruct (sameScan (row_side row) scan) eqn:Es; cbn.
  - apply sameScan_eq in Es as ->. by rewrite bool_decide_true.
  - rewrite bool_decide_false; [done|]. intros [= H]. apply sameScan_eq in H. congruence.
Qed.

Lemma code_run_unique events ledger :
  unique_codes (lg_registry ledger) -> unique_codes (lg_registry (code_run events ledger)).
Proof.
  intros Hu. induction events as [|event l IH] using rev_ind; [done|]. rewrite code_run_snoc.
  destruct event; [by apply claim_batch_spec | by apply releaseCode_unique].
Qed.

(** Before the first scan. *)
Definition blank : Ledger := {| lg_registry := []; lg_conflicts := [] |}.

Lemma blank_unique : unique_codes (lg_registry blank).
Proof. apply NoDup_nil_2. Qed.

Definition no_release (events : list CodeEvent) : bool :=
  forallb (fun event => match event with Claims _ _ => true | Releases _ _ => false end) events.

(** Batches of claims amount to their scans held one at a time, as they arrived. *)
Lemma owner_after events hash :
  no_release events = true ->
  owner_of (lg_registry (code_run events blank)) hash = hold_all None (sides hash (delivered events)).
Proof.
  induction events as [|event l IH] using rev_ind; [done|]. unfold no_release. rewrite forallb_app.
  intros [Hl He]%andb_true_iff. rewrite code_run_snoc, delivered_snoc, sides_app, settle_app, <- IH by done.
  destruct event as [now items|]; [|done]. apply claim_batch_spec, code_run_unique, blank_unique.
Qed.

(** No two different scans of a code at one instant. *)
Definition no_ties (items : list ClaimItem) : Prop :=
  forall a b, a ∈ items -> b ∈ items -> cl_codeHash a = cl_codeHash b ->
  sd_scannedAt (cl_side a) = sd_scannedAt (cl_side b) -> a = b.

(** The earliest of the scans of a code. *)
Definition first_scan (items : list ClaimItem) (hash : jsstr) (side : Side) : Prop :=
  {| cl_codeHash := hash; cl_side := side |} ∈ items
  /\ forall other, {| cl_codeHash := hash; cl_side := other |} ∈ items -> sd_scannedAt side <= sd_scannedAt other.

Lemma settle_first items hash side :
  no_ties items -> hold_all None (sides hash items) = Some side <-> first_scan items hash side.
Proof.
  intros Ht. assert (Hs : forall held, hold_all None (sides hash items) = Some held -> first_scan items hash held).
  { intros held H. destruct (settle_earliest _ _ _ H) as ([?|Hin] & Hle & _); [done|]. split.
    - by apply elem_of_sides.
    - intros other Ho. by apply Hle, elem_of_sides. }
  split; [apply Hs|]. intros [Hin Hle]. destruct (hold_all None (sides hash items)) as [held|] eqn:E.
  - destruct (Hs held eq_refl) as [Hin' Hle']. f_equal. specialize (Hle _ Hin'). specialize (Hle' _ Hin).
    assert (H : {| cl_codeHash := hash; cl_side := held |} = {| cl_codeHash := hash; cl_side := side |}); [|by injection H].
    apply Ht; [done..|]. cbn. lia.
  - apply elem_of_sides in Hin. destruct (sides hash items) as [|s l _] using rev_ind; [by apply elem_of_nil in Hin|].
    rewrite settle_app in E. change (hold_all (hold_all None l) [s]) with (hold (hold_all None l) s) in E.
    destruct (hold_some (hold_all None l) s) as [? E']. by rewrite E' in E.
Qed.

(** No scan of the list is earlier, and it is the first of those of its instant. *)
Definition earliest_of (scans : list Side) (side : Side) : bool :=
  forallb (fun other => sd_scannedAt side <=? sd_scannedAt other) scans
  && bool_decide (List.find (fun other => sd_scannedAt other =? sd_scannedAt side) scans = Some side).

Lemma find_snoc {A} (f : A -> bool) l x :
  List.find f (l ++ [x]) = match List.find f l with Some y => Some y | None => if f x then Some x else None end.
Proof. induction l as [|y l IH]; [done|]. cbn. by destruct (f y). Qed.

Lemma earliest_of_unique scans a b : earliest_of scans a = true -> earliest_of scans b = true -> a = b.
Proof.
  unfold earliest_of. intros [Ha Fa%bool_decide_eq_true]%andb_true_iff [Hb Fb%bool_decide_eq_true]%andb_true_iff.
  rewrite forallb_forall in Ha, Hb. destruct (find_some _ _ Fa) as [Ia _]. destruct (find_some _ _ Fb) as [Ib _].
  specialize (Ha _ Ib). specialize (Hb _ Ia). assert (E : sd_scannedAt a = sd_scannedAt b) by lia. rewrite E in Fa.
  congruence.
Qed.

(** Holding scans one at a time leaves the earliest, the first of a tie. *)
Lemma settle_earliest_of scans side : hold_all None scans = Some side <-> earliest_of scans side = true.
Proof.
  assert (Hone : forall held, hold_all None scans = Some held -> earliest_of scans held = true).
  { intros held Hh. unfold earliest_of. apply andb_true_iff. split.
    - apply forallb_forall. intros other Ho%list_elem_of_In. apply Z.leb_le.
      destruct (settle_earliest _ _ _ Hh) as (_ & Hle & _). by apply Hle.
    - apply bool_decide_eq_true. revert held Hh. induction scans as [|x l IH] using rev_ind; [done|]. intros held.
      rewrite settle_app. cbn. rewrite find_snoc. destruct (hold_all None l) as [s|] eqn:E; cbn.
      + destruct (settle_earliest _ _ _ E) as (_ & Hle & _). intros [= <-].
        destruct (Z.ltb_spec (sd_scannedAt x) (sd_scannedAt s)) as [Hlt|Hge]; [|by rewrite (IH s)].
        rewrite Z.eqb_refl. destruct (List.find _ l) as [y|] eqn:F; [|done].
        apply find_some in F as [Hy%list_elem_of_In Ey%Z.eqb_eq]. specialize (Hle _ Hy). lia.
      + intros [= <-]. rewrite Z.eqb_refl. destruct l as [|y l _] using rev_ind; [done|].
        rewrite settle_app in E. change (hold (hold_all None l) y = None) in E.
        by destruct (hold_some (hold_all None l) y) as [? E']; rewrite E' in E. }
  split; [apply Hone|]. intros H. destruct (hold_all None scans) as [held|] eqn:E.
  - f_equal. by apply (earliest_of_unique scans); [apply Hone|].
  - destruct scans as [|y l _] using rev_ind; [done|]. rewrite settle_app in E.
    change (hold (hold_all None l) y = None) in E. by destruct (hold_some (hold_all None l) y) as [? E']; rewrite E' in E.
Qed.

(** The scans of a code delivered since its owner last gave it back, as they arrived: a
    release counts when the scan it names is the earliest of them. *)
Definition tenure_step (hash : jsstr) (scans : list Side) (event : CodeEvent) : list Side :=
  match event with
  | Claims _ claimItems => scans ++ sides hash claimItems
  | Releases code scan => if jseqb code hash && earliest_of scans scan then [] else scans
  end.

Definition tenure (hash : jsstr) (events : list CodeEvent) : list Side := fold_left (tenure_step hash) events [].

Lemma owner_in_tenure events hash :
  owner_of (lg_registry (code_run events blank)) hash = hold_all None (tenure hash events).
Proof.
  assert (Hu : forall l, unique_codes (lg_registry (code_run l blank))) by (intros l; apply code_run_unique, blank_unique).
  induction events as [|event l IH] using rev_ind; [done|]. rewrite code_run_snoc. unfold tenure.
  rewrite fold_left_app. fold (tenure hash l). destruct event as [now items|code scan]; cbn [fold_left tenure_step code_step].
  - rewrite settle_app, <- IH. by apply claim_batch_spec.
  - rewrite releaseCode_owner, IH by done.
    assert (E : bool_decide (hold_all None (tenure hash l) = Some scan) = earliest_of (tenure hash l) scan); [|rewrite E].
    { apply eq_bool_prop_intro. rewrite bool_decide_spec, settle_earliest_of. by rewrite Is_true_true. }
    by destruct (_ && _).
Qed.

(** C6: After any history of batches and releases, from an empty ledger on, a code is owned by the earliest of its
    scans delivered since its owner last gave it back, the first delivered of a tie, and by
    none when there is no such scan; a release by a scan that does not own the code changes
    nothing.  In a history without releases in which no two different scans of a code are
    of one instant, the owner is the earliest of all scans delivered, so it depends neither on how
    the scans were cut into batches nor on the order in which the batches came nor on how
    often a scan was delivered. *)
Theorem earliest_scan_owns events hash side :
  (owner_of (lg_registry (code_run events blank)) hash = Some side
   <-> earliest_of (tenure hash events) side = true)
  /\ (no_release events = true -> no_ties (delivered events) ->
      (owner_of (lg_registry (code_run events blank)) hash = Some side
       <-> first_scan (delivered events) hash side)).
Proof.
  split; [rewrite owner_in_tenure; apply settle_earliest_of|].
  intros Hn Ht. rewrite owner_after by done. by apply settle_first.
Qed.

(** Two series of deliveries of the same scans leave the same owners. *)
Lemma deliveries_agree events events' hash :
  no_release events = true -> no_release events' = true -> no_ties (delivered events) ->
  (forall item, item ∈ delivered events <-> item ∈ delivered events') ->
  owner_of (lg_registry (code_run events blank)) hash = owner_of (lg_registry (code_run events' blank)) hash.
Proof.
  intros Hn Hn' Ht Hsame. rewrite !owner_after by done.
  assert (Ht' : no_ties (delivered events')) by (intros a b Ha%Hsame Hb%Hsame; by apply Ht).
  assert (E : forall side, hold_all None (sides hash (delivered events)) = Some side
    <-> hold_all None (sides hash (delivered events')) = Some side).
  { intros side. rewrite !settle_first by done. unfold first_scan. by setoid_rewrite Hsame. }
  destruct (hold_all None (sides hash (delivered events))) as [a|] eqn:Ea.
  - symmetry. by apply E.
  - destruct (hold_all None (sides hash (delivered events'))) as [b|] eqn:Eb; [|done].
    specialize (E b). naive_solver.
Qed.

(** ** The record of losses *)

Definition on_record (ledger : Ledger) (c : ConflictRow) : Prop := c ∈ cc_conflict <$> lg_conflicts ledger.

(** The scan owned its code until it was made to give it back. *)
Definition gave_back (events : list CodeEvent) (item : ClaimItem) : Prop :=
  exists before after, events = before ++ Releases (cl_codeHash item) (cl_side item) :: after
    /\ owner_of (lg_registry (code_run before blank)) (cl_codeHash item) = Some (cl_side item).

Lemma gave_back_more events more item : gave_back events item -> gave_back (events ++ more) item.
Proof. intros (before & after & -> & H). exists before, (after ++ more). by rewrite <- app_assoc. Qed.

(** Every scan of a code owns it, or is on record as having lost it, or gave it back. *)
Definition accounted (events : list CodeEvent) (ledger : Ledger) (item : ClaimItem) : Prop :=
  owner_of (lg_registry ledger) (cl_codeHash item) = Some (cl_side item)
  \/ (exists winning, on_record ledger
        {| cf_codeHash := cl_codeHash item; cf_losing := cl_side item; cf_winning := winning |})
  \/ gave_back events item.

(** What is on record is true: two delivered scans of the code, the winner no later. *)
Definition lawful_conflict (items : list ClaimItem) (c : ConflictRow) : Prop :=
  {| cl_codeHash := cf_codeHash c; cl_side := cf_losing c |} ∈ items
  /\ {| cl_codeHash := cf_codeHash c; cl_side := cf_winning c |} ∈ items
  /\ cf_losing c <> cf_winning c /\ sd_scannedAt (cf_winning c) <= sd_scannedAt (cf_losing c).

Record ledger_ok (events : list CodeEvent) (ledger : Ledger) : Prop := {
  lo_unique : unique_codes (lg_registry ledger);
  lo_owner : forall hash side, owner_of (lg_registry ledger) hash = Some side ->
    {| cl_codeHash := hash; cl_side := side |} ∈ delivered events;
  lo_accounted : forall item, item ∈ delivered events -> accounted events ledger item;
  lo_conflicts : forall c, on_record ledger c -> lawful_conflict (delivered events) c
}.

Lemma elem_of_ownLosses items ownerByHash c :
  c ∈ conflictsAgainstOwner items ownerByHash
  <-> {| cl_codeHash := cf_codeHash c; cl_side := cf_losing c |} ∈ items
      /\ ownerByHash (cf_codeHash c) = Some (cf_winning c) /\ cf_losing c <> cf_winning c.
Proof.
  unfold conflictsAgainstOwner. rewrite list_elem_of_omap. split.
  - intros (item & Hin & H). destruct (ownerByHash (cl_codeHash item)) as [owner|] eqn:Eo; [|done]. cbn in H.
    destruct (sameScan (cl_side item) owner) eqn:Es; [done|]. injection H as <-. cbn. split; [by destruct item|].
    split; [done|]. intros E. apply sameScan_eq in E. congruence.
  - intros (Hin & Ho & Hne). eexists. split; [exact Hin|]. cbn. rewrite Ho. cbn.
    destruct (sameScan _ _) eqn:Es; [by apply sameScan_eq in Es|]. by destruct c.
Qed.

Lemma claim_batch_record now items ledger c :
  on_record (claim_batch now items ledger).2 c <->
  on_record ledger c \/ items <> [] /\ c ∈ cm_ownLosses (claim_codes now items (lg_registry ledger))
    ++ cm_displaced (claim_codes now items (lg_registry ledger)).
Proof.
  unfold claim_batch, on_record. destruct items as [|item rest]; [naive_solver|]. cbn [snd lg_conflicts].
  rewrite fmap_app, elem_of_app. apply or_iff_compat_l.
  assert (E : forall l : list ConflictRow, cc_conflict <$> map (fun c => {| cc_conflict := c; cc_detectedAt := now |}) l = l).
  { induction l as [|x l IH]; [done|]. cbn. f_equal. exact IH. }
  rewrite E. naive_solver.
Qed.

Lemma settle_some owner scans : is_Some owner \/ scans <> [] -> is_Some (hold_all owner scans).
Proof.
  destruct scans as [|s l _] using rev_ind; [by intros [?|?]|]. intros _. rewrite settle_app. apply hold_some.
Qed.

Lemma lawful_more items more c : lawful_conflict items c -> lawful_conflict (items ++ more) c.
Proof. unfold lawful_conflict. rewrite !elem_of_app. naive_solver. Qed.

Section Batch.
Context (events : list CodeEvent) (ledger : Ledger) (Hok : ledger_ok events ledger).
Context (now : Z) (item0 : ClaimItem) (rest : list ClaimItem).
Abbreviation items := (item0 :: rest).
Abbreviation out := (claim_codes now items (lg_registry ledger)).
Abbreviation ledger' := (claim_batch now items ledger).2.
Abbreviation events' := (events ++ [Claims now items]).

Lemma batch_code hash : claimed items (lg_registry ledger) (cm_registry out) out hash.
Proof. apply claimed_code, Hok. Qed.

Lemma batch_owner hash side :
  owner_of (cm_registry out) hash = Some side -> {| cl_codeHash := hash; cl_side := side |} ∈ delivered events'.
Proof.
  rewrite (cd_owner _ _ _ _ _ (batch_code hash)), delivered_snoc, elem_of_app.
  intros ([H|H] & _ & _)%settle_earliest; [left; by apply Hok | right; by apply elem_of_sides].
Qed.

Lemma batch_known hash side :
  {| cl_codeHash := hash; cl_side := side |} ∈ items ->
  cm_ownerByHash out hash = owner_of (cm_registry out) hash /\ is_Some (owner_of (cm_registry out) hash).
Proof.
  intros Hin. assert (Hs : sides hash items <> []).
  { apply elem_of_sides in Hin. intros E. rewrite E in Hin. by apply elem_of_nil in Hin. }
  split.
  - rewrite (cd_known _ _ _ _ _ (batch_code hash)).
    assert (Hh : is_in (cm_hashes out) hash = true); [|by rewrite Hh].
    apply elem_of_is_in. replace (cm_hashes out) with (js_sort js_leb (remove_dups (map cl_codeHash items))).
    + by apply elem_of_hashes.
    + unfold claim_codes. destruct (insert_claims _ _ _). by destruct (upsert_claims _ _ _).
  - rewrite (cd_owner _ _ _ _ _ (batch_code hash)). apply settle_some. by right.
Qed.

Lemma batch_conflict c :
  c ∈ cm_ownLosses out ++ cm_displaced out -> lawful_conflict (delivered events') c.
Proof.
  destruct c as [hash losing winning]. pose proof (batch_code hash) as Hc. intros [H|H]%elem_of_app.
  - assert (El : cm_ownLosses out = conflictsAgainstOwner items (cm_ownerByHash out)).
    { unfold claim_codes. destruct (insert_claims _ _ _). by destruct (upsert_claims _ _ _). }
    rewrite El in H. apply elem_of_ownLosses in H as (Hin & Ho & Hne). cbn [cf_codeHash cf_losing cf_winning] in *.
    rewrite (proj1 (batch_known _ _ Hin)) in Ho. split; [rewrite delivered_snoc, elem_of_app; by right|].
    split; [by apply batch_owner|]. split; [done|]. cbn. rewrite (cd_owner _ _ _ _ _ Hc) in Ho.
    apply settle_earliest in Ho as (_ & Hle & _). by apply Hle, elem_of_sides.
  - apply (cd_displaced _ _ _ _ _ Hc) in H as (Hl & Hw & Hne). split; cbn.
    + rewrite delivered_snoc, elem_of_app. left. by apply Hok.
    + split; [by apply batch_owner|]. split; [done|]. rewrite (cd_owner _ _ _ _ _ Hc) in Hw.
      apply settle_earliest in Hw as (_ & _ & Hle). by apply Hle.
Qed.

(** A scan that does not own its code after the batch was put on record by it, if it
    owned the code before or came with the batch. *)
Lemma batch_loser item :
  owner_of (lg_registry ledger) (cl_codeHash item) = Some (cl_side item) \/ item ∈ items ->
  owner_of (cm_registry out) (cl_codeHash item) = Some (cl_side item)
  \/ exists winning, {| cf_codeHash := cl_codeHash item; cf_losing := cl_side item; cf_winning := winning |}
       ∈ cm_ownLosses out ++ cm_displaced out.
Proof.
  destruct item as [hash side]. cbn. pose proof (batch_code hash) as Hc. intros H.
  assert (Hs : is_Some (owner_of (cm_registry out) hash)).
  { destruct H as [Ho|Hin]; [|by eapply batch_known]. rewrite (cd_owner _ _ _ _ _ Hc). apply settle_some. left. by rewrite Ho. }
  destruct Hs as [w Hw]. destruct (decide (side = w)) as [->|Hne]; [by left|]. right. exists w.
  apply elem_of_app. destruct H as [Ho|Hin].
  - right. by apply (cd_displaced _ _ _ _ _ Hc).
  - left. assert (El : cm_ownLosses out = conflictsAgainstOwner items (cm_ownerByHash out)).
    { unfold claim_codes. destruct (insert_claims _ _ _). by destruct (upsert_claims _ _ _). }
    rewrite El. apply elem_of_ownLosses. cbn. split; [done|]. by rewrite (proj1 (batch_known _ _ Hin)).
Qed.

Lemma batch_ok : ledger_ok events' ledger'.
Proof.
  split.
  - apply claim_batch_spec, Hok.
  - apply batch_owner.
  - intros item Hin. rewrite delivered_snoc, elem_of_app in Hin.
    assert (Hcase : (owner_of (lg_registry ledger) (cl_codeHash item) = Some (cl_side item) \/ item ∈ items)
      \/ accounted events' ledger' item).
    { destruct Hin as [Hin|Hin]; [|by left; right]. destruct (lo_accounted _ _ Hok _ Hin) as [H|[[w H]|H]].
      - by left; left.
      - right; right; left. exists w. apply claim_batch_record. by left.
      - right; right; right. by apply gave_back_more. }
    destruct Hcase as [[H|[w H]]%batch_loser|H]; [by left | | done]. right; left. exists w.
    apply claim_batch_record. by right.
  - intros c [H|[_ H]]%claim_batch_record; [|by apply batch_conflict]. rewrite delivered_snoc.
    by apply lawful_more, Hok.
Qed.
End Batch.

Lemma release_ok events hash scan :
  let ledger := code_run events blank in
  ledger_ok events ledger -> ledger_ok (events ++ [Releases hash scan]) (releaseCode hash scan ledger).
Proof.
  intros ledger [Hu Ho Ha Hc]. split.
  - by apply releaseCode_unique.
  - intros other side. rewrite releaseCode_owner by done. rewrite delivered_snoc, app_nil_r.
    destruct (_ && _); [done | apply Ho].
  - intros item. rewrite delivered_snoc, app_nil_r. intros Hin. unfold accounted. rewrite releaseCode_owner by done.
    destruct (Ha _ Hin) as [H|[H|H]]; [|by right; left | right; right; by apply gave_back_more].
    destruct (jseqb hash _) eqn:E; [|by left]. destruct (bool_decide _) eqn:E'; [|by left].
    apply jseqb_eq in E as ->. apply bool_decide_eq_true in E'. rewrite H in E'. injection E' as <-. right; right.
    by exists events, [].
  - intros c H. rewrite delivered_snoc, app_nil_r. by apply Hc.
Qed.

(** C7: Over every history of batches and releases: a scan that was delivered owns its
    code, or is on record as having lost it, or owned it until it gave it back; the owner of a code is a
    delivered scan; and what is on record names two different delivered scans of the
    code, of which the winner is not the later. *)
Theorem scans_accounted events : ledger_ok events (code_run events blank).
Proof.
  induction events as [|event l IH] using rev_ind.
  - split; [apply blank_unique | done | by intros ? ?%elem_of_nil | by intros ? ?%elem_of_nil].
  - rewrite code_run_snoc. destruct event as [now [|item rest]|hash scan]; cbn [code_step].
    + destruct IH as [Hu Ho Ha Hc]. split; [done | | |]; rewrite ?delivered_snoc, ?app_nil_r; try done.
      intros item Hin. destruct (Ha _ Hin) as [H|[H|H]]; [by left | by right; left |].
      right; right. by apply gave_back_more.
    + by apply batch_ok.
    + by apply release_ok.
Qed.

(** ** What is still held *)

(** The scans of a code that no exception of the batch releases, earliest first. *)
Lemma heldScans_spec scans exceptions hash :
  Sorted.StronglySorted (fun a b => bs_at a <= bs_at b) (heldScans scans exceptions hash)
  /\ forall scan, scan ∈ heldScans scans exceptions hash <->
       scan ∈ scans /\ bs_hash scan = hash /\ forall exception, exception ∈ exceptions -> releases exception scan = false.
Proof.
  assert (Hcmp : Comparator (fun a b => bs_at a <=? bs_at b)) by (split; intros; rewrite !Z.leb_le in *; lia).
  split.
  - pose proof (js_sort_sorted (fun a b => bs_at a <=? bs_at b)
      (List.filter (fun scan => negb (existsb (fun exception => releases exception scan) exceptions)
         && jseqb (bs_hash scan) hash) scans)) as H.
    unfold heldScans. induction H as [|x l H IH Hx]; constructor; [done|]. eapply Forall_impl; [exact Hx|].
    intros y Hy. by apply Z.leb_le.
  - intros scan. unfold heldScans. rewrite elem_of_js_sort, elem_of_filter_bool, andb_true_iff, negb_true_iff, jseqb_eq.
    assert (E : existsb (fun exception => releases exception scan) exceptions = false
      <-> forall exception, exception ∈ exceptions -> releases exception scan = false).
    { rewrite <- not_true_iff_false, existsb_exists. setoid_rewrite <- list_elem_of_In. setoid_rewrite <- not_true_iff_false.
      naive_solver. }
    rewrite E. naive_solver.
Qed.

(** ** Two stations and one bottle *)

Lemma no_ties_check items :
  forallb (fun a => forallb (fun b => negb (jseqb (cl_codeHash a) (cl_codeHash b))
    || negb (sd_scannedAt (cl_side a) =? sd_scannedAt (cl_side b)) || bool_decide (a = b)) items) items = true ->
  no_ties items.
Proof.
  rewrite forallb_forall. intros H a b Ha%list_elem_of_In Hb%list_elem_of_In Eh Et. specialize (H a Ha).
  rewrite forallb_forall in H. specialize (H b Hb). apply jseqb_eq in Eh. apply Z.eqb_eq in Et.
  rewrite Eh, Et in H. by apply bool_decide_eq_true in H.
Qed.

Module Bottle.
Definition hash : jsstr := js "c0de".
Definition scan (terminal : jsstr) (at_ : Z) : ClaimItem :=
  {| cl_codeHash := hash; cl_side := {| sd_shiftId := js "s1"; sd_terminalId := Some terminal; sd_scannedAt := at_ |} |}.

(** The second station was offline: its earlier scan is delivered last. *)
Definition online : CodeEvent := Claims 100 [scan (js "a") 50; scan (js "a") 70].
Definition offline : CodeEvent := Claims 200 [scan (js "b") 60; scan (js "b") 40].
Definition events : list CodeEvent := [online; offline; online].

Definition sides_of (ledger : Ledger) : list (Z * Z * Z) :=
  map (fun c => (sd_scannedAt (cf_losing (cc_conflict c)), sd_scannedAt (cf_winning (cc_conflict c)), cc_detectedAt c))
    (lg_conflicts ledger).

(** Who lost to whom, and when it was found. *)
Example on_the_ledger :
  sides_of (code_run [online; offline] blank) = [(70, 50, 100); (60, 40, 200); (50, 40, 200)]
  /\ sides_of (code_run [offline; online] blank) = [(60, 40, 200); (50, 40, 100); (70, 40, 100)].
Proof. vm_compute. done. Qed.

(** What the first station is told of its own two scans. *)
Example told : map bc_winningScannedAt (claim_batch 100 [scan (js "a") 50; scan (js "a") 70] blank).1 = [toISOString 50].
Proof. vm_compute. reflexivity. Qed.

(** The owner gives the code back; the next scan owns it, though it is later. *)
Example released :
  owner_of (lg_registry (code_run (events ++ [Releases hash (cl_side (scan (js "b") 40)); Claims 300 [scan (js "a") 90]]) blank)) hash
  = Some (cl_side (scan (js "a") 90)).
Proof. vm_compute. reflexivity. Qed.

Lemma earliest_scan_owns_witness :
  (no_release events = true /\ no_ties (delivered events))
  /\ owner_of (lg_registry (code_run events blank)) hash = Some (cl_side (scan (js "b") 40))
  /\ owner_of (lg_registry (code_run (events ++ [Releases hash (cl_side (scan (js "b") 40)); Claims 300 [scan (js "a") 90]]) blank))
       hash = Some (cl_side (scan (js "a") 90)).
Proof.
  assert (Hn : no_release events = true) by reflexivity.
  assert (Ht : no_ties (delivered events)) by (apply no_ties_check; vm_compute; reflexivity).
  split; [by split|]. split.
  - apply (proj2 (earliest_scan_owns events hash _) Hn Ht). split.
    + apply list_elem_of_In. vm_compute. tauto.
    + intros other H. apply list_elem_of_In in H. vm_compute in H.
      repeat (destruct H as [H|H]; [injection H as <-; vm_compute; discriminate|]). destruct H.
  - apply (proj1 (earliest_scan_owns _ hash _)). vm_compute. reflexivity.
Defined.
End Bottle.
